(* ===== verification/_CoqProject ===== *)
-Q . S2P
Prelude.v
Numeric.v
RealNum.v
FloatNum.v
Types.v
InputParameter.v
Search.v
Scanf.v
ConfigParser.v
Process.v
ConfigFacts.v
Circuit.v
Formula.v
FormulaFacts.v
TechTables.v
Technology.v
TechFacts.v
TechTrend.v
TechInit.v
OutputDriver.v
Decoders.v
Predecode.v
BinarySenseAmp.v
Peripherals.v
Tsv.v
Aos.v
Cell.v
CellReader.v
Wires.v
MatData.v
MatInit.v
MatArea.v
MatTiming.v
MatPower.v
LeafFacts.v
ChainFacts.v
WireFacts.v
LeafCorrect.v
CellCorrect.v
WireCorrect.v
TechCorrect.v
MatFacts.v
MatLegal.v
MatReal.v
MatCorrect.v
SubArray.v
Htree.v
Bank.v
BankWithHtree.v
BankWithoutHtree.v
Geometry.v
Result.v
Explore.v
ExploreFacts.v
Demo.v
Metrics.v
Correctness.v
Gem5Arrays.v
Gem5Policies.v
Gem5Rrip.v
Gem5Tree.v
Gem5Dueling.v
Gem5Cache.v
Gem5Facts.v
Gem5PolicyFacts.v
Gem5RripFacts.v
Gem5TreeFacts.v
Gem5DuelingFacts.v
Gem5Correct.v
Gem5PolicyCorrect.v
