(* ===== verification/Prelude.v ===== *)
(** * NS-Cache: a verification library

    NS-Cache (src/src) estimates area, latency, energy and leakage of a cache or
    memory and searches the space of array organisations for the best one per
    optimisation target; a copy of gem5 (src/gem5_llc_refresh) simulates such a
    cache with refresh.  This library models the program's own logic and proves
    what makes it correct.

    ** The program and where it is modelled

    main.cpp reads a configuration (InputParameter), sets up the process
    (Technology), and for every memory cell runs [nvsim]: a nest of fourteen
    loops (macros.h) constructs a bank per design (Bank, BankWithHtree or
    BankWithoutHtree, made of SubArrays, made of mats and leaf circuits), and
    [Result::compareAndUpdate] keeps the best per target; tag designs, wire
    refinement, a constrained pass and a merge over cells follow.

    - Prelude: record update, the monads [Outcome] (a value or the end of the
      program, by [exit] or undefined behaviour of a circuit) and [Init] (an
      initialisation that runs to its end, rejects the object, has undefined
      behaviour or is halted by a circuit), [checked] for [int] results, the loop
      combinators, generic lemmas, tactics and hint databases.
    - Numeric, RealNum, FloatNum: [double] as the class [Num] with instances at
      exact reals and at IEEE binary64; [NumOrder] and [NumInt] are the laws a
      theorem may use, and FloatNum discharges them for binary64.
    - Types: typedef.h.  InputParameter: InputParameter.h, defaults, validation
      and the search bounds.  Scanf, ConfigParser: ReadInputParameterFromFile
      with every option, on the C library functions it calls and with its buffer of
      5000 characters.
    - Process: Technology.h, InterpolateWith, SetLayerCount and the choice of
      tables in main.cpp, over tables that are a parameter.  TechTables: the device
      and via tables of Technology::Initialize, one definition per node and
      roadmap.  Technology: Technology::Initialize over them and
      initializeTechnology; storage that is never written keeps its value.
    - Formula: formula.cpp and constant.h, every function, for bulk, FinFET and
      gate-all-around nodes.
    - OutputDriver, Decoders (BasicDecoder, RowDecoder), Predecode
      (PredecodeBlock), Peripherals (Mux, Comparator, Precharger, SenseAmp),
      BinarySenseAmp: the classes of the same names, every phase
      ([Initialize], [CalculateArea], [CalculateRC], [CalculateLatency],
      [CalculatePower]); an array access outside its bounds, the dereference of a
      null pointer and the use of a member before it is set are undefined
      behaviour, [Exit undefined].
    - Wires (Wire), Tsv (TSV and FunctionUnit::logical_effort), Aos
      (AOSFETCompactModel), Cell and CellReader (MemCell, its operations and the
      reader of cell files): the classes, every operation that changes state.
    - MatData, MatInit, MatArea, MatTiming, MatPower: the class Mat, one file per
      phase, for every kind of cell.  An early return is a step of the monad
      [Mat.Flow]; [long double], which the folded layout uses, is the class
      [Extended] with instances at the reals and at an 80-bit format over binary64.
    - Circuit: FunctionUnit, the global objects, and the classes [CircuitOps] and
      [CircuitLaws]: what a subarray or bank calls on its components and relies on.
      Every such call may end the program; a bank, the search and the passes after
      it hand that end on.
    - SubArray, Htree, Bank, BankWithHtree, BankWithoutHtree: the classes, all
      phases, the H-tree routing loops, the assignment operators.
    - Result: comparison, limits, bandwidth, cache metrics and gem5 parameters.
    - Search, Explore: the loop nests and [nvsim], the sweep over cells, the merge.
    - Gem5Arrays, Gem5Cache: BankedArray, ALUFreeListArray and CacheMemory with the
      refresh (Specf) variants, over any replacement policy.
    - Gem5Policies: the interface of a replacement policy as the class
      [ReplacementPolicy], what a cache relies on as the class [PolicyLaws], and
      the policies LRU, WeightedLRU, BIP, MRU, FIFO, SecondChance, LFU and Random;
      Gem5Rrip: the saturating counter, BRRIP and SHiP; Gem5Tree: TreePLRU;
      Gem5Dueling: the dueling monitor and the policy that runs two others.  The
      generator of random numbers is the class [RandomMt].
    - Geometry, ExploreFacts, FormulaFacts, LeafFacts, ChainFacts, WireFacts,
      TechFacts, TechTrend, TechInit, MatFacts, MatLegal, MatReal, Gem5Facts,
      Gem5PolicyFacts, Gem5RripFacts, Gem5TreeFacts, Gem5DuelingFacts: the lemmas;
      Correctness, ConfigFacts, LeafCorrect, CellCorrect, WireCorrect, TechCorrect,
      MatCorrect, Gem5Correct, Gem5PolicyCorrect: the claims; Metrics: the access
      modes; Demo: a runnable instance on binary64.

    State is passed explicitly: an object is a record, a method a function from
    the object (and the globals it reads) to the new object.  Machine integers are
    [Z] with [wrap32] and [wrap64] where the source may overflow, and [checked] for
    the wire and bit counts of the banks, whose overflow is undefined.  The
    conversion of a [double] to an integer is the truncation to [Z].

    ** What the theorems show

    - Exploration, over spaces of powers of two within the integer widths: the data
      search visits exactly the points of the space and returns per target the fold
      of [compareAndUpdate] over the valid designs, so nothing within the limits
      beats the result, or stops at the first design a circuit of which ends the
      program; likewise the tag search.  Constrained results obey all limits;
      refinement never worsens a result; the merge keeps the best cell within the
      limits.  The program's own bounds form such a space up to 64 ways, and
      overflow an [int] beyond.
    - Banks: every valid bank of either organisation stores exactly the configured
      capacity; H-tree routing ends, divides address and data bits exactly and
      overflows no wire count of fewer than 2^31 subarrays.
    - Mats: the rows and columns a bank asks for are kept by every phase, which is
      what [CircuitLaws] assumes of a mat, seen through [Mat.view]; an accepted mat
      is legal, all its decoders are valid and its DRAM sense voltage is the one of charge sharing; the folded
      layout takes the number of tiers with the least area; DRAM writes and
      restorations settle exactly as far as asked; no DRAM reports a figure that is
      not a finite number; and repeaters found once are reused.
    - Wires: the optimal spacing is optimal, and the search for a slower repeater
      ends and returns the least size within the penalty.
    - Cells: what the reader of cell files accepts and what it makes of the lines of
      a file, the operating point of an oxide transistor and the bracket of the current
      behind its contacts; a cell file of the repository is read and evaluated.
    - Configuration: option lookup by longest keyword, overflow-free parsing, a
      print and read round trip, the lines that are read and the validity of the
      result, and the inputs on which the reader does not end, overruns its buffer or
      accepts what it should not.
    - Process: for which nodes and roadmaps a process is built and for which the
      program exits; every process that is built is positive where it must be and,
      at bulk nodes, is all that the theorems about drivers, decoders and wires
      assume of one; the current tables are the straight lines between their
      points and follow the temperature, but for three misprinted entries; what
      the blend of nodes loses.  Also independence of the order of layer counts,
      order of the access modes, rounding of cycles.
    - Leaf circuits: bulk folding is minimal, drivers of bulk nodes are sound chains
      or overrun their arrays, exactly where, predecoders run through all phases and
      decode every address, the delay formula is monotone, where the binary sense
      amplifier applies and its margin; and where widening, drivers and predecoders
      go wrong.
    - gem5: over any lawful policy the cache refines a finite map under every
      sequence of operations and eviction makes room; bank accesses do not overlap.
      Every policy but SHiP, which needs packets the cache does not pass, is lawful,
      Dueling when both of its policies are.  TreePLRU protects an entry for as many
      accesses as its tree has levels, SecondChance ends and spares as it should,
      BRRIP ages its candidates together, the counters saturate; and where the
      policies do not do what their comments say.

    ** Bounds and fuel

    Doubling loops over [int] have fuel 32, more than the doublings a 31-bit bound
    admits (Search proves the fuel is enough on every well-posed space); the H-tree
    loops have one more than the number of levels; the configuration reader one
    more than the length of the file, and its end is proved except for the
    first-line case, where it provably never ends; the reader of cell files is the
    same.  A line of 5000 characters or more overruns their buffers.  The folding
    loop has fuel 64, since the tiers are a 64-bit number, and is
    proved to end within it; the loops over repeater spacings and sizes have the
    number of steps that fit between their bounds; the search over numbers of
    repeaters has 32, above the logarithm of an [int]; the solvers of the oxide
    transistor have the 40 and 80 iterations of the code.  Predecoders are proved for 1
    to 18 address bits because larger ones are undefined.  The search of SecondChance
    has one more iteration than there are candidates, and is proved to end within
    it; the loops over a tree have 64, since an index of 64 bits is halved or
    doubled, and trees are proved for 2 to 2^31 leaves.

    ** Not modelled

    LevelShifter, which is included and never used; everything that only prints
    (Result, PrintProperty, PrintCell, CSV) and the assignment of pruning limits in
    main.cpp, whose results are not used; the rest of gem5, which is vendored.  Banks
    and subarrays call mats, wires and leaf circuits through [CircuitOps], whose
    operations see an object through the members its callers read and may end the
    program with any message; the detailed models of Mat, Wire and the leaf circuits
    keep more state than that, so they are related to the interface by [Mat.view] and
    the theorems about it instead of being an instance of it.  Which designs are ended
    by a circuit is therefore not decided for the search as a whole.  Theorems that
    name the type [R] are about exact reals: rounding may make the program differ,
    and [enlarge_not_free] is a case where it does.  [CellScaling] has no theorem; its
    only call is commented out.  The totality results of the leaf circuits are for
    bulk nodes: at FinFET nodes several of the formulas read members that are not set. *)
From stdpp Require Import base list numbers strings.
From Stdlib Require Import ZArith Lia.
Open Scope Z_scope.

(** ** Functional record update

    The C++ objects are mutable; an assignment [obj.field = v] is written
    [obj <| field := v |>].  A record opts in by giving its eta expansion as an
    instance of [RecordEta]; the updater of one field is then computed from it. *)

Class RecordEta (R : Type) := record_eta : R -> R.

Class FieldUpdate {R T : Type} (proj : R -> T) := field_update : (T -> T) -> R -> R.

Ltac derive_field_update :=
  lazymatch goal with
  | |- @FieldUpdate ?R ?T ?p =>
      let inst := constr:(_ : RecordEta R) in
      let eta := eval hnf in inst in
      exact (fun (f : T -> T) (r : R) =>
        ltac:(let body := eval cbv beta in (eta r) in
              let abs := eval pattern (p r) in body in
              lazymatch abs with
              | ?g _ => let t := eval cbv beta in (g (f (p r))) in exact t
              end))
  end.

#[export] Hint Extern 1 (FieldUpdate _) => derive_field_update : typeclass_instances.

Declare Scope cpp_scope.
Delimit Scope cpp_scope with cpp.
Open Scope cpp_scope.

Notation "r <| p := v |>" := (field_update (proj := p) (fun _ => v) r)
  (at level 1, left associativity, p at level 9, v at level 200,
   format "r  <|  p  :=  v  |>") : cpp_scope.

(** ** Machine integers

    [int] is a 32-bit and [long], [long long] a 64-bit two's complement
    integer; both are [Z] here and every operation that can leave the range
    is wrapped.  Integer division truncates ([Z.quot]). *)

Definition int_min : Z := - 2 ^ 31.
Definition int_max : Z := 2 ^ 31 - 1.

Definition wrap32 (z : Z) : Z := (z + 2 ^ 31) mod 2 ^ 32 - 2 ^ 31.
Definition wrap64 (z : Z) : Z := (z + 2 ^ 63) mod 2 ^ 64 - 2 ^ 63.

Lemma wrap32_small z : - 2 ^ 31 <= z < 2 ^ 31 -> wrap32 z = z.
Proof. intros. unfold wrap32. rewrite Z.mod_small; lia. Qed.

Lemma wrap64_small z : - 2 ^ 63 <= z < 2 ^ 63 -> wrap64 z = z.
Proof. intros. unfold wrap64. rewrite Z.mod_small; lia. Qed.

Lemma wrap32_range z : - 2 ^ 31 <= wrap32 z < 2 ^ 31.
Proof. unfold wrap32. pose proof (Z.mod_pos_bound (z + 2 ^ 31) (2 ^ 32)). lia. Qed.

(** ** Powers of two *)

Lemma pow2_pos k : 0 <= k -> 0 < 2 ^ k.
Proof. intros. apply Z.pow_pos_nonneg; lia. Qed.

Lemma pow2_le a b : 0 <= a <= b -> 2 ^ a <= 2 ^ b.
Proof. intros. apply Z.pow_le_mono_r; lia. Qed.

Lemma pow2_lt a b : 0 <= a < b -> 2 ^ a < 2 ^ b.
Proof. intros. apply Z.pow_lt_mono_r; lia. Qed.

Lemma pow2_lt_inv a b : 0 <= b -> 2 ^ a < 2 ^ b -> a < b.
Proof.
  intros Hb H. destruct (Z.le_gt_cases b a); [|lia].
  pose proof (pow2_le b a). lia.
Qed.

Lemma pow2_split a b : 0 <= b <= a -> 2 ^ a = 2 ^ (a - b) * 2 ^ b.
Proof. intros. rewrite <- Z.pow_add_r by lia. f_equal. lia. Qed.

Lemma pow2_succ a : 0 <= a -> 2 ^ (a + 1) = 2 * 2 ^ a.
Proof. intros. rewrite Z.pow_add_r by lia. lia. Qed.

Lemma quot_pow2 a b : 0 <= b <= a -> Z.quot (2 ^ a) (2 ^ b) = 2 ^ (a - b).
Proof.
  intros. rewrite (pow2_split a b) by lia.
  apply Z.quot_mul. pose proof (pow2_pos b). lia.
Qed.

Lemma quot_pow2_zero a b : 0 <= a < b -> Z.quot (2 ^ a) (2 ^ b) = 0.
Proof. intros. apply Z.quot_small. pose proof (pow2_pos a). pose proof (pow2_lt a b). lia. Qed.

Lemma quot_nonneg a b : 0 <= a -> 0 < b -> Z.quot a b = a / b.
Proof. intros. apply Z.quot_div_nonneg; lia. Qed.

(** [x] is a power of two whose exponent is [k]. *)
Definition is_pow2 (x k : Z) : Prop := 0 <= k /\ x = 2 ^ k.

Create HintDb nscache.
#[export] Hint Resolve pow2_pos pow2_le pow2_lt : nscache.

(** Solve or simplify a wrapped expression whose argument is in range. *)
Ltac unwrap := repeat first
  [ rewrite wrap32_small by (try lia; try nia)
  | rewrite wrap64_small by (try lia; try nia) ].

(** ** Program outcomes

    [exit(-1)] ends the run with a message; everything else returns.  Where a
    component itself has undefined behaviour, that is a message too. *)

Inductive Outcome (A : Type) : Type :=
| Ret (a : A)
| Exit (message : string).
Arguments Ret {A} _.
Arguments Exit {A} _.

Definition outcome_bind {A B : Type} (m : Outcome A) (f : A -> Outcome B) : Outcome B :=
  match m with
  | Ret a => f a
  | Exit e => Exit e
  end.

Notation "'let?' x ':=' m 'in' k" := (outcome_bind m (fun x => k))
  (at level 10, x pattern, m at level 200, k at level 200,
   format "'let?'  x  ':='  m  'in'  '//' k") : cpp_scope.

Fixpoint outcome_fold {A S : Type} (f : S -> A -> Outcome S) (l : list A) (s : S) : Outcome S :=
  match l with
  | [] => Ret s
  | x :: xs => let? s' := f s x in outcome_fold f xs s'
  end.

(** An invariant of every step is an invariant of the whole run. *)
Lemma outcome_fold_inv {A S} (I : S -> Prop) (f : S -> A -> Outcome S) l :
  (forall s x s', In x l -> I s -> f s x = Ret s' -> I s') ->
  forall s s', I s -> outcome_fold f l s = Ret s' -> I s'.
Proof.
  induction l as [|x l IH]; intros Hstep s s' HI; cbn.
  - by intros [= <-].
  - destruct (f s x) as [s1|e] eqn:E; cbn; [|done].
    apply IH; [intros ???? ; eapply Hstep; simpl; eauto|].
    eapply Hstep; simpl; eauto.
Qed.

(** [yields P m]: [P] of the result of [m], if it returns. *)
Definition yields {A : Type} (P : A -> Prop) (m : Outcome A) : Prop :=
  match m with
  | Ret a => P a
  | Exit _ => True
  end.

Lemma yields_bind {A B} (P : A -> Prop) (Q : B -> Prop) m (f : A -> Outcome B) :
  yields P m -> (forall a, P a -> yields Q (f a)) -> yields Q (let? x := m in f x).
Proof. destruct m; cbn; auto. Qed.

Lemma yields_weaken {A} (P Q : A -> Prop) m : yields P m -> (forall a, P a -> Q a) -> yields Q m.
Proof. destruct m; cbn; auto. Qed.

(** A step whose result does not matter. *)
Lemma yields_any {A B} (Q : B -> Prop) m (f : A -> Outcome B) :
  (forall a, yields Q (f a)) -> yields Q (let? x := m in f x).
Proof. destruct m; cbn; auto. Qed.

Lemma yields_fold {A S} (I : S -> Prop) (f : S -> A -> Outcome S) l :
  (forall s x, I s -> yields I (f s x)) -> forall s, I s -> yields I (outcome_fold f l s).
Proof.
  intros Hf. induction l as [|x l IH]; intros s HI; cbn; [done|].
  apply (yields_bind I); [by apply Hf|exact IH].
Qed.

(** ** Initialisation as a computation

    [Initialize] of a component either runs to its end ([Done]), takes one of
    the early returns that mark the configuration [invalid] ([Invalid]), would
    read an unset array element, leave the bounds of an array or overflow an
    [int] ([Undefined], no meaning in C++), or calls a circuit that ends the
    program ([Halt], with the message of that circuit). *)

Inductive Init (A : Type) : Type :=
| Done (a : A)
| Invalid
| Undefined
| Halt (message : string).
Arguments Done {A} _.
Arguments Invalid {A}.
Arguments Undefined {A}.
Arguments Halt {A} _.

Definition init_bind {A B : Type} (m : Init A) (f : A -> Init B) : Init B :=
  match m with
  | Done a => f a
  | Invalid => Invalid
  | Undefined => Undefined
  | Halt e => Halt e
  end.

Notation "'let!' x ':=' m 'in' k" := (init_bind m (fun x => k))
  (at level 10, x pattern, m at level 200, k at level 200,
   format "'let!'  x  ':='  m  'in'  '//' k") : cpp_scope.

(** [if (b) { invalid = true; initialized = true; return; }] *)
Definition reject_if (b : bool) : Init unit := if b then Invalid else Done tt.

(** A call of a circuit. *)
Definition circuit {A : Type} (m : Outcome A) : Init A :=
  match m with
  | Ret a => Done a
  | Exit e => Halt e
  end.

(** [safe P m]: [m] has no undefined behaviour of its own (a circuit it calls may
    still end the program), and [P] of the result if there is one. *)
Definition safe {A : Type} (P : A -> Prop) (m : Init A) : Prop :=
  match m with
  | Done a => P a
  | Invalid => True
  | Undefined => False
  | Halt _ => True
  end.

Lemma safe_circuit {A} (P : A -> Prop) m : yields P m -> safe P (circuit m).
Proof. by destruct m. Qed.

Lemma safe_circuit_bind {A B} (P : A -> Prop) (Q : B -> Prop) m (f : A -> Init B) :
  yields P m -> (forall a, P a -> safe Q (f a)) -> safe Q (init_bind (circuit m) f).
Proof. destruct m; cbn; auto. Qed.

Lemma safe_bind {A B} (P : A -> Prop) (Q : B -> Prop) m (f : A -> Init B) :
  safe P m -> (forall a, P a -> safe Q (f a)) -> safe Q (let! x := m in f x).
Proof. destruct m; simpl; auto. Qed.

Lemma safe_weaken {A} (P Q : A -> Prop) m :
  safe P m -> (forall a, P a -> Q a) -> safe Q m.
Proof. destruct m; simpl; auto. Qed.

Lemma safe_reject (b : bool) : safe (fun _ => b = false) (reject_if b).
Proof. destruct b; simpl; auto. Qed.

Lemma safe_done {A} (P : A -> Prop) m a : safe P m -> m = Done a -> P a.
Proof. intros H ->. exact H. Qed.

(** The result of an [int] operation; leaving the range is undefined. *)
Definition checked (z : Z) : Init Z := if (- 2 ^ 31 <=? z) && (z <? 2 ^ 31) then Done z else Undefined.

Lemma checked_in z : - 2 ^ 31 <= z < 2 ^ 31 -> checked z = Done z.
Proof. intros Hz. unfold checked. by rewrite (proj2 (Z.leb_le _ _)), (proj2 (Z.ltb_lt _ _)) by lia. Qed.

(** [while (cond) body], with as many iterations as [fuel] allows.  Running out
    of fuel is [Undefined], so a safety theorem also shows termination. *)
Fixpoint while_loop {S : Type} (fuel : nat) (cond : S -> bool) (body : S -> Init S)
  (s : S) : Init S :=
  if cond s then
    match fuel with
    | O => Undefined
    | Datatypes.S n => let! s' := body s in while_loop n cond body s'
    end
  else Done s.

(** The loop rule: an invariant kept by the body, and a measure it decreases. *)
Lemma while_loop_safe {S} (I : S -> Prop) (mu : S -> nat) cond body :
  (forall s, I s -> cond s = true -> safe (fun s' => I s' /\ (mu s' < mu s)%nat) (body s)) ->
  forall fuel s, I s -> (mu s < fuel)%nat ->
  safe (fun s' => I s' /\ cond s' = false) (while_loop fuel cond body s).
Proof.
  intros Hbody fuel. induction fuel as [|n IH]; intros s HI Hmu; [lia|].
  cbn [while_loop]. destruct (cond s) eqn:E; [|by split].
  apply (safe_bind _ _ _ _ (Hbody s HI E)).
  intros s' [HI' Hlt]. apply IH; [done|lia].
Qed.

(** ** C arrays

    [new int[n]] gives [n] unset elements; reading one that has not been
    written, or any access outside [0, n), is undefined. *)

Abbreviation array A := (list (option A)).

Definition new_array {A : Type} (n : Z) : array A := replicate (Z.to_nat n) None.

Definition aread {A : Type} (l : array A) (i : Z) : Init A :=
  if i <? 0 then Undefined
  else match l !! Z.to_nat i with
       | Some (Some x) => Done x
       | _ => Undefined
       end.

Definition awrite {A : Type} (l : array A) (i : Z) (x : A) : Init (array A) :=
  if (0 <=? i) && (i <? Z.of_nat (length l))
  then Done (<[Z.to_nat i := Some x]> l)
  else Undefined.

(** The first [n] elements are set and satisfy [P]. *)
Definition filled {A : Type} (P : Z -> A -> Prop) (n : Z) (l : array A) : Prop :=
  forall i, 0 <= i < n -> exists x, l !! Z.to_nat i = Some (Some x) /\ P i x.

Lemma aread_filled {A} (P : Z -> A -> Prop) n l i :
  filled P n l -> 0 <= i < n -> safe (P i) (aread l i).
Proof.
  intros Hf Hi. unfold aread. destruct (Z.ltb_spec i 0); [lia|].
  destruct (Hf i Hi) as (x & -> & HP). exact HP.
Qed.

(** Writing the next element extends the filled prefix. *)
Lemma awrite_next {A} (P : Z -> A -> Prop) n l x :
  filled P n l -> 0 <= n < Z.of_nat (length l) -> P n x ->
  safe (fun l' => filled P (n + 1) l' /\ length l' = length l) (awrite l n x).
Proof.
  intros Hf Hn HP. unfold awrite.
  destruct (Z.leb_spec 0 n), (Z.ltb_spec n (Z.of_nat (length l))); simpl; try lia.
  split; [|by rewrite length_insert].
  intros i Hi. destruct (Z.eq_dec i n) as [->|Hne].
  - exists x. split; [apply list_lookup_insert_eq; lia|done].
  - destruct (Hf i) as (y & Hy & HPy); [lia|]. exists y.
    split; [|done]. rewrite list_lookup_insert_ne; [done|lia].
Qed.

Lemma filled_new {A} (P : Z -> A -> Prop) l : filled P 0 l.
Proof. intros i Hi. lia. Qed.

Lemma length_new_array {A} n : 0 <= n -> Z.of_nat (length (@new_array A n)) = n.
Proof. intros. unfold new_array. rewrite length_replicate. lia. Qed.

(** [for (int i = lo; i < hi; i++) body] over an [Init] computation. *)
Fixpoint init_fold {A S : Type} (body : S -> A -> Init S) (l : list A) (s : S) : Init S :=
  match l with
  | [] => Done s
  | x :: xs => let! s' := body s x in init_fold body xs s'
  end.

Definition init_for {S : Type} (lo hi : Z) (body : S -> Z -> Init S) (s : S) : Init S :=
  init_fold body (seqZ lo (hi - lo)) s.

Lemma init_fold_safe {A S} (I : S -> Prop) (body : S -> A -> Init S) l :
  (forall s x, In x l -> I s -> safe I (body s x)) -> forall s, I s -> safe I (init_fold body l s).
Proof.
  induction l as [|x l IH]; intros Hb s HI; cbn; [done|].
  apply (safe_bind I); [apply Hb; simpl; auto|]. intros s' HI'.
  apply IH; [|done]. intros. apply Hb; simpl; auto.
Qed.

Lemma init_for_safe {S} (I : S -> Prop) lo hi (body : S -> Z -> Init S) :
  (forall s i, lo <= i < hi -> I s -> safe I (body s i)) -> forall s, I s -> safe I (init_for lo hi body s).
Proof.
  intros Hb s HI. unfold init_for. apply init_fold_safe; [|done].
  intros s' i Hi HI'. apply Hb; [|done].
  apply list_elem_of_In, elem_of_seqZ in Hi. lia.
Qed.

(** All elements above index [n] are set (arrays filled from the end). *)
Definition set_above {A : Type} (n : Z) (l : array A) : Prop :=
  forall i, n < i < Z.of_nat (length l) -> exists x, l !! Z.to_nat i = Some (Some x).

Lemma aread_above {A} (l : array A) n i :
  set_above n l -> 0 <= i -> n < i < Z.of_nat (length l) -> safe (fun _ => True) (aread l i).
Proof.
  intros Hs H0 Hi. unfold aread. destruct (Z.ltb_spec i 0); [lia|].
  by destruct (Hs i Hi) as [x ->].
Qed.

Lemma awrite_above {A} (l : array A) n x :
  set_above n l -> 0 <= n < Z.of_nat (length l) ->
  safe (fun l' => set_above (n - 1) l' /\ length l' = length l) (awrite l n x).
Proof.
  intros Hs Hn. unfold awrite.
  destruct (Z.leb_spec 0 n), (Z.ltb_spec n (Z.of_nat (length l))); simpl; try lia.
  split; [|by rewrite length_insert]. intros i Hi. rewrite length_insert in Hi.
  destruct (Z.eq_dec i n) as [->|Hne].
  - exists x. apply list_lookup_insert_eq. lia.
  - destruct (Hs i) as [y Hy]; [lia|]. exists y.
    destruct (Z.le_gt_cases 0 i); [rewrite list_lookup_insert_ne; [done|lia]|lia].
Qed.

(** [m] takes no early return; it may call a circuit that ends the program only
    if [halts]. *)
Definition proceeds {A : Type} (halts : bool) (m : Init A) : Prop :=
  match m with
  | Invalid => False
  | Halt _ => halts = true
  | _ => True
  end.

Lemma proceeds_bind {A B} k (m : Init A) (f : A -> Init B) :
  proceeds k m -> (forall a, proceeds k (f a)) -> proceeds k (let! x := m in f x).
Proof. intros Hm Hf. destruct m; [apply Hf|done|done|done]. Qed.

Lemma proceeds_done {A} k (a : A) : proceeds k (Done a).
Proof. done. Qed.

Lemma proceeds_aread {A} k (l : array A) i : proceeds k (aread l i).
Proof. unfold aread. repeat case_match; done. Qed.

Lemma proceeds_awrite {A} k (l : array A) i x : proceeds k (awrite l i x).
Proof. unfold awrite. case_match; done. Qed.

Lemma proceeds_checked k z : proceeds k (checked z).
Proof. unfold checked. case_match; done. Qed.

Lemma proceeds_circuit {A} (m : Outcome A) : proceeds true (circuit m).
Proof. by destruct m. Qed.

Lemma proceeds_for {S} k lo hi (body : S -> Z -> Init S) s :
  (forall s i, proceeds k (body s i)) -> proceeds k (init_for lo hi body s).
Proof.
  intros Hb. unfold init_for. revert s. induction (seqZ lo (hi - lo)) as [|i l IH]; intros s; [done|].
  cbn. by apply proceeds_bind.
Qed.

Lemma proceeds_while {S} k cond (body : S -> Init S) n :
  (forall s, proceeds k (body s)) -> forall s, proceeds k (while_loop n cond body s).
Proof.
  intros Hb. induction n as [|n IH]; intros s; cbn; destruct (cond s); try done. by apply proceeds_bind.
Qed.

#[export] Hint Resolve proceeds_bind proceeds_done proceeds_aread proceeds_awrite proceeds_checked
  proceeds_circuit proceeds_for proceeds_while : nscache.

(** A safe computation that takes no early return has a result ... *)
Lemma safe_proceeds {A} (P : A -> Prop) m : safe P m -> proceeds false m -> exists a, m = Done a /\ P a.
Proof. destruct m; cbn; [eauto|done..]. Qed.

(** ... unless a circuit ends the program. *)
Lemma safe_resolves {A} (P : A -> Prop) m : safe P m -> proceeds true m ->
  (exists a, m = Done a /\ P a) \/ exists e, m = Halt e.
Proof. destruct m; cbn; [eauto|done|done|eauto]. Qed.

Lemma proceeds_bind_safe {A B} k (P : A -> Prop) (m : Init A) (f : A -> Init B) :
  safe P m -> proceeds k m -> (forall a, P a -> proceeds k (f a)) -> proceeds k (let! x := m in f x).
Proof. destruct m; cbn; auto. Qed.

Lemma while_loop_proceeds {S} k (I : S -> Prop) (mu : S -> nat) cond body :
  (forall s, I s -> cond s = true ->
     safe (fun s' => I s' /\ (mu s' < mu s)%nat) (body s) /\ proceeds k (body s)) ->
  forall fuel s, I s -> (mu s < fuel)%nat -> proceeds k (while_loop fuel cond body s).
Proof.
  intros Hbody fuel. induction fuel as [|n IH]; intros s HI Hmu; [lia|].
  cbn [while_loop]. destruct (cond s) eqn:E; [|done]. destruct (Hbody s HI E) as [Hs Hp].
  apply (proceeds_bind_safe _ _ _ _ Hs Hp). intros s' [HI' Hlt]. apply IH; [done|lia].
Qed.
