(* ===== verification/Numeric.v ===== *)
(** * Floating-point numbers

    The program computes in [double].  [Num] lists the operations of [double]
    and of [<math.h>] that the sources use; every definition of the library is
    written against it, in the evaluation order of the source, so that it runs
    on IEEE binary64 ([float_num], the kernel's primitive floats) and on exact
    reals ([RealNum.R_num]).

    Theorems say which laws they need: [NumOrder] (comparison is a strict
    order: all binary64 values satisfy it, NaN included) or [NumInt] (the
    integer-valued logarithms, powers and quotients the array geometry is
    computed from). *)
From S2P Require Import Prelude.
From stdpp Require Import base numbers.
From Stdlib Require Import ZArith Lia Floats.
Open Scope Z_scope.

Class Num (F : Type) : Type := {
  nadd : F -> F -> F;
  nsub : F -> F -> F;
  nmul : F -> F -> F;
  ndiv : F -> F -> F;
  nabs : F -> F;
  nsqrt : F -> F;
  nlog : F -> F;
  nlog2 : F -> F;
  nexp : F -> F;
  nsin : F -> F;
  npow : F -> F -> F;
  nfloor : F -> F;
  nceil : F -> F;
  nltb : F -> F -> bool;
  nleb : F -> F -> bool;
  neqb : F -> F -> bool;
  nfinite : F -> bool;            (* std::isfinite *)
  of_Z : Z -> F;                  (* integer to double *)
  lit : Z -> Z -> F;              (* the literal m * 10^e *)
  trunc : F -> Z                  (* double to integer, toward zero *)
}.

Declare Scope num_scope.
Delimit Scope num_scope with num.
Notation "x + y" := (nadd x y) : num_scope.
Notation "x - y" := (nsub x y) : num_scope.
Notation "x * y" := (nmul x y) : num_scope.
Notation "x / y" := (ndiv x y) : num_scope.
Notation "x <? y" := (nltb x y) : num_scope.
Notation "x <=? y" := (nleb x y) : num_scope.
Notation "x >? y" := (nltb y x) (only parsing) : num_scope.
Notation "x >=? y" := (nleb y x) (only parsing) : num_scope.
Notation "x =? y" := (neqb x y) : num_scope.
(** [# z]: the implicit conversion of an integer operand. *)
Notation "# z" := (of_Z z%Z) (at level 8, z at level 7, format "# z") : num_scope.

(** formula.h: [MAX] and [MIN]; global.h: the sentinels. *)
Definition MAX {F} `{Num F} (a b : F) : F := if (b <? a)%num then a else b.
Definition MIN {F} `{Num F} (a b : F) : F := if (a <? b)%num then a else b.
(** [std::max] and [std::min]: the first argument when neither is less. *)
Definition std_max {F} `{Num F} (a b : F) : F := if (a <? b)%num then b else a.
Definition std_min {F} `{Num F} (a b : F) : F := if (b <? a)%num then b else a.
Definition MINZ (a b : Z) : Z := if a <? b then a else b.

Definition invalid_value {F} `{Num F} : F := lit 1 41.
Definition invalid_value_min {F} `{Num F} : F := lit 1 (-41).
Definition infinite_ramp {F} `{Num F} : F := lit 1 41.

(** ** Laws *)

Class NumOrder (F : Type) `{Num F} : Prop := {
  nltb_irrefl : forall x : F, (x <? x)%num = false;
  nltb_trans : forall x y z : F,
    (x <? y)%num = true -> (y <? z)%num = true -> (x <? z)%num = true
}.

(** The integer computations the code performs through [double]:
    [(int)(log2(2^k) + 0.1)], [(int)log2(2^k)], [(int)pow(2, k)] and an exact
    quotient, for operands that a [double] represents exactly. *)
Class NumInt (F : Type) `{Num F} : Prop := {
  ilog2_round : forall k, 0 <= k < 53 -> trunc (nlog2 (of_Z (2 ^ k)) + lit 1 (-1))%num = k;
  ilog2_exact : forall k, 0 <= k < 53 -> trunc (nlog2 (of_Z (2 ^ k))) = k;
  ipow2_exact : forall k, 0 <= k < 31 -> trunc (npow (of_Z 2) (of_Z k)) = 2 ^ k;
  ndiv_exact : forall k b, 0 <= k -> 0 < b -> 2 ^ k * b < 2 ^ 53 ->
    ndiv (of_Z (2 ^ k * b)) (of_Z b) = of_Z (2 ^ k)
}.

(** [(int)(log2(x) + 0.1)], the program's integer logarithm. *)
Definition int_log2 {F} `{Num F} (x : F) : Z := trunc (nlog2 x + lit 1 (-1))%num.

(** ** IEEE binary64 *)

(** The part of libm that is not correctly rounded by IEEE 754. *)
Record Libm : Type := {
  libm_log : float -> float;
  libm_log2 : float -> float;
  libm_exp : float -> float;
  libm_sin : float -> float;
  libm_pow : float -> float -> float
}.

Definition float_of_Z (z : Z) : float := SF2Prim (binary_normalize prec emax z 0 false).

Definition exact_sf (z : Z) : spec_float :=
  match z with
  | Z0 => S754_zero false
  | Zpos p => S754_finite false p 0
  | Zneg p => S754_finite true p 0
  end.

(** A decimal literal is the correctly rounded quotient of two integers. *)
Definition float_lit (m e : Z) : float :=
  if 0 <=? e then float_of_Z (m * 10 ^ e)
  else SF2Prim (SFdiv prec emax (exact_sf m) (exact_sf (10 ^ (- e)))).

Definition sf_trunc (s : bool) (m : positive) (e : Z) : Z :=
  let a := if 0 <=? e then Zpos m * 2 ^ e else Zpos m / 2 ^ (- e) in
  if s then - a else a.

Definition float_trunc (x : float) : Z :=
  match Prim2SF x with
  | S754_finite s m e => sf_trunc s m e
  | _ => 0
  end.

(** Rounding to an integer-valued double; [-0.5] rounds up to [-0]. *)
Definition float_round_to (up : bool) (x : float) : float :=
  match Prim2SF x with
  | S754_finite s m e =>
      let t := sf_trunc s m e in
      let r := if (float_of_Z t =? x)%float then t
               else if up then (if s then t else t + 1)
               else (if s then t - 1 else t) in
      if r =? 0 then (if s then neg_zero else zero) else float_of_Z r
  | _ => x
  end.

Definition float_num (lm : Libm) : Num float := {|
  nadd := PrimFloat.add;
  nsub := PrimFloat.sub;
  nmul := PrimFloat.mul;
  ndiv := PrimFloat.div;
  nabs := PrimFloat.abs;
  nsqrt := PrimFloat.sqrt;
  nlog := libm_log lm;
  nlog2 := libm_log2 lm;
  nexp := libm_exp lm;
  nsin := libm_sin lm;
  npow := libm_pow lm;
  nfloor := float_round_to false;
  nceil := float_round_to true;
  nltb := PrimFloat.ltb;
  nleb := PrimFloat.leb;
  neqb := PrimFloat.eqb;
  nfinite := is_finite;
  of_Z := float_of_Z;
  lit := float_lit;
  trunc := float_trunc
|}.

Example float_lit_tenth : (float_lit 1 (-1) =? 0.1)%float = true.
Proof. vm_compute. reflexivity. Qed.

Example float_lit_huge : (float_lit 1 41 =? 1e41)%float = true.
Proof. vm_compute. reflexivity. Qed.

Example float_lit_perm : (float_lit 8854 (-21) =? 8.854e-18)%float = true.
Proof. vm_compute. reflexivity. Qed.

Example float_ceil_examples :
  (float_round_to true 2.5 =? 3)%float = true /\ (float_round_to false (-2.5) =? -3)%float = true.
Proof. vm_compute. split; reflexivity. Qed.

(** Binary64 comparison is a strict order on every value, NaN included. *)

Lemma SFltb_irrefl x : SFltb x x = false.
Proof.
  destruct x as [s|s| |s m e]; unfold SFltb; cbn; try (by destruct s); try done.
  destruct s; rewrite Z.compare_refl; cbn; rewrite ?Pos.compare_cont_refl, ?Pos.compare_refl; done.
Qed.

Ltac sf_cases :=
  repeat match goal with
  | |- context [Z.compare ?a ?b] => destruct (Z.compare_spec a b); subst
  | H : context [Z.compare ?a ?b] |- _ => destruct (Z.compare_spec a b); subst
  end.

Lemma SFltb_trans x y z : SFltb x y = true -> SFltb y z = true -> SFltb x z = true.
Proof.
  destruct x as [sx|sx| |sx mx ex], y as [sy|sy| |sy my ey], z as [sz|sz| |sz mz ez];
    unfold SFltb; cbn; repeat match goal with s : bool |- _ => destruct s end;
    try done; sf_cases; try done; try lia;
    change (Pos.compare_cont Eq) with Pos.compare;
    destruct (Pos.compare_spec mx my), (Pos.compare_spec my mz), (Pos.compare_spec mx mz);
    simpl; try done; lia.
Qed.

#[export] Instance float_order (lm : Libm) : @NumOrder float (float_num lm).
Proof.
  split; cbn.
  - intros x. rewrite ltb_spec. apply SFltb_irrefl.
  - intros x y z. rewrite !ltb_spec. apply SFltb_trans.
Qed.
