(* ===== verification/RealNum.v ===== *)
(** * Exact real arithmetic

    The instance of [Num] at the real numbers: what the formulas of the program
    compute before rounding.  Analytic statements (non-negativity, monotonicity,
    convexity of an interpolation) are made here. *)
From S2P Require Import Prelude Numeric.
From Stdlib Require Import ZArith Lia Reals Lra Zfloor.
Open Scope R_scope.

Definition Rltb (x y : R) : bool := if Rlt_dec x y then true else false.
Definition Rleb (x y : R) : bool := if Rle_dec x y then true else false.
Definition Reqb (x y : R) : bool := if Req_dec_T x y then true else false.

Definition Rtrunc (x : R) : Z := if Rle_dec 0 x then Zfloor x else (- Zfloor (- x))%Z.

(** [pow] for the positive bases the program uses, [log2] as a quotient. *)
#[export] Instance R_num : Num R := {|
  nadd := Rplus;
  nsub := Rminus;
  nmul := Rmult;
  ndiv := Rdiv;
  nabs := Rabs;
  nsqrt := sqrt;
  nlog := ln;
  nlog2 := fun x => ln x / ln 2;
  nexp := exp;
  nsin := sin;
  npow := Rpower;
  nfloor := fun x => IZR (Zfloor x);
  nceil := fun x => IZR (- Zfloor (- x));
  nltb := Rltb;
  nleb := Rleb;
  neqb := Reqb;
  nfinite := fun _ => true;
  of_Z := IZR;
  lit := fun m e => if Z.leb 0 e then IZR m * powerRZ 10 e else IZR m / powerRZ 10 (- e);
  trunc := Rtrunc
|}.

Lemma Rltb_true x y : Rltb x y = true <-> x < y.
Proof. unfold Rltb. destruct (Rlt_dec x y); split; congruence || lra. Qed.

Lemma Rltb_false x y : Rltb x y = false <-> y <= x.
Proof. unfold Rltb. destruct (Rlt_dec x y); split; congruence || lra. Qed.

Lemma Rleb_true x y : Rleb x y = true <-> x <= y.
Proof. unfold Rleb. destruct (Rle_dec x y); split; congruence || lra. Qed.

#[export] Instance R_order : NumOrder R.
Proof.
  split; cbn.
  - intros x. apply Rltb_false. lra.
  - intros x y z. rewrite !Rltb_true. lra.
Qed.

Lemma Rtrunc_unique (x : R) (k : Z) : (0 <= k)%Z -> IZR k <= x < IZR k + 1 -> Rtrunc x = k.
Proof.
  intros Hk Hx. unfold Rtrunc. destruct (Rle_dec 0 x) as [Hp|Hn].
  - apply Zfloor_eq. lra.
  - apply IZR_le in Hk. lra.
Qed.

Lemma IZR_pow2 (k : Z) : (0 <= k)%Z -> IZR (2 ^ k) = Rpower 2 (IZR k).
Proof.
  intros Hk. rewrite <- (Z2Nat.id k Hk).
  rewrite <- pow_IZR, <- Rpower_pow, INR_IZR_INZ by lra. reflexivity.
Qed.

Lemma Rlog2_pow2 (k : Z) : (0 <= k)%Z -> ln (IZR (2 ^ k)) / ln 2 = IZR k.
Proof.
  intros Hk. rewrite (IZR_pow2 k Hk). unfold Rpower. rewrite ln_exp.
  field. apply Rgt_not_eq. rewrite <- ln_1. apply ln_increasing; lra.
Qed.

Lemma Rlit_tenth : lit 1 (-1) = / 10 :> R.
Proof. unfold lit, R_num. replace (0 <=? -1)%Z with false by reflexivity. simpl. field. Qed.

#[export] Instance R_int : NumInt R.
Proof.
  split.
  - intros k Hk. apply Rtrunc_unique; [lia|].
    rewrite Rlit_tenth. cbn. rewrite Rlog2_pow2 by lia. lra.
  - intros k Hk. apply Rtrunc_unique; [lia|]. cbn. rewrite Rlog2_pow2 by lia. lra.
  - intros k Hk. apply Rtrunc_unique; [pose proof (pow2_pos k); lia|].
    cbn. rewrite (IZR_pow2 k) by lia. lra.
  - intros k b Hk Hb _. cbn. rewrite mult_IZR. field.
    apply not_0_IZR. lia.
Qed.
