(* ===== verification/FloatNum.v ===== *)
(** * Binary64 computes the geometry's integers exactly

    The integer laws [NumInt] hold of IEEE doubles: a quotient of integers
    below 2^53 whose exact value is a power of two is that power of two.  The
    logarithm and the power of libm are arguments; they are only required to be
    exact at powers of two, as libm documents for exactly representable
    results, and a concrete pair that is shows the requirement can be met. *)
From S2P Require Import Prelude Numeric.
From stdpp Require Import base numbers list.
From Stdlib Require Import ZArith Lia Floats.
Open Scope Z_scope.

Lemma digits2_shift (n : positive) (m : positive) :
  Zpos (digits2_pos (Pos.iter xO m n)) = Zpos n + Zpos (digits2_pos m).
Proof.
  revert m. induction n as [|n IH] using Pos.peano_ind; intros m.
  - simpl. lia.
  - rewrite Pos.iter_succ. simpl. rewrite Pos2Z.inj_succ, IH. lia.
Qed.

Lemma shift_pos_value (n m : positive) : Zpos (Pos.iter xO m n) = Zpos m * 2 ^ Zpos n.
Proof.
  induction n as [|n IH] using Pos.peano_ind.
  - simpl. lia.
  - rewrite Pos.iter_succ. rewrite Pos2Z.inj_succ, Z.pow_succ_r by lia.
    transitivity (2 * Zpos (Pos.iter xO m n)); [reflexivity|]. rewrite IH. ring.
Qed.

Lemma digits2_bounds (m : positive) :
  2 ^ (Zpos (digits2_pos m) - 1) <= Zpos m < 2 ^ Zpos (digits2_pos m).
Proof.
  induction m as [m IH|m IH|]; cbn [digits2_pos]; [| |simpl; lia].
  all: rewrite Pos2Z.inj_succ; replace (Z.succ _ - 1) with (Z.succ (Zpos (digits2_pos m) - 1)) by lia;
    rewrite !Z.pow_succ_r by lia; lia.
Qed.

Lemma digits2_unique (m : positive) d :
  2 ^ (d - 1) <= Zpos m < 2 ^ d -> Zpos (digits2_pos m) = d.
Proof.
  intros H. pose proof (digits2_bounds m) as B.
  assert (0 < d). { destruct (Z.lt_trichotomy d 0) as [|[|]]; try lia; [|subst; simpl in H; lia].
    rewrite (Z.pow_neg_r 2 d) in H; lia. }
  pose proof (pow2_lt_inv (d - 1) (Zpos (digits2_pos m))).
  pose proof (pow2_lt_inv (Zpos (digits2_pos m) - 1) d). lia.
Qed.

(** A mantissa of 53 digits is already rounded. *)
Lemma round_aux_53 (m : positive) e :
  Zpos (digits2_pos m) = 53 -> -1074 <= e <= 971 ->
  binary_round_aux prec emax false (Zpos m) e loc_Exact = S754_finite false m e.
Proof.
  intros Hd He. unfold binary_round_aux, shr_fexp. cbn [shr_record_of_loc Zdigits2].
  assert (Hf : fexp prec emax (53 + e) - e = 0).
  { unfold fexp, SpecFloat.emin. change prec with 53. change emax with 1024. lia. }
  rewrite Hd, Hf. cbn [shr shr_m loc_of_shr_record round_nearest_even Zdigits2 shr_record_of_loc].
  rewrite Hd, Hf. cbn [shr shr_m].
  destruct (Z.leb_spec e (emax - prec)); [done|]. change (emax - prec) with 971 in *. lia.
Qed.

Lemma normalize_small (p : positive) :
  Zpos p < 2 ^ 53 ->
  exists m, binary_normalize prec emax (Zpos p) 0 false
            = S754_finite false m (Zpos (digits2_pos p) - 53)
         /\ Zpos (digits2_pos m) = 53 /\ Zpos m = Zpos p * 2 ^ (53 - Zpos (digits2_pos p)).
Proof.
  intros Hp. pose proof (digits2_bounds p) as B.
  assert (Hd : Zpos (digits2_pos p) <= 53).
  { pose proof (pow2_lt_inv (Zpos (digits2_pos p) - 1) 53). lia. }
  cbn [binary_normalize]. unfold binary_round.
  assert (Hf : fexp prec emax (Zpos (digits2_pos p) + 0) - 0 = Zpos (digits2_pos p) - 53).
  { unfold fexp, SpecFloat.emin. change prec with 53. change emax with 1024. lia. }
  unfold shl_align. rewrite Hf.
  destruct (Zpos (digits2_pos p) - 53) as [|q|q] eqn:E; [|lia|].
  - exists p. rewrite round_aux_53 by lia. repeat split; try lia.
    replace (53 - _) with 0 by lia. lia.
  - exists (Pos.iter xO p q).
    assert (Zpos (digits2_pos (Pos.iter xO p q)) = 53) by (rewrite digits2_shift; lia).
    rewrite round_aux_53 by lia. rewrite shift_pos_value.
    repeat split; try lia.
    + f_equal. lia.
    + f_equal. f_equal. lia.
Qed.

Lemma valid_53 (m : positive) e :
  Zpos (digits2_pos m) = 53 -> -1074 <= e <= 971 ->
  Prim2SF (SF2Prim (S754_finite false m e)) = S754_finite false m e.
Proof.
  intros Hd He. apply Prim2SF_SF2Prim. cbn [valid_binary].
  unfold bounded, canonical_mantissa. rewrite Hd.
  unfold fexp, SpecFloat.emin. change prec with 53. change emax with 1024.
  rewrite andb_true_iff, Z.eqb_eq, Z.leb_le. lia.
Qed.

(** The representation of a positive integer below 2^53. *)
Lemma of_Z_repr (z : Z) : 0 < z < 2 ^ 53 ->
  exists m d, Prim2SF (float_of_Z z) = S754_finite false m (d - 53)
    /\ Zpos (digits2_pos m) = 53 /\ Zpos m = z * 2 ^ (53 - d)
    /\ 0 < d <= 53 /\ 2 ^ (d - 1) <= z < 2 ^ d.
Proof.
  intros Hz. destruct z as [|p|]; try lia.
  destruct (normalize_small p) as (m & Hn & Hd & Hm); [lia|].
  pose proof (digits2_bounds p) as B.
  assert (Zpos (digits2_pos p) <= 53).
  { pose proof (pow2_lt_inv (Zpos (digits2_pos p) - 1) 53). lia. }
  exists m, (Zpos (digits2_pos p)). unfold float_of_Z. rewrite Hn, valid_53 by lia.
  repeat split; lia.
Qed.

(** Quotient of two floats with the same mantissa. *)
Lemma SFdiv_same (m : positive) e k :
  Zpos (digits2_pos m) = 53 -> 0 <= k <= 52 ->
  SFdiv prec emax (S754_finite false m (e + k)) (S754_finite false m e)
  = binary_round_aux prec emax false (2 ^ 53) (k - 53) loc_Exact.
Proof.
  intros Hd Hk. cbn [SFdiv xorb]. unfold SFdiv_core_binary. cbn [Zdigits2]. rewrite Hd.
  assert (Hf : Z.min (fexp prec emax (53 + (e + k) - (53 + e))) (e + k - e) = k - 53).
  { unfold fexp, SpecFloat.emin. change prec with 53. change emax with 1024. lia. }
  rewrite Hf. replace (e + k - e - (k - 53)) with 53 by lia.
  rewrite Z.shiftl_mul_pow2 by lia.
  assert (Hq : Z.div_eucl (Zpos m * 2 ^ 53) (Zpos m) = (2 ^ 53, 0)).
  { assert (H1 : Z.div (Zpos m * 2 ^ 53) (Zpos m) = 2 ^ 53) by (rewrite Z.mul_comm; apply Z.div_mul; lia).
    assert (H2 : Z.modulo (Zpos m * 2 ^ 53) (Zpos m) = 0)
      by (rewrite Z.mul_comm; apply Z_mod_mult).
    unfold Z.div, Z.modulo in H1, H2. destruct (Z.div_eucl _ _). by subst. }
  rewrite Hq. f_equal.
  unfold new_location, new_location_even, new_location_odd. by destruct (Z.even (Zpos m)).
Qed.

Lemma sf_pow2_table :
  forallb (fun n : nat =>
    match binary_round_aux prec emax false (2 ^ 53) (Z.of_nat n - 53) loc_Exact,
          Prim2SF (float_of_Z (2 ^ Z.of_nat n)) with
    | S754_finite false m1 e1, S754_finite false m2 e2 => Pos.eqb m1 m2 && Z.eqb e1 e2
    | _, _ => false
    end) (seq 0 53) = true.
Proof. vm_compute. reflexivity. Qed.

Lemma round_pow2 k : 0 <= k <= 52 ->
  binary_round_aux prec emax false (2 ^ 53) (k - 53) loc_Exact = Prim2SF (float_of_Z (2 ^ k)).
Proof.
  intros Hk. pose proof sf_pow2_table as T. rewrite forallb_forall in T.
  specialize (T (Z.to_nat k)). rewrite in_seq, Z2Nat.id in T by lia.
  specialize (T ltac:(lia)).
  destruct (binary_round_aux _ _ _ _ _ _) as [| | |[] m1 e1]; try done.
  destruct (Prim2SF _) as [| | |[] m2 e2]; try done.
  apply andb_true_iff in T as [->%Pos.eqb_eq ->%Z.eqb_eq]. done.
Qed.

Lemma float_div_exact k b : 0 <= k -> 0 < b -> 2 ^ k * b < 2 ^ 53 ->
  (float_of_Z (2 ^ k * b) / float_of_Z b)%float = float_of_Z (2 ^ k).
Proof.
  intros Hk Hb Hlt. pose proof (pow2_pos k Hk) as Hp.
  assert (k < 53) by (apply pow2_lt_inv; nia).
  apply Prim2SF_inj. rewrite div_spec.
  destruct (of_Z_repr (2 ^ k * b)) as (m1 & d1 & -> & Hm1 & Hv1 & Hd1 & Hb1); [nia|].
  destruct (of_Z_repr b) as (m2 & d2 & -> & Hm2 & Hv2 & Hd2 & Hb2); [nia|].
  assert (d1 = k + d2).
  { pose proof (digits2_unique (Z.to_pos (2 ^ k * b)) d1) as U1.
    pose proof (digits2_unique (Z.to_pos (2 ^ k * b)) (k + d2)) as U2.
    rewrite !Z2Pos.id in * by nia. rewrite <- U1 by lia. apply U2.
    replace (k + d2 - 1) with (k + (d2 - 1)) by lia. rewrite !Z.pow_add_r by lia. nia. }
  subst d1. assert (m1 = m2) as ->.
  { apply Pos2Z.inj. rewrite Hv1, Hv2.
    rewrite (Z.mul_comm (2 ^ k)), <- Z.mul_assoc, <- Z.pow_add_r by lia. do 2 f_equal. lia. }
  replace (k + d2 - 53) with (d2 - 53 + k) by lia.
  rewrite SFdiv_same by lia. apply round_pow2. lia.
Qed.

(** What the geometry relies on in libm. *)
Definition libm_exact_pow2 (lm : Libm) : Prop :=
  (forall k, 0 <= k < 53 -> libm_log2 lm (float_of_Z (2 ^ k)) = float_of_Z k) /\
  (forall k, 0 <= k < 31 -> libm_pow lm (float_of_Z 2) (float_of_Z k) = float_of_Z (2 ^ k)).

Lemma trunc_table :
  forallb (fun n : nat =>
    let k := Z.of_nat n in
    (float_trunc (float_of_Z k + float_lit 1 (-1)) =? k)
    && (float_trunc (float_of_Z k) =? k)
    && (float_trunc (float_of_Z (2 ^ k)) =? 2 ^ k)) (seq 0 53) = true.
Proof. vm_compute. reflexivity. Qed.

Lemma trunc_small k : 0 <= k < 53 ->
  float_trunc (float_of_Z k + float_lit 1 (-1)) = k /\ float_trunc (float_of_Z k) = k
  /\ float_trunc (float_of_Z (2 ^ k)) = 2 ^ k.
Proof.
  intros Hk. pose proof trunc_table as T. rewrite forallb_forall in T.
  specialize (T (Z.to_nat k)). rewrite in_seq in T. cbv zeta in T. rewrite Z2Nat.id in T by lia.
  specialize (T ltac:(lia)). rewrite !andb_true_iff, !Z.eqb_eq in T. tauto.
Qed.

Lemma float_int (lm : Libm) : libm_exact_pow2 lm -> @NumInt float (float_num lm).
Proof.
  intros [Hlog Hpow]. split; cbn.
  - intros k Hk. rewrite Hlog by lia. by apply trunc_small.
  - intros k Hk. rewrite Hlog by lia. by apply trunc_small.
  - intros k Hk. rewrite Hpow by lia. apply trunc_small. lia.
  - apply float_div_exact.
Qed.

(** A concrete libm, exact at powers of two (elsewhere it rounds down), used to
    run the model; [log], [exp] and [sin] are not needed by the integer geometry. *)
Definition demo_libm : Libm := {|
  libm_log := fun x => x;
  libm_log2 := fun x =>
    match Prim2SF x with
    | S754_finite _ m e => float_of_Z (Zpos (digits2_pos m) + e - 1)
    | _ => x
    end;
  libm_exp := fun x => x;
  libm_sin := fun x => x;
  libm_pow := fun x y => float_of_Z (float_trunc x ^ float_trunc y)
|}.

Lemma demo_libm_table :
  forallb (fun n : nat =>
    let k := Z.of_nat n in
    match Prim2SF (libm_log2 demo_libm (float_of_Z (2 ^ k))), Prim2SF (float_of_Z k) with
    | S754_finite false m1 e1, S754_finite false m2 e2 => Pos.eqb m1 m2 && Z.eqb e1 e2
    | S754_zero false, S754_zero false => true
    | _, _ => false
    end && (float_trunc (float_of_Z k) =? k)) (seq 0 53) = true.
Proof. vm_compute. reflexivity. Qed.

Lemma demo_libm_exact : libm_exact_pow2 demo_libm.
Proof.
  split.
  - intros k Hk. apply Prim2SF_inj. pose proof demo_libm_table as T. rewrite forallb_forall in T.
    specialize (T (Z.to_nat k)). rewrite in_seq in T. cbv zeta in T. rewrite Z2Nat.id in T by lia.
    specialize (T ltac:(lia)). apply andb_true_iff in T as [T _].
    destruct (Prim2SF (libm_log2 _ _)) as [[]| | |[] m1 e1]; try done;
      destruct (Prim2SF (float_of_Z k)) as [[]| | |[] m2 e2]; try done.
    apply andb_true_iff in T as [->%Pos.eqb_eq ->%Z.eqb_eq]. done.
  - intros k Hk. cbn [libm_pow demo_libm].
    destruct (trunc_small k) as (_ & -> & _); [lia|].
    destruct (trunc_small 2) as (_ & -> & _); [lia|]. done.
Qed.

#[export] Instance demo_float : Num float := float_num demo_libm.
#[export] Instance demo_float_int : NumInt float := float_int demo_libm demo_libm_exact.
