(* ===== verification/Types.v ===== *)
(** * Enumerations

    typedef.h: the enumerations of the program, with decidable equality; the
    ones that are also used as integers have their C++ values. *)
From S2P Require Import Prelude.
From stdpp Require Import base decidable list.
From Stdlib Require Import ZArith Lia.
Open Scope Z_scope.

Inductive MemCellType : Set :=
| SRAM
| DRAM
| eDRAM
| MRAM
| PCRAM
| memristor
| FBRAM
| SLCNAND
| MLCNAND
| gcDRAM
| FeRAM.
#[export] Instance MemCellType_eq_dec : EqDecision MemCellType.
Proof. solve_decision. Defined.

Inductive CellAccessType : Set :=
| CMOS_access
| BJT_access
| diode_access
| none_access.
#[export] Instance CellAccessType_eq_dec : EqDecision CellAccessType.
Proof. solve_decision. Defined.

Inductive DeviceRoadmap : Set :=
| HP
| LSTP
| LOP
| EDRAM
| IWO.
#[export] Instance DeviceRoadmap_eq_dec : EqDecision DeviceRoadmap.
Proof. solve_decision. Defined.

Inductive WireType : Set :=
| local_aggressive
| local_conservative
| semi_aggressive
| semi_conservative
| global_aggressive
| global_conservative
| dram_wordline.
#[export] Instance WireType_eq_dec : EqDecision WireType.
Proof. solve_decision. Defined.

Inductive WireRepeaterType : Set :=
| repeated_none
| repeated_opt
| repeated_5
| repeated_10
| repeated_20
| repeated_30
| repeated_40
| repeated_50.
#[export] Instance WireRepeaterType_eq_dec : EqDecision WireRepeaterType.
Proof. solve_decision. Defined.

Inductive BufferDesignTarget : Set :=
| latency_first
| latency_area_trade_off
| area_first.
#[export] Instance BufferDesignTarget_eq_dec : EqDecision BufferDesignTarget.
Proof. solve_decision. Defined.

Inductive MemoryType : Set :=
| data
| tag
| CAM.
#[export] Instance MemoryType_eq_dec : EqDecision MemoryType.
Proof. solve_decision. Defined.

Inductive RoutingMode : Set :=
| h_tree
| non_h_tree.
#[export] Instance RoutingMode_eq_dec : EqDecision RoutingMode.
Proof. solve_decision. Defined.

Inductive WriteScheme : Set :=
| set_before_reset
| reset_before_set
| erase_before_set
| erase_before_reset
| write_and_verify
| normal_write.
#[export] Instance WriteScheme_eq_dec : EqDecision WriteScheme.
Proof. solve_decision. Defined.

Inductive DesignTarget : Set :=
| cache
| RAM_chip
| CAM_chip.
#[export] Instance DesignTarget_eq_dec : EqDecision DesignTarget.
Proof. solve_decision. Defined.

Inductive OptimizationTarget : Set :=
| read_latency_optimized
| write_latency_optimized
| read_energy_optimized
| write_energy_optimized
| read_edp_optimized
| write_edp_optimized
| read_bandwidth_optimized
| write_bandwidth_optimized
| leakage_optimized
| area_optimized
| full_exploration.
#[export] Instance OptimizationTarget_eq_dec : EqDecision OptimizationTarget.
Proof. solve_decision. Defined.

Inductive CacheAccessMode : Set :=
| normal_access_mode
| sequential_access_mode
| fast_access_mode.
#[export] Instance CacheAccessMode_eq_dec : EqDecision CacheAccessMode.
Proof. solve_decision. Defined.

Inductive TSV_type : Set :=
| Fine
| Coarse
| Monolithic.
#[export] Instance TSV_type_eq_dec : EqDecision TSV_type.
Proof. solve_decision. Defined.

(** The value of the enumerator, and the cast back from [int]; values that name
    no enumerator are not produced by the search bounds. *)
Definition WireType_to_Z (x : WireType) : Z :=
  match x with
  | local_aggressive => 0
  | local_conservative => 1
  | semi_aggressive => 2
  | semi_conservative => 3
  | global_aggressive => 4
  | global_conservative => 5
  | dram_wordline => 6
  end.

Definition WireType_of_Z (z : Z) : WireType :=
  if z =? 0 then local_aggressive else
  if z =? 1 then local_conservative else
  if z =? 2 then semi_aggressive else
  if z =? 3 then semi_conservative else
  if z =? 4 then global_aggressive else
  if z =? 5 then global_conservative else dram_wordline.

Lemma WireType_of_to x : WireType_of_Z (WireType_to_Z x) = x.
Proof. by destruct x. Qed.

(** The value of the enumerator, and the cast back from [int]; values that name
    no enumerator are not produced by the search bounds. *)
Definition WireRepeaterType_to_Z (x : WireRepeaterType) : Z :=
  match x with
  | repeated_none => 0
  | repeated_opt => 1
  | repeated_5 => 2
  | repeated_10 => 3
  | repeated_20 => 4
  | repeated_30 => 5
  | repeated_40 => 6
  | repeated_50 => 7
  end.

Definition WireRepeaterType_of_Z (z : Z) : WireRepeaterType :=
  if z =? 0 then repeated_none else
  if z =? 1 then repeated_opt else
  if z =? 2 then repeated_5 else
  if z =? 3 then repeated_10 else
  if z =? 4 then repeated_20 else
  if z =? 5 then repeated_30 else
  if z =? 6 then repeated_40 else repeated_50.

Lemma WireRepeaterType_of_to x : WireRepeaterType_of_Z (WireRepeaterType_to_Z x) = x.
Proof. by destruct x. Qed.

(** The value of the enumerator, and the cast back from [int]; values that name
    no enumerator are not produced by the search bounds. *)
Definition BufferDesignTarget_to_Z (x : BufferDesignTarget) : Z :=
  match x with
  | latency_first => 0
  | latency_area_trade_off => 1
  | area_first => 2
  end.

Definition BufferDesignTarget_of_Z (z : Z) : BufferDesignTarget :=
  if z =? 0 then latency_first else
  if z =? 1 then latency_area_trade_off else area_first.

Lemma BufferDesignTarget_of_to x : BufferDesignTarget_of_Z (BufferDesignTarget_to_Z x) = x.
Proof. by destruct x. Qed.

(** The value of the enumerator, and the cast back from [int]; values that name
    no enumerator are not produced by the search bounds. *)
Definition OptimizationTarget_to_Z (x : OptimizationTarget) : Z :=
  match x with
  | read_latency_optimized => 0
  | write_latency_optimized => 1
  | read_energy_optimized => 2
  | write_energy_optimized => 3
  | read_edp_optimized => 4
  | write_edp_optimized => 5
  | read_bandwidth_optimized => 6
  | write_bandwidth_optimized => 7
  | leakage_optimized => 8
  | area_optimized => 9
  | full_exploration => 10
  end.

Definition OptimizationTarget_of_Z (z : Z) : OptimizationTarget :=
  if z =? 0 then read_latency_optimized else
  if z =? 1 then write_latency_optimized else
  if z =? 2 then read_energy_optimized else
  if z =? 3 then write_energy_optimized else
  if z =? 4 then read_edp_optimized else
  if z =? 5 then write_edp_optimized else
  if z =? 6 then read_bandwidth_optimized else
  if z =? 7 then write_bandwidth_optimized else
  if z =? 8 then leakage_optimized else
  if z =? 9 then area_optimized else full_exploration.

Lemma OptimizationTarget_of_to x : OptimizationTarget_of_Z (OptimizationTarget_to_Z x) = x.
Proof. by destruct x. Qed.

(** The optimisation targets that own a slot in the result arrays: every
    enumerator below [full_exploration]. *)
Definition all_targets : list OptimizationTarget :=
  [read_latency_optimized; write_latency_optimized; read_energy_optimized;
   write_energy_optimized; read_edp_optimized; write_edp_optimized;
   read_bandwidth_optimized; write_bandwidth_optimized; leakage_optimized; area_optimized].

Lemma all_targets_spec t : In t all_targets <-> t <> full_exploration.
Proof. destruct t; simpl; intuition congruence. Qed.

(** Result.cpp: [IsRefreshMemory]; the same disjunction guards the banks. *)
Definition IsRefreshMemory (t : MemCellType) : bool :=
  bool_decide (t = DRAM) || bool_decide (t = eDRAM) || bool_decide (t = gcDRAM).

(** The test on the resistive cells that Mat.cpp and BankWithoutHtree.cpp repeat. *)
Definition IsResistiveMemory (t : MemCellType) : bool :=
  bool_decide (t = MRAM) || bool_decide (t = PCRAM) || bool_decide (t = memristor)
  || bool_decide (t = FBRAM).

(** Technology.cpp: [WireTypeToTSVType]; the argument is an [int]. *)
Definition WireTypeToTSVType (wiretype : Z) : TSV_type :=
  if (wiretype =? 0) || (wiretype =? 2) || (wiretype =? 4) then Fine
  else if (wiretype =? 1) || (wiretype =? 3) || (wiretype =? 5) || (wiretype =? 6) then Coarse
  else Fine.
