(* ===== verification/InputParameter.v ===== *)
(** * Input parameters and the search space

    InputParameter.h/.cpp: the configuration object, its constructor, its
    validation, and the macros of macros.h that set the bounds of the search.
    Members that the constructor leaves unset ([capacity], [wordWidth],
    [deviceRoadmap], [temperature], [clockInput], [forcedStackLayers]) are
    arguments of the constructor here; the repeater tables, a memo private to
    Mat.cpp, are left out. *)
From S2P Require Import Prelude Numeric Types.
From stdpp Require Import base list strings.
From Stdlib Require Import ZArith Lia.
Open Scope Z_scope.

Module InputParameter.

Record t (F : Type) : Type := mk {
  designTarget : DesignTarget;
  optimizationTarget : OptimizationTarget;
  processNode : Z;
  capacity : Z;
  wordWidth : Z;
  deviceRoadmap : DeviceRoadmap;
  fileMemCell : list string;
  temperature : Z;
  maxDriverCurrent : F;
  writeScheme : WriteScheme;
  readLatencyConstraint : F;
  writeLatencyConstraint : F;
  readDynamicEnergyConstraint : F;
  writeDynamicEnergyConstraint : F;
  leakageConstraint : F;
  areaConstraint : F;
  readEdpConstraint : F;
  writeEdpConstraint : F;
  isConstraintApplied : bool;
  isPruningEnabled : bool;
  useCactiAssumption : bool;
  relaxSRAMCell : bool;
  bankAspectRatioLimit : F;
  forceMatSize : bool;
  forcedMatRows : Z;
  forcedMatColumns : Z;
  dramTargetResidualRatio : F;
  validated : bool;
  maxMatLayers : Z;
  clockFreq : F;
  quantize : bool;
  associativity : Z;
  cacheAccessMode : CacheAccessMode;
  pageSize : Z;
  flashBlockSize : Z;
  routingMode : RoutingMode;
  internalSensing : bool;
  maxNmosSize : F;
  delaytolerance : F;
  bufferSizeRatio : F;
  outputFilePrefix : string;
  numRepeaters : Z;
  minNumRowSubArray : Z;
  maxNumRowSubArray : Z;
  minNumColumnSubArray : Z;
  maxNumColumnSubArray : Z;
  matLayerSet : Z;
  minNumActiveSubArrayPerRow : Z;
  maxNumActiveSubArrayPerRow : Z;
  minNumActiveSubArrayPerColumn : Z;
  maxNumActiveSubArrayPerColumn : Z;
  minNumRowMat : Z;
  maxNumRowMat : Z;
  minNumColumnMat : Z;
  maxNumColumnMat : Z;
  minNumActiveMatPerRow : Z;
  maxNumActiveMatPerRow : Z;
  minNumActiveMatPerColumn : Z;
  maxNumActiveMatPerColumn : Z;
  minMuxSenseAmp : Z;
  maxMuxSenseAmp : Z;
  minMuxOutputLev1 : Z;
  maxMuxOutputLev1 : Z;
  minMuxOutputLev2 : Z;
  maxMuxOutputLev2 : Z;
  minNumRowPerSet : Z;
  maxNumRowPerSet : Z;
  minAreaOptimizationLevel : Z;
  maxAreaOptimizationLevel : Z;
  minLocalWireType : Z;
  maxLocalWireType : Z;
  minGlobalWireType : Z;
  maxGlobalWireType : Z;
  minLocalWireRepeaterType : Z;
  maxLocalWireRepeaterType : Z;
  minGlobalWireRepeaterType : Z;
  maxGlobalWireRepeaterType : Z;
  minIsLocalWireLowSwing : Z;
  maxIsLocalWireLowSwing : Z;
  minIsGlobalWireLowSwing : Z;
  maxIsGlobalWireLowSwing : Z;
  partitionGranularity : Z;
  localTsvProjection : Z;
  globalTsvProjection : Z;
  tsvRedundancy : F;
  clockInput : F;
  monolithicStackCount : Z;
  monolithic3DMat : bool;
  minStackLayer : Z;
  maxStackLayer : Z;
  forcedStackLayers : bool;
  doublePrune : bool;
  printAllOptimals : bool;
  allowDifferentTagTech : bool;
  addRepeaters : bool;
  viewMatStats : bool;
  printLevel : Z
}.
Arguments mk {_} _ _ _ _ _ _ _ _ _ _ _ _ _ _ _ _ _ _ _ _ _ _ _ _ _ _ _ _ _ _ _ _ _ _ _ _ _ _ _ _ _ _ _ _ _ _ _ _ _ _ _ _ _ _ _ _ _ _ _ _ _ _ _ _ _ _ _ _ _ _ _ _ _ _ _ _ _ _ _ _ _ _ _ _ _ _ _ _ _ _ _ _ _ _ _ _ _.
Arguments designTarget {_} _.
Arguments optimizationTarget {_} _.
Arguments processNode {_} _.
Arguments capacity {_} _.
Arguments wordWidth {_} _.
Arguments deviceRoadmap {_} _.
Arguments fileMemCell {_} _.
Arguments temperature {_} _.
Arguments maxDriverCurrent {_} _.
Arguments writeScheme {_} _.
Arguments readLatencyConstraint {_} _.
Arguments writeLatencyConstraint {_} _.
Arguments readDynamicEnergyConstraint {_} _.
Arguments writeDynamicEnergyConstraint {_} _.
Arguments leakageConstraint {_} _.
Arguments areaConstraint {_} _.
Arguments readEdpConstraint {_} _.
Arguments writeEdpConstraint {_} _.
Arguments isConstraintApplied {_} _.
Arguments isPruningEnabled {_} _.
Arguments useCactiAssumption {_} _.
Arguments relaxSRAMCell {_} _.
Arguments bankAspectRatioLimit {_} _.
Arguments forceMatSize {_} _.
Arguments forcedMatRows {_} _.
Arguments forcedMatColumns {_} _.
Arguments dramTargetResidualRatio {_} _.
Arguments validated {_} _.
Arguments maxMatLayers {_} _.
Arguments clockFreq {_} _.
Arguments quantize {_} _.
Arguments associativity {_} _.
Arguments cacheAccessMode {_} _.
Arguments pageSize {_} _.
Arguments flashBlockSize {_} _.
Arguments routingMode {_} _.
Arguments internalSensing {_} _.
Arguments maxNmosSize {_} _.
Arguments delaytolerance {_} _.
Arguments bufferSizeRatio {_} _.
Arguments outputFilePrefix {_} _.
Arguments numRepeaters {_} _.
Arguments minNumRowSubArray {_} _.
Arguments maxNumRowSubArray {_} _.
Arguments minNumColumnSubArray {_} _.
Arguments maxNumColumnSubArray {_} _.
Arguments matLayerSet {_} _.
Arguments minNumActiveSubArrayPerRow {_} _.
Arguments maxNumActiveSubArrayPerRow {_} _.
Arguments minNumActiveSubArrayPerColumn {_} _.
Arguments maxNumActiveSubArrayPerColumn {_} _.
Arguments minNumRowMat {_} _.
Arguments maxNumRowMat {_} _.
Arguments minNumColumnMat {_} _.
Arguments maxNumColumnMat {_} _.
Arguments minNumActiveMatPerRow {_} _.
Arguments maxNumActiveMatPerRow {_} _.
Arguments minNumActiveMatPerColumn {_} _.
Arguments maxNumActiveMatPerColumn {_} _.
Arguments minMuxSenseAmp {_} _.
Arguments maxMuxSenseAmp {_} _.
Arguments minMuxOutputLev1 {_} _.
Arguments maxMuxOutputLev1 {_} _.
Arguments minMuxOutputLev2 {_} _.
Arguments maxMuxOutputLev2 {_} _.
Arguments minNumRowPerSet {_} _.
Arguments maxNumRowPerSet {_} _.
Arguments minAreaOptimizationLevel {_} _.
Arguments maxAreaOptimizationLevel {_} _.
Arguments minLocalWireType {_} _.
Arguments maxLocalWireType {_} _.
Arguments minGlobalWireType {_} _.
Arguments maxGlobalWireType {_} _.
Arguments minLocalWireRepeaterType {_} _.
Arguments maxLocalWireRepeaterType {_} _.
Arguments minGlobalWireRepeaterType {_} _.
Arguments maxGlobalWireRepeaterType {_} _.
Arguments minIsLocalWireLowSwing {_} _.
Arguments maxIsLocalWireLowSwing {_} _.
Arguments minIsGlobalWireLowSwing {_} _.
Arguments maxIsGlobalWireLowSwing {_} _.
Arguments partitionGranularity {_} _.
Arguments localTsvProjection {_} _.
Arguments globalTsvProjection {_} _.
Arguments tsvRedundancy {_} _.
Arguments clockInput {_} _.
Arguments monolithicStackCount {_} _.
Arguments monolithic3DMat {_} _.
Arguments minStackLayer {_} _.
Arguments maxStackLayer {_} _.
Arguments forcedStackLayers {_} _.
Arguments doublePrune {_} _.
Arguments printAllOptimals {_} _.
Arguments allowDifferentTagTech {_} _.
Arguments addRepeaters {_} _.
Arguments viewMatStats {_} _.
Arguments printLevel {_} _.
#[global] Instance eta {F : Type} : RecordEta (t F) := fun x =>
  mk (designTarget x) (optimizationTarget x) (processNode x) (capacity x) (wordWidth x)
    (deviceRoadmap x) (fileMemCell x) (temperature x) (maxDriverCurrent x) (writeScheme x)
    (readLatencyConstraint x) (writeLatencyConstraint x) (readDynamicEnergyConstraint x)
    (writeDynamicEnergyConstraint x) (leakageConstraint x) (areaConstraint x)
    (readEdpConstraint x) (writeEdpConstraint x) (isConstraintApplied x) (isPruningEnabled x)
    (useCactiAssumption x) (relaxSRAMCell x) (bankAspectRatioLimit x) (forceMatSize x)
    (forcedMatRows x) (forcedMatColumns x) (dramTargetResidualRatio x) (validated x)
    (maxMatLayers x) (clockFreq x) (quantize x) (associativity x) (cacheAccessMode x) (pageSize x)
    (flashBlockSize x) (routingMode x) (internalSensing x) (maxNmosSize x) (delaytolerance x)
    (bufferSizeRatio x) (outputFilePrefix x) (numRepeaters x) (minNumRowSubArray x)
    (maxNumRowSubArray x) (minNumColumnSubArray x) (maxNumColumnSubArray x) (matLayerSet x)
    (minNumActiveSubArrayPerRow x) (maxNumActiveSubArrayPerRow x)
    (minNumActiveSubArrayPerColumn x) (maxNumActiveSubArrayPerColumn x) (minNumRowMat x)
    (maxNumRowMat x) (minNumColumnMat x) (maxNumColumnMat x) (minNumActiveMatPerRow x)
    (maxNumActiveMatPerRow x) (minNumActiveMatPerColumn x) (maxNumActiveMatPerColumn x)
    (minMuxSenseAmp x) (maxMuxSenseAmp x) (minMuxOutputLev1 x) (maxMuxOutputLev1 x)
    (minMuxOutputLev2 x) (maxMuxOutputLev2 x) (minNumRowPerSet x) (maxNumRowPerSet x)
    (minAreaOptimizationLevel x) (maxAreaOptimizationLevel x) (minLocalWireType x)
    (maxLocalWireType x) (minGlobalWireType x) (maxGlobalWireType x) (minLocalWireRepeaterType x)
    (maxLocalWireRepeaterType x) (minGlobalWireRepeaterType x) (maxGlobalWireRepeaterType x)
    (minIsLocalWireLowSwing x) (maxIsLocalWireLowSwing x) (minIsGlobalWireLowSwing x)
    (maxIsGlobalWireLowSwing x) (partitionGranularity x) (localTsvProjection x)
    (globalTsvProjection x) (tsvRedundancy x) (clockInput x) (monolithicStackCount x) (monolithic3DMat x)
    (minStackLayer x) (maxStackLayer x) (forcedStackLayers x) (doublePrune x) (printAllOptimals x)
    (allowDifferentTagTech x) (addRepeaters x) (viewMatStats x) (printLevel x).


Section Operations.
Context {F : Type} `{Num F}.

(** InputParameter::InputParameter *)
Definition InputParameter (capacity0 wordWidth0 temperature0 : Z) (deviceRoadmap0 : DeviceRoadmap)
  (clockInput0 : F) (forcedStackLayers0 : bool) : t F := {|
  designTarget := cache;
  optimizationTarget := read_latency_optimized;
  processNode := 90;
  capacity := capacity0;
  wordWidth := wordWidth0;
  deviceRoadmap := deviceRoadmap0;
  fileMemCell := [];
  temperature := temperature0;
  maxDriverCurrent := of_Z 0;
  writeScheme := normal_write;
  readLatencyConstraint := invalid_value;
  writeLatencyConstraint := invalid_value;
  readDynamicEnergyConstraint := invalid_value;
  writeDynamicEnergyConstraint := invalid_value;
  leakageConstraint := invalid_value;
  areaConstraint := invalid_value;
  readEdpConstraint := invalid_value;
  writeEdpConstraint := invalid_value;
  isConstraintApplied := false;
  isPruningEnabled := false;
  useCactiAssumption := false;
  relaxSRAMCell := true;
  bankAspectRatioLimit := of_Z 3;
  forceMatSize := false;
  forcedMatRows := 0;
  forcedMatColumns := 0;
  dramTargetResidualRatio := lit 10 (-2);
  validated := true;
  maxMatLayers := 4;
  clockFreq := lit 3 9;
  quantize := false;
  associativity := 1;
  cacheAccessMode := normal_access_mode;
  pageSize := 0;
  flashBlockSize := 0;
  routingMode := h_tree;
  internalSensing := true;
  maxNmosSize := of_Z 100;
  delaytolerance := lit 1 (-1);
  bufferSizeRatio := lit 10 (-1);
  outputFilePrefix := "output"%string;
  numRepeaters := 0;
  minNumRowSubArray := 1;
  maxNumRowSubArray := 512;
  minNumColumnSubArray := 1;
  maxNumColumnSubArray := 512;
  matLayerSet := 4;
  minNumActiveSubArrayPerRow := 1;
  maxNumActiveSubArrayPerRow := 512;
  minNumActiveSubArrayPerColumn := 1;
  maxNumActiveSubArrayPerColumn := 512;
  minNumRowMat := 4;
  maxNumRowMat := 4;
  minNumColumnMat := 4;
  maxNumColumnMat := 4;
  minNumActiveMatPerRow := 4;
  maxNumActiveMatPerRow := 4;
  minNumActiveMatPerColumn := 4;
  maxNumActiveMatPerColumn := 4;
  minMuxSenseAmp := 1;
  maxMuxSenseAmp := 256;
  minMuxOutputLev1 := 1;
  maxMuxOutputLev1 := 256;
  minMuxOutputLev2 := 1;
  maxMuxOutputLev2 := 256;
  minNumRowPerSet := 1;
  maxNumRowPerSet := 256;
  minAreaOptimizationLevel := 0;
  maxAreaOptimizationLevel := 2;
  minLocalWireType := 0;
  maxLocalWireType := 1;
  minGlobalWireType := 4;
  maxGlobalWireType := 5;
  minLocalWireRepeaterType := 0;
  maxLocalWireRepeaterType := 7;
  minGlobalWireRepeaterType := 0;
  maxGlobalWireRepeaterType := 7;
  minIsLocalWireLowSwing := 0;
  maxIsLocalWireLowSwing := 1;
  minIsGlobalWireLowSwing := 0;
  maxIsGlobalWireLowSwing := 1;
  partitionGranularity := 0;
  localTsvProjection := 1;
  globalTsvProjection := 1;
  tsvRedundancy := lit 15 (-1);
  clockInput := clockInput0;
  monolithicStackCount := 1;
  monolithic3DMat := false;
  minStackLayer := 1;
  maxStackLayer := 16;
  forcedStackLayers := forcedStackLayers0;
  doublePrune := false;
  printAllOptimals := false;
  allowDifferentTagTech := false;
  addRepeaters := false;
  viewMatStats := false;
  printLevel := 1
|}.

(** macros.h: the bounds used while the tag array is designed *)
Definition REDUCE_SEARCH_SIZE (ip : t F) : t F :=
  ip
    <| minNumRowSubArray := 1 |>
    <| maxNumRowSubArray := 64 |>
    <| minNumColumnSubArray := 1 |>
    <| maxNumColumnSubArray := 64 |>
    <| minNumActiveSubArrayPerRow := 1 |>
    <| maxNumActiveSubArrayPerRow := 64 |>
    <| minNumActiveSubArrayPerColumn := 1 |>
    <| maxNumActiveSubArrayPerColumn := 64 |>
    <| minNumRowMat := 1 |>
    <| maxNumRowMat := 2 |>
    <| minNumColumnMat := 1 |>
    <| maxNumColumnMat := 2 |>
    <| minNumActiveMatPerRow := 1 |>
    <| maxNumActiveMatPerRow := 2 |>
    <| minNumActiveMatPerColumn := 1 |>
    <| maxNumActiveMatPerColumn := 2 |>
    <| minMuxSenseAmp := 1 |>
    <| maxMuxSenseAmp := 64 |>
    <| minMuxOutputLev1 := 1 |>
    <| maxMuxOutputLev1 := 64 |>
    <| minMuxOutputLev2 := 1 |>
    <| maxMuxOutputLev2 := 64 |>
    <| minNumRowPerSet := 1 |>
    <| maxNumRowPerSet := 1 |>
    <| minAreaOptimizationLevel := BufferDesignTarget_to_Z latency_first |>
    <| maxAreaOptimizationLevel := BufferDesignTarget_to_Z area_first |>
    <| minLocalWireType := WireType_to_Z local_aggressive |>
    <| maxLocalWireType := WireType_to_Z local_conservative |>
    <| minGlobalWireType := WireType_to_Z global_aggressive |>
    <| maxGlobalWireType := WireType_to_Z global_conservative |>
    <| minLocalWireRepeaterType := WireRepeaterType_to_Z repeated_none |>
    <| maxLocalWireRepeaterType := WireRepeaterType_to_Z repeated_opt |>
    <| minGlobalWireRepeaterType := WireRepeaterType_to_Z repeated_none |>
    <| maxGlobalWireRepeaterType := WireRepeaterType_to_Z repeated_opt |>
    <| minIsLocalWireLowSwing := 0 |>
    <| maxIsLocalWireLowSwing := 1 |>
    <| minIsGlobalWireLowSwing := 0 |>
    <| maxIsGlobalWireLowSwing := 1 |>.

(** macros.h: the default bounds of the data array *)
Definition RESTORE_SEARCH_SIZE (ip : t F) : t F :=
  ip
    <| minNumRowSubArray := 1 |>
    <| maxNumRowSubArray := 512 |>
    <| minNumColumnSubArray := 1 |>
    <| maxNumColumnSubArray := 512 |>
    <| minNumActiveSubArrayPerRow := 1 |>
    <| maxNumActiveSubArrayPerRow := 512 |>
    <| minNumActiveSubArrayPerColumn := 1 |>
    <| maxNumActiveSubArrayPerColumn := 512 |>
    <| minNumRowMat := 1 |>
    <| maxNumRowMat := 2 |>
    <| minNumColumnMat := 1 |>
    <| maxNumColumnMat := 2 |>
    <| minNumActiveMatPerRow := 1 |>
    <| maxNumActiveMatPerRow := 2 |>
    <| minNumActiveMatPerColumn := 1 |>
    <| maxNumActiveMatPerColumn := 2 |>
    <| minMuxSenseAmp := 1 |>
    <| maxMuxSenseAmp := 256 |>
    <| minMuxOutputLev1 := 1 |>
    <| maxMuxOutputLev1 := 256 |>
    <| minMuxOutputLev2 := 1 |>
    <| maxMuxOutputLev2 := 256 |>
    <| minNumRowPerSet := 1 |>
    <| maxNumRowPerSet := associativity ip |>
    <| minAreaOptimizationLevel := BufferDesignTarget_to_Z latency_first |>
    <| maxAreaOptimizationLevel := BufferDesignTarget_to_Z area_first |>
    <| minLocalWireType := WireType_to_Z local_aggressive |>
    <| maxLocalWireType := WireType_to_Z semi_conservative |>
    <| minGlobalWireType := WireType_to_Z semi_aggressive |>
    <| maxGlobalWireType := WireType_to_Z global_conservative |>
    <| minLocalWireRepeaterType := WireRepeaterType_to_Z repeated_none |>
    <| maxLocalWireRepeaterType := WireRepeaterType_to_Z repeated_50 |>
    <| minGlobalWireRepeaterType := WireRepeaterType_to_Z repeated_none |>
    <| maxGlobalWireRepeaterType := WireRepeaterType_to_Z repeated_50 |>
    <| minIsLocalWireLowSwing := 0 |>
    <| maxIsLocalWireLowSwing := 1 |>
    <| minIsGlobalWireLowSwing := 0 |>
    <| maxIsGlobalWireLowSwing := 1 |>.

(** InputParameter::ValidateInputParameter, with the message of [ConfigError]. *)
Definition ValidateInputParameter (ip : t F) : Outcome (t F) :=
  if negb (nfinite (bankAspectRatioLimit ip))
     || (negb (bankAspectRatioLimit ip =? #0)%num && (bankAspectRatioLimit ip <? #1)%num)
  then Exit "-BankAspectRatioLimit"
  else if forceMatSize ip && ((forcedMatRows ip =? 0) || (forcedMatColumns ip =? 0))
  then Exit "-ForceMatSize"
  else if negb (nfinite (dramTargetResidualRatio ip))
     || (dramTargetResidualRatio ip <=? #0)%num || (dramTargetResidualRatio ip >=? #1)%num
  then Exit "-DRAMTargetResidualRatio"
  else if maxMatLayers ip <=? 0
  then Exit "-LimitMonolithicTier"
  else Ret ip.

End Operations.
End InputParameter.
