(* ===== verification/Search.v ===== *)
(** * The design space

    macros.h: the nested loops of [BIGFOR] and of the two wire refinements,
    and the basic wire choice.  A loop [for (x = lo; x <= hi; x *= 2)] is the
    list of the values of [x]; [None] stands for a loop that does not end. *)
From S2P Require Import Prelude Numeric Types InputParameter.
From stdpp Require Import base list option numbers.
From Stdlib Require Import ZArith Lia.
Open Scope Z_scope.

(** One point of the search: the loop variables of [BIGFOR]. *)
Module Design.
Record t : Type := mk {
  numRowSubArray : Z;
  numColumnSubArray : Z;
  stackedDieCount : Z;
  numActiveSubArrayPerRow : Z;
  numActiveSubArrayPerColumn : Z;
  numRowMat : Z;
  numColumnMat : Z;
  numActiveMatPerRow : Z;
  numActiveMatPerColumn : Z;
  muxSenseAmp : Z;
  muxOutputLev1 : Z;
  muxOutputLev2 : Z;
  numRowPerSet : Z;
  areaOptimizationLevel : Z
}.
End Design.

(** ** Loops *)

(** [for (x = lo; x <= hi; x *= 2)] on a 32-bit [int]. *)
Fixpoint doubling_from (fuel : nat) (x hi : Z) : option (list Z) :=
  if x <=? hi then
    match fuel with
    | O => None
    | S n => l ← doubling_from n (wrap32 (x * 2)) hi; Some (x :: l)
    end
  else Some [].

(** A 32-bit value is doubled at most 31 times before it leaves the range. *)
Definition doubling (lo hi : Z) : option (list Z) := doubling_from 32 lo hi.

(** [for (x = lo; x <= hi; x++)] *)
Definition counting (lo hi : Z) : option (list Z) := Some (seqZ lo (hi - lo + 1)).

(** The body of a loop contributes its own points in order. *)
Definition for_each {A : Type} (xs : option (list Z)) (body : Z -> option (list A)) : option (list A) :=
  l ← xs; ls ← mapM body l; Some (concat ls).

Notation "'for' x 'in' xs 'do' body" := (for_each xs (fun x => body))
  (at level 10, x name, xs at level 200, body at level 200, only parsing) : cpp_scope.

Section Loops.
Context {F : Type} `{Num F}.
Import InputParameter.

(** macros.h: [BIGFOR] *)
Definition BIGFOR (ip : InputParameter.t F) : option (list Design.t) :=
  for numRowSubArray in doubling (minNumRowSubArray ip) (maxNumRowSubArray ip) do
  for numColumnSubArray in doubling (minNumColumnSubArray ip) (maxNumColumnSubArray ip) do
  for stackedDieCount in doubling (minStackLayer ip) (maxStackLayer ip) do
  for numActiveSubArrayPerRow in
    doubling (MINZ numColumnSubArray (minNumActiveSubArrayPerRow ip))
             (MINZ numColumnSubArray (maxNumActiveSubArrayPerRow ip)) do
  for numActiveSubArrayPerColumn in
    doubling (MINZ numRowSubArray (minNumActiveSubArrayPerColumn ip))
             (MINZ numRowSubArray (maxNumActiveSubArrayPerColumn ip)) do
  for numRowMat in doubling (minNumRowMat ip) (maxNumRowMat ip) do
  for numColumnMat in doubling (minNumColumnMat ip) (maxNumColumnMat ip) do
  for numActiveMatPerRow in
    doubling (MINZ numColumnMat (minNumActiveMatPerRow ip))
             (MINZ numColumnMat (maxNumActiveMatPerRow ip)) do
  for numActiveMatPerColumn in
    doubling (MINZ numRowMat (minNumActiveMatPerColumn ip))
             (MINZ numRowMat (maxNumActiveMatPerColumn ip)) do
  for muxSenseAmp in doubling (minMuxSenseAmp ip) (maxMuxSenseAmp ip) do
  for muxOutputLev1 in doubling (minMuxOutputLev1 ip) (maxMuxOutputLev1 ip) do
  for muxOutputLev2 in doubling (minMuxOutputLev2 ip) (maxMuxOutputLev2 ip) do
  for numRowPerSet in
    doubling (minNumRowPerSet ip) (MINZ (maxNumRowPerSet ip) (associativity ip)) do
  for areaOptimizationLevel in counting (minAreaOptimizationLevel ip) (maxAreaOptimizationLevel ip) do
  Some [Design.mk numRowSubArray numColumnSubArray stackedDieCount
          numActiveSubArrayPerRow numActiveSubArrayPerColumn numRowMat numColumnMat
          numActiveMatPerRow numActiveMatPerColumn muxSenseAmp muxOutputLev1 muxOutputLev2
          numRowPerSet areaOptimizationLevel].

(** macros.h: [REFINE_LOCAL_WIRE_FORLOOP] and [REFINE_GLOBAL_WIRE_FORLOOP], as the
    list of (type, repeater, low swing) triples whose guard holds. *)
Definition refine_wire (minT maxT minR maxR minS maxS : Z) : list (Z * Z * Z) :=
  wt ← seqZ minT (maxT - minT + 1);
  wr ← seqZ minR (maxR - minR + 1);
  ls ← seqZ minS (maxS - minS + 1);
  if (wr =? WireRepeaterType_to_Z repeated_none) || (ls =? 0) then [(wt, wr, ls)] else [].

Definition REFINE_LOCAL_WIRE_FORLOOP (ip : InputParameter.t F) : list (Z * Z * Z) :=
  refine_wire (minLocalWireType ip) (maxLocalWireType ip)
    (minLocalWireRepeaterType ip) (maxLocalWireRepeaterType ip)
    (minIsLocalWireLowSwing ip) (maxIsLocalWireLowSwing ip).

Definition REFINE_GLOBAL_WIRE_FORLOOP (ip : InputParameter.t F) : list (Z * Z * Z) :=
  refine_wire (minGlobalWireType ip) (maxGlobalWireType ip)
    (minGlobalWireRepeaterType ip) (maxGlobalWireRepeaterType ip)
    (minIsGlobalWireLowSwing ip) (maxIsGlobalWireLowSwing ip).

(** The choices of [INITIAL_BASIC_WIRE]: a forced value, or the default. *)
Definition basic_local_wire (ip : InputParameter.t F) : WireType * WireRepeaterType * bool :=
  ((if minLocalWireType ip =? maxLocalWireType ip
    then WireType_of_Z (minLocalWireType ip) else local_aggressive),
   (if minLocalWireRepeaterType ip =? maxLocalWireRepeaterType ip
    then WireRepeaterType_of_Z (minLocalWireRepeaterType ip) else repeated_none),
   (if minIsLocalWireLowSwing ip =? maxIsLocalWireLowSwing ip
    then negb (minIsLocalWireLowSwing ip =? 0) else false)).

Definition basic_global_wire (ip : InputParameter.t F) : WireType * WireRepeaterType * bool :=
  ((if minGlobalWireType ip =? maxGlobalWireType ip
    then WireType_of_Z (minGlobalWireType ip) else global_aggressive),
   (if minGlobalWireRepeaterType ip =? maxGlobalWireRepeaterType ip
    then WireRepeaterType_of_Z (minGlobalWireRepeaterType ip) else repeated_none),
   (if minIsGlobalWireLowSwing ip =? maxIsGlobalWireLowSwing ip
    then negb (minIsGlobalWireLowSwing ip =? 0) else false)).

End Loops.

(** ** The doubling loop *)

(** The values a doubling loop takes. *)
Definition doubles (lo hi x : Z) : Prop := exists i, 0 <= i /\ x = lo * 2 ^ i /\ x <= hi.

Lemma doubling_from_spec n : forall x hi,
  1 <= x -> hi < 2 ^ 30 -> 2 ^ 31 <= x * 2 ^ Z.of_nat n ->
  exists l, doubling_from n x hi = Some l /\ forall y, In y l <-> doubles x hi y.
Proof.
  induction n as [|n IH]; intros x hi Hx Hhi Hn; cbn [doubling_from].
  - destruct (Z.leb_spec x hi); [change (2 ^ Z.of_nat 0) with 1 in Hn; lia|].
    exists []. split; [done|]. intros y. split; [done|].
    intros (i & Hi & -> & Hle). pose proof (pow2_pos i Hi). nia.
  - destruct (Z.leb_spec x hi) as [Hle|Hgt].
    + rewrite wrap32_small by lia.
      destruct (IH (x * 2) hi) as (l & Hl & Hin); [lia|lia| |].
      { rewrite Nat2Z.inj_succ, Z.pow_succ_r in Hn by lia. lia. }
      exists (x :: l). rewrite Hl. split; [done|]. intros y. simpl. rewrite Hin. split.
      * intros [<-|(i & Hi & -> & Hy)]; [exists 0; simpl; lia|].
        exists (i + 1). rewrite pow2_succ by lia. lia.
      * intros (i & Hi & -> & Hy). destruct (Z.eq_dec i 0) as [->|Hne]; [left; simpl; lia|].
        right. exists (i - 1). replace i with (i - 1 + 1) in Hy |- * by lia.
        rewrite pow2_succ in * by lia. replace (i - 1 + 1 - 1) with (i - 1) by lia. lia.
    + exists []. split; [done|]. intros y. split; [done|].
      intros (i & Hi & -> & Hy). pose proof (pow2_pos i Hi). nia.
Qed.

Lemma doubling_spec lo hi : 1 <= lo -> hi < 2 ^ 30 ->
  exists l, doubling lo hi = Some l /\ forall x, In x l <-> doubles lo hi x.
Proof. intros. apply doubling_from_spec; [lia|lia|]. change (Z.of_nat 32) with 32. lia. Qed.

(** A loop that starts at zero never ends: doubling zero makes no progress. *)
Lemma doubling_zero_diverges n hi : 0 <= hi -> doubling_from n 0 hi = None.
Proof.
  intros Hhi. induction n as [|n IH]; cbn [doubling_from];
    destruct (Z.leb_spec 0 hi); try lia; try reflexivity.
  change (wrap32 (0 * 2)) with 0. by rewrite IH.
Qed.

Lemma for_each_total {A} (xs : option (list Z)) (body : Z -> option (list A)) l :
  xs = Some l -> (forall x, In x l -> is_Some (body x)) -> is_Some (for_each xs body).
Proof.
  intros -> Hb. unfold for_each. cbn.
  assert (is_Some (mapM body l)) as [ls ->]; [|by eexists].
  apply mapM_is_Some, Forall_forall. intros x Hx. apply Hb. done.
Qed.

Lemma for_each_in {A} (xs : option (list Z)) (body : Z -> option (list A)) r y :
  for_each xs body = Some r ->
  (In y r <-> exists l x ly, xs = Some l /\ In x l /\ body x = Some ly /\ In y ly).
Proof.
  unfold for_each. destruct xs as [l|]; cbn; [|done].
  destruct (mapM body l) as [ls|] eqn:E; cbn; [|done]. intros [= <-].
  apply mapM_Some in E. rewrite in_concat. split.
  - intros (ly & Hly & Hy). apply list_elem_of_In, list_elem_of_lookup in Hly as (i & Hi).
    destruct (Forall2_lookup_r _ _ _ _ _ E Hi) as (x & Hx & Hb).
    exists l, x, ly. repeat split; try done. by eapply list_elem_of_In, list_elem_of_lookup_2.
  - intros (l' & x & ly & [= <-] & Hx & Hb & Hy).
    apply list_elem_of_In, list_elem_of_lookup in Hx as (i & Hi).
    destruct (Forall2_lookup_l _ _ _ _ _ E Hi) as (ly' & Hly & Hb').
    rewrite Hb in Hb'. injection Hb' as <-. exists ly. split; [|done].
    by eapply list_elem_of_In, list_elem_of_lookup_2.
Qed.

(** One doubling level of the nest. *)
Lemma for_doubling_in {A} lo hi (body : Z -> option (list A)) r y :
  1 <= lo -> hi < 2 ^ 30 -> for_each (doubling lo hi) body = Some r ->
  (In y r <-> exists x ly, doubles lo hi x /\ body x = Some ly /\ In y ly).
Proof.
  intros Hlo Hhi Hr. rewrite (for_each_in _ _ _ _ Hr).
  destruct (doubling_spec lo hi Hlo Hhi) as (l & Hl & Hin). split.
  - intros (l' & x & ly & Hl' & Hx & Hb & Hy). rewrite Hl in Hl'. injection Hl' as <-.
    exists x, ly. rewrite <- Hin. done.
  - intros (x & ly & Hx & Hb & Hy). exists l, x, ly. rewrite Hin. done.
Qed.

Lemma for_doubling_total {A} lo hi (body : Z -> option (list A)) :
  1 <= lo -> hi < 2 ^ 30 -> (forall x, doubles lo hi x -> is_Some (body x)) ->
  is_Some (for_each (doubling lo hi) body).
Proof.
  intros Hlo Hhi Hb. destruct (doubling_spec lo hi Hlo Hhi) as (l & Hl & Hin).
  apply (for_each_total _ _ l Hl). intros x Hx. apply Hb. by apply Hin.
Qed.

Lemma doubles_pos lo hi x : 1 <= lo -> doubles lo hi x -> 1 <= x <= hi.
Proof. intros Hlo (i & Hi & -> & Hle). pose proof (pow2_pos i Hi). nia. Qed.

Lemma doubles_range lo hi x b : doubles lo hi x -> 1 <= lo -> hi < b -> 1 <= x < b.
Proof. intros Hx Hlo Hhi. pose proof (doubles_pos lo hi x Hlo Hx). lia. Qed.

(** Doubling preserves powers of two. *)
Lemma doubles_pow2 k lo hi x : is_pow2 lo k -> doubles lo hi x -> exists j, is_pow2 x j.
Proof.
  intros [Hk ->] (i & Hi & -> & _). exists (k + i). split; [lia|]. by rewrite Z.pow_add_r.
Qed.

Lemma MINZ_pow2 a b j k : is_pow2 a j -> is_pow2 b k -> exists i, is_pow2 (MINZ a b) i.
Proof. unfold MINZ. destruct (a <? b); eauto. Qed.

Lemma MINZ_le a b : MINZ a b <= a /\ MINZ a b <= b.
Proof. unfold MINZ. destruct (Z.ltb_spec a b); lia. Qed.

Lemma MINZ_glb a b c : c <= a -> c <= b -> c <= MINZ a b.
Proof. unfold MINZ. destruct (Z.ltb_spec a b); lia. Qed.

(** ** The whole nest *)

Definition ends_with {A : Type} (o : option (list A)) (P : A -> Prop) : Prop :=
  exists l, o = Some l /\ forall y, In y l <-> P y.

Lemma for_doubling_ends {A} lo hi (body : Z -> option (list A)) (P : Z -> A -> Prop) :
  1 <= lo -> hi < 2 ^ 30 -> (forall x, doubles lo hi x -> ends_with (body x) (P x)) ->
  ends_with (for_each (doubling lo hi) body) (fun y => exists x, doubles lo hi x /\ P x y).
Proof.
  intros Hlo Hhi Hb.
  destruct (for_doubling_total lo hi body Hlo Hhi) as [r Hr].
  { intros x Hx. destruct (Hb x Hx) as (l & -> & _). by eexists. }
  exists r. split; [done|]. intros y. rewrite (for_doubling_in _ _ _ _ _ Hlo Hhi Hr). split.
  - intros (x & ly & Hx & Hbx & Hy). exists x. split; [done|].
    destruct (Hb x Hx) as (l & Hl & Hin). rewrite Hbx in Hl. injection Hl as <-. by apply Hin.
  - intros (x & Hx & HP). destruct (Hb x Hx) as (l & Hl & Hin).
    exists x, l. repeat split; try done. by apply Hin.
Qed.

Lemma for_counting_ends {A} lo hi (body : Z -> option (list A)) (P : Z -> A -> Prop) :
  (forall x, lo <= x <= hi -> ends_with (body x) (P x)) ->
  ends_with (for_each (counting lo hi) body) (fun y => exists x, lo <= x <= hi /\ P x y).
Proof.
  intros Hb. assert (Hin : forall x, In x (seqZ lo (hi - lo + 1)) <-> lo <= x <= hi).
  { intros x. rewrite <- list_elem_of_In, elem_of_seqZ. lia. }
  destruct (for_each_total (counting lo hi) body _ eq_refl) as [r Hr].
  { intros x Hx%Hin. destruct (Hb x Hx) as (l & -> & _). by eexists. }
  exists r. split; [done|]. intros y. rewrite (for_each_in _ _ _ _ Hr). split.
  - intros (l & x & ly & [= <-] & Hx%Hin & Hbx & Hy). exists x. split; [done|].
    destruct (Hb x Hx) as (l & Hl & Hl'). rewrite Hbx in Hl. injection Hl as <-. by apply Hl'.
  - intros (x & Hx & HP). destruct (Hb x Hx) as (l & Hl & Hl').
    exists (seqZ lo (hi - lo + 1)), x, l. repeat split; try done; [by apply Hin|by apply Hl'].
Qed.

Lemma single_ends {A} (d : A) : ends_with (Some [d]) (fun y => y = d).
Proof. exists [d]. split; [done|]. intros y. simpl. intuition congruence. Qed.

Section Space.
Context {F : Type} `{Num F}.
Import InputParameter.

(** The search is well posed: every loop starts at a positive value and its
    bound is far enough from the end of [int]. *)
Definition bounds_ok (ip : InputParameter.t F) : Prop :=
  (1 <= minNumRowSubArray ip /\ maxNumRowSubArray ip < 2 ^ 30) /\
  (1 <= minNumColumnSubArray ip /\ maxNumColumnSubArray ip < 2 ^ 30) /\
  (1 <= minStackLayer ip /\ maxStackLayer ip < 2 ^ 30) /\
  1 <= minNumActiveSubArrayPerRow ip /\ 1 <= minNumActiveSubArrayPerColumn ip /\
  (1 <= minNumRowMat ip /\ maxNumRowMat ip < 2 ^ 30) /\
  (1 <= minNumColumnMat ip /\ maxNumColumnMat ip < 2 ^ 30) /\
  1 <= minNumActiveMatPerRow ip /\ 1 <= minNumActiveMatPerColumn ip /\
  (1 <= minMuxSenseAmp ip /\ maxMuxSenseAmp ip < 2 ^ 30) /\
  (1 <= minMuxOutputLev1 ip /\ maxMuxOutputLev1 ip < 2 ^ 30) /\
  (1 <= minMuxOutputLev2 ip /\ maxMuxOutputLev2 ip < 2 ^ 30) /\
  (1 <= minNumRowPerSet ip /\ maxNumRowPerSet ip < 2 ^ 30).

(** The points the nest is meant to visit. *)
Definition in_space (ip : InputParameter.t F) (d : Design.t) : Prop :=
  doubles (minNumRowSubArray ip) (maxNumRowSubArray ip) (Design.numRowSubArray d) /\
  doubles (minNumColumnSubArray ip) (maxNumColumnSubArray ip) (Design.numColumnSubArray d) /\
  doubles (minStackLayer ip) (maxStackLayer ip) (Design.stackedDieCount d) /\
  doubles (MINZ (Design.numColumnSubArray d) (minNumActiveSubArrayPerRow ip))
          (MINZ (Design.numColumnSubArray d) (maxNumActiveSubArrayPerRow ip))
          (Design.numActiveSubArrayPerRow d) /\
  doubles (MINZ (Design.numRowSubArray d) (minNumActiveSubArrayPerColumn ip))
          (MINZ (Design.numRowSubArray d) (maxNumActiveSubArrayPerColumn ip))
          (Design.numActiveSubArrayPerColumn d) /\
  doubles (minNumRowMat ip) (maxNumRowMat ip) (Design.numRowMat d) /\
  doubles (minNumColumnMat ip) (maxNumColumnMat ip) (Design.numColumnMat d) /\
  doubles (MINZ (Design.numColumnMat d) (minNumActiveMatPerRow ip))
          (MINZ (Design.numColumnMat d) (maxNumActiveMatPerRow ip))
          (Design.numActiveMatPerRow d) /\
  doubles (MINZ (Design.numRowMat d) (minNumActiveMatPerColumn ip))
          (MINZ (Design.numRowMat d) (maxNumActiveMatPerColumn ip))
          (Design.numActiveMatPerColumn d) /\
  doubles (minMuxSenseAmp ip) (maxMuxSenseAmp ip) (Design.muxSenseAmp d) /\
  doubles (minMuxOutputLev1 ip) (maxMuxOutputLev1 ip) (Design.muxOutputLev1 d) /\
  doubles (minMuxOutputLev2 ip) (maxMuxOutputLev2 ip) (Design.muxOutputLev2 d) /\
  doubles (minNumRowPerSet ip) (MINZ (maxNumRowPerSet ip) (associativity ip))
          (Design.numRowPerSet d) /\
  minAreaOptimizationLevel ip <= Design.areaOptimizationLevel d <= maxAreaOptimizationLevel ip.

Ltac bound :=
  repeat match goal with
  | |- _ <= MINZ _ _ => apply MINZ_glb
  | |- MINZ ?a _ < _ => apply Z.le_lt_trans with a; [apply MINZ_le|]
  end; lia.

Lemma BIGFOR_ends (ip : InputParameter.t F) : bounds_ok ip -> ends_with (BIGFOR ip) (in_space ip).
Proof.
  intros Hb. unfold bounds_ok in Hb.
  assert (E : forall P, ends_with (BIGFOR ip) P -> (forall d, P d <-> in_space ip d) ->
                        ends_with (BIGFOR ip) (in_space ip)).
  { intros P (l & Hl & Hin) HP. exists l. split; [done|]. intros d. by rewrite Hin, HP. }
  eapply E; clear E.
  - unfold BIGFOR.
    repeat (apply for_doubling_ends;
            [ bound | bound
            | let x := fresh "x" in let Hx := fresh "Hx" in intros x Hx;
              let B := fresh "B" in
              assert (B : 1 <= x < 2 ^ 30) by (apply (doubles_range _ _ _ _ Hx); bound) ]).
    apply for_counting_ends. intros ? ?. apply single_ends.
  - clear Hb. intros d. unfold in_space. split.
    + intros HP. do 14 (destruct HP as (? & ? & HP)). subst d. simpl. tauto.
    + destruct d; simpl. intros HP. decompose [and] HP. eauto 40.
Qed.
End Space.

(** The triples of the wire refinement loops. *)
Lemma refine_wire_spec minT maxT minR maxR minS maxS wt wr ls :
  In (wt, wr, ls) (refine_wire minT maxT minR maxR minS maxS) <->
  minT <= wt <= maxT /\ minR <= wr <= maxR /\ minS <= ls <= maxS /\
  (wr = WireRepeaterType_to_Z repeated_none \/ ls = 0).
Proof.
  unfold refine_wire. rewrite <- list_elem_of_In.
  setoid_rewrite list_elem_of_bind. setoid_rewrite list_elem_of_bind. setoid_rewrite list_elem_of_bind.
  setoid_rewrite elem_of_seqZ. split.
  - intros (a & (b & (c & Hin & Hc) & Hb) & Ha).
    destruct (Z.eqb_spec b (WireRepeaterType_to_Z repeated_none)), (Z.eqb_spec c 0); cbn [orb] in Hin;
      try (apply list_elem_of_singleton in Hin; injection Hin as -> -> ->); lia || (by apply not_elem_of_nil in Hin).
  - intros (Ht & Hr & Hs & Hg). exists wt. split; [|lia]. exists wr. split; [|lia]. exists ls. split; [|lia].
    destruct (Z.eqb_spec wr (WireRepeaterType_to_Z repeated_none)), (Z.eqb_spec ls 0); cbn [orb];
      try apply list_elem_of_singleton; done || lia.
Qed.
