(* ===== verification/Scanf.v ===== *)
(** * The C string library the configuration reader uses

    [isspace], [isdigit] and [tolower] in the C locale, [strncmp] on a prefix,
    [strtod] and [sscanf] with the conversions [%d], [%ld], [%lf] and [%s].
    A C string is a [string] without NUL.  An integer conversion clamps to the
    range of [long] as glibc does and [%d] keeps the low 32 bits. *)
From S2P Require Import Prelude Numeric.
From stdpp Require Import base list.
From Stdlib Require Import ZArith Lia Ascii String.
Open Scope string_scope.
Open Scope Z_scope.

Module Scanf.

Definition code (c : ascii) : Z := Z.of_N (N_of_ascii c).

Definition isspace (c : ascii) : bool := (code c =? 32) || ((9 <=? code c) && (code c <=? 13)).
Definition isdigit (c : ascii) : bool := (48 <=? code c) && (code c <=? 57).
Definition digit (c : ascii) : Z := code c - 48.

Definition tolower (c : ascii) : ascii :=
  if (65 <=? code c) && (code c <=? 90) then ascii_of_N (Z.to_N (code c + 32)) else c.

Fixpoint to_lower (s : string) : string :=
  match s with
  | EmptyString => EmptyString
  | String c s => String (tolower c) (to_lower s)
  end.

Fixpoint skip_space (s : string) : string :=
  match s with
  | String c s' => if isspace c then skip_space s' else s
  | EmptyString => EmptyString
  end.

(** [after p s]: what follows [p] in [s], when [strncmp(p, s, strlen(p)) == 0]. *)
Fixpoint after (p s : string) : option string :=
  match p, s with
  | EmptyString, _ => Some s
  | String a p', String b s' => if Ascii.eqb a b then after p' s' else None
  | String _ _, EmptyString => None
  end.

Definition starts_with (p s : string) : bool := match after p s with Some _ => true | None => false end.

(** ** Numbers *)

(** The value of a digit, in base 16. *)
Definition hex_digit (c : ascii) : option Z :=
  let k := code (tolower c) in
  if isdigit c then Some (digit c) else if (97 <=? k) && (k <=? 102) then Some (k - 87) else None.

Definition dec_digit (c : ascii) : option Z := if isdigit c then Some (digit c) else None.

(** The digits at the start of a string: their value after [acc], their number
    after [n], and what follows. *)
Fixpoint digits (value : ascii -> option Z) (base acc n : Z) (s : string) : Z * Z * string :=
  match s with
  | String c s' =>
      match value c with
      | Some d => digits value base (acc * base + d) (n + 1) s'
      | None => (acc, n, s)
      end
  | EmptyString => (acc, n, s)
  end.

Definition sign (s : string) : bool * string :=
  match s with
  | String "-" s' => (true, s')
  | String "+" s' => (false, s')
  | _ => (false, s)
  end.

(** Digits with an optional fraction: mantissa, digits after the point, rest. *)
Definition mantissa (value : ascii -> option Z) (base : Z) (s : string) : option (Z * Z * string) :=
  let '(m, n, s1) := digits value base 0 0 s in
  match s1 with
  | String "." s2 =>
      let '(m, k, s3) := digits value base m 0 s2 in
      if n + k =? 0 then None else Some (m, k, s3)
  | _ => if n =? 0 then None else Some (m, 0, s1)
  end.

(** An exponent part introduced by [e]: the exponent, what follows, and whether
    [e] is there without digits. *)
Definition exponent (e : ascii) (s : string) : Z * string * bool :=
  match s with
  | String c s1 =>
      if Ascii.eqb (tolower c) e then
        let '(neg, s2) := sign s1 in
        let '(x, n, s3) := digits dec_digit 10 0 0 s2 in
        if n =? 0 then (0, s, true) else (if neg : bool then - x else x, s3, false)
      else (0, s, false)
  | EmptyString => (0, s, false)
  end.

Section Library.
Context {F : Type} `{Num F}.

(** What [strtod] reads: the value, [errno == ERANGE], the unread part, and
    whether a longer number was begun and given up. *)
Record Number : Type := mkNumber {
  number_value : F;
  number_range : bool;
  number_rest : string;
  number_partial : bool
}.

(** [m * 10^e] is below the normal range and not a [double]. *)
Definition underflows (m e : Z) : bool :=
  negb (m =? 0) && (e <? 0) &&
  (m * 2 ^ 1022 <? 10 ^ (- e)) && negb ((m * 2 ^ 1074) mod 10 ^ (- e) =? 0).

(** [m * 2^k] as [m' * 10^e']. *)
Definition binary_lit (m k : Z) : Z * Z :=
  if 0 <=? k then (m * 2 ^ k, 0) else (m * 5 ^ (- k), k).

Definition number (neg : bool) (m e : Z) (rest : string) (partial : bool) : Number :=
  let x := lit m e in
  mkNumber (if neg then (#(-1) * x)%num else x)
    (negb (nfinite x) || underflows m e) rest partial.

Definition decimal (neg : bool) (s : string) : option Number :=
  match mantissa dec_digit 10 s with
  | Some (m, k, s1) =>
      let '(x, s2, partial) := exponent "e" s1 in
      let prefix0 := match s, s1 with String "0" t, String c _ => String.eqb t s1 && Ascii.eqb (tolower c) "x"
                     | _, _ => false end in
      Some (number neg m (x - k) s2 (partial || prefix0))
  | None => None
  end.

Definition hexadecimal (neg : bool) (s : string) : option Number :=
  match s with
  | String "0" (String c s1) =>
      if Ascii.eqb (tolower c) "x" then
        match mantissa hex_digit 16 s1 with
        | Some (m, k, s2) =>
            let '(x, s3, partial) := exponent "p" s2 in
            let '(m', e') := binary_lit m (x - 4 * k) in
            Some (number neg m' e' s3 partial)
        | None => None
        end
      else None
  | _ => None
  end.

(** [inf], [infinity] and [nan], in any case. *)
Definition special (neg : bool) (s : string) : option Number :=
  let signed x := if neg then (#(-1) * x)%num else x in
  let low := to_lower s in
  let rest n := substring n (String.length s - n) s in
  if starts_with "infinity" low then Some (mkNumber (signed (#1 / #0)%num) false (rest 8%nat) false)
  else if starts_with "inf" low then
    Some (mkNumber (signed (#1 / #0)%num) false (rest 3%nat) (starts_with "infi" low))
  else if starts_with "nan" low then Some (mkNumber (signed (#0 / #0)%num) false (rest 3%nat) false)
  else None.

(** [strtod]; [None] when no conversion is performed. *)
Definition strtod (s : string) : option Number :=
  let '(neg, s1) := sign (skip_space s) in
  match hexadecimal neg s1 with
  | Some r => Some r
  | None => match decimal neg s1 with
            | Some r => Some r
            | None => special neg s1
            end
  end.

(** ** Conversions of [sscanf] *)

Inductive Value : Type :=
| Int (z : Z)
| Double (x : F)
| Str (s : string).

Definition clamp_long (z : Z) : Z := Z.max (- 2 ^ 63) (Z.min (2 ^ 63 - 1) z).

Definition scan_long (s : string) : option (Z * string) :=
  let '(neg, s1) := sign (skip_space s) in
  let '(x, n, s2) := digits dec_digit 10 0 0 s1 in
  if n =? 0 then None else Some (clamp_long (if neg then - x else x), s2).

Definition scan_int (s : string) : option (Z * string) :=
  match scan_long s with
  | Some (z, s') => Some (wrap32 z, s')
  | None => None
  end.

Definition scan_double (s : string) : option (F * string) :=
  match strtod s with
  | Some r => if number_partial r then None else Some (number_value r, number_rest r)
  | None => None
  end.

Fixpoint word (s : string) : string * string :=
  match s with
  | String c s' => if isspace c then (EmptyString, s) else let '(w, r) := word s' in (String c w, r)
  | EmptyString => (EmptyString, s)
  end.

Definition scan_string (s : string) : option (string * string) :=
  match word (skip_space s) with
  | (EmptyString, _) => None
  | (w, r) => Some (w, r)
  end.

(** [sscanf]: the values converted before the first failure. *)
Fixpoint sscanf (format s : string) : list Value :=
  let convert {A} (o : option (A * string)) (v : A -> Value) (rest : string -> list Value) :=
    match o with
    | Some (a, s') => v a :: rest s'
    | None => []
    end in
  match format with
  | EmptyString => []
  | String "%" (String "d" f) => convert (scan_int s) Int (sscanf f)
  | String "%" (String "s" f) => convert (scan_string s) Str (sscanf f)
  | String "%" (String "l" (String "d" f)) => convert (scan_long s) Int (sscanf f)
  | String "%" (String "l" (String "f" f)) => convert (scan_double s) Double (sscanf f)
  | String a f =>
      if isspace a then sscanf f (skip_space s)
      else match s with
           | String b s' => if Ascii.eqb a b then sscanf f s' else []
           | EmptyString => []
           end
  end.

(** Converted values are stored through the pointers in order. *)
Fixpoint store {S : Type} (pointers : list (Value -> S -> S)) (values : list Value) (st : S) : S :=
  match pointers, values with
  | p :: ps, v :: vs => store ps vs (p v st)
  | _, _ => st
  end.

Definition at_int {S : Type} (f : Z -> S -> S) (v : Value) (st : S) : S :=
  match v with Int z => f z st | _ => st end.
Definition at_double {S : Type} (f : F -> S -> S) (v : Value) (st : S) : S :=
  match v with Double x => f x st | _ => st end.
Definition at_string {S : Type} (f : string -> S -> S) (v : Value) (st : S) : S :=
  match v with Str w => f w st | _ => st end.

End Library.
Arguments Number : clear implicits.
Arguments Value : clear implicits.

(** ** Facts *)

Lemma after_app p s : after p (p ++ s) = Some s.
Proof. induction p as [|a p IH]; [done|]. simpl. by rewrite Ascii.eqb_refl. Qed.

Lemma after_inv p : forall s r, after p s = Some r -> s = p ++ r.
Proof.
  induction p as [|a p IH]; intros [|b s] r; cbn; try naive_solver.
  destruct (Ascii.eqb a b) eqn:E; [|done]. apply Ascii.eqb_eq in E as ->.
  intros Hr. by rewrite (IH s r Hr).
Qed.

Lemma starts_with_iff p s : starts_with p s = true <-> exists r, s = p ++ r.
Proof.
  unfold starts_with. split.
  - destruct (after p s) as [r|] eqn:E; [|done]. intros _. exists r. by apply after_inv.
  - intros [r ->]. by rewrite after_app.
Qed.

(** Two prefixes of one string are comparable. *)
Lemma starts_with_chain p q s :
  starts_with p s = true -> starts_with q s = true -> (String.length p <= String.length q)%nat ->
  starts_with p q = true.
Proof.
  unfold starts_with. revert q s. induction p as [|a p IH]; intros [|b q] [|c s]; cbn; try done; try lia.
  destruct (Ascii.eqb a c) eqn:Ea; [|done]. destruct (Ascii.eqb b c) eqn:Eb; [|done].
  apply Ascii.eqb_eq in Ea as ->. apply Ascii.eqb_eq in Eb as ->. rewrite Ascii.eqb_refl.
  intros Hp Hq Hl. apply (IH q s); [done..|lia].
Qed.

Lemma digits_count value base s : forall acc n, n <= (digits value base acc n s).1.2.
Proof.
  induction s as [|c t IH]; intros acc n; cbn; [lia|].
  destruct (value c); cbn; [|lia]. specialize (IH (acc * base + z) (n + 1)). lia.
Qed.

Lemma digits_shift value base s : forall acc n,
  digits value base acc n s =
  let '(a, k, r) := digits value base 0 0 s in (acc * base ^ k + a, n + k, r).
Proof.
  induction s as [|c s IH]; intros acc n; cbn; [by rewrite Z.mul_1_r, !Z.add_0_r|].
  destruct (value c) as [d|]; [|by rewrite Z.mul_1_r, !Z.add_0_r].
  rewrite (IH (acc * base + d)), (IH (0 * base + d)). pose proof (digits_count value base s 0 0) as Hk.
  destruct (digits value base 0 0 s) as [[a k] r]; cbn in *.
  f_equal. f_equal; [|lia]. rewrite (Z.add_comm (0 + 1)), Z.pow_add_r by lia. lia.
Qed.

End Scanf.
