(* ===== verification/ConfigParser.v ===== *)
(** * The configuration reader

    InputParameter.cpp, [ReadInputParameterFromFile] and the strict parsers it
    calls.  The file is read line by line and each line is compared with the
    option names in a fixed order; an option is an entry of a table here, in the
    order of the source.  What a run reads before writing it (the buffers [line]
    and [tmp], the local [cap]) is the record [Raw]. *)
From S2P Require Import Prelude Numeric Types InputParameter Scanf.
From stdpp Require Import base list.
From Stdlib Require Import ZArith Lia Ascii String.
Open Scope string_scope.
Open Scope Z_scope.

Module ConfigParser.
Import Scanf.

(** ** Strict values *)

(** [SkipWhitespace] advances the cursor; the cursor is the unread suffix. *)
Definition SkipWhitespace (cursor : string) : string := skip_space cursor.

(** The end of the value: trailing white space is dropped. *)
Fixpoint trim_end (s : string) : string :=
  match s with
  | EmptyString => EmptyString
  | String c s' =>
      match trim_end s' with
      | EmptyString => if isspace c then EmptyString else String c EmptyString
      | t => String c t
      end
  end.

Definition ExtractStrictValue (line option : string) : Datatypes.option string :=
  match after option line with
  | None => None
  | Some cursor =>
      match SkipWhitespace cursor with
      | String ":" cursor =>
          match trim_end (SkipWhitespace cursor) with
          | EmptyString => None
          | value => Some value
          end
      | _ => None
      end
  end.

Definition ParseStrictBool (value : string) : option bool :=
  let normalized := to_lower value in
  if String.eqb normalized "yes" || String.eqb normalized "true" || String.eqb normalized "1"
  then Some true
  else if String.eqb normalized "no" || String.eqb normalized "false" || String.eqb normalized "0"
  then Some false
  else None.

Definition uint64_max : Z := 2 ^ 64 - 1.

(** The digit loop of [ParseUnsignedToken], with its overflow guard. *)
Fixpoint unsigned_digits (parsed : Z) (cursor : string) : option (Z * string) :=
  match cursor with
  | String c rest =>
      if isdigit c then
        if Z.quot (uint64_max - digit c) 10 <? parsed then None
        else unsigned_digits ((parsed * 10 + digit c) mod 2 ^ 64) rest
      else Some (parsed, cursor)
  | EmptyString => Some (parsed, cursor)
  end.

Definition ParseUnsignedToken (cursor : string) : option (Z * string) :=
  match SkipWhitespace cursor with
  | String c rest => if isdigit c then unsigned_digits 0 (String c rest) else None
  | EmptyString => None
  end.

Definition ParseStrictPositiveUint64 (value : string) : option Z :=
  match ParseUnsignedToken value with
  | Some (result, cursor) =>
      if String.eqb (SkipWhitespace cursor) "" && (0 <? result) then Some result else None
  | None => None
  end.

Definition ParseStrictMatSize (value : string) : option (Z * Z) :=
  match ParseUnsignedToken value with
  | Some (rows, cursor) =>
      if rows =? 0 then None
      else
        match SkipWhitespace cursor with
        | String c cursor =>
            if Ascii.eqb c "x" || Ascii.eqb c "X" then
              match ParseUnsignedToken cursor with
              | Some (columns, cursor) =>
                  if columns =? 0 then None
                  else if String.eqb (SkipWhitespace cursor) "" then Some (rows, columns) else None
              | None => None
              end
            else None
        | EmptyString => None
        end
  | None => None
  end.

(** ** Options *)

(** Uninitialised storage of the reader. *)
Record Raw : Type := mkRaw { raw_line : string; raw_tmp : string; raw_cap : string -> Z }.

Section Options.
Context {F : Type} `{Num F}.
Variable raw : Raw.

Definition ParseStrictDouble (value : string) : option F :=
  match strtod value with
  | Some r =>
      if number_range r || negb (String.eqb (number_rest r) "") || negb (nfinite (number_value r))
      then None else Some (number_value r)
  | None => None
  end.

(** The parameters being filled in and the token buffer [tmp]. *)
Record Reader : Type := mkReader { params : InputParameter.t F; tmp : string }.

Definition set_params (f : InputParameter.t F -> InputParameter.t F) (st : Reader) : Reader :=
  mkReader (f (params st)) (tmp st).

(** An option: its name, whether its block ends in [continue], and its block. *)
Record Option : Type := mkOption {
  key : string;
  continues : bool;
  block : string -> Reader -> Outcome Reader
}.

(** [sscanf] into members, then the assignments that follow it. *)
Definition scan (format : string) (pointers : list (Value F -> Reader -> Reader))
  (next : InputParameter.t F -> InputParameter.t F) (line : string) (st : Reader) : Outcome Reader :=
  Ret (set_params next (store pointers (sscanf format line) st)).

Definition to_Z (f : Z -> InputParameter.t F -> InputParameter.t F) : Value F -> Reader -> Reader :=
  at_int (fun z => set_params (f z)).
Definition to_F (f : F -> InputParameter.t F -> InputParameter.t F) : Value F -> Reader -> Reader :=
  at_double (fun x => set_params (f x)).

(** [sscanf(line, format, tmp)], then a choice on the token in [tmp]. *)
Definition scan_word (format : string) (choose : string -> InputParameter.t F -> InputParameter.t F)
  (line : string) (st : Reader) : Outcome Reader :=
  let st := store [at_string (fun w st => mkReader (params st) w)] (sscanf format line) st in
  Ret (set_params (choose (tmp st)) st).

(** [sscanf(line, format, &cap)] into an uninitialised [long]. *)
Definition scan_cap (format : string) (f : Z -> InputParameter.t F -> InputParameter.t F)
  (line : string) (st : Reader) : Outcome Reader :=
  Ret (set_params (f (store [at_int (fun z _ => z)] (sscanf format line) (raw_cap raw line))) st).

(** A strict value or [ConfigError]. *)
Definition strict {A : Type} (name : string) (value : option A)
  (f : A -> InputParameter.t F -> InputParameter.t F) (st : Reader) : Outcome Reader :=
  match value with
  | Some a => Ret (set_params (f a) st)
  | None => Exit name
  end.

Definition extracted {A : Type} (line option : string) (parse : string -> Datatypes.option A)
  : Datatypes.option A :=
  match ExtractStrictValue line option with
  | Some value => parse value
  | None => None
  end.

Import InputParameter.

(** Lines 259-358: targets, process, size of the memory. *)
Definition general_options : list Option := [
  mkOption "-DesignTarget" true
    (scan_word "-DesignTarget: %s" (fun w ip =>
       let one ip := ip <| minNumRowPerSet := 1 |> <| maxNumRowPerSet := 1 |> in
       if String.eqb w "cache" then ip <| designTarget := cache |>
       else if String.eqb w "RAM" then one (ip <| designTarget := RAM_chip |>)
       else one (ip <| designTarget := CAM_chip |>)));
  mkOption "-OptimizationTarget" true
    (scan_word "-OptimizationTarget: %s" (fun w ip =>
       ip <| optimizationTarget :=
         if String.eqb w "ReadLatency" then read_latency_optimized
         else if String.eqb w "WriteLatency" then write_latency_optimized
         else if String.eqb w "ReadDynamicEnergy" then read_energy_optimized
         else if String.eqb w "WriteDynamicEnergy" then write_energy_optimized
         else if String.eqb w "ReadEDP" then read_edp_optimized
         else if String.eqb w "WriteEDP" then write_edp_optimized
         else if String.eqb w "ReadBandwidth" then read_bandwidth_optimized
         else if String.eqb w "WriteBandwidth" then write_bandwidth_optimized
         else if String.eqb w "LeakagePower" then leakage_optimized
         else if String.eqb w "Area" then area_optimized
         else full_exploration |>));
  mkOption "-OutputFilePrefix" true
    (scan_word "-OutputFilePrefix: %s" (fun w ip => ip <| outputFilePrefix := w |>));
  mkOption "-ProcessNode" true
    (scan "-ProcessNode: %d" [to_Z (fun z ip => ip <| processNode := z |>)] (fun ip => ip));
  mkOption "-Capacity (B)" true
    (scan_cap "-Capacity (B): %ld" (fun cap ip => ip <| capacity := cap |>));
  mkOption "-Capacity (KB)" true
    (scan_cap "-Capacity (KB): %ld" (fun cap ip => ip <| capacity := wrap64 (cap * 1024) |>));
  mkOption "-Capacity (MB)" true
    (scan_cap "-Capacity (MB): %ld" (fun cap ip =>
       ip <| capacity := wrap64 (wrap64 (cap * 1024) * 1024) |>));
  mkOption "-WordWidth" true
    (scan "-WordWidth (bit): %ld" [to_Z (fun z ip => ip <| wordWidth := z |>)] (fun ip => ip));
  mkOption "-ForceMatSize" true
    (fun line => strict "-ForceMatSize" (extracted line "-ForceMatSize (Rows x Columns)" ParseStrictMatSize)
       (fun '(rows, columns) ip =>
          ip <| forceMatSize := true |> <| forcedMatRows := rows |> <| forcedMatColumns := columns |>));
  mkOption "-Associativity" true
    (scan "-Associativity (for cache only): %d" [to_Z (fun z ip => ip <| associativity := z |>)]
       (fun ip => ip));
  mkOption "-Temperature" true
    (scan "-Temperature (K): %d" [to_Z (fun z ip => ip <| temperature := z |>)] (fun ip => ip));
  mkOption "-MaxDriverCurrent" true
    (scan "-MaxDriverCurrent (uA): %lf" [to_F (fun x ip => ip <| maxDriverCurrent := x |>)] (fun ip => ip))
].

(** Lines 360-397: device, write scheme and access mode. *)
Definition device_options : list Option := [
  mkOption "-DeviceRoadmap" true
    (scan_word "-DeviceRoadmap: %s" (fun w ip =>
       ip <| deviceRoadmap := if String.eqb w "HP" then HP
                              else if String.eqb w "LSTP" then LSTP else LOP |>));
  mkOption "-WriteScheme" true
    (scan_word "-WriteScheme: %s" (fun w ip =>
       ip <| writeScheme :=
         if String.eqb w "SetBeforeReset" then set_before_reset
         else if String.eqb w "ResetBeforeSet" then reset_before_set
         else if String.eqb w "EraseBeforeSet" then erase_before_set
         else if String.eqb w "EraseBeforeReset" then erase_before_reset
         else if String.eqb w "WriteAndVerify" then write_and_verify
         else normal_write |>));
  mkOption "-CacheAccessMode" true
    (scan_word "-CacheAccessMode: %s" (fun w ip =>
       ip <| cacheAccessMode :=
         if String.eqb w "Sequential" then sequential_access_mode
         else if String.eqb w "Fast" then fast_access_mode
         else normal_access_mode |>))
].

(** Lines 401-422 and 468-489: the names of the wire types. *)
Definition wire_type_of (w : string) : Z :=
  WireType_to_Z
    (if String.eqb w "LocalAggressive" then local_aggressive
     else if String.eqb w "LocalConservative" then local_conservative
     else if String.eqb w "SemiAggressive" then semi_aggressive
     else if String.eqb w "SemiConservative" then semi_conservative
     else if String.eqb w "GlobalAggressive" then global_aggressive
     else if String.eqb w "GlobalConservative" then global_conservative
     else dram_wordline).

(** Lines 427-451 and 494-518: the names of the repeater types. *)
Definition repeater_type_of (w : string) : Z :=
  WireRepeaterType_to_Z
    (if String.eqb w "RepeatedOpt" then repeated_opt
     else if String.eqb w "Repeated5%Penalty" then repeated_5
     else if String.eqb w "Repeated10%Penalty" then repeated_10
     else if String.eqb w "Repeated20%Penalty" then repeated_20
     else if String.eqb w "Repeated30%Penalty" then repeated_30
     else if String.eqb w "Repeated40%Penalty" then repeated_40
     else if String.eqb w "Repeated50%Penalty" then repeated_50
     else repeated_none).

Definition low_swing_of (w : string) : Z := if String.eqb w "Yes" then 1 else 0.

(** Lines 399-464. *)
Definition local_wire_options : list Option := [
  mkOption "-LocalWireType" true
    (scan_word "-LocalWireType: %s" (fun w ip =>
       ip <| minLocalWireType := wire_type_of w |> <| maxLocalWireType := wire_type_of w |>));
  mkOption "-LocalWireRepeaterType" true
    (scan_word "-LocalWireRepeaterType: %s" (fun w ip =>
       ip <| minLocalWireRepeaterType := repeater_type_of w |>
          <| maxLocalWireRepeaterType := repeater_type_of w |>));
  mkOption "-LocalWireUseLowSwing" true
    (scan_word "-LocalWireUseLowSwing: %s" (fun w ip =>
       ip <| minIsLocalWireLowSwing := low_swing_of w |> <| maxIsLocalWireLowSwing := low_swing_of w |>))
].

(** Lines 466-531. *)
Definition global_wire_options : list Option := [
  mkOption "-GlobalWireType" true
    (scan_word "-GlobalWireType: %s" (fun w ip =>
       ip <| minGlobalWireType := wire_type_of w |> <| maxGlobalWireType := wire_type_of w |>));
  mkOption "-GlobalWireRepeaterType" true
    (scan_word "-GlobalWireRepeaterType: %s" (fun w ip =>
       ip <| minGlobalWireRepeaterType := repeater_type_of w |>
          <| maxGlobalWireRepeaterType := repeater_type_of w |>));
  mkOption "-GlobalWireUseLowSwing" true
    (scan_word "-GlobalWireUseLowSwing: %s" (fun w ip =>
       ip <| minIsGlobalWireLowSwing := low_swing_of w |> <| maxIsGlobalWireLowSwing := low_swing_of w |>))
].

(** Lines 533-592. *)
Definition array_options : list Option := [
  mkOption "-Routing" true
    (scan_word "-Routing: %s" (fun w ip =>
       ip <| routingMode := if String.eqb w "H-tree" then h_tree else non_h_tree |>));
  mkOption "-InternalSensing" true
    (scan_word "-InternalSensing: %s" (fun w ip => ip <| internalSensing := String.eqb w "true" |>));
  mkOption "-RelaxSRAMCell" true
    (fun line => strict "-RelaxSRAMCell" (extracted line "-RelaxSRAMCell" ParseStrictBool)
       (fun b ip => ip <| relaxSRAMCell := b |>));
  mkOption "-MemoryCellInputFile" true
    (scan_word "-MemoryCellInputFile: %s" (fun w ip => ip <| fileMemCell := (fileMemCell ip ++ [w])%list |>));
  mkOption "-MaxNmosSize" true
    (scan "-MaxNmosSize (F): %lf" [to_F (fun x ip => ip <| maxNmosSize := x |>)] (fun ip => ip));
  mkOption "-BankAspectRatioLimit" true
    (fun line => strict "-BankAspectRatioLimit"
       (match extracted line "-BankAspectRatioLimit" ParseStrictDouble with
        | Some x => if negb (x =? #0)%num && (x <? #1)%num then None else Some x
        | None => None
        end)
       (fun x ip => ip <| bankAspectRatioLimit := x |>));
  mkOption "-DRAMTargetResidualRatio" true
    (fun line => strict "-DRAMTargetResidualRatio"
       (match extracted line "-DRAMTargetResidualRatio" ParseStrictDouble with
        | Some x => if (x <=? #0)%num || (x >=? #1)%num then None else Some x
        | None => None
        end)
       (fun x ip => ip <| dramTargetResidualRatio := x |>))
].

Definition set_minRows (z : Z) (ip : t F) : t F := ip <| minNumRowSubArray := z |>.
Definition set_minColumns (z : Z) (ip : t F) : t F := ip <| minNumColumnSubArray := z |>.
Definition set_minStack (z : Z) (ip : t F) : t F := ip <| minStackLayer := z |>.
Definition set_minActiveColumn (z : Z) (ip : t F) : t F := ip <| minNumActiveSubArrayPerColumn := z |>.
Definition set_minActiveRow (z : Z) (ip : t F) : t F := ip <| minNumActiveSubArrayPerRow := z |>.

(** The assignments [max... = min...] of a forced bank. *)
Definition fix_bank (ip : t F) : t F :=
  ip <| maxNumRowSubArray := minNumRowSubArray ip |> <| maxNumColumnSubArray := minNumColumnSubArray ip |>.
Definition fix_active (ip : t F) : t F :=
  ip <| maxNumActiveSubArrayPerColumn := minNumActiveSubArrayPerColumn ip |>
     <| maxNumActiveSubArrayPerRow := minNumActiveSubArrayPerRow ip |>.
Definition fix_stack (ip : t F) : t F :=
  ip <| maxStackLayer := minStackLayer ip |> <| forcedStackLayers := true |>.
Definition fix_mats (ip : t F) : t F :=
  ip <| maxNumRowMat := minNumRowMat ip |> <| maxNumColumnMat := minNumColumnMat ip |>.
Definition fix_active_mats (ip : t F) : t F :=
  ip <| maxNumActiveMatPerColumn := minNumActiveMatPerColumn ip |>
     <| maxNumActiveMatPerRow := minNumActiveMatPerRow ip |>.

(** Lines 594-697: forced organisations. *)
Definition force_options : list Option := [
  mkOption "-ForceBank3DA" true
    (scan "-ForceBank3DA (Total AxBxC): %dx%dx%d" [to_Z set_minRows; to_Z set_minColumns; to_Z set_minStack]
       (fun ip => fix_stack (fix_bank ip)));
  mkOption "-ForceBank3D" true
    (scan "-ForceBank3D (Total AxBxC, Active DxE): %dx%dx%d, %dx%d"
       [to_Z set_minRows; to_Z set_minColumns; to_Z set_minStack; to_Z set_minActiveColumn; to_Z set_minActiveRow]
       (fun ip => fix_stack (fix_active (fix_bank ip))));
  mkOption "-ForceBankA" true
    (scan "-ForceBankA (Total AxB): %dx%d" [to_Z set_minRows; to_Z set_minColumns] fix_bank);
  mkOption "-LimitMonolithicTier" true
    (fun line => strict "-LimitMonolithicTier"
       (match extracted line "-LimitMonolithicTier (N)" ParseStrictPositiveUint64 with
        | Some parsed => if int_max <? parsed then None else Some parsed
        | None => None
        end)
       (fun parsed ip => ip <| matLayerSet := parsed |> <| maxMatLayers := parsed |>));
  mkOption "-ClockFrequency" true
    (scan "-ClockFrequency: %lf" [to_F (fun x ip => ip <| clockInput := x |>)]
       (fun ip => ip <| clockFreq := clockInput ip |>));
  mkOption "-ForceBank" true
    (scan "-ForceBank (Total AxB, Active CxD): %dx%d, %dx%d"
       [to_Z set_minRows; to_Z set_minColumns; to_Z set_minActiveColumn; to_Z set_minActiveRow]
       (fun ip => fix_active (fix_bank ip)));
  mkOption "-ForceSubArrayA" true
    (scan "-ForceSubArrayA (Total AxB): %dx%d"
       [to_Z (fun z ip => ip <| minNumRowMat := z |>); to_Z (fun z ip => ip <| minNumColumnMat := z |>)] fix_mats);
  mkOption "-ForceSubArray" true
    (scan "-ForceSubArray (Total AxB, Active CxD): %dx%d, %dx%d"
       [to_Z (fun z ip => ip <| minNumRowMat := z |>); to_Z (fun z ip => ip <| minNumColumnMat := z |>);
        to_Z (fun z ip => ip <| minNumActiveMatPerColumn := z |>);
        to_Z (fun z ip => ip <| minNumActiveMatPerRow := z |>)]
       (fun ip => fix_active_mats (fix_mats ip)));
  mkOption "-ForceMuxSenseAmp" true
    (scan "-ForceMuxSenseAmp: %d" [to_Z (fun z ip => ip <| minMuxSenseAmp := z |>)]
       (fun ip => ip <| maxMuxSenseAmp := minMuxSenseAmp ip |>));
  mkOption "-ForceMuxOutputLev1" true
    (scan "-ForceMuxOutputLev1: %d" [to_Z (fun z ip => ip <| minMuxOutputLev1 := z |>)]
       (fun ip => ip <| maxMuxOutputLev1 := minMuxOutputLev1 ip |>));
  mkOption "-ForceMuxOutputLev2" true
    (scan "-ForceMuxOutputLev2: %d" [to_Z (fun z ip => ip <| minMuxOutputLev2 := z |>)]
       (fun ip => ip <| maxMuxOutputLev2 := minMuxOutputLev2 ip |>))
].

(** Lines 699-753; the block of [-BufferDesignOptimization] has no [continue]. *)
Definition search_options : list Option := [
  mkOption "-UseCactiAssumption" true
    (scan_word "-UseCactiAssumption: %s" (fun w ip =>
       if String.eqb w "Yes" then
         ip <| useCactiAssumption := true |>
            <| minNumActiveSubArrayPerRow := maxNumColumnSubArray ip |>
            <| maxNumActiveSubArrayPerRow := maxNumColumnSubArray ip |>
            <| minNumActiveSubArrayPerColumn := 1 |> <| maxNumActiveSubArrayPerColumn := 1 |>
            <| minNumRowMat := 2 |> <| maxNumRowMat := 2 |>
            <| minNumColumnMat := 2 |> <| maxNumColumnMat := 2 |>
            <| minNumActiveMatPerRow := 2 |> <| maxNumActiveMatPerRow := 2 |>
            <| minNumActiveMatPerColumn := 2 |> <| maxNumActiveMatPerColumn := 2 |>
       else ip <| useCactiAssumption := false |>));
  mkOption "-EnablePruning" true
    (scan_word "-EnablePruning: %s" (fun w ip => ip <| isPruningEnabled := String.eqb w "Yes" |>));
  mkOption "-BufferDesignOptimization" false
    (scan_word "-BufferDesignOptimization: %s" (fun w ip =>
       let level := if String.eqb w "latency" then 0 else if String.eqb w "area" then 2 else 1 in
       ip <| minAreaOptimizationLevel := level |> <| maxAreaOptimizationLevel := level |>));
  mkOption "-FlashPageSize" true
    (scan "-FlashPageSize (Byte): %ld" [to_Z (fun z ip => ip <| pageSize := z |>)]
       (fun ip => ip <| pageSize := wrap64 (pageSize ip * 8) |>));
  mkOption "-FlashBlockSize" true
    (scan "-FlashBlockSize (KB): %ld" [to_Z (fun z ip => ip <| flashBlockSize := z |>)]
       (fun ip => ip <| flashBlockSize := wrap64 (flashBlockSize ip * (8 * 1024)) |>))
].

Definition constrain (ip : t F) : t F := ip <| isConstraintApplied := true |>.

(** Lines 755-801. *)
Definition constraint_options : list Option := [
  mkOption "-ApplyReadLatencyConstraint" true
    (scan "-ApplyReadLatencyConstraint: %lf" [to_F (fun x ip => ip <| readLatencyConstraint := x |>)] constrain);
  mkOption "-ApplyWriteLatencyConstraint" true
    (scan "-ApplyWriteLatencyConstraint: %lf" [to_F (fun x ip => ip <| writeLatencyConstraint := x |>)] constrain);
  mkOption "-ApplyReadDynamicEnergyConstraint" true
    (scan "-ApplyReadDynamicEnergyConstraint: %lf"
       [to_F (fun x ip => ip <| readDynamicEnergyConstraint := x |>)] constrain);
  mkOption "-ApplyWriteDynamicEnergyConstraint" true
    (scan "-ApplyWriteDynamicEnergyConstraint: %lf"
       [to_F (fun x ip => ip <| writeDynamicEnergyConstraint := x |>)] constrain);
  mkOption "-ApplyLeakageConstraint" true
    (scan "-ApplyLeakageConstraint: %lf" [to_F (fun x ip => ip <| leakageConstraint := x |>)] constrain);
  mkOption "-ApplyAreaConstraint" true
    (scan "-ApplyAreaConstraint: %lf" [to_F (fun x ip => ip <| areaConstraint := x |>)] constrain);
  mkOption "-ApplyReadEdpConstraint" true
    (scan "-ApplyReadEdpConstraint: %lf" [to_F (fun x ip => ip <| readEdpConstraint := x |>)] constrain);
  mkOption "-ApplyWriteEdpConstraint" true
    (scan "-ApplyWriteEdpConstraint: %lf" [to_F (fun x ip => ip <| writeEdpConstraint := x |>)] constrain)
].

(** Lines 803-880; the last block has no [continue] and ends the loop body. *)
Definition report_options : list Option := [
  mkOption "-ViewMatStatistics" true
    (scan_word "-ViewMatStatistics: %s" (fun _ ip => ip <| viewMatStats := true |>));
  mkOption "-ViewQuantization" true
    (scan_word "-ViewQuantization: %s" (fun _ ip => ip <| quantize := true |>));
  mkOption "-M3DMemory" true
    (fun line => strict "-M3DMemory" (extracted line "-M3DMemory" ParseStrictBool)
       (fun b ip => ip <| monolithic3DMat := b |>));
  mkOption "-PartitionGranularity" true
    (scan "-PartitionGranularity: %d" [to_Z (fun z ip => ip <| partitionGranularity := z |>)] (fun ip => ip));
  mkOption "-LocalTSVProjection" true
    (scan "-LocalTSVProjection: %d" [to_Z (fun z ip => ip <| localTsvProjection := z |>)] (fun ip => ip));
  mkOption "-GlobalTSVProjection" true
    (scan "-GlobalTSVProjection: %d" [to_Z (fun z ip => ip <| globalTsvProjection := z |>)] (fun ip => ip));
  mkOption "-TSVRedundancy" true
    (scan "-TSVRedundancy: %lf" [to_F (fun x ip => ip <| tsvRedundancy := x |>)] (fun ip => ip));
  mkOption "-StackedDieCount" true
    (scan "-StackedDieCount: %d" [to_Z set_minStack] fix_stack);
  mkOption "-MonolithicStackCount" true
    (scan "-MonolithicStackCount: %d" [to_Z (fun z ip => ip <| monolithicStackCount := z |>)] (fun ip => ip));
  mkOption "-PrintAllOptimals" true
    (scan_word "-PrintAllOptimals: %s" (fun w ip => ip <| printAllOptimals := String.eqb w "true" |>));
  mkOption "-AllowDifferentTagTech" true
    (scan_word "-AllowDifferentTagTech: %s" (fun w ip => ip <| allowDifferentTagTech := String.eqb w "true" |>));
  mkOption "-PrintLevel" false
    (scan "-PrintLevel: %d" [to_Z (fun z ip => ip <| printLevel := z |>)] (fun ip => ip))
].

Definition options : list Option :=
  (general_options ++ device_options ++ local_wire_options ++ global_wire_options ++ array_options
   ++ force_options ++ search_options ++ constraint_options ++ report_options)%list.

(** ** The reading loop *)

(** The body of the loop: the blocks in order, up to a [continue]. *)
Fixpoint interpret (os : list Option) (line : string) (st : Reader) : Outcome Reader :=
  match os with
  | [] => Ret st
  | o :: os =>
      if starts_with (key o) line then
        let? st := block o line st in
        if continues o then Ret st else interpret os line st
      else interpret os line st
  end.

Fixpoint take_line (s : string) : string * string :=
  match s with
  | String c s' =>
      if Ascii.eqb c "010" then (EmptyString, s) else let '(l, r) := take_line s' in (String c l, r)
  | EmptyString => (EmptyString, EmptyString)
  end.

(** The buffers [line] and [tmp], with the terminating zero; a word of a line fits
    [tmp] because the line fits [line]. *)
Definition LINE_SIZE : Z := 5000.
Definition line_overrun : string := "undefined behaviour: a line does not fit its buffer".

Definition fits (l : string) : bool := Z.of_nat (String.length l) <? LINE_SIZE.

(** [fscanf(fp, "%[^\n]\n", line)]: [None] at the end of the file; no line, and
    nothing read, before an empty line; else the line, and the white space that
    follows it is skipped.  The conversion has no width: a line of 5000 characters or
    more is written beyond [line], which is undefined. *)
Definition fscanf_line (input : string) : Outcome (option (option string * string)) :=
  match input with
  | EmptyString => Ret None
  | _ => match take_line input with
         | (EmptyString, _) => Ret (Some (None, input))
         | (l, rest) => if fits l then Ret (Some (Some l, skip_space rest)) else Exit line_overrun
         end
  end.

(** The loop; [None] when [fuel] iterations do not reach the end of the file. *)
Fixpoint read_loop (fuel : nat) (input line : string) (st : Reader) : option (Outcome Reader) :=
  match fuel with
  | O => None
  | S fuel =>
      match fscanf_line input with
      | Exit e => Some (Exit e)
      | Ret None => Some (Ret st)
      | Ret (Some (l, rest)) =>
          let line := default line l in
          match interpret options line st with
          | Exit e => Some (Exit e)
          | Ret st => read_loop fuel rest line st
          end
      end
  end.

(** [ReadInputParameterFromFile] on the contents of the file, [None] when it
    cannot be opened.  Each iteration after an empty first line leaves the file
    where it is; every other iteration reads a character, so the length of the
    file bounds the iterations of a run that ends. *)
Definition ReadInputParameterFromFile (file : option string) (ip : InputParameter.t F)
  : option (Outcome (InputParameter.t F)) :=
  match file with
  | None => Some (Exit "cannot be found!")
  | Some input =>
      match read_loop (S (String.length input)) input (raw_line raw)
              (mkReader (ip <| forcedStackLayers := false |>) (raw_tmp raw)) with
      | None => None
      | Some o => Some (let? st := o in ValidateInputParameter (params st))
      end
  end.

End Options.
Arguments Reader : clear implicits.
Arguments Option : clear implicits.

End ConfigParser.
