(* ===== verification/Process.v ===== *)
(** * Process technology

    Technology.h/.cpp and main.cpp: the choice of the two tables a process node
    is interpolated from ([initializeTechnology]), the interpolation
    ([InterpolateWith]) and the electrical parameters of the vertical
    connections for a number of layers ([SetLayerCount]).  Here the tables are a
    parameter of the interpolation; [Technology::Initialize] and the tables are in
    TechTables and Technology.  The current tables have 101
    entries; an index outside a vertical-connection table is undefined. *)
From S2P Require Import Prelude Numeric RealNum Types InputParameter.
From stdpp Require Import base list.
From Stdlib Require Import ZArith Lia Reals Lra.
Open Scope Z_scope.

Module Process.

(** Technology.h *)
Record t (F : Type) : Type := mk {
  featureSizeInNano : Z;
  vdd : F;
  vpp : F;
  vth : F;
  vdsatNmos : F;
  vdsatPmos : F;
  phyGateLength : F;
  capIdealGate : F;
  capFringe : F;
  capJunction : F;
  capSidewall : F;
  capDrainToChannel : F;
  capOx : F;
  buildInPotential : F;
  effectiveElectronMobility : F;
  effectiveHoleMobility : F;
  pnSizeRatio : F;
  effectiveResistanceMultiplier : F;
  currentOnNmos : list F;
  currentOnPmos : list F;
  currentOffNmos : list F;
  currentOffPmos : list F;
  max_sheet_num : F;
  thickness_sheet : F;
  width_sheet : F;
  effective_width : F;
  max_fin_num : F;
  max_fin_per_GAA : F;
  gm_oncurrent : F;
  cap_draintotal : F;
  current_gmNmos : F;
  current_gmPmos : F;
  heightFin : F;
  widthFin : F;
  PitchFin : F;
  capTSV : list F;
  resTSV : list F;
  areaTSV : list F;
  layerCount : Z;
  tsv_pitch : Z -> Z -> F;
  tsv_diameter : Z -> Z -> F;
  tsv_length : Z -> Z -> F;
  tsv_dielec_thickness : Z -> Z -> F;
  tsv_contact_resistance : Z -> Z -> F;
  tsv_depletion_width : Z -> Z -> F;
  tsv_liner_dielectric_constant : Z -> Z -> F;
  tsv_parasitic_res : list (list F);
  tsv_parasitic_cap : list (list F);
  tsv_occupation_area : list (list F);
  featureSize : F;
  wireWidth : F;
  capOverlap : F;
  capPolywire : F;
  w_dep : F;
  neurosim_wiring : bool;
  deviceRoadmap : DeviceRoadmap;
  initialized : bool
}.
Arguments mk {_} _ _ _ _ _ _ _ _ _ _ _ _ _ _ _ _ _ _ _ _ _ _ _ _ _ _ _ _ _ _ _ _ _ _ _ _ _ _ _ _ _ _ _ _ _ _ _ _ _ _ _ _ _ _ _ _ _.
Arguments featureSizeInNano {_} _.
Arguments vdd {_} _.
Arguments vpp {_} _.
Arguments vth {_} _.
Arguments vdsatNmos {_} _.
Arguments vdsatPmos {_} _.
Arguments phyGateLength {_} _.
Arguments capIdealGate {_} _.
Arguments capFringe {_} _.
Arguments capJunction {_} _.
Arguments capSidewall {_} _.
Arguments capDrainToChannel {_} _.
Arguments capOx {_} _.
Arguments buildInPotential {_} _.
Arguments effectiveElectronMobility {_} _.
Arguments effectiveHoleMobility {_} _.
Arguments pnSizeRatio {_} _.
Arguments effectiveResistanceMultiplier {_} _.
Arguments currentOnNmos {_} _.
Arguments currentOnPmos {_} _.
Arguments currentOffNmos {_} _.
Arguments currentOffPmos {_} _.
Arguments max_sheet_num {_} _.
Arguments thickness_sheet {_} _.
Arguments width_sheet {_} _.
Arguments effective_width {_} _.
Arguments max_fin_num {_} _.
Arguments max_fin_per_GAA {_} _.
Arguments gm_oncurrent {_} _.
Arguments cap_draintotal {_} _.
Arguments current_gmNmos {_} _.
Arguments current_gmPmos {_} _.
Arguments heightFin {_} _.
Arguments widthFin {_} _.
Arguments PitchFin {_} _.
Arguments capTSV {_} _.
Arguments resTSV {_} _.
Arguments areaTSV {_} _.
Arguments layerCount {_} _.
Arguments tsv_pitch {_} _.
Arguments tsv_diameter {_} _.
Arguments tsv_length {_} _.
Arguments tsv_dielec_thickness {_} _.
Arguments tsv_contact_resistance {_} _.
Arguments tsv_depletion_width {_} _.
Arguments tsv_liner_dielectric_constant {_} _.
Arguments tsv_parasitic_res {_} _.
Arguments tsv_parasitic_cap {_} _.
Arguments tsv_occupation_area {_} _.
Arguments featureSize {_} _.
Arguments wireWidth {_} _.
Arguments capOverlap {_} _.
Arguments capPolywire {_} _.
Arguments w_dep {_} _.
Arguments neurosim_wiring {_} _.
Arguments deviceRoadmap {_} _.
Arguments initialized {_} _.
#[global] Instance eta {F : Type} : RecordEta (t F) := fun x =>
  mk (featureSizeInNano x) (vdd x) (vpp x) (vth x) (vdsatNmos x) (vdsatPmos x) (phyGateLength x)
    (capIdealGate x) (capFringe x) (capJunction x) (capSidewall x) (capDrainToChannel x) (capOx x)
    (buildInPotential x) (effectiveElectronMobility x) (effectiveHoleMobility x) (pnSizeRatio x)
    (effectiveResistanceMultiplier x) (currentOnNmos x) (currentOnPmos x) (currentOffNmos x)
    (currentOffPmos x) (max_sheet_num x) (thickness_sheet x) (width_sheet x) (effective_width x)
    (max_fin_num x) (max_fin_per_GAA x) (gm_oncurrent x) (cap_draintotal x) (current_gmNmos x)
    (current_gmPmos x) (heightFin x) (widthFin x) (PitchFin x) (capTSV x) (resTSV x) (areaTSV x)
    (layerCount x) (tsv_pitch x) (tsv_diameter x) (tsv_length x) (tsv_dielec_thickness x)
    (tsv_contact_resistance x) (tsv_depletion_width x) (tsv_liner_dielectric_constant x)
    (tsv_parasitic_res x) (tsv_parasitic_cap x) (tsv_occupation_area x)
    (featureSize x) (wireWidth x) (capOverlap x) (capPolywire x) (w_dep x) (neurosim_wiring x) (deviceRoadmap x) (initialized x).

Section Operations.
Context {F : Type} `{Num F}.

(** [(1 - _alpha) * x + _alpha * y] *)
Definition mix (alpha x y : F) : F := ((#1 - alpha) * x + alpha * y)%num.

(** The off currents are interpolated geometrically. *)
Definition mix_pow (alpha x y : F) : F := (npow x (#1 - alpha) * npow y alpha)%num.

(** Technology::InterpolateWith, first part: the device parameters. *)
Definition interpolate_device (this rhs : t F) (_alpha : F) : t F :=
  let m := mix _alpha in
  this
    <| vdd := m (vdd this) (vdd rhs) |>
    <| vpp := m (vpp this) (vpp rhs) |>
    <| vth := m (vth this) (vth rhs) |>
    <| phyGateLength := m (phyGateLength this) (phyGateLength rhs) |>
    <| capIdealGate := m (capIdealGate this) (capIdealGate rhs) |>
    <| capFringe := m (capFringe this) (capFringe rhs) |>
    <| capJunction := m (capJunction this) (capJunction rhs) |>
    <| capOx := m (capOx this) (capOx rhs) |>
    <| effectiveElectronMobility := m (effectiveElectronMobility this) (effectiveElectronMobility rhs) |>
    <| effectiveHoleMobility := m (effectiveHoleMobility this) (effectiveHoleMobility rhs) |>
    <| pnSizeRatio := m (pnSizeRatio this) (pnSizeRatio rhs) |>
    <| effectiveResistanceMultiplier := m (effectiveResistanceMultiplier this) (effectiveResistanceMultiplier rhs) |>
    <| currentOnNmos := zip_with m (currentOnNmos this) (currentOnNmos rhs) |>
    <| currentOnPmos := zip_with m (currentOnPmos this) (currentOnPmos rhs) |>
    <| currentOffNmos := zip_with (mix_pow _alpha) (currentOffNmos this) (currentOffNmos rhs) |>
    <| currentOffPmos := zip_with (mix_pow _alpha) (currentOffPmos this) (currentOffPmos rhs) |>.

(** Second part: junctions and saturation voltages from the new [vdd] and gate. *)
Definition interpolate_junctions (this : t F) : t F :=
  let cjd := lit 1 (-3) in
  let cjswd := lit 25 (-11) in
  let cjswgd := lit 5 (-11) in
  let mjd := lit 5 (-1) in
  let mjswd := lit 33 (-2) in
  let mjswgd := lit 33 (-2) in
  let this := this <| buildInPotential := lit 9 (-1) |> in
  let base := (#1 + vdd this / buildInPotential this)%num in
  this
    <| capJunction := (cjd / npow base mjd)%num |>
    <| capSidewall := (cjswd / npow base mjswd)%num |>
    <| capDrainToChannel := (cjswgd / npow base mjswgd)%num |>
    <| vdsatNmos := (phyGateLength this * lit 1 5 / effectiveElectronMobility this)%num |>
    <| vdsatPmos := (phyGateLength this * lit 1 5 / effectiveHoleMobility this)%num |>.

(** Third part: sheets and fins. *)
Definition interpolate_fins (this rhs : t F) (_alpha : F) : t F :=
  let m := mix _alpha in
  this
    <| max_sheet_num := m (max_sheet_num this) (max_sheet_num rhs) |>
    <| thickness_sheet := m (thickness_sheet this) (thickness_sheet rhs) |>
    <| width_sheet := m (width_sheet this) (width_sheet rhs) |>
    <| effective_width := m (effective_width this) (effective_width rhs) |>
    <| max_fin_num := m (max_fin_num this) (max_fin_num rhs) |>
    <| max_fin_per_GAA := max_fin_per_GAA rhs |>
    <| gm_oncurrent := m (gm_oncurrent this) (gm_oncurrent rhs) |>
    <| cap_draintotal := m (cap_draintotal this) (cap_draintotal rhs) |>
    <| current_gmNmos := m (current_gmNmos this) (current_gmNmos rhs) |>
    <| current_gmPmos := m (current_gmPmos this) (current_gmPmos rhs) |>
    <| heightFin := m (heightFin this) (heightFin rhs) |>
    <| widthFin := m (widthFin this) (widthFin rhs) |>
    <| PitchFin := m (PitchFin this) (PitchFin rhs) |>.

(** Technology::InterpolateWith *)
Definition InterpolateWith (this rhs : t F) (_alpha : F) : t F :=
  if featureSizeInNano this =? featureSizeInNano rhs then this
  else interpolate_fins (interpolate_junctions (interpolate_device this rhs _alpha)) rhs _alpha.

(** main.cpp, [initializeTechnology]: the upper table and the blend of a node,
    [None] when the node is not interpolated.  [processNode - 120.0] and the
    like are computed in [double]. *)
Definition blend (processNode : Z) : option (Z * F) :=
  let alpha low width := ((#processNode - #low) / #width)%num in
  if 200 <? processNode then None
  else if 120 <? processNode then Some (200, alpha 120 60)
  else if 90 <? processNode then Some (120, alpha 90 30)
  else if 65 <? processNode then Some (90, alpha 65 25)
  else if 45 <? processNode then Some (65, alpha 45 20)
  else if 32 <=? processNode then Some (45, alpha 32 13)
  else if 22 <=? processNode then Some (32, alpha 22 10)
  else if 14 <=? processNode then Some (22, alpha 14 8)
  else if 10 <=? processNode then Some (14, alpha 10 4)
  else if 7 <=? processNode then Some (10, alpha 7 3)
  else if 5 <=? processNode then Some (7, alpha 5 2)
  else if 3 <=? processNode then Some (5, alpha 3 2)
  else if 2 <=? processNode then Some (3, alpha 2 1)
  else if 1 <=? processNode then Some (2, alpha 1 1)
  else None.

(** [Initialize node] is the table of a node for the device roadmap of the run. *)
Definition initializeTechnology (Initialize : Z -> t F) (processNode : Z) : t F :=
  match blend processNode with
  | Some (high, alpha) => InterpolateWith (Initialize processNode) (Initialize high) alpha
  | None => Initialize processNode
  end.

(** ** Vertical connections *)

(** constant.h *)
Definition BULK_CU_RESISTIVITY : F := lit 18 (-3).
Definition PERMITTIVITY_FREE_SPACE : F := lit 8854 (-21).

(** Technology::tsv_calc_depwidth; [350/300] and [-6880/350] are quotients of
    [int]s, that is [1] and [-19]. *)
Definition tsv_calc_depwidth (interface_potential t_radius : F) : F :=
  (let epsilon_0 := lit 8854 (-15) in
   let epsilon_si := lit 117 (-1) * epsilon_0 in
   let k_boltzman := lit 1381 (-26) in
   let Na_dopant := lit 137 19 in
   let carrier_temp := lit 915 17 * npow (of_Z (Z.quot 350 300)) #2 * nexp (of_Z (Z.quot (-6880) 350)) in
   let elementary_q := lit 1602 (-22) in
   let tau_a := #(-1) * elementary_q * Na_dopant / epsilon_si in
   let tau_b := nexp (#(-1) * elementary_q * interface_potential / (k_boltzman * #350)) in
   let tau_c := npow (carrier_temp / Na_dopant) #2 in
   let tau_s := tau_a * (tau_b - #1 + tau_c) in
   let nu_a := k_boltzman * #350 * Na_dopant / epsilon_si in
   let nu_b := elementary_q * interface_potential / (k_boltzman * #350) in
   let nu_s := nu_a * ((tau_b + nu_b - #1) - (tau_c * nu_b)) in
   let gamma_a := interface_potential + (npow t_radius #2 * tau_s) in
   let gamma_b := nsqrt (npow interface_potential #2 + (#2 * npow t_radius #2 * nu_s)) in
   let gamma_s := #1 + (gamma_a / gamma_b) in
   t_radius * (nexp (#1 / gamma_s) - #1))%num.

(** Technology::tsv_resistance *)
Definition tsv_resistance (resistivity tsv_len tsv_diam contact : F) : F :=
  (resistivity * tsv_len / (lit 31416 (-4) * (tsv_diam / #2) * (tsv_diam / #2)) + contact)%num.

(** Technology::tsv_capacitance; the depletion width of the table is replaced. *)
Definition tsv_capacitance (this : t F) (tsv_len tsv_diam pitch dielec_thickness liner : F) : F :=
  (let e_si := PERMITTIVITY_FREE_SPACE * lit 119 (-1) in
   let PI := lit 31416 (-4) in
   let lateral_coupling_constant := lit 41 (-1) in
   let diagonal_coupling_constant := lit 53 (-1) in
   let depletion_width := tsv_calc_depwidth (vdd this) (tsv_diam / #2 * lit 1 (-6)) * lit 1 6 in
   let liner_cap := #2 * PI * PERMITTIVITY_FREE_SPACE * liner * tsv_len
                    / nlog (#1 + dielec_thickness / (tsv_diam / #2)) in
   let depletion_cap := #2 * PI * e_si * tsv_len
                        / nlog (#1 + depletion_width / (dielec_thickness + tsv_diam / #2)) in
   let self_cap := #1 / (#1 / liner_cap + #1 / depletion_cap) in
   let coupling distance :=
     lit 4 (-1) * (lit 225 (-3) * nlog (lit 97 (-2) * tsv_len / tsv_diam) + lit 53 (-2)) * e_si
     / (distance - tsv_diam) * PI * tsv_diam * tsv_len in
   self_cap + lateral_coupling_constant * coupling pitch
   + diagonal_coupling_constant * coupling (lit 1414 (-3) * pitch))%num.

(** Technology::tsv_area *)
Definition tsv_area (pitch : F) : F := npow pitch (of_Z 2).

(** [table[i][j]] *)
Definition at2 (table : list (list F)) (i j : Z) : Init F :=
  if (i <? 0) || (j <? 0) then Undefined
  else match table !! Z.to_nat i with
       | Some row => match row !! Z.to_nat j with Some x => Done x | None => Undefined end
       | None => Undefined
       end.

Definition TSV_type_to_Z (x : TSV_type) : Z :=
  match x with Fine => 0 | Coarse => 1 | Monolithic => 2 end.

(** The parasitics of the four TSV projections for a number of layers; the
    monolithic via has fixed ones. *)
Definition via_tables (layers : Z) (this : t F) : t F :=
  let len i j := (tsv_length this i j * #layers)%num in
  let res i j := tsv_resistance BULK_CU_RESISTIVITY (len i j) (tsv_diameter this i j) (tsv_contact_resistance this i j) in
  let cap i j := tsv_capacitance this (len i j) (tsv_diameter this i j) (tsv_pitch this i j)
                   (tsv_dielec_thickness this i j) (tsv_liner_dielectric_constant this i j) in
  let occ i j := tsv_area (tsv_pitch this i j) in
  this
    <| tsv_parasitic_res := [[res 0 0; res 0 1; of_Z 10]; [res 1 0; res 1 1; of_Z 32]] |>
    <| tsv_parasitic_cap := [[cap 0 0; cap 0 1; lit 2 (-16)]; [cap 1 0; cap 1 1; lit 64 (-17)]] |>
    <| tsv_occupation_area := [[occ 0 0; occ 0 1; occ 0 2]; [occ 1 0; occ 1 1; occ 1 2]] |>.

(** The entries of the fine, coarse and monolithic connections. *)
Definition pick (ip : InputParameter.t F) (table : list (list F)) : Init (list F) :=
  let local_ic_proj_type := TSV_type_to_Z (WireTypeToTSVType (InputParameter.maxLocalWireType ip)) in
  let global_ic_proj_type := TSV_type_to_Z (WireTypeToTSVType (InputParameter.maxGlobalWireType ip)) in
  let tsv_is_mat_type := InputParameter.localTsvProjection ip in
  let tsv_os_bank_type := InputParameter.globalTsvProjection ip in
  let! fine := at2 table local_ic_proj_type tsv_is_mat_type in
  let! coarse := at2 table global_ic_proj_type tsv_os_bank_type in
  let! monolithic := at2 table 0 2 in
  Done [fine; coarse; monolithic].

(** Technology::SetLayerCount *)
Definition SetLayerCount (ip : InputParameter.t F) (layers : Z) (this : t F) : Init (t F) :=
  if layers =? layerCount this then Done this
  else
    let this := via_tables layers this in
    let! res := pick ip (tsv_parasitic_res this) in
    let! cap := pick ip (tsv_parasitic_cap this) in
    let! area := pick ip (tsv_occupation_area this) in
    Done (this <| resTSV := res |> <| capTSV := cap |> <| areaTSV := area |> <| layerCount := layers |>).

End Operations.

(** ** Interpolation *)

Section Reals.
Open Scope R_scope.

Lemma fraction_range (n low width : Z) : (low <= n <= low + width)%Z -> (0 < width)%Z ->
  0 <= (IZR n - IZR low) / IZR width <= 1.
Proof.
  intros Hn Hw. assert (0 < IZR width) by (by apply IZR_lt).
  assert (IZR low <= IZR n <= IZR low + IZR width) by (rewrite <- plus_IZR; split; apply IZR_le; lia).
  assert (0 < / IZR width) by (by apply Rinv_0_lt_compat).
  split; [apply Rmult_le_pos; lra|]. apply (Rmult_le_reg_r (IZR width)); [done|].
  unfold Rdiv. rewrite Rmult_assoc, Rinv_l by lra. lra.
Qed.

Lemma mix_between (alpha x y : R) : 0 <= alpha <= 1 -> Rmin x y <= mix alpha x y <= Rmax x y.
Proof.
  intros Ha. unfold mix. cbn. unfold Rmin, Rmax. destruct (Rle_dec x y); split; nra.
Qed.

Lemma mix_overshoots (alpha x y : R) : 1 < alpha -> x < y -> y < mix alpha x y.
Proof. intros Ha Hxy. unfold mix. cbn. nra. Qed.

Lemma InterpolateWith_vdd (this rhs : t R) alpha : featureSizeInNano this <> featureSizeInNano rhs ->
  vdd (InterpolateWith this rhs alpha) = mix alpha (vdd this) (vdd rhs).
Proof. intros Hne. unfold InterpolateWith. by rewrite (proj2 (Z.eqb_neq _ _) Hne). Qed.

(** The blend of a node up to 180 nm, and the table it blends with. *)
Lemma blend_range node high (alpha : R) : (node <= 180)%Z -> blend node = Some (high, alpha) ->
  0 <= alpha <= 1 /\ (1 <= node <= high)%Z.
Proof.
  intros Hn. unfold blend.
  repeat match goal with
  | |- context [if (?a <? ?b)%Z then _ else _] => destruct (Z.ltb_spec a b)
  | |- context [if (?a <=? ?b)%Z then _ else _] => destruct (Z.leb_spec a b)
  end; try done; intros [= <- <-]; (split; [apply fraction_range; lia|lia]).
Qed.

End Reals.

(** ** Layer counts *)

Section Layers.
Context {F : Type} `{Num F}.

Lemma at2_done (a b c d e f : F) i j : 0 <= i <= 1 -> 0 <= j <= 2 ->
  exists x, at2 [[a; b; c]; [d; e; f]] i j = Done x.
Proof.
  intros Hi Hj. assert (i = 0 \/ i = 1) as [-> | ->] by lia;
    assert (j = 0 \/ j = 1 \/ j = 2) as [-> | [-> | ->]] by lia; by eexists.
Qed.

Lemma proj_range w : 0 <= TSV_type_to_Z (WireTypeToTSVType w) <= 1.
Proof. unfold WireTypeToTSVType. repeat case_match; cbn; lia. Qed.

(** A projection above 2 reads outside the tables. *)
Lemma projection_undefined (ip : InputParameter.t F) m (this : t F) :
  2 < InputParameter.localTsvProjection ip -> m <> layerCount this ->
  SetLayerCount ip m this = Undefined.
Proof.
  intros Hp Hm. unfold SetLayerCount. rewrite (proj2 (Z.eqb_neq _ _) Hm). cbv zeta. unfold pick. cbv zeta.
  assert (Hout : forall a b c d e f : F, at2 [[a; b; c]; [d; e; f]]
    (TSV_type_to_Z (WireTypeToTSVType (InputParameter.maxLocalWireType ip)))
    (InputParameter.localTsvProjection ip) = Undefined).
  { intros. pose proof (proj_range (InputParameter.maxLocalWireType ip)) as Hr.
    unfold at2. rewrite (proj2 (Z.ltb_ge _ 0)), (proj2 (Z.ltb_ge _ 0)) by lia. cbn [orb].
    assert (TSV_type_to_Z (WireTypeToTSVType (InputParameter.maxLocalWireType ip)) = 0 \/
            TSV_type_to_Z (WireTypeToTSVType (InputParameter.maxLocalWireType ip)) = 1) as [-> | ->] by lia;
      destruct (Z.to_nat (InputParameter.localTsvProjection ip)) as [|[|[|k]]] eqn:E; try lia; reflexivity. }
  assert (exists a b c d e f : F, tsv_parasitic_res (via_tables m this) = [[a; b; c]; [d; e; f]])
    as (a & b & c & d & e & f & ->) by (by repeat eexists). by rewrite Hout.
Qed.

Section History.
Context (ip : InputParameter.t F).
Hypothesis Hl : 0 <= InputParameter.localTsvProjection ip <= 2.
Hypothesis Hg : 0 <= InputParameter.globalTsvProjection ip <= 2.

Lemma pick_done table : (exists a b c d e f : F, table = [[a; b; c]; [d; e; f]]) ->
  exists l, pick ip table = Done l.
Proof.
  intros (a & b & c & d & e & f & ->). unfold pick. cbv zeta.
  destruct (at2_done a b c d e f _ _ (proj_range (InputParameter.maxLocalWireType ip)) Hl) as [x ->].
  destruct (at2_done a b c d e f _ _ (proj_range (InputParameter.maxGlobalWireType ip)) Hg) as [y ->].
  by eexists.
Qed.

(** What is picked from the tables of [n] layers is a function of the fields
    that no layer count changes. *)
Lemma SetLayerCount_done n (this : t F) : n <> layerCount this ->
  exists res cap area, SetLayerCount ip n this =
    Done ((via_tables n this) <| resTSV := res |> <| capTSV := cap |> <| areaTSV := area |> <| layerCount := n |>) /\
  forall res' cap' area' k k', k' <> n ->
    SetLayerCount ip n ((via_tables k this) <| resTSV := res' |> <| capTSV := cap' |> <| areaTSV := area' |>
                          <| layerCount := k' |>) =
    Done ((via_tables n this) <| resTSV := res |> <| capTSV := cap |> <| areaTSV := area |> <| layerCount := n |>).
Proof.
  intros Hn.
  destruct (pick_done (tsv_parasitic_res (via_tables n this))) as [res Er]; [by repeat eexists|].
  destruct (pick_done (tsv_parasitic_cap (via_tables n this))) as [cap Ec]; [by repeat eexists|].
  destruct (pick_done (tsv_occupation_area (via_tables n this))) as [area Ea]; [by repeat eexists|].
  exists res, cap, area. split.
  - unfold SetLayerCount. rewrite (proj2 (Z.eqb_neq _ _) Hn), Er. cbn [init_bind]. rewrite Ec. cbn [init_bind].
    by rewrite Ea.
  - intros res' cap' area' k k' Hk.
    assert (Hwrap : forall x : t F, layerCount x = k' -> via_tables n x =
              (via_tables n this) <| resTSV := resTSV x |> <| capTSV := capTSV x |> <| areaTSV := areaTSV x |>
                <| layerCount := k' |> ->
              SetLayerCount ip n x = Done ((via_tables n this) <| resTSV := res |> <| capTSV := cap |>
                <| areaTSV := area |> <| layerCount := n |>)).
    { intros x Hx Ex. unfold SetLayerCount. rewrite Hx, (proj2 (Z.eqb_neq n k')) by done. cbv zeta. rewrite Ex.
      change (tsv_parasitic_res _) with (tsv_parasitic_res (via_tables n this)) at 1. rewrite Er. cbn [init_bind].
      change (tsv_parasitic_cap _) with (tsv_parasitic_cap (via_tables n this)) at 1. rewrite Ec. cbn [init_bind].
      change (tsv_occupation_area _) with (tsv_occupation_area (via_tables n this)) at 1. rewrite Ea. reflexivity. }
    apply Hwrap; reflexivity.
Qed.
End History.
End Layers.

(** ** Claims *)

(** For every node up to 180 nm the interpolation is a proper one: the blend
    lies in [0, 1], so the supply voltage lies between those of the two tables. *)
Theorem interpolation_proper (Initialize : Z -> t R) node :
  (node <= 180)%Z -> (forall n, featureSizeInNano (Initialize n) = n) ->
  match blend (F := R) node with
  | Some (high, alpha) =>
      (Rmin (vdd (Initialize node)) (vdd (Initialize high))
       <= vdd (initializeTechnology Initialize node)
       <= Rmax (vdd (Initialize node)) (vdd (Initialize high)))%R
  | None => initializeTechnology Initialize node = Initialize node
  end.
Proof.
  intros Hn Hf. unfold initializeTechnology. destruct (blend node) as [[high alpha]|] eqn:E; [|done].
  destruct (blend_range node high alpha Hn E) as [Ha Hh].
  destruct (Z.eq_dec node high) as [<-|Hne].
  - unfold InterpolateWith. rewrite Z.eqb_refl. unfold Rmin, Rmax.
    destruct (Rle_dec _ _); lra.
  - rewrite InterpolateWith_vdd by (by rewrite !Hf). by apply mix_between.
Qed.

(** A table with a supply voltage that grows with the node. *)
Definition demo_table (n : Z) : t R :=
  mk n (IZR n) 0%R 0%R 0%R 0%R 0%R 0%R 0%R 0%R 0%R 0%R 0%R 0%R 0%R 0%R 0%R 0%R [] [] [] []
    0%R 0%R 0%R 0%R 0%R 0%R 0%R 0%R 0%R 0%R 0%R 0%R 0%R [] [] [] 0
    (fun _ _ => 0%R) (fun _ _ => 0%R) (fun _ _ => 0%R) (fun _ _ => 0%R) (fun _ _ => 0%R) (fun _ _ => 0%R)
    (fun _ _ => 0%R) [] [] [] (IZR n * lit 1 (-9))%R 0%R 0%R 0%R 0%R false HP true.

Lemma interpolation_proper_witness :
  (Rmin (vdd (demo_table 100%Z)) (vdd (demo_table 120%Z)) <= vdd (initializeTechnology demo_table 100%Z)
   <= Rmax (vdd (demo_table 100%Z)) (vdd (demo_table 120%Z)))%R.
Proof. apply (interpolation_proper demo_table 100); [lia|reflexivity]. Defined.

(** Between 181 nm and 199 nm the blend exceeds 1, so two different tables would be
    extrapolated: with a higher supply voltage at 200 nm, the node would get one
    above both.  The tables of the program are the same from 180 nm on, where a
    blend of any weight changes nothing. *)
Theorem interpolation_overshoots (Initialize : Z -> t R) node :
  (180 < node < 200)%Z -> (forall n, featureSizeInNano (Initialize n) = n) ->
  (vdd (Initialize node) < vdd (Initialize 200%Z))%R ->
  (vdd (Initialize 200%Z) < vdd (initializeTechnology Initialize node))%R.
Proof.
  intros Hn Hf Hv. unfold initializeTechnology, blend.
  destruct (Z.ltb_spec 200 node); [lia|]. destruct (Z.ltb_spec 120 node); [|lia].
  rewrite InterpolateWith_vdd by (rewrite !Hf; lia). apply mix_overshoots; [|done].
  cbn. assert (180 < IZR node)%R by (apply IZR_lt; lia). lra.
Qed.

Lemma interpolation_overshoots_witness :
  (vdd (demo_table 200%Z) < vdd (initializeTechnology demo_table 190%Z))%R.
Proof. apply interpolation_overshoots; [lia|reflexivity|cbn; lra]. Defined.

(** With projections in their documented range [SetLayerCount] has no
    undefined behaviour, remembers the count, and its result does not depend on
    the counts set before, so the order in which a search visits its die counts
    does not matter. *)
Theorem SetLayerCount_history {F} `{Num F} (ip : InputParameter.t F) m n (this : t F) :
  0 <= InputParameter.localTsvProjection ip <= 2 -> 0 <= InputParameter.globalTsvProjection ip <= 2 ->
  m <> layerCount this -> n <> layerCount this ->
  exists tm, SetLayerCount ip m this = Done tm /\ layerCount tm = m /\
    (let! tn := SetLayerCount ip n this in SetLayerCount ip m tn) = Done tm.
Proof.
  intros Hl Hg Hm Hn.
  destruct (SetLayerCount_done ip Hl Hg m this Hm) as (res & cap & area & Em & Hagain).
  destruct (SetLayerCount_done ip Hl Hg n this Hn) as (res' & cap' & area' & En & _).
  eexists. split; [exact Em|]. split; [reflexivity|]. rewrite En. cbn [init_bind].
  destruct (Z.eq_dec n m) as [->|Hne]; [|by apply Hagain].
  rewrite Em in En. injection En as <- <- <-. unfold SetLayerCount at 1. cbn [layerCount]. by rewrite Z.eqb_refl.
Qed.

Definition demo_ip (projection : Z) : InputParameter.t R :=
  (InputParameter.InputParameter 0 64 300 HP 0%R false) <| InputParameter.localTsvProjection := projection |>.

Lemma SetLayerCount_history_witness :
  exists tm, SetLayerCount (demo_ip 1) 4 (demo_table 90) = Done tm /\ layerCount tm = 4 /\
    (let! tn := SetLayerCount (demo_ip 1) 2 (demo_table 90) in SetLayerCount (demo_ip 1) 4 tn) = Done tm.
Proof. apply SetLayerCount_history; try split; lazy; discriminate. Defined.

End Process.
