(* ===== verification/ConfigFacts.v ===== *)
(** * Correctness of the configuration reader

    The dispatch on option names, the strict parsers against an unbounded
    reading of the digits, the round trip of a forced mat size, and the lines the
    reading loop takes in before it ends. *)
From S2P Require Import Prelude Numeric FloatNum Types InputParameter Search Process Scanf ConfigParser.
From stdpp Require Import base list.
From Stdlib Require Import ZArith Lia Ascii String Floats DecimalString DecimalFacts DecimalN.
Open Scope string_scope.
Open Scope Z_scope.

Module ConfigFacts.
Import Scanf ConfigParser.

(** ** Dispatch *)

(** In a table of names: no name is a prefix of a later one, and a name whose
    block falls through does not extend a later one. *)
Fixpoint well_ordered (ks : list (string * bool)) : bool :=
  match ks with
  | [] => true
  | (k, c) :: ks =>
      forallb (fun k' => negb (starts_with k k'.1) && (c || negb (starts_with k'.1 k))) ks
      && well_ordered ks
  end.

Section Dispatch.
Context {F : Type} `{Num F}.

Definition names (os : list (Option F)) : list (string * bool) := map (fun o => (key o, continues o)) os.

Lemma interpret_none (os : list (Option F)) line st :
  (forall o, In o os -> starts_with (key o) line = false) -> interpret os line st = Ret st.
Proof.
  induction os as [|o os IH]; intros Hno; cbn; [done|].
  rewrite (Hno o) by (by left). apply IH. intros o' Ho'. apply Hno. by right.
Qed.

Lemma well_ordered_head (o : Option F) os line :
  well_ordered (names (o :: os)) = true -> starts_with (key o) line = true ->
  forall o', In o' os -> starts_with (key o') line = true ->
    (String.length (key o') < String.length (key o))%nat /\ continues o = true.
Proof.
  cbn. rewrite andb_true_iff, forallb_forall. intros [Hall _] Ho o' Hin Ho'.
  specialize (Hall (key o', continues o') (in_map (fun o => (key o, continues o)) _ _ Hin)). cbn in Hall.
  apply andb_true_iff in Hall as [H1 H2]. apply negb_true_iff in H1.
  assert (Hlt : (String.length (key o') < String.length (key o))%nat).
  { destruct (le_lt_dec (String.length (key o)) (String.length (key o'))); [|done].
    by rewrite (starts_with_chain _ _ _ Ho Ho') in H1. }
  split; [done|]. rewrite (starts_with_chain _ _ _ Ho' Ho) in H2 by lia. by rewrite orb_false_r in H2.
Qed.

Lemma interpret_ordered (os : list (Option F)) line st : well_ordered (names os) = true ->
  (forall o, In o os -> starts_with (key o) line = false) \/
  exists o, In o os /\ starts_with (key o) line = true /\
    (forall o', In o' os -> starts_with (key o') line = true ->
       (String.length (key o') <= String.length (key o))%nat) /\
    interpret os line st = block o line st.
Proof.
  induction os as [|o os IH]; intros Hw; [by left|].
  pose proof (well_ordered_head o os line Hw) as Hhead.
  cbn in Hw. apply andb_true_iff in Hw as [_ Hw]. cbn [interpret].
  destruct (starts_with (key o) line) eqn:E.
  - right. exists o. split; [by left|]. split; [done|]. split.
    + intros o' [<-|Ho'] Hs; [lia|]. destruct (Hhead eq_refl o' Ho' Hs). lia.
    + destruct (block o line st) as [st'|e]; [|done]. cbn. destruct (continues o) eqn:Ec; [done|].
      apply interpret_none. intros o' Ho'. destruct (starts_with (key o') line) eqn:E'; [|done].
      destruct (Hhead eq_refl o' Ho' E') as [_ Hc]. congruence.
  - destruct (IH Hw) as [Hno|(o1 & Hin & Hs & Hmax & Hi)].
    + left. intros o' [<-|Ho']; [done|by apply Hno].
    + right. exists o1. split; [by right|]. split; [done|]. split; [|done].
      intros o' [<-|Ho'] Hs'; [congruence|by apply Hmax].
Qed.

End Dispatch.

(** ** Unsigned numbers *)

Lemma digit_range c : isdigit c = true -> 0 <= digit c <= 9.
Proof. unfold isdigit, digit. rewrite andb_true_iff, !Z.leb_le. lia. Qed.

Lemma digits_acc_le value s : forall acc n, 0 <= acc -> (forall c d, value c = Some d -> 0 <= d) ->
  acc <= (digits value 10 acc n s).1.1.
Proof.
  induction s as [|c s IH]; intros acc n Ha Hv; cbn; [lia|].
  destruct (value c) as [d|] eqn:E; cbn; [|lia]. specialize (Hv c d E) as Hd.
  specialize (IH (acc * 10 + d) (n + 1)). assert (0 <= acc * 10 + d) by lia. specialize (IH H Hv). lia.
Qed.

Lemma dec_digit_nonneg c d : dec_digit c = Some d -> 0 <= d.
Proof. unfold dec_digit. destruct (isdigit c) eqn:E; [|done]. intros [= <-]. by apply digit_range. Qed.

(** The guard refuses exactly the values that do not fit in 64 bits. *)
Lemma unsigned_digits_exact s : forall acc n, 0 <= acc <= ConfigParser.uint64_max ->
  unsigned_digits acc s =
  (let '(v, _, rest) := digits dec_digit 10 acc n s in
   if v <=? ConfigParser.uint64_max then Some (v, rest) else None).
Proof.
  induction s as [|c s IH]; intros acc n Ha; cbn [unsigned_digits digits].
  - by rewrite (proj2 (Z.leb_le _ _)) by lia.
  - unfold dec_digit at 1. destruct (isdigit c) eqn:Ec.
    2:{ by rewrite (proj2 (Z.leb_le _ _)) by lia. }
    pose proof (digit_range c Ec) as Hd.
    rewrite Z.quot_div_nonneg by (unfold ConfigParser.uint64_max; lia).
    pose proof (Z.div_mod (ConfigParser.uint64_max - digit c) 10 ltac:(lia)) as Hdiv.
    pose proof (Z.mod_pos_bound (ConfigParser.uint64_max - digit c) 10 ltac:(lia)) as Hmod.
    destruct (Z.ltb_spec ((ConfigParser.uint64_max - digit c) / 10) acc) as [Hlt|Hle].
    + pose proof (digits_acc_le dec_digit s (acc * 10 + digit c) (n + 1) ltac:(lia) dec_digit_nonneg) as Hge.
      destruct (digits dec_digit 10 (acc * 10 + digit c) (n + 1) s) as [[v k] r]. cbn in Hge.
      by rewrite (proj2 (Z.leb_gt _ _)) by lia.
    + rewrite Z.mod_small by (unfold ConfigParser.uint64_max in *; lia).
      apply IH. lia.
Qed.

(** ** Printing numbers *)

Lemma append_cons c s t : String c s ++ t = String c (s ++ t).
Proof. reflexivity. Qed.

Lemma append_nil s : s ++ "" = s.
Proof. induction s as [|c s IH]; [done|]. by rewrite append_cons, IH. Qed.

Definition no_digit (s : string) : bool := match s with String c _ => negb (isdigit c) | EmptyString => true end.

Definition show (n : Z) : string := NilEmpty.string_of_uint (N.to_uint (Z.to_N n)).

Lemma digits_stop acc n rest : no_digit rest = true -> digits dec_digit 10 acc n rest = (acc, n, rest).
Proof.
  destruct rest as [|c rest]; cbn; [done|]. unfold dec_digit. by destruct (isdigit c).
Qed.

(** Reads one concrete digit. *)
Ltac eval_digit :=
  match goal with |- context [dec_digit ?c] =>
    let v := eval vm_compute in (digit c) in change (dec_digit c) with (Some v) end; cbv iota beta.

Lemma digits_uint_acc d rest : no_digit rest = true -> forall p n, exists k,
  digits dec_digit 10 (Zpos p) n (NilEmpty.string_of_uint d ++ rest) = (Zpos (Pos.of_uint_acc d p), k, rest).
Proof.
  intros Hr. induction d; intros p n; cbn [NilEmpty.string_of_uint Pos.of_uint_acc];
    [exists n; by apply digits_stop|..]; rewrite append_cons; cbn [digits];
    eval_digit; edestruct IHd as [k Hk]; exists k; (etransitivity; [|exact Hk]); f_equal; lia.
Qed.

Lemma digits_uint d rest : no_digit rest = true -> forall n, exists k,
  digits dec_digit 10 0 n (NilEmpty.string_of_uint d ++ rest) = (Z.of_N (N.of_uint d), k, rest).
Proof.
  intros Hr. induction d; intros n; cbn [NilEmpty.string_of_uint];
    [exists n; by apply digits_stop|..]; rewrite append_cons; cbn [digits];
    eval_digit; [exact (IHd _)|..];
    edestruct (digits_uint_acc d rest Hr) as [k Hk]; exists k; exact Hk.
Qed.

Lemma show_head n : exists c s, show n = String c s /\ isdigit c = true /\ isspace c = false.
Proof.
  unfold show. pose proof (DecimalN.Unsigned.of_to (Z.to_N n)) as Hof.
  destruct (N.to_uint (Z.to_N n)) eqn:E; cbn [NilEmpty.string_of_uint];
    [|eexists _, _; repeat split; reflexivity..].
  exfalso. clear Hof. pose proof (DecimalN.Unsigned.to_of Decimal.Nil) as Hn. cbn in Hn.
  destruct (Z.to_N n) as [|p]; [done|]. pose proof (DecimalPos.Unsigned.to_uint_nonnil p). done.
Qed.

Lemma ParseUnsignedToken_show n rest : 0 <= n <= ConfigParser.uint64_max -> no_digit rest = true ->
  ParseUnsignedToken (show n ++ rest) = Some (n, rest).
Proof.
  intros Hn Hr. unfold ParseUnsignedToken, SkipWhitespace.
  destruct (show_head n) as (c & s & E & Hd & Hs).
  assert (Hskip : skip_space (show n ++ rest) = show n ++ rest) by (rewrite E, append_cons; cbn; by rewrite Hs).
  rewrite Hskip, E, append_cons, Hd, <- append_cons, <- E, (unsigned_digits_exact _ 0 0) by (unfold ConfigParser.uint64_max; lia).
  destruct (digits_uint (N.to_uint (Z.to_N n)) rest Hr 0) as [k Hk]. unfold show. rewrite Hk.
  rewrite DecimalN.Unsigned.of_to, Z2N.id by lia. by rewrite (proj2 (Z.leb_le _ _)) by lia.
Qed.

Lemma show_shape n : exists c s, show n = String c s /\ isdigit c = true /\ isspace c = false /\
  trim_end (show n) = show n.
Proof.
  destruct (show_head n) as (c & s & E & Hd & Hs). exists c, s. split; [done|]. split; [done|]. split; [done|].
  unfold show. clear. induction (N.to_uint (Z.to_N n)); cbn [NilEmpty.string_of_uint trim_end]; [done|..];
    rewrite IHu; by destruct (NilEmpty.string_of_uint u).
Qed.

Lemma trim_end_app s t : trim_end t <> "" -> trim_end (s ++ t) = s ++ trim_end t.
Proof.
  intros Ht. induction s as [|c s IH]; [done|]. rewrite !append_cons. cbn [trim_end]. rewrite IH.
  destruct (s ++ trim_end t) eqn:E; [|done]. destruct s; [by destruct (Ht E)|discriminate E].
Qed.

Lemma ParseStrictMatSize_show r c :
  0 < r <= ConfigParser.uint64_max -> 0 < c <= ConfigParser.uint64_max ->
  ParseStrictMatSize (show r ++ " x " ++ show c) = Some (r, c).
Proof.
  intros Hr Hc. unfold ParseStrictMatSize. rewrite ParseUnsignedToken_show by (done || lia).
  rewrite (proj2 (Z.eqb_neq _ _)) by lia.
  change (SkipWhitespace (" x " ++ show c)) with (String "x" (String " " (show c))).
  cbn [Ascii.eqb Bool.eqb orb andb].
  pose proof (ParseUnsignedToken_show c "" ltac:(lia) eq_refl) as Hp. rewrite append_nil in Hp.
  change (ParseUnsignedToken (String " " (show c))) with (ParseUnsignedToken (show c)).
  rewrite Hp, (proj2 (Z.eqb_neq _ _)) by lia. done.
Qed.

Lemma extracted_mat_size r c :
  0 < r <= ConfigParser.uint64_max -> 0 < c <= ConfigParser.uint64_max ->
  extracted ("-ForceMatSize (Rows x Columns): " ++ show r ++ " x " ++ show c)
    "-ForceMatSize (Rows x Columns)" ParseStrictMatSize = Some (r, c).
Proof.
  intros Hr Hc. unfold extracted, ExtractStrictValue.
  change ("-ForceMatSize (Rows x Columns): " ++ ?s) with ("-ForceMatSize (Rows x Columns)" ++ ": " ++ s).
  rewrite after_app.
  change (SkipWhitespace (": " ++ ?s)) with (String ":" (String " " s)). cbv iota beta.
  destruct (show_shape r) as (a & s & Er & _ & Hs & _).
  assert (Htrim : trim_end (show r ++ " x " ++ show c) = show r ++ " x " ++ show c).
  { destruct (show_shape c) as (b & s' & Ec & _ & _ & Ht).
    rewrite trim_end_app; rewrite trim_end_app; by rewrite Ht, Ec. }
  change (SkipWhitespace (String " " ?s)) with (SkipWhitespace s).
  assert (Hskip : SkipWhitespace (show r ++ " x " ++ show c) = show r ++ " x " ++ show c).
  { unfold SkipWhitespace. rewrite Er, append_cons. cbn. by rewrite Hs. }
  rewrite Hskip, Htrim, Er, append_cons. rewrite <- append_cons, <- Er.
  by apply ParseStrictMatSize_show.
Qed.

(** ** Conversions of printed numbers *)

Lemma digits_show n rest : 0 <= n -> no_digit rest = true ->
  exists k, 0 < k /\ digits dec_digit 10 0 0 (show n ++ rest) = (n, k, rest).
Proof.
  intros Hn Hr. destruct (digits_uint (N.to_uint (Z.to_N n)) rest Hr 0) as [k Hk]. unfold show in *.
  rewrite DecimalN.Unsigned.of_to, Z2N.id in Hk by lia. exists k. split; [|done].
  destruct (show_head n) as (c & s & E & Hd & _). unfold show in E. rewrite E, append_cons in Hk.
  cbn [digits] in Hk. unfold dec_digit at 1 in Hk. rewrite Hd in Hk.
  pose proof (digits_count dec_digit 10 (s ++ rest) (0 * 10 + digit c) (0 + 1)) as Hc.
  rewrite Hk in Hc. cbn in Hc. lia.
Qed.

Lemma scan_long_show n rest : 0 <= n < 2 ^ 63 -> no_digit rest = true ->
  scan_long (show n ++ rest) = Some (n, rest).
Proof.
  intros Hn Hr. destruct (show_shape n) as (c & s & E & Hd & Hs & _). unfold scan_long.
  assert (Hskip : skip_space (show n ++ rest) = show n ++ rest) by (rewrite E, append_cons; cbn; by rewrite Hs).
  assert (Hsign : sign (show n ++ rest) = (false, show n ++ rest)).
  { rewrite E, append_cons. unfold sign. destruct c as [[|] [|] [|] [|] [|] [|] [|] [|]]; done. }
  rewrite Hskip, Hsign. destruct (digits_show n rest) as (k & Hk & ->); [lia|done|].
  rewrite (proj2 (Z.eqb_neq k 0)) by lia. unfold clamp_long. do 2 f_equal. lia.
Qed.

Lemma scan_int_show n rest : 0 <= n < 2 ^ 31 -> no_digit rest = true ->
  scan_int (show n ++ rest) = Some (n, rest).
Proof. intros Hn Hr. unfold scan_int. rewrite scan_long_show by (done || lia). by rewrite wrap32_small by lia. Qed.

Section Formats.
Context {F : Type} `{Num F}.

Lemma sscanf_space f s : sscanf (F := F) (String " " f) (String " " s) = sscanf f (skip_space s).
Proof. reflexivity. Qed.

Lemma skip_show n rest : skip_space (show n ++ rest) = show n ++ rest.
Proof. destruct (show_shape n) as (c & s & E & _ & Hs & _). rewrite E, append_cons. cbn. by rewrite Hs. Qed.

Lemma sscanf_int f n rest : 0 <= n < 2 ^ 31 -> no_digit rest = true ->
  sscanf (F := F) ("%d" ++ f) (show n ++ rest) = Int n :: sscanf f rest.
Proof.
  intros Hn Hr. change (sscanf ("%d" ++ f) ?s) with
    (match scan_int s with Some (a, s') => @Int F a :: sscanf f s' | None => [] end).
  by rewrite scan_int_show.
Qed.

Lemma sscanf_long f n rest : 0 <= n < 2 ^ 63 -> no_digit rest = true ->
  sscanf (F := F) ("%ld" ++ f) (show n ++ rest) = Int n :: sscanf f rest.
Proof.
  intros Hn Hr. change (sscanf ("%ld" ++ f) ?s) with
    (match scan_long s with Some (a, s') => @Int F a :: sscanf f s' | None => [] end).
  by rewrite scan_long_show.
Qed.

End Formats.

(** ** Reading a file *)

(** The lines of a file: the pieces between newlines. *)
Fixpoint split_lines (s : string) : list string :=
  match s with
  | EmptyString => [EmptyString]
  | String c s' =>
      if Ascii.eqb c "010" then EmptyString :: split_lines s'
      else match split_lines s' with h :: t => String c h :: t | [] => [] end
  end.

Definition nonempty (s : string) : bool := negb (String.eqb s "").

(** What the reader sees of them: it skips the white space before every line but the
    first, and with it the lines that have nothing else. *)
Definition file_lines (s : string) : list string :=
  match split_lines s with
  | [] => []
  | h :: t => List.filter nonempty (h :: map skip_space t)
  end.

(** The file does not stand before an empty line. *)
Definition at_text (input : string) : Prop := forall s, input <> String "010" s.

Lemma skip_space_length s : (String.length (skip_space s) <= String.length s)%nat.
Proof. induction s as [|c s IH]; cbn; [lia|]. destruct (isspace c); cbn; lia. Qed.

Lemma skip_space_head s c r : skip_space s = String c r -> isspace c = false.
Proof.
  induction s as [|a s IH]; cbn; [done|]. destruct (isspace a) eqn:E; [done|]. by intros [= <- _].
Qed.

Lemma split_lines_cons s : exists h t, split_lines s = h :: t.
Proof. induction s as [|c s (h & t & E)]; cbn; [by eexists _, _|]. rewrite E. case_match; by eexists _, _. Qed.

(** After a line, its newline and white space, the lines that follow it are left. *)
Lemma file_lines_skip s : file_lines (skip_space s) = List.filter nonempty (map skip_space (split_lines s)).
Proof.
  induction s as [|c s IH]; [done|]. destruct (split_lines_cons s) as (h & t & E). cbn [skip_space split_lines].
  destruct (isspace c) eqn:Es.
  - rewrite IH. destruct (Ascii.eqb c "010"); [done|]. rewrite E. cbn [map skip_space]. by rewrite Es.
  - destruct (Ascii.eqb_spec c "010") as [->|Hc]; [done|]. unfold file_lines. cbn [split_lines].
    rewrite (proj2 (Ascii.eqb_neq c "010") Hc), E. cbn [map skip_space]. by rewrite Es.
Qed.

Lemma take_line_split s : exists t, split_lines s = fst (take_line s) :: t /\
  List.filter nonempty (map skip_space t) = file_lines (skip_space (snd (take_line s))) /\
  (String.length (snd (take_line s)) <= String.length s)%nat.
Proof.
  induction s as [|c s (t & E & Ht & Hl)]; cbn [take_line split_lines]; [by exists []|].
  destruct (Ascii.eqb_spec c "010") as [->|Hc].
  - eexists. split; [reflexivity|]. split; [|done]. cbn [snd]. change (skip_space (String "010" s)) with (skip_space s). by rewrite file_lines_skip.
  - rewrite E. destruct (take_line s) as [l r]. cbn [fst snd] in *. exists t. split; [done|]. split; [done|]. cbn. lia.
Qed.

(** One [fscanf] takes the first line. *)
Lemma fscanf_line_first input : at_text input ->
  match file_lines input with
  | [] => fscanf_line input = Ret None
  | l :: ls =>
      if fits l then exists rest, fscanf_line input = Ret (Some (Some l, rest)) /\ file_lines rest = ls /\ at_text rest /\
        (String.length rest < String.length input)%nat
      else fscanf_line input = Exit line_overrun
  end.
Proof.
  intros Hin. destruct input as [|c s]; [done|]. unfold file_lines, fscanf_line. cbn [split_lines take_line].
  destruct (Ascii.eqb_spec c "010") as [->|Hc]; [by destruct (Hin s)|].
  destruct (take_line_split s) as (t & E & Ht & Hl). rewrite E. destruct (take_line s) as [l r]. cbn [fst snd] in *.
  cbn [List.filter nonempty String.eqb negb]. destruct (fits (String c l)); [|done].
  exists (skip_space r). split; [done|]. split; [done|]. split.
  - intros s' Hs'. by apply skip_space_head in Hs'.
  - pose proof (skip_space_length r). cbn. lia.
Qed.

(** Both readers share the loop around [fscanf]; [step] is its body. *)
Section Loop.
Context {S : Type} (step : string -> S -> Outcome S).

Fixpoint scan_loop (fuel : nat) (input line : string) (st : S) : option (Outcome S) :=
  match fuel with
  | O => None
  | Datatypes.S fuel =>
      match fscanf_line input with
      | Exit e => Some (Exit e)
      | Ret None => Some (Ret st)
      | Ret (Some (l, rest)) =>
          let line := default line l in
          match step line st with
          | Exit e => Some (Exit e)
          | Ret st => scan_loop fuel rest line st
          end
      end
  end.

(** Taking in the lines one by one, if they fit the buffer. *)
Definition take_in (lines : list string) (st : S) : Outcome S :=
  outcome_fold (fun st l => if fits l then step l st else Exit line_overrun) lines st.

Lemma scan_loop_lines n : forall input line st, at_text input -> (String.length input < n)%nat ->
  scan_loop n input line st = Some (take_in (file_lines input) st).
Proof.
  unfold take_in. induction n as [|n IH]; intros input line st Hin Hl; [lia|]. cbn [scan_loop].
  pose proof (fscanf_line_first input Hin) as Hf. destruct (file_lines input) as [|l ls]; [by rewrite Hf|].
  cbn [outcome_fold]. destruct (fits l); [|by rewrite Hf]. destruct Hf as (rest & -> & <- & Hrest & Hlt).
  cbv zeta. change (default line (Some l)) with l. destruct (step l st) as [st'|e]; [|done].
  cbn [outcome_bind]. apply IH; [done|lia].
Qed.

Lemma scan_loop_blank n : forall s line st st', scan_loop n (String "010" s) line st <> Some (Ret st').
Proof.
  induction n as [|n IH]; intros s line st st'; [done|]. cbn [scan_loop].
  change (fscanf_line (String "010" s)) with (@Ret _ (Some (@None string, String "010" s))). cbv iota beta zeta.
  change (default line None) with line. destruct (step line st) as [st1|e]; [apply IH|discriminate].
Qed.
End Loop.

Lemma read_loop_scan {F} `{Num F} raw n : forall input line (st : Reader F),
  read_loop raw n input line st = scan_loop (interpret (options raw)) n input line st.
Proof.
  induction n as [|n IH]; intros input line st; [done|]. cbn [read_loop scan_loop].
  destruct (fscanf_line input) as [[[l rest]|]|]; [|done|done]. cbv zeta.
  destruct (interpret (options raw) (default line l) st); [apply IH|done].
Qed.

(** What [ValidateInputParameter] guarantees of the parameters it accepts. *)
Definition valid {F} `{Num F} (ip : InputParameter.t F) : Prop :=
  nfinite (InputParameter.bankAspectRatioLimit ip) = true /\
  ((InputParameter.bankAspectRatioLimit ip =? #0)%num = true \/
   (InputParameter.bankAspectRatioLimit ip <? #1)%num = false) /\
  (InputParameter.forceMatSize ip = true ->
     InputParameter.forcedMatRows ip <> 0 /\ InputParameter.forcedMatColumns ip <> 0) /\
  nfinite (InputParameter.dramTargetResidualRatio ip) = true /\
  (InputParameter.dramTargetResidualRatio ip <=? #0)%num = false /\
  (#1 <=? InputParameter.dramTargetResidualRatio ip)%num = false /\
  0 < InputParameter.maxMatLayers ip.



Lemma interpret_at {F} `{Num F} (pre post : list (Option F)) o line st :
  forallb (fun o' => negb (starts_with (key o') line)) pre = true ->
  starts_with (key o) line = true -> continues o = true ->
  interpret (pre ++ o :: post)%list line st = block o line st.
Proof.
  intros Hpre Ho Hc. induction pre as [|o' pre IH]; cbn [app interpret].
  - rewrite Ho. destruct (block o line st); cbn; by rewrite ?Hc.
  - cbn in Hpre. apply andb_true_iff in Hpre as [->%negb_true_iff Hpre]. by apply IH.
Qed.

Lemma interpret_nth {F} `{Num F} raw k (o : Option F) line st :
  nth_error (options raw) k = Some o ->
  forallb (fun o' => negb (starts_with (key o') line)) (firstn k (options raw)) = true ->
  starts_with (key o) line = true -> continues o = true ->
  interpret (options raw) line st = block o line st.
Proof.
  intros Hk Hpre Ho Hc. rewrite <- (firstn_skipn_middle k _ Hk). by apply interpret_at.
Qed.

(** ** Claims *)

(** C34: on every line the reader runs the block of exactly one option, the one
    with the longest name that begins the line, whatever the order of the blocks
    and although two of them lack [continue]; a line that begins with no option
    name changes nothing. *)
Theorem longest_option_runs {F} `{Num F} raw line (st : Reader F) :
  interpret (options raw) line st = Ret st /\
    (forall o, In o (options raw) -> starts_with (key o) line = false) \/
  exists o, In o (options raw) /\ starts_with (key o) line = true /\
    (forall o', In o' (options raw) -> starts_with (key o') line = true ->
       (String.length (key o') <= String.length (key o))%nat) /\
    interpret (options raw) line st = block o line st.
Proof.
  assert (Hw : well_ordered (names (options raw : list (Option F))) = true) by (vm_compute; reflexivity).
  destruct (interpret_ordered (options raw) line st Hw) as [Hno|Hsome]; [left|by right].
  split; [by apply interpret_none|done].
Qed.

(** C35: [ParseUnsignedToken] reads the digits after white space as an unbounded
    decimal number, returns it when it fits in 64 bits and fails on every larger
    one: the overflow guard is exact and the wrap-around is never reached. *)
Theorem ParseUnsignedToken_exact s :
  ParseUnsignedToken s =
  (let '(v, n, rest) := digits dec_digit 10 0 0 (skip_space s) in
   if (0 <? n) && (v <? 2 ^ 64) then Some (v, rest) else None).
Proof.
  unfold ParseUnsignedToken, SkipWhitespace. destruct (skip_space s) as [|c r] eqn:E; [done|].
  destruct (isdigit c) eqn:Ed.
  - rewrite (unsigned_digits_exact _ 0 0) by (unfold ConfigParser.uint64_max; lia).
    cbn [digits]. replace (dec_digit c) with (Some (digit c)) by (unfold dec_digit; by rewrite Ed).
    rewrite (digits_shift _ _ r (0 * 10 + digit c)). pose proof (digits_count dec_digit 10 r 0 0) as Hn.
    destruct (digits dec_digit 10 0 0 r) as [[v k] rest]. cbn in Hn.
    rewrite (proj2 (Z.ltb_lt 0 (0 + 1 + k))) by lia. cbn [andb].
    replace (_ <=? ConfigParser.uint64_max) with ((0 * 10 + digit c) * 10 ^ k + v <? 2 ^ 64); [done|].
    unfold ConfigParser.uint64_max. apply eq_true_iff_eq. rewrite Z.leb_le, Z.ltb_lt. lia.
  - cbn [digits]. unfold dec_digit. rewrite Ed. done.
Qed.

(** C40: a forced mat size of any two positive 64-bit numbers, written as the
    option documents it, is read back exactly, and nothing else is changed. *)
Theorem force_mat_size_roundtrip {F} `{Num F} raw r c (st : Reader F) :
  0 < r < 2 ^ 64 -> 0 < c < 2 ^ 64 ->
  interpret (options raw) ("-ForceMatSize (Rows x Columns): " ++ show r ++ " x " ++ show c) st =
  Ret (mkReader ((params st) <| InputParameter.forceMatSize := true |>
                           <| InputParameter.forcedMatRows := r |>
                           <| InputParameter.forcedMatColumns := c |>) (tmp st)).
Proof.
  intros Hr Hc. erewrite (interpret_nth raw 8); [|reflexivity..].
  cbn [block]. rewrite extracted_mat_size by (unfold ConfigParser.uint64_max; lia). reflexivity.
Qed.

Lemma force_mat_size_roundtrip_witness :
  let st := mkReader (InputParameter.InputParameter (F := float) 0 64 300 HP 0%float false) "" in
  interpret (options (mkRaw "" "" (fun _ => 0))) "-ForceMatSize (Rows x Columns): 512 x 128" st =
  Ret (mkReader ((params st) <| InputParameter.forceMatSize := true |>
                           <| InputParameter.forcedMatRows := 512 |>
                           <| InputParameter.forcedMatColumns := 128 |>) (tmp st)).
Proof. apply (force_mat_size_roundtrip _ 512 128); lia. Defined.




(** A line that does not fit the buffer overruns it. *)
Theorem long_line_overruns {F} `{Num F} raw line (ip : InputParameter.t F) :
  at_text line -> hd "" (file_lines line) = line -> 5000 <= Z.of_nat (String.length line) ->
  ReadInputParameterFromFile raw (Some line) ip = Some (Exit line_overrun).
Proof.
  intros Hin Hh Hl. unfold ReadInputParameterFromFile. rewrite read_loop_scan, scan_loop_lines by (done || lia).
  destruct (file_lines line) as [|l ls]; [cbn in Hh; subst; cbn in Hl; lia|]. cbn in Hh. subst l. cbn [take_in outcome_fold].
  unfold take_in. cbn [outcome_fold]. unfold fits, LINE_SIZE at 1. by rewrite (proj2 (Z.ltb_ge _ _)) by lia.
Qed.

(** A configuration file that begins with an empty line is never read to
    its end, however many iterations the loop is given: [fscanf] matches nothing
    and consumes nothing, which is not [EOF]. *)
Theorem empty_first_line_never_ends {F} `{Num F} raw n rest line (st st' : Reader F) :
  read_loop raw n (String "010" rest) line st <> Some (Ret st').
Proof. rewrite read_loop_scan. apply scan_loop_blank. Qed.

(** A forced bank of zero rows is accepted by the reader and by the
    validation, and the loop over the rows then never ends, whatever the fuel. *)
Theorem forced_zero_rows_accepted : exists ip',
  ReadInputParameterFromFile (F := float) (mkRaw "" "" (fun _ => 0))
    (Some "-ForceBank (Total AxB, Active CxD): 0x4, 1x1")
    (InputParameter.InputParameter 65536 64 300 HP 0%float false) = Some (Ret ip') /\
  valid ip' /\
  forall n, doubling_from n (InputParameter.minNumRowSubArray ip') (InputParameter.maxNumRowSubArray ip') = None.
Proof.
  eexists. split; [vm_compute; reflexivity|]. split.
  - repeat split; try reflexivity; try done. right. reflexivity.
  - intros n. by apply doubling_zero_diverges.
Qed.

(** A [-LocalTSVProjection] outside the tables of vertical connections is
    accepted by the reader and by the validation, and setting a layer count then
    reads outside those tables. *)
Theorem unchecked_projection_accepted : exists ip',
  ReadInputParameterFromFile (F := float) (mkRaw "" "" (fun _ => 0)) (Some "-LocalTSVProjection: 3")
    (InputParameter.InputParameter 65536 64 300 HP 0%float false) = Some (Ret ip') /\
  valid ip' /\
  forall m this, m <> Process.layerCount this -> Process.SetLayerCount ip' m this = Undefined.
Proof.
  eexists. split; [vm_compute; reflexivity|]. split.
  - repeat split; try reflexivity; try done. right. reflexivity.
  - intros m this Hm. by apply Process.projection_undefined.
Qed.

(** The value of a printed number after a literal prefix. *)
Lemma sscanf_long_last {F} `{Num F} format line n : 0 <= n < 2 ^ 63 ->
  sscanf (F := F) format line = sscanf "%ld" (skip_space (show n)) -> sscanf format line = [@Int F n].
Proof.
  intros Hn ->. pose proof (skip_show n "") as Hs. pose proof (sscanf_long (F := F) "" n "" Hn eq_refl) as Hl.
  rewrite !append_nil in *. rewrite Hs. exact Hl.
Qed.

(** C18: [-Capacity] in each of its units sets the capacity to the number of bytes,
    with the factors of 1024 the documentation gives. *)
Theorem capacity_units_read {F} `{Num F} raw n (st : Reader F) :
  0 <= n < 2 ^ 43 ->
  let read unit := interpret (options raw) ("-Capacity (" ++ unit ++ "): " ++ show n) st in
  let bytes k := Ret (mkReader ((params st) <| InputParameter.capacity := k |>) (tmp st)) in
  read "B" = bytes n /\ read "KB" = bytes (n * 1024) /\ read "MB" = bytes (n * 1024 * 1024).
Proof.
  intros Hn read bytes. subst read bytes. cbv beta. split; [|split].
  - erewrite (interpret_nth raw 4); [|reflexivity..]. cbn [block]. unfold scan_cap.
    erewrite (sscanf_long_last _ _ n); [reflexivity|lia|reflexivity].
  - erewrite (interpret_nth raw 5); [|reflexivity..]. cbn [block]. unfold scan_cap.
    erewrite (sscanf_long_last _ _ n); [|lia|reflexivity]. cbn [store at_int].
    by rewrite wrap64_small by lia.
  - erewrite (interpret_nth raw 6); [|reflexivity..]. cbn [block]. unfold scan_cap.
    erewrite (sscanf_long_last _ _ n); [|lia|reflexivity]. cbn [store at_int].
    by rewrite (wrap64_small (n * 1024)), wrap64_small by lia.
Qed.

Lemma capacity_units_read_witness :
  let st := mkReader (InputParameter.InputParameter (F := float) 0 64 300 HP 0%float false) "" in
  let read unit := interpret (options (mkRaw "" "" (fun _ => 0))) ("-Capacity (" ++ unit ++ "): " ++ show 64) st in
  let bytes k := Ret (mkReader ((params st) <| InputParameter.capacity := k |>) (tmp st)) in
  read "B" = bytes 64 /\ read "KB" = bytes (64 * 1024) /\ read "MB" = bytes (64 * 1024 * 1024).
Proof. apply capacity_units_read. lia. Defined.

(** A forced bank of any four counts, written as the option documents it, fixes
    both bounds of the four loops to these counts, rows before columns in the
    totals and columns before rows in the active counts, and changes nothing else. *)
Theorem force_bank_roundtrip {F} `{Num F} raw a b c d (st : Reader F) :
  0 <= a < 2 ^ 31 -> 0 <= b < 2 ^ 31 -> 0 <= c < 2 ^ 31 -> 0 <= d < 2 ^ 31 ->
  interpret (options raw)
    ("-ForceBank (Total AxB, Active CxD): " ++ show a ++ "x" ++ show b ++ ", " ++ show c ++ "x" ++ show d) st =
  Ret (mkReader
    ((params st) <| InputParameter.minNumRowSubArray := a |> <| InputParameter.maxNumRowSubArray := a |>
       <| InputParameter.minNumColumnSubArray := b |> <| InputParameter.maxNumColumnSubArray := b |>
       <| InputParameter.minNumActiveSubArrayPerColumn := c |> <| InputParameter.maxNumActiveSubArrayPerColumn := c |>
       <| InputParameter.minNumActiveSubArrayPerRow := d |> <| InputParameter.maxNumActiveSubArrayPerRow := d |>)
    (tmp st)).
Proof.
  intros Ha Hb Hc Hd. set (line := "-ForceBank (Total AxB, Active CxD): " ++ _).
  assert (Hi : interpret (options raw) line st =
    scan "-ForceBank (Total AxB, Active CxD): %dx%d, %dx%d"
      [to_Z set_minRows; to_Z set_minColumns; to_Z set_minActiveColumn; to_Z set_minActiveRow]
      (fun ip => fix_active (fix_bank ip)) line st).
  { etransitivity; [eapply (interpret_nth raw 33); reflexivity|reflexivity]. }
  rewrite Hi. unfold scan. subst line.
  change (sscanf "-ForceBank (Total AxB, Active CxD): %dx%d, %dx%d" ("-ForceBank (Total AxB, Active CxD): " ++ ?s))
    with (sscanf (F := F) ("%d" ++ "x%d, %dx%d") (skip_space s)).
  rewrite skip_show, sscanf_int by done.
  change (sscanf "x%d, %dx%d" ("x" ++ ?s)) with (sscanf (F := F) ("%d" ++ ", %dx%d") s).
  rewrite sscanf_int by done.
  change (sscanf ", %dx%d" (", " ++ ?s)) with (sscanf (F := F) ("%d" ++ "x%d") (skip_space s)).
  rewrite skip_show, sscanf_int by done.
  change (sscanf "x%d" ("x" ++ ?s)) with (sscanf (F := F) ("%d" ++ "") s).
  rewrite <- (append_nil (show d)), sscanf_int by done. reflexivity.
Qed.

Lemma force_bank_roundtrip_witness :
  let st := mkReader (InputParameter.InputParameter (F := float) 0 64 300 HP 0%float false) "" in
  interpret (options (mkRaw "" "" (fun _ => 0))) "-ForceBank (Total AxB, Active CxD): 64x4, 1x2" st =
  Ret (mkReader
    ((params st) <| InputParameter.minNumRowSubArray := 64 |> <| InputParameter.maxNumRowSubArray := 64 |>
       <| InputParameter.minNumColumnSubArray := 4 |> <| InputParameter.maxNumColumnSubArray := 4 |>
       <| InputParameter.minNumActiveSubArrayPerColumn := 1 |> <| InputParameter.maxNumActiveSubArrayPerColumn := 1 |>
       <| InputParameter.minNumActiveSubArrayPerRow := 2 |> <| InputParameter.maxNumActiveSubArrayPerRow := 2 |>)
    (tmp st)).
Proof. apply (force_bank_roundtrip _ 64 4 1 2); lia. Defined.

End ConfigFacts.
