(* ===== verification/Circuit.v ===== *)
(** * Circuit components and their interfaces

    FunctionUnit.h/.cpp (the base class of every circuit component), and the
    view a bank or subarray has of the components it is built from: the members
    it reads, and the operations it calls.  The operations are the class
    [CircuitOps], each of which may end the program; [CircuitLaws] states what
    the hierarchy relies on. *)
From S2P Require Import Prelude Numeric Types InputParameter.
From stdpp Require Import base list strings.
From Stdlib Require Import ZArith Lia.
Open Scope Z_scope.

(** FunctionUnit.h *)
Module FunctionUnit.
Record t (F : Type) : Type := mk {
  height : F;
  width : F;
  newHeight : F;
  newWidth : F;
  area : F;
  readLatency : F;
  writeLatency : F;
  readDynamicEnergy : F;
  writeDynamicEnergy : F;
  leakage : F;
  setLatency : F;
  resetLatency : F;
  refreshLatency : F;
  setDynamicEnergy : F;
  resetDynamicEnergy : F;
  cellReadEnergy : F;
  cellSetEnergy : F;
  cellResetEnergy : F;
  refreshDynamicEnergy : F
}.
Arguments mk {_} _ _ _ _ _ _ _ _ _ _ _ _ _ _ _ _ _ _ _.
Arguments height {_} _.
Arguments width {_} _.
Arguments newHeight {_} _.
Arguments newWidth {_} _.
Arguments area {_} _.
Arguments readLatency {_} _.
Arguments writeLatency {_} _.
Arguments readDynamicEnergy {_} _.
Arguments writeDynamicEnergy {_} _.
Arguments leakage {_} _.
Arguments setLatency {_} _.
Arguments resetLatency {_} _.
Arguments refreshLatency {_} _.
Arguments setDynamicEnergy {_} _.
Arguments resetDynamicEnergy {_} _.
Arguments cellReadEnergy {_} _.
Arguments cellSetEnergy {_} _.
Arguments cellResetEnergy {_} _.
Arguments refreshDynamicEnergy {_} _.
#[global] Instance eta {F : Type} : RecordEta (t F) := fun x =>
  mk (height x) (width x) (newHeight x) (newWidth x) (area x) (readLatency x) (writeLatency x)
    (readDynamicEnergy x) (writeDynamicEnergy x) (leakage x) (setLatency x) (resetLatency x)
    (refreshLatency x) (setDynamicEnergy x) (resetDynamicEnergy x) (cellReadEnergy x)
    (cellSetEnergy x) (cellResetEnergy x) (refreshDynamicEnergy x).

Section Operations.
Context {F : Type} `{Num F}.

(** FunctionUnit::FunctionUnit *)
Definition FunctionUnit : t F :=
  mk (of_Z 0) (of_Z 0) (of_Z 0) (of_Z 0) (of_Z 0) (of_Z 0) (of_Z 0)
     (of_Z 0) (of_Z 0) (of_Z 0) (of_Z 0) (of_Z 0) (of_Z 0) (of_Z 0)
     (of_Z 0) (of_Z 0) (of_Z 0) (of_Z 0) (of_Z 0).

(** A [double] used as a condition. *)
Definition nonzero (x : F) : bool := negb (x =? #0)%num.

(** FunctionUnit::MagicLayout *)
Definition MagicLayout (u : t F) : t F :=
  if nonzero (newHeight u) then
    u <| width := (area u / newHeight u)%num |> <| height := newHeight u |>
  else if nonzero (newWidth u) then
    u <| height := (area u / newWidth u)%num |> <| width := newWidth u |>
  else u.

(** FunctionUnit::OverrideLayout *)
Definition OverrideLayout (u : t F) : Outcome (t F) :=
  if nonzero (newHeight u) && nonzero (newWidth u) then
    let u := u <| height := newHeight u |> <| width := newWidth u |> in
    Ret (u <| area := (height u * width u)%num |>)
  else Exit "Need to provide both newHeight and newWidth for OverrideLayout()".
End Operations.
End FunctionUnit.

(** MemCell.h: the members the memory hierarchy reads *)
Module MemCell.
Record t (F : Type) : Type := mk {
  memCellType : MemCellType;
  readMode : bool;
  readVoltage : F;
  resetVoltage : F;
  setVoltage : F;
  minSenseVoltage : F;
  resistanceOn : F;
  resistanceOff : F;
  retentionTime : F;
  widthAccessCMOS : F;
  widthInFeatureSize : F
}.
Arguments mk {_} _ _ _ _ _ _ _ _ _ _ _.
Arguments memCellType {_} _.
Arguments readMode {_} _.
Arguments readVoltage {_} _.
Arguments resetVoltage {_} _.
Arguments setVoltage {_} _.
Arguments minSenseVoltage {_} _.
Arguments resistanceOn {_} _.
Arguments resistanceOff {_} _.
Arguments retentionTime {_} _.
Arguments widthAccessCMOS {_} _.
Arguments widthInFeatureSize {_} _.
#[global] Instance eta {F : Type} : RecordEta (t F) := fun x =>
  mk (memCellType x) (readMode x) (readVoltage x) (resetVoltage x) (setVoltage x)
    (minSenseVoltage x) (resistanceOn x) (resistanceOff x) (retentionTime x)
    (widthAccessCMOS x) (widthInFeatureSize x).
End MemCell.

(** Technology.h: the members the memory hierarchy reads *)
Module Technology.
Record t (F : Type) : Type := mk {
  featureSizeInNano : Z;
  vdd : F;
  layerCount : Z
}.
Arguments mk {_} _ _ _.
Arguments featureSizeInNano {_} _.
Arguments vdd {_} _.
Arguments layerCount {_} _.
#[global] Instance eta {F : Type} : RecordEta (t F) := fun x =>
  mk (featureSizeInNano x) (vdd x) (layerCount x).
End Technology.

(** Wire.h: the members the memory hierarchy reads *)
Module Wire.
Record t (F : Type) : Type := mk {
  wireType : WireType;
  wireRepeaterType : WireRepeaterType;
  isLowSwing : bool;
  repeaterSpacing : F;
  repeaterHeight : F;
  repeatedWirePitch : F;
  resWirePerUnit : F;
  capWirePerUnit : F
}.
Arguments mk {_} _ _ _ _ _ _ _ _.
Arguments wireType {_} _.
Arguments wireRepeaterType {_} _.
Arguments isLowSwing {_} _.
Arguments repeaterSpacing {_} _.
Arguments repeaterHeight {_} _.
Arguments repeatedWirePitch {_} _.
Arguments resWirePerUnit {_} _.
Arguments capWirePerUnit {_} _.
#[global] Instance eta {F : Type} : RecordEta (t F) := fun x =>
  mk (wireType x) (wireRepeaterType x) (isLowSwing x) (repeaterSpacing x) (repeaterHeight x)
    (repeatedWirePitch x) (resWirePerUnit x) (capWirePerUnit x).
End Wire.

(** PredecodeBlock.h: the members a subarray reads *)
Module PredecodeBlock.
Record t (F : Type) : Type := mk {
  fu : FunctionUnit.t F;
  numAddressBit : Z;
  rampOutput : F
}.
Arguments mk {_} _ _ _.
Arguments fu {_} _.
Arguments numAddressBit {_} _.
Arguments rampOutput {_} _.
#[global] Instance eta {F : Type} : RecordEta (t F) := fun x =>
  mk (fu x) (numAddressBit x) (rampOutput x).
End PredecodeBlock.

(** Comparator.h: the members a subarray or bank reads *)
Module Comparator.
Record t (F : Type) : Type := mk {
  fu : FunctionUnit.t F
}.
Arguments mk {_} _.
Arguments fu {_} _.
#[global] Instance eta {F : Type} : RecordEta (t F) := fun x =>
  mk (fu x).
End Comparator.

(** TSV.h: the members a subarray or bank reads *)
Module TSV.
Record t (F : Type) : Type := mk {
  fu : FunctionUnit.t F;
  numTotalBits : Z;
  numAccessBits : Z;
  numReadBits : Z;
  numDataBits : Z
}.
Arguments mk {_} _ _ _ _ _.
Arguments fu {_} _.
Arguments numTotalBits {_} _.
Arguments numAccessBits {_} _.
Arguments numReadBits {_} _.
Arguments numDataBits {_} _.
#[global] Instance eta {F : Type} : RecordEta (t F) := fun x =>
  mk (fu x) (numTotalBits x) (numAccessBits x) (numReadBits x) (numDataBits x).
End TSV.

(** Mux.h: the members a bank reads *)
Module Mux.
Record t (F : Type) : Type := mk {
  fu : FunctionUnit.t F;
  capNMOSPassTransistor : F;
  resNMOSPassTransistor : F;
  capForPreviousDelayCalculation : F
}.
Arguments mk {_} _ _ _ _.
Arguments fu {_} _.
Arguments capNMOSPassTransistor {_} _.
Arguments resNMOSPassTransistor {_} _.
Arguments capForPreviousDelayCalculation {_} _.
#[global] Instance eta {F : Type} : RecordEta (t F) := fun x =>
  mk (fu x) (capNMOSPassTransistor x) (resNMOSPassTransistor x) (capForPreviousDelayCalculation x).
End Mux.

(** SenseAmp.h: the members a bank reads *)
Module SenseAmp.
Record t (F : Type) : Type := mk {
  fu : FunctionUnit.t F;
  invalid : bool;
  capLoad : F;
  senseVoltage : F
}.
Arguments mk {_} _ _ _ _.
Arguments fu {_} _.
Arguments invalid {_} _.
Arguments capLoad {_} _.
Arguments senseVoltage {_} _.
#[global] Instance eta {F : Type} : RecordEta (t F) := fun x =>
  mk (fu x) (invalid x) (capLoad x) (senseVoltage x).
End SenseAmp.

(** Mat.h: the members a subarray, bank or result reads ([rowDecoder.readLatency] is
    [rowDecoderReadLatency], and so on) *)
Module Mat.
Record t (F : Type) : Type := mk {
  fu : FunctionUnit.t F;
  invalid : bool;
  numRow : Z;
  numColumn : Z;
  columnDecoderLatency : F;
  rowDecoderReadLatency : F;
  gcRowDecoderReadLatency : F;
  prechargerReadLatency : F;
  dramReadCycleLatency : F;
  resBitline : F;
  capBitline : F;
  voltagePrecharge : F;
  voltageMemCellOn : F;
  voltageMemCellOff : F;
  resMemCellOn : F;
  resMemCellOff : F;
  resEquivalentOn : F;
  resEquivalentOff : F;
  bitlineDelay : F;
  bitlineDelayOn : F;
  bitlineDelayOff : F;
  stackedMemTiers : Z
}.
Arguments mk {_} _ _ _ _ _ _ _ _ _ _ _ _ _ _ _ _ _ _ _ _ _ _.
Arguments fu {_} _.
Arguments invalid {_} _.
Arguments numRow {_} _.
Arguments numColumn {_} _.
Arguments columnDecoderLatency {_} _.
Arguments rowDecoderReadLatency {_} _.
Arguments gcRowDecoderReadLatency {_} _.
Arguments prechargerReadLatency {_} _.
Arguments dramReadCycleLatency {_} _.
Arguments resBitline {_} _.
Arguments capBitline {_} _.
Arguments voltagePrecharge {_} _.
Arguments voltageMemCellOn {_} _.
Arguments voltageMemCellOff {_} _.
Arguments resMemCellOn {_} _.
Arguments resMemCellOff {_} _.
Arguments resEquivalentOn {_} _.
Arguments resEquivalentOff {_} _.
Arguments bitlineDelay {_} _.
Arguments bitlineDelayOn {_} _.
Arguments bitlineDelayOff {_} _.
Arguments stackedMemTiers {_} _.
#[global] Instance eta {F : Type} : RecordEta (t F) := fun x =>
  mk (fu x) (invalid x) (numRow x) (numColumn x) (columnDecoderLatency x)
    (rowDecoderReadLatency x) (gcRowDecoderReadLatency x) (prechargerReadLatency x)
    (dramReadCycleLatency x) (resBitline x) (capBitline x) (voltagePrecharge x)
    (voltageMemCellOn x) (voltageMemCellOff x) (resMemCellOn x) (resMemCellOff x)
    (resEquivalentOn x) (resEquivalentOff x) (bitlineDelay x) (bitlineDelayOn x)
    (bitlineDelayOff x) (stackedMemTiers x).
End Mat.

(** global.h: the global objects every component reads. *)
Module Globals.
Record t (F : Type) : Type := mk {
  inputParameter : InputParameter.t F;
  tech : Technology.t F;
  cell : MemCell.t F;
  localWire : Wire.t F;
  globalWire : Wire.t F
}.
Arguments mk {_} _ _ _ _ _.
Arguments inputParameter {_} _.
Arguments tech {_} _.
Arguments cell {_} _.
Arguments localWire {_} _.
Arguments globalWire {_} _.
#[global] Instance eta {F : Type} : RecordEta (t F) := fun x =>
  mk (inputParameter x) (tech x) (cell x) (localWire x) (globalWire x).
End Globals.

(** ** The operations a bank or subarray calls on its components

    Every operation may end the program: the circuits of src/ call [exit] on an
    unknown process node, roadmap or repeater, or overrun their arrays of
    stages.  Only [SetLayerCount], a sequence of assignments, has no such path. *)

Class CircuitOps (F : Type) : Type := {
  Technology_SetLayerCount : InputParameter.t F -> Z -> Technology.t F -> Outcome (Technology.t F);
  Wire_Initialize : Z -> WireType -> WireRepeaterType -> Z -> bool -> Wire.t F -> Outcome (Wire.t F);
  (** delay, dynamic energy and leakage power of a wire of the given length *)
  Wire_CalculateLatencyAndPower : Wire.t F -> F -> Outcome (F * F * F);
  PredecodeBlock_Initialize : Globals.t F -> Z -> F -> F -> Outcome (PredecodeBlock.t F);
  PredecodeBlock_CalculateArea : Globals.t F -> PredecodeBlock.t F -> Outcome (PredecodeBlock.t F);
  PredecodeBlock_CalculateRC : Globals.t F -> PredecodeBlock.t F -> Outcome (PredecodeBlock.t F);
  PredecodeBlock_CalculateLatency : Globals.t F -> F -> PredecodeBlock.t F -> Outcome (PredecodeBlock.t F);
  PredecodeBlock_CalculatePower : Globals.t F -> PredecodeBlock.t F -> Outcome (PredecodeBlock.t F);
  Comparator_Initialize : Globals.t F -> Z -> F -> Outcome (Comparator.t F);
  Comparator_CalculateArea : Globals.t F -> Comparator.t F -> Outcome (Comparator.t F);
  Comparator_CalculateRC : Globals.t F -> Comparator.t F -> Outcome (Comparator.t F);
  Comparator_CalculateLatency : Globals.t F -> F -> Comparator.t F -> Outcome (Comparator.t F);
  Comparator_CalculatePower : Globals.t F -> Comparator.t F -> Outcome (Comparator.t F);
  TSV_Initialize : Globals.t F -> TSV_type -> TSV.t F -> Outcome (TSV.t F);
  TSV_CalculateArea : Globals.t F -> TSV.t F -> Outcome (TSV.t F);
  TSV_CalculateLatencyAndPower : Globals.t F -> F -> F -> TSV.t F -> Outcome (TSV.t F);
  Mux_Initialize : Globals.t F -> Z -> Z -> F -> F -> F -> Outcome (Mux.t F);
  Mux_CalculateArea : Globals.t F -> Mux.t F -> Outcome (Mux.t F);
  Mux_CalculateRC : Globals.t F -> Mux.t F -> Outcome (Mux.t F);
  Mux_CalculateLatency : Globals.t F -> F -> Mux.t F -> Outcome (Mux.t F);
  Mux_CalculatePower : Globals.t F -> Mux.t F -> Outcome (Mux.t F);
  SenseAmp_Initialize : Globals.t F -> Z -> bool -> F -> F -> Outcome (SenseAmp.t F);
  SenseAmp_CalculateArea : Globals.t F -> SenseAmp.t F -> Outcome (SenseAmp.t F);
  SenseAmp_CalculateRC : Globals.t F -> SenseAmp.t F -> Outcome (SenseAmp.t F);
  SenseAmp_CalculateLatency : Globals.t F -> F -> SenseAmp.t F -> Outcome (SenseAmp.t F);
  SenseAmp_CalculatePower : Globals.t F -> SenseAmp.t F -> Outcome (SenseAmp.t F);
  (** rows, columns, multiple rows per set, split, bitline mux, internal sensing,
      output muxes, buffer target, monolithic stack count, stacked dies *)
  Mat_Initialize : Globals.t F -> Z -> Z -> bool -> bool -> Z -> bool -> Z -> Z ->
                   BufferDesignTarget -> Z -> Z -> Outcome (Mat.t F);
  Mat_CalculateArea : Globals.t F -> Mat.t F -> Outcome (Mat.t F);
  Mat_CalculateLatency : Globals.t F -> F -> Mat.t F -> Outcome (Mat.t F);
  Mat_CalculatePower : Globals.t F -> Mat.t F -> Outcome (Mat.t F)
}.

(** The dimensions of a mat that an operation returns. *)
Definition dims_are {F} (r c : Z) (m : Mat.t F) : Prop := Mat.numRow m = r /\ Mat.numColumn m = c.

(** The dimensions of a mat are the ones it was initialised with (Mat.cpp 70-71),
    and no later phase that returns changes them; the technology remembers its
    layer count. *)
Class CircuitLaws (F : Type) `{CircuitOps F} : Prop := {
  Mat_Initialize_dims : forall g r c ms sp mx ia l1 l2 ao mo sd,
    yields (dims_are r c) (Mat_Initialize g r c ms sp mx ia l1 l2 ao mo sd);
  Mat_Area_dims : forall g m,
    yields (dims_are (Mat.numRow m) (Mat.numColumn m)) (Mat_CalculateArea g m);
  Mat_Latency_dims : forall g x m,
    yields (dims_are (Mat.numRow m) (Mat.numColumn m)) (Mat_CalculateLatency g x m);
  Mat_Power_dims : forall g m,
    yields (dims_are (Mat.numRow m) (Mat.numColumn m)) (Mat_CalculatePower g m);
  SetLayerCount_layers : forall ip n t,
    yields (fun t' => Technology.layerCount t' = n) (Technology_SetLayerCount ip n t)
}.
