(* ===== verification/Formula.v ===== *)
(** * Transistor formulas

    formula.cpp with the layout constants of constant.h: gate capacitance,
    layout area, leakage, resistance and transconductance of a transistor of a
    given width, the Horowitz delay, wire parasitics and the widening of a
    transistor to the height of its cell.  [exit(-1)] and integer division by
    zero end a computation; pointer arguments are further results. *)
From S2P Require Import Prelude Numeric Types InputParameter Process.
From stdpp Require Import base list strings.
From Stdlib Require Import ZArith Lia.
Open Scope Z_scope.

Module Formula.
Import Process.

(** constant.h: gate and transistor types are integers. *)
Definition INV : Z := 0.
Definition NOR : Z := 1.
Definition NAND : Z := 2.
Definition NMOS : Z := 0.
Definition PMOS : Z := 1.

Definition undefined : string := "undefined behaviour".

(** constant.h: the parameters of one advanced node, and whether its devices are
    counted in sheets (gate all around) instead of fins. *)
Record Node (F : Type) : Type := mkNode {
  cell_height : F;          (* MAX_TRANSISTOR_HEIGHT_<n>nm *)
  gap_p_n : F;              (* MIN_GAP_BET_P_AND_N_DIFFS_<n>nm *)
  outer_height : F;         (* OUTER_HEIGHT_REGION_<n>nm *)
  cpp : F;                  (* CPP_<n>nm *)
  poly_width : F;           (* POLY_WIDTH_<n>nm *)
  sheets : bool
}.
Arguments mkNode {_} _ _ _ _ _ _.
Arguments cell_height {_} _.
Arguments gap_p_n {_} _.
Arguments outer_height {_} _.
Arguments cpp {_} _.
Arguments poly_width {_} _.
Arguments sheets {_} _.

Section Formulas.
Context {F : Type} `{Num F}.

(** [k * 1e-9] *)
Definition nm (k : Z) : F := (#k * lit 1 (-9))%num.

Definition MAX_TRANSISTOR_HEIGHT : F := lit 280 (-1).
Definition MAX_TRANSISTOR_HEIGHT_FINFET : F := lit 340 (-1).
Definition MIN_NMOS_SIZE : F := lit 20 (-1).
Definition MIN_GAP_BET_POLY : F := lit 15 (-1).
Definition MIN_GAP_BET_P_AND_N_DIFFS : F := lit 35 (-1).
Definition MIN_POLY_EXT_DIFF : F := lit 10 (-1).
Definition MIN_GAP_BET_FIELD_POLY : F := lit 16 (-1).
Definition MIN_GAP_BET_CONTACT_POLY : F := lit 7 (-1).
Definition CONTACT_SIZE : F := lit 13 (-1).
Definition CPP : F := (lit 10 (-1) + lit 28 (-1))%num.              (* POLY_WIDTH + MIN_GAP_BET_GATE_POLY *)
Definition POLY_WIDTH_FINFET : F := lit 14 (-1).
Definition CPP_FINFET : F := (POLY_WIDTH_FINFET + lit 39 (-1))%num. (* + MIN_GAP_BET_GATE_POLY_FINFET *)

(** The [featureSize == <n> * 1e-9] cascades. *)
Definition node (fs : F) : option (Node F) :=
  (if fs =? nm 14 then Some (mkNode (lit 41142 (-3)) (lit 971 (-2)) (lit 10285 (-3)) (lit 5571 (-3)) (lit 1857 (-3)) false)
   else if fs =? nm 10 then Some (mkNode (lit 330 (-1)) (lit 100 (-1)) (lit 82 (-1)) (lit 64 (-1)) (lit 22 (-1)) false)
   else if fs =? nm 7 then Some (mkNode (lit 34285 (-3)) (lit 1185 (-2)) (lit 1228 (-2)) (lit 81428 (-4)) (lit 314 (-2)) false)
   else if fs =? nm 5 then Some (mkNode (lit 360 (-1)) (lit 128 (-1)) (lit 194 (-1)) (lit 102 (-1)) (lit 40 (-1)) false)
   else if fs =? nm 3 then Some (mkNode (lit 480 (-1)) (lit 150 (-1)) (lit 12666 (-3)) (lit 160 (-1)) (lit 60 (-1)) false)
   else if fs =? nm 2 then Some (mkNode (lit 570 (-1)) (lit 200 (-1)) (lit 220 (-1)) (lit 225 (-1)) (lit 70 (-1)) true)
   else if fs =? nm 1 then Some (mkNode (lit 800 (-1)) (lit 150 (-1)) (lit 400 (-1)) (lit 400 (-1)) (lit 120 (-1)) true)
   else None)%num.

(** CalculateGateCap *)
Definition CalculateGateCap (width : F) (tech : t F) : F :=
  let fs := featureSize tech in
  let widthEff :=
    if (fs >=? nm 22)%num then width
    else
      let n := of_Z (trunc (nceil (width * (#1 / (#2 * fs)))%num)) in
      if (fs >=? nm 3)%num then (n * effective_width tech)%num
      else (n * effective_width tech * max_sheet_num tech / max_fin_per_GAA tech)%num in
  ((capIdealGate tech + capOverlap tech + capFringe tech) * widthEff
   + phyGateLength tech * capPolywire tech)%num.

Definition CalculateFBRAMGateCap (width thicknessFactor : F) (tech : t F) : F :=
  ((capIdealGate tech / thicknessFactor + capOverlap tech + #3 * capFringe tech) * width
   + phyGateLength tech * capPolywire tech)%num.

Definition CalculateFBRAMDrainCap (width : F) (tech : t F) : F :=
  ((#3 * capSidewall tech + capDrainToChannel tech) * width)%num.

(** The region is not the standard cell's. *)
Definition special_layout (tech : t F) (heightTransistorRegion : F) : bool :=
  negb (heightTransistorRegion =? featureSize tech * MAX_TRANSISTOR_HEIGHT)%num.

(** The height of an advanced cell follows its node. *)
Definition scale_height (fs h : F) : F :=
  (let h := h * (MAX_TRANSISTOR_HEIGHT_FINFET / MAX_TRANSISTOR_HEIGHT) in
   match node fs with
   | Some n => h * (cell_height n / MAX_TRANSISTOR_HEIGHT_FINFET)
   | None => h * #1
   end)%num.

Definition CPP_advanced (fs : F) : F :=
  match node fs with Some n => cpp n | None => CPP_FINFET end.

Definition mos_ratio (widthNMOS widthPMOS : F) : F := (widthPMOS / (widthPMOS + widthNMOS))%num.

(** Bulk: the widest PMOS and NMOS that fit without folding. *)
Definition bulk_limits (fs h ratio : F) : F * F :=
  (let ends := (MIN_POLY_EXT_DIFF + MIN_GAP_BET_FIELD_POLY / #2) * #2 * fs in
   if ratio =? #0 then (#0, h - ends)
   else if ratio =? #1 then (h - ends, #0)
   else let p := ratio * (h - MIN_GAP_BET_P_AND_N_DIFFS * fs - ends) in (p, p / ratio * (#1 - ratio)))%num.

(** The number of folds of a bulk transistor and the width of its region. *)
Definition bulk_region (fs w limit : F) : Z * F :=
  (if w >? #0 then
     if w <=? limit then (1%Z, #2 * CPP * fs)
     else let folds := trunc (nceil (w / limit)) in (folds, #(folds + 1) * CPP * fs)
   else (1%Z, #0))%num.

(** How many devices fit under a custom height. *)
Definition fitting (tech : t F) (n : Node F) (h : F) : F :=
  (nfloor (((h - gap_p_n n * featureSize tech - outer_height n * featureSize tech) + PitchFin tech)
           / lit 20 (-1) / (widthFin tech + PitchFin tech)))%num.

(** The fins (an [int]) and sheets (a [double]) of one polarity that fit, in
    CalculateGateArea; the code keeps equal numbers for both polarities. *)
Definition area_devices (tech : t F) (special : bool) (h : F) : Z * F :=
  match node (featureSize tech) with
  | Some n =>
      if sheets n then (0, if special then fitting tech n h else max_fin_per_GAA tech)
      else (trunc (if special then fitting tech n h else max_fin_num tech), of_Z 0)
  | None =>
      if (featureSize tech >? nm 2)%num then (trunc (max_fin_num tech), of_Z 0)
      else (0, max_fin_per_GAA tech)
  end.

(** The fins of both polarities, shared out in the ratio of the widths. *)
Definition split_fins (ratio : F) (fin : Z) : Z * Z :=
  let temp := of_Z (2 * fin) in
  if (ratio =? #0)%num then (0, trunc temp)
  else if (ratio =? #1)%num then (trunc temp, 0)
  else
    let '(p, n) :=
      if (ratio >? lit 5 (-1))%num
      then let n := trunc (temp * (#1 - ratio))%num in (trunc (temp - #n)%num, n)
      else let p := trunc (temp * ratio)%num in (p, trunc (temp - #p)%num) in
    let '(p, n) := if p =? 0 then (p + 1, 2 * fin - (p + 1)) else (p, n) in
    if n =? 0 then (2 * fin - (n + 1), n + 1) else (p, n).

(** The sheets of both polarities; a mixed gate gets [max_fin_per_GAA] of each. *)
Definition split_sheets (tech : t F) (ratio sheet : F) : F * F :=
  (if ratio =? #0 then (#0, #2 * sheet)
   else if ratio =? #1 then (#2 * sheet, #0)
   else
     let p := trunc (max_fin_per_GAA tech) in
     let n := trunc (max_fin_per_GAA tech) in
     let '(p, n) := if Z.eqb p 0 then ((p + 1)%Z, trunc (#2 * sheet - #(p + 1))) else (p, n) in
     let '(p, n) := if Z.eqb n 0 then (trunc (#2 * sheet - #(n + 1)), (n + 1)%Z) else (p, n) in
     (#p, #n))%num.

(** FinFET folding: both counts are integers, and so is their quotient. *)
Definition fin_region (fs pitch : F) (num limit : Z) : Outcome (Z * F) :=
  if 0 <? num then
    if num <=? limit then Ret (1, #2 * pitch * fs)%num
    else if limit =? 0 then Exit undefined
    else let folds := trunc (nceil (of_Z (Z.quot num limit))) in Ret (folds, #(folds + 1) * pitch * fs)%num
  else Ret (1, of_Z 0).

(** Sheet folding: the limit is a [double]. *)
Definition sheet_region (fs pitch : F) (num : Z) (limit : F) : Z * F :=
  if 0 <? num then
    if (#num <=? limit)%num then (1, #2 * pitch * fs)%num
    else let folds := trunc (nceil (#num / limit)%num) in (folds, #(folds + 1) * pitch * fs)%num
  else (1, of_Z 0).

(** CalculateGateArea: widths in fins below 22 nm ([widthNMOS * 1/(2 * featureSize)]). *)
Definition in_fins (fs w : F) : F := (w * #1 / (#2 * fs))%num.

(** The folds and region widths of both polarities. *)
Definition gate_regions (tech : t F) (special : bool) (widthNMOS widthPMOS h : F)
  : Outcome ((Z * F) * (Z * F)) :=
  let fs := featureSize tech in
  let ratio := mos_ratio widthNMOS widthPMOS in
  if (fs >=? nm 22)%num then
    let '(maxWidthPMOS, maxWidthNMOS) := bulk_limits fs h ratio in
    Ret (bulk_region fs widthPMOS maxWidthPMOS, bulk_region fs widthNMOS maxWidthNMOS)
  else
    let '(fin, sheet) := area_devices tech special h in
    let NumP := trunc (nceil widthPMOS) in
    let NumN := trunc (nceil widthNMOS) in
    if ((fs <=? nm 14) && (fs >=? nm 3))%num then
      let '(maxNumPFin, maxNumNFin) := split_fins ratio fin in
      let? p := fin_region fs (CPP_advanced fs) NumP maxNumPFin in
      let? n := fin_region fs (CPP_advanced fs) NumN maxNumNFin in
      Ret (p, n)
    else
      let '(maxNumPSheet, maxNumNSheet) := split_sheets tech ratio sheet in
      Ret (sheet_region fs (CPP_advanced fs) NumP maxNumPSheet,
           sheet_region fs (CPP_advanced fs) NumN maxNumNSheet).

(** The width of a row of [numInput] devices; without folds they share diffusions. *)
Definition region_width (fs : F) (gateType numInput : Z) (unfolded : bool) (unit : F) : F :=
  if gateType =? INV then unit
  else if (gateType =? NOR) || (gateType =? NAND) then
    if unfolded then
      (unit * #numInput - #(numInput - 1) * fs * (if fs >=? nm 22 then CPP else CPP_advanced fs))%num
    else (unit * #numInput)%num
  else of_Z 0.

(** CalculateGateArea: area, height and width. *)
Definition CalculateGateArea (gateType numInput : Z) (widthNMOS widthPMOS heightTransistorRegion : F) (tech : t F)
  : Outcome (F * F * F) :=
  let fs := featureSize tech in
  let special := special_layout tech heightTransistorRegion in
  let advanced := (fs <=? nm 14)%num in
  let widthNMOS := if advanced then in_fins fs widthNMOS else widthNMOS in
  let widthPMOS := if advanced then in_fins fs widthPMOS else widthPMOS in
  let h := if advanced then scale_height fs heightTransistorRegion else heightTransistorRegion in
  let? ((foldedP, unitP), (foldedN, unitN)) := gate_regions tech special widthNMOS widthPMOS h in
  let unfolded := (foldedP =? 1) && (foldedN =? 1) in
  let widthRegionP := region_width fs gateType numInput unfolded unitP in
  let widthRegionN := region_width fs gateType numInput unfolded unitN in
  let width := MAX widthRegionN widthRegionP in
  Ret ((width * h)%num, h, width).

(** ** CalculateGateCapacitance *)

(** Bulk: the limits leave out the cell's ends. *)
Definition cap_limits (fs h ratio : F) : F * F :=
  (if ratio =? #0 then (#0, h)
   else if ratio =? #1 then (h, #0)
   else let p := ratio * (h - MIN_GAP_BET_P_AND_N_DIFFS * fs) in (p, p / ratio * (#1 - ratio)))%num.

(** A folded drain: number of folds, its extra width and its height. *)
Definition bulk_drain (fs w limit : F) (message : string) : Outcome (Z * F * F) :=
  if (w >? #0)%num then
    if (w <? limit)%num then Ret (1, of_Z 0, w)
    else if (limit <? #3 * fs)%num then Exit message
    else
      let folds := trunc (nceil (w / (limit - #3 * fs)))%num in
      Ret (folds, #(folds - 1) * fs * MIN_GAP_BET_POLY, limit)%num
  else Ret (1, of_Z 0, of_Z 0).

(** The width of the drains of [numInput] devices, in series or in parallel. *)
Definition drain_contact (fs : F) : F := (fs * (CONTACT_SIZE + MIN_GAP_BET_CONTACT_POLY * #2))%num.
Definition drain_series (fs unit : F) (numInput : Z) : F :=
  (drain_contact fs + unit * #numInput + #(numInput - 1) * fs * MIN_GAP_BET_POLY)%num.
Definition drain_parallel (fs unit : F) (numInput : Z) : F :=
  ((drain_contact fs + unit) * #numInput)%num.

Definition bulk_drain_widths (fs : F) (gateType numInput : Z) (widthNMOS widthPMOS unitN unitP : F) : F * F :=
  let present (w x : F) := if (w >? #0)%num then x else of_Z 0 in
  if gateType =? INV then
    (present widthNMOS (drain_contact fs + unitN)%num, present widthPMOS (drain_contact fs + unitP)%num)
  else if gateType =? NOR then
    (present widthNMOS (drain_parallel fs unitN numInput), present widthPMOS (drain_series fs unitP numInput))
  else if gateType =? NAND then
    (present widthNMOS (drain_series fs unitN numInput), present widthPMOS (drain_parallel fs unitP numInput))
  else (of_Z 0, of_Z 0).

Definition bulk_sidewall (tech : t F) (folds : Z) (width height : F) : F :=
  if Z.rem folds 2 =? 0 then (#2 * width * capSidewall tech)%num
  else ((#2 * width + height) * capSidewall tech)%num.

Definition bulk_capOutput (gateType numInput : Z) (widthNMOS widthPMOS h : F) (tech : t F) : Outcome F :=
  let fs := featureSize tech in
  let '(maxP, maxN) := cap_limits fs h (mos_ratio widthNMOS widthPMOS) in
  let? (foldedP, unitP, heightP) := bulk_drain fs widthPMOS maxP
    "Error: Unable to do PMOS folding because PMOS size limitation is less than 3F!" in
  let? (foldedN, unitN, heightN) := bulk_drain fs widthNMOS maxN
    "Error: Unable to do NMOS folding because NMOS size limitation is less than 3F!" in
  let '(widthN, widthP) := bulk_drain_widths fs gateType numInput widthNMOS widthPMOS unitN unitP in
  let bottomN := (widthN * heightN * capJunction tech)%num in
  let bottomP := (widthP * heightP * capJunction tech)%num in
  let sideN := bulk_sidewall tech foldedN widthN heightN in
  let sideP := bulk_sidewall tech foldedP widthP heightP in
  let channelN := (#foldedN * heightN * capDrainToChannel tech)%num in
  let channelP := (#foldedP * heightP * capDrainToChannel tech)%num in
  Ret (bottomN + bottomP + sideN + sideP + channelN + channelP)%num.

(** Below 22 nm: the fins and sheets that fit are integers here. *)
Definition cap_devices (tech : t F) (special : bool) (h : F) : Z * Z :=
  let count (k : Z) := if (featureSize tech >? nm 2)%num then (k, 0) else (0, k) in
  let base := if (featureSize tech >? nm 2)%num then count (trunc (max_fin_num tech))
              else count (trunc (max_fin_per_GAA tech)) in
  match node (featureSize tech) with
  | Some n =>
      if special then count (Z.max (trunc (fitting tech n h)) 1)
      else base
  | None => base
  end.

Definition split_sheets_int (tech : t F) (ratio : F) (sheet : Z) : Z * Z :=
  if (ratio =? #0)%num then (0, 2 * sheet)
  else if (ratio =? #1)%num then (2 * sheet, 0)
  else
    let p := trunc (max_fin_per_GAA tech) in
    let n := trunc (max_fin_per_GAA tech) in
    let '(p, n) := if p =? 0 then (p + 1, 2 * sheet - (p + 1)) else (p, n) in
    if n =? 0 then (2 * sheet - (n + 1), n + 1) else (p, n).

(** Folds, drain width, source width and drain height of one polarity. *)
Definition fin_drain (tech : t F) (gap : F) (num limit : Z) : Outcome (Z * F * F * F) :=
  let fs := featureSize tech in
  if 0 <? num then
    if num <=? limit then Ret (1, fs * gap, fs * gap, #num * widthFin tech)%num
    else if limit =? 0 then Exit undefined
    else
      let folds := trunc (nceil (of_Z (Z.quot num limit))) in
      let half := (#(folds + 1) / #2)%num in
      Ret (folds, of_Z (trunc (nceil half)) * fs * gap, of_Z (trunc (nfloor half)) * fs * gap,
           #limit * widthFin tech)%num
  else Ret (1, of_Z 0, of_Z 0, of_Z 0).

(** Drain width and sidewall of the devices of one polarity, unfolded or folded,
    in series or in parallel. *)
Definition unfolded_series (unit height : F) (numInput : Z) : F * F :=
  (let w := unit * #numInput in (w, w * #2 + height))%num.
Definition unfolded_parallel (unit height : F) (numInput : Z) : F * F :=
  let w := (unit * of_Z (trunc (nfloor (#(numInput + 1) / #2))))%num in
  (w, (w * #2 + height * #(1 - Z.rem (numInput + 1) 2))%num).
Definition folded_series (unit source height : F) (folds numInput : Z) : F * F :=
  let w := (unit * #numInput + #(numInput - 1) * source)%num in
  (w, (w * #2 + height * #(1 + Z.rem (folds + 1) 2) * #numInput
       + height * #(1 - Z.rem (folds + 1) 2) * #(numInput - 1))%num).
Definition folded_parallel (unit height : F) (folds numInput : Z) : F * F :=
  let w := (unit * #numInput)%num in
  (w, (w * #2 + height * #(1 + Z.rem (folds + 1) 2) * #numInput)%num).

(** [(widthDrainN, sidewallN), (widthDrainP, sidewallP)]; the sidewall of an
    inverter's NMOS is computed from the folds of its PMOS. *)
Definition fin_drain_widths (gateType numInput : Z) (widthNMOS widthPMOS : F)
  (foldedN foldedP : Z) (unitN sourceN heightN unitP sourceP heightP : F) : (F * F) * (F * F) :=
  let present (w : F) (x : F * F) := if (w >? #0)%num then x else (of_Z 0, of_Z 0) in
  let unfolded := (foldedP =? 1) && (foldedN =? 1) in
  let inverter (unit height : F) := (unit, (unit * #2 + height * #(1 + Z.rem (foldedP + 1) 2))%num) in
  let series (w unit source height : F) (folds : Z) :=
    present w (if unfolded then unfolded_series unit height numInput
               else folded_series unit source height folds numInput) in
  let parallel (w unit height : F) (folds : Z) :=
    present w (if unfolded then unfolded_parallel unit height numInput
               else folded_parallel unit height folds numInput) in
  if gateType =? INV then
    (present widthNMOS (inverter unitN heightN), present widthPMOS (inverter unitP heightP))
  else if gateType =? NOR then
    (parallel widthNMOS unitN heightN foldedN, series widthPMOS unitP sourceP heightP foldedP)
  else if gateType =? NAND then
    (series widthNMOS unitN sourceN heightN foldedN, parallel widthPMOS unitP heightP foldedP)
  else ((of_Z 0, of_Z 0), (of_Z 0, of_Z 0)).

Definition fin_capOutput (gateType numInput : Z) (widthNMOS widthPMOS heightTransistorRegion : F) (tech : t F)
  : Outcome F :=
  let fs := featureSize tech in
  let special := special_layout tech heightTransistorRegion in
  let advanced := (fs <=? nm 14)%num in
  let scale (w : F) := if advanced then (w * (#1 / (#2 * fs)))%num else w in
  let widthNMOS := scale widthNMOS in
  let widthPMOS := scale widthPMOS in
  let h := if advanced then scale_height fs heightTransistorRegion else heightTransistorRegion in
  let ratio := mos_ratio widthNMOS widthPMOS in
  let '(fin, sheet) := cap_devices tech special h in
  let '(maxP, maxN) := if (fs >=? nm 3)%num then split_fins ratio fin else split_sheets_int tech ratio sheet in
  let gap := (CPP_advanced fs - match node fs with Some n => poly_width n | None => POLY_WIDTH_FINFET end)%num in
  let? (foldedP, unitP, sourceP, heightP) := fin_drain tech gap (trunc (nceil widthPMOS)) maxP in
  let? (foldedN, unitN, sourceN, heightN) := fin_drain tech gap (trunc (nceil widthNMOS)) maxN in
  let '((widthN, sidewallN), (widthP, sidewallP)) :=
    fin_drain_widths gateType numInput widthNMOS widthPMOS foldedN foldedP unitN sourceN heightN unitP sourceP heightP in
  let bottomN := (widthN * heightN * capJunction tech)%num in
  let bottomP := (widthP * heightP * capJunction tech)%num in
  let sideP := (sidewallP * capSidewall tech)%num in
  let sideN := (sidewallN * capSidewall tech)%num in
  let channelN := (#foldedN * heightN * capDrainToChannel tech)%num in
  let channelP := (#foldedP * heightP * capDrainToChannel tech)%num in
  Ret (if advanced then bottomN + bottomP
       else bottomN + bottomP + sideN + sideP + channelN + channelP)%num.

(** CalculateGateCapacitance: input and output capacitance. *)
Definition CalculateGateCapacitance (gateType numInput : Z) (widthNMOS widthPMOS heightTransistorRegion : F)
  (tech : t F) : Outcome (F * F) :=
  let capInput := (CalculateGateCap widthNMOS tech + CalculateGateCap widthPMOS tech)%num in
  let? capOutput := if (featureSize tech >=? nm 22)%num
                    then bulk_capOutput gateType numInput widthNMOS widthPMOS heightTransistorRegion tech
                    else fin_capOutput gateType numInput widthNMOS widthPMOS heightTransistorRegion tech in
  Ret (capInput, capOutput).

(** CalculateDrainCap *)
Definition CalculateDrainCap (width : F) (type : Z) (heightTransistorRegion : F) (tech : t F) : Outcome F :=
  let? (_, drainCap) :=
    if type =? NMOS then CalculateGateCapacitance INV 1 width (of_Z 0) heightTransistorRegion tech
    else CalculateGateCapacitance INV 1 (of_Z 0) width heightTransistorRegion tech in
  Ret drainCap.

(** ** Currents *)

(** [tempIndex]: the tables hold the currents from 300 K to 400 K. *)
Definition temperature_index (temperature : F) : Outcome Z :=
  let tempIndex := trunc temperature - 300 in
  if (100 <? tempIndex) || (tempIndex <? 0) then Exit "Error: Temperature is out of range" else Ret tempIndex.

Definition entry (l : list F) (i : Z) : Outcome F :=
  if i <? 0 then Exit undefined
  else match l !! Z.to_nat i with Some x => Ret x | None => Exit undefined end.

(** The effective width of a row of fins or of sheets. *)
Definition width_eff (tech : t F) (n : F) : F :=
  if (featureSize tech >=? nm 3)%num then (n * effective_width tech)%num
  else (n * effective_width tech * max_sheet_num tech / max_fin_per_GAA tech)%num.

(** CalculateGateLeakage *)
Definition CalculateGateLeakage (gateType numInput : Z) (widthNMOS widthPMOS temperature : F) (tech : t F)
  : Outcome F :=
  let fs := featureSize tech in
  let? tempIndex := temperature_index temperature in
  let eff (w : F) :=
    if (fs >=? nm 22)%num then w
    else width_eff tech (of_Z (trunc (nceil (w * (#1 / (#2 * fs)))%num))) in
  let? leakN := entry (currentOffNmos tech) tempIndex in
  let? leakP := entry (currentOffPmos tech) tempIndex in
  let ratio (two more : F) := if numInput =? 2 then two else more in
  Ret (if gateType =? INV then ((eff widthNMOS * leakN + eff widthPMOS * leakP) / #2)%num
       else if gateType =? NOR then (ratio (lit 95 (-2)) (lit 62 (-2)) * (eff widthNMOS * leakN * #numInput))%num
       else if gateType =? NAND then (ratio (lit 48 (-2)) (lit 31 (-2)) * (eff widthPMOS * leakP * #numInput))%num
       else lit 0 (-1)).

(** The effective width in the resistances: [ceil] is not converted to an integer. *)
Definition resistance_width (tech : t F) (width : F) : F :=
  let fs := featureSize tech in
  if (fs >=? nm 22)%num then width
  else width_eff tech (nceil (width / (#2 * fs)))%num.

Definition CalculateOnResistance (width : F) (type : Z) (temperature : F) (tech : t F) : Outcome F :=
  let? tempIndex := temperature_index temperature in
  let widthEff := resistance_width tech width in
  let? current := entry (if type =? NMOS then currentOnNmos tech else currentOnPmos tech) tempIndex in
  Ret (effectiveResistanceMultiplier tech * vdd tech / (current * widthEff))%num.

Definition CalculateOffResistance (width : F) (type : Z) (temperature : F) (tech : t F) : Outcome F :=
  let? tempIndex := temperature_index temperature in
  let widthEff := resistance_width tech width in
  let? current := entry (if type =? NMOS then currentOffNmos tech else currentOffPmos tech) tempIndex in
  Ret (effectiveResistanceMultiplier tech * vdd tech / (current * widthEff))%num.

(** Without the multiplier; bulk nodes take the branch of the sheets. *)
Definition CalculateOnResistance_normal (width : F) (type : Z) (temperature : F) (tech : t F) : Outcome F :=
  let fs := featureSize tech in
  let? tempIndex := temperature_index temperature in
  let n := nceil (width / (#2 * fs))%num in
  let widthEff :=
    (if (fs <? nm 22) && (fs >=? nm 3) then n * effective_width tech
     else n * effective_width tech * max_sheet_num tech / max_fin_per_GAA tech)%num in
  let? current := entry (if type =? NMOS then currentOnNmos tech else currentOnPmos tech) tempIndex in
  Ret (vdd tech / (current * widthEff))%num.

(** CalculateTransconductance *)
Definition CalculateTransconductance (width : F) (type : Z) (tech : t F) : F :=
  (let fs := featureSize tech in
   if fs >=? nm 22 then
     if Z.eqb type NMOS then
       let vsat := MIN (vdsatNmos tech) (vdd tech - vth tech) in
       (effectiveElectronMobility tech * capOx tech) / #2 * width / phyGateLength tech * vsat
     else
       let vsat := MIN (vdsatPmos tech) (vdd tech - vth tech) in
       (effectiveHoleMobility tech * capOx tech) / #2 * width / phyGateLength tech * vsat
   else
     let n := of_Z (trunc (nceil (width / (#2 * fs)))) in
     let widthEff :=
       if (fs <=? nm 14) && (fs >=? nm 3) then n * (#2 * heightFin tech + widthFin tech)
       else n * effective_width tech * max_sheet_num tech / max_fin_per_GAA tech in
     gm_oncurrent tech * widthEff)%num.

(** horowitz: the delay and the ramp of the output. *)
Definition horowitz (tr beta rampInput : F) : F * F :=
  (let alpha := #1 / rampInput / tr in
   let vs := lit 5 (-1) in
   let result := tr * nsqrt (nlog vs * nlog vs + #2 * alpha * beta * (#1 - vs)) in
   (result, (#1 - vs) / result))%num.

(** ** Wires *)

Definition CalculateWireCapacitance (permittivity wireWidth wireThickness wireSpacing ildThickness millerValue
    horizontalDielectric verticalDielectric fringeCap : F) (neurosim_wiring : bool) : F :=
  (if negb neurosim_wiring then
     let verticalCap := #2 * permittivity * verticalDielectric * wireWidth / ildThickness in
     let sidewallCap := #2 * permittivity * millerValue * horizontalDielectric * wireThickness / wireSpacing in
     verticalCap + sidewallCap + fringeCap
   else lit 2 (-16) / lit 1 (-6))%num.

(** The two metals and the barrier of a node, in nanometres and metres. *)
Definition metals (nano : Z) (wireWidth barrierThickness : F) : Outcome (F * F * F * F) :=
  let row (m0 m1 w b : F) := Ret (m0, m1, w, b) in
  let own := (wireWidth * lit 1 9)%num in
  if nano =? 130 then row (of_Z 175) (of_Z 175) (of_Z 175) (lit 100 (-10))
  else if nano =? 90 then row (of_Z 110) (of_Z 110) (of_Z 110) (lit 100 (-10))
  else if nano =? 65 then row (of_Z 105) (of_Z 105) (of_Z 105) (lit 70 (-10))
  else if nano =? 45 then row (of_Z 80) (of_Z 80) (of_Z 80) (lit 50 (-10))
  else if nano =? 32 then row (of_Z 56) (of_Z 56) (of_Z 56) (lit 40 (-10))
  else if nano =? 22 then row (of_Z 40) (of_Z 40) (of_Z 40) (lit 25 (-10))
  else if nano =? 14 then row (of_Z 32) (of_Z 39) (of_Z 32) (lit 25 (-10))
  else if nano =? 10 then row (of_Z 22) (of_Z 32) (of_Z 22) (lit 20 (-10))
  else if nano =? 7 then row (of_Z 20) (lit 285 (-1)) (of_Z 20) (lit 20 (-10))
  else if nano =? 5 then row (of_Z 15) (of_Z 17) (of_Z 15) (lit 20 (-10))
  else if nano =? 3 then row (of_Z 12) (of_Z 16) (of_Z 12) (lit 15 (-10))
  else if nano =? 2 then row (of_Z 10) (lit 115 (-1)) (of_Z 10) (lit 5 (-10))
  else if nano =? 1 then row (of_Z 8) (of_Z 10) (of_Z 8) (lit 2 (-10))
  else if nano =? -1 then row own own own barrierThickness
  else Exit "".

(** Aspect ratio and resistivity of a wire of the given width in nanometres. *)
Definition copper (w : F) : Outcome (F * F) :=
  let row (ar rho : F) := Ret (ar, rho * lit 1 (-8))%num in
  let at_least (k : Z) := (#k <=? w)%num in
  if at_least 175 then row (lit 16 (-1)) (lit 201 (-2))
  else if at_least 110 then row (lit 16 (-1)) (lit 220 (-2))
  else if at_least 105 then row (lit 17 (-1)) (lit 221 (-2))
  else if at_least 80 then row (lit 17 (-1)) (lit 237 (-2))
  else if at_least 56 then row (lit 18 (-1)) (lit 263 (-2))
  else if at_least 40 then row (lit 19 (-1)) (lit 297 (-2))
  else if at_least 32 then row (lit 20 (-1)) (lit 325 (-2))
  else if at_least 22 then row (lit 200 (-2)) (lit 395 (-2))
  else if at_least 20 then row (lit 200 (-2)) (lit 417 (-2))
  else if at_least 15 then row (lit 200 (-2)) (lit 498 (-2))
  else if at_least 12 then row (lit 200 (-2)) (lit 58 (-1))
  else if at_least 10 then row (lit 200 (-2)) (lit 661 (-2))
  else if at_least 8 then row (lit 300 (-2)) (lit 787 (-2))
  else Exit "".

(** The resistivity corrected for the barrier around the copper. *)
Definition with_barrier (ar rho w barrier : F) : F :=
  (rho * #1 / (#1 - ((#2 * ar * w + w) * barrier / (ar * npow w #2))))%num.

Definition unit_resistance (ar rho w : F) : F := (rho / (w * lit 1 (-9) * w * lit 1 (-9) * ar))%num.

(** The common part of CalculateWireResistance_M0 and _MX: the resistance of a
    unit of metal 0 and of metal 1.  All three widths are looked up. *)
Definition metal_resistances (wireWidth barrierThickness : F) (tech : t F) : Outcome (F * F) :=
  let? (Metal0, Metal1, wirewidth, barrierthickness) :=
    metals (featureSizeInNano tech) wireWidth barrierThickness in
  let? _ := copper wirewidth in
  let? (AR_Metal0, Rho_Metal0) := copper Metal0 in
  let Rho_Metal0 := with_barrier AR_Metal0 Rho_Metal0 Metal0 barrierthickness in
  let? (AR_Metal1, Rho_Metal1) := copper Metal1 in
  let Rho_Metal1 := with_barrier AR_Metal1 Rho_Metal1 Metal1 barrierthickness in
  Ret (unit_resistance AR_Metal0 Rho_Metal0 Metal0, unit_resistance AR_Metal1 Rho_Metal1 Metal1).

Definition plain_resistance (resistivity wireWidth wireThickness barrierThickness dishingThickness alphaScatter : F) : F :=
  (alphaScatter * resistivity / (wireThickness - barrierThickness - dishingThickness)
   / (wireWidth - #2 * barrierThickness))%num.

Definition CalculateWireResistance_M0 (resistivity wireWidth wireThickness barrierThickness dishingThickness
    alphaScatter : F) (neurosim_wiring : bool) (tech : t F) : Outcome F :=
  if negb neurosim_wiring then
    Ret (plain_resistance resistivity wireWidth wireThickness barrierThickness dishingThickness alphaScatter)
  else let? (m0, _) := metal_resistances wireWidth barrierThickness tech in Ret m0.

Definition CalculateWireResistance_MX (resistivity wireWidth wireThickness barrierThickness dishingThickness
    alphaScatter : F) (neurosim_wiring : bool) (tech : t F) : Outcome F :=
  if negb neurosim_wiring then
    Ret (plain_resistance resistivity wireWidth wireThickness barrierThickness dishingThickness alphaScatter)
  else let? (_, m1) := metal_resistances wireWidth barrierThickness tech in Ret m1.

(** ** EnlargeSize *)

Definition enlarge_bulk (fs widthNMOS widthPMOS h : F) : F * F :=
  (let ratio := mos_ratio widthNMOS widthPMOS in
   let '(maxP, maxN) := bulk_limits fs h ratio in
   if (ratio =? #0) && (widthNMOS <? maxN) then (maxN, widthPMOS)
   else if (ratio =? #1) && (widthPMOS <? maxP) then (widthNMOS, maxP)
   else if (widthPMOS >? #0) && (widthPMOS <? maxP) && (widthNMOS >? #0) && (widthNMOS <? maxN) then (maxN, maxP)
   else (widthNMOS, widthPMOS))%num.

(** The fins of a mixed gate: enlarged only when both counts stay integers. *)
Definition enlarge_counts (ratio : F) (maxFin NumN NumP : Z) : Z * Z :=
  if (ratio >=? lit 5 (-1))%num then
    let n := (#maxFin / ratio * (#1 - ratio))%num in
    if (n - of_Z (trunc n) =? #0)%num then (trunc n, maxFin) else (NumN, NumP)
  else
    let p := (#maxFin / (#1 - ratio) * ratio)%num in
    if (p - of_Z (trunc p) =? #0)%num then (maxFin, trunc p) else (NumN, NumP).

(** [maxNumPFin] and [maxNumNFin] are only set at the five FinFET nodes; a
    comparison with them at any other node reads an unset variable. *)
Definition enlarge_fins (tech : t F) (widthNMOS widthPMOS : F) : Outcome (F * F) :=
  let fs := featureSize tech in
  let ratio := mos_ratio widthNMOS widthPMOS in
  let width (n : Z) := (#n * #2 * fs)%num in
  let NumP := trunc (nceil (widthPMOS / (lit 20 (-1) * fs)))%num in
  let NumN := trunc (nceil (widthNMOS / (lit 20 (-1) * fs)))%num in
  let set := match node fs with Some _ => true | None => false end in
  let maxFin := trunc (max_fin_num tech) in
  if negb set && ((ratio =? #0)%num || (ratio =? #1)%num || (0 <? NumP)) then Exit undefined
  else
    Ret (if (ratio =? #0)%num && (NumN <=? maxFin) then (width maxFin, widthPMOS)
         else if (ratio =? #1)%num && (NumP <=? maxFin) then (widthNMOS, width maxFin)
         else if (0 <? NumP) && (NumP <=? maxFin) && (0 <? NumN) && (NumN <=? maxFin) then
           let '(NumN, NumP) := enlarge_counts ratio maxFin NumN NumP in (width NumN, width NumP)
         else (widthNMOS, widthPMOS)).

Definition enlarge_sheets (fs widthNMOS widthPMOS : F) : F * F :=
  let ratio := mos_ratio widthNMOS widthPMOS in
  let width (n : Z) := (#n * #2 * fs)%num in
  let NumP := trunc (nceil (widthPMOS / (#2 * fs)))%num in
  let NumN := trunc (nceil (widthNMOS / (#2 * fs)))%num in
  if (ratio =? #0)%num && (NumN <=? 2) then (width 2, widthPMOS)
  else if (ratio =? #1)%num && (NumP <=? 2) then (widthNMOS, width 2)
  else if (0 <? NumP) && (NumP <=? 1) && (0 <? NumN) && (NumN <=? 1) then (width 1, width 1)
  else (widthNMOS, widthPMOS).

(** EnlargeSize: the new NMOS and PMOS widths. *)
Definition EnlargeSize (widthNMOS widthPMOS heightTransistorRegion : F) (tech : t F) : Outcome (F * F) :=
  let fs := featureSize tech in
  if (fs >=? nm 22)%num then Ret (enlarge_bulk fs widthNMOS widthPMOS heightTransistorRegion)
  else if ((fs <=? nm 14) && (fs >=? nm 3))%num then enlarge_fins tech widthNMOS widthPMOS
  else Ret (enlarge_sheets fs widthNMOS widthPMOS).


End Formulas.
End Formula.
