(* ===== verification/FormulaFacts.v ===== *)
(** * Facts about the transistor formulas

    Exact arithmetic: layout of bulk gates, widening of transistors, folding of
    fins, and the delay formula. *)
From S2P Require Import Prelude Numeric RealNum Types InputParameter Process Formula.
From stdpp Require Import base list strings.
From Stdlib Require Import ZArith Lia Reals Lra Zfloor.
Open Scope R_scope.

Module FormulaFacts.
Import Formula Process.

(** ** Comparisons and literals of the reals *)

Lemma Rlit_neg m p : lit m (Zneg p) = IZR m / IZR (10 ^ Zpos p) :> R.
Proof. change (lit m (Zneg p)) with (IZR m / 10 ^ Pos.to_nat p). by rewrite pow_IZR, positive_nat_Z. Qed.

Lemma Reqb_true (x y : R) : Reqb x y = true <-> x = y.
Proof. unfold Reqb. destruct (Req_dec_T x y); split; congruence || done. Qed.

Lemma Reqb_false (x y : R) : Reqb x y = false <-> x <> y.
Proof. unfold Reqb. destruct (Req_dec_T x y); split; congruence || done. Qed.

Lemma Rleb_false (x y : R) : Rleb x y = false <-> y < x.
Proof. unfold Rleb. destruct (Rle_dec x y); split; congruence || lra. Qed.

(** The operations of [R_num], by name. *)
Ltac num_R :=
  change (@nltb R R_num) with Rltb in *; change (@nleb R R_num) with Rleb in *;
  change (@neqb R R_num) with Reqb in *; change (@nadd R R_num) with Rplus in *;
  change (@nsub R R_num) with Rminus in *; change (@nmul R R_num) with Rmult in *;
  change (@ndiv R R_num) with Rdiv in *; change (@of_Z R R_num) with IZR in *;
  change (@trunc R R_num) with Rtrunc in *.

(** Decide the comparisons that arithmetic settles. *)
Ltac r_true e := let H := fresh in assert (H : e = true) by (first [apply Rltb_true | apply Rleb_true | apply Reqb_true]; lra); rewrite H; clear H.
Ltac r_false e := let H := fresh in assert (H : e = false) by (first [apply Rltb_false | apply Rleb_false | apply Reqb_false]; lra); rewrite H; clear H.
Ltac r_decide := repeat match goal with
  | |- context [Rltb ?a ?b] => first [r_true (Rltb a b) | r_false (Rltb a b)]
  | |- context [Rleb ?a ?b] => first [r_true (Rleb a b) | r_false (Rleb a b)]
  | |- context [Reqb ?a ?b] => first [r_true (Reqb a b) | r_false (Reqb a b)]
  end.

Ltac r_facts := repeat match goal with
  | H : Rltb _ _ = true |- _ => apply Rltb_true in H
  | H : Rltb _ _ = false |- _ => apply Rltb_false in H
  | H : Rleb _ _ = true |- _ => apply Rleb_true in H
  | H : Rleb _ _ = false |- _ => apply Rleb_false in H
  | H : Reqb _ _ = true |- _ => apply Reqb_true in H
  | H : Reqb _ _ = false |- _ => apply Reqb_false in H
  | H : _ && _ = true |- _ => apply andb_true_iff in H as [? H]
  end.

Lemma nm_value k : nm k = IZR k / 1000000000.
Proof. unfold nm. rewrite Rlit_neg. num_R. change (10 ^ 9)%Z with 1000000000%Z. lra. Qed.

Lemma nm_pos k : (0 < k)%Z -> 0 < nm k.
Proof. intros. rewrite nm_value. apply IZR_lt in H. lra. Qed.

Lemma CPP_value : CPP = 38 / 10 :> R.
Proof. unfold CPP. rewrite !Rlit_neg. num_R. change (10 ^ 1)%Z with 10%Z. lra. Qed.

Lemma ends_value fs : (MIN_POLY_EXT_DIFF + MIN_GAP_BET_FIELD_POLY / of_Z 2)%num * IZR 2 * fs = 36 / 10 * fs.
Proof. unfold MIN_POLY_EXT_DIFF, MIN_GAP_BET_FIELD_POLY. rewrite !Rlit_neg. num_R. change (10 ^ 1)%Z with 10%Z. lra. Qed.

Lemma gap_value : MIN_GAP_BET_P_AND_N_DIFFS = 35 / 10 :> R.
Proof. unfold MIN_GAP_BET_P_AND_N_DIFFS. rewrite Rlit_neg. change (10 ^ 1)%Z with 10%Z. lra. Qed.

Lemma height_value : MAX_TRANSISTOR_HEIGHT = 28 :> R.
Proof. unfold MAX_TRANSISTOR_HEIGHT. rewrite Rlit_neg. change (10 ^ 1)%Z with 10%Z. lra. Qed.

(** ** Bulk gates *)

Section Bulk.
Context (tech : t R).
Let fs := featureSize tech.
Hypothesis Hbulk : nm 22 <= fs.

Lemma fs_pos : 0 < fs.
Proof. pose proof (nm_pos 22 ltac:(lia)). lra. Qed.

Lemma ratio_range wN wP : 0 < wN -> 0 < wP -> 0 < mos_ratio wN wP < 1 /\
  wP = mos_ratio wN wP * (wP + wN) /\ wN = (1 - mos_ratio wN wP) * (wP + wN).
Proof.
  intros HN HP. unfold mos_ratio. num_R.
  assert (0 < wP + wN) by lra. assert (E : wP / (wP + wN) * (wP + wN) = wP) by (field; lra).
  split; [split|split]; [|apply (Rmult_lt_reg_r (wP + wN)); lra|lra|lra].
  apply Rdiv_lt_0_compat; lra.
Qed.

(** The limits of a gate with both polarities share [h - 7.1 F] in the ratio of the widths. *)
Lemma limits_mixed h ratio : 0 < ratio < 1 ->
  bulk_limits fs h ratio = (ratio * (h - 71 / 10 * fs), (1 - ratio) * (h - 71 / 10 * fs)).
Proof.
  intros Hr. unfold bulk_limits. num_R. rewrite ends_value, gap_value.
  r_decide. f_equal; [lra|]. field. lra.
Qed.

(** The ratio of the limits is the ratio of the widths, so limits are a fixed point. *)
Lemma limits_ratio h wN wP : 0 < wN -> 0 < wP -> 71 / 10 * fs < h ->
  let '(p, n) := bulk_limits fs h (mos_ratio wN wP) in
  0 < p /\ 0 < n /\ mos_ratio n p = mos_ratio wN wP.
Proof.
  intros HN HP Hh. destruct (ratio_range wN wP HN HP) as (Hr & _).
  rewrite (limits_mixed h _ Hr). set (r := mos_ratio wN wP) in *. set (d := h - 71 / 10 * fs).
  assert (0 < d) by (unfold d; lra).
  split; [apply Rmult_lt_0_compat; lra|]. split; [apply Rmult_lt_0_compat; lra|].
  unfold mos_ratio. num_R. field. lra.
Qed.

Lemma Rtrunc_ceil_spec x : 0 < x -> let k := Rtrunc (nceil x) in
  (1 <= k)%Z /\ x <= IZR k /\ forall j, x <= IZR j -> (k <= j)%Z.
Proof.
  intros Hx. cbn [nceil R_num]. set (c := (- Zfloor (- x))%Z).
  assert (Hc : IZR c - 1 < x <= IZR c).
  { unfold c. rewrite opp_IZR. pose proof (Zfloor_bound (- x)). lra. }
  assert (0 < c)%Z by (apply lt_IZR; lra).
  rewrite (Rtrunc_unique (IZR c) c) by (lia || lra).
  split; [lia|]. split; [lra|]. intros j Hj.
  assert (c - 1 < j)%Z by (apply lt_IZR; rewrite minus_IZR; lra). lia.
Qed.

(** A bulk transistor gets the least number of folds that hold its width. *)
Lemma bulk_region_spec w limit : 0 < w -> 0 < limit ->
  let '(folds, width) := bulk_region fs w limit in
  (1 <= folds)%Z /\ w <= IZR folds * limit /\ (forall j, (1 <= j)%Z -> w <= IZR j * limit -> (folds <= j)%Z) /\
  width = IZR (folds + 1) * (38 / 10) * fs.
Proof.
  intros Hw Hl. unfold bulk_region. num_R. rewrite CPP_value. r_decide.
  destruct (Rleb w limit) eqn:E; r_facts.
  - split; [lia|]. split; [lra|]. split; [lia|]. reflexivity.
  - assert (Hq : 0 < w / limit) by (by apply Rdiv_lt_0_compat).
    destruct (Rtrunc_ceil_spec (w / limit) Hq) as (H1 & H2 & H3). num_R.
    assert (Hle : forall j, w / limit <= IZR j <-> w <= IZR j * limit).
    { intros j. assert (w = w / limit * limit) as Ew by (field; lra). split; intros.
      - rewrite Ew. apply Rmult_le_compat_r; lra.
      - apply (Rmult_le_reg_r limit); lra. }
    split; [done|]. split; [by apply Hle|]. split; [|done]. intros j _ Hj. by apply H3, Hle.
Qed.

(** The area of a bulk inverter. *)
Lemma inverter_area wN wP h : 0 < wN -> 0 < wP ->
  let '(p, n) := bulk_limits fs h (mos_ratio wN wP) in
  let w := MAX (snd (bulk_region fs wN n)) (snd (bulk_region fs wP p)) in
  CalculateGateArea INV 1 wN wP h tech = Ret (w * h, h, w).
Proof.
  intros HN HP. destruct (bulk_limits fs h (mos_ratio wN wP)) as [p n] eqn:E.
  unfold CalculateGateArea, gate_regions. fold fs. num_R.
  assert (nm 14 < nm 22) by (rewrite !nm_value; lra). r_decide.
  rewrite E. cbn [outcome_bind]. destruct (bulk_region fs wP p) as [a b], (bulk_region fs wN n) as [c d]. reflexivity.
Qed.

(** Without folding the width of the region does not depend on the transistor. *)
Lemma bulk_region_unfolded w limit : 0 < w -> w <= limit -> bulk_region fs w limit = (1%Z, IZR 2 * CPP * fs).
Proof. intros. unfold bulk_region. num_R. by r_decide. Qed.

Lemma enlarge_bulk_spec wN wP h : 0 < wN -> 0 < wP -> 71 / 10 * fs < h ->
  let '(n, p) := enlarge_bulk fs wN wP h in
  let '(maxP, maxN) := bulk_limits fs h (mos_ratio wN wP) in
  wN <= n /\ wP <= p /\ mos_ratio n p = mos_ratio wN wP /\
  bulk_region fs n maxN = bulk_region fs wN maxN /\ bulk_region fs p maxP = bulk_region fs wP maxP.
Proof.
  intros HN HP Hh. pose proof (limits_ratio h wN wP HN HP Hh) as Hl.
  destruct (ratio_range wN wP HN HP) as (Hr & _).
  unfold enlarge_bulk. num_R. destruct (bulk_limits fs h (mos_ratio wN wP)) as [maxP maxN] eqn:E.
  destruct Hl as (Hp & Hn & Er). cbv zeta. r_decide. cbn [andb].
  destruct (Rltb wP maxP) eqn:EP; [|by rewrite andb_false_r || done]. cbn [andb].
  destruct (Rltb wN maxN) eqn:EN; [|done]. r_facts.
  split; [lra|]. split; [lra|]. split; [done|].
  rewrite !bulk_region_unfolded by lra. done.
Qed.

End Bulk.
(** ** Fins *)

Lemma Rtrunc_IZR k : (0 <= k)%Z -> Rtrunc (IZR k) = k.
Proof. intros. apply Rtrunc_unique; [done|lra]. Qed.

Lemma nceil_IZR k : nceil (IZR k) = IZR k.
Proof. cbn. f_equal. rewrite <- opp_IZR, ZfloorZ. lia. Qed.

(** The folds of a FinFET: the quotient, rounded down. *)
Lemma fin_region_folds (fs pitch : R) num limit : (0 < limit < num)%Z ->
  fin_region fs pitch num limit = Ret ((num / limit)%Z, IZR (num / limit + 1) * pitch * fs).
Proof.
  intros Hl. unfold fin_region. num_R.
  rewrite (proj2 (Z.ltb_lt 0 num)), (proj2 (Z.leb_gt num limit)), (proj2 (Z.eqb_neq limit 0)) by lia.
  assert (0 <= num / limit)%Z by (apply Z.div_pos; lia).
  rewrite Z.quot_div_nonneg by lia. change (@nceil R R_num (IZR ?x)) with (@nceil R R_num (IZR x)).
  rewrite nceil_IZR, Rtrunc_IZR by done. done.
Qed.

(** ** Nodes between 14 nm and 22 nm *)

Lemma one_sheet w : 0 < w <= 1 -> Rtrunc (nceil w) = 1%Z.
Proof.
  intros Hw. destruct (Rtrunc_ceil_spec w ltac:(lra)) as (H1 & _ & H3).
  specialize (H3 1%Z ltac:(lra)). lia.
Qed.

Lemma split_sheets_mixed (tech : t R) r r' sheet : 0 < r < 1 -> 0 < r' < 1 ->
  split_sheets tech r sheet = split_sheets tech r' sheet.
Proof. intros. unfold split_sheets. num_R. by r_decide. Qed.

(** Widths are not converted to fins there, so every one counts as one device. *)
Lemma mid_node_regions (tech : t R) special wN wP h wN' wP' :
  nm 14 < featureSize tech < nm 22 -> 0 < wN <= 1 -> 0 < wP <= 1 -> 0 < wN' <= 1 -> 0 < wP' <= 1 ->
  gate_regions tech special wN wP h = gate_regions tech special wN' wP' h.
Proof.
  intros Hf HN HP HN' HP'. unfold gate_regions. num_R. rewrite !one_sheet by done. r_decide. cbn [andb].
  destruct (area_devices tech special h) as [fin sheet].
  rewrite (split_sheets_mixed tech (mos_ratio wN wP) (mos_ratio wN' wP')); [done| |].
  - apply (ratio_range wN wP); lra.
  - apply (ratio_range wN' wP'); lra.
Qed.

(** ** Horowitz *)

Lemma ln_half_sqr : 0 < ln (1 / 2) * ln (1 / 2).
Proof.
  assert (ln (1 / 2) < 0) by (rewrite <- ln_1; apply ln_increasing; lra). nra.
Qed.

Lemma horowitz_value (tr beta ramp : R) :
  horowitz tr beta ramp =
  let d := tr * sqrt (ln (1 / 2) * ln (1 / 2) + 2 * (1 / ramp / tr) * beta * (1 / 2)) in (d, 1 / 2 / d).
Proof.
  unfold horowitz. rewrite Rlit_neg. num_R. change (10 ^ 1)%Z with 10%Z.
  replace (5 / 10) with (1 / 2) by lra. replace (1 - 1 / 2) with (1 / 2) by lra. reflexivity.
Qed.

(** The delay is at least the unloaded one and grows as the input gets slower. *)
Lemma horowitz_delay (tr beta ramp : R) : 0 < tr -> 0 <= beta -> 0 < ramp ->
  0 < tr * sqrt (ln (1 / 2) * ln (1 / 2)) <= fst (horowitz tr beta ramp) /\
  snd (horowitz tr beta ramp) * fst (horowitz tr beta ramp) = 1 / 2 /\
  forall slower, 0 < slower <= ramp -> fst (horowitz tr beta ramp) <= fst (horowitz tr beta slower).
Proof.
  intros Ht Hb Hr. pose proof ln_half_sqr as Hl.
  assert (Hterm : forall r, 0 < r -> 0 <= 2 * (1 / r / tr) * beta * (1 / 2)).
  { intros r Hr'. assert (0 < 1 / r / tr) by (apply Rdiv_lt_0_compat; [apply Rdiv_lt_0_compat|]; lra). nra. }
  assert (Hs : 0 < sqrt (ln (1 / 2) * ln (1 / 2))) by (by apply sqrt_lt_R0).
  rewrite horowitz_value. cbv zeta. cbn [fst snd].
  assert (Hle : forall r, 0 < r -> sqrt (ln (1 / 2) * ln (1 / 2)) <=
    sqrt (ln (1 / 2) * ln (1 / 2) + 2 * (1 / r / tr) * beta * (1 / 2))).
  { intros r Hr'. apply sqrt_le_1_alt. pose proof (Hterm r Hr'). lra. }
  split; [split; [nra|apply Rmult_le_compat_l; [lra|by apply Hle]]|]. split.
  - pose proof (Hle ramp Hr).
    assert (tr * sqrt (ln (1 / 2) * ln (1 / 2) + 2 * (1 / ramp / tr) * beta * (1 / 2)) <> 0)
      by (apply Rgt_not_eq, Rmult_lt_0_compat; lra).
    unfold Rdiv at 1. rewrite Rmult_assoc, Rinv_l by done. lra.
  - intros slower Hsl. rewrite horowitz_value. cbn [fst]. apply Rmult_le_compat_l; [lra|].
    apply sqrt_le_1_alt. apply Rplus_le_compat_l.
    assert (1 / ramp / tr <= 1 / slower / tr); [|nra].
    apply Rmult_le_compat_r; [left; by apply Rinv_0_lt_compat|].
    unfold Rdiv. rewrite !Rmult_1_l. apply Rinv_le_contravar; lra.
Qed.

End FormulaFacts.
