(* ===== verification/TechTables.v ===== *)
(** * Device and via tables

    The tables of [Technology::Initialize] (Technology.cpp): the parameters of
    each process node and device roadmap, the local arrays of the FinFET and
    gate-all-around nodes, and the dimensions of the vertical connections.  An
    assignment changes one field of the object and leaves the others as they
    were, so a field no table sets keeps what the storage held.  The four current
    tables are arrays of 101 elements of which a table sets every tenth. *)
From S2P Require Import Prelude Numeric Types Process.
From stdpp Require Import base list.
From Stdlib Require Import ZArith.
Open Scope Z_scope.

Module TechTables.
Import Process.

Section Tables.
Context {F : Type} `{Num F}.

(** The literals [m * 10^e] of a table. *)
Definition dec (l : list (Z * Z)) : list F := map (fun x => lit x.1 x.2) l.

(** The products, and the quotients, of literals and one factor. *)
Definition scaled (k : F) (l : list (Z * Z)) : list F := map (fun x => (x * k)%num) (dec l).
Definition divided (k : F) (l : list (Z * Z)) : list F := map (fun x => (x / k)%num) (dec l).

(** [l[i]] of an array whose length the declaration fixes and [i] respects. *)
Definition elt (l : list F) (i : nat) : F := nth i l (lit 0 0).

(** [a[0] = l0; a[10] = l1; ... a[100] = l10;] *)
Fixpoint points_from (i : nat) (l a : list F) : list F :=
  match l with
  | [] => a
  | x :: l' => points_from (10 + i) l' (<[i := x]> a)
  end.
Definition points (l a : list F) : list F := points_from 0 l a.

(** [a[0], a[10], ..., a[100]] *)
Definition sample (a : list F) : list F := map (fun k => elt a (10 * k)) (seq 0 11).

(** ** Local arrays of the FinFET and gate-all-around nodes *)

Definition caplist : list F := dec [(103816, -3); (97549, -3); (100497, -3); (81859, -3); (72572, -3); (7974, -2);
        (6694, -2)].
Definition currentlist : list F := dec [(595045, -3); (599237, -3); (562048, -3); (578494, -3); (641463, -3);
        (526868, -3); (460979, -3)].
Definition currentlist_off : list F := dec [(1, -4); (127, -6); (147, -6); (138, -6); (158, -6); (733, -7); (169, -6)].
Definition eff_res_mul : list F := dec [(209, -2); (209, -2); (205, -2); (21, -1); (214, -2); (198, -2); (205, -2)].
Definition gm : list F := dec [(141534, -2); (18035, -1); (178537, -2); (18209, -1); (201804, -2); (196885, -2);
        (240175, -2)].
Definition vth_list : list F := dec [(1, -1); (1, -1); (1, -1); (1, -1); (1, -1); (1, -1); (1, -1)].
Definition cap_draintotallist : list F := dec [(2499, -20); (2668, -20); (2224, -20); (2076, -20); (1791, -20);
        (1543, -20); (1409, -20)].

(** ** Devices *)

(** [_featureSizeInNano >= 180], [HP] *)
Definition HP_180 (this : t F) : t F :=
  this <| vdd := lit 15 (-1) |> <| vth := lit 3 (-1) |> <| phyGateLength := lit 1 (-7) |>
    <| capIdealGate := lit 8 (-10) |> <| capFringe := lit 25 (-11) |> <| capJunction := lit 1 (-3) |>
    <| capOx := lit 1 (-2) |> <| effectiveElectronMobility := lit 32 (-3) |>
    <| effectiveHoleMobility := lit 8 (-3) |> <| pnSizeRatio := lit 245 (-2) |>
    <| effectiveResistanceMultiplier := lit 154 (-2) |>
    <| currentOnNmos := points (dec [(750, 0); (750, 0); (750, 0); (750, 0); (750, 0); (750, 0); (750, 0); (750, 0);
        (750, 0); (750, 0); (750, 0)]) (currentOnNmos this) |>
    <| currentOnPmos := points (dec [(350, 0); (350, 0); (350, 0); (350, 0); (350, 0); (350, 0); (350, 0); (350, 0);
        (350, 0); (350, 0); (350, 0)]) (currentOnPmos this) |>
    <| currentOffNmos := points (dec [(8, -3); (8, -3); (8, -3); (8, -3); (8, -3); (8, -3); (8, -3); (8, -3); (8, -3);
        (8, -3); (8, -3)]) (currentOffNmos this) |>
    <| currentOffPmos := points (dec [(16, -3); (16, -3); (16, -3); (16, -3); (16, -3); (16, -3); (16, -3); (16, -3);
        (16, -3); (16, -3); (16, -3)]) (currentOffPmos this) |>.

(** [_featureSizeInNano >= 180], [LSTP] *)
Definition LSTP_180 (this : t F) : t F :=
  this <| vdd := lit 15 (-1) |> <| vth := lit 6 (-1) |> <| phyGateLength := lit 16 (-8) |>
    <| capIdealGate := lit 8 (-10) |> <| capFringe := lit 25 (-11) |> <| capJunction := lit 1 (-3) |>
    <| capOx := lit 1 (-2) |> <| effectiveElectronMobility := lit 32 (-3) |>
    <| effectiveHoleMobility := lit 8 (-3) |> <| pnSizeRatio := lit 245 (-2) |>
    <| effectiveResistanceMultiplier := lit 154 (-2) |>
    <| currentOnNmos := points (dec [(330, 0); (330, 0); (330, 0); (330, 0); (330, 0); (330, 0); (330, 0); (330, 0);
        (330, 0); (330, 0); (330, 0)]) (currentOnNmos this) |>
    <| currentOnPmos := points (dec [(168, 0); (168, 0); (168, 0); (168, 0); (168, 0); (168, 0); (168, 0); (168, 0);
        (168, 0); (168, 0); (168, 0)]) (currentOnPmos this) |>
    <| currentOffNmos := points (dec [(425, -8); (425, -8); (425, -8); (425, -8); (425, -8); (425, -8); (425, -8);
        (425, -8); (425, -8); (425, -8); (425, -8)]) (currentOffNmos this) |>
    <| currentOffPmos := points (dec [(85, -7); (85, -7); (85, -7); (85, -7); (85, -7); (85, -7); (85, -7); (85, -7);
        (85, -7); (85, -7); (85, -7)]) (currentOffPmos this) |>.

(** [_featureSizeInNano >= 180], [LOP] *)
Definition LOP_180 (this : t F) : t F :=
  this <| vdd := lit 12 (-1) |> <| vth := lit 45 (-2) |> <| phyGateLength := lit 135 (-9) |>
    <| capIdealGate := lit 8 (-10) |> <| capFringe := lit 25 (-11) |> <| capJunction := lit 1 (-3) |>
    <| capOx := lit 1 (-2) |> <| effectiveElectronMobility := lit 33 (-3) |>
    <| effectiveHoleMobility := lit 9 (-3) |> <| pnSizeRatio := lit 245 (-2) |>
    <| effectiveResistanceMultiplier := lit 154 (-2) |>
    <| currentOnNmos := points (dec [(490, 0); (490, 0); (490, 0); (490, 0); (490, 0); (490, 0); (490, 0); (490, 0);
        (490, 0); (490, 0); (490, 0)]) (currentOnNmos this) |>
    <| currentOnPmos := points (dec [(230, 0); (230, 0); (230, 0); (230, 0); (230, 0); (230, 0); (230, 0); (230, 0);
        (230, 0); (230, 0); (230, 0)]) (currentOnPmos this) |>
    <| currentOffNmos := points (dec [(4, -4); (4, -4); (4, -4); (4, -4); (4, -4); (4, -4); (4, -4); (4, -4); (4, -4);
        (4, -4); (4, -4)]) (currentOffNmos this) |>
    <| currentOffPmos := points (dec [(8, -4); (8, -4); (8, -4); (8, -4); (8, -4); (8, -4); (8, -4); (8, -4); (8, -4);
        (8, -4); (8, -4)]) (currentOffPmos this) |>.

(** [_featureSizeInNano >= 120], [HP] *)
Definition HP_120 (this : t F) : t F :=
  this <| vdd := lit 12 (-1) |> <| vth := lit 21804 (-5) |> <| phyGateLength := lit 451 (-10) |>
    <| capIdealGate := lit 741 (-12) |> <| capFringe := lit 24 (-11) |> <| capJunction := lit 1 (-3) |>
    <| capOx := lit 164 (-4) |> <| effectiveElectronMobility := lit 24959 (-6) |>
    <| effectiveHoleMobility := lit 5952 (-6) |> <| pnSizeRatio := lit 245 (-2) |>
    <| effectiveResistanceMultiplier := lit 154 (-2) |>
    <| currentOnNmos := points (dec [(9609, -1); (9479, -1); (9351, -1); (9225, -1); (910, 0); (8977, -1); (8855, -1);
        (8736, -1); (8618, -1); (8501, -1); (8386, -1)]) (currentOnNmos this) |>
    <| currentOnPmos := points (dec [(5784, -1); (5678, -1); (5575, -1); (5474, -1); (5375, -1); (5278, -1); (5183, -1);
        (5091, -1); (500, 0); (4911, -1); (4825, -1)]) (currentOnPmos this) |>
    <| currentOffNmos := points (dec [(19, -3); (235, -4); (286, -4); (345, -4); (412, -4); (487, -4); (571, -4);
        (664, -4); (767, -4); (88, -3); (1, -1)]) (currentOffNmos this) |>
    <| currentOffPmos := points (dec [(382, -4); (384, -4); (387, -4); (39, -3); (393, -4); (397, -4); (401, -4);
        (405, -4); (41, -3); (416, -4); (422, -4)]) (currentOffPmos this) |>.

(** [_featureSizeInNano >= 120], [LSTP] *)
Definition LSTP_120 (this : t F) : t F :=
  this <| vdd := lit 12 (-1) |> <| vth := lit 50125 (-5) |> <| phyGateLength := lit 75 (-9) |>
    <| capIdealGate := lit 862 (-12) |> <| capFringe := lit 25 (-11) |> <| capJunction := lit 1 (-3) |>
    <| capOx := lit 115 (-4) |> <| effectiveElectronMobility := lit 28497 (-6) |>
    <| effectiveHoleMobility := lit 6182 (-6) |> <| pnSizeRatio := lit 245 (-2) |>
    <| effectiveResistanceMultiplier := lit 154 (-2) |>
    <| currentOnNmos := points (dec [(4225, -1); (415, 0); (4077, -1); (4005, -1); (3936, -1); (3868, -1); (3801, -1);
        (3737, -1); (3674, -1); (3613, -1); (3555, -1)]) (currentOnNmos this) |>
    <| currentOnPmos := points (dec [(2049, -1); (2003, -1); (1959, -1); (1917, -1); (1875, -1); (1835, -1); (1797, -1);
        (1759, -1); (1723, -1); (1688, -1); (1654, -1)]) (currentOnPmos this) |>
    <| currentOffNmos := points (dec [(101, -7); (104, -7); (106, -7); (109, -7); (112, -7); (116, -7); (12, -6);
        (124, -7); (128, -7); (132, -7); (137, -7)]) (currentOffNmos this) |>
    <| currentOffPmos := points (dec [(221, -7); (227, -7); (233, -7); (24, -6); (247, -7); (254, -7); (262, -7);
        (271, -7); (28, -6); (29, -6); (301, -7)]) (currentOffPmos this) |>.

(** [_featureSizeInNano >= 120], [LOP] *)
Definition LOP_120 (this : t F) : t F :=
  this <| vdd := lit 1 0 |> <| vth := lit 3126 (-4) |> <| phyGateLength := lit 65 (-9) |>
    <| capIdealGate := lit 634 (-12) |> <| capFringe := lit 25 (-11) |> <| capJunction := lit 1 (-3) |>
    <| capOx := lit 144 (-4) |> <| effectiveElectronMobility := lit 29243 (-6) |>
    <| effectiveHoleMobility := lit 6453 (-6) |> <| pnSizeRatio := lit 245 (-2) |>
    <| effectiveResistanceMultiplier := lit 154 (-2) |>
    <| currentOnNmos := points (dec [(5314, -1); (5226, -1); (514, 0); (5055, -1); (4973, -1); (4892, -1); (4813, -1);
        (4736, -1); (4661, -1); (4588, -1); (4516, -1)]) (currentOnNmos this) |>
    <| currentOnPmos := points (dec [(2785, -1); (2725, -1); (2668, -1); (2612, -1); (2558, -1); (2505, -1); (2454, -1);
        (2404, -1); (2356, -1); (231, 0); (2264, -1)]) (currentOnPmos this) |>
    <| currentOffNmos := points (dec [(969, -6); (987, -6); (101, -5); (103, -5); (105, -5); (108, -5); (11, -4);
        (113, -5); (116, -5); (119, -5); (123, -5)]) (currentOffNmos this) |>
    <| currentOffPmos := points (dec [(22, -4); (225, -5); (229, -5); (234, -5); (239, -5); (245, -5); (251, -5);
        (257, -5); (264, -5); (272, -5); (279, -5)]) (currentOffPmos this) |>.

(** [_featureSizeInNano >= 90], [HP] *)
Definition HP_90 (this : t F) : t F :=
  this <| vdd := lit 12 (-1) |> <| vth := lit 19795 (-5) |> <| phyGateLength := lit 37 (-9) |>
    <| capIdealGate := lit 638 (-12) |> <| capFringe := lit 25 (-11) |> <| capJunction := lit 1 (-3) |>
    <| capOx := lit 173 (-4) |> <| effectiveElectronMobility := lit 24343 (-6) |>
    <| effectiveHoleMobility := lit 5832 (-6) |> <| pnSizeRatio := lit 245 (-2) |>
    <| effectiveResistanceMultiplier := lit 154 (-2) |>
    <| currentOnNmos := points (dec [(10505, -1); (1037, 0); (10236, -1); (10103, -1); (9972, -1); (9842, -1);
        (9714, -1); (9588, -1); (9463, -1); (9339, -1); (9217, -1)]) (currentOnNmos this) |>
    <| currentOnPmos := points (dec [(6387, -1); (6275, -1); (6165, -1); (6058, -1); (5952, -1); (5849, -1); (5747, -1);
        (5648, -1); (5551, -1); (5455, -1); (5362, -1)]) (currentOnPmos this) |>
    <| currentOffNmos := points (scaled (lit 273 (-2)) [(19, -3); (235, -4); (286, -4); (345, -4); (412, -4); (487, -4);
        (571, -4); (664, -4); (767, -4); (88, -3); (1, -1)]) (currentOffNmos this) |>
    <| currentOffPmos := points (dec [(526, -4); (526, -4); (526, -4); (527, -4); (528, -4); (529, -4); (531, -4);
        (534, -4); (536, -4); (54, -3); (543, -4)]) (currentOffPmos this) |>.

(** [_featureSizeInNano >= 90], [LSTP] *)
Definition LSTP_90 (this : t F) : t F :=
  this <| vdd := lit 12 (-1) |> <| vth := lit 50236 (-5) |> <| phyGateLength := lit 65 (-9) |>
    <| capIdealGate := lit 773 (-12) |> <| capFringe := lit 24 (-11) |> <| capJunction := lit 1 (-3) |>
    <| capOx := lit 119 (-4) |> <| effectiveElectronMobility := lit 27794 (-6) |>
    <| effectiveHoleMobility := lit 6064 (-6) |> <| pnSizeRatio := lit 244 (-2) |>
    <| effectiveResistanceMultiplier := lit 192 (-2) |>
    <| currentOnNmos := points (dec [(4466, -1); (4387, -1); (4312, -1); (4238, -1); (4167, -1); (4097, -1); (4029, -1);
        (3963, -1); (3898, -1); (3835, -1); (3773, -1)]) (currentOnNmos this) |>
    <| currentOnPmos := points (dec [(2215, -1); (2166, -1); (212, 0); (2074, -1); (2031, -1); (1988, -1); (1947, -1);
        (1907, -1); (1869, -1); (1831, -1); (1795, -1)]) (currentOnPmos this) |>
    <| currentOffNmos := points (dec [(945, -8); (967, -8); (991, -7); (102, -7); (105, -7); (108, -7); (111, -7);
        (114, -7); (128, -7); (132, -7); (137, -7)]) (currentOffNmos this) |>
    <| currentOffPmos := points (dec [(205, -7); (21, -6); (215, -7); (221, -7); (227, -7); (234, -7); (241, -7);
        (248, -7); (256, -7); (265, -7); (274, -7)]) (currentOffPmos this) |>.

(** [_featureSizeInNano >= 90], [LOP] *)
Definition LOP_90 (this : t F) : t F :=
  this <| vdd := lit 9 (-1) |> <| vth := lit 26454 (-5) |> <| phyGateLength := lit 53 (-9) |>
    <| capIdealGate := lit 795 (-12) |> <| capFringe := lit 24 (-11) |> <| capJunction := lit 1 (-3) |>
    <| capOx := lit 15 (-3) |> <| effectiveElectronMobility := lit 30904 (-6) |>
    <| effectiveHoleMobility := lit 6788 (-6) |> <| pnSizeRatio := lit 254 (-2) |>
    <| effectiveResistanceMultiplier := lit 177 (-2) |>
    <| currentOnNmos := points (dec [(5345, -1); (5257, -1); (517, 0); (5085, -1); (5002, -1); (4921, -1); (4841, -1);
        (4763, -1); (4687, -1); (4612, -1); (4539, -1)]) (currentOnNmos this) |>
    <| currentOnPmos := points (dec [(2942, -1); (2878, -1); (2817, -1); (2757, -1); (2699, -1); (2642, -1); (2587, -1);
        (2534, -1); (2482, -1); (2432, -1); (2383, -1)]) (currentOnPmos this) |>
    <| currentOffNmos := points (dec [(274, -5); (26, -4); (279, -5); (281, -5); (284, -5); (288, -5); (291, -5);
        (295, -5); (299, -5); (304, -5); (309, -5)]) (currentOffNmos this) |>
    <| currentOffPmos := points (dec [(651, -5); (656, -5); (661, -5); (667, -5); (674, -5); (682, -5); (691, -5);
        (7, -3); (71, -4); (721, -5); (733, -5)]) (currentOffPmos this) |>.

(** [_featureSizeInNano >= 90], [EDRAM] *)
Definition EDRAM_90 (this : t F) : t F :=
  this <| vdd := lit 12 (-1) |> <| vpp := lit 16 (-1) |> <| vth := lit 4545 (-4) |>
    <| phyGateLength := lit 12 (-8) |> <| capIdealGate := lit 147 (-11) |> <| capFringe := lit 8 (-11) |>
    <| capJunction := lit 1 (-3) |> <| capOx := lit 122 (-4) |> <| effectiveElectronMobility := lit 32395 (-6) |>
    <| effectiveHoleMobility := lit 32395 (-6) |> <| pnSizeRatio := lit 195 (-2) |>
    <| effectiveResistanceMultiplier := lit 165 (-2) |>
    <| currentOnNmos := points (dec [(3216, -1); (3216, -1); (3216, -1); (3216, -1); (3216, -1); (3216, -1); (3216, -1);
        (3216, -1); (3216, -1); (3216, -1); (3216, -1)]) (currentOnNmos this) |>
    <| currentOnPmos := points (dec [(2033, -1); (2033, -1); (2033, -1); (2033, -1); (2033, -1); (2033, -1); (2033, -1);
        (2033, -1); (2033, -1); (2033, -1); (2033, -1)]) (currentOnPmos this) |>
    <| currentOffNmos := points (dec [(142, -7); (225, -7); (346, -7); (518, -7); (758, -7); (108, -6); (151, -6);
        (202, -6); (257, -6); (314, -6); (385, -6)]) (currentOffNmos this) |>
    <| currentOffPmos := points (dec [(142, -7); (225, -7); (346, -7); (518, -7); (758, -7); (108, -6); (151, -6);
        (202, -6); (257, -6); (314, -6); (385, -6)]) (currentOffPmos this) |>.

(** [_featureSizeInNano >= 65], [HP] *)
Definition HP_65 (this : t F) : t F :=
  this <| vdd := lit 11 (-1) |> <| vth := lit 16398 (-5) |> <| phyGateLength := lit 25 (-9) |>
    <| capIdealGate := lit 47 (-11) |> <| capFringe := lit 24 (-11) |> <| capJunction := lit 1 (-3) |>
    <| capOx := lit 188 (-4) |> <| effectiveElectronMobility := lit 44574 (-6) |>
    <| effectiveHoleMobility := lit 11333 (-6) |> <| pnSizeRatio := lit 241 (-2) |>
    <| effectiveResistanceMultiplier := lit 15 (-1) |>
    <| currentOnNmos := points (dec [(12114, -1); (11984, -1); (11854, -1); (11725, -1); (11569, -1); (11467, -1);
        (11336, -1); (11199, -1); (11043, -1); (10846, -1); (1059, 0)]) (currentOnNmos this) |>
    <| currentOnPmos := points (dec [(8887, -1); (8758, -1); (8617, -1); (8485, -1); (8354, -1); (8226, -1); (8099, -1);
        (7973, -1); (7848, -1); (7722, -1); (7594, -1)]) (currentOnPmos this) |>
    <| currentOffNmos := points (dec [(343, -3); (373, -3); (403, -3); (435, -3); (466, -3); (499, -3); (531, -3);
        (564, -3); (596, -3); (625, -3); (651, -3)]) (currentOffNmos this) |>
    <| currentOffPmos := points (dec [(568, -3); (607, -3); (646, -3); (686, -3); (726, -3); (766, -3); (806, -3);
        (846, -3); (886, -3); (926, -3); (965, -3)]) (currentOffPmos this) |>.

(** [_featureSizeInNano >= 65], [LSTP] *)
Definition LSTP_65 (this : t F) : t F :=
  this <| vdd := lit 11 (-1) |> <| vth := lit 56392 (-5) |> <| phyGateLength := lit 45 (-9) |>
    <| capIdealGate := lit 617 (-12) |> <| capFringe := lit 24 (-11) |> <| capJunction := lit 1 (-3) |>
    <| capOx := lit 137 (-4) |> <| effectiveElectronMobility := lit 45786 (-6) |>
    <| effectiveHoleMobility := lit 10264 (-6) |> <| pnSizeRatio := lit 223 (-2) |>
    <| effectiveResistanceMultiplier := lit 196 (-2) |>
    <| currentOnNmos := points (dec [(4654, -1); (4585, -1); (4518, -1); (4451, -1); (4384, -1); (4316, -1); (4239, -1);
        (4142, -1); (4006, -1); (3835, -1); (3672, -1)]) (currentOnNmos this) |>
    <| currentOnPmos := points (dec [(2342, -1); (2297, -1); (2253, -1); (221, 0); (2168, -1); (2127, -1); (2088, -1);
        (2048, -1); (2007, -1); (1966, -1); (1926, -1)]) (currentOnPmos this) |>
    <| currentOffNmos := points (dec [(303, -7); (446, -7); (643, -7); (906, -7); (125, -6); (17, -5); (225, -6);
        (29, -5); (361, -6); (435, -6); (52, -5)]) (currentOffNmos this) |>
    <| currentOffPmos := points (dec [(385, -7); (564, -7); (809, -7); (114, -6); (157, -6); (212, -6); (282, -6);
        (37, -5); (478, -6); (609, -6); (766, -6)]) (currentOffPmos this) |>.

(** [_featureSizeInNano >= 65], [LOP] *)
Definition LOP_65 (this : t F) : t F :=
  this <| vdd := lit 8 (-1) |> <| vth := lit 32375 (-5) |> <| phyGateLength := lit 32 (-9) |>
    <| capIdealGate := lit 601 (-12) |> <| capFringe := lit 24 (-11) |> <| capJunction := lit 1 (-3) |>
    <| capOx := lit 188 (-4) |> <| effectiveElectronMobility := lit 49159 (-6) |>
    <| effectiveHoleMobility := lit 11095 (-6) |> <| pnSizeRatio := lit 228 (-2) |>
    <| effectiveResistanceMultiplier := lit 182 (-2) |>
    <| currentOnNmos := points (dec [(5629, -1); (5552, -1); (5475, -1); (5398, -1); (5322, -1); (5245, -1); (5161, -1);
        (5057, -1); (4911, -1); (4717, -1); (4516, -1)]) (currentOnNmos this) |>
    <| currentOnPmos := points (dec [(3295, -1); (3233, -1); (3172, -1); (3112, -1); (3054, -1); (2998, -1); (2942, -1);
        (2887, -1); (2832, -1); (2775, -1); (2718, -1)]) (currentOnPmos this) |>
    <| currentOffNmos := points (dec [(908, -5); (111, -4); (135, -4); (162, -4); (192, -4); (225, -4); (262, -4);
        (299, -4); (335, -4); (367, -4); (398, -4)]) (currentOffNmos this) |>
    <| currentOffPmos := points (dec [(13, -3); (157, -4); (189, -4); (224, -4); (264, -4); (308, -4); (356, -4);
        (109, -4); (465, -4); (526, -4); (591, -4)]) (currentOffPmos this) |>.

(** [_featureSizeInNano >= 65], [EDRAM] *)
Definition EDRAM_65 (this : t F) : t F :=
  this <| vdd := lit 12 (-1) |> <| vpp := lit 16 (-1) |> <| vth := lit 43806 (-5) |>
    <| phyGateLength := lit 12 (-8) |> <| capIdealGate := lit 146 (-11) |> <| capFringe := lit 8 (-11) |>
    <| capJunction := lit 1 (-3) |> <| capOx := lit 122 (-4) |> <| effectiveElectronMobility := lit 32832 (-6) |>
    <| effectiveHoleMobility := lit 32832 (-6) |> <| pnSizeRatio := lit 205 (-2) |>
    <| effectiveResistanceMultiplier := lit 165 (-2) |>
    <| currentOnNmos := points (dec [(3998, -1); (3998, -1); (3998, -1); (3998, -1); (3998, -1); (3998, -1); (3998, -1);
        (3998, -1); (3998, -1); (3998, -1); (3998, -1)]) (currentOnNmos this) |>
    <| currentOnPmos := points (dec [(2434, -1); (2434, -1); (2434, -1); (2434, -1); (2434, -1); (2434, -1); (2434, -1);
        (2434, -1); (2434, -1); (2434, -1); (2434, -1)]) (currentOnPmos this) |>
    <| currentOffNmos := points (dec [(223, -7); (346, -7); (524, -7); (775, -7); (112, -6); (158, -6); (218, -6);
        (288, -6); (363, -6); (441, -6); (536, -6)]) (currentOffNmos this) |>
    <| currentOffPmos := points (dec [(223, -7); (346, -7); (524, -7); (775, -7); (112, -6); (158, -6); (218, -6);
        (288, -6); (363, -6); (441, -6); (536, -6)]) (currentOffPmos this) |>.

(** [_featureSizeInNano >= 45], [HP] *)
Definition HP_45 (this : t F) : t F :=
  let this := this <| vdd := lit 1 0 |> <| vth := lit 12679 (-5) |> <| phyGateLength := lit 18 (-9) |>
    <| capIdealGate := lit 678 (-12) |> <| capFringe := lit 17 (-11) |> <| capJunction := lit 1 (-3) |>
    <| capOx := lit 377 (-4) |> <| effectiveElectronMobility := lit 2977 (-5) |>
    <| effectiveHoleMobility := lit 9527 (-6) |> <| pnSizeRatio := lit 241 (-2) |>
    <| effectiveResistanceMultiplier := lit 151 (-2) |>
    <| currentOnNmos := points (dec [(18238, -1); (18082, -1); (17926, -1); (1777, 0); (17614, -1); (17458, -1);
        (17303, -1); (17147, -1); (16991, -1); (16832, -1); (16666, -1)]) (currentOnNmos this) |>
    <| currentOnPmos := points (dec [(16322, -1); (16128, -1); (15936, -1); (15741, -1); (15547, -1); (15355, -1);
        (15164, -1); (14976, -1); (14788, -1); (14603, -1); (14418, -1)]) (currentOnPmos this) |>
    <| currentOffNmos := points (dec [(28, -2); (328, -3); (381, -3); (439, -3); (502, -3); (569, -3); (642, -3);
        (72, -2); (803, -3); (891, -3); (984, -3)]) (currentOffNmos this) |> in
  this <| currentOffPmos := points (sample (currentOffNmos this)) (currentOffPmos this) |>.

(** [_featureSizeInNano >= 45], [LSTP] *)
Definition LSTP_45 (this : t F) : t F :=
  let this := this <| vdd := lit 1 0 |> <| vth := lit 56452 (-5) |> <| phyGateLength := lit 28 (-9) |>
    <| capIdealGate := lit 558 (-12) |> <| capFringe := lit 21 (-11) |> <| capJunction := lit 1 (-3) |>
    <| capOx := lit 199 (-4) |> <| effectiveElectronMobility := lit 45614 (-6) |>
    <| effectiveHoleMobility := lit 9698 (-6) |> <| pnSizeRatio := lit 223 (-2) |>
    <| effectiveResistanceMultiplier := lit 199 (-2) |>
    <| currentOnNmos := points (dec [(5275, -1); (5202, -1); (5129, -1); (5058, -1); (4986, -1); (4914, -1); (4837, -1);
        (4744, -1); (4612, -1); (4426, -1); (4213, -1)]) (currentOnNmos this) |>
    <| currentOnPmos := points (dec [(4979, -1); (4895, -1); (4813, -1); (4732, -1); (4653, -1); (4576, -1); (450, 0);
        (4425, -1); (4351, -1); (4275, -1); (4197, -1)]) (currentOnPmos this) |>
    <| currentOffNmos := points (dec [(101, -7); (165, -7); (262, -7); (406, -7); (612, -7); (902, -7); (13, -5);
        (183, -6); (251, -6); (329, -6); (41, -5)]) (currentOffNmos this) |> in
  this <| currentOffPmos := points (sample (currentOffNmos this)) (currentOffPmos this) |>.

(** [_featureSizeInNano >= 45], [LOP] *)
Definition LOP_45 (this : t F) : t F :=
  let this := this <| vdd := lit 7 (-1) |> <| vth := lit 28894 (-5) |> <| phyGateLength := lit 22 (-9) |>
    <| capIdealGate := lit 613 (-12) |> <| capFringe := lit 2 (-10) |> <| capJunction := lit 1 (-3) |>
    <| capOx := lit 279 (-4) |> <| effectiveElectronMobility := lit 60695 (-6) |>
    <| effectiveHoleMobility := lit 1246 (-5) |> <| pnSizeRatio := lit 228 (-2) |>
    <| effectiveResistanceMultiplier := lit 176 (-2) |>
    <| currentOnNmos := points (dec [(6821, -1); (6723, -1); (6625, -1); (6528, -1); (643, 0); (6328, -1); (6209, -1);
        (605, 0); (5836, -1); (561, 0); (5427, -1)]) (currentOnNmos this) |>
    <| currentOnPmos := points (dec [(7724, -1); (7596, -1); (7469, -1); (7344, -1); (7221, -1); (710, 0); (6981, -1);
        (6863, -1); (6744, -1); (6623, -1); (6502, -1)]) (currentOnPmos this) |>
    <| currentOffNmos := points (dec [(403, -5); (502, -5); (618, -5); (751, -5); (904, -5); (108, -4); (127, -4);
        (147, -4); (166, -4); (184, -4); (203, -4)]) (currentOffNmos this) |> in
  this <| currentOffPmos := points (sample (currentOffNmos this)) (currentOffPmos this) |>.

(** [_featureSizeInNano >= 45], [EDRAM] *)
Definition EDRAM_45 (this : t F) : t F :=
  this <| vdd := lit 11 (-1) |> <| vpp := lit 15 (-1) |> <| vth := lit 44559 (-5) |>
    <| phyGateLength := lit 78 (-9) |> <| capIdealGate := lit 11 (-10) |> <| capFringe := lit 8 (-11) |>
    <| capJunction := lit 1 (-3) |> <| capOx := lit 141 (-4) |> <| effectiveElectronMobility := lit 4263 (-5) |>
    <| effectiveHoleMobility := lit 4263 (-5) |> <| pnSizeRatio := lit 205 (-2) |>
    <| effectiveResistanceMultiplier := lit 165 (-2) |>
    <| currentOnNmos := points (dec [(456, 0); (456, 0); (456, 0); (456, 0); (456, 0); (456, 0); (456, 0); (456, 0);
        (456, 0); (456, 0); (456, 0)]) (currentOnNmos this) |>
    <| currentOnPmos := points (dec [(228, 0); (228, 0); (228, 0); (228, 0); (228, 0); (228, 0); (228, 0); (228, 0);
        (228, 0); (228, 0); (228, 0)]) (currentOnPmos this) |>
    <| currentOffNmos := points (dec [(254, -7); (394, -7); (595, -7); (879, -7); (127, -6); (179, -6); (247, -6);
        (331, -6); (426, -6); (527, -6); (646, -6)]) (currentOffNmos this) |>
    <| currentOffPmos := points (dec [(254, -7); (394, -7); (595, -7); (879, -7); (127, -6); (179, -6); (247, -6);
        (331, -6); (426, -6); (527, -6); (646, -6)]) (currentOffPmos this) |>.

(** [_featureSizeInNano >= 32], [HP] *)
Definition HP_32 (this : t F) : t F :=
  let this := this <| vdd := lit 9 (-1) |> <| vth := lit 13172 (-5) |> <| phyGateLength := lit 14 (-9) |>
    <| capIdealGate := lit 642 (-12) |> <| capFringe := lit 16 (-11) |> <| capJunction := lit 1 (-3) |>
    <| capOx := lit 459 (-4) |> <| effectiveElectronMobility := lit 25773 (-6) |>
    <| effectiveHoleMobility := lit 8992 (-6) |> <| pnSizeRatio := lit 241 (-2) |>
    <| effectiveResistanceMultiplier := lit 149 (-2) |>
    <| currentOnNmos := points (dec [(17858, -1); (17718, -1); (17578, -1); (17438, -1); (17298, -1); (17157, -1);
        (17017, -1); (16876, -1); (16735, -1); (16594, -1); (1645, 0)]) (currentOnNmos this) |>
    <| currentOnPmos := points (dec [(17135, -1); (16628, -1); (16201, -1); (16016, -1); (15833, -1); (15651, -1);
        (15471, -1); (15291, -1); (15113, -1); (14937, -1); (14761, -1)]) (currentOnPmos this) |>
    <| currentOffNmos := points (dec [(834, -3); (9, -1); (968, -3); (104, -2); (111, -2); (118, -2); (125, -2);
        (132, -2); (139, -2); (146, -2); (154, -2)]) (currentOffNmos this) |> in
  this <| currentOffPmos := points (sample (currentOffNmos this)) (currentOffPmos this) |>.

(** [_featureSizeInNano >= 32], [LSTP] *)
Definition LSTP_32 (this : t F) : t F :=
  let this := this <| vdd := lit 1 0 |> <| vth := lit 58181 (-5) |> <| phyGateLength := lit 22 (-9) |>
    <| capIdealGate := lit 502 (-12) |> <| capFringe := lit 19 (-11) |> <| capJunction := lit 1 (-3) |>
    <| capOx := lit 219 (-4) |> <| effectiveElectronMobility := lit 3952 (-5) |>
    <| effectiveHoleMobility := lit 8867 (-6) |> <| pnSizeRatio := lit 223 (-2) |>
    <| effectiveResistanceMultiplier := lit 199 (-2) |>
    <| currentOnNmos := points (dec [(560, 0); (553, 0); (5461, -1); (5393, -1); (5325, -1); (5258, -1); (5189, -1);
        (5115, -1); (5023, -1); (4892, -1); (4697, -1)]) (currentOnNmos this) |>
    <| currentOnPmos := points (dec [(5496, -1); (5411, -1); (5328, -1); (5246, -1); (5165, -1); (5087, -1); (5009, -1);
        (4933, -1); (4858, -1); (4783, -1); (4707, -1)]) (currentOnPmos this) |>
    <| currentOffNmos := points (dec [(302, -7); (451, -7); (657, -7); (935, -7); (131, -6); (179, -6); (241, -6);
        (319, -6); (415, -6); (529, -6); (658, -6)]) (currentOffNmos this) |> in
  this <| currentOffPmos := points (sample (currentOffNmos this)) (currentOffPmos this) |>.

(** [_featureSizeInNano >= 32], [LOP] *)
Definition LOP_32 (this : t F) : t F :=
  let this := this <| vdd := lit 7 (-1) |> <| vth := lit 27852 (-5) |> <| phyGateLength := lit 18 (-9) |>
    <| capIdealGate := lit 554 (-12) |> <| capFringe := lit 2 (-10) |> <| capJunction := lit 1 (-3) |>
    <| capOx := lit 308 (-4) |> <| effectiveElectronMobility := lit 58162 (-6) |>
    <| effectiveHoleMobility := lit 1203 (-5) |> <| pnSizeRatio := lit 228 (-2) |>
    <| effectiveResistanceMultiplier := lit 173 (-2) |>
    <| currentOnNmos := points (dec [(7603, -1); (7504, -1); (7405, -1); (7307, -1); (7208, -1); (7109, -1); (7003, -1);
        (6876, -1); (6705, -1); (6474, -1); (6236, -1)]) (currentOnNmos this) |>
    <| currentOnPmos := points (dec [(8786, -1); (8651, -1); (8518, -1); (8387, -1); (8257, -1); (813, 0); (8003, -1);
        (7879, -1); (7755, -1); (763, 0); (7503, -1)]) (currentOnPmos this) |>
    <| currentOffNmos := points (dec [(357, -4); (421, -4); (491, -4); (568, -4); (651, -4); (742, -4); (843, -4);
        (957, -4); (11, -2); (128, -3); (148, -3)]) (currentOffNmos this) |> in
  this <| currentOffPmos := points (sample (currentOffNmos this)) (currentOffPmos this) |>.

(** [_featureSizeInNano >= 32], [EDRAM] *)
Definition EDRAM_32 (this : t F) : t F :=
  this <| vdd := lit 1 0 |> <| vpp := lit 15 (-1) |> <| vth := lit 44129 (-5) |> <| phyGateLength := lit 56 (-9) |>
    <| capIdealGate := lit 745 (-12) |> <| capFringe := lit 53 (-12) |> <| capJunction := lit 1 (-3) |>
    <| capOx := lit 148 (-4) |> <| effectiveElectronMobility := lit 40812 (-6) |>
    <| effectiveHoleMobility := lit 40812 (-6) |> <| pnSizeRatio := lit 205 (-2) |>
    <| effectiveResistanceMultiplier := lit 165 (-2) |>
    <| currentOnNmos := points (dec [(10554, -1); (10554, -1); (10554, -1); (10554, -1); (10554, -1); (10554, -1);
        (10554, -1); (10554, -1); (10554, -1); (10554, -1); (10554, -1)]) (currentOnNmos this) |>
    <| currentOnPmos := points (dec [(5277, -1); (5277, -1); (5277, -1); (5277, -1); (5277, -1); (5277, -1); (5277, -1);
        (5277, -1); (5277, -1); (5277, -1); (5277, -1)]) (currentOnPmos this) |>
    <| currentOffNmos := points (dec [(357, -7); (551, -7); (827, -7); (121, -6); (174, -6); (245, -6); (338, -6);
        (453, -6); (587, -6); (729, -6); (887, -6)]) (currentOffNmos this) |>
    <| currentOffPmos := points (dec [(357, -7); (551, -7); (827, -7); (121, -6); (174, -6); (245, -6); (338, -6);
        (453, -6); (587, -6); (729, -6); (887, -6)]) (currentOffPmos this) |>.

(** [_featureSizeInNano >= 22], [HP] *)
Definition HP_22 (this : t F) : t F :=
  let this := this <| vdd := lit 9 (-1) |> <| vth := lit 12872 (-5) |> <| phyGateLength := lit 1 (-8) |>
    <| capIdealGate := lit 383 (-12) |> <| capFringe := lit 16 (-11) |> <| capJunction := lit 0 0 |>
    <| capOx := lit 383 (-4) |> <| effectiveElectronMobility := lit 39726 (-6) |>
    <| effectiveHoleMobility := lit 836 (-5) |> <| pnSizeRatio := lit 2 0 |>
    <| effectiveResistanceMultiplier := lit 145 (-2) |>
    <| currentOnNmos := points (dec [(20299, -1); (20098, -1); (19896, -1); (19696, -1); (19498, -1); (19307, -1);
        (19105, -1); (1891, 0); (18717, -1); (18525, -1); (18344, -1)]) (currentOnNmos this) |> in
  let this := this
    <| currentOnPmos := points (map (fun i => (elt (currentOnNmos this) i / #2)%num) [0; 0; 10; 20; 30; 40; 50; 60; 70; 80; 90]%nat)
        (currentOnPmos this) |>
    <| currentOffNmos := points (scaled (lit 3930000 0) [(152, -9); (155, -9); (159, -9); (168, -9); (19, -8); (269, -9);
        (532, -9); (102, -8); (162, -8); (273, -8); (61, -7)]) (currentOffNmos this) |> in
  this <| currentOffPmos := points (sample (currentOffNmos this)) (currentOffPmos this) |>.

(** [_featureSizeInNano >= 22], [LSTP] *)
Definition LSTP_22 (this : t F) : t F :=
  let this := this <| vdd := lit 8 (-1) |> <| vth := lit 44571 (-5) |> <| phyGateLength := lit 16 (-9) |>
    <| capIdealGate := lit 425 (-12) |> <| capFringe := lit 2 (-10) |> <| capJunction := lit 0 0 |>
    <| capOx := lit 265 (-4) |> <| effectiveElectronMobility := lit 73129 (-6) |>
    <| effectiveHoleMobility := lit 11122 (-6) |> <| pnSizeRatio := lit 223 (-2) |>
    <| effectiveResistanceMultiplier := lit 199 (-2) |>
    <| currentOnNmos := points (dec [(7455, -1); (7352, -1); (7251, -1); (7152, -1); (7054, -1); (6957, -1); (6862, -1);
        (6769, -1); (6677, -1); (6587, -1); (6498, -1)]) (currentOnNmos this) |> in
  let this := this
    <| currentOnPmos := points (map (fun i => (elt (currentOnNmos this) i / #2)%num) [0; 0; 10; 20; 30; 40; 50; 60; 70; 80; 90]%nat)
        (currentOnPmos this) |>
    <| currentOffNmos := points (divided (lit 186 (-2)) [(302, -7); (451, -7); (657, -7); (935, -7); (131, -6);
        (179, -6); (241, -6); (319, -6); (415, -6); (529, -6); (658, -6)]) (currentOffNmos this) |> in
  this <| currentOffPmos := points (sample (currentOffNmos this)) (currentOffPmos this) |>.

(** [_featureSizeInNano >= 22], [LOP] *)
Definition LOP_22 (this : t F) : t F :=
  let this := this <| vdd := lit 5 (-1) |> <| vth := lit 21739 (-5) |> <| phyGateLength := lit 11 (-9) |>
    <| capIdealGate := lit 345 (-12) |> <| capFringe := lit 17 (-11) |> <| capJunction := lit 0 0 |>
    <| capOx := lit 314 (-4) |> <| effectiveElectronMobility := lit 74737 (-6) |>
    <| effectiveHoleMobility := lit 11835 (-6) |> <| pnSizeRatio := lit 228 (-2) |>
    <| effectiveResistanceMultiplier := lit 173 (-2) |>
    <| currentOnNmos := points (dec [(7161, -1); (7043, -1); (6926, -1); (6812, -1); (6699, -1); (6588, -1); (6479, -1);
        (6371, -1); (6265, -1); (616, 0); (6057, -1)]) (currentOnNmos this) |> in
  let this := this
    <| currentOnPmos := points (map (fun i => (elt (currentOnNmos this) i / #2)%num) [0; 0; 10; 20; 30; 40; 50; 60; 70; 80; 90]%nat)
        (currentOnPmos this) |>
    <| currentOffNmos := points (divided (lit 17 (-1)) [(357, -4); (421, -4); (491, -4); (568, -4); (651, -4); (742, -4);
        (843, -4); (957, -4); (11, -2); (128, -3); (148, -3)]) (currentOffNmos this) |> in
  this <| currentOffPmos := points (sample (currentOffNmos this)) (currentOffPmos this) |>.

(** [_featureSizeInNano >= 22], [EDRAM] *)
Definition EDRAM_22 (this : t F) : t F :=
  this <| vdd := lit 9 (-1) |> <| vpp := lit 14 (-1) |> <| vth := lit 436835 (-6) |>
    <| phyGateLength := lit 1 (-8) |> <| capIdealGate := lit 522 (-12) |> <| capFringe := lit 8 (-12) |>
    <| capJunction := lit 1 (-3) |> <| capOx := lit 158 (-4) |> <| effectiveElectronMobility := lit 459295 (-7) |>
    <| effectiveHoleMobility := lit 459295 (-7) |> <| pnSizeRatio := lit 21 (-1) |>
    <| effectiveResistanceMultiplier := lit 165 (-2) |>
    <| currentOnNmos := points (dec [(11226, -1); (11226, -1); (11226, -1); (11226, -1); (11226, -1); (11226, -1);
        (11226, -1); (11226, -1); (11226, -1); (11226, -1); (11226, -1)]) (currentOnNmos this) |>
    <| currentOnPmos := points (dec [(54005, -2); (54005, -2); (54005, -2); (54005, -2); (54005, -2); (54005, -2);
        (54005, -2); (54005, -2); (54005, -2); (54005, -2); (54005, -2)]) (currentOnPmos this) |>
    <| currentOffNmos := points (dec [(466, -7); (636, -7); (952, -7); (139, -6); (2, -4); (281, -6); (386, -6);
        (518, -6); (672, -6); (836, -6); (102, -5)]) (currentOffNmos this) |>
    <| currentOffPmos := points (dec [(466, -7); (636, -7); (952, -7); (139, -6); (2, -4); (281, -6); (386, -6);
        (518, -6); (672, -6); (836, -6); (103, -5)]) (currentOffPmos this) |>.

(** [_featureSizeInNano >= 14], every roadmap but [HP] *)
Definition FinFET_14 (this : t F) : t F :=
  let this := this <| vdd := lit 8 (-1) |> <| vth := elt vth_list 0 |> <| heightFin := lit 42 (-9) |>
    <| widthFin := lit 8 (-9) |> <| PitchFin := lit 48 (-9) |> <| max_fin_num := lit 4 0 |> in
  let this := this <| effective_width := (widthFin this + heightFin this * lit 2 0)%num |>
    <| phyGateLength := lit 26 (-9) |> in
  let this := this <| capIdealGate := (elt caplist 0 * lit 1 (-18) / effective_width this)%num |> in
  let this := this <| cap_draintotal := (elt cap_draintotallist 0 / effective_width this)%num |>
    <| capFringe := lit 0 0 |> <| effectiveResistanceMultiplier := elt eff_res_mul 0 |>
    <| current_gmNmos := elt gm 0 |> <| current_gmPmos := elt gm 0 |> <| gm_oncurrent := elt gm 0 |>
    <| currentOnNmos := points (replicate 11 (elt currentlist 0)) (currentOnNmos this) |> in
  let this := this <| currentOnPmos := points (replicate 11 (elt (currentOnNmos this) 0)) (currentOnPmos this) |>
    <| currentOffNmos := points (elt currentlist_off 0 :: dec [(1844553, -10); (3287707, -10); (5668658, -10);
        (9481816, -10); (15425, -7); (2446, -6); (37885, -7); (57416, -7); (85281, -7); (124327, -7)]) (currentOffNmos this) |>
    <| currentOffPmos := points (dec [(1023333, -10); (2034774, -10); (3890187, -10); (7175912, -10); (1281, -6);
        (22192, -7); (37395, -7); (61428, -7); (98554, -7); (154702, -7); (237959, -7)]) (currentOffPmos this) |> in
  this <| pnSizeRatio := of_Z (trunc (elt (currentOnNmos this) 0 / elt (currentOnPmos this) 0)%num) |>.

(** [_featureSizeInNano >= 10], every roadmap but [HP] *)
Definition FinFET_10 (this : t F) : t F :=
  let this := this <| vdd := lit 75 (-2) |> <| vth := elt vth_list 1 |> <| heightFin := lit 45 (-9) |>
    <| widthFin := lit 8 (-9) |> <| PitchFin := lit 36 (-9) |> <| max_fin_num := lit 3 0 |> in
  let this := this <| effective_width := (widthFin this + heightFin this * lit 2 0)%num |>
    <| phyGateLength := lit 22 (-9) |> in
  let this := this <| capIdealGate := (elt caplist 1 * lit 1 (-18) / effective_width this)%num |> in
  let this := this <| cap_draintotal := (elt cap_draintotallist 1 / effective_width this)%num |>
    <| capFringe := lit 0 0 |> <| effectiveResistanceMultiplier := elt eff_res_mul 1 |>
    <| current_gmNmos := elt gm 1 |> <| current_gmPmos := elt gm 1 |> <| gm_oncurrent := elt gm 1 |>
    <| currentOnNmos := points (replicate 11 (elt currentlist 1)) (currentOnNmos this) |> in
  let this := this <| currentOnPmos := points (replicate 11 (elt (currentOnNmos this) 0)) (currentOnPmos this) |>
    <| currentOffNmos := points (elt currentlist_off 1 :: dec [(1844892, -10); (3291615, -10); (5680731, -10);
        (9510401, -10); (15484, -7); (24574, -7); (3809, -6); (57767, -7); (85862, -7); (12525, -6)]) (currentOffNmos this) |>
    <| currentOffPmos := points (dec [(1005839, -10); (2002609, -10); (3833239, -10); (7078499, -10); (12649, -7);
        (21932, -7); (36987, -7); (60804, -7); (97622, -7); (15334, -6); (236007, -7)]) (currentOffPmos this) |> in
  this <| pnSizeRatio := of_Z (trunc (elt (currentOnNmos this) 0 / elt (currentOnPmos this) 0)%num) |>.

(** [_featureSizeInNano >= 7], every roadmap but [HP] *)
Definition FinFET_7 (this : t F) : t F :=
  let this := this <| vdd := lit 7 (-1) |> <| vth := elt vth_list 2 |> <| heightFin := lit 5 (-8) |>
    <| widthFin := lit 7 (-9) |> <| PitchFin := lit 3 (-8) |> <| max_fin_num := lit 2 0 |>
    <| effective_width := lit 107 (-9) |> <| phyGateLength := lit 22 (-9) |> in
  let this := this <| capIdealGate := (elt caplist 2 * lit 1 (-18) / effective_width this)%num |> in
  let this := this <| cap_draintotal := (elt cap_draintotallist 2 / effective_width this)%num |>
    <| capFringe := lit 0 0 |> <| effectiveResistanceMultiplier := elt eff_res_mul 2 |>
    <| current_gmNmos := elt gm 2 |> <| current_gmPmos := elt gm 2 |> <| gm_oncurrent := elt gm 2 |>
    <| currentOnNmos := points (replicate 11 (elt currentlist 2)) (currentOnNmos this) |> in
  let this := this <| currentOnPmos := points (replicate 11 (elt (currentOnNmos this) 0)) (currentOnPmos this) |>
    <| currentOffNmos := points (elt currentlist_off 2 :: dec [(185, -6); (332, -6); (574, -6); (962, -6); (15695, -7);
        (24953, -7); (38744, -7); (58858, -7); (87624, -7); (128025, -7)]) (currentOffNmos this) |>
    <| currentOffPmos := points (dec [(1009536, -10); (2013937, -10); (3862086, -10); (7144288, -10); (12788, -7);
        (22207, -7); (37509, -7); (6175, -6); (99278, -7); (156146, -7); (240633, -7)]) (currentOffPmos this) |> in
  this <| pnSizeRatio := of_Z (trunc (elt (currentOnNmos this) 0 / elt (currentOnPmos this) 0)%num) |>.

(** [_featureSizeInNano >= 5], every roadmap but [HP] *)
Definition FinFET_5 (this : t F) : t F :=
  let this := this <| vdd := lit 7 (-1) |> <| vth := elt vth_list 3 |> <| widthFin := lit 6 (-9) |>
    <| PitchFin := lit 28 (-9) |> <| phyGateLength := lit 2 (-8) |>
    <| effective_width := (lit 106 0 * lit 1 (-9))%num |> <| max_fin_num := lit 2 0 |> in
  let this := this <| capIdealGate := (elt caplist 3 * lit 1 (-18) / effective_width this)%num |> in
  let this := this <| cap_draintotal := (elt cap_draintotallist 3 / effective_width this)%num |>
    <| capFringe := lit 0 0 |> <| effectiveResistanceMultiplier := elt eff_res_mul 3 |>
    <| current_gmNmos := elt gm 3 |> <| current_gmPmos := elt gm 3 |> <| gm_oncurrent := elt gm 3 |>
    <| currentOnNmos := points (replicate 11 (elt currentlist 3)) (currentOnNmos this) |> in
  let this := this <| currentOnPmos := points (replicate 11 (elt (currentOnNmos this) 0)) (currentOnPmos this) |>
    <| currentOffNmos := points (elt currentlist_off 3 :: dec [(185, -6); (332, -6); (574, -6); (962, -6); (15695, -7);
        (24953, -7); (38744, -7); (58858, -7); (87624, -7); (128025, -7)]) (currentOffNmos this) |>
    <| currentOffPmos := points (dec [(1009536, -10); (2013937, -10); (3862086, -10); (7144288, -10); (12788, -7);
        (22207, -7); (37509, -7); (6175, -6); (99278, -7); (156146, -7); (240633, -7)]) (currentOffPmos this) |> in
  this <| pnSizeRatio := of_Z (trunc (elt (currentOnNmos this) 0 / elt (currentOnPmos this) 0)%num) |>.

(** [_featureSizeInNano >= 3], every roadmap but [HP] *)
Definition FinFET_3 (this : t F) : t F :=
  let this := this <| vdd := lit 7 (-1) |> <| vth := elt vth_list 4 |> <| widthFin := lit 5 (-9) |>
    <| PitchFin := lit 24 (-9) |> <| phyGateLength := lit 18 (-9) |>
    <| effective_width := (lit 101 0 * lit 1 (-9))%num |> <| max_fin_num := lit 2 0 |> in
  let this := this <| capIdealGate := (elt caplist 4 * lit 1 (-18) / effective_width this)%num |> in
  let this := this <| cap_draintotal := (elt cap_draintotallist 4 / effective_width this)%num |>
    <| capFringe := lit 0 0 |> <| effectiveResistanceMultiplier := elt eff_res_mul 4 |>
    <| current_gmNmos := elt gm 4 |> <| current_gmPmos := elt gm 4 |> <| gm_oncurrent := elt gm 4 |>
    <| currentOnNmos := points (replicate 11 (elt currentlist 4)) (currentOnNmos this) |> in
  let this := this <| currentOnPmos := points (replicate 11 (elt (currentOnNmos this) 0)) (currentOnPmos this) |>
    <| currentOffNmos := points (elt currentlist_off 4 :: dec [(185, -6); (332, -6); (574, -6); (962, -6); (15695, -7);
        (24953, -7); (38744, -7); (58858, -7); (87624, -7); (128025, -7)]) (currentOffNmos this) |>
    <| currentOffPmos := points (dec [(1009536, -10); (2013937, -10); (3862086, -10); (7144288, -10); (12788, -7);
        (22207, -7); (37509, -7); (6175, -6); (99278, -7); (156146, -7); (240633, -7)]) (currentOffPmos this) |> in
  this <| pnSizeRatio := of_Z (trunc (elt (currentOnNmos this) 0 / elt (currentOnPmos this) 0)%num) |>.

(** [_featureSizeInNano >= 2], every roadmap but [HP] *)
Definition GAA_2 (this : t F) : t F :=
  let this := this <| vdd := lit 65 (-2) |> <| vth := elt vth_list 5 |> <| PitchFin := lit 26 (-9) |>
    <| phyGateLength := lit 14 (-9) |> <| max_fin_per_GAA := lit 1 0 |> <| max_sheet_num := lit 3 0 |>
    <| thickness_sheet := (lit 6 0 * lit 1 (-9))%num |> <| width_sheet := (lit 15 0 * lit 1 (-9))%num |> in
  let this := this <| widthFin := width_sheet this |> in
  let this := this <| effective_width := ((thickness_sheet this + width_sheet this) * lit 2 0)%num |> in
  let this := this
    <| capIdealGate := (elt caplist 5 * lit 1 (-18) / (effective_width this * max_sheet_num this))%num |> in
  let this := this <| cap_draintotal := (elt cap_draintotallist 5 / effective_width this)%num |>
    <| capFringe := lit 0 0 |> <| effectiveResistanceMultiplier := elt eff_res_mul 5 |>
    <| current_gmNmos := elt gm 5 |> <| current_gmPmos := elt gm 5 |> <| gm_oncurrent := elt gm 5 |>
    <| currentOnNmos := points (replicate 11 (elt currentlist 5)) (currentOnNmos this) |> in
  let this := this <| currentOnPmos := points (replicate 11 (elt (currentOnNmos this) 0)) (currentOnPmos this) |>
    <| currentOffNmos := points (elt currentlist_off 5 :: dec [(185, -6); (332, -6); (574, -6); (962, -6); (15695, -7);
        (24953, -7); (38744, -7); (58858, -7); (87624, -7); (128025, -7)]) (currentOffNmos this) |>
    <| currentOffPmos := points (dec [(1009536, -10); (2013937, -10); (3862086, -10); (7144288, -10); (12788, -7);
        (22207, -7); (37509, -7); (6175, -6); (99278, -7); (156146, -7); (240633, -7)]) (currentOffPmos this) |> in
  this <| pnSizeRatio := of_Z (trunc (elt (currentOnNmos this) 0 / elt (currentOnPmos this) 0)%num) |>.

(** [_featureSizeInNano >= 1], every roadmap but [HP] *)
Definition GAA_1 (this : t F) : t F :=
  let this := this <| vdd := lit 6 (-1) |> <| vth := elt vth_list 6 |> <| PitchFin := lit 24 (-9) |>
    <| phyGateLength := lit 12 (-9) |> <| max_fin_per_GAA := lit 1 0 |> <| max_sheet_num := lit 4 0 |>
    <| thickness_sheet := (lit 6 0 * lit 1 (-9))%num |> <| width_sheet := (lit 10 0 * lit 1 (-9))%num |> in
  let this := this <| widthFin := width_sheet this |> in
  let this := this <| effective_width := ((thickness_sheet this + width_sheet this) * lit 2 0)%num |> in
  let this := this
    <| capIdealGate := (elt caplist 6 * lit 1 (-18) / (effective_width this * max_sheet_num this))%num |> in
  let this := this <| cap_draintotal := (elt cap_draintotallist 6 / effective_width this)%num |>
    <| capFringe := lit 0 0 |> <| effectiveResistanceMultiplier := elt eff_res_mul 6 |>
    <| current_gmNmos := elt gm 6 |> <| current_gmPmos := elt gm 6 |> <| gm_oncurrent := elt gm 6 |>
    <| currentOnNmos := points (replicate 11 (elt currentlist 6)) (currentOnNmos this) |> in
  let this := this <| currentOnPmos := points (replicate 11 (elt (currentOnNmos this) 0)) (currentOnPmos this) |>
    <| currentOffNmos := points (elt currentlist_off 6 :: dec [(185, -6); (332, -6); (574, -6); (962, -6); (15695, -7);
        (24953, -7); (38744, -7); (58858, -7); (87624, -7); (128025, -7)]) (currentOffNmos this) |>
    <| currentOffPmos := points (dec [(1009536, -10); (2013937, -10); (3862086, -10); (7144288, -10); (12788, -7);
        (22207, -7); (37509, -7); (6175, -6); (99278, -7); (156146, -7); (240633, -7)]) (currentOffPmos this) |> in
  this <| pnSizeRatio := of_Z (trunc (elt (currentOnNmos this) 0 / elt (currentOnPmos this) 0)%num) |>.

(** ** Vertical connections *)

(** [table[i][j] = x] *)
Definition set2 (i j : Z) (x : F) (table : Z -> Z -> F) : Z -> Z -> F :=
  fun a b => if (a =? i) && (b =? j) then x else table a b.

(** The seven assignments of one projection and type, in the order of the code. *)
Definition set_via (i j : Z) (pitch diameter length dielec contact depletion liner : F) (this : t F) : t F :=
  this
    <| tsv_pitch := set2 i j pitch (tsv_pitch this) |>
    <| tsv_diameter := set2 i j diameter (tsv_diameter this) |>
    <| tsv_length := set2 i j length (tsv_length this) |>
    <| tsv_dielec_thickness := set2 i j dielec (tsv_dielec_thickness this) |>
    <| tsv_contact_resistance := set2 i j contact (tsv_contact_resistance this) |>
    <| tsv_depletion_width := set2 i j depletion (tsv_depletion_width this) |>
    <| tsv_liner_dielectric_constant := set2 i j liner (tsv_liner_dielectric_constant this) |>.

(** [_featureSizeInNano >= 180] *)
Definition vias_180 (this : t F) : t F :=
  let this := set_via 0 0 (lit 56 (-1)) (lit 28 (-1)) (lit 10 0) (lit 1 (-1)) (lit 1 (-1)) (lit 6 (-1)) (lit 33012 (-4)) this in
  let this := set_via 1 0 (lit 888 (-2)) (lit 446 (-2)) (lit 40 0) (lit 1 (-1)) (lit 1 (-1)) (lit 6 (-1)) (lit 34652 (-4)) this in
  let this := set_via 0 1 (lit 586 (-1)) (lit 712 (-2)) (lit 77 0) (lit 26 (-2)) (lit 26 (-2)) (lit 6 (-1)) (lit 33012 (-4)) this in
  set_via 1 1 (lit 104 0) (lit 1154 (-2)) (lit 85 0) (lit 68 (-2)) (lit 2 (-1)) (lit 6 (-1)) (lit 34652 (-4)) this.

(** [_featureSizeInNano >= 120] *)
Definition vias_120 (this : t F) : t F :=
  let this := set_via 0 0 (lit 478 (-2)) (lit 239 (-2)) (lit 9 0) (lit 1 (-1)) (lit 1 (-1)) (lit 6 (-1)) (lit 29783 (-4)) this in
  let this := set_via 1 0 (lit 77 (-1)) (lit 387 (-2)) (lit 35 0) (lit 1 (-1)) (lit 1 (-1)) (lit 6 (-1)) (lit 32264 (-4)) this in
  let this := set_via 0 1 (lit 499 (-1)) (lit 641 (-2)) (lit 68 0) (lit 24 (-2)) (lit 24 (-2)) (lit 6 (-1)) (lit 29783 (-4)) this in
  set_via 1 1 (lit 91 0) (lit 1141 (-2)) (lit 775 (-1)) (lit 62 (-2)) (lit 2 (-1)) (lit 6 (-1)) (lit 32264 (-4)) this.

(** [_featureSizeInNano >= 90] *)
Definition vias_90 (this : t F) : t F :=
  let this := set_via 0 0 (lit 4 0) (lit 2 0) (lit 8 0) (lit 1 (-1)) (lit 1 (-1)) (lit 6 (-1)) (lit 2709 (-3)) this in
  let this := set_via 1 0 (lit 69 (-1)) (lit 35 (-1)) (lit 30 0) (lit 1 (-1)) (lit 1 (-1)) (lit 6 (-1)) (lit 3038 (-3)) this in
  let this := set_via 0 1 (lit 45 0) (lit 69 (-1)) (lit 60 0) (lit 2 (-1)) (lit 2 (-1)) (lit 6 (-1)) (lit 2709 (-3)) this in
  set_via 1 1 (lit 90 0) (lit 113 (-1)) (lit 75 0) (lit 5 (-1)) (lit 2 (-1)) (lit 6 (-1)) (lit 3038 (-3)) this.

(** [_featureSizeInNano >= 65] *)
Definition vias_65 (this : t F) : t F :=
  let this := set_via 0 0 (lit 32 (-1)) (lit 16 (-1)) (lit 7 0) (lit 1 (-1)) (lit 1 (-1)) (lit 6 (-1)) (lit 2303 (-3)) this in
  let this := set_via 1 0 (lit 5 0) (lit 25 (-1)) (lit 25 0) (lit 1 (-1)) (lit 1 (-1)) (lit 6 (-1)) (lit 2734 (-3)) this in
  let this := set_via 0 1 (lit 30 0) (lit 46 (-1)) (lit 50 0) (lit 2 (-1)) (lit 2 (-1)) (lit 6 (-1)) (lit 2303 (-3)) this in
  set_via 1 1 (lit 60 0) (lit 75 (-1)) (lit 625 (-1)) (lit 5 (-1)) (lit 2 (-1)) (lit 6 (-1)) (lit 2734 (-3)) this.

(** [_featureSizeInNano >= 45] *)
Definition vias_45 (this : t F) : t F :=
  let this := set_via 0 0 (lit 22 (-1)) (lit 11 (-1)) (lit 6 0) (lit 1 (-1)) (lit 1 (-1)) (lit 6 (-1)) (lit 1958 (-3)) this in
  let this := set_via 1 0 (lit 34 (-1)) (lit 17 (-1)) (lit 20 0) (lit 1 (-1)) (lit 1 (-1)) (lit 6 (-1)) (lit 246 (-2)) this in
  let this := set_via 0 1 (lit 20 0) (lit 31 (-1)) (lit 40 0) (lit 2 (-1)) (lit 2 (-1)) (lit 6 (-1)) (lit 1958 (-3)) this in
  set_via 1 1 (lit 40 0) (lit 5 0) (lit 50 0) (lit 5 (-1)) (lit 2 (-1)) (lit 6 (-1)) (lit 246 (-2)) this.

(** [_featureSizeInNano >= 32] *)
Definition vias_32 (this : t F) : t F :=
  let this := set_via 0 0 (lit 14 (-1)) (lit 7 (-1)) (lit 5 0) (lit 1 (-1)) (lit 1 (-1)) (lit 6 (-1)) (lit 1664 (-3)) this in
  let this := set_via 1 0 (lit 4 0) (lit 2 0) (lit 15 0) (lit 1 (-1)) (lit 1 (-1)) (lit 6 (-1)) (lit 2214 (-3)) this in
  let this := set_via 0 1 (lit 15 0) (lit 23 (-1)) (lit 30 0) (lit 2 (-1)) (lit 2 (-1)) (lit 6 (-1)) (lit 1664 (-3)) this in
  set_via 1 1 (lit 30 0) (lit 38 (-1)) (lit 375 (-1)) (lit 5 (-1)) (lit 2 (-1)) (lit 6 (-1)) (lit 2214 (-3)) this.

(** [_featureSizeInNano >= 22] *)
Definition vias_22 (this : t F) : t F :=
  let this := set_via 0 0 (lit 8 (-1)) (lit 4 (-1)) (lit 4 0) (lit 1 (-1)) (lit 1 (-1)) (lit 6 (-1)) (lit 1414 (-3)) this in
  let this := set_via 1 0 (lit 15 (-1)) (lit 8 (-1)) (lit 10 0) (lit 1 (-1)) (lit 1 (-1)) (lit 6 (-1)) (lit 2104 (-3)) this in
  let this := set_via 0 1 (lit 9 0) (lit 45 (-1)) (lit 25 0) (lit 1 (-1)) (lit 1 (-1)) (lit 6 (-1)) (lit 1414 (-3)) this in
  set_via 1 1 (lit 40 0) (lit 75 (-1)) (lit 50 0) (lit 2 (-1)) (lit 2 (-1)) (lit 6 (-1)) (lit 2104 (-3)) this.

(** [_featureSizeInNano >= 1] *)
Definition vias_1 (this : t F) : t F :=
  let this := set_via 0 0 (lit 4 0) (lit 1 0) (lit 10 0) (lit 1 (-1)) (lit 7 (-1)) (lit 6 (-1)) (lit 24 (-1)) this in
  let this := set_via 1 0 (lit 10 0) (lit 45 (-1)) (lit 50 0) (lit 2 (-1)) (lit 9 (-1)) (lit 6 (-1)) (lit 255 (-2)) this in
  let this := set_via 0 1 (lit 4 0) (lit 1 0) (lit 10 0) (lit 1 (-1)) (lit 7 (-1)) (lit 6 (-1)) (lit 24 (-1)) this in
  let this := set_via 1 1 (lit 10 0) (lit 45 (-1)) (lit 50 0) (lit 2 (-1)) (lit 9 (-1)) (lit 6 (-1)) (lit 255 (-2)) this in
  let this := set_via 0 2 (lit 1 (-1)) (lit 5 (-2)) (lit 1 (-1)) (lit 1 (-2)) (lit 1 0) (lit 6 (-1)) (lit 255 (-2)) this in
  set_via 1 2 (lit 1 (-1)) (lit 5 (-2)) (lit 1 (-1)) (lit 1 (-2)) (lit 1 0) (lit 6 (-1)) (lit 255 (-2)) this.

End Tables.

End TechTables.
