(* ===== verification/Technology.v ===== *)
(** * Initialisation of a process technology

    Technology.cpp ([Technology::Technology], [Technology::Initialize]) and
    main.cpp ([initializeTechnology]) over the tables of [TechTables]: the
    choice of the device and via tables of a node, the parameters derived from
    them, the interpolation of the current tables over the temperature, and the
    blend with the next larger node.  An object starts as [raw] storage; the
    fields the constructor and the tables do not set keep what it held. *)
From S2P Require Import Prelude Numeric Types InputParameter Process Formula TechTables.
From stdpp Require Import base list strings.
From Stdlib Require Import ZArith.
Open Scope Z_scope.

Module Technology.
Import Process TechTables.

Section Operations.
Context {F : Type} `{Num F}.

(** Technology::Technology, with the member initialisers of Technology.h *)
Definition Technology (raw : t F) : t F :=
  raw
    <| max_sheet_num := of_Z 0 |> <| thickness_sheet := of_Z 0 |> <| width_sheet := of_Z 0 |>
    <| effective_width := of_Z 0 |> <| max_fin_num := of_Z 0 |> <| max_fin_per_GAA := of_Z 0 |>
    <| gm_oncurrent := of_Z 0 |> <| cap_draintotal := of_Z 0 |>
    <| initialized := false |> <| layerCount := 0 |>.

Definition unknown_roadmap : Outcome (t F) := Exit "Unknown device roadmap!".

(** A node with the three logic roadmaps, and one with the embedded DRAM too. *)
Definition roadmap3 (hp lstp lop : t F -> t F) (_deviceRoadmap : DeviceRoadmap) (this : t F) : Outcome (t F) :=
  match _deviceRoadmap with
  | HP => Ret (hp this)
  | LSTP => Ret (lstp this)
  | LOP => Ret (lop this)
  | _ => unknown_roadmap
  end.

Definition roadmap4 (hp lstp lop edram : t F -> t F) (_deviceRoadmap : DeviceRoadmap) (this : t F) : Outcome (t F) :=
  match _deviceRoadmap with
  | HP => Ret (hp this)
  | LSTP => Ret (lstp this)
  | LOP => Ret (lop this)
  | EDRAM => Ret (edram this)
  | _ => unknown_roadmap
  end.

(** A node of 14 nm or less. *)
Definition advanced (fins : t F -> t F) (this : t F) : Outcome (t F) :=
  match deviceRoadmap this with
  | HP => Exit "HP for 14 nm and beyond is not supported"
  | _ => Ret (fins this)
  end.

(** The device table of a node. *)
Definition devices (_featureSizeInNano : Z) (_deviceRoadmap : DeviceRoadmap) (this : t F) : Outcome (t F) :=
  if 180 <=? _featureSizeInNano then roadmap3 HP_180 LSTP_180 LOP_180 _deviceRoadmap this
  else if 120 <=? _featureSizeInNano then roadmap3 HP_120 LSTP_120 LOP_120 _deviceRoadmap this
  else if 90 <=? _featureSizeInNano then roadmap4 HP_90 LSTP_90 LOP_90 EDRAM_90 _deviceRoadmap this
  else if 65 <=? _featureSizeInNano then roadmap4 HP_65 LSTP_65 LOP_65 EDRAM_65 _deviceRoadmap this
  else if 45 <=? _featureSizeInNano then roadmap4 HP_45 LSTP_45 LOP_45 EDRAM_45 _deviceRoadmap this
  else if 32 <=? _featureSizeInNano then roadmap4 HP_32 LSTP_32 LOP_32 EDRAM_32 _deviceRoadmap this
  else if 22 <=? _featureSizeInNano then roadmap4 HP_22 LSTP_22 LOP_22 EDRAM_22 _deviceRoadmap this
  else if 14 <=? featureSizeInNano this then advanced FinFET_14 this
  else if 10 <=? featureSizeInNano this then advanced FinFET_10 this
  else if 7 <=? featureSizeInNano this then advanced FinFET_7 this
  else if 5 <=? featureSizeInNano this then advanced FinFET_5 this
  else if 3 <=? featureSizeInNano this then advanced FinFET_3 this
  else if 2 <=? featureSizeInNano this then advanced GAA_2 this
  else if 1 <=? featureSizeInNano this then advanced GAA_1 this
  else Exit "Error: CMOS Technology node is not supported".

(** The via table of a node. *)
Definition vias (_featureSizeInNano : Z) (this : t F) : t F :=
  if 180 <=? _featureSizeInNano then vias_180 this
  else if 120 <=? _featureSizeInNano then vias_120 this
  else if 90 <=? _featureSizeInNano then vias_90 this
  else if 65 <=? _featureSizeInNano then vias_65 this
  else if 45 <=? _featureSizeInNano then vias_45 this
  else if 32 <=? _featureSizeInNano then vias_32 this
  else if 22 <=? _featureSizeInNano then vias_22 this
  else if 1 <=? _featureSizeInNano then vias_1 this
  else this.

(** Word-line voltage and overlap capacitance. *)
Definition wordline_voltage (_deviceRoadmap : DeviceRoadmap) (this : t F) : t F :=
  if decide (_deviceRoadmap <> EDRAM) then this <| vpp := vdd this |>
  else if (vpp this =? #0)%num then this <| vpp := (vdd this + lit 5 (-1))%num |>
  else this.

Definition overlap (_featureSizeInNano : Z) (this : t F) : t F :=
  if 22 <=? _featureSizeInNano then this <| capOverlap := (capIdealGate this * lit 2 (-1))%num |>
  else this <| capOverlap := of_Z 0 |>.

(** Junction capacitances and saturation voltages. *)
Definition junctions (_featureSizeInNano : Z) (this : t F) : t F :=
  let cjd := lit 1 (-3) in
  let cjswd := lit 25 (-11) in
  let cjswgd := lit 5 (-11) in
  let mjd := lit 5 (-1) in
  let mjswd := lit 33 (-2) in
  let mjswgd := lit 33 (-2) in
  let this := this <| buildInPotential := lit 9 (-1) |> in
  let base := (#1 + vdd this / buildInPotential this)%num in
  this
    <| capJunction :=
         if _featureSizeInNano =? 14 then lit 12 (-3)
         else if _featureSizeInNano =? 10 then lit 134 (-4)
         else if _featureSizeInNano =? 7 then lit 137 (-4)
         else if _featureSizeInNano =? 5 then lit 119 (-4)
         else if _featureSizeInNano =? 3 then lit 128 (-4)
         else if _featureSizeInNano =? 2 then lit 91 (-4)
         else if _featureSizeInNano =? 1 then lit 102 (-4)
         else (cjd / npow base mjd)%num |>
    <| capSidewall := (cjswd / npow base mjswd)%num |>
    <| capDrainToChannel := (cjswgd / npow base mjswgd)%num |>
    <| vdsatNmos := (phyGateLength this * lit 1 5 / effectiveElectronMobility this)%num |>
    <| vdsatPmos := (phyGateLength this * lit 1 5 / effectiveHoleMobility this)%num |>
    <| capPolywire := lit 0 0 |>.

(** One turn of [for (int i = 1; i < 100; i++)] over a current table, and the loop. *)
Definition interpolate_step (l : list F) (i : nat) : list F :=
  if Nat.eqb (i mod 10) 0 then l
  else
    let a := elt l (i / 10 * 10) in
    let b := elt l (i / 10 * 10 + 10) in
    <[i := (a + (b - a) * #(Z.of_nat (i mod 10)) / #10)%num]> l.

Definition interpolate (l : list F) : list F := foldl interpolate_step l (seq 1 99).

(** The four loops. *)
Definition temperatures (this : t F) : t F :=
  this
    <| currentOnNmos := interpolate (currentOnNmos this) |>
    <| currentOnPmos := interpolate (currentOnPmos this) |>
    <| currentOffNmos := interpolate (currentOffNmos this) |>
    <| currentOffPmos := interpolate (currentOffPmos this) |>.

(** An access outside a via table has no meaning. *)
Definition defined {A : Type} (m : Init A) : Outcome A :=
  match m with Done a => Ret a | _ => Exit Formula.undefined end.

(** Technology::Initialize *)
Definition Initialize (ip : InputParameter.t F) (_featureSizeInNano : Z) (_deviceRoadmap : DeviceRoadmap) (this : t F) : Outcome (t F) :=
  let this := this
    <| featureSizeInNano := _featureSizeInNano |>
    <| featureSize := (#_featureSizeInNano * lit 1 (-9))%num |>
    <| deviceRoadmap := _deviceRoadmap |>
    <| vpp := of_Z 0 |> in
  let? this := devices _featureSizeInNano _deviceRoadmap this in
  let? this := defined (SetLayerCount ip 2 (vias _featureSizeInNano this)) in
  let this := temperatures (junctions _featureSizeInNano
    (overlap _featureSizeInNano (wordline_voltage _deviceRoadmap this))) in
  Ret (this <| neurosim_wiring := true |> <| initialized := true |>).

(** main.cpp, [initializeTechnology]: [target] is an object the caller made,
    [raw] the storage of the local object [techHigh]. *)
Definition initializeTechnology (ip : InputParameter.t F) (raw : t F) (processNode : Z) (_deviceRoadmap : DeviceRoadmap)
  (target : t F) : Outcome (t F) :=
  let? target := Initialize ip processNode _deviceRoadmap target in
  match blend processNode with
  | Some (high, alpha) =>
      let? techHigh := Initialize ip high _deviceRoadmap (Technology raw) in
      Ret (InterpolateWith target techHigh alpha)
  | None => Ret target
  end.

End Operations.

End Technology.
