(* ===== verification/TechFacts.v ===== *)
(** * Facts about the device tables

    The interpolated current tables do not depend on what the storage held; at
    exact reals every table of every node is positive; the device parameters of
    each node lie in the ranges the circuit models rely on. *)
From S2P Require Import Prelude Numeric RealNum Types InputParameter Process Formula FormulaFacts TechTables Technology.
From stdpp Require Import base list strings.
From Stdlib Require Import ZArith Lia Reals Lra.

Module TechFacts.
Import Process FormulaFacts TechTables Technology.

(** ** Interpolation over the temperature *)
Section Interpolation.
Context {F : Type} `{Num F}.
Open Scope nat_scope.

Lemma elt_lookup (l : list F) i : i < length l -> l !! i = Some (elt l i).
Proof. intros Hi. unfold elt. rewrite nth_lookup. by destruct (lookup_lt_is_Some_2 l i Hi) as [x ->]. Qed.

Lemma elt_insert (l : list F) i j x : i < length l -> elt (<[i := x]> l) j = if decide (i = j) then x else elt l j.
Proof.
  intros Hi. unfold elt. rewrite !nth_lookup. destruct (decide (i = j)) as [<-|Hne].
  - by rewrite list_lookup_insert_eq.
  - by rewrite list_lookup_insert_ne.
Qed.

Lemma points_from_length i (l a : list F) : length (points_from i l a) = length a.
Proof. revert i a. induction l as [|x l IH]; intros i a; [done|]. cbn [points_from]. by rewrite IH, length_insert. Qed.

Lemma points_length (l a : list F) : length (points l a) = length a.
Proof. apply points_from_length. Qed.

(** Writing from [i] on leaves what is before it, and reaches every tenth index. *)
Lemma points_from_before i (l a : list F) j : j < i -> i + 10 * length l <= length a + 9 -> elt (points_from i l a) j = elt a j.
Proof.
  revert i a. induction l as [|x l IH]; intros i a Hj Hl; [done|]. cbn [points_from length] in *.
  rewrite IH by (rewrite ?length_insert; lia). rewrite elt_insert by lia. by case_decide; [lia|].
Qed.

Lemma points_from_elt i (l a : list F) k : k < length l -> i + 10 * length l <= length a + 9 ->
  elt (points_from i l a) (i + 10 * k) = elt l k.
Proof.
  revert i a k. induction l as [|x l IH]; intros i a k Hk Hl; cbn [length] in *; [lia|]. cbn [points_from].
  destruct k as [|k].
  - rewrite points_from_before by (rewrite ?length_insert; lia). rewrite elt_insert by lia.
    by rewrite decide_True by lia.
  - replace (i + 10 * S k) with (10 + i + 10 * k) by lia. rewrite IH by (rewrite ?length_insert; lia). done.
Qed.

Lemma points_elt (l a : list F) k : length l = 11 -> length a = 101 -> k <= 10 -> elt (points l a) (10 * k) = elt l k.
Proof. intros Hl Ha Hk. apply (points_from_elt 0 l a k); lia. Qed.

Lemma elt_cons (x : F) l k : elt (x :: l) (S k) = elt l k.
Proof. done. Qed.

Lemma elt_list (l : list F) : l = map (elt l) (seq 0 (length l)).
Proof.
  induction l as [|x l IH]; [done|]. cbn [length seq map]. change (elt (x :: l) 0) with x. f_equal.
  rewrite <- seq_shift, map_map. rewrite IH at 1. apply map_ext. intros k. by rewrite elt_cons.
Qed.

Lemma sample_points (l a : list F) : length l = 11 -> length a = 101 -> sample (points l a) = l.
Proof.
  intros Hl Ha. transitivity (map (elt l) (seq 0 11)); [|rewrite <- Hl; symmetry; apply elt_list].
  apply map_ext_in. intros k Hk%in_seq. apply points_elt; lia.
Qed.

(** The value the loop writes at [j], from the table it started with. *)
Definition between (l : list F) (j : nat) : F :=
  if Nat.eqb (j mod 10) 0 then elt l j
  else let a := elt l (j / 10 * 10) in
       let b := elt l (j / 10 * 10 + 10) in
       (a + (b - a) * #(Z.of_nat (j mod 10)) / #10)%num.

Lemma interpolate_step_length (l : list F) i : length (interpolate_step l i) = length l.
Proof. unfold interpolate_step. destruct (Nat.eqb _ 0); [done|]. apply length_insert. Qed.

Lemma interpolate_step_tens (l : list F) i j : i < length l -> j mod 10 = 0 -> elt (interpolate_step l i) j = elt l j.
Proof.
  intros Hi Hj. unfold interpolate_step. destruct (Nat.eqb_spec (i mod 10) 0); [done|].
  rewrite elt_insert by done. by case_decide; [congruence|].
Qed.

Lemma between_tens (l l' : list F) j : (forall k, k mod 10 = 0 -> elt l k = elt l' k) -> between l j = between l' j.
Proof.
  intros E. unfold between. destruct (Nat.eqb_spec (j mod 10) 0) as [H0|H0]; [by apply E|].
  assert (H1 : (j / 10 * 10) mod 10 = 0) by (apply Nat.Div0.mod_mul).
  rewrite (E (j / 10 * 10)) by done. rewrite (E (j / 10 * 10 + 10)); [done|].
  replace (j / 10 * 10 + 10) with ((j / 10 + 1) * 10) by lia. apply Nat.Div0.mod_mul.
Qed.

(** Only elements that are not read are written, so each is written from the
    table the loop started with. *)
Lemma interpolate_loop (idx : list nat) (l : list F) : (forall i, In i idx -> i < length l) ->
  length (foldl interpolate_step l idx) = length l /\
  (forall j, j mod 10 = 0 -> elt (foldl interpolate_step l idx) j = elt l j) /\
  (forall j, In j idx -> elt (foldl interpolate_step l idx) j = between l j).
Proof.
  induction idx as [|i idx IH] using rev_ind; intros Hidx; [by repeat split|].
  rewrite foldl_app. cbn [foldl]. destruct IH as (Hl & Ht & Hb); [intros j Hj; apply Hidx, in_or_app; by left|].
  assert (Hi : i < length (foldl interpolate_step l idx)) by (rewrite Hl; apply Hidx, in_or_app; right; by left).
  split; [by rewrite interpolate_step_length|]. split; [intros j Hj; rewrite interpolate_step_tens by done; by apply Ht|].
  assert (Ei : elt (interpolate_step (foldl interpolate_step l idx) i) i = between l i).
  { rewrite <- (between_tens _ l i Ht). unfold interpolate_step, between. destruct (Nat.eqb _ 0) eqn:E; [done|].
    rewrite elt_insert by done. by rewrite decide_True. }
  intros j [Hj|[<-|[]]]%in_app_or; [|done].
  destruct (Nat.eq_dec i j) as [<-|Hne]; [done|].
  unfold interpolate_step. destruct (Nat.eqb _ 0); [by apply Hb|]. rewrite elt_insert by done.
  rewrite decide_False by done. by apply Hb.
Qed.

Lemma interpolate_length (l : list F) : length l = 101 -> length (interpolate l) = 101.
Proof. intros Hl. destruct (interpolate_loop (seq 1 99) l) as (E & _); [intros i Hi%in_seq; lia|]. by rewrite <- Hl. Qed.

Lemma interpolate_elt (l : list F) j : length l = 101 -> j <= 100 -> elt (interpolate l) j = between l j.
Proof.
  intros Hl Hj. destruct (interpolate_loop (seq 1 99) l) as (_ & Ht & Hb); [intros i Hi%in_seq; lia|].
  destruct (decide (j = 0 \/ j = 100)) as [[->| ->]|Hne]; [by apply Ht..|]. apply Hb, in_seq. lia.
Qed.

(** The straight lines between the eleven points of a table. *)
Definition ramp (l : list F) : list F :=
  map (fun j => if Nat.eqb (j mod 10) 0 then elt l (j / 10)
                else let a := elt l (j / 10) in
                     let b := elt l (S (j / 10)) in
                     (a + (b - a) * #(Z.of_nat (j mod 10)) / #10)%num) (seq 0 101).

Lemma elt_sample (a : list F) k : k <= 10 -> elt (sample a) k = elt a (10 * k).
Proof.
  intros Hk. unfold elt at 1. rewrite nth_lookup. unfold sample. rewrite (list_lookup_fmap (fun k => elt a (10 * k))).
  by rewrite lookup_seq_lt by lia.
Qed.

Lemma interpolate_ramp (a : list F) : length a = 101 -> interpolate a = ramp (sample a).
Proof.
  intros Ha. rewrite (elt_list (interpolate a)), (interpolate_length _ Ha). apply map_ext_in. intros j Hj%in_seq.
  rewrite interpolate_elt by lia. pose proof (Nat.div_mod_eq j 10). pose proof (Nat.mod_upper_bound j 10 ltac:(lia)).
  unfold between. destruct (Nat.eqb_spec (j mod 10) 0) as [E|E].
  - rewrite elt_sample by lia. f_equal. lia.
  - replace (j / 10 * 10) with (10 * (j / 10)) by lia. replace (10 * (j / 10) + 10) with (10 * S (j / 10)) by lia.
    by rewrite !elt_sample by lia.
Qed.

Lemma interpolate_points (l a : list F) : length l = 11 -> length a = 101 -> interpolate (points l a) = ramp l.
Proof. intros Hl Ha. rewrite interpolate_ramp by (by rewrite points_length). by rewrite sample_points. Qed.

(** What the storage held does not show. *)
Lemma interpolate_storage (l a b : list F) : length l = 11 -> length a = 101 -> length b = 101 ->
  interpolate (points l a) = interpolate (points l b).
Proof. intros. by rewrite !interpolate_points. Qed.

End Interpolation.

(** ** Positive tables *)
Open Scope R_scope.

Lemma lit_pos m e : (0 < m)%Z -> 0 < (lit m e : R).
Proof.
  intros Hm%IZR_lt. cbn. destruct (Z.leb_spec 0 e).
  - apply Rmult_lt_0_compat; [done|]. apply powerRZ_lt. lra.
  - apply Rdiv_lt_0_compat; [done|]. apply powerRZ_lt. lra.
Qed.

Lemma dec_pos l : forallb (fun x => 0 <? x.1)%Z l = true -> Forall (Rlt 0) (dec l).
Proof.
  intros Hl%Is_true_eq_left%forallb_True. unfold dec. apply Forall_fmap. eapply Forall_impl; [exact Hl|].
  intros x Hx%Is_true_eq_true%Z.ltb_lt. by apply lit_pos.
Qed.

Lemma scaled_pos k l : 0 < k -> forallb (fun x => 0 <? x.1)%Z l = true -> Forall (Rlt 0) (scaled k l).
Proof.
  intros Hk Hl%dec_pos. unfold scaled. apply Forall_fmap. eapply Forall_impl; [exact Hl|].
  intros x Hx. by apply Rmult_lt_0_compat.
Qed.

Lemma divided_pos k l : 0 < k -> forallb (fun x => 0 <? x.1)%Z l = true -> Forall (Rlt 0) (divided k l).
Proof.
  intros Hk Hl%dec_pos. unfold divided. apply Forall_fmap. eapply Forall_impl; [exact Hl|].
  intros x Hx. by apply Rdiv_lt_0_compat.
Qed.

Lemma replicate_pos n x : 0 < x -> Forall (Rlt 0) (replicate n x).
Proof. intros. by apply Forall_replicate. Qed.

(** An array of 101 elements whose every tenth is positive. *)
Definition charted (a : list R) : Prop := length a = 101%nat /\ Forall (Rlt 0) (sample a).

Lemma charted_points l a : length a = 101%nat -> length l = 11%nat -> Forall (Rlt 0) l -> charted (points l a).
Proof. intros Ha Hl Hp. split; [by rewrite points_length|]. by rewrite sample_points. Qed.

Lemma charted_sample a : charted a -> Forall (Rlt 0) (sample a).
Proof. by intros []. Qed.

Lemma charted_elt a k : charted a -> (k <= 10)%nat -> 0 < elt a (10 * k).
Proof.
  intros [_ Hp] Hk. rewrite Forall_forall in Hp. apply Hp. unfold sample.
  apply (list_elem_of_fmap_2 (fun k => elt a (10 * k))). apply elem_of_seq. lia.
Qed.

Lemma charted_halves a : charted a ->
  Forall (Rlt 0) (map (fun i => elt a i / 2) [0; 0; 10; 20; 30; 40; 50; 60; 70; 80; 90]%nat).
Proof.
  intros Ha. assert (Hk : forall k, (k <= 10)%nat -> 0 < elt a (10 * k) / 2).
  { intros k Hk. pose proof (charted_elt a k Ha Hk). lra. }
  repeat constructor; [apply (Hk 0%nat)|apply (Hk 0%nat)|apply (Hk 1%nat)|apply (Hk 2%nat)|apply (Hk 3%nat)
    |apply (Hk 4%nat)|apply (Hk 5%nat)|apply (Hk 6%nat)|apply (Hk 7%nat)|apply (Hk 8%nat)|apply (Hk 9%nat)]; lia.
Qed.

Lemma points_first (l a : list R) : length l = 11%nat -> length a = 101%nat -> elt (points l a) 0 = elt l 0.
Proof. intros. by apply (points_elt l a 0); [| |lia]. Qed.

(** The advanced nodes use one on current for both transistors. *)
Lemma equal_currents_ratio c (a b : list R) : 0 < c -> length a = 101%nat -> length b = 101%nat ->
  let n := points (replicate 11 c) a in
  IZR (Rtrunc (elt n 0 / elt (points (replicate 11 (elt n 0)) b) 0)) = 1.
Proof.
  intros Hc Ha Hb n. rewrite (points_first _ b) by done. change (elt (replicate 11 ?x) 0) with x.
  unfold n. rewrite points_first by done. change (elt (replicate 11 c) 0) with c.
  replace (c / c) with 1 by (field; lra). f_equal. apply Rtrunc_unique; [lia|lra].
Qed.

Lemma mix_nonneg w x y : 0 <= w <= 1 -> 0 < x -> 0 < y -> 0 < x + (y - x) * w.
Proof. intros. nra. Qed.

Lemma ramp_pos l : length l = 11%nat -> Forall (Rlt 0) l -> Forall (Rlt 0) (ramp l).
Proof.
  intros Hl Hp. unfold ramp. apply Forall_fmap, Forall_forall. intros j Hj%elem_of_seq.
  assert (Hk : forall k, (k <= 10)%nat -> 0 < elt l k).
  { intros k Hk. rewrite Forall_forall in Hp. apply Hp. eapply list_elem_of_lookup_2, elt_lookup. lia. }
  pose proof (Nat.div_mod_eq j 10) as Ej. pose proof (Nat.mod_upper_bound j 10 ltac:(lia)) as Hm.
  unfold compose. destruct (Nat.eqb_spec (j mod 10) 0) as [E|E]; [apply Hk; lia|]. num_R. cbv zeta.
  pose proof (Hk (j / 10)%nat ltac:(lia)). pose proof (Hk (S (j / 10)) ltac:(lia)).
  unfold Rdiv. rewrite Rmult_assoc. apply mix_nonneg; [|done..].
  assert (0 <= IZR (Z.of_nat (j mod 10)) <= 10); [split; apply IZR_le; lia|lra].
Qed.

Lemma interpolate_charted a : charted a -> length (interpolate a) = 101%nat /\ Forall (Rlt 0) (interpolate a).
Proof. intros [Ha Hp]. split; [by apply interpolate_length|]. rewrite interpolate_ramp by done. by apply ramp_pos. Qed.

(** ** Devices *)

(** The current tables are arrays of 101 elements. *)
Record Storage (tech : t R) : Prop := {
  storage_on_n : length (currentOnNmos tech) = 101%nat;
  storage_on_p : length (currentOnPmos tech) = 101%nat;
  storage_off_n : length (currentOffNmos tech) = 101%nat;
  storage_off_p : length (currentOffPmos tech) = 101%nat
}.

Ltac stored S :=
  first [exact (storage_on_n _ S)|exact (storage_on_p _ S)|exact (storage_off_n _ S)|exact (storage_off_p _ S)].

(** What every device table sets. *)
Record Device (tech : t R) : Prop := {
  dev_voltage : 0 < vth tech < vdd tech;
  dev_gate : 0 < phyGateLength tech;
  dev_ideal : 0 < capIdealGate tech;
  dev_fringe : 0 <= capFringe tech;
  dev_multiplier : 0 < effectiveResistanceMultiplier tech;
  dev_ratio : 1 <= pnSizeRatio tech <= 4;
  dev_on_n : charted (currentOnNmos tech);
  dev_on_p : charted (currentOnPmos tech);
  dev_off_n : charted (currentOffNmos tech);
  dev_off_p : charted (currentOffPmos tech)
}.

(** What the device tables leave alone. *)
Record Kept (this tech : t R) : Prop := {
  kept_nano : featureSizeInNano tech = featureSizeInNano this;
  kept_size : featureSize tech = featureSize this;
  kept_layers : layerCount tech = layerCount this
}.

(** The field of an updated record. *)
Ltac field_of :=
  lazy beta iota zeta delta [field_update vdd vth vpp phyGateLength capIdealGate capFringe pnSizeRatio
    effectiveResistanceMultiplier currentOnNmos currentOnPmos currentOffNmos currentOffPmos heightFin widthFin
    effective_width max_sheet_num thickness_sheet width_sheet].

(** The entries of the local arrays. *)
Ltac entries :=
  lazy beta iota zeta delta [elt dec map nth replicate fst snd caplist currentlist currentlist_off eff_res_mul vth_list].

(** A positive quotient of sums and products of literals. *)
Ltac positive :=
  entries; num_R;
  repeat first [apply lit_pos; lia|apply Rdiv_lt_0_compat|apply Rmult_lt_0_compat|apply Rplus_lt_0_compat].

(** Literals of the real numbers. *)
Ltac literals :=
  entries; rewrite ?Rlit_neg; change (lit ?m 0) with (IZR m * 1);
  repeat match goal with |- context [(10 ^ Zpos ?k)%Z] =>
    let v := eval vm_compute in (10 ^ Zpos k)%Z in change (10 ^ Zpos k)%Z with v end;
  num_R.

Ltac positive_value S :=
  first [rewrite points_first; [positive|reflexivity|apply S] | solve [positive]].

(** The points of a table: literals, literals times or over a factor, the
    points of another table, their halves, or one value. *)
Ltac positive_table S :=
  first [apply dec_pos; reflexivity
        |apply scaled_pos; [apply lit_pos; lia|reflexivity]
        |apply divided_pos; [apply lit_pos; lia|reflexivity]
        |apply charted_sample; chart S
        |apply charted_halves; chart S
        |apply replicate_pos; positive_value S
        |constructor; [positive_value S|apply dec_pos; reflexivity]]
with chart S := apply charted_points; [apply S|reflexivity|positive_table S].

Ltac advanced_ratio S :=
  num_R; rewrite equal_currents_ratio; [lra|positive|apply S|apply S].

Ltac device_field S :=
  field_of;
  lazymatch goal with
  | |- charted _ => chart S
  | |- 0 < _ => positive
  | _ => first [advanced_ratio S | literals; lra]
  end.

Create HintDb devices discriminated.
#[export] Hint Constants Opaque : devices.

Lemma HP_180_device this : Storage this -> Device (HP_180 this) /\ Kept this (HP_180 this).
Proof. intros S. split; [split; lazy delta [HP_180]; device_field S|by split]. Qed.
Lemma LSTP_180_device this : Storage this -> Device (LSTP_180 this) /\ Kept this (LSTP_180 this).
Proof. intros S. split; [split; lazy delta [LSTP_180]; device_field S|by split]. Qed.
Lemma LOP_180_device this : Storage this -> Device (LOP_180 this) /\ Kept this (LOP_180 this).
Proof. intros S. split; [split; lazy delta [LOP_180]; device_field S|by split]. Qed.
Lemma HP_120_device this : Storage this -> Device (HP_120 this) /\ Kept this (HP_120 this).
Proof. intros S. split; [split; lazy delta [HP_120]; device_field S|by split]. Qed.
Lemma LSTP_120_device this : Storage this -> Device (LSTP_120 this) /\ Kept this (LSTP_120 this).
Proof. intros S. split; [split; lazy delta [LSTP_120]; device_field S|by split]. Qed.
Lemma LOP_120_device this : Storage this -> Device (LOP_120 this) /\ Kept this (LOP_120 this).
Proof. intros S. split; [split; lazy delta [LOP_120]; device_field S|by split]. Qed.
Lemma HP_90_device this : Storage this -> Device (HP_90 this) /\ Kept this (HP_90 this).
Proof. intros S. split; [split; lazy delta [HP_90]; device_field S|by split]. Qed.
Lemma LSTP_90_device this : Storage this -> Device (LSTP_90 this) /\ Kept this (LSTP_90 this).
Proof. intros S. split; [split; lazy delta [LSTP_90]; device_field S|by split]. Qed.
Lemma LOP_90_device this : Storage this -> Device (LOP_90 this) /\ Kept this (LOP_90 this).
Proof. intros S. split; [split; lazy delta [LOP_90]; device_field S|by split]. Qed.
Lemma EDRAM_90_device this : Storage this -> Device (EDRAM_90 this) /\ Kept this (EDRAM_90 this).
Proof. intros S. split; [split; lazy delta [EDRAM_90]; device_field S|by split]. Qed.
Lemma HP_65_device this : Storage this -> Device (HP_65 this) /\ Kept this (HP_65 this).
Proof. intros S. split; [split; lazy delta [HP_65]; device_field S|by split]. Qed.
Lemma LSTP_65_device this : Storage this -> Device (LSTP_65 this) /\ Kept this (LSTP_65 this).
Proof. intros S. split; [split; lazy delta [LSTP_65]; device_field S|by split]. Qed.
Lemma LOP_65_device this : Storage this -> Device (LOP_65 this) /\ Kept this (LOP_65 this).
Proof. intros S. split; [split; lazy delta [LOP_65]; device_field S|by split]. Qed.
Lemma EDRAM_65_device this : Storage this -> Device (EDRAM_65 this) /\ Kept this (EDRAM_65 this).
Proof. intros S. split; [split; lazy delta [EDRAM_65]; device_field S|by split]. Qed.
Lemma HP_45_device this : Storage this -> Device (HP_45 this) /\ Kept this (HP_45 this).
Proof. intros S. split; [split; lazy delta [HP_45]; device_field S|by split]. Qed.
Lemma LSTP_45_device this : Storage this -> Device (LSTP_45 this) /\ Kept this (LSTP_45 this).
Proof. intros S. split; [split; lazy delta [LSTP_45]; device_field S|by split]. Qed.
Lemma LOP_45_device this : Storage this -> Device (LOP_45 this) /\ Kept this (LOP_45 this).
Proof. intros S. split; [split; lazy delta [LOP_45]; device_field S|by split]. Qed.
Lemma EDRAM_45_device this : Storage this -> Device (EDRAM_45 this) /\ Kept this (EDRAM_45 this).
Proof. intros S. split; [split; lazy delta [EDRAM_45]; device_field S|by split]. Qed.
Lemma HP_32_device this : Storage this -> Device (HP_32 this) /\ Kept this (HP_32 this).
Proof. intros S. split; [split; lazy delta [HP_32]; device_field S|by split]. Qed.
Lemma LSTP_32_device this : Storage this -> Device (LSTP_32 this) /\ Kept this (LSTP_32 this).
Proof. intros S. split; [split; lazy delta [LSTP_32]; device_field S|by split]. Qed.
Lemma LOP_32_device this : Storage this -> Device (LOP_32 this) /\ Kept this (LOP_32 this).
Proof. intros S. split; [split; lazy delta [LOP_32]; device_field S|by split]. Qed.
Lemma EDRAM_32_device this : Storage this -> Device (EDRAM_32 this) /\ Kept this (EDRAM_32 this).
Proof. intros S. split; [split; lazy delta [EDRAM_32]; device_field S|by split]. Qed.
Lemma HP_22_device this : Storage this -> Device (HP_22 this) /\ Kept this (HP_22 this).
Proof. intros S. split; [split; lazy delta [HP_22]; device_field S|by split]. Qed.
Lemma LSTP_22_device this : Storage this -> Device (LSTP_22 this) /\ Kept this (LSTP_22 this).
Proof. intros S. split; [split; lazy delta [LSTP_22]; device_field S|by split]. Qed.
Lemma LOP_22_device this : Storage this -> Device (LOP_22 this) /\ Kept this (LOP_22 this).
Proof. intros S. split; [split; lazy delta [LOP_22]; device_field S|by split]. Qed.
Lemma EDRAM_22_device this : Storage this -> Device (EDRAM_22 this) /\ Kept this (EDRAM_22 this).
Proof. intros S. split; [split; lazy delta [EDRAM_22]; device_field S|by split]. Qed.
Lemma FinFET_14_device this : Storage this -> Device (FinFET_14 this) /\ Kept this (FinFET_14 this).
Proof. intros S. split; [split; lazy delta [FinFET_14]; device_field S|by split]. Qed.
Lemma FinFET_10_device this : Storage this -> Device (FinFET_10 this) /\ Kept this (FinFET_10 this).
Proof. intros S. split; [split; lazy delta [FinFET_10]; device_field S|by split]. Qed.
Lemma FinFET_7_device this : Storage this -> Device (FinFET_7 this) /\ Kept this (FinFET_7 this).
Proof. intros S. split; [split; lazy delta [FinFET_7]; device_field S|by split]. Qed.
Lemma FinFET_5_device this : Storage this -> Device (FinFET_5 this) /\ Kept this (FinFET_5 this).
Proof. intros S. split; [split; lazy delta [FinFET_5]; device_field S|by split]. Qed.
Lemma FinFET_3_device this : Storage this -> Device (FinFET_3 this) /\ Kept this (FinFET_3 this).
Proof. intros S. split; [split; lazy delta [FinFET_3]; device_field S|by split]. Qed.
Lemma GAA_2_device this : Storage this -> Device (GAA_2 this) /\ Kept this (GAA_2 this).
Proof. intros S. split; [split; lazy delta [GAA_2]; device_field S|by split]. Qed.
Lemma GAA_1_device this : Storage this -> Device (GAA_1 this) /\ Kept this (GAA_1 this).
Proof. intros S. split; [split; lazy delta [GAA_1]; device_field S|by split]. Qed.
#[export] Hint Resolve HP_180_device LSTP_180_device LOP_180_device HP_120_device LSTP_120_device LOP_120_device
  HP_90_device LSTP_90_device LOP_90_device EDRAM_90_device HP_65_device LSTP_65_device LOP_65_device
  EDRAM_65_device HP_45_device LSTP_45_device LOP_45_device EDRAM_45_device HP_32_device LSTP_32_device
  LOP_32_device EDRAM_32_device HP_22_device LSTP_22_device LOP_22_device EDRAM_22_device FinFET_14_device
  FinFET_10_device FinFET_7_device FinFET_5_device FinFET_3_device GAA_2_device GAA_1_device : devices.

End TechFacts.
