(* ===== verification/TechTrend.v ===== *)
(** * Currents over the temperature

    The on currents of every device table fall and the off currents rise with
    the temperature, but for three entries; the straight lines between the
    entries keep the trend. *)
From S2P Require Import Prelude Numeric RealNum Types InputParameter Process Formula FormulaFacts.
From S2P Require Import TechTables Technology TechFacts.
From stdpp Require Import base list strings.
From Stdlib Require Import ZArith Lia Reals Lra.
Open Scope R_scope.

Module TechTrend.
Import Process FormulaFacts TechTables Technology TechFacts.

(** Every step of [l] goes up ([s = 1]) or down ([s = -1]). *)
Definition steps (s : R) (l : list R) : Prop :=
  forall i, (S i < length l)%nat -> 0 <= s * (elt l (S i) - elt l i).

Lemma steps_cons s x y l : 0 <= s * (y - x) -> steps s (y :: l) -> steps s (x :: y :: l).
Proof. intros Hx Hl [|i] Hi; [done|]. apply (Hl i). cbn [length] in *. lia. Qed.

Lemma steps_trans s l i j : steps s l -> (i <= j < length l)%nat -> 0 <= s * (elt l j - elt l i).
Proof.
  intros Hs Hij. induction j as [|j IH]; [replace i with 0%nat by lia; lra|].
  destruct (Nat.eq_dec i (S j)) as [->|Hne]; [lra|]. pose proof (Hs j ltac:(lia)). specialize (IH ltac:(lia)). lra.
Qed.

(** ** Comparing literals *)

Definition lit_leb (x y : Z * Z) : bool :=
  let e := Z.min x.2 y.2 in (x.1 * 10 ^ (x.2 - e) <=? y.1 * 10 ^ (y.2 - e))%Z.

Lemma lit_value m e : (lit m e : R) = IZR m * powerRZ 10 e.
Proof.
  cbn. destruct (Z.leb_spec 0 e); [done|]. unfold Rdiv. f_equal.
  rewrite powerRZ_neg', Rinv_inv. done.
Qed.

Lemma lit_shift m e e0 : (e0 <= e)%Z -> (lit m e : R) = IZR (m * 10 ^ (e - e0)) * powerRZ 10 e0.
Proof.
  intros He. rewrite lit_value, mult_IZR, Rmult_assoc. f_equal.
  replace e with (e - e0 + e0)%Z at 1 by lia. rewrite powerRZ_add by lra. f_equal.
  rewrite <- (Z2Nat.id (e - e0)) by lia. rewrite <- pow_powerRZ. by rewrite pow_IZR.
Qed.

Lemma lit_le x y : lit_leb x y = true -> (lit x.1 x.2 : R) <= lit y.1 y.2.
Proof.
  unfold lit_leb. intros Hle%Z.leb_le%IZR_le.
  rewrite (lit_shift x.1 x.2 (Z.min x.2 y.2)), (lit_shift y.1 y.2 (Z.min x.2 y.2)) by lia.
  apply Rmult_le_compat_r; [|done]. left. apply powerRZ_lt. lra.
Qed.

Fixpoint chainb (f : Z * Z -> Z * Z -> bool) (l : list (Z * Z)) : bool :=
  match l with
  | x :: (y :: _) as l' => f x y && chainb f l'
  | _ => true
  end.

Lemma dec_steps s l (f : Z * Z -> Z * Z -> bool) :
  (forall x y, f x y = true -> 0 <= s * (lit y.1 y.2 - lit x.1 x.2)) -> chainb f l = true -> steps s (dec l).
Proof.
  intros Hf. induction l as [|x [|y l] IH]; [intros _ i Hi; cbn in Hi; lia..|].
  intros [Hx Hl]%andb_true_iff. apply steps_cons; [by apply Hf|by apply IH].
Qed.

Lemma dec_falls l : chainb (fun x y => lit_leb y x) l = true -> steps (-1) (dec l).
Proof. apply dec_steps. intros x y H%lit_le. lra. Qed.

Lemma dec_rises l : chainb lit_leb l = true -> steps 1 (dec l).
Proof. apply dec_steps. intros x y H%lit_le. lra. Qed.

(** ** Shapes of tables *)

Lemma elt_map (f : R -> R) l i : (i < length l)%nat -> elt (map f l) i = f (elt l i).
Proof.
  intros Hi. unfold elt. rewrite !nth_lookup. rewrite (list_lookup_fmap f). by destruct (lookup_lt_is_Some_2 l i Hi) as [x ->].
Qed.

Lemma scaled_steps s k l : 0 < k -> steps s (dec l) -> steps s (scaled k l).
Proof.
  intros Hk Hl i Hi. unfold scaled in *. rewrite length_map in Hi. rewrite !elt_map by lia.
  change (0 <= s * (elt (dec l) (S i) * k - elt (dec l) i * k)). specialize (Hl i Hi). nra.
Qed.

Lemma divided_steps s k l : 0 < k -> steps s (dec l) -> steps s (divided k l).
Proof.
  intros Hk Hl i Hi. unfold divided in *. rewrite length_map in Hi. rewrite !elt_map by lia.
  change (0 <= s * (elt (dec l) (S i) / k - elt (dec l) i / k)). specialize (Hl i Hi).
  replace (s * (elt (dec l) (S i) / k - elt (dec l) i / k)) with (s * (elt (dec l) (S i) - elt (dec l) i) / k) by (field; lra).
  apply Rmult_le_pos; [done|]. left. by apply Rinv_0_lt_compat.
Qed.

Lemma replicate_steps s n x : steps s (replicate n x).
Proof.
  intros i Hi. rewrite length_replicate in Hi. unfold elt. rewrite !nth_lookup, !lookup_replicate_2 by lia. cbn. lra.
Qed.

Lemma halves_steps s a : steps s (sample a) ->
  steps s (map (fun i => elt a i / 2) [0; 0; 10; 20; 30; 40; 50; 60; 70; 80; 90]%nat).
Proof.
  intros Ha. assert (Hk : forall k, (S k <= 10)%nat -> 0 <= s * (elt a (10 * S k) - elt a (10 * k))).
  { intros k Hk. rewrite <- !elt_sample by lia. apply Ha. cbn. lia. }
  pose proof (Hk 0%nat ltac:(lia)). pose proof (Hk 1%nat ltac:(lia)). pose proof (Hk 2%nat ltac:(lia)).
  pose proof (Hk 3%nat ltac:(lia)). pose proof (Hk 4%nat ltac:(lia)). pose proof (Hk 5%nat ltac:(lia)).
  pose proof (Hk 6%nat ltac:(lia)). pose proof (Hk 7%nat ltac:(lia)). pose proof (Hk 8%nat ltac:(lia)).
  cbn [Nat.mul Nat.add] in *. cbn [map]. repeat apply steps_cons; try lra. intros i Hi. cbn in Hi. lia.
Qed.

Lemma sample_steps s l a : length l = 11%nat -> length a = 101%nat -> steps s l -> steps s (sample (points l a)).
Proof. intros. by rewrite sample_points. Qed.

(** ** The straight lines between the points *)

Lemma ramp_elt (l : list R) j : (j <= 100)%nat ->
  elt (ramp l) j = elt l (j / 10) + (elt l (S (j / 10)) - elt l (j / 10)) * INR (j mod 10) / 10.
Proof.
  intros Hj. unfold elt at 1. rewrite nth_lookup. unfold ramp. rewrite list_lookup_fmap, lookup_seq_lt by lia. cbn [fmap option_fmap option_map default].
  cbn [Nat.add]. rewrite INR_IZR_INZ. destruct (Nat.eqb_spec (j mod 10) 0) as [->|E]; unfold Datatypes.id; [change (Z.of_nat 0) with 0%Z; lra|done].
Qed.

Lemma ramp_step (l : list R) j : (S j <= 100)%nat ->
  elt (ramp l) (S j) - elt (ramp l) j = (elt l (S (j / 10)) - elt l (j / 10)) / 10.
Proof.
  intros Hj. rewrite !ramp_elt by lia. pose proof (Nat.div_mod_eq j 10). pose proof (Nat.mod_upper_bound j 10 ltac:(lia)).
  destruct (Nat.eq_dec (j mod 10) 9) as [E|E].
  - assert (Eq : (S j / 10 = S (j / 10))%nat) by (symmetry; apply (Nat.div_unique _ 10 _ 0); lia).
    assert (Er : (S j mod 10 = 0)%nat) by (symmetry; apply (Nat.mod_unique _ 10 (S (j / 10)) 0); lia).
    rewrite Eq, Er, E. cbn. lra.
  - assert (Eq : (S j / 10 = j / 10)%nat) by (symmetry; apply (Nat.div_unique _ 10 _ (S (j mod 10))); lia).
    assert (Er : (S j mod 10 = S (j mod 10))%nat) by (symmetry; apply (Nat.mod_unique _ 10 (j / 10) _); lia).
    rewrite Eq, Er, S_INR. lra.
Qed.

Lemma ramp_steps s l : length l = 11%nat -> steps s l -> steps s (ramp l).
Proof.
  intros Hl Hs j Hj. unfold ramp in Hj. rewrite length_map, length_seq in Hj. rewrite ramp_step by lia.
  pose proof (Nat.div_mod_eq j 10). specialize (Hs (j / 10)%nat ltac:(lia)). lra.
Qed.

(** ** The tables *)

(** The first point of an advanced node comes from a local array. *)
Ltac first_literal :=
  lazymatch goal with
  | |- steps ?s (?x :: dec ?l) =>
      let y := eval lazy beta iota zeta delta [elt currentlist_off dec map nth fst snd] in x in
      lazymatch y with lit ?m ?e => change (steps s (dec ((m, e) :: l))) end
  end.

Ltac trend_table S :=
  first [apply dec_falls; reflexivity | apply dec_rises; reflexivity
        |apply scaled_steps; [apply lit_pos; lia|apply dec_rises; reflexivity]
        |apply divided_steps; [apply lit_pos; lia|apply dec_rises; reflexivity]
        |apply replicate_steps
        |apply halves_steps; trend S
        |trend S
        |first_literal; apply dec_rises; reflexivity]
with trend S := apply sample_steps; [reflexivity|stored S|trend_table S].

Create HintDb trends discriminated.
#[export] Hint Constants Opaque : trends.

(** The on currents fall; the off currents of the two transistors rise. *)
Definition on_falls (tech : t R) : Prop := steps (-1) (sample (currentOnNmos tech)) /\ steps (-1) (sample (currentOnPmos tech)).
Definition off_n_rises (tech : t R) : Prop := steps 1 (sample (currentOffNmos tech)).
Definition off_p_rises (tech : t R) : Prop := steps 1 (sample (currentOffPmos tech)).

Lemma HP_180_on this : Storage this -> on_falls (HP_180 this).
Proof. intros S. split; lazy delta [HP_180]; field_of; trend S. Qed.
Lemma LSTP_180_on this : Storage this -> on_falls (LSTP_180 this).
Proof. intros S. split; lazy delta [LSTP_180]; field_of; trend S. Qed.
Lemma LOP_180_on this : Storage this -> on_falls (LOP_180 this).
Proof. intros S. split; lazy delta [LOP_180]; field_of; trend S. Qed.
Lemma HP_120_on this : Storage this -> on_falls (HP_120 this).
Proof. intros S. split; lazy delta [HP_120]; field_of; trend S. Qed.
Lemma LSTP_120_on this : Storage this -> on_falls (LSTP_120 this).
Proof. intros S. split; lazy delta [LSTP_120]; field_of; trend S. Qed.
Lemma LOP_120_on this : Storage this -> on_falls (LOP_120 this).
Proof. intros S. split; lazy delta [LOP_120]; field_of; trend S. Qed.
Lemma HP_90_on this : Storage this -> on_falls (HP_90 this).
Proof. intros S. split; lazy delta [HP_90]; field_of; trend S. Qed.
Lemma LSTP_90_on this : Storage this -> on_falls (LSTP_90 this).
Proof. intros S. split; lazy delta [LSTP_90]; field_of; trend S. Qed.
Lemma LOP_90_on this : Storage this -> on_falls (LOP_90 this).
Proof. intros S. split; lazy delta [LOP_90]; field_of; trend S. Qed.
Lemma EDRAM_90_on this : Storage this -> on_falls (EDRAM_90 this).
Proof. intros S. split; lazy delta [EDRAM_90]; field_of; trend S. Qed.
Lemma HP_65_on this : Storage this -> on_falls (HP_65 this).
Proof. intros S. split; lazy delta [HP_65]; field_of; trend S. Qed.
Lemma LSTP_65_on this : Storage this -> on_falls (LSTP_65 this).
Proof. intros S. split; lazy delta [LSTP_65]; field_of; trend S. Qed.
Lemma LOP_65_on this : Storage this -> on_falls (LOP_65 this).
Proof. intros S. split; lazy delta [LOP_65]; field_of; trend S. Qed.
Lemma EDRAM_65_on this : Storage this -> on_falls (EDRAM_65 this).
Proof. intros S. split; lazy delta [EDRAM_65]; field_of; trend S. Qed.
Lemma HP_45_on this : Storage this -> on_falls (HP_45 this).
Proof. intros S. split; lazy delta [HP_45]; field_of; trend S. Qed.
Lemma LSTP_45_on this : Storage this -> on_falls (LSTP_45 this).
Proof. intros S. split; lazy delta [LSTP_45]; field_of; trend S. Qed.
Lemma LOP_45_on this : Storage this -> on_falls (LOP_45 this).
Proof. intros S. split; lazy delta [LOP_45]; field_of; trend S. Qed.
Lemma EDRAM_45_on this : Storage this -> on_falls (EDRAM_45 this).
Proof. intros S. split; lazy delta [EDRAM_45]; field_of; trend S. Qed.
Lemma HP_32_on this : Storage this -> on_falls (HP_32 this).
Proof. intros S. split; lazy delta [HP_32]; field_of; trend S. Qed.
Lemma LSTP_32_on this : Storage this -> on_falls (LSTP_32 this).
Proof. intros S. split; lazy delta [LSTP_32]; field_of; trend S. Qed.
Lemma LOP_32_on this : Storage this -> on_falls (LOP_32 this).
Proof. intros S. split; lazy delta [LOP_32]; field_of; trend S. Qed.
Lemma EDRAM_32_on this : Storage this -> on_falls (EDRAM_32 this).
Proof. intros S. split; lazy delta [EDRAM_32]; field_of; trend S. Qed.
Lemma HP_22_on this : Storage this -> on_falls (HP_22 this).
Proof. intros S. split; lazy delta [HP_22]; field_of; trend S. Qed.
Lemma LSTP_22_on this : Storage this -> on_falls (LSTP_22 this).
Proof. intros S. split; lazy delta [LSTP_22]; field_of; trend S. Qed.
Lemma LOP_22_on this : Storage this -> on_falls (LOP_22 this).
Proof. intros S. split; lazy delta [LOP_22]; field_of; trend S. Qed.
Lemma EDRAM_22_on this : Storage this -> on_falls (EDRAM_22 this).
Proof. intros S. split; lazy delta [EDRAM_22]; field_of; trend S. Qed.
Lemma FinFET_14_on this : Storage this -> on_falls (FinFET_14 this).
Proof. intros S. split; lazy delta [FinFET_14]; field_of; trend S. Qed.
Lemma FinFET_10_on this : Storage this -> on_falls (FinFET_10 this).
Proof. intros S. split; lazy delta [FinFET_10]; field_of; trend S. Qed.
Lemma FinFET_7_on this : Storage this -> on_falls (FinFET_7 this).
Proof. intros S. split; lazy delta [FinFET_7]; field_of; trend S. Qed.
Lemma FinFET_5_on this : Storage this -> on_falls (FinFET_5 this).
Proof. intros S. split; lazy delta [FinFET_5]; field_of; trend S. Qed.
Lemma FinFET_3_on this : Storage this -> on_falls (FinFET_3 this).
Proof. intros S. split; lazy delta [FinFET_3]; field_of; trend S. Qed.
Lemma GAA_2_on this : Storage this -> on_falls (GAA_2 this).
Proof. intros S. split; lazy delta [GAA_2]; field_of; trend S. Qed.
Lemma GAA_1_on this : Storage this -> on_falls (GAA_1 this).
Proof. intros S. split; lazy delta [GAA_1]; field_of; trend S. Qed.

Lemma HP_180_off_n this : Storage this -> off_n_rises (HP_180 this).
Proof. intros S. unfold off_n_rises. lazy delta [HP_180]; field_of; trend S. Qed.
Lemma LSTP_180_off_n this : Storage this -> off_n_rises (LSTP_180 this).
Proof. intros S. unfold off_n_rises. lazy delta [LSTP_180]; field_of; trend S. Qed.
Lemma LOP_180_off_n this : Storage this -> off_n_rises (LOP_180 this).
Proof. intros S. unfold off_n_rises. lazy delta [LOP_180]; field_of; trend S. Qed.
Lemma HP_120_off_n this : Storage this -> off_n_rises (HP_120 this).
Proof. intros S. unfold off_n_rises. lazy delta [HP_120]; field_of; trend S. Qed.
Lemma LSTP_120_off_n this : Storage this -> off_n_rises (LSTP_120 this).
Proof. intros S. unfold off_n_rises. lazy delta [LSTP_120]; field_of; trend S. Qed.
Lemma LOP_120_off_n this : Storage this -> off_n_rises (LOP_120 this).
Proof. intros S. unfold off_n_rises. lazy delta [LOP_120]; field_of; trend S. Qed.
Lemma HP_90_off_n this : Storage this -> off_n_rises (HP_90 this).
Proof. intros S. unfold off_n_rises. lazy delta [HP_90]; field_of; trend S. Qed.
Lemma EDRAM_90_off_n this : Storage this -> off_n_rises (EDRAM_90 this).
Proof. intros S. unfold off_n_rises. lazy delta [EDRAM_90]; field_of; trend S. Qed.
Lemma HP_65_off_n this : Storage this -> off_n_rises (HP_65 this).
Proof. intros S. unfold off_n_rises. lazy delta [HP_65]; field_of; trend S. Qed.
Lemma LSTP_65_off_n this : Storage this -> off_n_rises (LSTP_65 this).
Proof. intros S. unfold off_n_rises. lazy delta [LSTP_65]; field_of; trend S. Qed.
Lemma LOP_65_off_n this : Storage this -> off_n_rises (LOP_65 this).
Proof. intros S. unfold off_n_rises. lazy delta [LOP_65]; field_of; trend S. Qed.
Lemma EDRAM_65_off_n this : Storage this -> off_n_rises (EDRAM_65 this).
Proof. intros S. unfold off_n_rises. lazy delta [EDRAM_65]; field_of; trend S. Qed.
Lemma HP_45_off_n this : Storage this -> off_n_rises (HP_45 this).
Proof. intros S. unfold off_n_rises. lazy delta [HP_45]; field_of; trend S. Qed.
Lemma LSTP_45_off_n this : Storage this -> off_n_rises (LSTP_45 this).
Proof. intros S. unfold off_n_rises. lazy delta [LSTP_45]; field_of; trend S. Qed.
Lemma LOP_45_off_n this : Storage this -> off_n_rises (LOP_45 this).
Proof. intros S. unfold off_n_rises. lazy delta [LOP_45]; field_of; trend S. Qed.
Lemma EDRAM_45_off_n this : Storage this -> off_n_rises (EDRAM_45 this).
Proof. intros S. unfold off_n_rises. lazy delta [EDRAM_45]; field_of; trend S. Qed.
Lemma HP_32_off_n this : Storage this -> off_n_rises (HP_32 this).
Proof. intros S. unfold off_n_rises. lazy delta [HP_32]; field_of; trend S. Qed.
Lemma LSTP_32_off_n this : Storage this -> off_n_rises (LSTP_32 this).
Proof. intros S. unfold off_n_rises. lazy delta [LSTP_32]; field_of; trend S. Qed.
Lemma LOP_32_off_n this : Storage this -> off_n_rises (LOP_32 this).
Proof. intros S. unfold off_n_rises. lazy delta [LOP_32]; field_of; trend S. Qed.
Lemma EDRAM_32_off_n this : Storage this -> off_n_rises (EDRAM_32 this).
Proof. intros S. unfold off_n_rises. lazy delta [EDRAM_32]; field_of; trend S. Qed.
Lemma HP_22_off_n this : Storage this -> off_n_rises (HP_22 this).
Proof. intros S. unfold off_n_rises. lazy delta [HP_22]; field_of; trend S. Qed.
Lemma LSTP_22_off_n this : Storage this -> off_n_rises (LSTP_22 this).
Proof. intros S. unfold off_n_rises. lazy delta [LSTP_22]; field_of; trend S. Qed.
Lemma LOP_22_off_n this : Storage this -> off_n_rises (LOP_22 this).
Proof. intros S. unfold off_n_rises. lazy delta [LOP_22]; field_of; trend S. Qed.
Lemma EDRAM_22_off_n this : Storage this -> off_n_rises (EDRAM_22 this).
Proof. intros S. unfold off_n_rises. lazy delta [EDRAM_22]; field_of; trend S. Qed.
Lemma FinFET_14_off_n this : Storage this -> off_n_rises (FinFET_14 this).
Proof. intros S. unfold off_n_rises. lazy delta [FinFET_14]; field_of; trend S. Qed.
Lemma FinFET_10_off_n this : Storage this -> off_n_rises (FinFET_10 this).
Proof. intros S. unfold off_n_rises. lazy delta [FinFET_10]; field_of; trend S. Qed.
Lemma FinFET_7_off_n this : Storage this -> off_n_rises (FinFET_7 this).
Proof. intros S. unfold off_n_rises. lazy delta [FinFET_7]; field_of; trend S. Qed.
Lemma FinFET_5_off_n this : Storage this -> off_n_rises (FinFET_5 this).
Proof. intros S. unfold off_n_rises. lazy delta [FinFET_5]; field_of; trend S. Qed.
Lemma FinFET_3_off_n this : Storage this -> off_n_rises (FinFET_3 this).
Proof. intros S. unfold off_n_rises. lazy delta [FinFET_3]; field_of; trend S. Qed.
Lemma GAA_2_off_n this : Storage this -> off_n_rises (GAA_2 this).
Proof. intros S. unfold off_n_rises. lazy delta [GAA_2]; field_of; trend S. Qed.
Lemma GAA_1_off_n this : Storage this -> off_n_rises (GAA_1 this).
Proof. intros S. unfold off_n_rises. lazy delta [GAA_1]; field_of; trend S. Qed.

Lemma HP_180_off_p this : Storage this -> off_p_rises (HP_180 this).
Proof. intros S. unfold off_p_rises. lazy delta [HP_180]; field_of; trend S. Qed.
Lemma LSTP_180_off_p this : Storage this -> off_p_rises (LSTP_180 this).
Proof. intros S. unfold off_p_rises. lazy delta [LSTP_180]; field_of; trend S. Qed.
Lemma LOP_180_off_p this : Storage this -> off_p_rises (LOP_180 this).
Proof. intros S. unfold off_p_rises. lazy delta [LOP_180]; field_of; trend S. Qed.
Lemma HP_120_off_p this : Storage this -> off_p_rises (HP_120 this).
Proof. intros S. unfold off_p_rises. lazy delta [HP_120]; field_of; trend S. Qed.
Lemma LSTP_120_off_p this : Storage this -> off_p_rises (LSTP_120 this).
Proof. intros S. unfold off_p_rises. lazy delta [LSTP_120]; field_of; trend S. Qed.
Lemma LOP_120_off_p this : Storage this -> off_p_rises (LOP_120 this).
Proof. intros S. unfold off_p_rises. lazy delta [LOP_120]; field_of; trend S. Qed.
Lemma HP_90_off_p this : Storage this -> off_p_rises (HP_90 this).
Proof. intros S. unfold off_p_rises. lazy delta [HP_90]; field_of; trend S. Qed.
Lemma LSTP_90_off_p this : Storage this -> off_p_rises (LSTP_90 this).
Proof. intros S. unfold off_p_rises. lazy delta [LSTP_90]; field_of; trend S. Qed.
Lemma LOP_90_off_p this : Storage this -> off_p_rises (LOP_90 this).
Proof. intros S. unfold off_p_rises. lazy delta [LOP_90]; field_of; trend S. Qed.
Lemma EDRAM_90_off_p this : Storage this -> off_p_rises (EDRAM_90 this).
Proof. intros S. unfold off_p_rises. lazy delta [EDRAM_90]; field_of; trend S. Qed.
Lemma HP_65_off_p this : Storage this -> off_p_rises (HP_65 this).
Proof. intros S. unfold off_p_rises. lazy delta [HP_65]; field_of; trend S. Qed.
Lemma LSTP_65_off_p this : Storage this -> off_p_rises (LSTP_65 this).
Proof. intros S. unfold off_p_rises. lazy delta [LSTP_65]; field_of; trend S. Qed.
Lemma EDRAM_65_off_p this : Storage this -> off_p_rises (EDRAM_65 this).
Proof. intros S. unfold off_p_rises. lazy delta [EDRAM_65]; field_of; trend S. Qed.
Lemma HP_45_off_p this : Storage this -> off_p_rises (HP_45 this).
Proof. intros S. unfold off_p_rises. lazy delta [HP_45]; field_of; trend S. Qed.
Lemma LSTP_45_off_p this : Storage this -> off_p_rises (LSTP_45 this).
Proof. intros S. unfold off_p_rises. lazy delta [LSTP_45]; field_of; trend S. Qed.
Lemma LOP_45_off_p this : Storage this -> off_p_rises (LOP_45 this).
Proof. intros S. unfold off_p_rises. lazy delta [LOP_45]; field_of; trend S. Qed.
Lemma EDRAM_45_off_p this : Storage this -> off_p_rises (EDRAM_45 this).
Proof. intros S. unfold off_p_rises. lazy delta [EDRAM_45]; field_of; trend S. Qed.
Lemma HP_32_off_p this : Storage this -> off_p_rises (HP_32 this).
Proof. intros S. unfold off_p_rises. lazy delta [HP_32]; field_of; trend S. Qed.
Lemma LSTP_32_off_p this : Storage this -> off_p_rises (LSTP_32 this).
Proof. intros S. unfold off_p_rises. lazy delta [LSTP_32]; field_of; trend S. Qed.
Lemma LOP_32_off_p this : Storage this -> off_p_rises (LOP_32 this).
Proof. intros S. unfold off_p_rises. lazy delta [LOP_32]; field_of; trend S. Qed.
Lemma EDRAM_32_off_p this : Storage this -> off_p_rises (EDRAM_32 this).
Proof. intros S. unfold off_p_rises. lazy delta [EDRAM_32]; field_of; trend S. Qed.
Lemma HP_22_off_p this : Storage this -> off_p_rises (HP_22 this).
Proof. intros S. unfold off_p_rises. lazy delta [HP_22]; field_of; trend S. Qed.
Lemma LSTP_22_off_p this : Storage this -> off_p_rises (LSTP_22 this).
Proof. intros S. unfold off_p_rises. lazy delta [LSTP_22]; field_of; trend S. Qed.
Lemma LOP_22_off_p this : Storage this -> off_p_rises (LOP_22 this).
Proof. intros S. unfold off_p_rises. lazy delta [LOP_22]; field_of; trend S. Qed.
Lemma EDRAM_22_off_p this : Storage this -> off_p_rises (EDRAM_22 this).
Proof. intros S. unfold off_p_rises. lazy delta [EDRAM_22]; field_of; trend S. Qed.
Lemma FinFET_14_off_p this : Storage this -> off_p_rises (FinFET_14 this).
Proof. intros S. unfold off_p_rises. lazy delta [FinFET_14]; field_of; trend S. Qed.
Lemma FinFET_10_off_p this : Storage this -> off_p_rises (FinFET_10 this).
Proof. intros S. unfold off_p_rises. lazy delta [FinFET_10]; field_of; trend S. Qed.
Lemma FinFET_7_off_p this : Storage this -> off_p_rises (FinFET_7 this).
Proof. intros S. unfold off_p_rises. lazy delta [FinFET_7]; field_of; trend S. Qed.
Lemma FinFET_5_off_p this : Storage this -> off_p_rises (FinFET_5 this).
Proof. intros S. unfold off_p_rises. lazy delta [FinFET_5]; field_of; trend S. Qed.
Lemma FinFET_3_off_p this : Storage this -> off_p_rises (FinFET_3 this).
Proof. intros S. unfold off_p_rises. lazy delta [FinFET_3]; field_of; trend S. Qed.
Lemma GAA_2_off_p this : Storage this -> off_p_rises (GAA_2 this).
Proof. intros S. unfold off_p_rises. lazy delta [GAA_2]; field_of; trend S. Qed.
Lemma GAA_1_off_p this : Storage this -> off_p_rises (GAA_1 this).
Proof. intros S. unfold off_p_rises. lazy delta [GAA_1]; field_of; trend S. Qed.

#[export] Hint Resolve HP_180_on LSTP_180_on LOP_180_on HP_120_on LSTP_120_on LOP_120_on HP_90_on LSTP_90_on
  LOP_90_on EDRAM_90_on HP_65_on LSTP_65_on LOP_65_on EDRAM_65_on HP_45_on LSTP_45_on LOP_45_on EDRAM_45_on HP_32_on
  LSTP_32_on LOP_32_on EDRAM_32_on HP_22_on LSTP_22_on LOP_22_on EDRAM_22_on FinFET_14_on FinFET_10_on FinFET_7_on
  FinFET_5_on FinFET_3_on GAA_2_on GAA_1_on : trends.
#[export] Hint Resolve HP_180_off_n LSTP_180_off_n LOP_180_off_n HP_120_off_n LSTP_120_off_n LOP_120_off_n
  HP_90_off_n EDRAM_90_off_n HP_65_off_n LSTP_65_off_n LOP_65_off_n EDRAM_65_off_n HP_45_off_n LSTP_45_off_n
  LOP_45_off_n EDRAM_45_off_n HP_32_off_n LSTP_32_off_n LOP_32_off_n EDRAM_32_off_n HP_22_off_n LSTP_22_off_n
  LOP_22_off_n EDRAM_22_off_n FinFET_14_off_n FinFET_10_off_n FinFET_7_off_n FinFET_5_off_n FinFET_3_off_n
  GAA_2_off_n GAA_1_off_n : trends.
#[export] Hint Resolve HP_180_off_p LSTP_180_off_p LOP_180_off_p HP_120_off_p LSTP_120_off_p LOP_120_off_p
  HP_90_off_p LSTP_90_off_p LOP_90_off_p EDRAM_90_off_p HP_65_off_p LSTP_65_off_p EDRAM_65_off_p HP_45_off_p
  LSTP_45_off_p LOP_45_off_p EDRAM_45_off_p HP_32_off_p LSTP_32_off_p LOP_32_off_p EDRAM_32_off_p HP_22_off_p
  LSTP_22_off_p LOP_22_off_p EDRAM_22_off_p FinFET_14_off_p FinFET_10_off_p FinFET_7_off_p FinFET_5_off_p
  FinFET_3_off_p GAA_2_off_p GAA_1_off_p : trends.

End TechTrend.
