(* ===== verification/TechInit.v ===== *)
(** * The technology the program builds

    [Technology::Initialize] and [initializeTechnology] at exact reals: when
    they return, and what the object they return satisfies. *)
From S2P Require Import Prelude Numeric RealNum Types InputParameter Process Formula FormulaFacts TechTables Technology TechFacts.
From stdpp Require Import base list strings.
From Stdlib Require Import ZArith Lia Reals Lra.
Open Scope R_scope.

Module TechInit.
Import Process Formula FormulaFacts TechTables Technology TechFacts.

#[local] Opaque interpolate ramp.

(** The nodes and roadmaps that have a device table. *)
Definition has_table (n : Z) (r : DeviceRoadmap) : bool :=
  match r with
  | HP => 22 <=? n
  | LSTP | LOP => 1 <=? n
  | EDRAM => (1 <=? n) && (n <? 120)
  | IWO => (1 <=? n) && (n <? 22)
  end%Z.

Lemma devices_ready n r this : Storage this -> featureSizeInNano this = n -> deviceRoadmap this = r ->
  has_table n r = true -> exists tech, devices n r this = Ret tech /\ Device tech /\ Kept this tech.
Proof.
  intros S Hn Hr Ht. unfold devices, roadmap3, roadmap4, advanced. rewrite Hn, Hr.
  repeat match goal with |- context [(?k <=? n)%Z] => destruct (Z.leb_spec k n) end; try lia;
    destruct r; cbn [has_table] in Ht; try lia;
    (eexists; split; [reflexivity|]; by auto with devices).
Qed.

Lemma devices_exit n r this : featureSizeInNano this = n -> deviceRoadmap this = r -> has_table n r = false ->
  exists e, devices n r this = Exit e.
Proof.
  intros Hn Hr Ht. unfold devices, roadmap3, roadmap4, advanced. rewrite Hn, Hr.
  repeat match goal with |- context [(?k <=? n)%Z] => destruct (Z.leb_spec k n) end; try lia;
    destruct r; cbn [has_table] in Ht; try lia; by eexists.
Qed.

Lemma vias_device n this : Device this -> Device (vias n this).
Proof.
  intros D. unfold vias. repeat match goal with |- context [(?k <=? n)%Z] => destruct (Z.leb_spec k n) end; try done;
    split; apply D.
Qed.

Lemma vias_kept n this : Kept this (vias n this).
Proof. unfold vias. repeat match goal with |- context [(?k <=? n)%Z] => destruct (Z.leb_spec k n) end; by split. Qed.

(** ** Initialize *)

(** What [Initialize] promises of the node [n]. *)
Record Ready (n : Z) (tech : t R) : Prop := {
  ready_nano : featureSizeInNano tech = n;
  ready_size : featureSize tech = nm n;
  ready_voltage : 0 < vth tech < vdd tech;
  ready_gate : 0 < phyGateLength tech;
  ready_ideal : 0 < capIdealGate tech;
  ready_overlap : 0 <= capOverlap tech;
  ready_fringe : 0 <= capFringe tech;
  ready_poly : capPolywire tech = 0;
  ready_multiplier : 0 < effectiveResistanceMultiplier tech;
  ready_ratio : 1 <= pnSizeRatio tech <= 4;
  ready_junction : 0 < capJunction tech;
  ready_sidewall : 0 < capSidewall tech;
  ready_channel : 0 < capDrainToChannel tech;
  ready_on_n : length (currentOnNmos tech) = 101%nat /\ Forall (Rlt 0) (currentOnNmos tech);
  ready_on_p : length (currentOnPmos tech) = 101%nat /\ Forall (Rlt 0) (currentOnPmos tech);
  ready_off_n : length (currentOffNmos tech) = 101%nat /\ Forall (Rlt 0) (currentOffNmos tech);
  ready_off_p : length (currentOffPmos tech) = 101%nat /\ Forall (Rlt 0) (currentOffPmos tech)
}.

Lemma junction_pos c x y : 0 < c -> 0 < c / Rpower x y.
Proof. intros. apply Rdiv_lt_0_compat; [done|apply exp_pos]. Qed.

Lemma capJunction_value {F} `{Num F} n (this : t F) : capJunction (temperatures (junctions n this)) =
  if (n =? 14)%Z then lit 12 (-3) else if (n =? 10)%Z then lit 134 (-4) else if (n =? 7)%Z then lit 137 (-4)
  else if (n =? 5)%Z then lit 119 (-4) else if (n =? 3)%Z then lit 128 (-4) else if (n =? 2)%Z then lit 91 (-4)
  else if (n =? 1)%Z then lit 102 (-4) else (lit 1 (-3) / npow (#1 + vdd this / lit 9 (-1)) (lit 5 (-1)))%num.
Proof. reflexivity. Qed.

Lemma sidewalls_value {F} `{Num F} n (this : t F) :
  let base := (#1 + vdd this / lit 9 (-1))%num in
  capSidewall (temperatures (junctions n this)) = (lit 25 (-11) / npow base (lit 33 (-2)))%num /\
  capDrainToChannel (temperatures (junctions n this)) = (lit 5 (-11) / npow base (lit 33 (-2)))%num.
Proof. by split. Qed.

(** The parameters derived from a device table. *)
Lemma derived_ready n r this : Device this -> featureSizeInNano this = n -> featureSize this = nm n ->
  Ready n (temperatures (junctions n (overlap n (wordline_voltage r this)))).
Proof.
  intros D Hn Hs.
  assert (W : Device (wordline_voltage r this) /\ Kept this (wordline_voltage r this)).
  { unfold wordline_voltage. destruct (decide _); [|destruct (_ =? _)%num]; (split; [split; apply D|by split]). }
  destruct W as [W [Wn Ws _]]. set (w := wordline_voltage r this) in *.
  assert (O : Device (overlap n w) /\ Kept w (overlap n w) /\ 0 <= capOverlap (overlap n w)).
  { unfold overlap. destruct (22 <=? n)%Z; (split; [split; apply W|]); (split; [by split|]).
    - change (0 <= capIdealGate w * lit 2 (-1)). pose proof (dev_ideal _ W). pose proof (lit_pos 2 (-1) ltac:(lia)). nra.
    - change (0 <= 0). lra. }
  destruct O as (O & [On Os _] & Ho). set (o := overlap n w) in *.
  split; try done; try apply O; try (by apply interpolate_charted, O).
  - change (featureSizeInNano o = n). congruence.
  - change (featureSize o = nm n). congruence.
  - change (lit 0 0 = 0 :> R). literals. lra.
  - rewrite capJunction_value.
    repeat match goal with |- context [(n =? ?k)%Z] => destruct (n =? k)%Z; [apply lit_pos; lia|] end.
    apply junction_pos, lit_pos. lia.
  - rewrite (proj1 (sidewalls_value n o)). apply junction_pos, lit_pos. lia.
  - rewrite (proj2 (sidewalls_value n o)). apply junction_pos, lit_pos. lia.
Qed.

(** The fields that come from the device table [d] as they are, and the
    interpolated ones. *)
Record Derived (d tech : t R) : Prop := {
  der_vth : vth tech = vth d;
  der_vdd : vdd tech = vdd d;
  der_gate : phyGateLength tech = phyGateLength d;
  der_ideal : capIdealGate tech = capIdealGate d;
  der_fringe : capFringe tech = capFringe d;
  der_multiplier : effectiveResistanceMultiplier tech = effectiveResistanceMultiplier d;
  der_ratio : pnSizeRatio tech = pnSizeRatio d;
  der_on_n : currentOnNmos tech = interpolate (currentOnNmos d);
  der_on_p : currentOnPmos tech = interpolate (currentOnPmos d);
  der_off_n : currentOffNmos tech = interpolate (currentOffNmos d);
  der_off_p : currentOffPmos tech = interpolate (currentOffPmos d)
}.

(** The same device parameters. *)
Record Alike (a b : t R) : Prop := {
  al_vth : vth b = vth a;
  al_vdd : vdd b = vdd a;
  al_gate : phyGateLength b = phyGateLength a;
  al_ideal : capIdealGate b = capIdealGate a;
  al_fringe : capFringe b = capFringe a;
  al_multiplier : effectiveResistanceMultiplier b = effectiveResistanceMultiplier a;
  al_ratio : pnSizeRatio b = pnSizeRatio a;
  al_on_n : currentOnNmos b = currentOnNmos a;
  al_on_p : currentOnPmos b = currentOnPmos a;
  al_off_n : currentOffNmos b = currentOffNmos a;
  al_off_p : currentOffPmos b = currentOffPmos a
}.

Lemma derived_from d x tech : Alike d x -> Derived x tech -> Derived d tech.
Proof. intros [] []. split; congruence. Qed.

Lemma overlap_alike n this : Alike this (overlap n this).
Proof. unfold overlap. destruct (22 <=? n)%Z; by split. Qed.

Lemma wordline_alike r this : Alike this (wordline_voltage r this).
Proof. unfold wordline_voltage. destruct (decide _); [|destruct (_ =? _)%num]; by split. Qed.

Lemma junctions_derived n this : Derived this (temperatures (junctions n this)).
Proof. by split. Qed.

Lemma derived_fields n r this : Derived this (temperatures (junctions n (overlap n (wordline_voltage r this)))).
Proof.
  apply (derived_from _ _ _ (wordline_alike r this)), (derived_from _ _ _ (overlap_alike n _)), junctions_derived.
Qed.

Lemma vias_alike n this : Alike this (vias n this).
Proof. unfold vias. repeat match goal with |- context [(?k <=? n)%Z] => destruct (Z.leb_spec k n) end; by split. Qed.

Lemma layers_alike k res cap area this :
  Alike this ((via_tables k this) <| resTSV := res |> <| capTSV := cap |> <| areaTSV := area |> <| layerCount := k |>).
Proof. by split. Qed.

Lemma flags_derived d x : Derived d x -> Derived d (x <| neurosim_wiring := true |> <| initialized := true |>).
Proof.
  intros D. split; [apply (der_vth _ _ D)|apply (der_vdd _ _ D)|apply (der_gate _ _ D)|apply (der_ideal _ _ D)
    |apply (der_fringe _ _ D)|apply (der_multiplier _ _ D)|apply (der_ratio _ _ D)|apply (der_on_n _ _ D)
    |apply (der_on_p _ _ D)|apply (der_off_n _ _ D)|apply (der_off_p _ _ D)].
Qed.

(** The object as [Initialize] passes it to the device tables. *)
Definition prepared {F} `{Num F} (n : Z) (r : DeviceRoadmap) (this : t F) : t F :=
  this <| featureSizeInNano := n |> <| featureSize := (#n * lit 1 (-9))%num |> <| deviceRoadmap := r |> <| vpp := of_Z 0 |>.

Lemma flags_ready n x : Ready n x -> Ready n (x <| neurosim_wiring := true |> <| initialized := true |>).
Proof. intros D. split; apply D. Qed.

Section Initialization.
Context (ip : InputParameter.t R).
Hypothesis Hl : (0 <= InputParameter.localTsvProjection ip <= 2)%Z.
Hypothesis Hg : (0 <= InputParameter.globalTsvProjection ip <= 2)%Z.

Lemma Initialize_prepares n r this : Storage this -> layerCount this = 0%Z -> has_table n r = true ->
  exists d tech, devices n r (prepared n r this) = Ret d /\ Initialize ip n r this = Ret tech /\ Ready n tech /\ Derived d tech.
Proof.
  intros S L Ht. unfold Initialize.
  change (this <| featureSizeInNano := n |> <| featureSize := (#n * lit 1 (-9))%num |> <| deviceRoadmap := r |>
            <| vpp := of_Z 0 |>) with (prepared n r this). set (this0 := prepared n r this).
  assert (S0 : Storage this0) by (split; apply S).
  destruct (devices_ready n r this0 S0 eq_refl eq_refl Ht) as (d & Ed & D & [Dn Ds Dl]).
  cbv zeta. rewrite Ed. cbn [outcome_bind].
  pose proof (vias_device n d D) as V. destruct (vias_kept n d) as [Vn Vs Vl]. set (v := vias n d) in *.
  destruct (SetLayerCount_done ip Hl Hg 2 v) as (res & cap & area & E & _).
  { rewrite Vl, Dl. change (layerCount this0) with (layerCount this). rewrite L. done. }
  rewrite E. cbn [defined outcome_bind]. eexists d, _. split; [done|]. split; [reflexivity|].
  split; [|apply flags_derived, (derived_from d v _ (vias_alike n d)), (derived_from v _ _ (layers_alike 2 res cap area v)), derived_fields].
  apply flags_ready, derived_ready; [split; apply V|..].
  - change (featureSizeInNano v = n). by rewrite Vn, Dn.
  - change (featureSize v = nm n). by rewrite Vs, Ds.
Qed.

Lemma Initialize_exit n r this : has_table n r = false -> exists e, Initialize ip n r this = Exit e.
Proof.
  intros Ht. unfold Initialize. cbv zeta.
  match goal with |- context [devices n r ?x] => destruct (devices_exit n r x eq_refl eq_refl Ht) as [e ->] end.
  by exists e.
Qed.

End Initialization.

(** ** Blending two nodes *)

Lemma mix_pos w x y : 0 <= w <= 1 -> 0 < x -> 0 < y -> 0 < mix w x y.
Proof.
  intros Hw Hx Hy. change (0 < (1 - w) * x + w * y). destruct (Rle_lt_dec w (1 / 2)).
  - pose proof (Rmult_lt_0_compat (1 - w) x ltac:(lra) Hx). nra.
  - pose proof (Rmult_lt_0_compat w y ltac:(lra) Hy). nra.
Qed.

Lemma mix_nonneg_real w x y : 0 <= w <= 1 -> 0 <= x -> 0 <= y -> 0 <= mix w x y.
Proof. intros. change (0 <= (1 - w) * x + w * y). nra. Qed.

Lemma mix_lt w x y x' y' : 0 <= w <= 1 -> x < x' -> y < y' -> mix w x y < mix w x' y'.
Proof.
  intros Hw Hx Hy. pose proof (mix_pos w (x' - x) (y' - y) Hw ltac:(lra) ltac:(lra)) as Hm.
  change (0 < (1 - w) * (x' - x) + w * (y' - y)) in Hm. change ((1 - w) * x + w * y < (1 - w) * x' + w * y'). lra.
Qed.

Lemma mix_range w lo hi x y : 0 <= w <= 1 -> lo <= x <= hi -> lo <= y <= hi -> lo <= mix w x y <= hi.
Proof. intros. change (lo <= (1 - w) * x + w * y <= hi). nra. Qed.

Lemma mix_pow_pos w x y : 0 < mix_pow w x y.
Proof. change (0 < Rpower x (1 - w) * Rpower y w). apply Rmult_lt_0_compat; apply exp_pos. Qed.

(** A table of positive entries for every temperature. *)
Definition full (l : list R) : Prop := length l = 101%nat /\ Forall (Rlt 0) l.

Lemma zip_full (f : R -> R -> R) l k : (forall x y, 0 < x -> 0 < y -> 0 < f x y) ->
  full l -> full k -> full (zip_with f l k).
Proof.
  intros Hf [Ll Hl] [Lk Hk]. split; [by rewrite length_zip_with, Ll, Lk|]. clear Ll Lk.
  revert k Hk. induction Hl as [|x l Hx Hl IH]; intros k Hk; [constructor|].
  destruct Hk as [|y k Hy Hk]; [constructor|]. constructor; [by apply Hf|by apply IH].
Qed.

(** The fields of a blended object that the circuit models read. *)
Record Blended (w : R) (a b c : t R) : Prop := {
  bl_nano : featureSizeInNano c = featureSizeInNano a;
  bl_size : featureSize c = featureSize a;
  bl_vth : vth c = mix w (vth a) (vth b);
  bl_vdd : vdd c = mix w (vdd a) (vdd b);
  bl_gate : phyGateLength c = mix w (phyGateLength a) (phyGateLength b);
  bl_ideal : capIdealGate c = mix w (capIdealGate a) (capIdealGate b);
  bl_overlap : capOverlap c = capOverlap a;
  bl_fringe : capFringe c = mix w (capFringe a) (capFringe b);
  bl_poly : capPolywire c = capPolywire a;
  bl_multiplier : effectiveResistanceMultiplier c
    = mix w (effectiveResistanceMultiplier a) (effectiveResistanceMultiplier b);
  bl_ratio : pnSizeRatio c = mix w (pnSizeRatio a) (pnSizeRatio b);
  bl_junction : capJunction c = lit 1 (-3) / Rpower (1 + vdd c / lit 9 (-1)) (lit 5 (-1));
  bl_sidewall : capSidewall c = lit 25 (-11) / Rpower (1 + vdd c / lit 9 (-1)) (lit 33 (-2));
  bl_channel : capDrainToChannel c = lit 5 (-11) / Rpower (1 + vdd c / lit 9 (-1)) (lit 33 (-2));
  bl_on_n : currentOnNmos c = zip_with (mix w) (currentOnNmos a) (currentOnNmos b);
  bl_on_p : currentOnPmos c = zip_with (mix w) (currentOnPmos a) (currentOnPmos b);
  bl_off_n : currentOffNmos c = zip_with (mix_pow w) (currentOffNmos a) (currentOffNmos b);
  bl_off_p : currentOffPmos c = zip_with (mix_pow w) (currentOffPmos a) (currentOffPmos b)
}.

Lemma InterpolateWith_blended a b w : featureSizeInNano a <> featureSizeInNano b -> Blended w a b (InterpolateWith a b w).
Proof. intros Hne. unfold InterpolateWith. rewrite (proj2 (Z.eqb_neq _ _) Hne). by split. Qed.

Lemma blended_ready n m a b c w : 0 <= w <= 1 -> Ready n a -> Ready m b -> Blended w a b c -> Ready n c.
Proof.
  intros Hw A B C.
  split; rewrite ?(bl_nano _ _ _ _ C), ?(bl_size _ _ _ _ C), ?(bl_vth _ _ _ _ C), ?(bl_gate _ _ _ _ C), ?(bl_ideal _ _ _ _ C),
    ?(bl_overlap _ _ _ _ C), ?(bl_fringe _ _ _ _ C), ?(bl_poly _ _ _ _ C), ?(bl_multiplier _ _ _ _ C), ?(bl_ratio _ _ _ _ C),
    ?(bl_junction _ _ _ _ C), ?(bl_sidewall _ _ _ _ C), ?(bl_channel _ _ _ _ C), ?(bl_on_n _ _ _ _ C), ?(bl_on_p _ _ _ _ C),
    ?(bl_off_n _ _ _ _ C), ?(bl_off_p _ _ _ _ C);
    try apply A.
  - rewrite (bl_vdd _ _ _ _ C). pose proof (ready_voltage _ _ A). pose proof (ready_voltage _ _ B).
    split; [apply mix_pos|apply mix_lt]; tauto.
  - apply mix_pos; [done|apply A|apply B].
  - apply mix_pos; [done|apply A|apply B].
  - apply mix_nonneg_real; [done|apply A|apply B].
  - apply mix_pos; [done|apply A|apply B].
  - apply mix_range; [done|apply A|apply B].
  - apply junction_pos, lit_pos. lia.
  - apply junction_pos, lit_pos. lia.
  - apply junction_pos, lit_pos. lia.
  - apply zip_full; [intros; by apply mix_pos|apply A|apply B].
  - apply zip_full; [intros; by apply mix_pos|apply A|apply B].
  - apply zip_full; [intros; apply mix_pow_pos|apply A|apply B].
  - apply zip_full; [intros; apply mix_pow_pos|apply A|apply B].
Qed.

(** A blend of two objects with the same device parameters keeps them, whatever
    its weight. *)
Lemma mix_same w (x : R) : mix w x x = x.
Proof. change ((1 - w) * x + w * x = x). lra. Qed.

Lemma zip_same_full (f : R -> R -> R) l : (forall x, 0 < x -> 0 < f x x) -> full l -> full (zip_with f l l).
Proof.
  intros Hf [Ll Hl]. split; [by rewrite length_zip_with, Ll|]. clear Ll.
  induction Hl as [|x l Hx Hl IH]; constructor; [by apply Hf|done].
Qed.

Lemma blended_same_ready n a b c w : Ready n a -> Alike a b -> Blended w a b c -> Ready n c.
Proof.
  intros A [] []. split; repeat match goal with E : _ = _ |- _ => rewrite E; clear E end; rewrite ?mix_same; try apply A;
    try (apply junction_pos, lit_pos; lia);
    (apply zip_same_full; [intros; rewrite ?mix_same; by try apply mix_pow_pos|apply A]).
Qed.

(** From 180 nm on there is one table per roadmap. *)
Lemma devices_180 n n' r x x' d d' tech tech' : (180 <= n)%Z -> (180 <= n')%Z -> Storage x -> Storage x' ->
  devices n r x = Ret d -> devices n' r x' = Ret d' -> Derived d tech -> Derived d' tech' -> Alike tech tech'.
Proof.
  intros Hn Hn' S S'. unfold devices. destruct (Z.leb_spec 180 n); [|lia]. destruct (Z.leb_spec 180 n'); [|lia].
  destruct r; try done; intros [= <-] [= <-] D D';
    (split; [rewrite (der_vth _ _ D), (der_vth _ _ D')|rewrite (der_vdd _ _ D), (der_vdd _ _ D')
            |rewrite (der_gate _ _ D), (der_gate _ _ D')|rewrite (der_ideal _ _ D), (der_ideal _ _ D')
            |rewrite (der_fringe _ _ D), (der_fringe _ _ D')|rewrite (der_multiplier _ _ D), (der_multiplier _ _ D')
            |rewrite (der_ratio _ _ D), (der_ratio _ _ D')
            |rewrite (der_on_n _ _ D), (der_on_n _ _ D')|rewrite (der_on_p _ _ D), (der_on_p _ _ D')
            |rewrite (der_off_n _ _ D), (der_off_n _ _ D')|rewrite (der_off_p _ _ D), (der_off_p _ _ D')]);
    lazy delta [HP_180 LSTP_180 LOP_180]; field_of;
    lazymatch goal with
    | |- interpolate _ = _ => apply interpolate_storage; [reflexivity|stored S'|stored S]
    | _ => reflexivity
    end.
Qed.

(** ** The program's processes *)

(** The nodes and roadmaps [initializeTechnology] can build: both the node and
    the one it is blended with have a table. *)
Definition supported (n : Z) (r : DeviceRoadmap) : bool :=
  match r with
  | HP => 22 <=? n
  | LSTP | LOP => 1 <=? n
  | EDRAM => (1 <=? n) && (n <=? 90)
  | IWO => (1 <=? n) && (n <? 14)
  end%Z.

Lemma supported_tables n r : supported n r = true <->
  has_table n r = true /\
  match blend (F := R) n with Some (high, _) => has_table high r = true | None => True end.
Proof.
  unfold blend.
  repeat match goal with |- context [(?a <? ?b)%Z] => lazymatch b with n => destruct (Z.ltb_spec a b) end
                    | |- context [(?a <=? n)%Z] => destruct (Z.leb_spec a n) end;
    destruct r; cbn [supported has_table]; lia.
Qed.

Lemma blend_top n high (alpha : R) : (180 < n)%Z -> blend n = Some (high, alpha) -> high = 200%Z.
Proof.
  intros Hn. unfold blend. destruct (Z.ltb_spec 200 n); [done|]. destruct (Z.ltb_spec 120 n); [|lia]. by intros [= <- _].
Qed.

Lemma constructed_storage raw : Storage raw -> Storage (Technology raw).
Proof. intros []. by split. Qed.

Lemma prepared_storage n r this : Storage this -> Storage (prepared n r this).
Proof. intros []. by split. Qed.

Section Program.
Context (ip : InputParameter.t R).
Hypothesis Hl : (0 <= InputParameter.localTsvProjection ip <= 2)%Z.
Hypothesis Hg : (0 <= InputParameter.globalTsvProjection ip <= 2)%Z.

Lemma initializeTechnology_ready raw raw' n r : Storage raw -> Storage raw' -> supported n r = true ->
  exists tech, initializeTechnology ip raw n r (Technology raw') = Ret tech /\ Ready n tech.
Proof.
  intros S%constructed_storage S'%constructed_storage [Ht Hb]%supported_tables. unfold initializeTechnology.
  destruct (Initialize_prepares ip Hl Hg n r _ S' eq_refl Ht) as (d & a & Ed & -> & A & Da). cbn [outcome_bind].
  destruct (blend n) as [[high alpha]|] eqn:Eb; [|by exists a].
  destruct (Initialize_prepares ip Hl Hg high r _ S eq_refl Hb) as (d' & b & Ed' & -> & B & Db). cbn [outcome_bind].
  eexists. split; [reflexivity|]. pose proof (ready_nano _ _ A) as En. pose proof (ready_nano _ _ B) as En'.
  destruct (Z.eq_dec n high) as [<-|Hne]; [unfold InterpolateWith; by rewrite En, En', Z.eqb_refl|].
  assert (Bl : Blended alpha a b (InterpolateWith a b alpha)) by (apply InterpolateWith_blended; congruence).
  destruct (Z.le_gt_cases n 180) as [Hn|Hn].
  - destruct (blend_range n high alpha Hn Eb) as [Ha _]. by apply (blended_ready n high a b _ alpha).
  - pose proof (blend_top n high alpha ltac:(lia) Eb) as ->. apply (blended_same_ready n a b _ alpha A); [|done].
    eapply (devices_180 n 200 r); [lia|lia|exact (prepared_storage n r _ S')|exact (prepared_storage 200 r _ S)|done..].
Qed.

Lemma initializeTechnology_exit raw raw' n r : supported n r = false ->
  exists e, initializeTechnology ip raw n r (Technology raw') = Exit e.
Proof.
  intros Hs. unfold initializeTechnology. destruct (has_table n r) eqn:Ht.
  - destruct (Initialize ip n r (Technology raw')) as [a|e] eqn:Ea; [|by exists e]. cbn [outcome_bind].
    destruct (blend n) as [[high alpha]|] eqn:Eb.
    + assert (Hh : has_table high r = false).
      { apply not_true_is_false. intros Hh. pose proof (proj2 (supported_tables n r)) as Hc. rewrite Eb in Hc. rewrite Hc in Hs; done. }
      destruct (Initialize_exit ip high r (Technology raw) Hh) as [e ->]. by exists e.
    + pose proof (proj2 (supported_tables n r)) as Hc. rewrite Eb in Hc. by rewrite Hc in Hs.
  - destruct (Initialize_exit ip n r (Technology raw') Ht) as [e ->]. by exists e.
Qed.

End Program.

End TechInit.
