(* ===== verification/OutputDriver.v ===== *)
(** * Output drivers

    OutputDriver.h/.cpp: the inverter chain that drives every decoder, wordline
    and multiplexer.  [Initialize] sizes the chain by logical effort, in one of
    three design styles; the other operations compute area, capacitance, delay
    and power of the chain.  The arrays have [MAX_INV_CHAIN_LEN] elements; an
    access outside is undefined. *)
From S2P Require Import Prelude Numeric Types InputParameter Process Formula Circuit.
From stdpp Require Import base list strings.
From Stdlib Require Import ZArith Lia.
Open Scope Z_scope.

Module OutputDriver.
Import Formula.

Definition MAX_INV_CHAIN_LEN : Z := 20.
Definition OPT_F : Z := 4.

(** OutputDriver.h *)
Record t (F : Type) : Type := mk {
  fu : FunctionUnit.t F;
  initialized : bool;
  invalid : bool;
  logicEffort : F;
  inputCap : F;
  outputCap : F;
  outputRes : F;
  addRepeaters : bool;
  inv : bool;
  numStage : Z;
  areaOptimizationLevel : BufferDesignTarget;
  minDriverCurrent : F;
  widthNMOS : list F;
  widthPMOS : list F;
  capInput : list F;
  capOutput : list F;
  rampInput : F;
  rampOutput : F;
  wireLength : F
}.
Arguments mk {_} _ _ _ _ _ _ _ _ _ _ _ _ _ _ _ _ _ _ _.
Arguments fu {_} _.
Arguments initialized {_} _.
Arguments invalid {_} _.
Arguments logicEffort {_} _.
Arguments inputCap {_} _.
Arguments outputCap {_} _.
Arguments outputRes {_} _.
Arguments addRepeaters {_} _.
Arguments inv {_} _.
Arguments numStage {_} _.
Arguments areaOptimizationLevel {_} _.
Arguments minDriverCurrent {_} _.
Arguments widthNMOS {_} _.
Arguments widthPMOS {_} _.
Arguments capInput {_} _.
Arguments capOutput {_} _.
Arguments rampInput {_} _.
Arguments rampOutput {_} _.
Arguments wireLength {_} _.
#[global] Instance eta {F : Type} : RecordEta (t F) := fun x =>
  mk (fu x) (initialized x) (invalid x) (logicEffort x) (inputCap x) (outputCap x) (outputRes x)
    (addRepeaters x) (inv x) (numStage x) (areaOptimizationLevel x) (minDriverCurrent x) (widthNMOS x)
    (widthPMOS x) (capInput x) (capOutput x) (rampInput x) (rampOutput x) (wireLength x).

(** Elements of an array of doubles. *)
Definition get {F : Type} (l : list F) (i : Z) : Outcome F :=
  if i <? 0 then Exit undefined
  else match l !! Z.to_nat i with Some x => Ret x | None => Exit undefined end.

Definition put {F : Type} (l : list F) (i : Z) (x : F) : Outcome (list F) :=
  if (0 <=? i) && (i <? Z.of_nat (length l)) then Ret (<[Z.to_nat i := x]> l) else Exit undefined.

Section Operations.
Context {F : Type} `{Num F}.
Context (tech : Process.t F) (ip : InputParameter.t F).

Definition zeros : list F := replicate (Z.to_nat MAX_INV_CHAIN_LEN) (of_Z 0).

(** OutputDriver::OutputDriver *)
Definition OutputDriver : t F :=
  mk FunctionUnit.FunctionUnit false false (of_Z 0) (of_Z 0) (of_Z 0) (of_Z 0) false false 0 latency_first
    (of_Z 0) zeros zeros zeros zeros (of_Z 0) (of_Z 0) (of_Z 0).

Definition fs : F := Process.featureSize tech.
Definition temperature : F := of_Z (InputParameter.temperature ip).
Definition max_width : F := (InputParameter.maxNmosSize ip * fs)%num.
Definition min_width : F := (MIN_NMOS_SIZE * fs)%num.
Definition cell_region : F := (fs * MAX_TRANSISTOR_HEIGHT)%num.

(** [(featureSize <= 14*1e-9) ? 2 : 1], times a width *)
Definition fin_scale (w : F) : F := (of_Z (if (fs <=? nm 14)%num then 2 else 1) * w)%num.

(** [MAX(0, (int)(log(F) / log(OPT_F) + 0.5) - 1)] *)
Definition effort_stages (effort : F) : Z :=
  Z.max 0 (trunc (nlog effort / nlog #OPT_F + lit 5 (-1))%num - 1).

(** Both styles bring the number of stages to the parity [odd] and clamp it. *)
Definition adjust (odd : bool) (n : Z) : Z :=
  let n := if xorb (Z.rem n 2 =? 1) odd then n + 1 else n in
  if MAX_INV_CHAIN_LEN <? n then MAX_INV_CHAIN_LEN else n.

(** The smallest NMOS that provides the driver current. *)
Definition min_driver_width (current : F) : Outcome F :=
  let? on := get (Process.currentOnNmos tech) (InputParameter.temperature ip - 300) in
  Ret (MAX min_width (current / on)%num).

(** The widths of stages [i-1] down to 0, each [f] times smaller than the next. *)
Fixpoint shrink (enlarge : bool) (f : F) (i : nat) (d : t F) : Outcome (t F) :=
  match i with
  | O => Ret d
  | S j =>
      let? next := get (widthNMOS d) (Z.of_nat i) in
      let w := (next / f)%num in
      let n := if (w <? min_width)%num then min_width else w in
      let p := (n * Process.pnSizeRatio tech)%num in
      let? (n, p) := if enlarge then EnlargeSize n p cell_region tech else Ret (n, p) in
      let? ns := put (widthNMOS d) (Z.of_nat j) n in
      let? ps := put (widthPMOS d) (Z.of_nat j) p in
      shrink enlarge f j (d <| widthNMOS := ns |> <| widthPMOS := ps |>)
  end.

(** The last inverter in the latency style: its width and the effort per stage,
    computed anew when the widest transistor is not enough. *)
Definition last_inverter (d : t F) (effort : F) (n : Z) : F * F :=
  (let f := npow effort (lit 10 (-1) / #(n + 1)) in
   let inputCapLast := outputCap d / f in
   let w := MAX min_width (inputCapLast / CalculateGateCap #1 tech / (lit 10 (-1) + Process.pnSizeRatio tech)) in
   if w >? max_width then
     let capLastStage := CalculateGateCap ((#1 + Process.pnSizeRatio tech) * InputParameter.maxNmosSize ip * fs) tech in
     (max_width, npow (logicEffort d * capLastStage / inputCap d) (lit 10 (-1) / #n))
   else (w, f))%num.

(** OutputDriver::Initialize, [latency_first]. *)
Definition latency_style (minNMOSDriverWidth : F) (d : t F) : Outcome (t F) :=
  let effort := MAX (of_Z 1) (logicEffort d * outputCap d / inputCap d)%num in
  let n := adjust (inv d) (effort_stages effort) in
  let d := d <| numStage := n |> in
  if n =? 0 then
    Ret (if (minDriverCurrent d >? #0)%num then d <| areaOptimizationLevel := latency_area_trade_off |> else d)
  else
    let '(w, f) := last_inverter d effort n in
    let? ns := put (widthNMOS d) (n - 1) w in
    let d := d <| widthNMOS := ns |> in
    if (w <? minNMOSDriverWidth)%num then Ret (d <| areaOptimizationLevel := latency_area_trade_off |>)
    else
      let? ps := put (widthPMOS d) (n - 1) (w * Process.pnSizeRatio tech)%num in
      shrink true f (Z.to_nat (n - 1)) (d <| widthPMOS := ps |>).

(** [latency_area_trade_off]: the effort of driving the last stage itself. *)
Definition trade_off_effort (effort cap minNMOSDriverWidth : F) : F :=
  let newOutputCap := (CalculateGateCap minNMOSDriverWidth tech * (lit 10 (-1) + Process.pnSizeRatio tech))%num in
  MAX (of_Z 1) (effort * newOutputCap / cap)%num.

Definition trade_off_style (minNMOSDriverWidth : F) (d : t F) : Outcome (t F) :=
  let effort := trade_off_effort (logicEffort d) (inputCap d) minNMOSDriverWidth in
  let n := adjust (negb (inv d)) (effort_stages effort) in
  let d := d <| numStage := n + 1 |> in
  let? ns := put (widthNMOS d) n minNMOSDriverWidth in
  let? ps := put (widthPMOS d) n (minNMOSDriverWidth * Process.pnSizeRatio tech)%num in
  shrink false (npow effort (lit 10 (-1) / #(n + 1))%num) (Z.to_nat n) (d <| widthNMOS := ns |> <| widthPMOS := ps |>).

(** [area_first]; [true] is the early return of an invalid driver. *)
Definition area_style (minNMOSDriverWidth : F) (d : t F) : Outcome (t F * bool) :=
  let d := d <| numStage := 1 |> in
  let w := MAX min_width minNMOSDriverWidth in
  let? ns := put (widthNMOS d) 0 w in
  let d := d <| widthNMOS := ns |> in
  if (w >? #1 * InputParameter.maxNmosSize ip * fs)%num then Ret (d <| invalid := true |>, true)
  else
    let? ps := put (widthPMOS d) 0 (w * Process.pnSizeRatio tech)%num in
    Ret (d <| widthPMOS := ps |>, false).

(** OutputDriver::Initialize *)
Definition Initialize (_logicEffort _inputCap _outputCap _outputRes : F) (_inv : bool)
  (_areaOptimizationLevel : BufferDesignTarget) (_minDriverCurrent : F) (_addRepeaters : bool) (_wireLength : F)
  (d : t F) : Outcome (t F) :=
  let d := d <| logicEffort := _logicEffort |> <| inputCap := _inputCap |> <| outputCap := _outputCap |>
             <| outputRes := _outputRes |> <| inv := _inv |> <| areaOptimizationLevel := _areaOptimizationLevel |>
             <| minDriverCurrent := _minDriverCurrent |> <| addRepeaters := _addRepeaters |>
             <| wireLength := _wireLength |> <| invalid := false |> in
  let? minNMOSDriverWidth := min_driver_width (minDriverCurrent d) in
  if (minNMOSDriverWidth >? max_width)%num then Ret (d <| invalid := true |>)
  else
    let? d := if bool_decide (areaOptimizationLevel d = latency_first)
              then latency_style minNMOSDriverWidth d else Ret d in
    let? (d, rejected) :=
      if bool_decide (areaOptimizationLevel d = latency_area_trade_off)
      then let? d := trade_off_style minNMOSDriverWidth d in Ret (d, false)
      else if bool_decide (areaOptimizationLevel d = area_first) then area_style minNMOSDriverWidth d
      else Ret (d, false) in
    if rejected : bool then Ret d
    else Ret (d <| areaOptimizationLevel := _areaOptimizationLevel |> <| initialized := true |>).

(** [for (int i = 0; i < n; i++)] *)
Definition stages {A : Type} (n : Z) (body : A -> Z -> Outcome A) (s : A) : Outcome A :=
  outcome_fold body (seqZ 0 n) s.

(** OutputDriver::CalculateArea *)
Definition CalculateArea (d : t F) : Outcome (t F) :=
  if negb (initialized d) then Ret d
  else if invalid d then
    Ret (d <| fu := (fu d) <| FunctionUnit.height := invalid_value |> <| FunctionUnit.width := invalid_value |>
                           <| FunctionUnit.area := invalid_value |> |>)
  else
    let? (totalHeight, totalWidth) :=
      stages (numStage d) (fun '(th, tw) i =>
        let? n := get (widthNMOS d) i in
        let? p := get (widthPMOS d) i in
        let? (_, h, w) := CalculateGateArea INV 1 n p (fs * #40)%num tech in
        Ret (MAX th h, tw + w)%num) (of_Z 0, of_Z 0) in
    Ret (d <| fu := (fu d) <| FunctionUnit.height := totalHeight |> <| FunctionUnit.width := totalWidth |>
                           <| FunctionUnit.area := (totalHeight * totalWidth)%num |> |>).

(** OutputDriver::CalculateRC *)
Definition CalculateRC (d : t F) : Outcome (t F) :=
  if negb (initialized d) then Ret d
  else if invalid d then Ret d
  else if numStage d =? 0 then
    let? cs := put (capInput d) 0 (of_Z 0) in Ret (d <| capInput := cs |>)
  else
    stages (numStage d) (fun d i =>
      let? n := get (widthNMOS d) i in
      let? p := get (widthPMOS d) i in
      let? (ci, co) := CalculateGateCapacitance INV 1 n p cell_region tech in
      let? cis := put (capInput d) i ci in
      let? cos := put (capOutput d) i co in
      Ret (d <| capInput := cis |> <| capOutput := cos |>)) d.

(** The delay and output ramp of one inverter of width [w], whose time constant
    is [time] of its pull-down resistance. *)
Definition inverter_delay (w : F) (time : F -> F) (ramp : F) : Outcome (F * F) :=
  let? resPullDown := CalculateOnResistance (fin_scale w) NMOS temperature tech in
  let gm := CalculateTransconductance (fin_scale w) NMOS tech in
  let beta := (#1 / (resPullDown * gm))%num in
  Ret (horowitz (time resPullDown) beta ramp).

(** OutputDriver::CalculateLatency *)
Definition CalculateLatency (_rampInput : F) (d : t F) : Outcome (t F) :=
  if negb (initialized d) then Ret d
  else if invalid d then
    Ret (d <| fu := (fu d) <| FunctionUnit.readLatency := invalid_value |> <| FunctionUnit.writeLatency := invalid_value |> |>)
  else if numStage d =? 0 then
    Ret (d <| rampInput := _rampInput |> <| rampOutput := _rampInput |>
           <| fu := (fu d) <| FunctionUnit.readLatency := of_Z 0 |> <| FunctionUnit.writeLatency := of_Z 0 |> |>)
  else
    let? (readLatency, ramp) :=
      stages (numStage d - 1) (fun '(latency, ramp) i =>
        let? w := get (widthNMOS d) i in
        let? co := get (capOutput d) i in
        let? ci := get (capInput d) (i + 1) in
        let? (delay, temp) := inverter_delay w (fun res => res * (co + ci))%num ramp in
        Ret (latency + delay, temp)%num) (of_Z 0, _rampInput) in
    let? w := get (widthNMOS d) (numStage d - 1) in
    let? co := get (capOutput d) (numStage d - 1) in
    let? (delay, out) := inverter_delay w (fun res => res * (co + outputCap d) + outputCap d * outputRes d / #2)%num ramp in
    let readLatency := (readLatency + delay)%num in
    Ret (d <| rampInput := _rampInput |> <| rampOutput := out |>
           <| fu := (fu d) <| FunctionUnit.readLatency := readLatency |> <| FunctionUnit.writeLatency := readLatency |> |>).

(** OutputDriver::CalculatePower *)
Definition CalculatePower (d : t F) : Outcome (t F) :=
  let vdd := Process.vdd tech in
  let set (r w l : F) :=
    d <| fu := (fu d) <| FunctionUnit.readDynamicEnergy := r |> <| FunctionUnit.writeDynamicEnergy := w |>
                      <| FunctionUnit.leakage := l |> |> in
  if negb (initialized d) then Ret d
  else if invalid d then Ret (set invalid_value invalid_value invalid_value)
  else if numStage d =? 0 then Ret (set (of_Z 0) (of_Z 0) (of_Z 0))
  else
    let? leakage :=
      stages (numStage d) (fun leakage i =>
        let? n := get (widthNMOS d) i in
        let? p := get (widthPMOS d) i in
        let? l := CalculateGateLeakage INV 1 n p temperature tech in
        Ret (leakage + l * vdd)%num) (of_Z 0) in
    let? energy :=
      stages (numStage d - 1) (fun energy i =>
        let? co := get (capOutput d) i in
        let? ci := get (capInput d) (i + 1) in
        Ret (energy + (co + ci) * vdd * vdd)%num) (of_Z 0) in
    let? co := get (capOutput d) (numStage d - 1) in
    let energy := (energy + (co + outputCap d) * vdd * vdd)%num in
    Ret (set energy energy leakage).

End Operations.
End OutputDriver.
