(* ===== verification/Decoders.v ===== *)
(** * Decoders

    BasicDecoder.h/.cpp (1-to-2, 2-to-4 and 3-to-8 decoders), RowDecoder.h/.cpp
    (one gate and driver per row) and PredecodeBlock.h/.cpp (the tree of basic
    decoders and row decoders that decodes up to 27 address bits).  A pointer
    member is an [option]; dereferencing NULL and reading an unset variable are
    undefined.  [raw] stands for the unset doubles of a new object. *)
From S2P Require Import Prelude Numeric Types InputParameter Process Formula Circuit OutputDriver.
From stdpp Require Import base list strings.
From Stdlib Require Import ZArith Lia.
Open Scope Z_scope.

(** [std::max] *)
Definition stdmax {F} `{Num F} (a b : F) : F := if (a <? b)%num then b else a.

Definition deref {A : Type} (p : option A) : Outcome A :=
  match p with Some x => Ret x | None => Exit Formula.undefined end.

(** [if (p != NULL) p->op();] *)
Definition on_pointer {A : Type} (op : A -> Outcome A) (p : option A) : Outcome (option A) :=
  match p with Some x => let? y := op x in Ret (Some y) | None => Ret None end.

Module BasicDecoder.
Import Formula.

Record t (F : Type) : Type := mk {
  fu : FunctionUnit.t F;
  initialized : bool;
  outputDriver : OutputDriver.t F;
  capLoad : F;
  resLoad : F;
  numNandInput : Z;
  numNandGate : Z;
  widthNandN : F;
  widthNandP : F;
  capNandInput : F;
  capNandOutput : F;
  rampInput : F;
  rampOutput : F;
  wireLength : F
}.
Arguments mk {_} _ _ _ _ _ _ _ _ _ _ _ _ _ _.
Arguments fu {_} _.
Arguments initialized {_} _.
Arguments outputDriver {_} _.
Arguments capLoad {_} _.
Arguments resLoad {_} _.
Arguments numNandInput {_} _.
Arguments numNandGate {_} _.
Arguments widthNandN {_} _.
Arguments widthNandP {_} _.
Arguments capNandInput {_} _.
Arguments capNandOutput {_} _.
Arguments rampInput {_} _.
Arguments rampOutput {_} _.
Arguments wireLength {_} _.
#[global] Instance eta {F : Type} : RecordEta (t F) := fun x =>
  mk (fu x) (initialized x) (outputDriver x) (capLoad x) (resLoad x) (numNandInput x) (numNandGate x)
    (widthNandN x) (widthNandP x) (capNandInput x) (capNandOutput x) (rampInput x) (rampOutput x) (wireLength x).

Section Operations.
Context {F : Type} `{Num F}.
Context (raw : F) (tech : Process.t F) (ip : InputParameter.t F).

(** BasicDecoder::BasicDecoder *)
Definition BasicDecoder : t F :=
  mk FunctionUnit.FunctionUnit false OutputDriver.OutputDriver raw raw 0 0 raw raw raw raw raw raw raw.

(** The input capacitance of a gate of the given widths. *)
Definition gate_cap (n p : F) : F :=
  (CalculateGateCap (OutputDriver.fin_scale tech n) tech + CalculateGateCap (OutputDriver.fin_scale tech p) tech)%num.

(** BasicDecoder::Initialize *)
Definition Initialize (_numAddressBit : Z) (_capLoad _resLoad _wireLength : F) (b : t F) : Outcome (t F) :=
  let fs := Process.featureSize tech in
  let pn := Process.pnSizeRatio tech in
  let b := b <| numNandInput := if _numAddressBit =? 1 then 0 else _numAddressBit |>
             <| capLoad := _capLoad |> <| resLoad := _resLoad |> <| wireLength := _wireLength |> in
  let drive (effort cap : F) (b : t F) :=
    let? o := OutputDriver.Initialize tech ip effort cap (capLoad b) (resLoad b) true latency_first (of_Z 0) false
                (wireLength b) (outputDriver b) in
    Ret (b <| outputDriver := o |> <| initialized := true |>) in
  if numNandInput b =? 0 then
    drive (of_Z 1) (gate_cap (MIN_NMOS_SIZE * fs) (pn * MIN_NMOS_SIZE * fs))%num (b <| numNandGate := 0 |>)
  else
    let '(gates, k) := if numNandInput b =? 2 then (4, 2) else (8, 3) in
    let b := b <| numNandGate := gates |> <| widthNandN := (#k * MIN_NMOS_SIZE * fs)%num |>
               <| widthNandP := (pn * MIN_NMOS_SIZE * fs)%num |> in
    drive ((#k + pn) / (#1 + pn))%num (gate_cap (widthNandN b) (widthNandP b)) b.

(** BasicDecoder::CalculateArea *)
Definition CalculateArea (b : t F) : Outcome (t F) :=
  if negb (initialized b) then Ret b
  else
    let? o := OutputDriver.CalculateArea tech (outputDriver b) in
    let oh := FunctionUnit.height (OutputDriver.fu o) in
    let ow := FunctionUnit.width (OutputDriver.fu o) in
    let? (h, w) :=
      if numNandInput b =? 0 then Ret (#2 * oh, ow)%num
      else
        let? (_, hNand, wNand) := CalculateGateArea NAND (numNandInput b) (widthNandN b) (widthNandP b)
                                    (Process.featureSize tech * #40)%num tech in
        Ret (MAX hNand oh * #(numNandGate b), wNand + ow)%num in
    Ret (b <| outputDriver := o |>
           <| fu := (fu b) <| FunctionUnit.height := h |> <| FunctionUnit.width := w |>
                           <| FunctionUnit.area := (h * w)%num |> |>).

(** BasicDecoder::CalculateRC *)
Definition CalculateRC (b : t F) : Outcome (t F) :=
  if negb (initialized b) then Ret b
  else
    let? o := OutputDriver.CalculateRC tech (outputDriver b) in
    let b := b <| outputDriver := o |> in
    if 0 <? numNandInput b then
      let? (ci, co) := CalculateGateCapacitance NAND (numNandInput b) (widthNandN b) (widthNandP b)
                         (OutputDriver.cell_region tech) tech in
      Ret (b <| capNandInput := ci |> <| capNandOutput := co |>)
    else Ret b.

(** The delay and output ramp of a NAND of width [w] that drives a driver. *)
Definition nand_delay (w : F) (numInput : Z) (load ramp : F) : Outcome (F * F) :=
  let? res := CalculateOnResistance (OutputDriver.fin_scale tech w) NMOS (OutputDriver.temperature ip) tech in
  let resPullDown := (res * #numInput)%num in
  let gm := CalculateTransconductance (OutputDriver.fin_scale tech w) NMOS tech in
  Ret (horowitz (resPullDown * load)%num (#1 / (resPullDown * gm))%num ramp).

(** BasicDecoder::CalculateLatency *)
Definition CalculateLatency (_rampInput : F) (b : t F) : Outcome (t F) :=
  if negb (initialized b) then Ret b
  else
    let b := b <| rampInput := _rampInput |> in
    let? (delay, ramp) :=
      if numNandInput b =? 0 then Ret (None, rampInput b)
      else
        let? c0 := OutputDriver.get (OutputDriver.capInput (outputDriver b)) 0 in
        let? (delay, ramp) := nand_delay (widthNandN b) (numNandInput b) (capNandOutput b + c0)%num (rampInput b) in
        Ret (Some delay, ramp) in
    let? o := OutputDriver.CalculateLatency tech ip ramp (outputDriver b) in
    let own := FunctionUnit.readLatency (OutputDriver.fu o) in
    let latency := match delay with Some x => (x + own)%num | None => own end in
    Ret (b <| outputDriver := o |> <| rampOutput := OutputDriver.rampOutput o |>
           <| fu := (fu b) <| FunctionUnit.readLatency := latency |> <| FunctionUnit.writeLatency := latency |> |>).

(** BasicDecoder::CalculatePower *)
Definition CalculatePower (b : t F) : Outcome (t F) :=
  let vdd := Process.vdd tech in
  if negb (initialized b) then Ret b
  else
    let? o := OutputDriver.CalculatePower tech ip (outputDriver b) in
    let u := OutputDriver.fu o in
    let? c0 := OutputDriver.get (OutputDriver.capInput o) 0 in
    let? (leakage, load) :=
      if numNandInput b =? 0 then
        let? co := OutputDriver.get (OutputDriver.capOutput o) 0 in
        Ret (#2 * FunctionUnit.leakage u, c0 + co)%num
      else
        let? l := CalculateGateLeakage NAND (numNandInput b) (widthNandN b) (widthNandP b)
                    (OutputDriver.temperature ip) tech in
        Ret ((l * vdd + FunctionUnit.leakage u) * #(numNandGate b), capNandOutput b + c0)%num in
    let energy := ((load * vdd * vdd + FunctionUnit.readDynamicEnergy u) * #1)%num in
    Ret (b <| outputDriver := o |>
           <| fu := (fu b) <| FunctionUnit.leakage := leakage |> <| FunctionUnit.readDynamicEnergy := energy |>
                           <| FunctionUnit.writeDynamicEnergy := energy |> |>).

End Operations.
End BasicDecoder.

Module RowDecoder.
Import Formula.

Record t (F : Type) : Type := mk {
  fu : FunctionUnit.t F;
  initialized : bool;
  invalid : bool;
  outputDriver : OutputDriver.t F;
  numRow : Z;
  multipleRowPerSet : bool;
  numNandInput : Z;
  capLoad : F;
  resLoad : F;
  areaOptimizationLevel : BufferDesignTarget;
  minDriverCurrent : F;
  widthNandN : F;
  widthNandP : F;
  capNandInput : F;
  capNandOutput : F;
  rampInput : F;
  rampOutput : F;
  wireLength : F
}.
Arguments mk {_} _ _ _ _ _ _ _ _ _ _ _ _ _ _ _ _ _ _.
Arguments fu {_} _.
Arguments initialized {_} _.
Arguments invalid {_} _.
Arguments outputDriver {_} _.
Arguments numRow {_} _.
Arguments multipleRowPerSet {_} _.
Arguments numNandInput {_} _.
Arguments capLoad {_} _.
Arguments resLoad {_} _.
Arguments areaOptimizationLevel {_} _.
Arguments minDriverCurrent {_} _.
Arguments widthNandN {_} _.
Arguments widthNandP {_} _.
Arguments capNandInput {_} _.
Arguments capNandOutput {_} _.
Arguments rampInput {_} _.
Arguments rampOutput {_} _.
Arguments wireLength {_} _.
#[global] Instance eta {F : Type} : RecordEta (t F) := fun x =>
  mk (fu x) (initialized x) (invalid x) (outputDriver x) (numRow x) (multipleRowPerSet x) (numNandInput x)
    (capLoad x) (resLoad x) (areaOptimizationLevel x) (minDriverCurrent x) (widthNandN x) (widthNandP x)
    (capNandInput x) (capNandOutput x) (rampInput x) (rampOutput x) (wireLength x).

Section Operations.
Context {F : Type} `{Num F}.
Context (tech : Process.t F) (ip : InputParameter.t F) (memCellType : MemCellType).

(** RowDecoder::RowDecoder *)
Definition RowDecoder : t F :=
  mk FunctionUnit.FunctionUnit false false OutputDriver.OutputDriver 0 false 0 (of_Z 0) (of_Z 0) latency_first
    (of_Z 0) (of_Z 0) (of_Z 0) (of_Z 0) (of_Z 0) (of_Z 0) (of_Z 0) (of_Z 0).

(** The gate that combines the predecoder outputs and the way select. *)
Definition nand_inputs (rows : Z) (multiple : bool) : Z :=
  if rows <=? 8 then if multiple then 2 else 0
  else if multiple then 3 else 2.

(** RowDecoder::Initialize *)
Definition Initialize (_numRow : Z) (_capLoad _resLoad : F) (_multipleRowPerSet : bool)
  (_areaOptimizationLevel : BufferDesignTarget) (_minDriverCurrent : F) (_MUX : bool) (_wireLength : F) (r : t F)
  : Outcome (t F) :=
  let fs := Process.featureSize tech in
  let pn := Process.pnSizeRatio tech in
  let r := r <| numRow := _numRow |> <| capLoad := _capLoad |> <| resLoad := _resLoad |>
             <| multipleRowPerSet := _multipleRowPerSet |> <| areaOptimizationLevel := _areaOptimizationLevel |>
             <| minDriverCurrent := _minDriverCurrent |> <| wireLength := _wireLength |>
             <| numNandInput := nand_inputs _numRow _multipleRowPerSet |> in
  let '(n, effort) :=
    (if Z.ltb 0 (numNandInput r) then
       let k := if Z.eqb (numNandInput r) 2 then 2%Z else 3%Z in
       (#k * MIN_NMOS_SIZE * fs, (#k + pn) / (#1 + pn))
     else (MIN_NMOS_SIZE * fs, #1))%num in
  let? (n, p) := EnlargeSize n (pn * MIN_NMOS_SIZE * fs)%num (OutputDriver.cell_region tech) tech in
  let r := r <| widthNandN := n |> <| widthNandP := p |> in
  let? o := OutputDriver.Initialize tech ip effort (BasicDecoder.gate_cap tech n p) (capLoad r) (resLoad r) true
              latency_first (minDriverCurrent r) _MUX (wireLength r) (outputDriver r) in
  let r := r <| outputDriver := o |> in
  if OutputDriver.invalid o then Ret (r <| invalid := true |>) else Ret (r <| initialized := true |>).

(** RowDecoder::CalculateArea *)
Definition CalculateArea (r : t F) : Outcome (t F) :=
  if negb (initialized r) then Ret r
  else
    let? o := OutputDriver.CalculateArea tech (outputDriver r) in
    let oh := FunctionUnit.height (OutputDriver.fu o) in
    let ow := FunctionUnit.width (OutputDriver.fu o) in
    let? (h, w) :=
      if numNandInput r =? 0 then Ret (oh, ow)
      else
        let? (_, hNand, wNand) := CalculateGateArea NAND (numNandInput r) (widthNandN r) (widthNandP r)
                                    (Process.featureSize tech * #40)%num tech in
        Ret (MAX hNand oh, wNand + ow)%num in
    let h := (h * #(numRow r))%num in
    Ret (r <| outputDriver := o |>
           <| fu := (fu r) <| FunctionUnit.height := h |> <| FunctionUnit.width := w |>
                           <| FunctionUnit.area := (h * w)%num |> |>).

(** RowDecoder::CalculateRC *)
Definition CalculateRC (r : t F) : Outcome (t F) :=
  if negb (initialized r) then Ret r
  else
    let? o := OutputDriver.CalculateRC tech (outputDriver r) in
    let? (ci, co) :=
      if numNandInput r =? 0 then Ret (of_Z 0, of_Z 0)
      else CalculateGateCapacitance NAND (numNandInput r) (widthNandN r) (widthNandP r)
             (OutputDriver.cell_region tech) tech in
    Ret (r <| outputDriver := o |> <| capNandInput := ci |> <| capNandOutput := co |>).

(** RowDecoder::CalculateLatency *)
Definition CalculateLatency (_rampInput : F) (r : t F) : Outcome (t F) :=
  if negb (initialized r) then Ret r
  else
    let? (delay, ramp, r) :=
      if numNandInput r =? 0 then Ret (None, _rampInput, r)
      else
        let r := r <| rampInput := _rampInput |> in
        let? c0 := OutputDriver.get (OutputDriver.capInput (outputDriver r)) 0 in
        let? (delay, ramp) := BasicDecoder.nand_delay tech ip (widthNandN r) (numNandInput r)
                                (capNandOutput r + c0)%num (rampInput r) in
        Ret (Some delay, ramp, r) in
    let? o := OutputDriver.CalculateLatency tech ip ramp (outputDriver r) in
    let own := FunctionUnit.readLatency (OutputDriver.fu o) in
    let latency := match delay with Some x => (x + own)%num | None => own end in
    Ret (r <| outputDriver := o |> <| rampOutput := OutputDriver.rampOutput o |>
           <| fu := (fu r) <| FunctionUnit.readLatency := latency |> <| FunctionUnit.writeLatency := latency |> |>).

(** RowDecoder::CalculatePower *)
Definition CalculatePower (r : t F) : Outcome (t F) :=
  let vdd := Process.vdd tech in
  if negb (initialized r) then Ret r
  else
    let? o := OutputDriver.CalculatePower tech ip (outputDriver r) in
    let u := OutputDriver.fu o in
    let? (leakage, energy) :=
      if numNandInput r =? 0 then Ret (FunctionUnit.leakage u, FunctionUnit.readDynamicEnergy u)
      else
        let? l := CalculateGateLeakage NAND (numNandInput r) (widthNandN r) (widthNandP r)
                    (OutputDriver.temperature ip) tech in
        let? c0 := OutputDriver.get (OutputDriver.capInput o) 0 in
        let load := (capNandOutput r + c0)%num in
        let v := if bool_decide (memCellType = DRAM) || bool_decide (memCellType = eDRAM)
                    || bool_decide (memCellType = gcDRAM) then Process.vpp tech else vdd in
        Ret (FunctionUnit.leakage u + l * vdd, (load * v * v + FunctionUnit.readDynamicEnergy u) * #1)%num in
    Ret (r <| outputDriver := o |>
           <| fu := (fu r) <| FunctionUnit.leakage := (leakage * #(numRow r))%num |>
                           <| FunctionUnit.readDynamicEnergy := energy |>
                           <| FunctionUnit.writeDynamicEnergy := energy |> |>).

End Operations.
End RowDecoder.
