(* ===== verification/Predecode.v ===== *)
(** * Predecode blocks

    PredecodeBlock.h/.cpp: how [numAddressBit] address bits are divided among
    2-to-4 and 3-to-8 decoders and combined by one or two stages of gates. *)
From S2P Require Import Prelude Numeric Types InputParameter Process Formula Circuit OutputDriver Decoders.
From stdpp Require Import base list strings.
From Stdlib Require Import ZArith Lia.
Open Scope Z_scope.

Module PredecodeBlock.
Import Formula.

(** PredecodeBlock.h, without the loads [capLoadBasicDecoder*], which are written
    and never read; the counts of the first stage are unset in a new object. *)
Record t (F : Type) : Type := mk {
  fu : FunctionUnit.t F;
  initialized : bool;
  rowDecoderStage1A : option (RowDecoder.t F);
  rowDecoderStage1B : option (RowDecoder.t F);
  rowDecoderStage1C : option (RowDecoder.t F);
  numNandInputStage1A : Z;
  numNandInputStage1B : Z;
  numNandInputStage1C : Z;
  numAddressBitStage1A : option Z;
  numAddressBitStage1B : option Z;
  numAddressBitStage1C : option Z;
  rowDecoderStage2 : option (RowDecoder.t F);
  basicDecoderA1 : option (BasicDecoder.t F);
  basicDecoderA2 : option (BasicDecoder.t F);
  basicDecoderB : option (BasicDecoder.t F);
  basicDecoderC : option (BasicDecoder.t F);
  capLoad : F;
  resLoad : F;
  numAddressBit : Z;
  numOutputAddressBit : Z;
  numDecoder12 : Z;
  numDecoder24 : Z;
  numDecoder38 : Z;
  numBasicDecoderA1 : Z;
  numBasicDecoderA2 : Z;
  rampInput : F;
  rampOutput : F
}.
Arguments mk {_} _ _ _ _ _ _ _ _ _ _ _ _ _ _ _ _ _ _ _ _ _ _ _ _ _ _ _.
Arguments fu {_} _.
Arguments initialized {_} _.
Arguments rowDecoderStage1A {_} _.
Arguments rowDecoderStage1B {_} _.
Arguments rowDecoderStage1C {_} _.
Arguments numNandInputStage1A {_} _.
Arguments numNandInputStage1B {_} _.
Arguments numNandInputStage1C {_} _.
Arguments numAddressBitStage1A {_} _.
Arguments numAddressBitStage1B {_} _.
Arguments numAddressBitStage1C {_} _.
Arguments rowDecoderStage2 {_} _.
Arguments basicDecoderA1 {_} _.
Arguments basicDecoderA2 {_} _.
Arguments basicDecoderB {_} _.
Arguments basicDecoderC {_} _.
Arguments capLoad {_} _.
Arguments resLoad {_} _.
Arguments numAddressBit {_} _.
Arguments numOutputAddressBit {_} _.
Arguments numDecoder12 {_} _.
Arguments numDecoder24 {_} _.
Arguments numDecoder38 {_} _.
Arguments numBasicDecoderA1 {_} _.
Arguments numBasicDecoderA2 {_} _.
Arguments rampInput {_} _.
Arguments rampOutput {_} _.
#[global] Instance eta {F : Type} : RecordEta (t F) := fun x =>
  mk (fu x) (initialized x) (rowDecoderStage1A x) (rowDecoderStage1B x) (rowDecoderStage1C x)
    (numNandInputStage1A x) (numNandInputStage1B x) (numNandInputStage1C x) (numAddressBitStage1A x)
    (numAddressBitStage1B x) (numAddressBitStage1C x) (rowDecoderStage2 x) (basicDecoderA1 x)
    (basicDecoderA2 x) (basicDecoderB x) (basicDecoderC x) (capLoad x) (resLoad x) (numAddressBit x)
    (numOutputAddressBit x) (numDecoder12 x) (numDecoder24 x) (numDecoder38 x) (numBasicDecoderA1 x)
    (numBasicDecoderA2 x) (rampInput x) (rampOutput x).

(** 1-to-2, 2-to-4 and 3-to-8 decoders for [n] address bits. *)
Definition decoder_counts (n : Z) : Z * Z * Z :=
  if n =? 1 then (1, 0, 0)
  else
    let mod3 := Z.rem n 3 in
    let d24 := if mod3 =? 2 then 1 else if mod3 =? 1 then 2 else 0 in
    (0, d24, Z.quot (n - 2 * d24) 3).

Section Operations.
Context {F : Type} `{Num F}.
Context (raw : F) (tech : Process.t F) (ip : InputParameter.t F) (memCellType : MemCellType).

(** PredecodeBlock::PredecodeBlock *)
Definition PredecodeBlock : t F :=
  mk FunctionUnit.FunctionUnit false None None None 0 0 0 None None None None None None None None raw raw 0 0 0 0 0
    0 0 raw raw.

(** [new RowDecoder], [Initialize] and [CalculateRC] *)
Definition new_row (rows : Z) (load res : F) (nand3 : bool) : Outcome (RowDecoder.t F) :=
  let? r := RowDecoder.Initialize tech ip rows load res nand3 latency_first (of_Z 0) false (lit 0 (-1)) RowDecoder.RowDecoder in
  RowDecoder.CalculateRC tech r.

Definition new_basic (bits : Z) (load res : F) : Outcome (BasicDecoder.t F) :=
  BasicDecoder.Initialize tech ip bits load res (lit 0 (-1)) (BasicDecoder.BasicDecoder raw).

(** One stage of gates: 2 or 3 basic decoders. *)
Definition one_stage (n : Z) (b : t F) : Outcome (t F) :=
  let b := b <| numNandInputStage1A := n |> <| rowDecoderStage2 := None |> <| rowDecoderStage1B := None |>
             <| rowDecoderStage1C := None |> in
  let? r := new_row (numOutputAddressBit b) (capLoad b) (resLoad b) (numNandInputStage1A b =? 3) in
  Ret (b <| rowDecoderStage1A := Some r |>).

(** Two stages, two groups: 4 to 6 basic decoders. *)
Definition two_groups (n : Z) (b : t F) : Outcome (t F) :=
  let? r2 := new_row (numOutputAddressBit b) (capLoad b) (resLoad b) false in
  let nB := Z.quot n 2 in
  let nA := n - nB in
  let bitsA := Z.shiftl 1 (3 * nA - numDecoder24 b) in
  let bitsB := Z.shiftl 1 (3 * nB) in
  let capA := (#bitsB * RowDecoder.capNandInput r2)%num in
  let capB := (#bitsA * RowDecoder.capNandInput r2)%num in
  let? rA := new_row bitsA capA (of_Z 0) (nA =? 3) in
  let? rB := new_row bitsB capB (of_Z 0) (nB =? 3) in
  Ret (b <| rowDecoderStage2 := Some r2 |> <| numNandInputStage1A := nA |> <| numNandInputStage1B := nB |>
         <| numAddressBitStage1A := Some bitsA |> <| numAddressBitStage1B := Some bitsB |>
         <| rowDecoderStage1A := Some rA |> <| rowDecoderStage1B := Some rB |> <| rowDecoderStage1C := None |>).

(** Two stages, three groups: 7 to 9 basic decoders.  [numAddressBitStage1A <<= i]
    shifts a variable that only [two_groups] sets. *)
Definition three_groups (n : Z) (b : t F) : Outcome (t F) :=
  let? r2 := new_row (numOutputAddressBit b) (capLoad b) (resLoad b) true in
  let '(nA, nB, nC, bitsB, bitsC) :=
    if n =? 7 then (3, 2, 2, 64, 64) else if n =? 8 then (3, 3, 2, 512, 64) else (3, 3, 3, 512, 512) in
  let? start := deref (numAddressBitStage1A b) in
  let bitsA := wrap32 (Z.shiftl start (3 * nA - numDecoder24 b)) in
  let product (x y : Z) := wrap32 (x * y) in
  let capA := (#(product bitsB bitsC) * RowDecoder.capNandInput r2)%num in
  let capB := (#(product bitsA bitsC) * RowDecoder.capNandInput r2)%num in
  let capC := (#(product bitsA bitsB) * RowDecoder.capNandInput r2)%num in
  let? rA := new_row bitsA capA (of_Z 0) (nA =? 3) in
  let? rB := new_row bitsB capB (of_Z 0) (nB =? 3) in
  let? rC := new_row bitsC capC (of_Z 0) (nC =? 3) in
  Ret (b <| rowDecoderStage2 := Some r2 |> <| numNandInputStage1A := nA |> <| numNandInputStage1B := nB |>
         <| numNandInputStage1C := nC |> <| numAddressBitStage1A := Some bitsA |>
         <| numAddressBitStage1B := Some bitsB |> <| numAddressBitStage1C := Some bitsC |>
         <| rowDecoderStage1A := Some rA |> <| rowDecoderStage1B := Some rB |> <| rowDecoderStage1C := Some rC |>).

(** The 3-to-8 decoders in front of groups B and C. *)
Definition group_decoder (row : option (RowDecoder.t F)) (nand : Z) : Outcome (option (BasicDecoder.t F)) :=
  match row with
  | None => Ret None
  | Some r =>
      let? d := new_basic 3 (#(if nand =? 2 then 8 else 64)%Z * RowDecoder.capNandInput r)%num (of_Z 0) in
      Ret (Some d)
  end.

(** The decoders in front of group A, which has the 2-to-4 decoders. *)
Definition groupA_decoders (r : RowDecoder.t F) (b : t F) : Outcome (t F) :=
  let cap (k : Z) := (#k * RowDecoder.capNandInput r)%num in
  let n := numNandInputStage1A b in
  let set (n1 n2 : Z) (d1 : BasicDecoder.t F) (d2 : option (BasicDecoder.t F)) :=
    Ret (b <| numBasicDecoderA1 := n1 |> <| numBasicDecoderA2 := n2 |> <| basicDecoderA1 := Some d1 |>
           <| basicDecoderA2 := d2 |>) in
  if numDecoder24 b =? 0 then
    let? d := new_basic 3 (cap (Z.shiftl 1 (3 * (n - 1)))) (of_Z 0) in set n 0 d None
  else if numDecoder24 b =? 1 then
    let m := n - 1 in
    let? d1 := new_basic 2 (cap (Z.shiftl 1 (3 * m))) (of_Z 0) in
    let? d2 := new_basic 3 (cap (Z.shiftl 1 (2 + 3 * (m - 1)))) (of_Z 0) in
    set 1 m d1 (Some d2)
  else if numDecoder24 b =? 2 then
    if n =? 2 then let? d1 := new_basic 2 (cap 4) (of_Z 0) in set 2 0 d1 None
    else
      let? d1 := new_basic 2 (cap 32) (of_Z 0) in
      let? d2 := new_basic 3 (cap 16) (of_Z 0) in
      set 2 1 d1 (Some d2)
  else Ret b.

(** A single basic decoder drives the load itself. *)
Definition lone_decoder (b : t F) : Outcome (t F) :=
  let? d := if numDecoder12 b =? 1 then new_basic 1 (capLoad b) (resLoad b)
            else if numDecoder24 b =? 1 then new_basic 2 (capLoad b) (resLoad b)
            else if numDecoder38 b =? 1 then new_basic 3 (capLoad b) (resLoad b)
            else Ret (BasicDecoder.BasicDecoder raw) in
  Ret (b <| numBasicDecoderA1 := 1 |> <| numBasicDecoderA2 := 0 |> <| basicDecoderA2 := None |>
         <| basicDecoderA1 := Some d |>).

(** The second half of Initialize: the decoders in front of the gates. *)
Definition front (b : t F) : Outcome (t F) :=
  let? dC := group_decoder (rowDecoderStage1C b) (numNandInputStage1C b) in
  let? dB := group_decoder (rowDecoderStage1B b) (numNandInputStage1B b) in
  let b := b <| basicDecoderC := dC |> <| basicDecoderB := dB |> in
  let? b := match rowDecoderStage1A b with Some r => groupA_decoders r b | None => lone_decoder b end in
  Ret (b <| initialized := true |>).

(** PredecodeBlock::Initialize *)
Definition Initialize (_numAddressBit : Z) (_capLoad _resLoad : F) (b : t F) : Outcome (t F) :=
  let b := b <| numAddressBit := _numAddressBit |> in
  if 27 <? _numAddressBit then Exit "[Predecoder Block] Error: Invalid number of address bits"
  else if _numAddressBit =? 0 then
    Ret (b <| fu := (fu b) <| FunctionUnit.height := of_Z 0 |> <| FunctionUnit.width := of_Z 0 |>
                <| FunctionUnit.area := of_Z 0 |> <| FunctionUnit.readLatency := of_Z 0 |>
                <| FunctionUnit.writeLatency := of_Z 0 |> <| FunctionUnit.readDynamicEnergy := of_Z 0 |>
                <| FunctionUnit.writeDynamicEnergy := of_Z 0 |> <| FunctionUnit.leakage := of_Z 0 |> |>
           <| initialized := true |>)
  else if _numAddressBit <? 0 then Exit undefined
  else
    let '(d12, d24, d38) := decoder_counts _numAddressBit in
    let b := b <| capLoad := _capLoad |> <| resLoad := _resLoad |>
               <| numOutputAddressBit := Z.shiftl 1 _numAddressBit |>
               <| numDecoder12 := d12 |> <| numDecoder24 := d24 |> <| numDecoder38 := d38 |> in
    let numBasicDecoder := d12 + d24 + d38 in
    let? b :=
      if numBasicDecoder <=? 1 then
        Ret (b <| rowDecoderStage1A := None |> <| rowDecoderStage1B := None |> <| rowDecoderStage1C := None |>
               <| rowDecoderStage2 := None |>)
      else if numBasicDecoder <=? 3 then one_stage numBasicDecoder b
      else if numBasicDecoder <=? 6 then two_groups numBasicDecoder b
      else if numBasicDecoder <=? 9 then three_groups numBasicDecoder b
      else Ret b in
    front b.

(** Height and width of an optional component that is laid out [n] times in a column. *)
Definition stack {A : Type} (unit : A -> FunctionUnit.t F) (n : Z) (p : option A) (hw : F * F) : F * F :=
  match p with
  | Some x => (fst hw + #n * FunctionUnit.height (unit x), stdmax (snd hw) (FunctionUnit.width (unit x)))%num
  | None => hw
  end.

(** The height of a row decoder enters without a factor. *)
Definition stack_row (p : option (RowDecoder.t F)) (hw : F * F) : F * F :=
  match p with
  | Some r => (fst hw + FunctionUnit.height (RowDecoder.fu r), stdmax (snd hw) (FunctionUnit.width (RowDecoder.fu r)))%num
  | None => hw
  end.

(** The nesting of the NULL tests: A2 and B under A1, C under B. *)
Definition guarded {A B : Type} (guard : option A) (p : option B) : option B :=
  match guard with Some _ => p | None => None end.

(** [if (p != NULL) p->op();] under [guard]; an unguarded component stays as it is. *)
Definition on_guarded {A B : Type} (guard : option A) (op : B -> Outcome B) (p : option B) : Outcome (option B) :=
  match guard with Some _ => on_pointer op p | None => Ret p end.

Definition each_basic (op : BasicDecoder.t F -> Outcome (BasicDecoder.t F)) (b : t F) : Outcome (t F) :=
  let? a1 := on_pointer op (basicDecoderA1 b) in
  let? a2 := on_guarded a1 op (basicDecoderA2 b) in
  let? bb := on_guarded a1 op (basicDecoderB b) in
  let? bc := on_guarded (guarded a1 bb) op (basicDecoderC b) in
  Ret (b <| basicDecoderA1 := a1 |> <| basicDecoderA2 := a2 |> <| basicDecoderB := bb |> <| basicDecoderC := bc |>).

(** The rows of the first stage, and of the second. *)
Definition each_row1 (op : RowDecoder.t F -> Outcome (RowDecoder.t F)) (b : t F) : Outcome (t F) :=
  let? ra := on_pointer op (rowDecoderStage1A b) in
  let? rb := on_guarded ra op (rowDecoderStage1B b) in
  let? rc := on_guarded (guarded ra rb) op (rowDecoderStage1C b) in
  Ret (b <| rowDecoderStage1A := ra |> <| rowDecoderStage1B := rb |> <| rowDecoderStage1C := rc |>).

(** PredecodeBlock::CalculateArea *)
Definition CalculateArea (b : t F) : Outcome (t F) :=
  let set (h w a : F) (b : t F) :=
    b <| fu := (fu b) <| FunctionUnit.height := h |> <| FunctionUnit.width := w |> <| FunctionUnit.area := a |> |> in
  if negb (initialized b) then Ret b
  else if numAddressBit b =? 0 then Ret (set (of_Z 0) (of_Z 0) (of_Z 0) b)
  else
    let? b := each_basic (BasicDecoder.CalculateArea tech) b in
    let a1 := basicDecoderA1 b in
    let bb := guarded a1 (basicDecoderB b) in
    let '(height, width) :=
      stack BasicDecoder.fu (numNandInputStage1C b) (guarded bb (basicDecoderC b))
        (stack BasicDecoder.fu (numNandInputStage1B b) bb
           (stack BasicDecoder.fu (numBasicDecoderA2 b) (guarded a1 (basicDecoderA2 b))
              (stack BasicDecoder.fu (numBasicDecoderA1 b) a1 (of_Z 0, of_Z 0)))) in
    let? b := each_row1 (RowDecoder.CalculateArea tech) b in
    let? r2 := on_guarded (rowDecoderStage1A b) (RowDecoder.CalculateArea tech) (rowDecoderStage2 b) in
    let b := b <| rowDecoderStage2 := r2 |> in
    let ra := rowDecoderStage1A b in
    let rb := guarded ra (rowDecoderStage1B b) in
    let '(hTemp, wTemp) := stack_row (guarded rb (rowDecoderStage1C b)) (stack_row rb (stack_row ra (of_Z 0, of_Z 0))) in
    let '(hTemp, wTemp) :=
      match guarded ra (rowDecoderStage2 b) with
      | Some r => (stdmax hTemp (FunctionUnit.height (RowDecoder.fu r)),
                   wTemp + FunctionUnit.width (RowDecoder.fu r))%num
      | None => (hTemp, wTemp)
      end in
    let width := (width + wTemp)%num in
    let height := stdmax height hTemp in
    Ret (set height width (width * height)%num b).

(** PredecodeBlock::CalculateRC; the row decoders had theirs in [Initialize]. *)
Definition CalculateRC (b : t F) : Outcome (t F) :=
  if negb (initialized b) then Ret b
  else if 0 <? numAddressBit b then each_basic (BasicDecoder.CalculateRC tech) b
  else Ret b.

(** A path through a row decoder: its delay and output ramp. *)
Definition row_path (ramp : F) (r : RowDecoder.t F) : Outcome (RowDecoder.t F * F * F) :=
  let? r := RowDecoder.CalculateLatency tech ip ramp r in
  Ret (r, FunctionUnit.readLatency (RowDecoder.fu r), RowDecoder.rampOutput r).

(** Through the second stage when there is one. *)
Definition last_path (ramp delay : F) (b : t F) : Outcome (t F * F * F) :=
  match rowDecoderStage2 b with
  | Some r =>
      let? (r, d, ramp) := row_path ramp r in
      Ret (b <| rowDecoderStage2 := Some r |>, (delay + d)%num, ramp)
  | None => Ret (b, delay, ramp)
  end.

(** The longest delay and ramp so far. *)
Definition worst (delay ramp : F) (b : t F) : t F :=
  b <| rampOutput := stdmax (rampOutput b) ramp |>
    <| fu := (fu b) <| FunctionUnit.readLatency := stdmax (FunctionUnit.readLatency (fu b)) delay |> |>.

(** The four paths; the path through the decoders A2 adds the delay of A1. *)
Definition path_A1 (b : t F) : Outcome (t F) :=
  match basicDecoderA1 b with
  | None => Ret (worst (of_Z 0) (of_Z 0) b)
  | Some d =>
      let? d := BasicDecoder.CalculateLatency tech ip (rampInput b) d in
      let b := b <| basicDecoderA1 := Some d |> in
      let delay := (#0 + FunctionUnit.readLatency (BasicDecoder.fu d))%num in
      match rowDecoderStage1A b with
      | None => Ret (worst delay (BasicDecoder.rampOutput d) b)
      | Some r =>
          let? (r, rd, ramp) := row_path (BasicDecoder.rampOutput d) r in
          let? (b, delay, ramp) := last_path ramp (delay + rd)%num (b <| rowDecoderStage1A := Some r |>) in
          Ret (worst delay ramp b)
      end
  end.

Definition path_A2 (b : t F) : Outcome (t F) :=
  match basicDecoderA2 b with
  | None => Ret (worst (of_Z 0) (of_Z 0) b)
  | Some d =>
      let? d := BasicDecoder.CalculateLatency tech ip (rampInput b) d in
      let b := b <| basicDecoderA2 := Some d |> in
      let? a1 := deref (basicDecoderA1 b) in
      let delay := (#0 + FunctionUnit.readLatency (BasicDecoder.fu a1))%num in
      let? r := deref (rowDecoderStage1A b) in
      let? (r, rd, ramp) := row_path (BasicDecoder.rampOutput d) r in
      let? (b, delay, ramp) := last_path ramp (delay + rd)%num (b <| rowDecoderStage1A := Some r |>) in
      Ret (worst delay ramp b)
  end.

(** Groups B and C always have a second stage. *)
Definition group_path (d : BasicDecoder.t F) (row stage2 : option (RowDecoder.t F)) (ramp : F)
  : Outcome (BasicDecoder.t F * RowDecoder.t F * RowDecoder.t F * F * F) :=
  let? d := BasicDecoder.CalculateLatency tech ip ramp d in
  let? r := deref row in
  let? (r, rd, rr) := row_path (BasicDecoder.rampOutput d) r in
  let? r2 := deref stage2 in
  let? (r2, d2, out) := row_path rr r2 in
  Ret (d, r, r2, (#0 + FunctionUnit.readLatency (BasicDecoder.fu d) + rd + d2)%num, out).

Definition path_B (b : t F) : Outcome (t F) :=
  match basicDecoderB b with
  | None => Ret (worst (of_Z 0) (of_Z 0) b)
  | Some d =>
      let? (d, r, r2, delay, ramp) := group_path d (rowDecoderStage1B b) (rowDecoderStage2 b) (rampInput b) in
      Ret (worst delay ramp (b <| basicDecoderB := Some d |> <| rowDecoderStage1B := Some r |>
                               <| rowDecoderStage2 := Some r2 |>))
  end.

Definition path_C (b : t F) : Outcome (t F) :=
  match basicDecoderC b with
  | None => Ret (worst (of_Z 0) (of_Z 0) b)
  | Some d =>
      let? (d, r, r2, delay, ramp) := group_path d (rowDecoderStage1C b) (rowDecoderStage2 b) (rampInput b) in
      Ret (worst delay ramp (b <| basicDecoderC := Some d |> <| rowDecoderStage1C := Some r |>
                               <| rowDecoderStage2 := Some r2 |>))
  end.

(** PredecodeBlock::CalculateLatency *)
Definition CalculateLatency (_rampInput : F) (b : t F) : Outcome (t F) :=
  let latencies (r w : F) (b : t F) :=
    b <| fu := (fu b) <| FunctionUnit.readLatency := r |> <| FunctionUnit.writeLatency := w |> |> in
  if negb (initialized b) then Ret b
  else if numAddressBit b =? 0 then Ret (latencies (of_Z 0) (of_Z 0) (b <| rampOutput := _rampInput |>))
  else
    let b := latencies (of_Z 0) (of_Z 0) (b <| rampInput := _rampInput |> <| rampOutput := of_Z 0 |>) in
    let? b := path_A1 b in
    let? b := path_A2 b in
    let? b := path_B b in
    let? b := path_C b in
    let r := FunctionUnit.readLatency (fu b) in
    Ret (latencies r r b).

(** Leakage and energy of the components that are there. *)
Definition add_power {A : Type} (unit : A -> FunctionUnit.t F) (p : option A) (le : F * F) : F * F :=
  match p with
  | Some x => (fst le + FunctionUnit.leakage (unit x), snd le + FunctionUnit.readDynamicEnergy (unit x))%num
  | None => le
  end.

(** PredecodeBlock::CalculatePower; [CalculatePower] of the second stage is not called. *)
Definition CalculatePower (b : t F) : Outcome (t F) :=
  let set (l e : F) (b : t F) :=
    b <| fu := (fu b) <| FunctionUnit.leakage := l |> <| FunctionUnit.readDynamicEnergy := e |>
                      <| FunctionUnit.writeDynamicEnergy := e |> |> in
  if negb (initialized b) then Ret b
  else if numAddressBit b =? 0 then Ret (set (of_Z 0) (of_Z 0) b)
  else
    let? b := each_basic (BasicDecoder.CalculatePower tech ip) b in
    let? b := each_row1 (RowDecoder.CalculatePower tech ip memCellType) b in
    let a1 := basicDecoderA1 b in
    let bb := guarded a1 (basicDecoderB b) in
    let ra := rowDecoderStage1A b in
    let rb := guarded ra (rowDecoderStage1B b) in
    let le := add_power BasicDecoder.fu (guarded bb (basicDecoderC b))
                (add_power BasicDecoder.fu bb
                   (add_power BasicDecoder.fu (guarded a1 (basicDecoderA2 b))
                      (add_power BasicDecoder.fu a1 (of_Z 0, of_Z 0)))) in
    let '(l, e) := add_power RowDecoder.fu (guarded ra (rowDecoderStage2 b))
                (add_power RowDecoder.fu (guarded rb (rowDecoderStage1C b))
                   (add_power RowDecoder.fu rb (add_power RowDecoder.fu ra le))) in
    Ret (set l e b).

(** PredecodeBlock::operator=: the decoders themselves are not copied, nor is
    [refreshLatency] or [refreshDynamicEnergy]. *)
Definition assign (this rhs : t F) : t F :=
  rhs <| rowDecoderStage1A := rowDecoderStage1A this |> <| rowDecoderStage1B := rowDecoderStage1B this |>
      <| rowDecoderStage1C := rowDecoderStage1C this |> <| rowDecoderStage2 := rowDecoderStage2 this |>
      <| basicDecoderA1 := basicDecoderA1 this |> <| basicDecoderA2 := basicDecoderA2 this |>
      <| basicDecoderB := basicDecoderB this |> <| basicDecoderC := basicDecoderC this |>
      <| fu := (fu rhs) <| FunctionUnit.refreshLatency := FunctionUnit.refreshLatency (fu this) |>
                        <| FunctionUnit.refreshDynamicEnergy := FunctionUnit.refreshDynamicEnergy (fu this) |>
                        <| FunctionUnit.newHeight := FunctionUnit.newHeight (fu this) |>
                        <| FunctionUnit.newWidth := FunctionUnit.newWidth (fu this) |> |>.


End Operations.
End PredecodeBlock.
