(* ===== verification/BinarySenseAmp.v ===== *)
(** * The binary current sense amplifier

    BinarySenseAmp.h/.cpp: the fitted delay and power of a current-mode sense
    amplifier per technology node, and [EvaluateBinarySenseAmp], which decides
    whether the model applies to an operating point and computes its figures.
    A quiet NaN returned for malformed arguments is [None]. *)
From S2P Require Import Prelude Numeric Types Process Formula.
From stdpp Require Import base list strings.
From Stdlib Require Import ZArith Lia.
Open Scope Z_scope.

Module BinarySenseAmp.
Import Formula.

Inductive Status : Set := Applied | Fallback | Invalid.
#[global] Instance Status_eq_dec : EqDecision Status.
Proof. solve_decision. Defined.

(** NodeFit *)
Module Fit.
Record t (F : Type) : Type := mkFit {
  node : Z;
  readVoltage : F;
  latencyBreak1 : F;
  latencyLogSlope1 : F;
  latencyLogIntercept1 : F;
  latencyBreak2 : F;
  latencyLogSlope2 : F;
  latencyLogIntercept2 : F;
  latencyLinearSlope : F;
  latencyLinearIntercept : F;
  referenceCapacitance : F;
  capDelay : F;
  referenceResistance : F;
  capResistanceThreshold : F;
  powerBreak1 : F;
  powerLinearSlope : F;
  powerLinearIntercept : F;
  powerBreak2 : F;
  powerLogSlope1 : F;
  powerLogIntercept1 : F;
  powerLogSlope2 : F;
  powerLogIntercept2 : F
}.
Arguments mkFit {_} _ _ _ _ _ _ _ _ _ _ _ _ _ _ _ _ _ _ _ _ _ _.
Arguments node {_} _.
Arguments readVoltage {_} _.
Arguments latencyBreak1 {_} _.
Arguments latencyLogSlope1 {_} _.
Arguments latencyLogIntercept1 {_} _.
Arguments latencyBreak2 {_} _.
Arguments latencyLogSlope2 {_} _.
Arguments latencyLogIntercept2 {_} _.
Arguments latencyLinearSlope {_} _.
Arguments latencyLinearIntercept {_} _.
Arguments referenceCapacitance {_} _.
Arguments capDelay {_} _.
Arguments referenceResistance {_} _.
Arguments capResistanceThreshold {_} _.
Arguments powerBreak1 {_} _.
Arguments powerLinearSlope {_} _.
Arguments powerLinearIntercept {_} _.
Arguments powerBreak2 {_} _.
Arguments powerLogSlope1 {_} _.
Arguments powerLogIntercept1 {_} _.
Arguments powerLogSlope2 {_} _.
Arguments powerLogIntercept2 {_} _.
End Fit.

(** BinarySenseAmpOperatingPoint *)
Module Point.
Record t (F : Type) : Type := mk {
  contextAvailable : bool;
  internalSenseAmp : bool;
  readPowerOverride : bool;
  tierCount : Z;
  cellType : MemCellType;
  accessType : CellAccessType;
  temperatureK : F;
  readVoltage : F;
  resistanceOn : F;
  resistanceOff : F;
  columnCapacitance : F;
  referenceColumnArea : F
}.
Arguments mk {_} _ _ _ _ _ _ _ _ _ _ _ _.
Arguments contextAvailable {_} _.
Arguments internalSenseAmp {_} _.
Arguments readPowerOverride {_} _.
Arguments tierCount {_} _.
Arguments cellType {_} _.
Arguments accessType {_} _.
Arguments temperatureK {_} _.
Arguments readVoltage {_} _.
Arguments resistanceOn {_} _.
Arguments resistanceOff {_} _.
Arguments columnCapacitance {_} _.
Arguments referenceColumnArea {_} _.
End Point.

(** BinarySenseAmpResult *)
Module Outputs.
Record t (F : Type) : Type := mk {
  status : Status;
  reason : string;
  referenceResistance : F;
  resistanceMargin : F;
  nominalReadVoltage : F;
  inputCapacitance : F;
  gateCapacitanceN : F;
  gateCapacitanceP : F;
  junctionCapacitanceN : F;
  junctionCapacitanceP : F;
  readLatency : F;
  coreArea : F;
  referenceArea : F;
  area : F;
  columnSwitchingEnergy : F;
  internalSwitchingEnergy : F;
  operatingEnergy : F;
  readDynamicEnergy : F;
  leakage : F;
  perAmplifierArea : F;
  perAmplifierReadDynamicEnergy : F;
  perAmplifierLeakage : F
}.
Arguments mk {_} _ _ _ _ _ _ _ _ _ _ _ _ _ _ _ _ _ _ _ _ _ _.
Arguments status {_} _.
Arguments reason {_} _.
Arguments referenceResistance {_} _.
Arguments resistanceMargin {_} _.
Arguments nominalReadVoltage {_} _.
Arguments inputCapacitance {_} _.
Arguments gateCapacitanceN {_} _.
Arguments gateCapacitanceP {_} _.
Arguments junctionCapacitanceN {_} _.
Arguments junctionCapacitanceP {_} _.
Arguments readLatency {_} _.
Arguments coreArea {_} _.
Arguments referenceArea {_} _.
Arguments area {_} _.
Arguments columnSwitchingEnergy {_} _.
Arguments internalSwitchingEnergy {_} _.
Arguments operatingEnergy {_} _.
Arguments readDynamicEnergy {_} _.
Arguments leakage {_} _.
Arguments perAmplifierArea {_} _.
Arguments perAmplifierReadDynamicEnergy {_} _.
Arguments perAmplifierLeakage {_} _.
#[global] Instance eta {F : Type} : RecordEta (t F) := fun x =>
  mk (status x) (reason x) (referenceResistance x) (resistanceMargin x) (nominalReadVoltage x) (inputCapacitance x) (gateCapacitanceN x) (gateCapacitanceP x) (junctionCapacitanceN x) (junctionCapacitanceP x) (readLatency x) (coreArea x) (referenceArea x) (area x) (columnSwitchingEnergy x) (internalSwitchingEnergy x) (operatingEnergy x) (readDynamicEnergy x) (leakage x) (perAmplifierArea x) (perAmplifierReadDynamicEnergy x) (perAmplifierLeakage x).
End Outputs.

Section Operations.
Context {F : Type} `{Num F}.

Definition kFits : list (Fit.t F) :=
  let mkFit := @Fit.mkFit F in [
    mkFit 90 (lit 58 (-2)) (lit 4832 0) (lit (-108914) (-15)) (lit 243204 (-14)) (lit 4832 0) (lit 0 0) (lit
      0 0) (lit 28688 (-18)) (lit 231147 (-14)) (lit 184 (-16)) (lit 15 (-10)) (lit 1 5) (lit 483 1) (lit
      4832 0) (lit (-167004) (-16)) (lit 854958 (-12)) (lit 379269 0) (lit (-150719) (-12)) (lit 20858
      (-10)) (lit (-889685) (-13)) (lit 13007 (-10));
    mkFit 65 (lit 55 (-2)) (lit 4832 0) (lit (-811436) (-16)) (lit 22554 (-13)) (lit 4832 0) (lit 0 0) (lit
      0 0) (lit 212366 (-19)) (lit 214339 (-14)) (lit 133 (-16)) (lit 12 (-10)) (lit 1 5) (lit 483 1) (lit
      4832 0) (lit (-608647) (-17)) (lit 482814 (-12)) (lit 379269 0) (lit (-803449) (-13)) (lit 116437
      (-11)) (lit (-601171) (-13)) (lit 89355 (-11));
    mkFit 45 (lit 51 (-2)) (lit 4832 0) (lit (-112976) (-15)) (lit 216762 (-14)) (lit 4832 0) (lit 0 0) (lit
      0 0) (lit 154619 (-19)) (lit 160263 (-14)) (lit 921 (-17)) (lit 81 (-11)) (lit 1 5) (lit 483 1) (lit
      4832 0) (lit (-396471) (-17)) (lit 344344 (-12)) (lit 379269 0) (lit (-566235) (-13)) (lit 827849
      (-12)) (lit (-432673) (-13)) (lit 646111 (-12));
    mkFit 32 (lit 51 (-2)) (lit 4832 0) (lit (-131777) (-15)) (lit 203151 (-14)) (lit 4832 0) (lit 0 0) (lit
      0 0) (lit 115509 (-19)) (lit 119475 (-14)) (lit 655 (-17)) (lit 55 (-11)) (lit 1 5) (lit 483 1) (lit
      4832 0) (lit (-672783) (-17)) (lit 419847 (-12)) (lit 379269 0) (lit (-728881) (-13)) (lit 102677
      (-11)) (lit (-435333) (-13)) (lit 64697 (-11));
    mkFit 22 (lit 55 (-2)) (lit 4832 0) (lit (-132118) (-15)) (lit 17552 (-13)) (lit 4832 0) (lit 0 0) (lit
      0 0) (lit 802517 (-20)) (lit 851803 (-15)) (lit 45 (-16)) (lit 31 (-11)) (lit 1 5) (lit 127 2) (lit
      4832 0) (lit (-285373) (-16)) (lit 916744 (-12)) (lit 379269 0) (lit (-163133) (-12)) (lit 21687
      (-10)) (lit (-58712) (-12)) (lit 864648 (-12));
    mkFit 14 (lit 277 (-3)) (lit 812 0) (lit (-701209) (-16)) (lit 121771 (-14)) (lit 2962 0) (lit (-211644)
      (-16)) (lit 896216 (-15)) (lit 618337 (-20)) (lit 817633 (-15)) (lit 286 (-17)) (lit 29 (-11)) (lit 1
      5) (lit 127 2) (lit 7847 0) (lit (-311213) (-18)) (lit 534821 (-13)) (lit 0 0) (lit (-964978) (-14))
      (lit 144527 (-12)) (lit 0 0) (lit 0 0);
    mkFit 10 (lit 28 (-2)) (lit 1128 0) (lit (-720238) (-16)) (lit 118578 (-14)) (lit 4832 0) (lit (-181368)
      (-16)) (lit 816065 (-15)) (lit 472185 (-20)) (lit 728474 (-15)) (lit 204 (-17)) (lit 27 (-11)) (lit 1
      5) (lit 127 2) (lit 20691 0) (lit (-327225) (-18)) (lit 554082 (-13)) (lit 0 0) (lit (-999199) (-14))
      (lit 149539 (-12)) (lit 0 0) (lit 0 0);
    mkFit 7 (lit 264 (-3)) (lit 4832 0) (lit (-467061) (-16)) (lit 103708 (-14)) (lit 4832 0) (lit 0 0) (lit
      0 0) (lit 372084 (-20)) (lit 702172 (-15)) (lit 143 (-17)) (lit 13 (-11)) (lit 1 5) (lit 127 2) (lit
      20691 0) (lit (-262089) (-18)) (lit 47357 (-12)) (lit 0 0) (lit (-849198) (-14)) (lit 127848 (-12))
      (lit 0 0) (lit 0 0);
    mkFit 5 (lit 253 (-3)) (lit 4832 0) (lit (-433009) (-16)) (lit 979525 (-15)) (lit 7847 0) (lit (-315954)
      (-17)) (lit 653005 (-15)) (lit 277641 (-20)) (lit 646706 (-15)) (lit 102 (-17)) (lit 9 (-11)) (lit 1
      5) (lit 127 2) (lit 20691 0) (lit (-14179) (-17)) (lit 331434 (-13)) (lit 0 0) (lit (-576552) (-14))
      (lit 889536 (-13)) (lit 0 0) (lit 0 0);
    mkFit 3 (lit 248 (-3)) (lit 4832 0) (lit (-362939) (-16)) (lit 904595 (-15)) (lit 7847 0) (lit (-805167)
      (-17)) (lit 669134 (-15)) (lit 202367 (-20)) (lit 604792 (-15)) (lit 61 (-17)) (lit 5 (-11)) (lit 1 5)
      (lit 127 2) (lit 20691 0) (lit (-117664) (-18)) (lit 296368 (-13)) (lit 0 0) (lit (-509202) (-14))
      (lit 791852 (-13)) (lit 0 0) (lit 0 0)].

(** FindFit *)
Definition FindFit (node : Z) : option (Fit.t F) :=
  List.find (fun fit => Fit.node fit =? node) kFits.

Definition Positive (value : F) : bool := nfinite value && (value >? #0)%num.
Definition Nonnegative (value : F) : bool := nfinite value && (value >=? #0)%num.
Definition AllNonnegative (values : list F) : bool := forallb Nonnegative values.

(** A default [BinarySenseAmpResult], and Reject *)
Definition blank : Outputs.t F :=
  Outputs.mk Fallback "" (of_Z 0) (of_Z 0) (of_Z 0) (of_Z 0) (of_Z 0) (of_Z 0) (of_Z 0) (of_Z 0) (of_Z 0) (of_Z 0) (of_Z 0) (of_Z 0) (of_Z 0) (of_Z 0) (of_Z 0) (of_Z 0) (of_Z 0) (of_Z 0) (of_Z 0) (of_Z 0).
Definition Reject (s : Status) (why : string) : Outputs.t F :=
  blank <| Outputs.status := s |> <| Outputs.reason := why |>.

Definition BinarySenseAmpNominalReadVoltage (nodeNm : Z) : option F := Fit.readVoltage <$> FindFit nodeNm.

(** BinarySenseAmpLatencyFit *)
Definition BinarySenseAmpLatencyFit (nodeNm : Z) (resistance columnCapacitance : F) : option F :=
  match FindFit nodeNm with
  | None => None
  | Some fit =>
      if negb (Positive resistance) || negb (Nonnegative columnCapacitance) then None
      else
        let latency :=
          (if resistance <? Fit.latencyBreak1 fit then Fit.latencyLogSlope1 fit * nlog resistance + Fit.latencyLogIntercept1 fit
           else if resistance <? Fit.latencyBreak2 fit then Fit.latencyLogSlope2 fit * nlog resistance + Fit.latencyLogIntercept2 fit
           else Fit.latencyLinearSlope fit * resistance + Fit.latencyLinearIntercept fit)%num in
        Some (if resistance >? Fit.capResistanceThreshold fit then
                latency + Fit.capDelay fit / (Fit.referenceResistance fit - Fit.capResistanceThreshold fit)
                  * (resistance - Fit.capResistanceThreshold fit)
                  * ((columnCapacitance - Fit.referenceCapacitance fit) / Fit.referenceCapacitance fit)
              else latency)%num
  end.

(** BinarySenseAmpOperatingPowerFit *)
Definition BinarySenseAmpOperatingPowerFit (nodeNm : Z) (resistance readVoltage temperatureK : F) : option F :=
  match FindFit nodeNm with
  | None => None
  | Some fit =>
      if negb (Positive resistance) || negb (Positive readVoltage) || negb (Positive temperatureK) then None
      else
        let resistance := (resistance * (lit 5 (-1) / readVoltage))%num in
        if negb (Positive resistance) then None
        else
          let power :=
            (if resistance <? Fit.powerBreak1 fit then Fit.powerLinearSlope fit * resistance + Fit.powerLinearIntercept fit
             else if (Fit.powerBreak2 fit =? #0) || (resistance <? Fit.powerBreak2 fit)
             then Fit.powerLogSlope1 fit * nlog resistance + Fit.powerLogIntercept1 fit
             else Fit.powerLogSlope2 fit * nlog resistance + Fit.powerLogIntercept2 fit)%num in
          Some (power * (#1 + lit 13 (-4) * (temperatureK - #300)))%num
  end.

(** ** EvaluateBinarySenseAmp *)

(** The tests before anything is computed, in the order of the code: the first
    one that holds rejects the point. *)
Definition eligibility (point : Point.t F) (tech : Process.t F) (numAmplifiers : Z)
  : list (bool * (Status * string)) :=
  let malformed :=
    (numAmplifiers <=? 0) || negb (Positive (Point.resistanceOn point)) || negb (Positive (Point.resistanceOff point))
    || (Point.resistanceOff point <? Point.resistanceOn point)%num || negb (Positive (Point.columnCapacitance point))
    || negb (Positive (Point.referenceColumnArea point)) in
  let fit := FindFit (Process.featureSizeInNano tech) in
  [ (negb (Point.contextAvailable point), (Fallback, "no-operating-point"));
    (negb (Point.internalSenseAmp point), (Fallback, "external-sensing"));
    (malformed, (Invalid, "invalid-operating-point"));
    (negb (Positive (Point.temperatureK point)) || negb (Nonnegative (Point.readVoltage point)),
       (Invalid, "invalid-read-bias-or-temperature"));
    (negb (Point.tierCount point =? 1), (Fallback, "multiple-memory-tiers"));
    (negb (bool_decide (Point.cellType point = MRAM)) && negb (bool_decide (Point.cellType point = PCRAM))
       && negb (bool_decide (Point.cellType point = memristor)), (Fallback, "unsupported-cell-type"));
    (negb (bool_decide (Point.accessType point = CMOS_access)), (Fallback, "unsupported-access-type"));
    (Point.readPowerOverride point, (Fallback, "explicit-cell-read-power"));
    (negb (Process.initialized tech), (Invalid, "uninitialized-technology"));
    (negb (bool_decide (Process.deviceRoadmap tech = LSTP)), (Fallback, "unsupported-roadmap"));
    (match fit with Some _ => false | None => true end, (Fallback, "unsupported-node"));
    (negb (Positive (Process.featureSize tech)) || negb (Positive (Process.vdd tech))
       || negb (Positive (Process.pnSizeRatio tech)), (Invalid, "invalid-technology"));
    (match fit with Some f => negb (Process.featureSize tech =? #(Fit.node f) * lit 1 (-9))%num | None => false end,
       (Fallback, "interpolated-node"));
    (negb (Point.temperatureK point =? #300)%num, (Fallback, "unsupported-temperature"));
    (match fit with
     | Some f => (nabs (Point.readVoltage point - Fit.readVoltage f) >? lit 1 (-12))%num
     | None => false
     end, (Fallback, "non-nominal-read-voltage")) ].

Fixpoint first_objection (l : list (bool * (Status * string))) : option (Status * string) :=
  match l with
  | [] => None
  | (b, r) :: l => if b then Some r else first_objection l
  end.

(** The reference resistance and the margin of the two states. *)
Definition reference (on off : F) : F := (on / (lit 5 (-1) + lit 5 (-1) * on / off))%num.
Definition margin (on off : F) : F := (((off - on) / off) * lit 5 (-1))%num.

(** The figures of [numAmplifiers] amplifiers and of one. *)
Definition totals (r : Outputs.t F) (count core refarea column internal operating standby : F) : Outputs.t F :=
  let r := r <| Outputs.coreArea := (core * count)%num |> <| Outputs.referenceArea := (refarea * count)%num |> in
  let r := r <| Outputs.area := (Outputs.coreArea r + Outputs.referenceArea r)%num |>
             <| Outputs.columnSwitchingEnergy := (column * count)%num |>
             <| Outputs.internalSwitchingEnergy := (internal * count)%num |>
             <| Outputs.operatingEnergy := (operating * count)%num |> in
  r <| Outputs.readDynamicEnergy := (Outputs.columnSwitchingEnergy r + Outputs.internalSwitchingEnergy r
                                     + Outputs.operatingEnergy r)%num |>
    <| Outputs.leakage := (standby * count)%num |>
    <| Outputs.perAmplifierArea := (core + refarea)%num |>
    <| Outputs.perAmplifierReadDynamicEnergy := (column + internal + operating)%num |>
    <| Outputs.perAmplifierLeakage := standby |>.

(** Capacitances, delay and energies of an eligible point; [exit] of the helpers passes through. *)
Definition evaluate (point : Point.t F) (tech : Process.t F) (numAmplifiers : Z) (fit : Fit.t F) : Outcome (Outputs.t F) :=
  let fs := Process.featureSize tech in
  let r := blank <| Outputs.nominalReadVoltage := Fit.readVoltage fit |>
             <| Outputs.referenceResistance := reference (Point.resistanceOn point) (Point.resistanceOff point) |>
             <| Outputs.resistanceMargin := margin (Point.resistanceOn point) (Point.resistanceOff point) |> in
  if negb (Positive (Outputs.referenceResistance r)) || negb (Nonnegative (Outputs.resistanceMargin r))
  then Ret (Reject Invalid "invalid-reference-resistance")
  else if (Outputs.resistanceMargin r <? lit 10 (-2))%num then Ret (Reject Fallback "insufficient-resistance-margin")
  else
    let widthN := (MIN_NMOS_SIZE * fs)%num in
    let widthP := (Process.pnSizeRatio tech * widthN)%num in
    let height := (MAX_TRANSISTOR_HEIGHT * fs)%num in
    let? (gN, jN) := CalculateGateCapacitance INV 1 widthN (of_Z 0) height tech in
    let? (gP, jP) := CalculateGateCapacitance INV 1 (of_Z 0) widthP height tech in
    let r := r <| Outputs.gateCapacitanceN := gN |> <| Outputs.junctionCapacitanceN := jN |>
               <| Outputs.gateCapacitanceP := gP |> <| Outputs.junctionCapacitanceP := jP |> in
    if negb (AllNonnegative [gN; gP; jN; jP]) then Ret (Reject Invalid "invalid-device-capacitance")
    else
      let r := r <| Outputs.inputCapacitance := (#2 * gN + jN)%num |> in
      let? (_, transistorHeight, transistorWidth) := CalculateGateArea INV 1 widthN (of_Z 0) height tech in
      let coreArea := (#9 * transistorHeight * transistorWidth)%num in
      let latency := BinarySenseAmpLatencyFit (Fit.node fit) (Outputs.referenceResistance r) (Point.columnCapacitance point) in
      let power (res : F) := BinarySenseAmpOperatingPowerFit (Fit.node fit) res (Point.readVoltage point) (Point.temperatureK point) in
      let powerOn := power (Point.resistanceOn point) in
      let powerOff := power (Point.resistanceOff point) in
      match latency, powerOn, powerOff with
      | Some readLatency, Some on, Some off =>
          let r := r <| Outputs.readLatency := readLatency |> in
          if negb (Positive (Outputs.inputCapacitance r)) || negb (Positive coreArea) || negb (Positive readLatency)
             || negb (Nonnegative on) || negb (Nonnegative off)
          then Ret (Reject Invalid "nonphysical-sensing-fit")
          else
            let readVoltageSquared := (Point.readVoltage point * Point.readVoltage point)%num in
            let vddSquared := (Process.vdd tech * Process.vdd tech)%num in
            let column := (#2 * Point.columnCapacitance point * readVoltageSquared)%num in
            let internal := ((#4 * gN + #2 * jN) * readVoltageSquared
                             + (#6 * gP + #5 * gN + #4 * jP + #3 * jN) * vddSquared)%num in
            let operating := ((if on <? off then off else on) * readLatency)%num in
            let? leakN := CalculateGateLeakage INV 1 widthN (of_Z 0) (of_Z 300) tech in
            let? leakP := CalculateGateLeakage INV 1 (of_Z 0) widthP (of_Z 300) tech in
            let offN := (#2 * leakN)%num in
            let offP := (#2 * leakP)%num in
            let standby := (Process.vdd tech * (#11 * offN + #8 * offP))%num in
            let r := totals r (of_Z numAmplifiers) coreArea (Point.referenceColumnArea point) column internal operating standby in
            if negb (AllNonnegative [offN; offP; Outputs.coreArea r; Outputs.referenceArea r; Outputs.area r;
                       Outputs.columnSwitchingEnergy r; Outputs.internalSwitchingEnergy r; Outputs.operatingEnergy r;
                       Outputs.readDynamicEnergy r; Outputs.leakage r; Outputs.perAmplifierArea r;
                       Outputs.perAmplifierReadDynamicEnergy r; Outputs.perAmplifierLeakage r])
            then Ret (Reject Invalid "nonphysical-ppa-result")
            else Ret (r <| Outputs.status := Applied |> <| Outputs.reason := "neurosim-binary-adaptation" |>)
      | _, _, _ => Ret (Reject Invalid "nonphysical-sensing-fit")
      end.

(** EvaluateBinarySenseAmp *)
Definition EvaluateBinarySenseAmp (point : Point.t F) (tech : Process.t F) (numAmplifiers : Z) : Outcome (Outputs.t F) :=
  match first_objection (eligibility point tech numAmplifiers), FindFit (Process.featureSizeInNano tech) with
  | Some (status, why), _ => Ret (Reject status why)
  | None, Some fit => evaluate point tech numAmplifiers fit
  | None, None => Ret (Reject Fallback "unsupported-node")
  end.

End Operations.
End BinarySenseAmp.
