(* ===== verification/Peripherals.v ===== *)
(** * Column peripherals

    Mux.h/.cpp, Comparator.h/.cpp, Precharger.h/.cpp and SenseAmp.h/.cpp: the
    circuits at the ends of the bitlines.  [raw] stands for the members a
    constructor leaves unset. *)
From S2P Require Import Prelude Numeric Types InputParameter Process Formula Circuit OutputDriver Decoders BinarySenseAmp.
From stdpp Require Import base list strings.
From Stdlib Require Import ZArith Lia.
Open Scope Z_scope.

(** A gate of one transistor in a row of the standard cell. *)
Definition row_region {F} `{Num F} (tech : Process.t F) : F := (Process.featureSize tech * #40)%num.

Module Mux.
Import Formula.

Record t (F : Type) : Type := mk {
  fu : FunctionUnit.t F;
  initialized : bool;
  numInput : Z;
  numMux : Z;
  capLoad : F;
  capInputNextStage : F;
  minDriverCurrent : F;
  capOutput : F;
  widthNMOSPassTransistor : F;
  resNMOSPassTransistor : F;
  capNMOSPassTransistor : F;
  capForPreviousDelayCalculation : F;
  capForPreviousPowerCalculation : F;
  rampInput : F;
  rampOutput : F
}.
Arguments mk {_} _ _ _ _ _ _ _ _ _ _ _ _ _ _ _.
Arguments fu {_} _.
Arguments initialized {_} _.
Arguments numInput {_} _.
Arguments numMux {_} _.
Arguments capLoad {_} _.
Arguments capInputNextStage {_} _.
Arguments minDriverCurrent {_} _.
Arguments capOutput {_} _.
Arguments widthNMOSPassTransistor {_} _.
Arguments resNMOSPassTransistor {_} _.
Arguments capNMOSPassTransistor {_} _.
Arguments capForPreviousDelayCalculation {_} _.
Arguments capForPreviousPowerCalculation {_} _.
Arguments rampInput {_} _.
Arguments rampOutput {_} _.
#[global] Instance eta {F : Type} : RecordEta (t F) := fun x =>
  mk (fu x) (initialized x) (numInput x) (numMux x) (capLoad x) (capInputNextStage x) (minDriverCurrent x)
    (capOutput x) (widthNMOSPassTransistor x) (resNMOSPassTransistor x) (capNMOSPassTransistor x)
    (capForPreviousDelayCalculation x) (capForPreviousPowerCalculation x) (rampInput x) (rampOutput x).

Section Operations.
Context {F : Type} `{Num F}.
Context (tech : Process.t F) (ip : InputParameter.t F) (cell : MemCell.t F).

(** Mux::Mux *)
Definition Mux : t F :=
  mk FunctionUnit.FunctionUnit false 0 0 (of_Z 0) (of_Z 0) (of_Z 0) (of_Z 0) (of_Z 0) (of_Z 0) (of_Z 0) (of_Z 0)
    (of_Z 0) (of_Z 0) (of_Z 0).

(** The access transistor: the comparison is with 14 metres. *)
Definition access_width : F :=
  (MemCell.widthAccessCMOS cell * of_Z (if (Process.featureSize tech <=? #14)%num then 2 else 1)
   * Process.featureSize tech)%num.

(** There is something to select from. *)
Definition selects (m : t F) : bool := (1 <? numInput m) && (0 <? numMux m).

(** The pass transistor of a resistive cell is sized for its IR drop. *)
Definition resistive_width (resCellAccess minNMOSWidth : F) : Outcome F :=
  let fs := Process.featureSize tech in
  let temp := OutputDriver.temperature ip in
  let? w :=
    if (fs >=? nm 22)%num then
      let? res := CalculateOnResistance fs NMOS temp tech in
      Ret (res * fs / (MemCell.resistanceOn cell * lit 25 (-2)))%num
    else
      let? res := CalculateOnResistance_normal (OutputDriver.fin_scale tech fs) NMOS temp tech in
      let w := (res * fs / (resCellAccess * #2))%num in
      Ret (#2 * nceil (w / fs) * fs)%num in
  let limit := (InputParameter.maxNmosSize ip * fs)%num in
  let w := if (w >? limit)%num then limit else w in
  Ret (MAX (MAX w minNMOSWidth) (#6 * MIN_NMOS_SIZE * fs))%num.

(** Mux::Initialize *)
Definition Initialize (_numInput _numMux : Z) (_capLoad _capInputNextStage _minDriverCurrent : F) (m : t F)
  : Outcome (t F) :=
  let fs := Process.featureSize tech in
  let? resCellAccess := CalculateOnResistance access_width NMOS (OutputDriver.temperature ip) tech in
  let m := m <| numInput := _numInput |> <| numMux := _numMux |> <| capLoad := _capLoad |>
             <| capInputNextStage := _capInputNextStage |> <| minDriverCurrent := _minDriverCurrent |> in
  if selects m then
    let? on := OutputDriver.get (Process.currentOnNmos tech) (InputParameter.temperature ip - 300) in
    let minNMOSWidth := (minDriverCurrent m / on)%num in
    let ty := MemCell.memCellType cell in
    let? w := if bool_decide (ty = MRAM) || bool_decide (ty = PCRAM) || bool_decide (ty = memristor)
              then resistive_width resCellAccess minNMOSWidth
              else Ret (MAX (#6 * MIN_NMOS_SIZE * fs) minNMOSWidth)%num in
    let? (w, _) := EnlargeSize w (of_Z 0) (OutputDriver.cell_region tech) tech in
    Ret (m <| widthNMOSPassTransistor := w |> <| initialized := true |>)
  else Ret (m <| initialized := true |>).

(** Mux::CalculateArea *)
Definition CalculateArea (m : t F) : Outcome (t F) :=
  let set (h w a : F) :=
    m <| fu := (fu m) <| FunctionUnit.height := h |> <| FunctionUnit.width := w |> <| FunctionUnit.area := a |> |> in
  if negb (initialized m) then Ret m
  else if selects m then
    let? (_, h, w) := CalculateGateArea INV 1 (OutputDriver.fin_scale tech (widthNMOSPassTransistor m)) (of_Z 0)
                        (row_region tech) tech in
    let width := (#(wrap64 (numMux m * numInput m)) * w)%num in
    Ret (set h width (width * h)%num)
  else Ret (set (of_Z 0) (of_Z 0) (of_Z 0)).

(** Mux::CalculateRC *)
Definition CalculateRC (m : t F) : Outcome (t F) :=
  if negb (initialized m) then Ret m
  else if selects m then
    let w := OutputDriver.fin_scale tech (widthNMOSPassTransistor m) in
    let? cap := CalculateDrainCap w NMOS (row_region tech) tech in
    let? res := CalculateOnResistance w NMOS (OutputDriver.temperature ip) tech in
    let out := (#(numInput m) * cap)%num in
    Ret (m <| capNMOSPassTransistor := cap |> <| capForPreviousPowerCalculation := cap |> <| capOutput := out |>
           <| capForPreviousDelayCalculation := (out + cap + capLoad m)%num |> <| resNMOSPassTransistor := res |>)
  else Ret m.

(** Mux::CalculateLatency *)
Definition CalculateLatency (_rampInput : F) (m : t F) : t F :=
  let set (l : F) (m : t F) :=
    m <| fu := (fu m) <| FunctionUnit.readLatency := l |> <| FunctionUnit.writeLatency := l |> |> in
  if negb (initialized m) then m
  else if selects m then
    let tr := (resNMOSPassTransistor m * (capOutput m + capLoad m))%num in
    set (lit 23 (-1) * tr)%num (m <| rampInput := _rampInput |>)
  else set (of_Z 0) m.

(** Mux::CalculatePower *)
Definition CalculatePower (m : t F) : t F :=
  let set (l e : F) :=
    m <| fu := (fu m) <| FunctionUnit.leakage := l |> <| FunctionUnit.readDynamicEnergy := e |>
                      <| FunctionUnit.writeDynamicEnergy := e |> |> in
  let vdd := Process.vdd tech in
  if negb (initialized m) then m
  else if selects m then
    set (of_Z 0) ((capOutput m + capInputNextStage m) * vdd * (vdd - Process.vth tech) * #(numMux m))%num
  else set (of_Z 0) (of_Z 0).

End Operations.
End Mux.

Module Comparator.
Import Formula.

Definition COMPARATOR_INV_CHAIN_LEN : Z := 4.

Record t (F : Type) : Type := mk {
  fu : FunctionUnit.t F;
  initialized : bool;
  numTagBits : Z;
  capLoad : F;
  widthNMOSInv : list F;
  widthPMOSInv : list F;
  widthNMOSComp : F;
  widthPMOSComp : F;
  capInput : list F;
  capOutput : list F;
  capBottom : F;
  capTop : F;
  resBottom : F;
  resTop : F;
  rampInput : F;
  rampOutput : F
}.
Arguments mk {_} _ _ _ _ _ _ _ _ _ _ _ _ _ _ _ _.
Arguments fu {_} _.
Arguments initialized {_} _.
Arguments numTagBits {_} _.
Arguments capLoad {_} _.
Arguments widthNMOSInv {_} _.
Arguments widthPMOSInv {_} _.
Arguments widthNMOSComp {_} _.
Arguments widthPMOSComp {_} _.
Arguments capInput {_} _.
Arguments capOutput {_} _.
Arguments capBottom {_} _.
Arguments capTop {_} _.
Arguments resBottom {_} _.
Arguments resTop {_} _.
Arguments rampInput {_} _.
Arguments rampOutput {_} _.
#[global] Instance eta {F : Type} : RecordEta (t F) := fun x =>
  mk (fu x) (initialized x) (numTagBits x) (capLoad x) (widthNMOSInv x) (widthPMOSInv x) (widthNMOSComp x)
    (widthPMOSComp x) (capInput x) (capOutput x) (capBottom x) (capTop x) (resBottom x) (resTop x)
    (rampInput x) (rampOutput x).

Section Operations.
Context {F : Type} `{Num F}.
Context (raw : F) (tech : Process.t F) (ip : InputParameter.t F).

(** Comparator::Comparator *)
Definition Comparator : t F :=
  mk FunctionUnit.FunctionUnit false 0 (of_Z 0) (replicate 4 raw) (replicate 4 raw) raw raw (replicate 4 raw)
    (replicate 4 raw) raw raw raw raw raw (lit 1 40).

(** Comparator::Initialize *)
Definition Initialize (_numTagBits : Z) (_capLoad : F) (c : t F) : t F :=
  (let fs := Process.featureSize tech in
   c <| numTagBits := Z.quot _numTagBits 4 |> <| capLoad := _capLoad |>
     <| widthNMOSInv := [lit 75 (-1) * fs; #15 * fs; #30 * fs; #50 * fs] |>
     <| widthPMOSInv := [lit 125 (-1) * fs; #25 * fs; #50 * fs; #100 * fs] |>
     <| widthNMOSComp := lit 125 (-1) * fs |> <| widthPMOSComp := lit 375 (-1) * fs |>
     <| initialized := true |>)%num.

(** Comparator::CalculateArea: the transistors are enlarged in place. *)
Definition CalculateArea (c : t F) : Outcome (t F) :=
  if negb (initialized c) then Ret c
  else
    let? (c, totalHeight, totalWidth) :=
      OutputDriver.stages COMPARATOR_INV_CHAIN_LEN (fun '(c, th, tw) i =>
        let? n := OutputDriver.get (widthNMOSInv c) i in
        let? p := OutputDriver.get (widthPMOSInv c) i in
        let? (n, p) := EnlargeSize n p (OutputDriver.cell_region tech) tech in
        let? ns := OutputDriver.put (widthNMOSInv c) i n in
        let? ps := OutputDriver.put (widthPMOSInv c) i p in
        let? (_, h, w) := CalculateGateArea INV 1 n p (row_region tech) tech in
        Ret (c <| widthNMOSInv := ns |> <| widthPMOSInv := ps |>, MAX th h, (tw + w)%num)) (c, of_Z 0, of_Z 0) in
    let? (n, p) := EnlargeSize (widthNMOSComp c) (widthPMOSComp c) (OutputDriver.cell_region tech) tech in
    let c := c <| widthNMOSComp := n |> <| widthPMOSComp := p |> in
    let? (_, h, w) := CalculateGateArea NAND 2 n (of_Z 0) (row_region tech) tech in
    let height := ((totalHeight + h) * #1)%num in
    let width := (MAX totalWidth (#(numTagBits c) * w) * #4)%num in
    Ret (c <| fu := (fu c) <| FunctionUnit.height := height |> <| FunctionUnit.width := width |>
                           <| FunctionUnit.area := (height * width)%num |> |>).

(** Comparator::CalculateRC *)
Definition CalculateRC (c : t F) : Outcome (t F) :=
  let temp := OutputDriver.temperature ip in
  if negb (initialized c) then Ret c
  else
    let? c :=
      OutputDriver.stages COMPARATOR_INV_CHAIN_LEN (fun c i =>
        let? n := OutputDriver.get (widthNMOSInv c) i in
        let? p := OutputDriver.get (widthPMOSInv c) i in
        let? (ci, co) := CalculateGateCapacitance INV 1 n p (OutputDriver.cell_region tech) tech in
        let? cis := OutputDriver.put (capInput c) i ci in
        let? cos := OutputDriver.put (capOutput c) i co in
        Ret (c <| capInput := cis |> <| capOutput := cos |>)) c in
    let? (_, capComp) := CalculateGateCapacitance NAND 2 (widthNMOSComp c) (of_Z 0) (row_region tech) tech in
    let? last := OutputDriver.get (capOutput c) (COMPARATOR_INV_CHAIN_LEN - 1) in
    let? drain := CalculateDrainCap (OutputDriver.fin_scale tech (widthPMOSComp c)) PMOS (OutputDriver.cell_region tech) tech in
    let? wlast := OutputDriver.get (widthNMOSInv c) (COMPARATOR_INV_CHAIN_LEN - 1) in
    let? rb := CalculateOnResistance (OutputDriver.fin_scale tech wlast) NMOS temp tech in
    let? rt := CalculateOnResistance (OutputDriver.fin_scale tech (widthNMOSComp c)) NMOS temp tech in
    Ret (c <| capBottom := (last + #(numTagBits c) * capComp)%num |>
           <| capTop := (#(numTagBits c) * capComp + drain + capLoad c)%num |>
           <| resBottom := rb |> <| resTop := (#2 * rt)%num |>).

(** Comparator::CalculateLatency *)
Definition CalculateLatency (_rampInput : F) (c : t F) : Outcome (t F) :=
  if negb (initialized c) then Ret c
  else
    let? (latency, ramp) :=
      OutputDriver.stages (COMPARATOR_INV_CHAIN_LEN - 1) (fun '(latency, ramp) i =>
        let? w := OutputDriver.get (widthNMOSInv c) i in
        let? co := OutputDriver.get (capOutput c) i in
        let? ci := OutputDriver.get (capInput c) (i + 1) in
        let? (delay, temp) := OutputDriver.inverter_delay tech ip w (fun res => res * (co + ci))%num ramp in
        Ret (latency + delay, temp)%num) (of_Z 0, _rampInput) in
    let tr := (resBottom c * capBottom c + (resBottom c + resTop c) * capTop c)%num in
    let '(delay, out) := horowitz tr (of_Z 0) ramp in
    let latency := (latency + delay)%num in
    Ret (c <| rampInput := _rampInput |> <| rampOutput := out |>
           <| fu := (fu c) <| FunctionUnit.readLatency := latency |> <| FunctionUnit.writeLatency := latency |> |>).

(** Comparator::CalculatePower *)
Definition CalculatePower (c : t F) : Outcome (t F) :=
  let vdd := Process.vdd tech in
  let temp := OutputDriver.temperature ip in
  if negb (initialized c) then Ret c
  else
    let? leakage :=
      OutputDriver.stages COMPARATOR_INV_CHAIN_LEN (fun leakage i =>
        let? n := OutputDriver.get (widthNMOSInv c) i in
        let? p := OutputDriver.get (widthPMOSInv c) i in
        let? l := CalculateGateLeakage INV 1 n p temp tech in
        Ret (leakage + l * vdd)%num) (of_Z 0) in
    let? l := CalculateGateLeakage NAND 2 (widthNMOSComp c) (of_Z 0) temp tech in
    let leakage := ((leakage + #(numTagBits c) * l * vdd) * #4)%num in
    let? energy :=
      OutputDriver.stages (COMPARATOR_INV_CHAIN_LEN - 1) (fun energy i =>
        let? co := OutputDriver.get (capOutput c) i in
        let? ci := OutputDriver.get (capInput c) (i + 1) in
        Ret (energy + (co + ci) * vdd * vdd)%num) (of_Z 0) in
    let energy := ((energy + (capBottom c + capTop c) * vdd * vdd) * #4)%num in
    Ret (c <| fu := (fu c) <| FunctionUnit.leakage := leakage |> <| FunctionUnit.readDynamicEnergy := energy |>
                           <| FunctionUnit.writeDynamicEnergy := energy |> |>).

(** Comparator::operator=: the refresh figures and the magic layout are not copied. *)
Definition assign (this rhs : t F) : t F :=
  rhs <| fu := (fu rhs) <| FunctionUnit.refreshLatency := FunctionUnit.refreshLatency (fu this) |>
                        <| FunctionUnit.refreshDynamicEnergy := FunctionUnit.refreshDynamicEnergy (fu this) |>
                        <| FunctionUnit.newHeight := FunctionUnit.newHeight (fu this) |>
                        <| FunctionUnit.newWidth := FunctionUnit.newWidth (fu this) |> |>.

End Operations.
End Comparator.

Module Precharger.
Import Formula.

Record t (F : Type) : Type := mk {
  fu : FunctionUnit.t F;
  initialized : bool;
  outputDriver : OutputDriver.t F;
  voltagePrecharge : F;
  capBitline : F;
  resBitline : F;
  capLoadInv : F;
  capOutputBitlinePrecharger : F;
  capWireLoadPerColumn : F;
  resWireLoadPerColumn : F;
  enableLatency : F;
  numColumn : Z;
  widthPMOSBitlinePrecharger : F;
  widthPMOSBitlineEqual : F;
  widthInvNmos : F;
  widthInvPmos : F;
  capLoadPerColumn : F;
  rampInput : F;
  rampOutput : F;
  wireLength : F
}.
Arguments mk {_} _ _ _ _ _ _ _ _ _ _ _ _ _ _ _ _ _ _ _ _.
Arguments fu {_} _.
Arguments initialized {_} _.
Arguments outputDriver {_} _.
Arguments voltagePrecharge {_} _.
Arguments capBitline {_} _.
Arguments resBitline {_} _.
Arguments capLoadInv {_} _.
Arguments capOutputBitlinePrecharger {_} _.
Arguments capWireLoadPerColumn {_} _.
Arguments resWireLoadPerColumn {_} _.
Arguments enableLatency {_} _.
Arguments numColumn {_} _.
Arguments widthPMOSBitlinePrecharger {_} _.
Arguments widthPMOSBitlineEqual {_} _.
Arguments widthInvNmos {_} _.
Arguments widthInvPmos {_} _.
Arguments capLoadPerColumn {_} _.
Arguments rampInput {_} _.
Arguments rampOutput {_} _.
Arguments wireLength {_} _.
#[global] Instance eta {F : Type} : RecordEta (t F) := fun x =>
  mk (fu x) (initialized x) (outputDriver x) (voltagePrecharge x) (capBitline x) (resBitline x) (capLoadInv
    x) (capOutputBitlinePrecharger x) (capWireLoadPerColumn x) (resWireLoadPerColumn x) (enableLatency x)
    (numColumn x) (widthPMOSBitlinePrecharger x) (widthPMOSBitlineEqual x) (widthInvNmos x) (widthInvPmos x)
    (capLoadPerColumn x) (rampInput x) (rampOutput x) (wireLength x).

Section Operations.
Context {F : Type} `{Num F}.
Context (tech : Process.t F) (ip : InputParameter.t F) (cell : MemCell.t F) (localWire : Wire.t F).

(** Precharger::Precharger *)
Definition Precharger : t F :=
  mk FunctionUnit.FunctionUnit false OutputDriver.OutputDriver (of_Z 0) (of_Z 0) (of_Z 0) (of_Z 0) (of_Z 0) (of_Z 0)
    (of_Z 0) (of_Z 0) 0 (of_Z 0) (of_Z 0) (of_Z 0) (of_Z 0) (of_Z 0) (of_Z 0) (of_Z 0) (of_Z 0).

(** Precharger::Initialize *)
Definition Initialize (_voltagePrecharge : F) (_numColumn : Z) (_capBitline _resBitline _wireLength : F) (p : t F)
  : Outcome (t F) :=
  let fs := Process.featureSize tech in
  let region := OutputDriver.cell_region tech in
  let pitch := (MemCell.widthInFeatureSize cell * fs)%num in
  let p := p <| voltagePrecharge := _voltagePrecharge |> <| numColumn := _numColumn |> <| capBitline := _capBitline |>
             <| resBitline := _resBitline |> <| wireLength := _wireLength |>
             <| capWireLoadPerColumn := (pitch * Wire.capWirePerUnit localWire)%num |>
             <| resWireLoadPerColumn := (pitch * Wire.resWirePerUnit localWire)%num |> in
  let invN := (MIN_NMOS_SIZE * fs)%num in
  let? (invN, invP) := EnlargeSize invN (invN * Process.pnSizeRatio tech)%num region tech in
  let? (temp, equal) := EnlargeSize (of_Z 0) (MIN_NMOS_SIZE * fs)%num region tech in
  let? (_, pre) := EnlargeSize temp (#6 * fs)%num region tech in
  let drain (w : F) (type : Z) := CalculateDrainCap w type (row_region tech) tech in
  let? drainN := drain invN NMOS in
  let? drainP := drain invP PMOS in
  let? drainPre := drain pre PMOS in
  let? drainEqual := drain equal PMOS in
  let capInputInv := (CalculateGateCap invN tech + CalculateGateCap invP tech)%num in
  let p := p <| widthInvNmos := invN |> <| widthInvPmos := invP |> <| widthPMOSBitlineEqual := equal |>
             <| widthPMOSBitlinePrecharger := pre |>
             <| capLoadInv := (CalculateGateCap equal tech + #2 * CalculateGateCap pre tech + drainN + drainP)%num |>
             <| capOutputBitlinePrecharger := (drainPre + drainEqual)%num |>
             <| capLoadPerColumn := (capInputInv + capWireLoadPerColumn p)%num |> in
  let? o := OutputDriver.Initialize tech ip (of_Z 1) capInputInv (#(numColumn p) * capLoadPerColumn p)%num (of_Z 0) true
              latency_first (of_Z 0) false (wireLength p) (outputDriver p) in
  Ret (p <| outputDriver := o |> <| initialized := true |>).

(** Precharger::CalculateArea *)
Definition CalculateArea (p : t F) : Outcome (t F) :=
  if negb (initialized p) then Ret p
  else
    let? o := OutputDriver.CalculateArea tech (outputDriver p) in
    let gate (n w : F) := CalculateGateArea INV 1 n w (row_region tech) tech in
    let? (_, hPre, wPre) := gate (of_Z 0) (widthPMOSBitlinePrecharger p) in
    let? (_, hEqual, wEqual) := gate (of_Z 0) (widthPMOSBitlineEqual p) in
    let? (_, hInv, wInv) := gate (widthInvNmos p) (widthInvPmos p) in
    let width := MAX (MAX (#2 * wPre + wEqual) wInv * #(numColumn p))%num (FunctionUnit.width (OutputDriver.fu o)) in
    let height := MAX (MAX hPre hEqual + hInv)%num (FunctionUnit.height (OutputDriver.fu o)) in
    Ret (p <| outputDriver := o |>
           <| fu := (fu p) <| FunctionUnit.height := height |> <| FunctionUnit.width := width |>
                           <| FunctionUnit.area := (height * width)%num |> |>).

(** Precharger::CalculateRC *)
Definition CalculateRC (p : t F) : Outcome (t F) :=
  if negb (initialized p) then Ret p
  else let? o := OutputDriver.CalculateRC tech (outputDriver p) in Ret (p <| outputDriver := o |>).

(** Precharger::CalculateLatency *)
Definition CalculateLatency (_rampInput : F) (p : t F) : Outcome (t F) :=
  if negb (initialized p) then Ret p
  else
    let p := p <| rampInput := _rampInput |> in
    let? o := OutputDriver.CalculateLatency tech ip (rampInput p) (outputDriver p) in
    let? (delay, temp) := OutputDriver.inverter_delay tech ip (widthInvNmos p) (fun res => res * capLoadInv p)%num
                            (OutputDriver.rampOutput o) in
    let w := OutputDriver.fin_scale tech (widthPMOSBitlinePrecharger p) in
    let? resPullUp := CalculateOnResistance w PMOS (OutputDriver.temperature ip) tech in
    let tau := (resPullUp * (capBitline p + capOutputBitlinePrecharger p) + resBitline p * capBitline p / #2)%num in
    let gm := CalculateTransconductance w PMOS tech in
    let '(up, out) := horowitz tau (#1 / (resPullUp * gm))%num temp in
    let latency := (#0 + up)%num in
    Ret (p <| outputDriver := o |>
           <| enableLatency := (FunctionUnit.readLatency (OutputDriver.fu o) + delay)%num |> <| rampOutput := out |>
           <| fu := (fu p) <| FunctionUnit.readLatency := latency |> <| FunctionUnit.writeLatency := latency |>
                           <| FunctionUnit.refreshLatency := latency |> |>).

(** Precharger::CalculatePower *)
Definition CalculatePower (p : t F) : Outcome (t F) :=
  let vdd := Process.vdd tech in
  let leak (n w : F) := CalculateGateLeakage INV 1 n w (OutputDriver.temperature ip) tech in
  if negb (initialized p) then Ret p
  else
    let? o := OutputDriver.CalculatePower tech ip (outputDriver p) in
    let? inv := leak (widthInvNmos p) (widthInvPmos p) in
    let? pre := leak (of_Z 0) (widthPMOSBitlinePrecharger p) in
    let leakage := (FunctionUnit.leakage (OutputDriver.fu o) + #(numColumn p) * vdd * inv
                    + #(numColumn p) * voltagePrecharge p * pre)%num in
    let energy := (FunctionUnit.readDynamicEnergy (OutputDriver.fu o) + capLoadInv p * vdd * vdd * #(numColumn p))%num in
    Ret (p <| outputDriver := o |>
           <| fu := (fu p) <| FunctionUnit.leakage := leakage |> <| FunctionUnit.readDynamicEnergy := energy |>
                           <| FunctionUnit.writeDynamicEnergy := of_Z 0 |>
                           <| FunctionUnit.refreshDynamicEnergy := energy |> |>).

End Operations.
End Precharger.

Module SenseAmp.
Import Formula.
Import BinarySenseAmp.

Record t (F : Type) : Type := mk {
  fu : FunctionUnit.t F;
  initialized : bool;
  invalid : bool;
  numColumn : Z;
  currentSense : bool;
  senseVoltage : F;
  capLoad : F;
  pitchSenseAmp : F;
  binaryResult : Outputs.t F
}.
Arguments mk {_} _ _ _ _ _ _ _ _ _.
Arguments fu {_} _.
Arguments initialized {_} _.
Arguments invalid {_} _.
Arguments numColumn {_} _.
Arguments currentSense {_} _.
Arguments senseVoltage {_} _.
Arguments capLoad {_} _.
Arguments pitchSenseAmp {_} _.
Arguments binaryResult {_} _.
#[global] Instance eta {F : Type} : RecordEta (t F) := fun x =>
  mk (fu x) (initialized x) (invalid x) (numColumn x) (currentSense x) (senseVoltage x) (capLoad x)
    (pitchSenseAmp x) (binaryResult x).

Section Operations.
Context {F : Type} `{Num F}.
Context (tech : Process.t F) (ip : InputParameter.t F).

(** SenseAmp::SenseAmp *)
Definition SenseAmp : t F :=
  mk FunctionUnit.FunctionUnit false false 0 false (of_Z 0) (of_Z 0) (of_Z 0) blank.

(** A default operating point has no context. *)
Definition no_point : Point.t F :=
  Point.mk false false false 1 MRAM CMOS_access (of_Z 300) (of_Z 0) (of_Z 0) (of_Z 0) (of_Z 0) (of_Z 0).

(** SenseAmp::Initialize *)
Definition Initialize (_numColumn : Z) (_currentSense : bool) (_senseVoltage _pitchSenseAmp : F)
  (operatingPoint : option (Point.t F)) (a : t F) : Outcome (t F) :=
  let point := match operatingPoint with Some p => p | None => no_point end in
  let a := a <| invalid := false |> <| numColumn := _numColumn |> <| currentSense := _currentSense |>
             <| senseVoltage := _senseVoltage |> <| pitchSenseAmp := _pitchSenseAmp |> <| binaryResult := blank |> in
  let? a :=
    if currentSense a then
      let? r := EvaluateBinarySenseAmp point tech (numColumn a) in
      Ret (a <| binaryResult := r |> <| invalid := bool_decide (Outputs.status r = BinarySenseAmp.Invalid) |>)
    else Ret a in
  let a := if (pitchSenseAmp a <=? Process.featureSize tech * #3)%num then a <| invalid := true |> else a in
  Ret (a <| initialized := true |>).

Definition UsesBinaryModel (a : t F) : bool :=
  currentSense a && bool_decide (Outputs.status (binaryResult a) = Applied).

(** [((featureSize <= 14*1e-9) ? 2 : 1) * W * featureSize] *)
Definition sense_width (w : F) : F :=
  (of_Z (if (Process.featureSize tech <=? nm 14)%num then 2 else 1) * w * Process.featureSize tech)%num.

(** SenseAmp::CalculateArea; the layout is turned, so a gate's height is a width. *)
Definition CalculateArea (a : t F) : Outcome (t F) :=
  let fs := Process.featureSize tech in
  let set (h w x : F) :=
    a <| fu := (fu a) <| FunctionUnit.height := h |> <| FunctionUnit.width := w |> <| FunctionUnit.area := x |> |> in
  let gap := (#2 * lit 16 (-1) * fs)%num in
  if negb (initialized a) then Ret a
  else if invalid a then Ret (set invalid_value invalid_value invalid_value)
  else if UsesBinaryModel a then
    let x := Outputs.area (binaryResult a) in
    let w := (pitchSenseAmp a * #(numColumn a))%num in
    Ret (set (x / w)%num w x)
  else
    let converter := (if currentSense a then #0 + #50000 * fs * fs else #0)%num in
    let gate (n p : F) := CalculateGateArea INV 1 n p (pitchSenseAmp a) tech in
    let? (_, w1, h1) := gate (of_Z 0) (sense_width (lit 75 (-1))) in
    let? (_, w2, h2) := gate (of_Z 0) (sense_width (lit 125 (-1))) in
    let? (_, w3, h3) := gate (sense_width (lit 375 (-2))) (of_Z 0) in
    let? (_, w4, h4) := gate (sense_width (lit 50 (-1))) (of_Z 0) in
    let width := MAX (MAX (MAX (MAX (of_Z 0) w1) w2) w3) w4 in
    let height := (#0 + #2 * h1 + h2 + gap + #2 * h3 + h4 + gap + MIN_GAP_BET_P_AND_N_DIFFS * fs)%num in
    let height := (height * width / pitchSenseAmp a + converter / pitchSenseAmp a)%num in
    let width := (pitchSenseAmp a * #(numColumn a))%num in
    Ret (set height width (height * width)%num).

(** SenseAmp::CalculateRC *)
Definition CalculateRC (a : t F) : Outcome (t F) :=
  if negb (initialized a) then Ret a
  else if invalid a then
    Ret (a <| fu := (fu a) <| FunctionUnit.readLatency := invalid_value |> <| FunctionUnit.writeLatency := invalid_value |> |>)
  else if UsesBinaryModel a then Ret (a <| capLoad := Outputs.inputCapacitance (binaryResult a) |>)
  else
    let drain (w : F) (type : Z) := CalculateDrainCap (sense_width w) type (pitchSenseAmp a) tech in
    let? d1 := drain (lit 375 (-2)) NMOS in
    let? d2 := drain (lit 75 (-1)) PMOS in
    let? d3 := drain (lit 125 (-1)) PMOS in
    let? d4 := drain (lit 90 (-1)) NMOS in
    Ret (a <| capLoad := (CalculateGateCap (sense_width (lit 75 (-1) + lit 375 (-2))%num) tech + d1 + d2 + d3 + d4)%num |>).

(** The delay of the current-to-voltage converter per node. *)
Definition converter_delay (fs : F) : F :=
  (if fs >=? lit 179 (-9) then lit 46 (-11)
   else if fs >=? lit 119 (-9) then lit 49 (-11)
   else if fs >=? lit 89 (-9) then lit 53 (-11)
   else if fs >=? lit 64 (-9) then lit 62 (-11)
   else if fs >=? lit 44 (-9) then lit 80 (-11)
   else if fs >=? lit 31 (-9) then lit 107 (-11)
   else if fs >=? lit 21 (-9) then lit 145 (-11)
   else if fs >=? lit 13 (-9) then lit 3802 (-12)
   else if fs >=? lit 9 (-9) then lit 3326 (-12)
   else if fs >=? lit 6 (-9) then lit 3408 (-12)
   else if fs >=? lit 4 (-9) then lit 2697 (-12)
   else if fs >=? lit 2 (-9) then lit 2156 (-12)
   else if fs >? lit 1 (-9) then lit 2678 (-12)
   else lit 2371 (-12))%num.

(** SenseAmp::CalculateLatency: a pitch that is too small is not looked at. *)
Definition CalculateLatency (_rampInput : F) (a : t F) : t F :=
  let set (r w f : F) :=
    a <| fu := (fu a) <| FunctionUnit.readLatency := r |> <| FunctionUnit.writeLatency := w |>
                      <| FunctionUnit.refreshLatency := f |> |> in
  if negb (initialized a) then a
  else if currentSense a && bool_decide (Outputs.status (binaryResult a) = BinarySenseAmp.Invalid)
  then set invalid_value invalid_value invalid_value
  else if UsesBinaryModel a then
    let l := Outputs.readLatency (binaryResult a) in set l (of_Z 0) l
  else
    let converter := (if currentSense a then #0 + converter_delay (Process.featureSize tech) else #0)%num in
    let gm := (CalculateTransconductance (sense_width (lit 375 (-2))) NMOS tech
               + CalculateTransconductance (sense_width (lit 75 (-1))) PMOS tech)%num in
    let tau := (capLoad a / gm)%num in
    let l := (converter + tau * nlog (Process.vdd tech / senseVoltage a))%num in
    set l (of_Z 0) l.

(** Energy and leakage of the converter per node; the bound for 22 nm is written
    [21-9], twelve. *)
Definition converter_power (fs : F) : F * F :=
  (if fs >=? lit 119 (-9) then (lit 852 (-16), lit 140 (-10))
   else if fs >=? lit 89 (-9) then (lit 872 (-16), lit 187 (-10))
   else if fs >=? lit 64 (-9) then (lit 900 (-16), lit 257 (-10))
   else if fs >=? lit 44 (-9) then (lit 1026 (-16), lit 441 (-11))
   else if fs >=? lit 31 (-9) then (lit 1256 (-16), lit 1254 (-10))
   else if fs >=? #(21 - 9) then (lit 15 (-14), lit 15 (-8))
   else if fs >=? lit 13 (-9) then (lit 375 (-15), lit 225 (-9))
   else if fs >=? lit 9 (-9) then (lit 3097 (-16), lit 2679 (-10))
   else if fs >=? lit 6 (-9) then (lit 278 (-15), lit 2496 (-10))
   else if fs >=? lit 4 (-9) then (lit 22644 (-17), lit 23255 (-11))
   else if fs >=? lit 2 (-9) then (lit 2008 (-16), lit 25362 (-11))
   else if fs >? lit 1 (-9) then (lit 1902 (-16), lit 13598 (-11))
   else (lit 1544 (-16), lit 2954 (-10)))%num.

(** SenseAmp::CalculatePower *)
Definition CalculatePower (a : t F) : Outcome (t F) :=
  let vdd := Process.vdd tech in
  let set (r w l : F) (a : t F) :=
    a <| fu := (fu a) <| FunctionUnit.readDynamicEnergy := r |> <| FunctionUnit.writeDynamicEnergy := w |>
                      <| FunctionUnit.leakage := l |> |> in
  let refresh (x : F) (a : t F) := a <| fu := (fu a) <| FunctionUnit.refreshDynamicEnergy := x |> |> in
  if negb (initialized a) then Ret a
  else if invalid a then Ret (set invalid_value invalid_value invalid_value a)
  else if UsesBinaryModel a then
    let r := binaryResult a in
    let e := Outputs.readDynamicEnergy r in
    Ret (refresh e (set e (of_Z 0) (Outputs.leakage r) a))
  else
    let '(ce, cl) := converter_power (Process.featureSize tech) in
    let '(energy, leakage) := (if currentSense a then (#0 + ce, #0 + cl) else (#0, #0))%num in
    let? idle := CalculateGateLeakage INV 1 (sense_width (lit 50 (-1))) (of_Z 0) (OutputDriver.temperature ip) tech in
    let idleCurrent := (idle * vdd)%num in
    let energy := ((energy + capLoad a * vdd * vdd) * #(numColumn a))%num in
    let leakage := ((leakage + idleCurrent * vdd) * #(numColumn a))%num in
    Ret (refresh energy (set energy (of_Z 0) leakage a)).

End Operations.
End SenseAmp.
