(* ===== verification/Tsv.v ===== *)
(** * Vertical connections

    TSV.h/.cpp and FunctionUnit::logical_effort (FunctionUnit.cpp): the electrical
    model of a through-silicon or monolithic via, with or without a chain of
    buffers sized by logical effort.  The arrays hold
    [MAX_NUMBER_GATES_STAGE] widths; an access outside is undefined. *)
From S2P Require Import Prelude Numeric Types InputParameter Process Formula Circuit OutputDriver.
From stdpp Require Import base list strings.
From Stdlib Require Import ZArith Lia.
Open Scope Z_scope.

Module TSV.
Import Formula.

Definition MAX_NUMBER_GATES_STAGE : Z := 20.
Definition assertion : string := "Assertion failed".

(** The index of a kind of via in the tables of the technology. *)
Definition TSV_type_to_Z (x : TSV_type) : Z :=
  match x with Fine => 0 | Coarse => 1 | Monolithic => 2 end.

(** TSV.h; the member [F] is [effort] *)
Record t (F : Type) : Type := mk {
  fu : FunctionUnit.t F;
  res : F;
  cap : F;
  C_load_TSV : F;
  min_area : F;
  effort : F;
  num_gates : Z;
  w_TSV_n : list F;
  w_TSV_p : list F;
  numTotalBits : Z;
  numAccessBits : Z;
  numReadBits : Z;
  numDataBits : Z;
  TSV_metal_area : F;
  buffer_area : F;
  buffer_area_height : F;
  buffer_area_width : F;
  tsv_type : Z;
  initialized : bool;
  invalid : bool
}.
Arguments mk {_} _ _ _ _ _ _ _ _ _ _ _ _ _ _ _ _ _ _ _ _.
Arguments fu {_} _.
Arguments res {_} _.
Arguments cap {_} _.
Arguments C_load_TSV {_} _.
Arguments min_area {_} _.
Arguments effort {_} _.
Arguments num_gates {_} _.
Arguments w_TSV_n {_} _.
Arguments w_TSV_p {_} _.
Arguments numTotalBits {_} _.
Arguments numAccessBits {_} _.
Arguments numReadBits {_} _.
Arguments numDataBits {_} _.
Arguments TSV_metal_area {_} _.
Arguments buffer_area {_} _.
Arguments buffer_area_height {_} _.
Arguments buffer_area_width {_} _.
Arguments tsv_type {_} _.
Arguments initialized {_} _.
Arguments invalid {_} _.
#[global] Instance eta {F : Type} : RecordEta (t F) := fun x =>
  mk (fu x) (res x) (cap x) (C_load_TSV x) (min_area x) (effort x) (num_gates x) (w_TSV_n x) (w_TSV_p x)
    (numTotalBits x) (numAccessBits x) (numReadBits x) (numDataBits x) (TSV_metal_area x) (buffer_area x)
    (buffer_area_height x) (buffer_area_width x) (tsv_type x) (initialized x) (invalid x).

Section Operations.
Context {F : Type} `{Num F}.
Context (tech : Process.t F) (ip : InputParameter.t F).

(** TSV::TSV *)
Definition TSV : t F :=
  let z : F := of_Z 0 in
  let zeros := replicate (Z.to_nat MAX_NUMBER_GATES_STAGE) z in
  mk FunctionUnit.FunctionUnit z z z z z 0 zeros zeros 0 0 0 0 z z z z 0 false true.

(** ** FunctionUnit::logical_effort *)

Definition fopt : F := lit 40 (-1).

(** [num_gates += (num_gates % 2) ? 1 : 0; num_gates = MAX(num_gates, num_gates_min)] *)
Definition even_gates (n num_gates_min : Z) : Z :=
  Z.max (n + (if Z.rem n 2 =? 0 then 0 else 1)) num_gates_min.

(** The last gate: the number of gates, the effort per stage and the widths. *)
Definition last_gate (num_gates_min : Z) (g effort : F) (w_n w_p : list F) (C_load p_to_n_sz_ratio max_w_nmos : F)
  : Outcome (Z * F * list F * list F) :=
  let num_gates := even_gates (trunc (nlog effort / nlog fopt)%num) num_gates_min in
  let f := npow effort (#1 / #num_gates)%num in
  let C_in := (C_load / f)%num in
  let w := ((#1 / (#1 + p_to_n_sz_ratio)) * C_in / CalculateGateCap #1 tech)%num in
  let w := MAX w (MIN_NMOS_SIZE * Process.featureSize tech)%num in
  let? w_n := OutputDriver.put w_n (num_gates - 1) w in
  let? w_p := OutputDriver.put w_p (num_gates - 1) (p_to_n_sz_ratio * w)%num in
  if (w >? max_w_nmos)%num then
    let C_ld := CalculateGateCap ((#1 + p_to_n_sz_ratio) * max_w_nmos)%num tech in
    let? n0 := OutputDriver.get w_n 0 in
    let? p0 := OutputDriver.get w_p 0 in
    let effort := (g * C_ld / CalculateGateCap (n0 + p0) tech)%num in
    let num_gates := even_gates (trunc (nlog effort / nlog fopt)%num + 1) num_gates_min in
    let f := npow effort (#1 / #(num_gates - 1))%num in
    let? w_n := OutputDriver.put w_n (num_gates - 1) max_w_nmos in
    let? w_p := OutputDriver.put w_p (num_gates - 1) (p_to_n_sz_ratio * max_w_nmos)%num in
    Ret (num_gates, f, w_n, w_p)
  else Ret (num_gates, f, w_n, w_p).

(** The gates before it, [i = num_gates - 2] down to 1. *)
Definition earlier_gate (f p_to_n_sz_ratio : F) (s : list F * list F) (i : Z) : Outcome (list F * list F) :=
  let '(w_n, w_p) := s in
  let? next := OutputDriver.get w_n (i + 1) in
  let w := MAX (next / f)%num (MIN_NMOS_SIZE * Process.featureSize tech)%num in
  let? w_n := OutputDriver.put w_n i w in
  let? w_p := OutputDriver.put w_p i (p_to_n_sz_ratio * w)%num in
  Ret (w_n, w_p).

Definition logical_effort (num_gates_min : Z) (g effort : F) (w_n w_p : list F) (C_load p_to_n_sz_ratio max_w_nmos : F)
  : Outcome (Z * list F * list F) :=
  let? (num_gates, f, w_n, w_p) := last_gate num_gates_min g effort w_n w_p C_load p_to_n_sz_ratio max_w_nmos in
  let? (w_n, w_p) := outcome_fold (earlier_gate f p_to_n_sz_ratio) (rev (seqZ 1 (num_gates - 2))) (w_n, w_p) in
  if num_gates <=? MAX_NUMBER_GATES_STAGE then Ret (num_gates, w_n, w_p) else Exit assertion.

(** ** TSV.cpp *)

(** TSV::Initialize *)
Definition Initialize (requestedType : TSV_type) (buffered : bool) (v : t F) : Outcome (t F) :=
  let fs := Process.featureSize tech in
  let pn := Process.pnSizeRatio tech in
  let k := TSV_type_to_Z requestedType in
  let? c := OutputDriver.get (Process.capTSV tech) k in
  let? r := OutputDriver.get (Process.resTSV tech) k in
  let? a := OutputDriver.get (Process.areaTSV tech) k in
  let v := v <| tsv_type := k |> <| invalid := false |> <| num_gates := 1 |> <| C_load_TSV := of_Z 0 |>
             <| effort := of_Z 0 |> <| cap := c |> <| res := r |> <| min_area := (a * lit 1 (-12))%num |> in
  let? v :=
    if negb buffered then Ret (v <| num_gates := 0 |>)
    else
      let n0 := (MIN_NMOS_SIZE * #5 * fs)%num in
      let p0 := (n0 * pn)%num in
      let? w_n := OutputDriver.put (w_TSV_n v) 0 n0 in
      let? w_p := OutputDriver.put (w_TSV_p v) 0 p0 in
      let load := (cap v + CalculateGateCap (MIN_NMOS_SIZE * fs + pn * MIN_NMOS_SIZE * fs) tech)%num in
      let e := (load / CalculateGateCap (n0 + p0) tech)%num in
      let? (gates, w_n, w_p) := logical_effort 1 (of_Z 1) e w_n w_p load pn (#100 * fs)%num in
      Ret (v <| C_load_TSV := load |> <| effort := e |> <| num_gates := gates |> <| w_TSV_n := w_n |> <| w_TSV_p := w_p |>) in
  let v := v <| initialized := true |> in
  Ret (if MAX_NUMBER_GATES_STAGE <? num_gates v then v <| invalid := true |> else v).

(** TSV::CalculateArea *)
Definition CalculateArea (v : t F) : Outcome (t F) :=
  let fs := Process.featureSize tech in
  let? (cumulative_area, cumulative_curr_Ig) :=
    OutputDriver.stages (num_gates v) (fun '(area, curr) i =>
      let? n := OutputDriver.get (w_TSV_n v) i in
      let? p := OutputDriver.get (w_TSV_p v) i in
      let? (a, _, _) := CalculateGateArea INV 1 n p (OutputDriver.cell_region tech) tech in
      let? l := CalculateGateLeakage INV 1 n p (OutputDriver.temperature ip) tech in
      Ret (area + a, curr + l)%num) (of_Z 0, of_Z 0) in
  let bh := (#50 * fs)%num in
  let metal := (min_area v * lit 31416 (-4) / #16)%num in
  let area := if (cumulative_area <? min_area v - metal)%num then min_area v else (cumulative_area + metal)%num in
  let side := nsqrt area in
  Ret (v <| buffer_area_height := bh |> <| buffer_area := cumulative_area |> <| buffer_area_width := (cumulative_area / bh)%num |>
         <| TSV_metal_area := metal |>
         <| fu := (fu v) <| FunctionUnit.leakage := (cumulative_curr_Ig * Process.vdd tech)%num |>
                         <| FunctionUnit.area := area |> <| FunctionUnit.height := side |> <| FunctionUnit.width := side |> |>).

(** Delay and output ramp of gate [i] that drives [load], with the capacitance it
    switches; the last gate also drives the resistance of the via. *)
Definition gate_delay (v : t F) (i : Z) (load : F) (extra : option F) (ramp : F) : Outcome (F * F * F) :=
  let region := OutputDriver.cell_region tech in
  let? n := OutputDriver.get (w_TSV_n v) i in
  let? p := OutputDriver.get (w_TSV_p v) i in
  let? rd := CalculateOnResistance n NMOS (OutputDriver.temperature ip) tech in
  let? dp := CalculateDrainCap p PMOS region tech in
  let? dn := CalculateDrainCap n NMOS region tech in
  let c_intrinsic := (dp + dn)%num in
  let tf := (rd * (c_intrinsic + load))%num in
  let tf := match extra with Some x => (tf + x)%num | None => tf end in
  let '(d, out) := horowitz tf (lit 5 (-1)) ramp in
  Ret (d, out, load + c_intrinsic)%num.

(** The load of gate [i] is the inverter after it. *)
Definition next_load (v : t F) (i : Z) : Outcome F :=
  let? n := OutputDriver.get (w_TSV_n v) (i + 1) in
  let? p := OutputDriver.get (w_TSV_p v) (i + 1) in
  let? (ci, co) := CalculateGateCapacitance INV 1 n p (OutputDriver.cell_region tech) tech in
  Ret (ci + co)%num.

(** TSV::_CalculateLatencyAndPower: the energy and the latency; [energy] is the one
    before the call, to which an unbuffered via adds. *)
Definition _CalculateLatencyAndPower (_rampInput energy : F) (v : t F) : Outcome (F * F) :=
  let vdd := Process.vdd tech in
  if 0 <? num_gates v then
    let? load := next_load v 0 in
    let? (d, ramp, c) := gate_delay v 0 load None _rampInput in
    let? (delay, ramp, e) :=
      outcome_fold (fun '(delay, ramp, e) i =>
        let? load := next_load v i in
        let? (d, out, c) := gate_delay v i load None ramp in
        Ret (delay + d, out, e + c * vdd * vdd)%num)
        (seqZ 1 (num_gates v - 2)) (#0 + d, ramp, c * vdd * vdd)%num in
    let? (d, _, c) := gate_delay v (num_gates v - 1) (C_load_TSV v) (Some (res v * C_load_TSV v / #2)%num) ramp in
    Ret (e + c * vdd * vdd, delay + d)%num
  else
    let '(d, _) := horowitz (res v * cap v / #2)%num (lit 5 (-1)) _rampInput in
    Ret (energy + cap v * vdd * vdd, #0 + d)%num.

(** TSV::CalculateLatencyAndPower *)
Definition CalculateLatencyAndPower (_rampInputRead _rampInputWrite : F) (v : t F) : Outcome (t F) :=
  if (_rampInputRead =? #0)%num || (_rampInputWrite =? #0)%num then Exit assertion
  else
    let u := fu v in
    let? (er, lr) := _CalculateLatencyAndPower _rampInputRead (FunctionUnit.readDynamicEnergy u) v in
    let? (ew, lw) := _CalculateLatencyAndPower _rampInputWrite (FunctionUnit.writeDynamicEnergy u) v in
    Ret (v <| fu := u <| FunctionUnit.readDynamicEnergy := er |> <| FunctionUnit.readLatency := lr |>
                      <| FunctionUnit.writeDynamicEnergy := ew |> <| FunctionUnit.writeLatency := lw |>
                      <| FunctionUnit.setDynamicEnergy := ew |> <| FunctionUnit.resetDynamicEnergy := ew |>
                      <| FunctionUnit.setLatency := lw |> <| FunctionUnit.resetLatency := lw |> |>).

End Operations.
End TSV.
