(* ===== verification/Aos.v ===== *)
(** * The compact model of oxide transistors

    AOSFETCompactModel.h/.cpp: currents, charges and capacitances of an amorphous
    oxide semiconductor transistor.  The surface potential is found by Halley's
    iteration, the current behind contact resistances by bisection; an exception
    is [Exit] with its message. *)
From S2P Require Import Prelude Numeric.
From stdpp Require Import base list strings.
From Stdlib Require Import ZArith Lia.
Open Scope string_scope.
Open Scope Z_scope.

Module AOS.

(** AOSFETCompactModel::Parameters *)
Module Parameters.
Record t (F : Type) : Type := mk {
  q : F;
  k : F;
  temperature : F;
  tailTemperature : F;
  eps0 : F;
  semiconductorPermittivity : F;
  nu0T0 : F;
  flatBandVoltage : F;
  width : F;
  length : F;
  trapDensity : F;
  fermiReference : F;
  oxideCapacitance : F;
  overlapCapacitance : F;
  vrhThreshold : F;
  percolationThreshold : F;
  vrhPrefactor : F;
  percolationPrefactor : F;
  percolationExponent : F;
  useConstantMobility : bool;
  mobility : F;
  mobilityScale : F;
  leakageSwingFactor : F;
  leakageSurfacePotentialReference : F;
  leakageScale : F;
  currentFloor : F;
  totalContactResistanceKohmUm : F
}.
Arguments mk {_} _ _ _ _ _ _ _ _ _ _ _ _ _ _ _ _ _ _ _ _ _ _ _ _ _ _ _.
Arguments q {_} _.
Arguments k {_} _.
Arguments temperature {_} _.
Arguments tailTemperature {_} _.
Arguments eps0 {_} _.
Arguments semiconductorPermittivity {_} _.
Arguments nu0T0 {_} _.
Arguments flatBandVoltage {_} _.
Arguments width {_} _.
Arguments length {_} _.
Arguments trapDensity {_} _.
Arguments fermiReference {_} _.
Arguments oxideCapacitance {_} _.
Arguments overlapCapacitance {_} _.
Arguments vrhThreshold {_} _.
Arguments percolationThreshold {_} _.
Arguments vrhPrefactor {_} _.
Arguments percolationPrefactor {_} _.
Arguments percolationExponent {_} _.
Arguments useConstantMobility {_} _.
Arguments mobility {_} _.
Arguments mobilityScale {_} _.
Arguments leakageSwingFactor {_} _.
Arguments leakageSurfacePotentialReference {_} _.
Arguments leakageScale {_} _.
Arguments currentFloor {_} _.
Arguments totalContactResistanceKohmUm {_} _.
#[global] Instance eta {F : Type} : RecordEta (t F) := fun x =>
  mk (q x) (k x) (temperature x) (tailTemperature x) (eps0 x) (semiconductorPermittivity x) (nu0T0 x)
    (flatBandVoltage x) (width x) (length x) (trapDensity x) (fermiReference x) (oxideCapacitance x)
    (overlapCapacitance x) (vrhThreshold x) (percolationThreshold x) (vrhPrefactor x) (percolationPrefactor x)
    (percolationExponent x) (useConstantMobility x) (mobility x) (mobilityScale x) (leakageSwingFactor x)
    (leakageSurfacePotentialReference x) (leakageScale x) (currentFloor x) (totalContactResistanceKohmUm x).
End Parameters.

(** AOSDeviceOperatingPoint *)
Module Point.
Record t (F : Type) : Type := mk {
  Ion : F;
  Ioff : F;
  Ron : F;
  Roff : F;
  Cgate : F;
  Cdrain : F
}.
Arguments mk {_} _ _ _ _ _ _.
Arguments Ion {_} _.
Arguments Ioff {_} _.
Arguments Ron {_} _.
Arguments Roff {_} _.
Arguments Cgate {_} _.
Arguments Cdrain {_} _.
#[global] Instance eta {F : Type} : RecordEta (t F) := fun x =>
  mk (Ion x) (Ioff x) (Ron x) (Roff x) (Cgate x) (Cdrain x).
End Point.

(** The members of AOSFETCompactModel. *)
Record Model (F : Type) : Type := mkModel {
  parameters : Parameters.t F;
  mobilityVrhExponent : F;
  voltageNormalization : F;
  thermalVoltage : F;
  trapCoefficient : F;
  deepStateCoefficient : F;
  leakagePrefactor : F
}.
Arguments mkModel {_} _ _ _ _ _ _ _.
Arguments parameters {_} _.
Arguments mobilityVrhExponent {_} _.
Arguments voltageNormalization {_} _.
Arguments thermalVoltage {_} _.
Arguments trapCoefficient {_} _.
Arguments deepStateCoefficient {_} _.
Arguments leakagePrefactor {_} _.
#[global] Instance eta_Model {F : Type} : RecordEta (Model F) := fun x =>
  mkModel (parameters x) (mobilityVrhExponent x) (voltageNormalization x) (thermalVoltage x) (trapCoefficient x)
    (deepStateCoefficient x) (leakagePrefactor x).

Section Operations.
Context {F : Type} `{Num F}.
Import Parameters.

(** A default-initialised operating point. *)
Definition no_point : Point.t F :=
  Point.mk (of_Z 0) (of_Z 0) (of_Z 0) (of_Z 0) (of_Z 0) (of_Z 0).

Definition kPi : F := lit 3141592653589793238462643383279502884 (-36).

(** [-x] *)
Definition opposite (x : F) : F := (#(-1) * x)%num.

Definition throw {A : Type} (message : string) : Outcome A := Exit message.
Definition named (name what : string) : string := "AOS compact-model parameter '" ++ name ++ "' " ++ what.

Definition RequireFinite (value : F) (name : string) : Outcome unit :=
  if nfinite value then Ret tt else throw (named name "must be finite").
Definition RequirePositive (value : F) (name : string) : Outcome unit :=
  let? _ := RequireFinite value name in
  if (value <=? #0)%num then throw (named name "must be greater than zero") else Ret tt.
Definition RequireNonnegative (value : F) (name : string) : Outcome unit :=
  let? _ := RequireFinite value name in
  if (value <? #0)%num then throw (named name "must not be negative") else Ret tt.
Definition RequireFiniteResult (value : F) (name : string) : Outcome unit :=
  if nfinite value then Ret tt else throw ("AOS compact model produced non-finite " ++ name).

(** [if (!std::isfinite(_vds) || _vds < 0) throw ...] *)
Definition RequireDrain (_vds : F) : Outcome unit :=
  if negb (nfinite _vds) || (_vds <? #0)%num then throw "AOS drain voltage must be finite and nonnegative" else Ret tt.

(** AOSFETCompactModel::DefaultParameters *)
Definition DefaultParameters : Parameters.t F :=
  (let eps0 := lit 8854 (-15) in
   Parameters.mk (lit 1602 (-22)) (lit 1380649 (-29)) (lit 3000 (-1)) (lit 4000 (-1)) eps0 (eps0 * #10) (lit 10 (-1))
     (lit 15 (-2)) (lit 1 (-6)) (lit 2 (-6)) (lit 1 17) #0 (lit 8854 (-15) * #21 / lit 5 (-9)) (lit 30 (-18))
     (lit (-15) (-1)) (lit (-10) (-1)) (lit 150 (-1)) (lit 350 (-1)) (lit 3 (-1)) false (lit 0 (-1)) (lit 10 (-1))
     (lit 20 (-1)) (lit 15 (-2)) (lit 10 (-1)) (lit 1 (-17)) (lit 0 (-1)))%num.

(** AOSFETCompactModel::ValidateParameters, in two halves *)
Definition ValidateDevice (p : Parameters.t F) : Outcome unit :=
  let? _ := RequirePositive (q p) "q" in
  let? _ := RequirePositive (k p) "k" in
  let? _ := RequirePositive (temperature p) "temperature" in
  let? _ := RequirePositive (tailTemperature p) "tail temperature" in
  if (temperature p >=? tailTemperature p)%num
  then throw "AOS compact model requires 0 < operating temperature < tail temperature"
  else
  let? _ := RequirePositive (eps0 p) "vacuum permittivity" in
  let? _ := RequirePositive (semiconductorPermittivity p) "semiconductor permittivity" in
  let? _ := RequirePositive (nu0T0 p) "nu0T0" in
  let? _ := RequireFinite (flatBandVoltage p) "flat-band voltage" in
  let? _ := RequirePositive (width p) "width" in
  let? _ := RequirePositive (length p) "length" in
  let? _ := RequirePositive (trapDensity p) "trap density" in
  let? _ := RequireFinite (fermiReference p) "Fermi reference" in
  let? _ := RequirePositive (oxideCapacitance p) "oxide capacitance" in
  RequireNonnegative (overlapCapacitance p) "overlap capacitance".

Definition ValidateTransport (p : Parameters.t F) : Outcome unit :=
  let? _ := RequireFinite (vrhThreshold p) "VRH threshold" in
  let? _ := RequireFinite (percolationThreshold p) "percolation threshold" in
  let? _ := RequirePositive (vrhPrefactor p) "VRH prefactor" in
  let? _ := RequirePositive (percolationPrefactor p) "percolation prefactor" in
  let? _ := RequirePositive (percolationExponent p) "percolation exponent" in
  let? _ := if useConstantMobility p then RequirePositive (mobility p) "constant mobility"
            else RequireNonnegative (mobility p) "constant mobility" in
  let? _ := RequirePositive (mobilityScale p) "mobility scale" in
  let? _ := RequirePositive (leakageSwingFactor p) "leakage swing factor" in
  let? _ := RequirePositive (leakageSurfacePotentialReference p) "leakage surface-potential reference" in
  let? _ := RequirePositive (leakageScale p) "leakage scale" in
  let? _ := RequireNonnegative (currentFloor p) "current floor" in
  RequireNonnegative (totalContactResistanceKohmUm p) "total contact resistance".

Definition ValidateParameters (p : Parameters.t F) : Outcome unit :=
  let? _ := ValidateDevice p in ValidateTransport p.

(** AOSFETCompactModel::LimExp *)
Definition LimExp (_value : F) : Outcome F :=
  let? _ := RequireFinite _value "exponential argument" in
  Ret (nexp (std_min (std_max _value (of_Z (-50))) (of_Z 50))).

(** AOSFETCompactModel::Mobility, of the parameters and [mobilityVrhExponent] *)
Definition Mobility (p : Parameters.t F) (vrhExponent _vgs : F) : Outcome F :=
  let? _ := RequireFinite _vgs "Vgs" in
  let? mobility :=
    if useConstantMobility p then Ret (mobility p)
    else
      let baseVrh := std_max (_vgs - vrhThreshold p)%num (lit 1 (-9)) in
      let basePercolation := std_max (_vgs - percolationThreshold p)%num (lit 1 (-9)) in
      let vrh := (vrhPrefactor p * npow baseVrh vrhExponent)%num in
      let percolation := (percolationPrefactor p * npow basePercolation (percolationExponent p))%num in
      let denominator := (vrh + percolation)%num in
      if negb (denominator >? #0)%num || negb (nfinite denominator)
      then throw "AOS compact model produced invalid mobility components"
      else Ret ((vrh * percolation / denominator) * lit 1 (-4))%num in
  let mobility := (mobility * mobilityScale p)%num in
  let? _ := RequireFiniteResult mobility "mobility" in
  if (mobility <=? #0)%num then throw "AOS compact model produced nonpositive mobility" else Ret mobility.

(** The coefficients of the deep and the tail states. *)
Definition state_coefficients (p : Parameters.t F) : Outcome (F * F) :=
  let z := (temperature p / tailTemperature p)%num in
  let gammaDenominator := nsin (kPi * z)%num in
  if negb (nfinite gammaDenominator) || (gammaDenominator <=? #0)%num
  then throw "AOS compact model gamma term is singular"
  else
    let gammaProduct := ((kPi * z) / gammaDenominator)%num in
    let? e1 := LimExp (fermiReference p / (k p * tailTemperature p))%num in
    let trapTerm := (q p * semiconductorPermittivity p * trapDensity p * (k p * tailTemperature p / q p)
                     * gammaProduct * e1)%num in
    let? e2 := LimExp (fermiReference p / (k p * temperature p))%num in
    let deepStateTerm := (q p * semiconductorPermittivity p * nu0T0 p * trapDensity p * (k p * temperature p / q p) * e2)%num in
    if negb (trapTerm >? #0)%num || negb (deepStateTerm >? #0)%num || negb (nfinite trapTerm) || negb (nfinite deepStateTerm)
    then throw "AOS compact model calibration produced an invalid state coefficient"
    else Ret (nsqrt trapTerm / oxideCapacitance p, nsqrt deepStateTerm / oxideCapacitance p)%num.

(** AOSFETCompactModel::UpdateDerivedParameters *)
Definition UpdateDerivedParameters (p : Parameters.t F) : Outcome (Model F) :=
  let vrhExponent := (#2 * ((tailTemperature p / temperature p) - #1))%num in
  let vnorm := (#2 * k p * tailTemperature p / q p)%num in
  let vth := (k p * temperature p / q p)%num in
  let? (trap, deep) := state_coefficients p in
  let? referenceMobility := Mobility p vrhExponent (std_max (flatBandVoltage p) (of_Z 0)) in
  let leakageSqrtTerm := nsqrt ((q p * semiconductorPermittivity p * trapDensity p)
                                / (#2 * leakageSurfacePotentialReference p))%num in
  let prefactor := ((width p / length p) * referenceMobility * leakageSqrtTerm * vth * vth)%num in
  let? _ := RequireFiniteResult vrhExponent "mobility exponent" in
  let? _ := RequireFiniteResult vnorm "voltage normalization" in
  let? _ := RequireFiniteResult vth "thermal voltage" in
  let? _ := RequireFiniteResult trap "trap coefficient" in
  let? _ := RequireFiniteResult deep "deep-state coefficient" in
  let? _ := RequireFiniteResult prefactor "leakage prefactor" in
  if (referenceMobility <=? #0)%num || (prefactor <=? #0)%num
  then throw "AOS compact model derived mobility/current scale must be positive"
  else Ret (mkModel p vrhExponent vnorm vth trap deep prefactor).

(** AOSFETCompactModel::Initialize *)
Definition Initialize (p : Parameters.t F) : Outcome (Model F) :=
  let? _ := ValidateParameters p in UpdateDerivedParameters p.

(** ** Surface potential *)

Section Device.
Context (m : Model F).
Let p := parameters m.

Definition GateNormalized (_vgs : F) : F := ((_vgs - flatBandVoltage p) / voltageNormalization m)%num.
Definition DrainNormalized (_vds : F) : F := (_vds / voltageNormalization m)%num.

Definition InitialSurfacePotentialGuess (_vgs _vds : F) : F :=
  (let normalizedGate := GateNormalized _vgs in
   let normalizedDrain := DrainNormalized _vds in
   if normalizedGate <=? #0 then normalizedGate
   else
     let normalizedTrapCoefficient := trapCoefficient m / voltageNormalization m in
     let logArgument := std_max (normalizedGate / normalizedTrapCoefficient) (lit 1 (-12)) in
     let sqrtTerm := (normalizedGate + #1) * (normalizedGate + #1) + #2 * normalizedDrain + #2 * nlog logArgument in
     if sqrtTerm <? #0 then normalizedGate else normalizedGate * (nsqrt sqrtTerm - normalizedGate - #1))%num.

(** The correction of one step of the iteration at [x]. *)
Definition halley (trap deep gate drain ratio x : F) : Outcome F :=
  let? expDeep := LimExp (x - drain)%num in
  let? expTail := LimExp ((x - drain) * ratio)%num in
  let f := ((gate - x) - trap * expDeep - deep * expTail)%num in
  let df := (#(-1) - trap * expDeep - deep * ratio * expTail)%num in
  let d2f := (opposite trap * expDeep - deep * ratio * ratio * expTail)%num in
  if negb (nfinite f) || negb (nfinite df) || negb (nfinite d2f) || (nabs df <? lit 1 (-14))%num
  then throw "AOS surface-potential solver became singular"
  else
    let correction := ((f / df) * (#1 + (d2f * f) / (#2 * df * df)))%num in
    if negb (nfinite correction) then throw "AOS surface-potential solver diverged" else Ret correction.

Fixpoint surface_loop (step : F -> Outcome F) (_tolerance : F) (iterations : nat) (x : F) : Outcome F :=
  match iterations with
  | O => throw "AOS surface-potential solver did not converge"
  | S n =>
      let? correction := step x in
      let x := (x - correction)%num in
      if negb (nfinite x) then throw "AOS surface-potential solver diverged"
      else if (nabs correction <? _tolerance)%num then
        let result := (x * voltageNormalization m)%num in
        let? _ := RequireFiniteResult result "surface potential" in
        Ret result
      else surface_loop step _tolerance n x
  end.

(** AOSFETCompactModel::SurfacePotential; every caller leaves the limits at 40
    iterations and a tolerance of 1e-8. *)
Definition SurfacePotential (_vgs _vch : F) (_maxIteration : Z) (_tolerance : F) : Outcome F :=
  let? _ := RequireFinite _vgs "Vgs" in
  let? _ := RequireFinite _vch "channel voltage" in
  let? _ := RequirePositive _tolerance "surface-potential tolerance" in
  if _maxIteration <=? 0 then throw "AOS surface-potential iteration limit must be positive"
  else if (_vgs <? flatBandVoltage p)%num then Ret (_vgs - flatBandVoltage p)%num
  else
    let step := halley (trapCoefficient m / voltageNormalization m)%num (deepStateCoefficient m / voltageNormalization m)%num
                  (GateNormalized _vgs) (DrainNormalized _vch) (tailTemperature p / temperature p)%num in
    surface_loop step _tolerance (Z.to_nat _maxIteration) (InitialSurfacePotentialGuess _vgs _vch).

Definition surface (_vgs _vch : F) : Outcome F := SurfacePotential _vgs _vch 40 (lit 1 (-8)).

(** ** Currents *)

(** AOSFETCompactModel::CalculateDriftCurrent *)
Definition CalculateDriftCurrent (_vgs _vds : F) : Outcome F :=
  let? _ := RequireDrain _vds in
  let? source := surface _vgs (lit 0 (-1)) in
  let? drain := surface _vgs _vds in
  let sourceChargeTerm := (_vgs - flatBandVoltage p - source)%num in
  let drainChargeTerm := (_vgs - flatBandVoltage p - drain)%num in
  let diffusionTerm := (#2 * thermalVoltage m * (drain - source))%num in
  let driftTerm := (lit 5 (-1) * (drainChargeTerm * drainChargeTerm - sourceChargeTerm * sourceChargeTerm))%num in
  let? mu := Mobility p (mobilityVrhExponent m) _vgs in
  let current := (mu * (width p / length p) * oxideCapacitance p * (diffusionTerm - driftTerm))%num in
  let? _ := RequireFiniteResult current "drift current" in
  Ret (std_max current (lit 0 (-1))).

(** AOSFETCompactModel::CalculateLeakageCurrent *)
Definition CalculateLeakageCurrent (_vgs _vds : F) : Outcome F :=
  let? _ := RequireFinite _vgs "Vgs" in
  let? _ := RequireDrain _vds in
  let exponent := (_vgs / (leakageSwingFactor p * thermalVoltage m))%num in
  let? saturation := LimExp (opposite _vds / thermalVoltage m)%num in
  let saturationTerm := (#1 - saturation)%num in
  let? e := LimExp exponent in
  let current := (leakageScale p * leakagePrefactor m * e * saturationTerm + currentFloor p)%num in
  let? _ := RequireFiniteResult current "leakage current" in
  if (current <? #0)%num then throw "AOS compact model produced negative leakage current" else Ret current.

(** AOSFETCompactModel::CalculateDrainCurrent *)
Definition CalculateDrainCurrent (_vgs _vds : F) : Outcome F :=
  if (_vgs <? flatBandVoltage p)%num then CalculateLeakageCurrent _vgs _vds else CalculateDriftCurrent _vgs _vds.

(** AOSFETCompactModel::TotalContactResistanceOhm *)
Definition TotalContactResistanceOhm : Outcome F :=
  if (totalContactResistanceKohmUm p =? #0)%num then Ret (of_Z 0)
  else
    let resistance := (totalContactResistanceKohmUm p * lit 1 3 / (width p * lit 1 6))%num in
    let? _ := RequireFiniteResult resistance "contact resistance" in
    Ret resistance.

(** The current the device carries behind its contacts, less the current assumed. *)
Definition residual (_vgs _vds rsd current : F) : Outcome F :=
  let rs := (rsd / lit 20 (-1))%num in
  let? i := CalculateDrainCurrent (_vgs - current * rs)%num (std_max (_vds - current * rsd)%num (lit 0 (-1))) in
  Ret (i - current)%num.

(** Doubling the upper end until the residual is not positive there. *)
Fixpoint expand (res : F -> Outcome F) (currentLimit : F) (n : nat) (high residualHigh : F) : Outcome (F * F) :=
  match n with
  | O => Ret (high, residualHigh)
  | S n =>
      if (residualHigh >? #0)%num && (high <? currentLimit)%num then
        let high := std_min (high * lit 20 (-1))%num currentLimit in
        let? r := res high in
        expand res currentLimit n high r
      else Ret (high, residualHigh)
  end.

(** Bisection; [None] when the ends are still too far apart. *)
Fixpoint bisect (res : F -> Outcome F) (n : nat) (low high : F) : Outcome (option (F * F)) :=
  match n with
  | O => Ret None
  | S n =>
      let mid := (lit 5 (-1) * (low + high))%num in
      let? r := res mid in
      if negb (nfinite r) then throw "AOS contact-resistance solver produced a non-finite residual"
      else
        let '(low, high) := if (r >? #0)%num then (mid, high) else (low, mid) in
        if (high - low <=? std_max (lit 1 (-30)) (lit 1 (-12) * high))%num then Ret (Some (low, high))
        else bisect res n low high
  end.

(** AOSFETCompactModel::CalculateDrainCurrentExternal *)
Definition CalculateDrainCurrentExternal (_vgs _vds : F) : Outcome F :=
  let? _ := RequireFinite _vgs "Vgs" in
  if negb (nfinite _vds) || (_vds <=? #0)%num
  then throw "AOS external-current drain voltage must be finite and positive"
  else
    let? rsd := TotalContactResistanceOhm in
    if (rsd =? #0)%num then CalculateDrainCurrent _vgs _vds
    else
      let currentLimit := (_vds / rsd)%num in
      let? i := CalculateDrainCurrent _vgs _vds in
      let high := std_min (std_max i (lit 1 (-30))) currentLimit in
      let res := residual _vgs _vds rsd in
      let? residualHigh := res high in
      let? (high, residualHigh) := expand res currentLimit 80 high residualHigh in
      if negb (nfinite residualHigh) || (residualHigh >? #0)%num
      then throw "AOS contact-resistance solver failed to bracket a solution"
      else
        let? ends := bisect res 80 (lit 0 (-1)) high in
        match ends with
        | None => throw "AOS contact-resistance solver did not converge"
        | Some (low, high) =>
            let current := (lit 5 (-1) * (low + high))%num in
            let? _ := RequireFiniteResult current "external drain current" in
            if (current <=? #0)%num then throw "AOS compact model produced nonpositive external drain current"
            else Ret current
        end.

(** ** Charges and capacitances *)

(** AOSFETCompactModel::CalculateCharges: gate and drain charge *)
Definition CalculateCharges (_vgs _vds : F) : Outcome (F * F) :=
  let? _ := RequireFinite _vgs "Vgs" in
  let? _ := RequireDrain _vds in
  if (_vgs <? flatBandVoltage p)%num then Ret (of_Z 0, of_Z 0)
  else
    let? source := surface _vgs (lit 0 (-1)) in
    let? drain := surface _vgs _vds in
    let s := (_vgs - flatBandVoltage p - source)%num in
    let d := (_vgs - flatBandVoltage p - drain)%num in
    let chargeSum := (s + d)%num in
    if (chargeSum <? lit 1 (-12))%num then Ret (of_Z 0, of_Z 0)
    else
      let gateNumerator := (#2 * (s * s + d * d + s * d))%num in
      let gate := (width p * length p * oxideCapacitance p * gateNumerator / (#3 * chargeSum))%num in
      let drainNumerator := (#2 * (#2 * npow s #3 + #4 * s * s * d + #6 * s * d * d + #3 * npow d #3))%num in
      let drain := (width p * length p * oxideCapacitance p * drainNumerator / (#15 * chargeSum * chargeSum))%num in
      let? _ := RequireFiniteResult gate "gate charge" in
      let? _ := RequireFiniteResult drain "drain charge" in
      Ret (gate, drain).

(** AOSFETCompactModel::CalculateCapacitances: gate-source and gate-drain *)
Definition CalculateCapacitances (_vgs _vds _delta : F) : Outcome (F * F) :=
  let? _ := RequirePositive _delta "finite-difference voltage step" in
  let? (base, _) := CalculateCharges _vgs _vds in
  let? (drainStep, _) := CalculateCharges _vgs (_vds + _delta)%num in
  let intrinsicGateDrain := (opposite (drainStep - base) / _delta)%num in
  let? (gateStep, _) := CalculateCharges (_vgs + _delta)%num _vds in
  let gateGate := ((gateStep - base) / _delta)%num in
  let c := overlapCapacitance p in
  let '(gateSource, gateDrain) :=
    if (_vgs <? flatBandVoltage p)%num then (c, c)
    else (gateGate - intrinsicGateDrain + c, intrinsicGateDrain + c)%num in
  let? _ := RequireFiniteResult gateSource "gate-source capacitance" in
  let? _ := RequireFiniteResult gateDrain "gate-drain capacitance" in
  if (gateSource <? #0)%num || (gateDrain <? #0)%num then throw "AOS compact model produced negative capacitance"
  else Ret (gateSource, gateDrain).

(** AOSFETCompactModel::EvaluateOperatingPoint *)
Definition EvaluateOperatingPoint (_vgsOn _vgsOff _vds : F) : Outcome (Point.t F) :=
  let? _ := RequireFinite _vgsOn "on-gate voltage" in
  let? _ := RequireFinite _vgsOff "off-gate voltage" in
  if (_vgsOn <=? _vgsOff)%num then throw "AOS on-gate voltage must exceed off-gate voltage"
  else if negb (nfinite _vds) || (_vds <=? #0)%num then throw "AOS operating-point Vds must be finite and positive"
  else
    let? ion := CalculateDrainCurrentExternal _vgsOn _vds in
    let? ioff := CalculateDrainCurrentExternal _vgsOff _vds in
    let? (gs, gd) := CalculateCapacitances _vgsOn _vds (lit 1 (-3)) in
    let point := Point.mk ion ioff (_vds / ion)%num (_vds / ioff)%num (gs + gd)%num gd in
    let? _ := RequireFiniteResult (Point.Ion point) "Ion" in
    let? _ := RequireFiniteResult (Point.Ioff point) "Ioff" in
    let? _ := RequireFiniteResult (Point.Ron point) "Ron" in
    let? _ := RequireFiniteResult (Point.Roff point) "Roff" in
    let? _ := RequireFiniteResult (Point.Cgate point) "gate capacitance" in
    let? _ := RequireFiniteResult (Point.Cdrain point) "drain capacitance" in
    if (Point.Ion point <=? Point.Ioff point)%num || (Point.Ioff point <=? #0)%num || (Point.Ron point <=? #0)%num
       || (Point.Roff point <=? #0)%num || (Point.Cgate point <? #0)%num || (Point.Cdrain point <? #0)%num
    then throw "AOS operating point is physically invalid (requires Ion > Ioff > 0, positive resistance, and nonnegative capacitance)"
    else Ret point.

End Device.
End Operations.
End AOS.
