(* ===== verification/Cell.v ===== *)
(** * Memory cells

    MemCell.h/.cpp, the operations on a cell: defaults, scaling to another process
    node, retention, read power and write energy.  The reader of cell files is in
    CellReader.  [raw] stands for the members the constructor leaves unset. *)
From S2P Require Import Prelude Numeric Types InputParameter Aos Circuit.
From stdpp Require Import base list strings.
From Stdlib Require Import ZArith Lia.
Open Scope Z_scope.

(** OxideTransistorParameterSet *)
Module Oxide.
Record t (F : Type) : Type := mk {
  initialized : bool;
  temperatureSpecified : bool;
  widthSpecified : bool;
  lengthSpecified : bool;
  overlapCapacitanceSpecified : bool;
  mobilitySpecified : bool;
  mobilityScaleSpecified : bool;
  leakageScaleSpecified : bool;
  flatBandVoltageSpecified : bool;
  contactResistanceSpecified : bool;
  wordlineBoostVoltageSpecified : bool;
  wordlineHoldVoltageSpecified : bool;
  wordlineBoostVoltage : F;
  wordlineHoldVoltage : F;
  parameters : AOS.Parameters.t F;
  operatingPoint : AOS.Point.t F
}.
Arguments mk {_} _ _ _ _ _ _ _ _ _ _ _ _ _ _ _ _.
Arguments initialized {_} _.
Arguments temperatureSpecified {_} _.
Arguments widthSpecified {_} _.
Arguments lengthSpecified {_} _.
Arguments overlapCapacitanceSpecified {_} _.
Arguments mobilitySpecified {_} _.
Arguments mobilityScaleSpecified {_} _.
Arguments leakageScaleSpecified {_} _.
Arguments flatBandVoltageSpecified {_} _.
Arguments contactResistanceSpecified {_} _.
Arguments wordlineBoostVoltageSpecified {_} _.
Arguments wordlineHoldVoltageSpecified {_} _.
Arguments wordlineBoostVoltage {_} _.
Arguments wordlineHoldVoltage {_} _.
Arguments parameters {_} _.
Arguments operatingPoint {_} _.
#[global] Instance eta {F : Type} : RecordEta (t F) := fun x =>
  mk (initialized x) (temperatureSpecified x) (widthSpecified x) (lengthSpecified x)
    (overlapCapacitanceSpecified x) (mobilitySpecified x) (mobilityScaleSpecified x) (leakageScaleSpecified x)
    (flatBandVoltageSpecified x) (contactResistanceSpecified x) (wordlineBoostVoltageSpecified x)
    (wordlineHoldVoltageSpecified x) (wordlineBoostVoltage x) (wordlineHoldVoltage x) (parameters x)
    (operatingPoint x).
End Oxide.

Module Cell.

(** MemCell.h *)
Record t (F : Type) : Type := mk {
  memCellType : MemCellType;
  processNode : Z;
  area : F;
  aspectRatio : F;
  widthInFeatureSize : F;
  heightInFeatureSize : F;
  resistanceOn : F;
  resistanceOff : F;
  capacitanceOn : F;
  capacitanceOff : F;
  readMode : bool;
  readVoltage : F;
  readCurrent : F;
  minSenseVoltage : F;
  wordlineBoostRatio : F;
  readPower : F;
  resetMode : bool;
  resetVoltage : F;
  resetCurrent : F;
  resetPulse : F;
  resetEnergy : F;
  setMode : bool;
  setVoltage : F;
  setCurrent : F;
  setPulse : F;
  setEnergy : F;
  accessType : CellAccessType;
  stitching : Z;
  gateOxThicknessFactor : F;
  widthSOIDevice : F;
  widthAccessCMOS : F;
  voltageDropAccessDevice : F;
  leakageCurrentAccessDevice : F;
  capDRAMCell : F;
  widthSRAMCellNMOS : F;
  widthSRAMCellPMOS : F;
  oxideTransistor : bool;
  oxideAccessTransistor : Oxide.t F;
  oxideReadTransistor : Oxide.t F;
  oxideWriteTransistor : Oxide.t F;
  readFloating : bool;
  resistanceOnAtSetVoltage : F;
  resistanceOffAtSetVoltage : F;
  resistanceOnAtResetVoltage : F;
  resistanceOffAtResetVoltage : F;
  resistanceOnAtReadVoltage : F;
  resistanceOffAtReadVoltage : F;
  resistanceOnAtHalfReadVoltage : F;
  resistanceOffAtHalfReadVoltage : F;
  resistanceOnAtHalfResetVoltage : F;
  flashEraseVoltage : F;
  flashPassVoltage : F;
  flashProgramVoltage : F;
  flashEraseTime : F;
  flashProgramTime : F;
  gateCouplingRatio : F;
  retentionTime : F;
  temperature : F;
  retentionAOSOffCurrentRatio : bool;
  retentionReferenceHoldVoltageSpecified : bool;
  retentionReferenceHoldVoltage : F
}.
Arguments mk {_} _ _ _ _ _ _ _ _ _ _ _ _ _ _ _ _ _ _ _ _ _ _ _ _ _ _ _ _ _ _ _ _ _ _ _ _ _ _ _ _ _ _ _ _ _ _ _ _
    _ _ _ _ _ _ _ _ _ _ _ _ _.
Arguments memCellType {_} _.
Arguments processNode {_} _.
Arguments area {_} _.
Arguments aspectRatio {_} _.
Arguments widthInFeatureSize {_} _.
Arguments heightInFeatureSize {_} _.
Arguments resistanceOn {_} _.
Arguments resistanceOff {_} _.
Arguments capacitanceOn {_} _.
Arguments capacitanceOff {_} _.
Arguments readMode {_} _.
Arguments readVoltage {_} _.
Arguments readCurrent {_} _.
Arguments minSenseVoltage {_} _.
Arguments wordlineBoostRatio {_} _.
Arguments readPower {_} _.
Arguments resetMode {_} _.
Arguments resetVoltage {_} _.
Arguments resetCurrent {_} _.
Arguments resetPulse {_} _.
Arguments resetEnergy {_} _.
Arguments setMode {_} _.
Arguments setVoltage {_} _.
Arguments setCurrent {_} _.
Arguments setPulse {_} _.
Arguments setEnergy {_} _.
Arguments accessType {_} _.
Arguments stitching {_} _.
Arguments gateOxThicknessFactor {_} _.
Arguments widthSOIDevice {_} _.
Arguments widthAccessCMOS {_} _.
Arguments voltageDropAccessDevice {_} _.
Arguments leakageCurrentAccessDevice {_} _.
Arguments capDRAMCell {_} _.
Arguments widthSRAMCellNMOS {_} _.
Arguments widthSRAMCellPMOS {_} _.
Arguments oxideTransistor {_} _.
Arguments oxideAccessTransistor {_} _.
Arguments oxideReadTransistor {_} _.
Arguments oxideWriteTransistor {_} _.
Arguments readFloating {_} _.
Arguments resistanceOnAtSetVoltage {_} _.
Arguments resistanceOffAtSetVoltage {_} _.
Arguments resistanceOnAtResetVoltage {_} _.
Arguments resistanceOffAtResetVoltage {_} _.
Arguments resistanceOnAtReadVoltage {_} _.
Arguments resistanceOffAtReadVoltage {_} _.
Arguments resistanceOnAtHalfReadVoltage {_} _.
Arguments resistanceOffAtHalfReadVoltage {_} _.
Arguments resistanceOnAtHalfResetVoltage {_} _.
Arguments flashEraseVoltage {_} _.
Arguments flashPassVoltage {_} _.
Arguments flashProgramVoltage {_} _.
Arguments flashEraseTime {_} _.
Arguments flashProgramTime {_} _.
Arguments gateCouplingRatio {_} _.
Arguments retentionTime {_} _.
Arguments temperature {_} _.
Arguments retentionAOSOffCurrentRatio {_} _.
Arguments retentionReferenceHoldVoltageSpecified {_} _.
Arguments retentionReferenceHoldVoltage {_} _.
#[global] Instance eta {F : Type} : RecordEta (t F) := fun x =>
  mk (memCellType x) (processNode x) (area x) (aspectRatio x) (widthInFeatureSize x) (heightInFeatureSize x)
    (resistanceOn x) (resistanceOff x) (capacitanceOn x) (capacitanceOff x) (readMode x) (readVoltage x)
    (readCurrent x) (minSenseVoltage x) (wordlineBoostRatio x) (readPower x) (resetMode x) (resetVoltage x)
    (resetCurrent x) (resetPulse x) (resetEnergy x) (setMode x) (setVoltage x) (setCurrent x) (setPulse x)
    (setEnergy x) (accessType x) (stitching x) (gateOxThicknessFactor x) (widthSOIDevice x) (widthAccessCMOS x)
    (voltageDropAccessDevice x) (leakageCurrentAccessDevice x) (capDRAMCell x) (widthSRAMCellNMOS x)
    (widthSRAMCellPMOS x) (oxideTransistor x) (oxideAccessTransistor x) (oxideReadTransistor x)
    (oxideWriteTransistor x) (readFloating x) (resistanceOnAtSetVoltage x) (resistanceOffAtSetVoltage x)
    (resistanceOnAtResetVoltage x) (resistanceOffAtResetVoltage x) (resistanceOnAtReadVoltage x)
    (resistanceOffAtReadVoltage x) (resistanceOnAtHalfReadVoltage x) (resistanceOffAtHalfReadVoltage x)
    (resistanceOnAtHalfResetVoltage x) (flashEraseVoltage x) (flashPassVoltage x) (flashProgramVoltage x)
    (flashEraseTime x) (flashProgramTime x) (gateCouplingRatio x) (retentionTime x) (temperature x)
    (retentionAOSOffCurrentRatio x) (retentionReferenceHoldVoltageSpecified x) (retentionReferenceHoldVoltage x).

Section Operations.
Context {F : Type} `{Num F}.

(** InitializeAOSParameterSet *)
Definition InitializeAOSParameterSet : Oxide.t F :=
  Oxide.mk false false false false false false false false false false false false (of_Z 0) (of_Z 0)
    AOS.DefaultParameters AOS.no_point.

(** MemCell::MemCell *)
Definition MemCell (raw : F) : t F :=
  let z : F := of_Z 0 in
  {|
    memCellType := PCRAM;
    processNode := 0;
    area := z;
    aspectRatio := z;
    widthInFeatureSize := raw;
    heightInFeatureSize := raw;
    resistanceOn := z;
    resistanceOff := z;
    capacitanceOn := raw;
    capacitanceOff := raw;
    readMode := true;
    readVoltage := z;
    readCurrent := z;
    minSenseVoltage := lit 8 (-2);
    wordlineBoostRatio := lit 10 (-1);
    readPower := z;
    resetMode := true;
    resetVoltage := z;
    resetCurrent := z;
    resetPulse := z;
    resetEnergy := z;
    setMode := true;
    setVoltage := z;
    setCurrent := z;
    setPulse := z;
    setEnergy := z;
    accessType := CMOS_access;
    stitching := 0;
    gateOxThicknessFactor := of_Z 2;
    widthSOIDevice := z;
    widthAccessCMOS := z;
    voltageDropAccessDevice := z;
    leakageCurrentAccessDevice := z;
    capDRAMCell := z;
    widthSRAMCellNMOS := lit 208 (-2);
    widthSRAMCellPMOS := lit 123 (-2);
    oxideTransistor := false;
    oxideAccessTransistor := InitializeAOSParameterSet;
    oxideReadTransistor := InitializeAOSParameterSet;
    oxideWriteTransistor := InitializeAOSParameterSet;
    readFloating := false;
    resistanceOnAtSetVoltage := z;
    resistanceOffAtSetVoltage := z;
    resistanceOnAtResetVoltage := z;
    resistanceOffAtResetVoltage := z;
    resistanceOnAtReadVoltage := z;
    resistanceOffAtReadVoltage := z;
    resistanceOnAtHalfReadVoltage := z;
    resistanceOffAtHalfReadVoltage := z;
    resistanceOnAtHalfResetVoltage := raw;
    flashEraseVoltage := raw;
    flashPassVoltage := raw;
    flashProgramVoltage := raw;
    flashEraseTime := raw;
    flashProgramTime := raw;
    gateCouplingRatio := raw;
    retentionTime := invalid_value;
    temperature := of_Z 300;
    retentionAOSOffCurrentRatio := false;
    retentionReferenceHoldVoltageSpecified := false;
    retentionReferenceHoldVoltage := z
  |}.

(** The members that banks, subarrays and peripherals read. *)
Definition view (c : t F) : MemCell.t F :=
  MemCell.mk (memCellType c) (readMode c) (readVoltage c) (resetVoltage c) (setVoltage c) (minSenseVoltage c)
    (resistanceOn c) (resistanceOff c) (retentionTime c) (widthAccessCMOS c) (widthInFeatureSize c).

Section Globals.
Context (vdd : F) (ip : InputParameter.t F).

(** The ratio of the off currents at the reference and at the applied bias. *)
Definition off_current_ratio (c : t F) : Outcome F :=
  let caught {A} (m : Outcome A) : Outcome A :=
    match m with Ret a => Ret a | Exit e => Exit ("AOS retention evaluation failed: " +:+ e) end in
  caught (
    let? model := AOS.Initialize (Oxide.parameters (oxideAccessTransistor c)) in
    let? referenceCurrent := AOS.CalculateDrainCurrentExternal model (retentionReferenceHoldVoltage c) vdd in
    let appliedCurrent := AOS.Point.Ioff (Oxide.operatingPoint (oxideAccessTransistor c)) in
    if negb (nfinite referenceCurrent) || negb (nfinite appliedCurrent)
       || (referenceCurrent <=? #0)%num || (appliedCurrent <=? #0)%num
    then Exit "invalid off current"
    else Ret (referenceCurrent / appliedCurrent)%num).

(** MemCell::ApplyPVT *)
Definition ApplyPVT (c : t F) : Outcome (t F) :=
  if (retentionTime c =? invalid_value)%num then Ret c
  else if bool_decide (memCellType c = eDRAM) || bool_decide (memCellType c = gcDRAM) then
    let? c :=
      if retentionAOSOffCurrentRatio c then
        let? ratio := off_current_ratio c in
        Ret (c <| retentionTime := (retentionTime c * ratio)%num |>)
      else Ret c in
    let exponent := (lit (-268) (-4) * (#(InputParameter.temperature ip) - temperature c))%num in
    let c := c <| retentionTime := (retentionTime c * nexp exponent)%num |> in
    if negb (nfinite (retentionTime c)) || (retentionTime c <=? #0)%num
    then Exit "Retention calculation produced an invalid value."
    else Ret c
  else Ret c.

(** The figures of a cell scaled by [s]: phase-change and magnetic cells. *)
Definition scale_diode (s : F) (c : t F) : t F :=
  if bool_decide (accessType c = diode_access)
  then c <| capacitanceOn := (capacitanceOn c / s)%num |> <| capacitanceOff := (capacitanceOff c / s)%num |>
  else c.

Definition scale_PCRAM (s : F) (c : t F) : t F :=
  let c := c <| resistanceOn := (resistanceOn c * s)%num |> <| resistanceOff := (resistanceOff c * s)%num |> in
  let c := if negb (setMode c) then c <| setCurrent := (setCurrent c / s)%num |>
           else c <| setVoltage := (setVoltage c * #1)%num |> in
  let c := if negb (resetMode c) then c <| resetCurrent := (resetCurrent c / s)%num |>
           else c <| resetVoltage := (resetVoltage c * #1)%num |> in
  scale_diode s c.

Definition scale_MRAM (s : F) (c : t F) : t F :=
  let c := c <| resistanceOn := (resistanceOn c * (s * s))%num |>
             <| resistanceOff := (resistanceOff c * (s * s))%num |> in
  let c := if negb (setMode c) then c <| setCurrent := (setCurrent c / s)%num |>
           else c <| setVoltage := (setVoltage c * s)%num |> in
  let c := if negb (resetMode c) then c <| resetCurrent := (resetCurrent c / s)%num |>
           else c <| resetVoltage := (resetVoltage c * s)%num |> in
  scale_diode s c.

Definition scale (s : F) (c : t F) : t F :=
  if bool_decide (memCellType c = PCRAM) then scale_PCRAM s c
  else if bool_decide (memCellType c = MRAM) then scale_MRAM s c
  else c.

(** MemCell::CellScaling *)
Definition CellScaling (_targetProcessNode : Z) (c : t F) : t F :=
  if (0 <? processNode c) && negb (processNode c =? _targetProcessNode)
  then (scale (#(processNode c) / #_targetProcessNode)%num c) <| processNode := _targetProcessNode |>
  else c.

(** MemCell::GetMemristance *)
Definition GetMemristance (_relativeReadVoltage : F) (c : t F) : F :=
  (if bool_decide (memCellType c = memristor) then
     let x1 := if readVoltage c =? #0 then readCurrent c * resistanceOnAtReadVoltage c else readVoltage c in
     let x2 := readVoltage c / #2 in
     let x3 := _relativeReadVoltage * readVoltage c in
     let y1 := nlog2 (x1 / resistanceOnAtReadVoltage c) in
     let y2 := nlog2 (x2 / resistanceOnAtHalfReadVoltage c) in
     let y3 := (y2 - y1) / (x2 - x1) * x3 + (x2 * y1 - x1 * y2) / (x2 - x1) in
     x3 / npow #2 y3
   else #(-1))%num.

(** The energy of a pulse in voltage mode. *)
Definition pulse_energy (voltage current pulse resistance : F) (c : t F) : F :=
  (if bool_decide (memCellType c = FBRAM) then nabs voltage * nabs current * pulse
   else nabs voltage * (nabs voltage - voltageDropAccessDevice c) / resistance * pulse)%num.

Definition switch_resistance (atVoltage : F) (c : t F) : F :=
  if bool_decide (memCellType c = memristor) && bool_decide (accessType c = none_access) then atVoltage
  else resistanceOn c.

(** MemCell::CalculateWriteEnergy: energies that are given are kept; both branches
    in current mode look at the reset voltage. *)
Definition CalculateWriteEnergy (c : t F) : t F :=
  let current_mode (voltage current pulse : F) : F :=
    (if resetVoltage c =? #0 then vdd * nabs current * pulse else nabs voltage * nabs current * pulse)%num in
  let c :=
    if (resetEnergy c =? #0)%num then
      c <| resetEnergy :=
        if resetMode c
        then pulse_energy (resetVoltage c) (resetCurrent c) (resetPulse c) (switch_resistance (resistanceOnAtResetVoltage c) c) c
        else current_mode (resetVoltage c) (resetCurrent c) (resetPulse c) |>
    else c in
  if (setEnergy c =? #0)%num then
    c <| setEnergy :=
      if setMode c
      then pulse_energy (setVoltage c) (setCurrent c) (setPulse c) (switch_resistance (resistanceOnAtSetVoltage c) c) c
      else current_mode (setVoltage c) (setCurrent c) (setPulse c) |>
  else c.

(** MemCell::CalculateReadPower, of the global cell, as its only caller does *)
Definition CalculateReadPower (c : t F) : F :=
  (if readPower c =? #0 then
     if readMode c then
       if readVoltage c =? #0 then vdd * readCurrent c
       else if readCurrent c =? #0 then
         let resInSerialForSenseAmp := nsqrt (resistanceOn c * resistanceOff c) in
         vdd * ((readVoltage c - voltageDropAccessDevice c) / (resistanceOn c + resInSerialForSenseAmp))
       else lit (-10) (-1)
     else vdd * ((readVoltage c - voltageDropAccessDevice c) / resistanceOn c)
   else lit (-10) (-1))%num.

End Globals.
End Operations.
End Cell.
