(* ===== verification/CellReader.v ===== *)
(** * The reader of cell files

    MemCell.cpp, [ReadCellFromFile] with the strict parsers of the oxide
    transistor settings.  A line is first tried as an oxide or retention setting
    ([key: value], matched exactly), then compared with the names of the other
    options in order.  The buffers [line] and [tmp] are not initialised: the
    contents they start with are arguments. *)
From S2P Require Import Prelude Numeric Types InputParameter Scanf ConfigParser Aos Circuit Cell.
From stdpp Require Import base list.
From Stdlib Require Import ZArith Lia Ascii String.
Open Scope string_scope.
Open Scope Z_scope.

Module CellReader.
Import Scanf ConfigParser.

(** ** Strings *)

Definition IsAOSCell (type : MemCellType) : bool := bool_decide (type = eDRAM) || bool_decide (type = gcDRAM).

Definition Trim (value : string) : string := trim_end (skip_space value).

Definition Lower (value : string) : string := to_lower value.

(** [line.find(':')]: what is before and after the first colon. *)
Fixpoint split_colon (line : string) : option (string * string) :=
  match line with
  | EmptyString => None
  | String c rest =>
      if Ascii.eqb c ":" then Some (EmptyString, rest)
      else match split_colon rest with
           | Some (k, v) => Some (String c k, v)
           | None => None
           end
  end.

Definition SplitSetting (line : string) : option (string * string) :=
  match split_colon line with
  | Some (k, v) => Some (Trim k, Trim v)
  | None => None
  end.

Section Reader.
Context {F : Type} `{Num F}.
Context (vdd : F) (ip : InputParameter.t F).

(** FailCellFile *)
Definition FailCellFile {A : Type} (message : string) : Outcome A := Exit ("Invalid cell file: " ++ message).

Definition ParseFiniteCellDouble (key value : string) : Outcome F :=
  match value with
  | EmptyString => FailCellFile (key ++ " requires a value")
  | _ =>
      let fail := FailCellFile (key ++ " requires one finite numeric value with no trailing text") in
      match strtod value with
      | Some r =>
          if negb (String.eqb (skip_space (number_rest r)) "") || number_range r || negb (nfinite (number_value r))
          then fail else Ret (number_value r)
      | None => fail
      end
  end.

Definition ParseFiniteCellVoltage (key value : string) : Outcome F :=
  if String.eqb (Lower value) "vdd" then
    if negb (nfinite vdd) then FailCellFile (key ++ " cannot resolve vdd before technology initialization") else Ret vdd
  else ParseFiniteCellDouble key value.

Definition ParseStrictCellBool (key value : string) : Outcome bool :=
  let normalized := Lower value in
  if String.eqb normalized "true" || String.eqb normalized "yes" || String.eqb normalized "1" then Ret true
  else if String.eqb normalized "false" || String.eqb normalized "no" || String.eqb normalized "0" then Ret false
  else FailCellFile (key ++ " expects yes/no, true/false, or 1/0").

(** ** Oxide transistors *)

Import Oxide.

(** The fields of a transistor: whether the value is a voltage that may be [vdd],
    and the assignment. *)
Definition aos_field (field : string) : option (bool * (F -> Oxide.t F -> Oxide.t F)) :=
  let named (name : string) := String.eqb field name in
  let plain (f : F -> AOS.Parameters.t F -> AOS.Parameters.t F) :=
    Some (false, fun x o => o <| parameters := f x (parameters o) |>) in
  let noted (f : F -> AOS.Parameters.t F -> AOS.Parameters.t F) (note : Oxide.t F -> Oxide.t F) :=
    Some (false, fun x o => note (o <| parameters := f x (parameters o) |>)) in
  if named "Temperature (K)" then noted (fun x p => p <| AOS.Parameters.temperature := x |>) (fun o => o <| temperatureSpecified := true |>)
  else if named "TailTemperature (K)" then plain (fun x p => p <| AOS.Parameters.tailTemperature := x |>)
  else if named "Width (m)" then noted (fun x p => p <| AOS.Parameters.width := x |>) (fun o => o <| widthSpecified := true |>)
  else if named "Length (m)" then noted (fun x p => p <| AOS.Parameters.length := x |>) (fun o => o <| lengthSpecified := true |>)
  else if named "OverlapCapacitance (F)" then
    noted (fun x p => p <| AOS.Parameters.overlapCapacitance := x |>) (fun o => o <| overlapCapacitanceSpecified := true |>)
  else if named "FlatBandVoltage (V)" then
    noted (fun x p => p <| AOS.Parameters.flatBandVoltage := x |>) (fun o => o <| flatBandVoltageSpecified := true |>)
  else if named "Mobility (cm^2/Vs)" || named "Mu (cm^2/Vs)" then
    noted (fun x p => p <| AOS.Parameters.mobility := (x * lit 1 (-4))%num |> <| AOS.Parameters.useConstantMobility := true |>)
      (fun o => o <| mobilitySpecified := true |>)
  else if named "MobilityScale" then
    noted (fun x p => p <| AOS.Parameters.mobilityScale := x |>) (fun o => o <| mobilityScaleSpecified := true |>)
  else if named "LeakageScale" then
    noted (fun x p => p <| AOS.Parameters.leakageScale := x |>) (fun o => o <| leakageScaleSpecified := true |>)
  else if named "TotalContactResistance (kOhm-um)" || named "TotalContactResistanceKohmUm" then
    noted (fun x p => p <| AOS.Parameters.totalContactResistanceKohmUm := x |>) (fun o => o <| contactResistanceSpecified := true |>)
  else if named "BoostVoltage (V)" || named "OnGateVoltage (V)" then
    Some (true, fun x o => o <| wordlineBoostVoltage := x |> <| wordlineBoostVoltageSpecified := true |>)
  else if named "HoldVoltage (V)" || named "OffGateVoltage (V)" then
    Some (true, fun x o => o <| wordlineHoldVoltage := x |> <| wordlineHoldVoltageSpecified := true |>)
  else if named "ElementaryCharge (C)" then plain (fun x p => p <| AOS.Parameters.q := x |>)
  else if named "BoltzmannConstant (J/K)" then plain (fun x p => p <| AOS.Parameters.k := x |>)
  else if named "VacuumPermittivity (F/m)" then plain (fun x p => p <| AOS.Parameters.eps0 := x |>)
  else if named "SemiconductorPermittivity (F/m)" then plain (fun x p => p <| AOS.Parameters.semiconductorPermittivity := x |>)
  else if named "Nu0T0" then plain (fun x p => p <| AOS.Parameters.nu0T0 := x |>)
  else if named "TrapDensity" then plain (fun x p => p <| AOS.Parameters.trapDensity := x |>)
  else if named "FermiReference" then plain (fun x p => p <| AOS.Parameters.fermiReference := x |>)
  else if named "OxideCapacitance (F/m^2)" then plain (fun x p => p <| AOS.Parameters.oxideCapacitance := x |>)
  else if named "VRHThreshold (V)" then plain (fun x p => p <| AOS.Parameters.vrhThreshold := x |>)
  else if named "PercolationThreshold (V)" then plain (fun x p => p <| AOS.Parameters.percolationThreshold := x |>)
  else if named "VRHPrefactor (cm^2/Vs)" then plain (fun x p => p <| AOS.Parameters.vrhPrefactor := x |>)
  else if named "PercolationPrefactor (cm^2/Vs)" then plain (fun x p => p <| AOS.Parameters.percolationPrefactor := x |>)
  else if named "PercolationExponent" then plain (fun x p => p <| AOS.Parameters.percolationExponent := x |>)
  else if named "LeakageSwingFactor" then plain (fun x p => p <| AOS.Parameters.leakageSwingFactor := x |>)
  else if named "LeakageSurfacePotentialReference (V)" then
    plain (fun x p => p <| AOS.Parameters.leakageSurfacePotentialReference := x |>)
  else if named "CurrentFloor (A)" then plain (fun x p => p <| AOS.Parameters.currentFloor := x |>)
  else None.

(** ParseAOSParameter, when the key has the prefix of the transistor *)
Definition ParseAOSParameter (rawKey value prefix field : string) (o : Oxide.t F) : Outcome (Oxide.t F) :=
  match field with
  | EmptyString => FailCellFile ("missing AOS field name after " ++ prefix)
  | _ =>
      match aos_field field with
      | Some (voltage, assign) =>
          let? x := if voltage : bool then ParseFiniteCellVoltage rawKey value else ParseFiniteCellDouble rawKey value in
          Ret ((assign x o) <| initialized := true |>)
      | None => FailCellFile ("unknown or unused AOS field '" ++ rawKey ++ "'")
      end
  end.

(** The required fields, in the order of the message. *)
Definition missing_fields (o : Oxide.t F) : list string :=
  let need (b : bool) (name : string) := if b then [] else [name] in
  (need (temperatureSpecified o) "temperature" ++ need (widthSpecified o) "width" ++ need (lengthSpecified o) "length"
   ++ need (overlapCapacitanceSpecified o) "overlap capacitance" ++ need (flatBandVoltageSpecified o) "flat-band voltage"
   ++ need (leakageScaleSpecified o) "leakage scale" ++ need (contactResistanceSpecified o) "contact resistance"
   ++ need (wordlineBoostVoltageSpecified o) "on/boost gate voltage"
   ++ need (wordlineHoldVoltageSpecified o) "off/hold gate voltage"
   ++ need (mobilitySpecified o || mobilityScaleSpecified o) "Mobility/Mu or MobilityScale")%list.

(** ValidateAOSParameterSet *)
Definition ValidateAOSParameterSet (name : string) (o : Oxide.t F) : Outcome (Oxide.t F) :=
  match missing_fields o with
  | _ :: _ => FailCellFile (name ++ " AOS transistor is incomplete; missing " ++ String.concat ", " (missing_fields o))
  | [] =>
      if (wordlineBoostVoltage o <=? wordlineHoldVoltage o)%num
      then FailCellFile (name ++ " AOS on/boost voltage must exceed off/hold voltage")
      else if negb (nfinite vdd) || (vdd <=? #0)%num
      then FailCellFile (name ++ " AOS validation requires top-level configuration")
      else if (nabs (AOS.Parameters.temperature (parameters o) - #(InputParameter.temperature ip)) >? lit 1 (-9))%num
      then FailCellFile (name ++ " AOS temperature must match the top-level operating temperature")
      else
        let evaluated :=
          let? model := AOS.Initialize (parameters o) in
          AOS.EvaluateOperatingPoint model (wordlineBoostVoltage o) (wordlineHoldVoltage o) vdd in
        match evaluated with
        | Ret point => Ret (o <| operatingPoint := point |>)
        | Exit e => FailCellFile (name ++ " AOS transistor is invalid: " ++ e)
        end
  end.

(** ** Settings and options *)

Record Reader : Type := mkReader {
  cell : Cell.t F;
  tmp : string;
  oxideControlSpecified : bool;
  oxideFieldSpecified : bool;
  retentionModelSpecified : bool
}.

Definition set_cell (f : Cell.t F -> Cell.t F) (st : Reader) : Reader :=
  mkReader (f (cell st)) (tmp st) (oxideControlSpecified st) (oxideFieldSpecified st) (retentionModelSpecified st).

(** An oxide or retention setting; [None] when the line is none. *)
Definition setting (key value : string) (st : Reader) : option (Outcome Reader) :=
  let field (c : Cell.t F) :=
    mkReader c (tmp st) (oxideControlSpecified st) true (retentionModelSpecified st) in
  let c := cell st in
  if String.eqb key "-OxideTransistor" then Some (
    if oxideControlSpecified st then FailCellFile "-OxideTransistor may be specified only once"
    else
      let? b := ParseStrictCellBool key value in
      Ret (mkReader (c <| Cell.oxideTransistor := b |>) (tmp st) true (oxideFieldSpecified st) (retentionModelSpecified st)))
  else match after "-OxideAccessTransistor" key with
  | Some f => Some (
      let? o := ParseAOSParameter key value "-OxideAccessTransistor" f (Cell.oxideAccessTransistor c) in
      Ret (field (c <| Cell.oxideAccessTransistor := o |>)))
  | None =>
  match after "-OxideReadTransistor" key with
  | Some f => Some (
      let? o := ParseAOSParameter key value "-OxideReadTransistor" f (Cell.oxideReadTransistor c) in
      Ret (field (c <| Cell.oxideReadTransistor := o |>)))
  | None =>
  match after "-OxideWriteTransistor" key with
  | Some f => Some (
      let? o := ParseAOSParameter key value "-OxideWriteTransistor" f (Cell.oxideWriteTransistor c) in
      Ret (field (c <| Cell.oxideWriteTransistor := o |>)))
  | None =>
    if starts_with "-Oxide" key then Some (FailCellFile ("unknown AOS setting '" ++ key ++ "'"))
    else if String.eqb key "-RetentionModel" then Some (
      if retentionModelSpecified st then FailCellFile "-RetentionModel may be specified only once"
      else if negb (String.eqb value "AOSOffCurrentRatio")
      then FailCellFile ("unsupported -RetentionModel '" ++ value ++ "'")
      else Ret (mkReader (c <| Cell.retentionAOSOffCurrentRatio := true |>) (tmp st) (oxideControlSpecified st)
                  (oxideFieldSpecified st) true))
    else if String.eqb key "-RetentionReferenceHoldVoltage (V)" then Some (
      if Cell.retentionReferenceHoldVoltageSpecified c
      then FailCellFile "-RetentionReferenceHoldVoltage may be specified only once"
      else
        let? x := ParseFiniteCellVoltage key value in
        Ret (set_cell (fun c => c <| Cell.retentionReferenceHoldVoltage := x |>
                                  <| Cell.retentionReferenceHoldVoltageSpecified := true |>) st))
    else if starts_with "-RetentionModel" key || starts_with "-RetentionReferenceHoldVoltage" key
    then Some (FailCellFile ("unknown retention setting '" ++ key ++ "'"))
    else None
  end end end.

Definition Option : Type := string * (string -> Reader -> Reader).

(** [sscanf(line, format, &member)], then the assignments that follow. *)
Definition scan_F (format : string) (f : F -> Cell.t F -> Cell.t F) (next : Cell.t F -> Cell.t F)
  (line : string) (st : Reader) : Reader :=
  set_cell next (store [at_double (fun x => set_cell (f x))] (sscanf format line) st).
Definition scan_Z (format : string) (f : Z -> Cell.t F -> Cell.t F) (line : string) (st : Reader) : Reader :=
  store [at_int (fun z => set_cell (f z))] (sscanf format line) st.

(** [sscanf(line, format, tmp)], then a choice on [tmp]. *)
Definition scan_tmp (format line : string) (st : Reader) : Reader :=
  store [at_string (fun w st => mkReader (cell st) w (oxideControlSpecified st) (oxideFieldSpecified st)
                                  (retentionModelSpecified st))] (sscanf format line) st.
Definition scan_word (format : string) (choose : string -> Cell.t F -> Cell.t F) (line : string) (st : Reader) : Reader :=
  let st := scan_tmp format line st in set_cell (choose (tmp st)) st.

(** The option is ignored, with a warning, for the other cells. *)
Definition only_if (test : Cell.t F -> bool) (block : string -> Reader -> Reader) (line : string) (st : Reader) : Reader :=
  if test (cell st) then block line st else st.

Import Cell.
Definition id_cell (c : Cell.t F) : Cell.t F := c.
Definition is_flash (c : Cell.t F) : bool := bool_decide (memCellType c = SLCNAND) || bool_decide (memCellType c = MLCNAND).

(** Kind of cell and geometry. *)
Definition geometry_options : list Option := [
  ("-MemCellType", scan_word "-MemCellType: %s" (fun w c => c <| memCellType :=
     if String.eqb w "SRAM" then SRAM else if String.eqb w "DRAM" then DRAM else if String.eqb w "eDRAM" then eDRAM
     else if String.eqb w "gcDRAM" then gcDRAM else if String.eqb w "MRAM" then MRAM else if String.eqb w "PCRAM" then PCRAM
     else if String.eqb w "FBRAM" then FBRAM else if String.eqb w "memristor" then memristor
     else if String.eqb w "SLCNAND" then SLCNAND else if String.eqb w "FeRAM" then FeRAM else MLCNAND |>));
  ("-ProcessNode", scan_Z "-ProcessNode: %d" (fun z c => c <| processNode := z |>));
  ("-CellArea", scan_F "-CellArea (F^2): %lf" (fun x c => c <| area := x |>) id_cell);
  ("-CellAspectRatio", scan_F "-CellAspectRatio: %lf" (fun x c => c <| aspectRatio := x |>) (fun c =>
     c <| heightInFeatureSize := nsqrt (area c * aspectRatio c)%num |> <| widthInFeatureSize := nsqrt (area c / aspectRatio c)%num |>))
].

(** Resistances, capacitances and floating bodies. *)
Definition resistance_options : list Option := [
  ("-ResistanceOnAtSetVoltage", scan_F "-ResistanceOnAtSetVoltage (ohm): %lf" (fun x c => c <| resistanceOnAtSetVoltage := x |>) id_cell);
  ("-ResistanceOffAtSetVoltage", scan_F "-ResistanceOffAtSetVoltage (ohm): %lf" (fun x c => c <| resistanceOffAtSetVoltage := x |>) id_cell);
  ("-ResistanceOnAtResetVoltage", scan_F "-ResistanceOnAtResetVoltage (ohm): %lf" (fun x c => c <| resistanceOnAtResetVoltage := x |>) id_cell);
  ("-ResistanceOffAtResetVoltage", scan_F "-ResistanceOffAtResetVoltage (ohm): %lf" (fun x c => c <| resistanceOffAtResetVoltage := x |>) id_cell);
  ("-ResistanceOnAtReadVoltage", scan_F "-ResistanceOnAtReadVoltage (ohm): %lf" (fun x c => c <| resistanceOnAtReadVoltage := x |>)
     (fun c => c <| resistanceOn := resistanceOnAtReadVoltage c |>));
  ("-ResistanceOffAtReadVoltage", scan_F "-ResistanceOffAtReadVoltage (ohm): %lf" (fun x c => c <| resistanceOffAtReadVoltage := x |>)
     (fun c => c <| resistanceOff := resistanceOffAtReadVoltage c |>));
  ("-ResistanceOnAtHalfReadVoltage", scan_F "-ResistanceOnAtHalfReadVoltage (ohm): %lf" (fun x c => c <| resistanceOnAtHalfReadVoltage := x |>) id_cell);
  ("-ResistanceOffAtHalfReadVoltage", scan_F "-ResistanceOffAtHalfReadVoltage (ohm): %lf" (fun x c => c <| resistanceOffAtHalfReadVoltage := x |>) id_cell);
  ("-ResistanceOnAtHalfResetVoltage", scan_F "-ResistanceOnAtHalfResetVoltage (ohm): %lf" (fun x c => c <| resistanceOnAtHalfResetVoltage := x |>) id_cell);
  ("-ResistanceOn", scan_F "-ResistanceOn (ohm): %lf" (fun x c => c <| resistanceOn := x |>) id_cell);
  ("-ResistanceOff", scan_F "-ResistanceOff (ohm): %lf" (fun x c => c <| resistanceOff := x |>) id_cell);
  ("-CapacitanceOn", scan_F "-CapacitanceOn (F): %lf" (fun x c => c <| capacitanceOn := x |>) id_cell);
  ("-CapacitanceOff", scan_F "-CapacitanceOff (F): %lf" (fun x c => c <| capacitanceOff := x |>) id_cell);
  ("-GateOxThicknessFactor", scan_F "-GateOxThicknessFactor: %lf" (fun x c => c <| gateOxThicknessFactor := x |>) id_cell);
  ("-SOIDeviceWidth (F)", scan_F "-SOIDeviceWidth (F): %lf" (fun x c => c <| widthSOIDevice := x |>) id_cell)
].

(** A voltage that may be given as [vdd]. *)
Definition scan_voltage (format_s format_lf : string) (f : F -> Cell.t F -> Cell.t F) (line : string) (st : Reader) : Reader :=
  let st := scan_tmp format_s line st in
  if String.eqb (tmp st) "vdd" then set_cell (f vdd) st else scan_F format_lf f id_cell line st.

(** Reading and writing. *)
Definition operation_options : list Option := [
  ("-ReadMode", scan_word "-ReadMode: %s" (fun w c => c <| readMode := String.eqb w "voltage" |>));
  ("-ReadVoltage", scan_F "-ReadVoltage (V): %lf" (fun x c => c <| readVoltage := x |>) id_cell);
  ("-ReadCurrent", scan_F "-ReadCurrent (uA): %lf" (fun x c => c <| readCurrent := x |>)
     (fun c => c <| readCurrent := (readCurrent c / lit 1 6)%num |>));
  ("-ReadPower", scan_F "-ReadPower (uW): %lf" (fun x c => c <| readPower := x |>)
     (fun c => c <| readPower := (readPower c / lit 1 6)%num |>));
  ("-WordlineBoostRatio", scan_F "-WordlineBoostRatio: %lf" (fun x c => c <| wordlineBoostRatio := x |>) id_cell);
  ("-MinSenseVoltage", scan_F "-MinSenseVoltage (mV): %lf" (fun x c => c <| minSenseVoltage := x |>)
     (fun c => c <| minSenseVoltage := (minSenseVoltage c / lit 1 3)%num |>));
  ("-ResetMode", scan_word "-ResetMode: %s" (fun w c => c <| resetMode := String.eqb w "voltage" |>));
  ("-ResetVoltage", scan_voltage "-ResetVoltage (V): %s" "-ResetVoltage (V): %lf" (fun x c => c <| resetVoltage := x |>));
  ("-ResetCurrent", scan_F "-ResetCurrent (uA): %lf" (fun x c => c <| resetCurrent := x |>)
     (fun c => c <| resetCurrent := (resetCurrent c / lit 1 6)%num |>));
  ("-ResetPulse", scan_F "-ResetPulse (ns): %lf" (fun x c => c <| resetPulse := x |>)
     (fun c => c <| resetPulse := (resetPulse c / lit 1 9)%num |>));
  ("-ResetEnergy", scan_F "-ResetEnergy (pJ): %lf" (fun x c => c <| resetEnergy := x |>)
     (fun c => c <| resetEnergy := (resetEnergy c / lit 1 12)%num |>));
  ("-SetMode", scan_word "-SetMode: %s" (fun w c => c <| setMode := String.eqb w "voltage" |>));
  ("-SetVoltage", scan_voltage "-SetVoltage (V): %s" "-SetVoltage (V): %lf" (fun x c => c <| setVoltage := x |>));
  ("-SetCurrent", scan_F "-SetCurrent (uA): %lf" (fun x c => c <| setCurrent := x |>)
     (fun c => c <| setCurrent := (setCurrent c / lit 1 6)%num |>));
  ("-SetPulse", scan_F "-SetPulse (ns): %lf" (fun x c => c <| setPulse := x |>)
     (fun c => c <| setPulse := (setPulse c / lit 1 9)%num |>));
  ("-SetEnergy", scan_F "-SetEnergy (pJ): %lf" (fun x c => c <| setEnergy := x |>)
     (fun c => c <| setEnergy := (setEnergy c / lit 1 12)%num |>))
].

(** Access devices and widths. *)
Definition device_options : list Option := [
  ("-Stitching", scan_Z "-Stitching: %d" (fun z c => c <| stitching := z |>));
  ("-AccessType", scan_word "-AccessType: %s" (fun w c => c <| accessType :=
     if String.eqb w "CMOS" then CMOS_access else if String.eqb w "BJT" then BJT_access
     else if String.eqb w "diode" then diode_access else none_access |>));
  ("-AccessCMOSWidth", only_if (fun c => bool_decide (accessType c = CMOS_access))
     (scan_F "-AccessCMOSWidth (F): %lf" (fun x c => c <| widthAccessCMOS := x |>) id_cell));
  ("-VoltageDropAccessDevice", scan_F "-VoltageDropAccessDevice (V): %lf" (fun x c => c <| voltageDropAccessDevice := x |>) id_cell);
  ("-LeakageCurrentAccessDevice", scan_F "-LeakageCurrentAccessDevice (uA): %lf" (fun x c => c <| leakageCurrentAccessDevice := x |>)
     (fun c => c <| leakageCurrentAccessDevice := (leakageCurrentAccessDevice c / lit 1 6)%num |>));
  ("-DRAMCellCapacitance", only_if (fun c => IsAOSCell (memCellType c) || bool_decide (memCellType c = DRAM) || bool_decide (memCellType c = FeRAM))
     (scan_F "-DRAMCellCapacitance (F): %lf" (fun x c => c <| capDRAMCell := x |>) id_cell));
  ("-SRAMCellNMOSWidth", only_if (fun c => bool_decide (memCellType c = SRAM))
     (scan_F "-SRAMCellNMOSWidth (F): %lf" (fun x c => c <| widthSRAMCellNMOS := x |>) id_cell));
  ("-SRAMCellPMOSWidth", only_if (fun c => bool_decide (memCellType c = SRAM))
     (scan_F "-SRAMCellPMOSWidth (F): %lf" (fun x c => c <| widthSRAMCellPMOS := x |>) id_cell))
].

(** Flash, retention and temperature. *)
Definition flash_options : list Option := [
  ("-ReadFloating", scan_word "-ReadFloating: %s" (fun w c => c <| readFloating := String.eqb w "true" |>));
  ("-FlashEraseVoltage (V)", only_if is_flash (scan_F "-FlashEraseVoltage (V): %lf" (fun x c => c <| flashEraseVoltage := x |>) id_cell));
  ("-FlashProgramVoltage (V)", only_if is_flash (scan_F "-FlashProgramVoltage (V): %lf" (fun x c => c <| flashProgramVoltage := x |>) id_cell));
  ("-FlashPassVoltage (V)", only_if is_flash (scan_F "-FlashPassVoltage (V): %lf" (fun x c => c <| flashPassVoltage := x |>) id_cell));
  ("-FlashEraseTime", only_if is_flash (scan_F "-FlashEraseTime (ms): %lf" (fun x c => c <| flashEraseTime := x |>)
     (fun c => c <| flashEraseTime := (flashEraseTime c / lit 1 3)%num |>)));
  ("-FlashProgramTime", only_if is_flash (scan_F "-FlashProgramTime (us): %lf" (fun x c => c <| flashProgramTime := x |>)
     (fun c => c <| flashProgramTime := (flashProgramTime c / lit 1 6)%num |>)));
  ("-GateCouplingRatio", only_if is_flash (scan_F "-GateCouplingRatio: %lf" (fun x c => c <| gateCouplingRatio := x |>) id_cell));
  ("-RetentionTime", scan_F "-RetentionTime (us): %lf" (fun x c => c <| retentionTime := x |>)
     (fun c => c <| retentionTime := (retentionTime c / lit 1 6)%num |>));
  ("-Temperature", only_if (fun c => IsAOSCell (memCellType c)) (scan_F "-Temperature (K): %lf" (fun x c => c <| temperature := x |>) id_cell))
].

Definition options : list Option :=
  (geometry_options ++ resistance_options ++ operation_options ++ device_options ++ flash_options)%list.

(** The blocks of the options all end in [continue]. *)
Fixpoint interpret (os : list Option) (line : string) (st : Reader) : Reader :=
  match os with
  | [] => st
  | (key, block) :: os => if starts_with key line then block line st else interpret os line st
  end.

(** The body of the loop. *)
Definition read_line (line : string) (st : Reader) : Outcome Reader :=
  let trimmedLine := Trim line in
  match SplitSetting line with
  | None =>
      if starts_with "-Oxide" trimmedLine || starts_with "-RetentionModel" trimmedLine
         || starts_with "-RetentionReferenceHoldVoltage" trimmedLine
      then FailCellFile ("malformed AOS/retention setting '" ++ trimmedLine ++ "'")
      else Ret (interpret options line st)
  | Some (key, value) =>
      match setting key value st with
      | Some r => r
      | None => Ret (interpret options line st)
      end
  end.

(** The loop; [None] when [fuel] iterations do not reach the end of the file. *)
Fixpoint read_loop (fuel : nat) (input line : string) (st : Reader) : option (Outcome Reader) :=
  match fuel with
  | O => None
  | S fuel =>
      match fscanf_line input with
      | Exit e => Some (Exit e)
      | Ret None => Some (Ret st)
      | Ret (Some (l, rest)) =>
          let line := default line l in
          match read_line line st with
          | Exit e => Some (Exit e)
          | Ret st => read_loop fuel rest line st
          end
      end
  end.

(** The checks after the loop: oxide transistors. *)
Definition check_oxide (st : Reader) : Outcome (Cell.t F) :=
  let c := cell st in
  if oxideFieldSpecified st && (negb (oxideControlSpecified st) || negb (oxideTransistor c))
  then FailCellFile "AOS transistor fields require -OxideTransistor: true"
  else if oxideTransistor c && negb (IsAOSCell (memCellType c))
  then FailCellFile "-OxideTransistor is supported only for eDRAM and gcDRAM"
  else if oxideTransistor c && bool_decide (memCellType c = eDRAM) then
    if Oxide.initialized (oxideReadTransistor c) || Oxide.initialized (oxideWriteTransistor c)
    then FailCellFile "eDRAM accepts only -OxideAccessTransistor fields"
    else
      let? o := ValidateAOSParameterSet "eDRAM access" (oxideAccessTransistor c) in
      Ret (c <| oxideAccessTransistor := o |>)
  else if oxideTransistor c && bool_decide (memCellType c = gcDRAM) then
    if Oxide.initialized (oxideAccessTransistor c)
    then FailCellFile "gcDRAM accepts only read/write AOS transistor fields"
    else
      let? r := ValidateAOSParameterSet "gcDRAM read" (oxideReadTransistor c) in
      let? w := ValidateAOSParameterSet "gcDRAM write" (oxideWriteTransistor c) in
      Ret (c <| oxideReadTransistor := r |> <| oxideWriteTransistor := w |>)
  else Ret c.

(** The checks after the loop: the retention model. *)
Definition check_retention (c : Cell.t F) : Outcome (Cell.t F) :=
  let? _ :=
    if retentionAOSOffCurrentRatio c then
      if negb (bool_decide (memCellType c = eDRAM)) || negb (oxideTransistor c)
      then FailCellFile "AOSOffCurrentRatio retention is supported only for AOS eDRAM"
      else if (retentionTime c =? invalid_value)%num
      then FailCellFile "AOSOffCurrentRatio requires a supplied -RetentionTime"
      else if negb (retentionReferenceHoldVoltageSpecified c)
      then FailCellFile "AOSOffCurrentRatio requires -RetentionReferenceHoldVoltage"
      else Ret tt
    else Ret tt in
  if retentionReferenceHoldVoltageSpecified c && negb (retentionAOSOffCurrentRatio c)
  then FailCellFile "-RetentionReferenceHoldVoltage is unused without -RetentionModel: AOSOffCurrentRatio"
  else Ret c.

(** MemCell::ReadCellFromFile; [file] is the contents, if it can be opened. *)
Definition ReadCellFromFile (raw_line raw_tmp : string) (file : option string) (c : Cell.t F)
  : option (Outcome (Cell.t F)) :=
  match file with
  | None => Some (Exit "the cell file cannot be found!")
  | Some input =>
      match read_loop (S (String.length input)) input raw_line (mkReader c raw_tmp false false false) with
      | None => None
      | Some m => Some (let? st := m in let? c := check_oxide st in check_retention c)
      end
  end.

End Reader.
End CellReader.
