(* ===== verification/Wires.v ===== *)
(** * Wires

    Wire.h/.cpp: the geometry of a wire per process node and wire type, its
    resistance and capacitance, the sizing of repeaters, and delay and power of a
    wire of a given length, passive, repeated or low swing.  The loops that search
    a cheaper repeater run with fuel; running out of it is [endless]. *)
From S2P Require Import Prelude Numeric Types InputParameter Process Formula Circuit OutputDriver Peripherals.
From stdpp Require Import base list strings.
From Stdlib Require Import ZArith Lia.
Open Scope Z_scope.

Definition endless : string := "the loop does not end".

(** [while (cond) body;] *)
Fixpoint loop {S : Type} (fuel : nat) (cond : S -> bool) (body : S -> Outcome S) (s : S) : Outcome S :=
  if cond s then
    match fuel with
    | O => Exit endless
    | Datatypes.S n => let? s := body s in loop n cond body s
    end
  else Ret s.

Module Wire.
Import Formula.

(** Wire.h *)
Record t (F : Type) : Type := mk {
  initialized : bool;
  featureSizeInNano : Z;
  featureSize : F;
  wireType : WireType;
  wireRepeaterType : WireRepeaterType;
  temperature : Z;
  isLowSwing : bool;
  barrierThickness : F;
  horizontalDielectric : F;
  wirePitch : F;
  aspectRatio : F;
  ildThickness : F;
  wireWidth : F;
  wireThickness : F;
  wireSpacing : F;
  repeaterSize : F;
  repeaterSpacing : F;
  repeaterHeight : F;
  repeaterWidth : F;
  repeatedWirePitch : F;
  resWirePerUnit : F;
  resWirePerUnit_M0 : F;
  resWirePerUnit_M1 : F;
  capWirePerUnit : F;
  senseAmp : option (SenseAmp.t F)
}.
Arguments mk {_} _ _ _ _ _ _ _ _ _ _ _ _ _ _ _ _ _ _ _ _ _ _ _ _ _.
Arguments initialized {_} _.
Arguments featureSizeInNano {_} _.
Arguments featureSize {_} _.
Arguments wireType {_} _.
Arguments wireRepeaterType {_} _.
Arguments temperature {_} _.
Arguments isLowSwing {_} _.
Arguments barrierThickness {_} _.
Arguments horizontalDielectric {_} _.
Arguments wirePitch {_} _.
Arguments aspectRatio {_} _.
Arguments ildThickness {_} _.
Arguments wireWidth {_} _.
Arguments wireThickness {_} _.
Arguments wireSpacing {_} _.
Arguments repeaterSize {_} _.
Arguments repeaterSpacing {_} _.
Arguments repeaterHeight {_} _.
Arguments repeaterWidth {_} _.
Arguments repeatedWirePitch {_} _.
Arguments resWirePerUnit {_} _.
Arguments resWirePerUnit_M0 {_} _.
Arguments resWirePerUnit_M1 {_} _.
Arguments capWirePerUnit {_} _.
Arguments senseAmp {_} _.
#[global] Instance eta {F : Type} : RecordEta (t F) := fun x =>
  mk (initialized x) (featureSizeInNano x) (featureSize x) (wireType x) (wireRepeaterType x) (temperature x)
    (isLowSwing x) (barrierThickness x) (horizontalDielectric x) (wirePitch x) (aspectRatio x) (ildThickness
    x) (wireWidth x) (wireThickness x) (wireSpacing x) (repeaterSize x) (repeaterSpacing x) (repeaterHeight
    x) (repeaterWidth x) (repeatedWirePitch x) (resWirePerUnit x) (resWirePerUnit_M0 x) (resWirePerUnit_M1 x)
    (capWirePerUnit x) (senseAmp x).

(** The members [Initialize] sets per node and wire type, and the resistivity. *)
Record Geometry (F : Type) : Type := mkGeometry {
  feature : F;
  barrier : F;
  dielectric : F;
  pitch : F;
  aspect : F;
  ild : F;
  copper_resistivity : F
}.
Arguments mkGeometry {_} _ _ _ _ _ _ _.
Arguments feature {_} _.
Arguments barrier {_} _.
Arguments dielectric {_} _.
Arguments pitch {_} _.
Arguments aspect {_} _.
Arguments ild {_} _.
Arguments copper_resistivity {_} _.

Section Operations.
Context {F : Type} `{Num F}.
Context (raw : F) (tech : Process.t F) (ip : InputParameter.t F) (minSenseVoltage : F).

(** Wire::Wire; the other members are not set. *)
Definition Wire : t F :=
  mk false 0 raw local_aggressive repeated_none 0 false raw raw raw raw raw raw raw raw raw raw raw raw raw raw
    raw raw raw None.

Definition COPPER_RESISTIVITY : F := lit 22 (-9).

(** The pitches of the second and third metal, in feature sizes. *)
Definition M2_PITCH (nano : Z) : option F :=
  if nano =? 14 then Some (lit 457 (-2)) else if nano =? 10 then Some (lit 44 (-1))
  else if nano =? 7 then Some (lit 571 (-2)) else if nano =? 5 then Some (lit 60 (-1))
  else if nano =? 3 then Some (lit 80 (-1)) else if nano =? 2 then Some (lit 100 (-1))
  else if nano =? 1 then Some (lit 160 (-1)) else None.

(** [MetalX_pitch * (MX_PITCH_<n>nm / MX_PITCH)], the same for both metals. *)
Definition metal_pitch (base : F) (nano : Z) (otherwise : F) : F :=
  match M2_PITCH nano with
  | Some p => (base * (p / base))%num
  | None => otherwise
  end.

(** A dram_wordline has no detailed model. *)
Definition wordline (fs : F) : Geometry F :=
  mkGeometry fs (lit 0 (-6)) (of_Z 0) (#2 * fs)%num (of_Z 0) (lit 0 (-6)) COPPER_RESISTIVITY.

(** 14 nm and below; every pitch is multiplied by the feature size at the end. *)
Definition geometry_advanced (nano : Z) (wt : WireType) : Geometry F :=
  let fs := (#nano * lit 1 (-9))%num in
  let m2 := metal_pitch (lit 32 (-1)) nano in
  let m3 := metal_pitch (lit 28 (-1)) nano in
  let g :=
    (match wt with
     | local_aggressive => mkGeometry fs (lit 0 (-8)) (lit 255 (-2)) (m2 (#2 * fs)) (lit 19 (-1)) (lit 19 (-1) * fs) (lit 60 (-9))
     | local_conservative => mkGeometry fs (lit 21 (-10)) #3 (m2 (#2 * fs)) (lit 19 (-1)) (lit 19 (-1) * fs) (lit 60 (-9))
     | semi_aggressive => mkGeometry fs (lit 0 (-8)) (lit 255 (-2)) (m2 (#4 * fs)) (lit 19 (-1)) (#2 * lit 19 (-1) * fs) (lit 60 (-9))
     | semi_conservative => mkGeometry fs (lit 21 (-10)) #3 (m2 (#4 * fs)) (lit 19 (-1)) (#2 * lit 19 (-1) * fs) (lit 60 (-9))
     | global_aggressive => mkGeometry fs (lit 0 (-8)) (lit 255 (-2)) (m3 (#8 * fs)) (lit 234 (-2)) (lit 42 (-8) * #22 / #32) (lit 30 (-9))
     | global_conservative => mkGeometry fs (lit 63 (-10)) #3 (m3 (#8 * fs)) (lit 234 (-2)) (lit 385 (-9) * #22 / #32) (lit 30 (-9))
     | dram_wordline => wordline fs
     end)%num in
  mkGeometry (feature g) (barrier g) (dielectric g) (pitch g * fs)%num (aspect g) (ild g) (copper_resistivity g).

Definition geometry_22 (wt : WireType) : Geometry F :=
  let fs := lit 22 (-9) in
  (match wt with
   | local_aggressive => mkGeometry fs (lit 0 (-8)) (lit 255 (-2)) (#2 * fs) (lit 19 (-1)) (lit 19 (-1) * fs) (lit 60 (-9))
   | local_conservative => mkGeometry fs (lit 21 (-10)) #3 (#2 * fs) (lit 19 (-1)) (lit 19 (-1) * fs) (lit 60 (-9))
   | semi_aggressive => mkGeometry fs (lit 0 (-8)) (lit 255 (-2)) (#4 * fs) (lit 19 (-1)) (#2 * lit 19 (-1) * fs) (lit 60 (-9))
   | semi_conservative => mkGeometry fs (lit 21 (-10)) #3 (#4 * fs) (lit 19 (-1)) (#2 * lit 19 (-1) * fs) (lit 60 (-9))
   | global_aggressive => mkGeometry fs (lit 0 (-8)) (lit 255 (-2)) (#8 * fs) (lit 234 (-2)) (lit 42 (-8) * #22 / #32) (lit 30 (-9))
   | global_conservative => mkGeometry fs (lit 63 (-10)) #3 (#8 * fs) (lit 234 (-2)) (lit 385 (-9) * #22 / #32) (lit 30 (-9))
   | dram_wordline => wordline fs
   end)%num.

Definition geometry_32 (wt : WireType) : Geometry F :=
  let fs := lit 32 (-9) in
  (match wt with
   | local_aggressive => mkGeometry fs (lit 0 (-8)) (lit 282 (-2)) (#2 * fs) (lit 18 (-1)) (lit 18 (-1) * fs) (lit 50 (-9))
   | local_conservative => mkGeometry fs (lit 26 (-10)) (lit 316 (-2)) (#2 * fs) (lit 18 (-1)) (lit 18 (-1) * fs) (lit 50 (-9))
   | semi_aggressive => mkGeometry fs (lit 0 (-8)) (lit 282 (-2)) (#4 * fs) (lit 19 (-1)) (#2 * lit 19 (-1) * fs) (lit 50 (-9))
   | semi_conservative => mkGeometry fs (lit 26 (-10)) (lit 316 (-2)) (#4 * fs) (lit 19 (-1)) (#2 * lit 19 (-1) * fs) (lit 50 (-9))
   | global_aggressive => mkGeometry fs (lit 0 (-8)) (lit 282 (-2)) (#8 * fs) (lit 234 (-2)) (lit 42 (-8)) (lit 25 (-9))
   | global_conservative => mkGeometry fs (lit 78 (-10)) (lit 316 (-2)) (#8 * fs) (lit 234 (-2)) (lit 385 (-9)) (lit 25 (-9))
   | dram_wordline => wordline fs
   end)%num.

Definition geometry_45 (wt : WireType) : Geometry F :=
  let fs := lit 45 (-9) in
  (match wt with
   | local_aggressive => mkGeometry fs (lit 0 (-8)) (lit 26 (-1)) (lit 102 (-9)) (lit 18 (-1)) (lit 918 (-10)) (lit 408 (-10))
   | local_conservative => mkGeometry fs (lit 33 (-10)) (lit 29 (-1)) (lit 102 (-9)) (lit 18 (-1)) (lit 918 (-10)) (lit 408 (-10))
   | semi_aggressive => mkGeometry fs (lit 0 (-8)) (lit 26 (-1)) (#4 * fs) (lit 18 (-1)) (#2 * lit 18 (-1) * fs) (lit 408 (-10))
   | semi_conservative => mkGeometry fs (lit 33 (-10)) (lit 29 (-1)) (#4 * fs) (lit 18 (-1)) (#2 * lit 18 (-1) * fs) (lit 408 (-10))
   | global_aggressive => mkGeometry fs (lit 0 (-8)) (lit 26 (-1)) (#8 * fs) (lit 234 (-2)) (lit 63 (-8)) (lit 206 (-10))
   | global_conservative => mkGeometry fs (lit 1 (-8)) (lit 29 (-1)) (#8 * fs) (lit 234 (-2)) (lit 55 (-8)) (lit 206 (-10))
   | dram_wordline => wordline fs
   end)%num.

Definition geometry_65 (wt : WireType) : Geometry F :=
  let fs := lit 65 (-9) in
  let cu := COPPER_RESISTIVITY in
  (match wt with
   | local_aggressive => mkGeometry fs (lit 0 (-8)) (lit 2303 (-3)) (lit 25 (-1) * fs) (lit 27 (-1)) (lit 405 (-9)) cu
   | local_conservative => mkGeometry fs (lit 6 (-9)) (lit 2734 (-3)) (lit 25 (-1) * fs) (lit 20 (-1)) (lit 405 (-9)) cu
   | semi_aggressive => mkGeometry fs (lit 0 (-8)) (lit 2303 (-3)) (#4 * fs) (lit 27 (-1)) (lit 405 (-9)) cu
   | semi_conservative => mkGeometry fs (lit 6 (-9)) (lit 2734 (-3)) (#4 * fs) (lit 20 (-1)) (lit 405 (-9)) cu
   | global_aggressive => mkGeometry fs (lit 0 (-8)) (lit 2303 (-3)) (#8 * fs) (lit 28 (-1)) (lit 81 (-8)) cu
   | global_conservative => mkGeometry fs (lit 6 (-9)) (lit 2734 (-3)) (#8 * fs) (lit 22 (-1)) (lit 77 (-8)) cu
   | dram_wordline => wordline fs
   end)%num.

Definition geometry_90 (wt : WireType) : Geometry F :=
  let fs := lit 90 (-9) in
  let cu := COPPER_RESISTIVITY in
  (match wt with
   | local_aggressive => mkGeometry fs (lit 1 (-8)) (lit 2709 (-3)) (lit 25 (-1) * fs) (lit 24 (-1)) (lit 48 (-8)) cu
   | local_conservative => mkGeometry fs (lit 8 (-9)) (lit 3038 (-3)) (lit 25 (-1) * fs) (lit 20 (-1)) (lit 48 (-8)) cu
   | semi_aggressive => mkGeometry fs (lit 1 (-8)) (lit 2709 (-3)) (#4 * fs) (lit 24 (-1)) (lit 48 (-8)) cu
   | semi_conservative => mkGeometry fs (lit 8 (-9)) (lit 3038 (-3)) (#4 * fs) (lit 20 (-1)) (lit 48 (-8)) cu
   | global_aggressive => mkGeometry fs (lit 1 (-8)) (lit 2709 (-3)) (#8 * fs) (lit 27 (-1)) (lit 96 (-8)) cu
   | global_conservative => mkGeometry fs (lit 8 (-9)) (lit 3038 (-3)) (#8 * fs) (lit 22 (-1)) (lit 11 (-7)) cu
   | dram_wordline => wordline fs
   end)%num.

Definition geometry_120 (wt : WireType) : Geometry F :=
  let fs := lit 120 (-9) in
  let cu := COPPER_RESISTIVITY in
  match wt with
  | local_aggressive => mkGeometry fs (lit 12 (-9)) (lit 33 (-1)) (lit 240 (-9)) (lit 16 (-1)) (lit 48 (-8)) cu
  | local_conservative => mkGeometry fs (lit 1 (-8)) (lit 36 (-1)) (lit 240 (-9)) (lit 14 (-1)) (lit 48 (-8)) cu
  | semi_aggressive => mkGeometry fs (lit 12 (-9)) (lit 33 (-1)) (lit 320 (-9)) (lit 17 (-1)) (lit 48 (-8)) cu
  | semi_conservative => mkGeometry fs (lit 1 (-8)) (lit 36 (-1)) (lit 320 (-9)) (lit 15 (-1)) (lit 48 (-8)) cu
  | global_aggressive => mkGeometry fs (lit 12 (-9)) (lit 33 (-1)) (lit 475 (-9)) (lit 21 (-1)) (lit 96 (-8)) cu
  | global_conservative => mkGeometry fs (lit 1 (-8)) (lit 36 (-1)) (lit 475 (-9)) (lit 19 (-1)) (lit 11 (-7)) cu
  | dram_wordline => wordline fs
  end.

Definition geometry_200 (wt : WireType) : Geometry F :=
  let fs := lit 200 (-9) in
  let cu := COPPER_RESISTIVITY in
  let thin := (lit 16 (-9) * lit 8 (-1))%num in
  let dense := (lit 375 (-2) * lit 3038 (-3) / lit 2709 (-3))%num in
  (match wt with
   | local_aggressive => mkGeometry fs (lit 16 (-9)) (lit 375 (-2)) (lit 45 (-8)) (lit 24 (-1)) (lit 1 (-6)) cu
   | local_conservative => mkGeometry fs thin dense (lit 45 (-8)) (lit 12 (-1)) (lit 1 (-6)) cu
   | semi_aggressive => mkGeometry fs (lit 16 (-9)) (lit 375 (-2)) (lit 575 (-9)) (lit 21 (-1)) (lit 1 (-6)) cu
   | semi_conservative => mkGeometry fs thin dense (lit 575 (-9)) (lit 21 (-1) * lit 20 (-1) / lit 24 (-1)) (lit 1 (-6)) cu
   | global_aggressive => mkGeometry fs (lit 16 (-9)) (lit 375 (-2)) (lit 945 (-9)) (lit 21 (-1)) (lit 2 (-6)) cu
   | global_conservative => mkGeometry fs thin dense (lit 945 (-9)) (lit 21 (-1) * lit 22 (-1) / lit 27 (-1)) (lit 22 (-7)) cu
   | dram_wordline => wordline fs
   end)%num.

(** Above 200 nm the members are not set. *)
Definition geometry (nano : Z) (wt : WireType) : option (Geometry F) :=
  if nano <=? 14 then Some (geometry_advanced nano wt)
  else if nano <=? 22 then Some (geometry_22 wt)
  else if nano <=? 32 then Some (geometry_32 wt)
  else if nano <=? 45 then Some (geometry_45 wt)
  else if nano <=? 65 then Some (geometry_65 wt)
  else if nano <=? 90 then Some (geometry_90 wt)
  else if nano <=? 120 then Some (geometry_120 wt)
  else if nano <=? 200 then Some (geometry_200 wt)
  else None.

(** ** Repeaters *)

(** [((featureSize <= 14*1e-9) ? 2 : 1)] *)
Definition factor : F := of_Z (if (Process.featureSize tech <=? nm 14)%num then 2 else 1).
Definition T : F := of_Z (InputParameter.temperature ip).
Definition no_limit : F := of_Z 1.

(** The capacitance a repeater of the given widths presents, and its own. *)
Definition repeater_input (n p : F) : F := (CalculateGateCap (factor * n) tech + CalculateGateCap (factor * p) tech)%num.
Definition repeater_output (n p : F) : Outcome F :=
  let? a := CalculateDrainCap (factor * n)%num NMOS no_limit tech in
  let? b := CalculateDrainCap (factor * p)%num PMOS no_limit tech in
  Ret (a + b)%num.
Definition repeater_resistance (n p : F) : Outcome F :=
  let? a := CalculateOnResistance (factor * n)%num NMOS T tech in
  let? b := CalculateOnResistance (factor * p)%num PMOS T tech in
  Ret (a + b)%num.

Definition nmosSize (w : t F) : F := (MIN_NMOS_SIZE * Process.featureSize tech * repeaterSize w)%num.

(** Wire::getRepeatedWireUnitDelay; the width of the PMOS drain is not scaled. *)
Definition getRepeatedWireUnitDelay (w : t F) : Outcome F :=
  let n := nmosSize w in
  let p := (n * Process.pnSizeRatio tech)%num in
  let inputCap := repeater_input n p in
  let? dn := CalculateDrainCap (factor * n)%num NMOS no_limit tech in
  let? dp := CalculateDrainCap p PMOS no_limit tech in
  let outputCap := (dn + dp)%num in
  let? outputRes := repeater_resistance n p in
  let wireCap := (capWirePerUnit w * repeaterSpacing w)%num in
  let wireRes := (resWirePerUnit w * repeaterSpacing w)%num in
  let tau := (outputRes * (inputCap + outputCap) + outputRes * wireCap + wireRes * outputCap
              + lit 5 (-1) * wireRes * wireCap)%num in
  Ret (lit 693 (-3) * tau / repeaterSpacing w)%num.

(** Wire::getRepeatedWireUnitDynamicEnergy *)
Definition getRepeatedWireUnitDynamicEnergy (w : t F) : Outcome F :=
  let n := nmosSize w in
  let p := (n * Process.pnSizeRatio tech)%num in
  let inputCap := repeater_input n p in
  let? outputCap := repeater_output n p in
  let wireCap := (capWirePerUnit w * repeaterSpacing w)%num in
  let switchingEnergy := ((inputCap + outputCap + wireCap) * Process.vdd tech * Process.vdd tech)%num in
  Ret ((switchingEnergy + #0) / repeaterSpacing w)%num.

(** Wire::getRepeatedWireUnitLeakage *)
Definition getRepeatedWireUnitLeakage (w : t F) : Outcome F :=
  let n := nmosSize w in
  let p := (n * Process.pnSizeRatio tech)%num in
  let? leak := CalculateGateLeakage INV 1 n p T tech in
  Ret (leak * Process.vdd tech / repeaterSpacing w)%num.

(** Wire::findOptimalRepeater *)
Definition findOptimalRepeater (w : t F) : Outcome (t F) :=
  let n := (MIN_NMOS_SIZE * Process.featureSize tech)%num in
  let p := (n * Process.pnSizeRatio tech)%num in
  let inputCap := repeater_input n p in
  let? outputCap := repeater_output n p in
  let? outputRes := repeater_resistance n p in
  Ret (w <| repeaterSize := nfloor (nsqrt (outputRes * capWirePerUnit w / inputCap / resWirePerUnit w))%num |>
         <| repeaterSpacing := nsqrt (#2 * outputRes * (outputCap + inputCap)
                                      / (resWirePerUnit w * capWirePerUnit w))%num |>).

(** The state of the search: the wire, whose repeater is the one being tried, and
    the best repeater so far. *)
Record Trial : Type := mkTrial {
  wire : t F;
  currentDynamicEnergy : F;
  currentLeakage : F;
  targetRepeaterSpacing : F;
  targetRepeaterSize : F
}.

(** The body of the inner loop, with the step to the next size. *)
Definition try_size (targetDelay : F) (s : Trial) : Outcome Trial :=
  let w := wire s in
  let? thisDelay := getRepeatedWireUnitDelay w in
  let? thisDynamicEnergy := getRepeatedWireUnitDynamicEnergy w in
  let? thisLeakage := getRepeatedWireUnitLeakage w in
  let next := w <| repeaterSize := (repeaterSize w - #1)%num |> in
  Ret (if (thisDelay <=? targetDelay)%num
          && (thisDynamicEnergy / currentDynamicEnergy s + thisLeakage / currentLeakage s <? #2)%num
       then mkTrial next thisDynamicEnergy thisLeakage (repeaterSpacing w) (repeaterSize w)
       else mkTrial next (currentDynamicEnergy s) (currentLeakage s) (targetRepeaterSpacing s) (targetRepeaterSize s)).

(** The inner loop, and the step to the next spacing; the size is not set back. *)
Definition try_spacing (targetDelay : F) (s : Trial) : Outcome Trial :=
  let? s := loop (S (Z.to_nat (trunc (repeaterSize (wire s))))) (fun s => (#1 <=? repeaterSize (wire s))%num)
              (try_size targetDelay) s in
  let w := wire s in
  Ret (mkTrial (w <| repeaterSpacing := (repeaterSpacing w + lit 100 (-6))%num |>) (currentDynamicEnergy s)
         (currentLeakage s) (targetRepeaterSpacing s) (targetRepeaterSize s)).

(** Wire::findPenalizedRepeater *)
Definition findPenalizedRepeater (_penalty : F) (w : t F) : Outcome (t F) :=
  let? delay := getRepeatedWireUnitDelay w in
  let targetDelay := (delay * (#1 + _penalty))%num in
  let? energy := getRepeatedWireUnitDynamicEnergy w in
  let? leakage := getRepeatedWireUnitLeakage w in
  let endSpacing := (#4 * repeaterSpacing w)%num in
  let? s := loop (S (S (Z.to_nat (trunc ((endSpacing - repeaterSpacing w) / lit 100 (-6))%num))))
              (fun s => (repeaterSpacing (wire s) <=? endSpacing)%num) (try_spacing targetDelay)
              (mkTrial w energy leakage (repeaterSpacing w) (repeaterSize w)) in
  Ret ((wire s) <| repeaterSpacing := targetRepeaterSpacing s |> <| repeaterSize := targetRepeaterSize s |>).

(** ** Wire::Initialize *)

Definition penalty (r : WireRepeaterType) : F :=
  match r with
  | repeated_5 => lit 5 (-2)
  | repeated_10 => lit 10 (-2)
  | repeated_20 => lit 20 (-2)
  | repeated_30 => lit 30 (-2)
  | repeated_40 => lit 40 (-2)
  | _ => lit 50 (-2)
  end.

(** Resistance and capacitance per metre. *)
Definition electrical (resistivity : F) (w : t F) : Outcome (t F) :=
  let resistivity := (resistivity * (#1 + lit 39 (-4) * #(temperature w - 293)))%num in
  let nw := Process.neurosim_wiring tech in
  let mx := CalculateWireResistance_MX resistivity (wireWidth w) (wireThickness w) (barrierThickness w)
              (of_Z 0) (of_Z 1) nw tech in
  let? rx := mx in
  let? r0 := CalculateWireResistance_M0 resistivity (wireWidth w) (wireThickness w) (barrierThickness w)
               (of_Z 0) (of_Z 1) nw tech in
  Ret (w <| resWirePerUnit := rx |> <| resWirePerUnit_M0 := r0 |> <| resWirePerUnit_M1 := rx |>
         <| capWirePerUnit := CalculateWireCapacitance (lit 885 (-14)) (wireWidth w) (wireThickness w) (wireSpacing w)
                                (ildThickness w) (lit 15 (-1)) (horizontalDielectric w) (lit 39 (-1)) (lit 115 (-12)) nw |>).

(** The repeaters, and the pitch of the wire with them. *)
Definition repeaters (w : t F) : Outcome (t F) :=
  if bool_decide (wireRepeaterType w = repeated_none) then Ret w
  else
    let? w := findOptimalRepeater w in
    let? w := if bool_decide (wireRepeaterType w = repeated_opt) then Ret w
              else findPenalizedRepeater (penalty (wireRepeaterType w)) w in
    let n := (repeaterSize w * MIN_NMOS_SIZE * Process.featureSize tech)%num in
    let? (_, h, wd) := CalculateGateArea INV 1 n (n * Process.pnSizeRatio tech)%num
                         (Process.featureSize tech * MAX_TRANSISTOR_HEIGHT)%num tech in
    let '(h, wd) := if (wd <? h)%num then (wd, h) else (h, wd) in
    Ret (w <| repeaterHeight := h |> <| repeaterWidth := wd |> <| repeatedWirePitch := (wirePitch w + wd)%num |>).

Definition Initialize (_featureSizeInNano : Z) (_wireType : WireType) (_wireRepeaterType : WireRepeaterType)
  (_temperature : Z) (_isLowSwing : bool) (w : t F) : Outcome (t F) :=
  let w := if initialized w then w <| initialized := false |> <| senseAmp := None |> else w in
  let w := w <| featureSizeInNano := _featureSizeInNano |> <| wireType := _wireType |>
             <| wireRepeaterType := _wireRepeaterType |> <| temperature := _temperature |>
             <| isLowSwing := _isLowSwing |> in
  if negb (bool_decide (_wireRepeaterType = repeated_none)) && _isLowSwing
  then Exit "[Wire] Error: Low Swing is not supported for repeated wires!"
  else
    let g := match geometry _featureSizeInNano _wireType with
             | Some g => g
             | None => mkGeometry (#_featureSizeInNano * lit 1 (-9))%num (barrierThickness w) (horizontalDielectric w)
                         (wirePitch w) (aspectRatio w) (ildThickness w) COPPER_RESISTIVITY
             end in
    let width := (pitch g / #2)%num in
    let w := w <| featureSize := feature g |> <| barrierThickness := barrier g |>
               <| horizontalDielectric := dielectric g |> <| wirePitch := pitch g |> <| aspectRatio := aspect g |>
               <| ildThickness := ild g |> <| wireWidth := width |> <| wireThickness := (aspect g * width)%num |>
               <| wireSpacing := (pitch g - width)%num |> in
    let? w := electrical (copper_resistivity g) w in
    let? w := repeaters w in
    Ret (w <| initialized := true |>).

(** ** Wire::CalculateLatencyAndPower *)

Definition region40 : F := (Process.featureSize tech * #40)%num.

(** Delay, energy and leakage so far; the callers always pass the three pointers. *)
Record Figures : Type := mkFigures { delay : F; dynamicEnergy : F; leakagePower : F }.

(** The ramp at the input of the transmitter, its pull-down resistance and
    transconductance, and the delay of a fan-out of four. *)
Definition transmitter_input (widthNmos widthPmos : F) : Outcome (F * F * F * F) :=
  let? (ci, co) := CalculateGateCapacitance INV 1 widthNmos widthPmos
                     (Process.featureSize tech * MAX_TRANSISTOR_HEIGHT)%num tech in
  let capLoad := (ci + co)%num in
  let? _ := CalculateOnResistance (factor * widthNmos)%num NMOS T tech in
  let? resPullUp := CalculateOnResistance (factor * widthPmos)%num PMOS T tech in
  let gm := CalculateTransconductance widthPmos PMOS tech in
  let '(_, riseTime) := horowitz (resPullUp * capLoad)%num (#1 / (resPullUp * gm))%num (lit 1 20) in
  let? resPullDown := CalculateOnResistance (factor * widthNmos)%num NMOS T tech in
  let gm := CalculateTransconductance (factor * widthNmos)%num NMOS tech in
  let beta := (#1 / (resPullDown * gm))%num in
  let '(_, fallTime) := horowitz (resPullDown * capLoad)%num beta riseTime in
  let '(delayFO4, _) := horowitz (resPullDown * (co + #4 * ci))%num beta (lit 1 20) in
  Ret (fallTime, resPullDown, gm, delayFO4).

(** The width of the driver of a low swing wire. *)
Definition driver_width (widthNmos resPullDown delayFO4 capWire resWire : F) : F :=
  (let resDriver := (#(-8) * delayFO4 / (nlog (lit 5 (-1)) * capWire)) / lit 86 (-1) in
   let w := resPullDown * widthNmos / resDriver in
   let w := MIN w (#100 * Process.featureSize tech) in
   let w := MAX w (MIN_NMOS_SIZE * Process.featureSize tech) in
   if resWire * capWire >? #8 * delayFO4 then InputParameter.maxNmosSize ip * Process.featureSize tech else w)%num.

(** The gate capacitance of the driver and the size of the inverter before it. *)
Definition inverter_size (widthNmos widthPmos widthNmosDriver : F) : Outcome (F * F) :=
  let pn := Process.pnSizeRatio tech in
  let? (capGateDriver, _) := CalculateGateCapacitance INV 1 widthNmosDriver (of_Z 0) region40 tech in
  let? (ci, _) := CalculateGateCapacitance INV 1 (#2 * widthNmos)%num (#2 * widthPmos)%num region40 tech in
  let stageEffort := nsqrt (((#2 + pn) / (#1 + pn)) * capGateDriver / ci)%num in
  let reqCin := ((((#2 + pn) / (#1 + pn)) * capGateDriver) / stageEffort)%num in
  let? (ci, _) := CalculateGateCapacitance INV 1 widthNmos widthPmos region40 tech in
  Ret (capGateDriver, MAX (reqCin / ci)%num (of_Z 1)).

(** The NAND and the inverter of the transmitter: figures and output ramp. *)
Definition transmitter (widthNmos widthPmos size capGateDriver rampInput resPullDown gm : F) : Outcome (Figures * F) :=
  let vdd := Process.vdd tech in
  let resPullDown := (resPullDown * #2)%num in
  let? (_, capNandOutput) := CalculateGateCapacitance NAND 2 (#2 * widthNmos)%num widthPmos region40 tech in
  let? (ci, co) := CalculateGateCapacitance INV 1 (size * widthNmos)%num (size * widthPmos)%num region40 tech in
  let capLoad := (capNandOutput + ci)%num in
  let '(d1, ramp) := horowitz (resPullDown * capLoad)%num (#1 / (resPullDown * gm))%num rampInput in
  let e1 := (capLoad * vdd * vdd)%num in
  let? resPullDown := CalculateOnResistance (factor * size * widthNmos)%num NMOS T tech in
  let gm := CalculateTransconductance (factor * widthNmos)%num NMOS tech in
  let capLoad := (co + capGateDriver)%num in
  let '(d2, ramp) := horowitz (resPullDown * capLoad)%num (#1 / (resPullDown * gm))%num ramp in
  let? l1 := CalculateGateLeakage INV 1 (size * widthNmos)%num (size * widthPmos)%num T tech in
  let? l2 := CalculateGateLeakage NAND 2 (#2 * widthNmos)%num widthPmos T tech in
  Ret (mkFigures (d1 + d2) (e1 + capLoad * vdd * vdd) ((#2 * vdd * l1 + #2 * vdd * l2) * #2), ramp)%num.

(** A low swing wire; delay and power of its sense amplifier are never computed. *)
Definition low_swing (_wireLength : F) (w : t F) : Outcome (t F * Figures) :=
  let fs := Process.featureSize tech in
  let widthNmos := (MIN_NMOS_SIZE * fs)%num in
  let widthPmos := (widthNmos * Process.pnSizeRatio tech)%num in
  let? (rampInput, resPullDown, gm, delayFO4) := transmitter_input widthNmos widthPmos in
  let capWire := (capWirePerUnit w * _wireLength)%num in
  let resWire := (resWirePerUnit w * _wireLength)%num in
  let driver := driver_width widthNmos resPullDown delayFO4 capWire resWire in
  let? (capGateDriver, size) := inverter_size widthNmos widthPmos driver in
  let? (x, rampInput) := transmitter widthNmos widthPmos size capGateDriver rampInput resPullDown gm in
  let? sa := SenseAmp.Initialize tech 1 false minSenseVoltage (of_Z 1) None SenseAmp.SenseAmp in
  let? sa := SenseAmp.CalculateRC tech sa in
  let? drainCapDriver := CalculateDrainCap (factor * driver)%num NMOS region40 tech in
  let capLoad := (capWire + drainCapDriver * #2 + SenseAmp.capLoad sa)%num in
  let? resPullDown := CalculateOnResistance (factor * driver)%num NMOS T tech in
  let gm := CalculateTransconductance (factor * driver)%num NMOS tech in
  let tr := (resPullDown * lit 86 (-1) * (capWire + drainCapDriver * #2) + capWire * resWire / #2
             + (resPullDown + resWire) * SenseAmp.capLoad sa)%num in
  let '(d, _) := horowitz tr (#1 / (resPullDown * gm))%num rampInput in
  let? l := CalculateGateLeakage INV 1 driver (of_Z 0) T tech in
  let u := SenseAmp.fu sa in
  Ret (w <| senseAmp := Some sa |>,
       mkFigures (delay x + d + FunctionUnit.readLatency u)
         ((dynamicEnergy x + capLoad * lit 1 (-1) * lit 4 (-1)) * #2 + FunctionUnit.readDynamicEnergy u)
         (leakagePower x + #4 * Process.vdd tech * l + FunctionUnit.leakage u))%num.

Definition CalculateLatencyAndPower (_wireLength : F) (before : Figures) (w : t F) : Outcome (t F * Figures) :=
  if negb (initialized w) then Ret (w, before)
  else if isLowSwing w then
    if bool_decide (wireRepeaterType w = repeated_none) then low_swing _wireLength w
    else Exit "Error: Low Swing Wires with Repeaters is not supported in this version!"
  else if bool_decide (wireRepeaterType w = repeated_none) then
    Ret (w, mkFigures (lit 23 (-1) * resWirePerUnit w * capWirePerUnit w * _wireLength * _wireLength / #2)
              (capWirePerUnit w * _wireLength * Process.vdd tech * Process.vdd tech) #0)%num
  else
    let? d := getRepeatedWireUnitDelay w in
    let? e := getRepeatedWireUnitDynamicEnergy w in
    let? l := getRepeatedWireUnitLeakage w in
    Ret (w, mkFigures (d * _wireLength) (e * _wireLength) (l * _wireLength))%num.

(** Wire::operator=: the resistances of the single metals and the sense amplifier
    are not copied. *)
Definition assign (this rhs : t F) : t F :=
  rhs <| resWirePerUnit_M0 := resWirePerUnit_M0 this |> <| resWirePerUnit_M1 := resWirePerUnit_M1 this |>
      <| senseAmp := senseAmp this |>.

End Operations.
End Wire.
