(* ===== verification/MatData.v ===== *)
(** * Mats: data

    Mat.h: the innermost array of cells with its decoders, precharger, muxes and
    sense amplifiers, and the results it keeps.  The components are the models of
    their own files; [Extended] is the [long double] arithmetic of the folded
    layout, and [Flow] the early returns of [Initialize]. *)
From S2P Require Import Prelude Numeric RealNum Types InputParameter Process Formula Circuit OutputDriver Decoders BinarySenseAmp Peripherals Tsv Aos Cell Wires.
From stdpp Require Import base list strings.
From Stdlib Require Import ZArith Lia Floats Reals.
Open Scope Z_scope.

(** ** [long double]

    The operations of the folding code: 64-bit significand on the target, the
    exact operations on the reals. *)
Class Extended (F : Type) : Type := {
  ld : Type;
  x_of : F -> ld;
  x_to : ld -> F;
  x_int : Z -> ld;
  xadd : ld -> ld -> ld;
  xmul : ld -> ld -> ld;
  xdiv : ld -> ld -> ld;
  xceil : ld -> ld;
  xltb : ld -> ld -> bool;
  xleb : ld -> ld -> bool;
  xfinite : ld -> bool;
  xtrunc : ld -> Z
}.

Declare Scope ld_scope.
Delimit Scope ld_scope with ld.
Notation "x + y" := (xadd x y) : ld_scope.
Notation "x * y" := (xmul x y) : ld_scope.
Notation "x / y" := (xdiv x y) : ld_scope.
Notation "x <? y" := (xltb x y) : ld_scope.
Notation "x <=? y" := (xleb x y) : ld_scope.

#[export] Instance R_extended : Extended R := {|
  ld := R;
  x_of := fun x => x;
  x_to := fun x => x;
  x_int := IZR;
  xadd := Rplus;
  xmul := Rmult;
  xdiv := Rdiv;
  xceil := nceil;
  xltb := Rltb;
  xleb := Rleb;
  xfinite := fun _ => true;
  xtrunc := Rtrunc
|}.

(** The x87 format: 64 bits of precision, 15 of exponent. *)
Definition x_prec : Z := 64.
Definition x_emax : Z := 16384.
Definition x_norm (s : spec_float) : spec_float :=
  match s with S754_finite b m e => binary_normalize x_prec x_emax (if b then Zneg m else Zpos m) e b | _ => s end.
Definition x_ceil (s : spec_float) : spec_float :=
  match s with
  | S754_finite b m e =>
      let t := sf_trunc b m e in
      let up := if (0 <=? e) || (Zpos m mod 2 ^ (- e) =? 0) || b then t else t + 1 in
      if up =? 0 then S754_zero b else binary_normalize x_prec x_emax up 0 false
  | _ => s
  end.
Definition x_narrow (s : spec_float) : spec_float :=
  match s with S754_finite b m e => binary_normalize prec emax (if b then Zneg m else Zpos m) e b | _ => s end.

#[export] Instance float_extended : Extended float := {|
  ld := spec_float;
  x_of := fun x => x_norm (Prim2SF x);
  x_to := fun x => SF2Prim (x_narrow x);
  x_int := fun z => binary_normalize x_prec x_emax z 0 false;
  xadd := SFadd x_prec x_emax;
  xmul := SFmul x_prec x_emax;
  xdiv := SFdiv x_prec x_emax;
  xceil := x_ceil;
  xltb := SFltb;
  xleb := SFleb;
  xfinite := fun x => match x with S754_zero _ | S754_finite _ _ _ => true | _ => false end;
  xtrunc := fun x => match x with S754_finite b m e => sf_trunc b m e | _ => 0 end
|}.

(** [ceil(4 * (1024 + 512) * 1.1L)], the factor rounded to [double] first. *)
Example x_ceil_example :
  xtrunc (xceil ((x_int 4 * (x_int 1024 + x_int 512)) * x_of (1.1)%float)%ld) = 6759.
Proof. vm_compute. reflexivity. Qed.

(** DRAMTimingResult *)
Module Timing.
Record t (F : Type) : Type := mk {
  accessLatency : F;
  restoreDelay : F;
  readCycleLatency : F;
  writeBitlineDelay : F
}.
Arguments mk {_} _ _ _ _.
Arguments accessLatency {_} _.
Arguments restoreDelay {_} _.
Arguments readCycleLatency {_} _.
Arguments writeBitlineDelay {_} _.
#[global] Instance eta {F : Type} : RecordEta (t F) := fun x =>
  mk (accessLatency x) (restoreDelay x) (readCycleLatency x) (writeBitlineDelay x).
Definition zero {F : Type} `{Num F} : t F := let z := of_Z 0 in mk z z z z.
End Timing.

(** GcDRAMPowerResult *)
Module GcPower.
Record t (F : Type) : Type := mk {
  readBitlineAccessEnergy : F;
  writeBitlineAccessEnergy : F;
  writeDriverEnergy : F;
  aosLeakageUpperBound : F
}.
Arguments mk {_} _ _ _ _.
Arguments readBitlineAccessEnergy {_} _.
Arguments writeBitlineAccessEnergy {_} _.
Arguments writeDriverEnergy {_} _.
Arguments aosLeakageUpperBound {_} _.
#[global] Instance eta {F : Type} : RecordEta (t F) := fun x =>
  mk (readBitlineAccessEnergy x) (writeBitlineAccessEnergy x) (writeDriverEnergy x) (aosLeakageUpperBound x).
Definition zero {F : Type} `{Num F} : t F := let z := of_Z 0 in mk z z z z.
End GcPower.

(** M3DLayoutResult *)
Module Layout.
Inductive DominantTier : Set := none | logic | memory.
Record t (F : Type) : Type := mk {
  mivsPerTier : Z;
  totalMivCount : Z;
  totalMivArea : F;
  peripheralLogicArea : F;
  finalLogicLayerArea : F;
  perTierMemoryArea : F;
  projectedArea : F;
  dominantTier : DominantTier
}.
Arguments mk {_} _ _ _ _ _ _ _ _.
Arguments mivsPerTier {_} _.
Arguments totalMivCount {_} _.
Arguments totalMivArea {_} _.
Arguments peripheralLogicArea {_} _.
Arguments finalLogicLayerArea {_} _.
Arguments perTierMemoryArea {_} _.
Arguments projectedArea {_} _.
Arguments dominantTier {_} _.
#[global] Instance eta {F : Type} : RecordEta (t F) := fun x =>
  mk (mivsPerTier x) (totalMivCount x) (totalMivArea x) (peripheralLogicArea x) (finalLogicLayerArea x)
    (perTierMemoryArea x) (projectedArea x) (dominantTier x).
Definition zero {F : Type} `{Num F} : t F := let z := of_Z 0 in mk 0 0 z z z z z none.
End Layout.

Module Mat.
Import Formula.

(** Mat.h *)
Record t (F : Type) : Type := mk {
  fu : FunctionUnit.t F;
  initialized : bool;
  invalid : bool;
  internalSenseAmp : bool;
  numRow : Z;
  numColumn : Z;
  multipleRowPerSet : bool;
  split : bool;
  muxSenseAmp : Z;
  muxOutputLev1 : Z;
  muxOutputLev2 : Z;
  areaOptimizationLevel : BufferDesignTarget;
  tsvType : TSV_type;
  num3DLevels : Z;
  capWordlineRead : F;
  capBitlineRead : F;
  voltageSense : bool;
  senseVoltage : F;
  voltagePrecharge : F;
  numSenseAmp : Z;
  lenWordline : F;
  lenBitline : F;
  capWordline : F;
  capBitline : F;
  capPlateline : F;
  resWordline : F;
  resBitline : F;
  resPlateline : F;
  resReadWordline : F;
  resWriteBitline : F;
  resCellAccess : F;
  resCellAccessOff : F;
  capCellAccess : F;
  resMemCellOff : F;
  resMemCellOn : F;
  voltageMemCellOff : F;
  voltageMemCellOn : F;
  resInSerialForSenseAmp : F;
  resEquivalentOn : F;
  resEquivalentOff : F;
  bitlineDelay : F;
  sensingBitlineReadEnergy : F;
  sensingMuxInputReadEnergy : F;
  readBitlineDelay : F;
  writeBitlineDelay : F;
  chargeLatency : F;
  chargeReadLatency : F;
  columnDecoderLatency : F;
  bitlineDelayOn : F;
  bitlineDelayOff : F;
  logicArea : F;
  logicWidth : F;
  logicHeight : F;
  memoryArea : F;
  memoryWidth : F;
  memoryHeight : F;
  areaRatio : F;
  stackedMemTiers : Z;
  resReadCellAccess : F;
  resReadCellAccessOff : F;
  capReadCellAccess : F;
  capReadCellGate : F;
  resWriteCellAccess : F;
  resWriteCellAccessOff : F;
  capWriteCellAccess : F;
  capWriteCellGate : F;
  largerLine : Z;
  dramTiming : Timing.t F;
  gcDramPower : GcPower.t F;
  m3d : Layout.t F;
  aosLeakageUpperBound : F;
  aosAccessOperatingPoint : AOS.Point.t F;
  aosReadOperatingPoint : AOS.Point.t F;
  aosWriteOperatingPoint : AOS.Point.t F;
  widthInvN : F;
  widthInvP : F;
  wInv : F;
  hInv : F;
  drivecapin : F;
  drivecapout : F;
  targetdriveres : F;
  sectionres : F;
  sectioncap : F;
  sectionresMux : F;
  sectioncapMux : F;
  activityRowRead : F;
  activityRowWrite : F;
  gateCapRep : F;
  numRepeaters : Z;
  bufferSizeRatio : F;
  rowDecoder : RowDecoder.t F;
  gcRowDecoder : RowDecoder.t F;
  plateLineDecoder : RowDecoder.t F;
  bitlineMuxDecoder : RowDecoder.t F;
  bitlineMux : Mux.t F;
  senseAmpMuxLev1Decoder : RowDecoder.t F;
  senseAmpMuxLev1 : Mux.t F;
  senseAmpMuxLev2Decoder : RowDecoder.t F;
  senseAmpMuxLev2 : Mux.t F;
  precharger : Precharger.t F;
  writeDriver : Precharger.t F;
  senseAmp : SenseAmp.t F;
  tsvArray : TSV.t F
}.
Arguments mk {_} _ _ _ _ _ _ _ _ _ _ _ _ _ _ _ _ _ _ _ _ _ _ _ _ _ _ _ _ _ _ _ _ _ _ _ _ _ _ _ _ _ _ _ _ _ _ _ _
    _ _ _ _ _ _ _ _ _ _ _ _ _ _ _ _ _ _ _ _ _ _ _ _ _ _ _ _ _ _ _ _ _ _ _ _ _ _ _ _ _ _ _ _ _ _ _ _ _ _ _ _ _ _
    _.
Arguments fu {_} _.
Arguments initialized {_} _.
Arguments invalid {_} _.
Arguments internalSenseAmp {_} _.
Arguments numRow {_} _.
Arguments numColumn {_} _.
Arguments multipleRowPerSet {_} _.
Arguments split {_} _.
Arguments muxSenseAmp {_} _.
Arguments muxOutputLev1 {_} _.
Arguments muxOutputLev2 {_} _.
Arguments areaOptimizationLevel {_} _.
Arguments tsvType {_} _.
Arguments num3DLevels {_} _.
Arguments capWordlineRead {_} _.
Arguments capBitlineRead {_} _.
Arguments voltageSense {_} _.
Arguments senseVoltage {_} _.
Arguments voltagePrecharge {_} _.
Arguments numSenseAmp {_} _.
Arguments lenWordline {_} _.
Arguments lenBitline {_} _.
Arguments capWordline {_} _.
Arguments capBitline {_} _.
Arguments capPlateline {_} _.
Arguments resWordline {_} _.
Arguments resBitline {_} _.
Arguments resPlateline {_} _.
Arguments resReadWordline {_} _.
Arguments resWriteBitline {_} _.
Arguments resCellAccess {_} _.
Arguments resCellAccessOff {_} _.
Arguments capCellAccess {_} _.
Arguments resMemCellOff {_} _.
Arguments resMemCellOn {_} _.
Arguments voltageMemCellOff {_} _.
Arguments voltageMemCellOn {_} _.
Arguments resInSerialForSenseAmp {_} _.
Arguments resEquivalentOn {_} _.
Arguments resEquivalentOff {_} _.
Arguments bitlineDelay {_} _.
Arguments sensingBitlineReadEnergy {_} _.
Arguments sensingMuxInputReadEnergy {_} _.
Arguments readBitlineDelay {_} _.
Arguments writeBitlineDelay {_} _.
Arguments chargeLatency {_} _.
Arguments chargeReadLatency {_} _.
Arguments columnDecoderLatency {_} _.
Arguments bitlineDelayOn {_} _.
Arguments bitlineDelayOff {_} _.
Arguments logicArea {_} _.
Arguments logicWidth {_} _.
Arguments logicHeight {_} _.
Arguments memoryArea {_} _.
Arguments memoryWidth {_} _.
Arguments memoryHeight {_} _.
Arguments areaRatio {_} _.
Arguments stackedMemTiers {_} _.
Arguments resReadCellAccess {_} _.
Arguments resReadCellAccessOff {_} _.
Arguments capReadCellAccess {_} _.
Arguments capReadCellGate {_} _.
Arguments resWriteCellAccess {_} _.
Arguments resWriteCellAccessOff {_} _.
Arguments capWriteCellAccess {_} _.
Arguments capWriteCellGate {_} _.
Arguments largerLine {_} _.
Arguments dramTiming {_} _.
Arguments gcDramPower {_} _.
Arguments m3d {_} _.
Arguments aosLeakageUpperBound {_} _.
Arguments aosAccessOperatingPoint {_} _.
Arguments aosReadOperatingPoint {_} _.
Arguments aosWriteOperatingPoint {_} _.
Arguments widthInvN {_} _.
Arguments widthInvP {_} _.
Arguments wInv {_} _.
Arguments hInv {_} _.
Arguments drivecapin {_} _.
Arguments drivecapout {_} _.
Arguments targetdriveres {_} _.
Arguments sectionres {_} _.
Arguments sectioncap {_} _.
Arguments sectionresMux {_} _.
Arguments sectioncapMux {_} _.
Arguments activityRowRead {_} _.
Arguments activityRowWrite {_} _.
Arguments gateCapRep {_} _.
Arguments numRepeaters {_} _.
Arguments bufferSizeRatio {_} _.
Arguments rowDecoder {_} _.
Arguments gcRowDecoder {_} _.
Arguments plateLineDecoder {_} _.
Arguments bitlineMuxDecoder {_} _.
Arguments bitlineMux {_} _.
Arguments senseAmpMuxLev1Decoder {_} _.
Arguments senseAmpMuxLev1 {_} _.
Arguments senseAmpMuxLev2Decoder {_} _.
Arguments senseAmpMuxLev2 {_} _.
Arguments precharger {_} _.
Arguments writeDriver {_} _.
Arguments senseAmp {_} _.
Arguments tsvArray {_} _.
#[global] Instance eta {F : Type} : RecordEta (t F) := fun x =>
  mk (fu x) (initialized x) (invalid x) (internalSenseAmp x) (numRow x) (numColumn x) (multipleRowPerSet x)
    (split x) (muxSenseAmp x) (muxOutputLev1 x) (muxOutputLev2 x) (areaOptimizationLevel x) (tsvType x)
    (num3DLevels x) (capWordlineRead x) (capBitlineRead x) (voltageSense x) (senseVoltage x)
    (voltagePrecharge x) (numSenseAmp x) (lenWordline x) (lenBitline x) (capWordline x) (capBitline x)
    (capPlateline x) (resWordline x) (resBitline x) (resPlateline x) (resReadWordline x) (resWriteBitline x)
    (resCellAccess x) (resCellAccessOff x) (capCellAccess x) (resMemCellOff x) (resMemCellOn x)
    (voltageMemCellOff x) (voltageMemCellOn x) (resInSerialForSenseAmp x) (resEquivalentOn x)
    (resEquivalentOff x) (bitlineDelay x) (sensingBitlineReadEnergy x) (sensingMuxInputReadEnergy x)
    (readBitlineDelay x) (writeBitlineDelay x) (chargeLatency x) (chargeReadLatency x) (columnDecoderLatency x)
    (bitlineDelayOn x) (bitlineDelayOff x) (logicArea x) (logicWidth x) (logicHeight x) (memoryArea x)
    (memoryWidth x) (memoryHeight x) (areaRatio x) (stackedMemTiers x) (resReadCellAccess x)
    (resReadCellAccessOff x) (capReadCellAccess x) (capReadCellGate x) (resWriteCellAccess x)
    (resWriteCellAccessOff x) (capWriteCellAccess x) (capWriteCellGate x) (largerLine x) (dramTiming x)
    (gcDramPower x) (m3d x) (aosLeakageUpperBound x) (aosAccessOperatingPoint x) (aosReadOperatingPoint x)
    (aosWriteOperatingPoint x) (widthInvN x) (widthInvP x) (wInv x) (hInv x) (drivecapin x) (drivecapout x)
    (targetdriveres x) (sectionres x) (sectioncap x) (sectionresMux x) (sectioncapMux x) (activityRowRead x)
    (activityRowWrite x) (gateCapRep x) (numRepeaters x) (bufferSizeRatio x) (rowDecoder x) (gcRowDecoder x)
    (plateLineDecoder x) (bitlineMuxDecoder x) (bitlineMux x) (senseAmpMuxLev1Decoder x) (senseAmpMuxLev1 x)
    (senseAmpMuxLev2Decoder x) (senseAmpMuxLev2 x) (precharger x) (writeDriver x) (senseAmp x) (tsvArray x).

(** The arrays of [inputParameter] that remember the repeaters chosen for a number
    of columns. *)
Record Memo (F : Type) : Type := mkMemo {
  optNumRepeaters : list Z;
  optSizeRepeaters : list F
}.
Arguments mkMemo {_} _ _.
Arguments optNumRepeaters {_} _.
Arguments optSizeRepeaters {_} _.

(** A block of [Initialize] goes on with a value ([inl]) or returns ([inr]). *)
Definition Flow (F A : Type) : Type := Outcome (A + t F).

Definition next {F A : Type} (a : A) : Flow F A := Ret (inl a).
Definition lift {F A : Type} (m : Outcome A) : Flow F A := let? a := m in next a.
Definition flow_bind {F A B : Type} (m : Flow F A) (k : A -> Flow F B) : Flow F B :=
  let? r := m in match r with inl a => k a | inr m => Ret (inr m) end.
(** The object when the function returns. *)
Definition finish {F : Type} (m : Flow F (t F)) : Outcome (t F) :=
  let? r := m in match r with inl m => Ret m | inr m => Ret m end.

(** [invalid = true; initialized = true; return;], and without the flag. *)
Definition reject {F A : Type} (m : t F) : Flow F A := Ret (inr (m <| invalid := true |> <| initialized := true |>)).
Definition leave {F A : Type} (m : t F) : Flow F A := Ret (inr (m <| invalid := true |>)).

Section Helpers.
Context {F : Type} `{Num F}.

(** Mat::Mat, with the initialisers of Mat.h *)
Definition Mat : t F :=
  let z : F := of_Z 0 in
  {|
    fu := FunctionUnit.FunctionUnit;
    initialized := false;
    invalid := false;
    internalSenseAmp := false;
    numRow := 0;
    numColumn := 0;
    multipleRowPerSet := false;
    split := false;
    muxSenseAmp := 0;
    muxOutputLev1 := 0;
    muxOutputLev2 := 0;
    areaOptimizationLevel := latency_first;
    tsvType := Fine;
    num3DLevels := 0;
    capWordlineRead := z;
    capBitlineRead := z;
    voltageSense := false;
    senseVoltage := z;
    voltagePrecharge := z;
    numSenseAmp := 0;
    lenWordline := z;
    lenBitline := z;
    capWordline := z;
    capBitline := z;
    capPlateline := z;
    resWordline := z;
    resBitline := z;
    resPlateline := z;
    resReadWordline := z;
    resWriteBitline := z;
    resCellAccess := z;
    resCellAccessOff := z;
    capCellAccess := z;
    resMemCellOff := z;
    resMemCellOn := z;
    voltageMemCellOff := z;
    voltageMemCellOn := z;
    resInSerialForSenseAmp := z;
    resEquivalentOn := z;
    resEquivalentOff := z;
    bitlineDelay := z;
    sensingBitlineReadEnergy := z;
    sensingMuxInputReadEnergy := z;
    readBitlineDelay := z;
    writeBitlineDelay := z;
    chargeLatency := z;
    chargeReadLatency := z;
    columnDecoderLatency := z;
    bitlineDelayOn := z;
    bitlineDelayOff := z;
    logicArea := z;
    logicWidth := z;
    logicHeight := z;
    memoryArea := z;
    memoryWidth := z;
    memoryHeight := z;
    areaRatio := z;
    stackedMemTiers := 1;
    resReadCellAccess := z;
    resReadCellAccessOff := z;
    capReadCellAccess := z;
    capReadCellGate := z;
    resWriteCellAccess := z;
    resWriteCellAccessOff := z;
    capWriteCellAccess := z;
    capWriteCellGate := z;
    largerLine := 0;
    dramTiming := Timing.zero;
    gcDramPower := GcPower.zero;
    m3d := Layout.zero;
    aosLeakageUpperBound := z;
    aosAccessOperatingPoint := AOS.no_point;
    aosReadOperatingPoint := AOS.no_point;
    aosWriteOperatingPoint := AOS.no_point;
    widthInvN := z;
    widthInvP := z;
    wInv := z;
    hInv := z;
    drivecapin := z;
    drivecapout := z;
    targetdriveres := z;
    sectionres := z;
    sectioncap := z;
    sectionresMux := z;
    sectioncapMux := z;
    activityRowRead := z;
    activityRowWrite := z;
    gateCapRep := z;
    numRepeaters := 0;
    bufferSizeRatio := of_Z 1;
    rowDecoder := RowDecoder.RowDecoder;
    gcRowDecoder := RowDecoder.RowDecoder;
    plateLineDecoder := RowDecoder.RowDecoder;
    bitlineMuxDecoder := RowDecoder.RowDecoder;
    bitlineMux := Mux.Mux;
    senseAmpMuxLev1Decoder := RowDecoder.RowDecoder;
    senseAmpMuxLev1 := Mux.Mux;
    senseAmpMuxLev2Decoder := RowDecoder.RowDecoder;
    senseAmpMuxLev2 := Mux.Mux;
    precharger := Precharger.Precharger;
    writeDriver := Precharger.Precharger;
    senseAmp := SenseAmp.SenseAmp;
    tsvArray := TSV.TSV
  |}.

(** An integer quotient. *)
Definition quotient (a b : Z) : Outcome Z := if b =? 0 then Exit undefined else Ret (Z.quot a b).

Definition IsFinitePositive (value : F) : bool := nfinite value && (value >? #0)%num.
Definition IsFiniteNonNegative (value : F) : bool := nfinite value && (value >=? #0)%num.
Definition AreFiniteNonNegative (values : list F) : bool := forallb IsFiniteNonNegative values.

(** ExactSettlingDelay: the delay and the ramp of the output. *)
Definition ExactSettlingDelay (settlingTime rampInput : F) : F * F :=
  horowitz (settlingTime / nabs (nlog (lit 5 (-1))))%num (of_Z 0) rampInput.

(** The members of the local wire the precharger reads. *)
Definition wire_view (w : Wires.Wire.t F) : Circuit.Wire.t F :=
  Circuit.Wire.mk (Wires.Wire.wireType w) (Wires.Wire.wireRepeaterType w) (Wires.Wire.isLowSwing w)
    (Wires.Wire.repeaterSpacing w) (Wires.Wire.repeaterHeight w) (Wires.Wire.repeatedWirePitch w)
    (Wires.Wire.resWirePerUnit w) (Wires.Wire.capWirePerUnit w).

(** What a subarray, a bank or a result reads of a mat. *)
Definition view (m : t F) : Circuit.Mat.t F :=
  let read (r : RowDecoder.t F) := FunctionUnit.readLatency (RowDecoder.fu r) in
  Circuit.Mat.mk (fu m) (invalid m) (numRow m) (numColumn m) (columnDecoderLatency m) (read (rowDecoder m))
    (read (gcRowDecoder m)) (FunctionUnit.readLatency (Precharger.fu (precharger m))) (Timing.readCycleLatency (dramTiming m))
    (resBitline m) (capBitline m) (voltagePrecharge m) (voltageMemCellOn m) (voltageMemCellOff m) (resMemCellOn m)
    (resMemCellOff m) (resEquivalentOn m) (resEquivalentOff m) (bitlineDelay m) (bitlineDelayOn m) (bitlineDelayOff m)
    (stackedMemTiers m).

End Helpers.
End Mat.

Notation "'let>' x ':=' m 'in' k" := (Mat.flow_bind m (fun x => k))
  (at level 10, x pattern, m at level 200, k at level 200,
   format "'let>'  x  ':='  m  'in'  '//' k") : cpp_scope.
