(* ===== verification/MatInit.v ===== *)
(** * Mats: initialisation

    Mat.cpp, [Mat::CalculateRepeater] and [Mat::Initialize]: the legality of a
    configuration, the currents the drivers must carry, the electrical loads per
    kind of cell, the repeaters on the wordlines and the components.  [Initialize]
    is cut into blocks in the order of the source; a block goes on or returns.
    The globals are arguments: [tech], [devtech], [inputParameter] ([ip]),
    [localWire], [cell], and the repeaters already chosen ([Memo]). *)
From S2P Require Import Prelude Numeric Types InputParameter Process Formula Circuit OutputDriver Decoders BinarySenseAmp Peripherals Tsv Aos Cell Wires MatData.
From stdpp Require Import base list strings.
From Stdlib Require Import ZArith Lia.
Open Scope Z_scope.

Module MatInit.
Import Formula Mat.

Section Operations.
Context {F : Type} `{Num F}.
Context (tech devtech : Process.t F) (ip : InputParameter.t F) (localWire : Wires.Wire.t F) (cell : Cell.t F).

Definition fs : F := Process.featureSize tech.
Definition T : F := of_Z (InputParameter.temperature ip).
Definition kind (x : MemCellType) : bool := bool_decide (Cell.memCellType cell = x).
Definition dram : bool := kind DRAM || kind eDRAM.
Definition resistive : bool := kind MRAM || kind PCRAM || kind memristor.

(** [((tech->featureSize <= 14*1e-9) ? 2 : 1)] *)
Definition advanced : bool := (fs <=? nm 14)%num.
Definition k14 : F := of_Z (if advanced then 2 else 1).

(** [currentOnNmos[temperature - 300]] *)
Definition onNmos : Outcome F := OutputDriver.get (Process.currentOnNmos tech) (InputParameter.temperature ip - 300).
Definition offNmos : Outcome F := OutputDriver.get (Process.currentOffNmos tech) (InputParameter.temperature ip - 300).

(** ** Repeaters *)

(** A buffer [size] times the minimum: its target resistance and the widths. *)
Definition repeater_widths (size : F) : Outcome (F * F * F) :=
  let? target := CalculateOnResistance (k14 * fs * size)%num NMOS T tech in
  let? n := CalculateOnResistance (k14 * fs)%num NMOS T tech in
  let? p := CalculateOnResistance (k14 * fs)%num PMOS T tech in
  let fit (w : F) := if advanced then (#2 * nceil (w / fs) * fs)%num else w in
  Ret (target, fit (n / target * fs)%num, fit (p / target * fs)%num).

Definition repeater_gate (n p : F) : F :=
  (CalculateGateCap (k14 * n * fs) tech + CalculateGateCap (k14 * p * fs) tech)%num.

(** One inverter of a repeater: the time constant is a function of its resistance. *)
Definition repeater_inverter (widthInvN : F) (tr : F -> F) (s : F * F) : Outcome (F * F) :=
  let '(latency, ramp) := s in
  let? resPullDown := CalculateOnResistance (k14 * widthInvN)%num NMOS T tech in
  let gm := CalculateTransconductance (k14 * widthInvN)%num NMOS tech in
  let beta := (#1 / (resPullDown * gm))%num in
  let '(delay, ramp) := horowitz (tr resPullDown) beta ramp in
  Ret ((latency + delay)%num, ramp).

(** A chain of [n] repeaters of two inverters each. *)
Definition repeater_chain (n : Z) (widthInvN repCap sectionres sectioncap load : F) (s : F * F) : Outcome (F * F) :=
  OutputDriver.stages n (fun s k =>
    let capLoad := if k =? 0 then load else (repCap + load)%num in
    let? s := repeater_inverter widthInvN (fun res => res * #2 * repCap + repCap * sectionres / #2)%num s in
    repeater_inverter widthInvN (fun res => res * capLoad + sectioncap * sectionres / #2)%num s) s.

(** The state of the search: the ramp of the last chain, the best product so far. *)
Record Choice : Type := mkChoice { ramp : F; optEDP : F; optNumber : Z; optSize : F }.

(** The energy-delay product of [n] repeaters of size [j]. *)
Definition repeater_EDP (m : t F) (n j : Z) (rampInput : F) : Outcome (F * F) :=
  let vdd := Process.vdd tech in
  let sectionresLoc := (resWordline m / #(n + 1))%num in
  let sectioncapLoc := (capWordline m / #(n + 1))%num in
  let? (_, widthN, widthP) := repeater_widths (of_Z j) in
  let? leak := CalculateGateLeakage INV 1 widthN widthP T tech in
  let energy := (leak * #n * #2 + sectioncap m * vdd * vdd * #n * #2 * activityRowRead m + #1)%num in
  let? (latency, rampOut) := repeater_chain n widthN (repeater_gate widthN widthP) sectionresLoc sectioncapLoc
                               sectioncapLoc (of_Z 0, rampInput) in
  Ret (((latency + #1) * energy)%num, rampOut).

Definition MAX_NMOS_SIZE : Z := 100.

Definition try_size (m : t F) (n : Z) (c : Choice) (j : Z) : Outcome Choice :=
  let? (currentEDP, rampOut) := repeater_EDP m n j (ramp c) in
  Ret (if (currentEDP <? optEDP c)%num then mkChoice rampOut currentEDP n (of_Z j)
       else mkChoice rampOut (optEDP c) (optNumber c) (optSize c)).

(** All sizes for [2^i - 1] repeaters. *)
Definition try_number (m : t F) (s : Z * Choice) : Outcome (Z * Choice) :=
  let '(i, c) := s in
  let n := trunc (npow #2 #i - #1)%num in
  let? c := outcome_fold (try_size m n) (seqZ 1 MAX_NMOS_SIZE) c in
  Ret (i + 1, c).

(** The exponents run below [log2(numCol)], at most 31. *)
Definition search (m : t F) (numCol : Z) : Outcome Choice :=
  let? (_, c) := loop 32 (fun '(i, _) => (#i <? nlog2 #numCol)%num) (try_number m)
                   (1, mkChoice (lit 1 20) (lit 35 29) 0 (of_Z 0)) in
  Ret c.

(** Mat::CalculateRepeater *)
Definition CalculateRepeater (numCol : Z) (memo : Memo F) (m : t F) : Outcome (t F * Memo F) :=
  if negb (InputParameter.addRepeaters ip) then Ret (m <| numRepeaters := 0 |> <| bufferSizeRatio := lit 10 (-1) |>, memo)
  else
    let slot := trunc (nlog2 #numCol)%num in
    let? known := OutputDriver.get (optNumRepeaters memo) slot in
    if negb (known =? 0) then
      let? size := OutputDriver.get (optSizeRepeaters memo) slot in
      Ret (m <| numRepeaters := known |> <| bufferSizeRatio := size |>, memo)
    else
      let? c := search m numCol in
      let? nums := OutputDriver.put (optNumRepeaters memo) slot (optNumber c) in
      let? sizes := OutputDriver.put (optSizeRepeaters memo) slot (optSize c) in
      Ret (m <| numRepeaters := optNumber c |> <| bufferSizeRatio := optSize c |>, mkMemo nums sizes).

(** ** Mat::Initialize *)

(** The arguments are stored and the results reset. *)
Definition arguments (_numRow _numColumn : Z) (_multipleRowPerSet _split : bool) (_muxSenseAmp : Z) (_internalSenseAmp : bool)
  (_muxOutputLev1 _muxOutputLev2 : Z) (_areaOptimizationLevel : BufferDesignTarget) (_num3DLevels : Z) (m : t F) : t F :=
  m <| numRow := _numRow |> <| numColumn := _numColumn |> <| multipleRowPerSet := _multipleRowPerSet |> <| split := _split |>
    <| muxSenseAmp := _muxSenseAmp |> <| muxOutputLev1 := _muxOutputLev1 |> <| muxOutputLev2 := _muxOutputLev2 |>
    <| internalSenseAmp := _internalSenseAmp |> <| areaOptimizationLevel := _areaOptimizationLevel |>
    <| num3DLevels := _num3DLevels |> <| invalid := false |> <| voltagePrecharge := Process.vdd tech |>
    <| dramTiming := Timing.zero |> <| gcDramPower := GcPower.zero |> <| sensingBitlineReadEnergy := of_Z 0 |>
    <| sensingMuxInputReadEnergy := of_Z 0 |> <| m3d := Layout.zero |> <| aosLeakageUpperBound := of_Z 0 |>
    <| aosAccessOperatingPoint := AOS.no_point |> <| aosReadOperatingPoint := AOS.no_point |>
    <| aosWriteOperatingPoint := AOS.no_point |> <| stackedMemTiers := 1 |>.

(** Counts must be positive; MLC NAND is unfinished. *)
Definition counts (m : t F) : Flow F (t F) :=
  if (numRow m <=? 0) || (numColumn m <=? 0) || (muxSenseAmp m <=? 0) || (muxOutputLev1 m <=? 0) || (muxOutputLev2 m <=? 0)
     || (num3DLevels m <=? 0)
  then reject m
  else if kind MLCNAND then reject m
  else
    let a := (lit 10 (-1) / #(numRow m))%num in
    next (m <| activityRowWrite := a |> <| activityRowRead := a |>).

(** The pages of a flash block. *)
Definition pages : Outcome Z := quotient (InputParameter.flashBlockSize ip) (InputParameter.pageSize ip).

(** Is the configuration legal? *)
Definition legal (m : t F) : Flow F unit :=
  if bool_decide (InputParameter.designTarget ip = cache)
     && negb (bool_decide (InputParameter.cacheAccessMode ip = sequential_access_mode))
     && (numColumn m <? InputParameter.associativity ip)
  then reject m
  else if (dram || kind gcDRAM) && (1 <? muxSenseAmp m) then reject m
  else
    let> short := if kind SLCNAND then lift (let? n := pages in Ret (numRow m <? n)) else next false in
    if short then reject m
    else if (kind SLCNAND || kind memristor || kind FBRAM) && internalSenseAmp m && (muxSenseAmp m <? 2) then reject m
    else if kind FBRAM && (Cell.resistanceOff cell / Cell.resistanceOn cell <? #(numRow m))%num then reject m
    else next tt.

(** [MAX(resetCurrent, setCurrent) + leakage * (numRow - 1)] *)
Definition column_current (m : t F) : F :=
  (MAX (Cell.resetCurrent cell) (Cell.setCurrent cell) + Cell.leakageCurrentAccessDevice cell * #(numRow m - 1))%num.

(** The via of a folded mat. *)
Definition via (m : t F) : Outcome (t F) :=
  if InputParameter.monolithic3DMat ip then
    let? v := TSV.Initialize tech Monolithic false (tsvArray m) in
    Ret (m <| tsvType := Monolithic |> <| tsvArray := v |>)
  else Ret m.

(** [numColumn / muxSenseAmp / muxOutputLev1 / muxOutputLev2] *)
Definition selected (m : t F) : Z :=
  Z.quot (Z.quot (Z.quot (numColumn m) (muxSenseAmp m)) (muxOutputLev1 m)) (muxOutputLev2 m).

(** Half-selected cells limit an array without access transistors. *)
Definition crosspoint (m : t F) : Flow F (F * F) :=
  (let ron := Cell.resistanceOnAtResetVoltage cell in
   let leak := Cell.leakageCurrentAccessDevice cell in
   let none := bool_decide (Cell.accessType cell = none_access) in
   let resetCurrent :=
     if Cell.resetCurrent cell =? #0
     then (nabs (Cell.resetVoltage cell) - Cell.voltageDropAccessDevice cell) / ron
     else Cell.resetCurrent cell in
   let numSelectedColumnPerRow := wrap32 (selected m) in
   let half := resetCurrent * ron / #2 / Cell.resistanceOnAtHalfResetVoltage cell in
   let others := (numColumn m - numSelectedColumnPerRow)%Z in
   let layers := (num3DLevels m - 1)%Z in
   let maxWordlineCurrent :=
     if none : bool
     then resetCurrent * #numSelectedColumnPerRow + half * #others + half * #(numColumn m) * #layers
     else resetCurrent * #numSelectedColumnPerRow + leak * #others + leak * #(numColumn m) * #layers in
   let> on := lift onNmos in
   if (maxWordlineCurrent / on >? InputParameter.maxNmosSize ip * fs) then leave m
   else
     let maxBitlineCurrent :=
       if none : bool then half * #(numRow m) * #layers
       else resetCurrent + leak * #(numRow m - 1) + leak * #(numRow m) * #layers in
     next (maxWordlineCurrent, maxBitlineCurrent))%num.

(** The currents of the wordline and the bitline drivers. *)
Definition currents (m : t F) : Flow F (F * F) :=
  if resistive then
    if bool_decide (Cell.accessType cell = CMOS_access) then
      let> on := lift onNmos in
      let> off := lift offNmos in
      if (on / off <? #(numRow m))%num then reject m else next (of_Z 0, column_current m)
    else crosspoint m
  else next (of_Z 0, if kind FBRAM then column_current m else of_Z 0).

(** The pass transistor that carries the bitline current. *)
Definition mux_width (maxBitlineCurrent : F) (m : t F) : Flow F F :=
  let> on := lift onNmos in
  let w := MAX (MIN_NMOS_SIZE * fs)%num (maxBitlineCurrent / on)%num in
  if (w >? InputParameter.maxNmosSize ip * fs)%num then leave m else next w.

(** The kind of sensing; DRAM must sense within the mat. *)
Definition sensing (m : t F) : Flow F (t F) :=
  if internalSenseAmp m then
    next (m <| voltageSense := if resistive || kind FBRAM then Cell.readMode cell else true |>)
  else if dram || kind gcDRAM then reject m
  else next m.

(** The smallest cell the layout rules allow, in feature sizes. *)
Definition min_cell : F * F :=
  (let pitch := lit 28 (-1) + lit 10 (-1) in
   let scaled (h w : F) := (MAX_TRANSISTOR_HEIGHT * (h / MAX_TRANSISTOR_HEIGHT), pitch * #2 * (w / pitch)) in
   let nano := Process.featureSizeInNano tech in
   if Z.eqb nano 14 then scaled (lit 41142 (-3)) CPP_FINFET
   else if Z.eqb nano 10 then scaled (lit 330 (-1)) (lit 64 (-1))
   else if Z.eqb nano 7 then scaled (lit 34285 (-3)) (lit 81428 (-4))
   else if Z.eqb nano 5 then scaled (lit 360 (-1)) (lit 102 (-1))
   else if Z.eqb nano 3 then scaled (lit 480 (-1)) (lit 160 (-1))
   else if Z.eqb nano 2 then scaled (lit 570 (-1)) (lit 225 (-1))
   else if Z.eqb nano 1 then scaled (lit 800 (-1)) (lit 400 (-1))
   else (MAX_TRANSISTOR_HEIGHT, pitch * #2))%num.

(** The lengths of the wordlines and bitlines, and the sense amplifiers. *)
Definition lengths (m : t F) : Outcome (t F) :=
  (let '(MIN_CELL_HEIGHT, MIN_CELL_WIDTH) := min_cell in
   let w := Cell.widthInFeatureSize cell in
   let h := Cell.heightInFeatureSize cell in
   let '(wl, bl) :=
     if InputParameter.relaxSRAMCell ip
     then (#(numColumn m) * MAX w MIN_CELL_HEIGHT * fs, #(numRow m) * MAX h MIN_CELL_WIDTH * fs)
     else (#(numColumn m) * w * fs,
           if kind gcDRAM
           then #(numRow m + 2) * h * fs * (if Cell.oxideTransistor cell then lit 10 (-1) else lit 5 (-1))
           else #(numRow m) * h * fs) in
   let wl :=
     if Z.eqb (Cell.stitching cell) 0 then wl
     else wl + #(Z.quot (numColumn m - 1) (Cell.stitching cell) + 1) * lit 75 (-1) * Process.featureSize devtech in
   let? bl :=
     if kind SLCNAND then
       let? n := pages in
       let? strings := quotient (numRow m) (wrap32 n) in
       Ret (bl + #(strings * 5) * fs)
     else Ret bl in
   Ret (m <| numSenseAmp := Z.quot (numColumn m) (muxSenseAmp m) |> <| lenWordline := wl |> <| lenBitline := bl |>))%num.

(** The wires, the load of a mux decoder, and the voltage to sense. *)
Definition loads (minBitlineMuxWidth : F) (m : t F) : t F * F * F :=
  (let n := of_Z (num3DLevels m) in
   let cap := Wires.Wire.capWirePerUnit localWire in
   let m := m <| capWordline := lenWordline m * cap * n |>
              <| resWordline := lenWordline m * Wires.Wire.resWirePerUnit_M1 localWire * n |>
              <| capBitline := lenBitline m * cap * n |>
              <| resBitline := lenBitline m * Wires.Wire.resWirePerUnit_M0 localWire * n |> in
   let resMuxLoad := resWordline m in
   let capMuxLoad := CalculateGateCap minBitlineMuxWidth tech * #(numColumn m) + capWordline m in
   let m := m <| senseVoltage :=
                if dram then #0
                else if kind SLCNAND then MAX (Cell.minSenseVoltage cell) (lit 2 (-1) * Process.vdd tech)
                else Cell.minSenseVoltage cell |> in
   (m, resMuxLoad, capMuxLoad))%num.

(** A transistor of the process [pr] as access device: [width] is its size. *)
Definition access_width (pr : Process.t F) (width : F) : F := (k14 * width * Process.featureSize pr)%num.
Definition access_drain (pr : Process.t F) (width : F) : Outcome F :=
  CalculateDrainCap (access_width pr width) NMOS (Cell.widthInFeatureSize cell * Process.featureSize pr)%num pr.

(** The drain of the access transistors on a bitline, shared by two cells. *)
Definition drain_load (m : t F) : F :=
  (if advanced
   then Process.cap_draintotal tech * Cell.widthAccessCMOS cell * Process.effective_width tech * #(numRow m) / #2
   else capCellAccess m * #(numRow m) / #2)%num.

Definition access_SRAM (m : t F) : Outcome (t F) :=
  let w := Cell.widthAccessCMOS cell in
  let? on := CalculateOnResistance (access_width tech w) NMOS T tech in
  let? drain := access_drain tech w in
  let m := m <| resCellAccess := on |> <| capCellAccess := drain |>
             <| capWordline := (capWordline m + #2 * CalculateGateCap (access_width tech w) tech * #(numColumn m))%num |> in
  Ret (m <| capBitline := (capBitline m + drain_load m)%num |> <| voltagePrecharge := (Process.vdd tech / #2)%num |>).

Definition access_DRAM (m : t F) : Outcome (t F) :=
  let? m :=
    if kind eDRAM && Cell.oxideTransistor cell then
      let p := Oxide.operatingPoint (Cell.oxideAccessTransistor cell) in
      let m := m <| aosAccessOperatingPoint := p |> <| resCellAccess := AOS.Point.Ron p |>
                 <| resCellAccessOff := AOS.Point.Roff p |> <| capCellAccess := AOS.Point.Cdrain p |>
                 <| capWordline := (capWordline m + AOS.Point.Cgate p * #(numColumn m))%num |> in
      Ret (m <| capBitline := (capBitline m + capCellAccess m * #(numRow m) / #2)%num |>)
    else
      let w := Cell.widthAccessCMOS cell in
      let? on := CalculateOnResistance (access_width devtech w) NMOS T devtech in
      let? off := CalculateOffResistance (access_width devtech w) NMOS T devtech in
      let? drain := access_drain devtech w in
      let m := m <| resCellAccess := on |> <| resCellAccessOff := off |> <| capCellAccess := drain |>
                 <| capWordline := (capWordline m + CalculateGateCap (access_width devtech w) devtech * #(numColumn m))%num |> in
      Ret (m <| capBitline := (capBitline m + drain_load m)%num |>) in
  Ret (m <| voltagePrecharge := (Process.vdd devtech / #2)%num |>).

(** The voltages over a cell in its two states, when voltages are sensed; with
    [adjust] the bitline is precharged between them. *)
Definition read_levels (adjust : bool) (m : t F) : Flow F (t F) :=
  (if negb (Cell.readMode cell) then next m
   else
     let on := resMemCellOn m in
     let off := resMemCellOff m in
     let m :=
       if Cell.readVoltage cell =? #0
       then m <| voltageMemCellOff := Cell.readCurrent cell * off |> <| voltageMemCellOn := Cell.readCurrent cell * on |>
       else
         let serial := nsqrt (on * off) in
         m <| resInSerialForSenseAmp := serial |> <| resEquivalentOn := on * serial / (on + serial) |>
           <| resEquivalentOff := off * serial / (off + serial) |>
           <| voltageMemCellOff := Cell.readVoltage cell * off / (off + serial) |>
           <| voltageMemCellOn := Cell.readVoltage cell * on / (on + serial) |> in
     let m := if adjust
              then m <| voltagePrecharge := MIN (Process.vdd tech) ((voltageMemCellOff m + voltageMemCellOn m) / #2) |>
              else m in
     if voltagePrecharge m - voltageMemCellOn m <=? senseVoltage m then leave m else next m)%num.

(** Separate read and write paths; the gate of the read transistor is the storage
    node. *)
Definition access_gcDRAM (m : t F) : Flow F (t F) :=
  let m := m <| capWordlineRead := capWordline m |> <| capBitlineRead := capBitline m |> in
  let> m :=
    if Cell.oxideTransistor cell then
      let r := Oxide.operatingPoint (Cell.oxideReadTransistor cell) in
      let w := Oxide.operatingPoint (Cell.oxideWriteTransistor cell) in
      next (m <| aosReadOperatingPoint := r |> <| aosWriteOperatingPoint := w |>
              <| resReadCellAccess := AOS.Point.Ron r |> <| resReadCellAccessOff := AOS.Point.Roff r |>
              <| capReadCellAccess := AOS.Point.Cdrain r |> <| capReadCellGate := AOS.Point.Cgate r |>
              <| resWriteCellAccess := AOS.Point.Ron w |> <| resWriteCellAccessOff := AOS.Point.Roff w |>
              <| capWriteCellAccess := AOS.Point.Cdrain w |> <| capWriteCellGate := AOS.Point.Cgate w |>)
    else
      let w := Cell.widthAccessCMOS cell in
      let> on := lift (CalculateOnResistance (access_width devtech w) NMOS T devtech) in
      let> off := lift (CalculateOffResistance (access_width devtech w) NMOS T devtech) in
      let> drain := lift (access_drain devtech w) in
      let gate := CalculateGateCap (access_width devtech w) devtech in
      next (m <| resCellAccess := on |> <| resCellAccessOff := off |> <| capCellAccess := drain |>
              <| capWriteCellGate := gate |> <| capReadCellGate := gate |>
              <| resWriteCellAccess := on |> <| resReadCellAccess := on |>
              <| resWriteCellAccessOff := off |> <| resReadCellAccessOff := off |>
              <| capWriteCellAccess := drain |> <| capReadCellAccess := drain |>) in
  let rows := of_Z (numRow m) in
  let columns := of_Z (numColumn m) in
  let '(writeLoad, readLoad) :=
    (if negb (Cell.oxideTransistor cell) && advanced then
       let drainLoad := Process.cap_draintotal tech * Cell.widthAccessCMOS cell * Process.effective_width tech in
       (drainLoad * rows / #2, drainLoad * rows)
     else (capWriteCellAccess m * rows / #2, capReadCellAccess m * rows))%num in
  let m := m <| capWordline := (capWordline m + capWriteCellGate m * columns)%num |>
             <| capWordlineRead := (capWordlineRead m + capReadCellAccess m * columns / #2)%num |>
             <| capBitline := (capBitline m + writeLoad)%num |> <| capBitlineRead := (capBitlineRead m + readLoad)%num |>
             <| resCellAccess := resWriteCellAccess m |> <| resCellAccessOff := resWriteCellAccessOff m |>
             <| capCellAccess := capWriteCellAccess m |> <| voltagePrecharge := Process.vdd devtech |>
             <| resMemCellOn := resReadCellAccess m |> <| resMemCellOff := resReadCellAccessOff m |> in
  read_levels false m.

Definition access_FBRAM (m : t F) : Flow F (t F) :=
  let w := (Cell.widthSOIDevice cell * fs)%num in
  let m := m <| resCellAccess := of_Z 0 |> <| capCellAccess := CalculateFBRAMDrainCap w tech |>
             <| capWordline := (capWordline m + CalculateFBRAMGateCap w (Cell.gateOxThicknessFactor cell) tech * #(numColumn m))%num |> in
  read_levels true
    (m <| capBitline := (capBitline m + capCellAccess m * #(numRow m) / #2)%num |>
       <| resMemCellOff := Cell.resistanceOff cell |> <| resMemCellOn := Cell.resistanceOn cell |>).

(** Resistive cells; nothing is modelled for a bipolar access device. *)
Definition access_resistive (m : t F) : Flow F (t F) :=
  let> m :=
    if bool_decide (Cell.accessType cell = CMOS_access) then
      let w := Cell.widthAccessCMOS cell in
      let> on := lift (CalculateOnResistance (access_width tech w) NMOS T tech) in
      let> drain := lift (access_drain tech w) in
      let m := m <| resCellAccess := on |> <| capCellAccess := drain |>
                 <| capWordline := (capWordline m + CalculateGateCap (access_width tech w) tech * #(numColumn m))%num |> in
      next (m <| capBitline := (capBitline m + drain_load m)%num |>)
    else if bool_decide (Cell.accessType cell = BJT_access) then next m
    else
      let c := MAX (Cell.capacitanceOn cell) (Cell.capacitanceOff cell) in
      let d := MAX (Cell.capacitanceOff cell) (Cell.capacitanceOn cell) in
      let layers := of_Z (num3DLevels m - 1) in
      next (m <| resCellAccess := of_Z 0 |> <| capCellAccess := c |>
              <| capWordline := (capWordline m + d * #(numColumn m) + d * #(numColumn m) * layers)%num |>
              <| capBitline := (capBitline m + d * #(numRow m) + d * #(numRow m) * layers)%num |>) in
  read_levels true (m <| resMemCellOff := (resCellAccess m + Cell.resistanceOff cell)%num |>
                      <| resMemCellOn := (resCellAccess m + Cell.resistanceOn cell)%num |>).

(** A string of the pages of a block and two select transistors. *)
Definition access_NAND (m : t F) : Outcome (t F) :=
  let? n := pages in
  let pageCount := wrap32 n in
  let stringLength := wrap32 (pageCount + 2) in
  let? strings := quotient (numRow m) pageCount in
  let w := (k14 * fs)%num in
  let? on := CalculateOnResistance w NMOS T tech in
  let? drain := CalculateDrainCap w NMOS (Cell.widthInFeatureSize cell * fs)%num tech in
  let g := Cell.gateCouplingRatio cell in
  Ret (m <| resCellAccess := (on * #stringLength)%num |> <| capCellAccess := drain |>
         <| capWordline := (capWordline m + CalculateGateCap w tech * #(numColumn m) * g / (g + #1))%num |>
         <| capBitline := (capBitline m + drain * #strings / #2)%num |>
         <| voltagePrecharge := (Process.vdd tech * lit 6 (-1))%num |>).

Definition access (m : t F) : Flow F (t F) :=
  if kind SRAM then lift (access_SRAM m)
  else if dram then lift (access_DRAM m)
  else if kind gcDRAM then access_gcDRAM m
  else if kind FBRAM then access_FBRAM m
  else if resistive then access_resistive m
  else if kind SLCNAND then lift (access_NAND m)
  else reject m.

(** Charge sharing between a DRAM cell and its bitline. *)
Definition shared_voltage (m : t F) : F :=
  (Process.vdd devtech / #2 * Cell.capDRAMCell cell / (Cell.capDRAMCell cell + capBitline m))%num.

Definition charge_sharing (m : t F) : Flow F (t F) :=
  if dram then
    if negb (IsFinitePositive (Cell.capDRAMCell cell)) || negb (IsFinitePositive (Cell.capDRAMCell cell + capBitline m)%num)
    then reject m
    else
      let m := m <| senseVoltage := shared_voltage m |> in
      if negb (IsFinitePositive (senseVoltage m)) || (senseVoltage m <? Cell.minSenseVoltage cell)%num then reject m
      else next m
  else next m.

(** The sections between the repeaters, and the loads of the decoders. *)
Definition sections (resMuxLoad capMuxLoad : F) (m : t F) : Outcome (t F * F * F) :=
  let? m :=
    if 0 <? numRepeaters m then
      let n := of_Z (numRepeaters m + 1) in
      let? (target, widthN, widthP) := repeater_widths (bufferSizeRatio m) in
      Ret (m <| sectionres := (resWordline m / n)%num |> <| sectioncap := (capWordline m / n)%num |>
             <| sectionresMux := (resMuxLoad / n)%num |> <| sectioncapMux := (capMuxLoad / n)%num |>
             <| targetdriveres := target |> <| widthInvN := widthN |> <| widthInvP := widthP |>)
    else
      Ret (m <| sectionres := resWordline m |> <| sectioncap := capWordline m |>
             <| sectionresMux := resMuxLoad |> <| sectioncapMux := capMuxLoad |>) in
  let m := m <| gateCapRep := repeater_gate (widthInvN m) (widthInvP m) |> in
  Ret (if numRepeaters m =? 0 then (m, sectioncap m, sectioncapMux m)
       else (m, (sectioncap m + gateCapRep m)%num, (sectioncapMux m + gateCapRep m)%num)).

(** [precharger] and [rowDecoder]. *)
Definition rows (rowDecoderCap maxWordlineCurrent : F) (m : t F) : Flow F (t F) :=
  let prechargerBitlineCap := if kind gcDRAM then capBitlineRead m else capBitline m in
  if negb (IsFinitePositive (voltagePrecharge m)) || negb (IsFinitePositive prechargerBitlineCap)
     || negb (IsFiniteNonNegative (resBitline m)) || negb (IsFiniteNonNegative (lenBitline m)) || (int_max <? numColumn m)
  then reject m
  else
    let> p := lift (Precharger.Initialize tech ip (Cell.view cell) (wire_view localWire) (voltagePrecharge m) (numColumn m)
                      prechargerBitlineCap (resBitline m) (lenBitline m) (precharger m)) in
    let> p := lift (Precharger.CalculateRC tech p) in
    let> d := lift (RowDecoder.Initialize tech ip (wrap32 (numRow m)) rowDecoderCap (sectionres m) (multipleRowPerSet m)
                      (areaOptimizationLevel m) maxWordlineCurrent false (lenWordline m) (rowDecoder m)) in
    let m := m <| precharger := p |> <| rowDecoder := d |> in
    if RowDecoder.invalid d then leave m
    else let> d := lift (RowDecoder.CalculateRC tech d) in next (m <| rowDecoder := d |>).

(** A mux decoder, unless something before it was invalid. *)
Definition mux_decoder (n : Z) (muxDecoderCap : F) (m : t F) (d : RowDecoder.t F) : Outcome (RowDecoder.t F * bool) :=
  if invalid m then Ret (d, true)
  else
    let? d := RowDecoder.Initialize tech ip n muxDecoderCap (sectionresMux m) false (areaOptimizationLevel m) (of_Z 0) false
                (lenWordline m) d in
    if RowDecoder.invalid d then Ret (d, true)
    else let? d := RowDecoder.CalculateRC tech d in Ret (d, false).

Definition mux_decoders (muxDecoderCap : F) (m : t F) : Outcome (t F) :=
  let? (d, bad) := mux_decoder (muxSenseAmp m) muxDecoderCap m (bitlineMuxDecoder m) in
  let m := m <| bitlineMuxDecoder := d |> <| invalid := bad |> in
  let? (d, bad) := mux_decoder (muxOutputLev1 m) muxDecoderCap m (senseAmpMuxLev1Decoder m) in
  let m := m <| senseAmpMuxLev1Decoder := d |> <| invalid := bad |> in
  let? (d, bad) := mux_decoder (muxOutputLev2 m) muxDecoderCap m (senseAmpMuxLev2Decoder m) in
  Ret (m <| senseAmpMuxLev2Decoder := d |> <| invalid := bad |>).

(** The two levels of output muxes, the last one first. *)
Definition output_muxes (maxBitlineCurrent : F) (m : t F) : Outcome (t F) :=
  let v := Cell.view cell in
  let? m2 := Mux.Initialize tech ip v (muxOutputLev2 m) (selected m) (of_Z 0) (of_Z 0) maxBitlineCurrent (senseAmpMuxLev2 m) in
  let? m2 := Mux.CalculateRC tech ip m2 in
  let? m1 := Mux.Initialize tech ip v (muxOutputLev1 m) (Z.quot (Z.quot (numColumn m) (muxSenseAmp m)) (muxOutputLev1 m))
               (Mux.capForPreviousDelayCalculation m2) (Mux.capForPreviousPowerCalculation m2) maxBitlineCurrent
               (senseAmpMuxLev1 m) in
  let? m1 := Mux.CalculateRC tech ip m1 in
  Ret (m <| senseAmpMuxLev2 := m2 |> <| senseAmpMuxLev1 := m1 |>).

(** What the sense amplifier is told about the cells. *)
Definition operating_point (_stackedDieCount : Z) (m : t F) : BinarySenseAmp.Point.t F :=
  BinarySenseAmp.Point.mk true true (negb (Cell.readPower cell =? #0)%num)
    (Z.max (Z.max (num3DLevels m) _stackedDieCount) (if InputParameter.monolithic3DMat ip then 2 else 1))
    (Cell.memCellType cell) (Cell.accessType cell) (of_Z (InputParameter.temperature ip)) (Cell.readVoltage cell)
    (resMemCellOn m) (resMemCellOff m) (capBitline m + capCellAccess m)%num
    (lenBitline m * (lenWordline m / #(numColumn m)))%num.

(** [senseAmp] and [bitlineMux]. *)
Definition column_sensing (_stackedDieCount : Z) (maxBitlineCurrent : F) (m : t F) : Outcome (t F) :=
  let mux (delayCap powerCap : F) (m : t F) :=
    let? x := Mux.Initialize tech ip (Cell.view cell) (muxSenseAmp m) (Z.quot (numColumn m) (muxSenseAmp m)) delayCap powerCap
                maxBitlineCurrent (bitlineMux m) in
    Ret (m <| bitlineMux := x |>) in
  if invalid m then Ret m
  else if internalSenseAmp m then
    let? a := SenseAmp.Initialize tech (numSenseAmp m) (negb (voltageSense m)) (senseVoltage m)
                (lenWordline m / #(numColumn m) * #(muxSenseAmp m) * #2)%num (Some (operating_point _stackedDieCount m))
                (senseAmp m) in
    if SenseAmp.invalid a then Ret (m <| senseAmp := a |> <| invalid := true |>)
    else
      let? a := SenseAmp.CalculateRC tech a in
      mux (SenseAmp.capLoad a) (if SenseAmp.UsesBinaryModel a then of_Z 0 else SenseAmp.capLoad a) (m <| senseAmp := a |>)
  else
    let l1 := senseAmpMuxLev1 m in
    mux (Mux.capForPreviousDelayCalculation l1) (Mux.capForPreviousPowerCalculation l1) m.

(** The read decoder and the write driver of a gain cell. *)
Definition gain_cell (maxWordlineCurrent : F) (m : t F) : Flow F (t F) :=
  if negb (kind gcDRAM) then next m
  else
    let> d := lift (RowDecoder.Initialize tech ip (wrap32 (numRow m)) (capWordlineRead m) (resWordline m) (multipleRowPerSet m)
                      (areaOptimizationLevel m) maxWordlineCurrent false (lenWordline m) (gcRowDecoder m)) in
    if RowDecoder.invalid d then leave (m <| gcRowDecoder := d |>)
    else
      let> d := lift (RowDecoder.CalculateRC tech d) in
      let m := m <| gcRowDecoder := d |> in
      if negb (IsFinitePositive (Process.vdd tech)) || negb (IsFinitePositive (capBitline m))
         || negb (IsFiniteNonNegative (resBitline m)) || negb (IsFiniteNonNegative (lenBitline m))
         || (numColumn m <=? 0) || (int_max <? numColumn m)
      then reject m
      else
        let> p := lift (Precharger.Initialize tech ip (Cell.view cell) (wire_view localWire) (Process.vdd tech) (numColumn m)
                          (capBitline m) (resBitline m) (lenBitline m) (writeDriver m)) in
        let> p := lift (Precharger.CalculateRC tech p) in
        next (m <| writeDriver := p |>).

(** The blocks before the repeaters: the mat, the largest currents and the load of
    a mux decoder. *)
Definition front (m : t F) : Flow F (t F * F * F * F * F) :=
  let> m := counts m in
  let> _ := legal m in
  let> m := lift (via m) in
  let> (maxWordlineCurrent, maxBitlineCurrent) := currents m in
  let> minBitlineMuxWidth := mux_width maxBitlineCurrent m in
  let> m := sensing m in
  let> m := lift (lengths m) in
  let '(m, resMuxLoad, capMuxLoad) := loads minBitlineMuxWidth m in
  let> m := access m in
  let> m := charge_sharing m in
  next (m, maxWordlineCurrent, maxBitlineCurrent, resMuxLoad, capMuxLoad).

(** The components. *)
Definition components (_stackedDieCount : Z) (maxWordlineCurrent maxBitlineCurrent resMuxLoad capMuxLoad : F) (m : t F)
  : Flow F (t F) :=
  let> (m, rowDecoderCap, muxDecoderCap) := lift (sections resMuxLoad capMuxLoad m) in
  let> m := rows rowDecoderCap maxWordlineCurrent m in
  let> m := lift (mux_decoders muxDecoderCap m) in
  let> m := lift (output_muxes maxBitlineCurrent m) in
  let> m := lift (column_sensing _stackedDieCount maxBitlineCurrent m) in
  let> m := gain_cell maxWordlineCurrent m in
  if invalid m then next (m <| initialized := true |>)
  else
    let> x := lift (Mux.CalculateRC tech ip (bitlineMux m)) in
    next (m <| bitlineMux := x |> <| initialized := true |>).

(** Mat::Initialize *)
Definition Initialize (_numRow _numColumn : Z) (_multipleRowPerSet _split : bool) (_muxSenseAmp : Z) (_internalSenseAmp : bool)
  (_muxOutputLev1 _muxOutputLev2 : Z) (_areaOptimizationLevel : BufferDesignTarget) (_num3DLevels _stackedDieCount : Z)
  (memo : Memo F) (m : t F) : Outcome (t F * Memo F) :=
  let m := arguments _numRow _numColumn _multipleRowPerSet _split _muxSenseAmp _internalSenseAmp _muxOutputLev1 _muxOutputLev2
             _areaOptimizationLevel _num3DLevels m in
  let? r := front m in
  match r with
  | inr m => Ret (m, memo)
  | inl (m, maxWordlineCurrent, maxBitlineCurrent, resMuxLoad, capMuxLoad) =>
      let? (m, memo) := CalculateRepeater (wrap32 (numColumn m)) memo m in
      let? m := finish (components _stackedDieCount maxWordlineCurrent maxBitlineCurrent resMuxLoad capMuxLoad m) in
      Ret (m, memo)
  end.

End Operations.
End MatInit.
