(* ===== verification/MatArea.v ===== *)
(** * Mats: area

    Mat.cpp, [Mat::CalculateArea]: the planar layout, and the folding of the cell
    array over memory tiers above the logic of a monolithic three-dimensional mat.
    The folding loop doubles the number of tiers, a [uint64_t]; 64 iterations are
    enough to leave that range, and running out of them would be [endless]. *)
From S2P Require Import Prelude Numeric Types InputParameter Process Formula Circuit OutputDriver Decoders BinarySenseAmp Peripherals Tsv Aos Cell Wires MatData MatInit.
From stdpp Require Import base list strings.
From Stdlib Require Import ZArith Lia.
Open Scope Z_scope.

Module MatArea.
Import Formula FunctionUnit Mat.

Section Operations.
Context {F : Type} `{Num F} `{Extended F}.
Context (tech devtech : Process.t F) (ip : InputParameter.t F) (localWire : Wires.Wire.t F) (cell : Cell.t F).

#[local] Abbreviation kind := (MatInit.kind cell).
#[local] Abbreviation dram := (MatInit.dram cell).

Definition set_area (h w a : F) (m : t F) : t F :=
  m <| fu := (fu m) <| height := h |> <| width := w |> <| area := a |> |>.

(** [invalid = true; height = width = area = invalid_value; return;] *)
Definition unfit {A : Type} (m : t F) : Flow F A :=
  Ret (inr (set_area invalid_value invalid_value invalid_value (m <| invalid := true |>))).

(** ** The planar layout *)

(** A block beside or below the cells is folded when it is too long. *)
Definition beside (u : FunctionUnit.t F) (h : F) : F := if (height u >? h)%num then (area u / h)%num else width u.
Definition below (u : FunctionUnit.t F) (w : F) : F := if (width u >? w)%num then (area u / width u)%num else height u.

(** The sense amplifiers: what they add to the height. *)
Definition sense_height (w : F) (m : t F) : Outcome (t F * F) :=
  if internalSenseAmp m then
    let? a := SenseAmp.CalculateArea tech (senseAmp m) in
    if SenseAmp.UsesBinaryModel a then
      let u := SenseAmp.fu a in
      let a := a <| SenseAmp.fu := u <| width := w |> <| height := (area u / w)%num |> |> in
      Ret (m <| senseAmp := a |>, height (SenseAmp.fu a))
    else
      Ret (m <| senseAmp := a |>,
           if (width (SenseAmp.fu a) >? w * lit 1001 (-3))%num then of_Z 0 else height (SenseAmp.fu a))
  else Ret (m, of_Z 0).

(** The read decoder and write drivers of a gain cell. *)
Definition gain_area (addWidth addHeight w h : F) (m : t F) : Outcome (t F * F * F) :=
  if kind gcDRAM then
    let? d := RowDecoder.CalculateArea tech (gcRowDecoder m) in
    let? p := Precharger.CalculateArea tech (writeDriver m) in
    Ret (m <| gcRowDecoder := d |> <| writeDriver := p |>, (addWidth + beside (RowDecoder.fu d) h)%num,
         (addHeight + below (Precharger.fu p) w)%num)
  else Ret (m, addWidth, addHeight).

Definition planar (m : t F) : Outcome (t F) :=
  (let bufferwidth := wInv m * #(numRepeaters m) * #2 in
   let w := lenWordline m in
   let h := lenBitline m in
   let? d := RowDecoder.CalculateArea tech (rowDecoder m) in
   let? p := Precharger.CalculateArea tech (precharger m) in
   let? x := Mux.CalculateArea tech (bitlineMux m) in
   let m := m <| rowDecoder := d |> <| precharger := p |> <| bitlineMux := x |> in
   let addWidth := beside (RowDecoder.fu d) h in
   let addHeight := below (Precharger.fu p) w + height (Mux.fu x) in
   let? (m, sense) := sense_height w m in
   let? x1 := Mux.CalculateArea tech (senseAmpMuxLev1 m) in
   let? x2 := Mux.CalculateArea tech (senseAmpMuxLev2 m) in
   let m := m <| senseAmpMuxLev1 := x1 |> <| senseAmpMuxLev2 := x2 |> in
   let addHeight := addHeight + sense + height (Mux.fu x1) + height (Mux.fu x2) in
   let w := w + bufferwidth in
   let? (m, addWidth, addHeight) := gain_area addWidth addHeight w h m in
   let? d0 := RowDecoder.CalculateArea tech (bitlineMuxDecoder m) in
   let? d1 := RowDecoder.CalculateArea tech (senseAmpMuxLev1Decoder m) in
   let? d2 := RowDecoder.CalculateArea tech (senseAmpMuxLev2Decoder m) in
   let m := m <| bitlineMuxDecoder := d0 |> <| senseAmpMuxLev1Decoder := d1 |> <| senseAmpMuxLev2Decoder := d2 |> in
   let addWidth := MAX (MAX (MAX addWidth (width (RowDecoder.fu d0))) (width (RowDecoder.fu d1))) (width (RowDecoder.fu d2)) in
   let w := w + addWidth in
   let h := h + addHeight in
   Ret (set_area h w (w * h) (m <| stackedMemTiers := 1 |>)))%num.

(** ** The folded layout *)

Definition uint64_max : Z := 2 ^ 64 - 1.

(** The signals between a memory tier and the logic. *)
Definition signals (m : t F) : ld :=
  (let r := x_int (numRow m) in
   let c := x_int (numColumn m) in
   if kind gcDRAM then x_int 4 * (r + c)
   else if kind SRAM || kind MRAM || kind memristor || kind PCRAM then x_int 2 * (r + x_int 2 * c)
   else x_int 2 * (r + c))%ld.

Definition set_m3d (f : Layout.t F -> Layout.t F) (m : t F) : t F := m <| m3d := f (m3d m) |>.

(** The number of vias per tier. *)
Definition vias (m : t F) : Flow F (t F) :=
  let redundancyFactor := x_of (InputParameter.tsvRedundancy ip) in
  let scaledMivs := xceil (signals m * redundancyFactor)%ld in
  if negb (nfinite (x_to redundancyFactor)) || (redundancyFactor <=? x_int 0)%ld || (scaledMivs <=? x_int 0)%ld
     || (x_int int_max <? scaledMivs)%ld || (InputParameter.maxMatLayers ip <=? 0)
  then unfit m
  else
    let n := xtrunc scaledMivs in
    next (set_m3d (fun l => l <| Layout.mivsPerTier := n |>)
            (m <| tsvArray := (tsvArray m) <| TSV.numTotalBits := n |> <| TSV.numAccessBits := n |> |>)).

(** The area of the logic below the memory. *)
Definition logic_area (m : t F) : F :=
  let d (r : RowDecoder.t F) := area (RowDecoder.fu r) in
  let x (x : Mux.t F) := area (Mux.fu x) in
  let base := (d (rowDecoder m) + area (Precharger.fu (precharger m)) + x (bitlineMux m) + area (SenseAmp.fu (senseAmp m))
               + x (senseAmpMuxLev1 m) + x (senseAmpMuxLev2 m) + d (bitlineMuxDecoder m) + d (senseAmpMuxLev1Decoder m)
               + d (senseAmpMuxLev2Decoder m))%num in
  if kind gcDRAM then (base + (d (gcRowDecoder m) + area (Precharger.fu (writeDriver m))))%num else base.

(** The variables of the folding loop. *)
Record Fold : Type := mkFold {
  foldHeight : F;
  foldWidth : F;
  foldArea : F;
  foldResBitline : F;
  foldResWordline : F;
  reduceHeight : bool;
  tiers : Z
}.

Definition xmax (a b : ld) : ld := if (a <? b)%ld then b else a.

(** The projected area with [n] tiers of [memory] each. *)
Definition projected (mivsPerTier : Z) (viaArea logicArea : F) (n : Z) (memory : ld) : ld :=
  xmax memory (x_of logicArea + x_int mivsPerTier * x_int n * x_of viaArea)%ld.

(** Does the loop fold once more? *)
Definition folds (mivsPerTier : Z) (viaArea logicArea : F) (tierLimit : Z) (s : Fold) : bool :=
  let current := projected mivsPerTier viaArea logicArea (tiers s) (x_of (foldArea s)) in
  let next := projected mivsPerTier viaArea logicArea (tiers s * 2) (x_of (foldArea s) / x_int 2)%ld in
  negb (uint64_max / 2 <? tiers s) && negb (tierLimit <? tiers s * 2)
  && xfinite current && xfinite next && negb (current <=? next)%ld.

Definition fold (s : Fold) : Fold :=
  (let '(h, w, rb, rw) :=
     if reduceHeight s then (foldHeight s / #2, foldWidth s, foldResBitline s / #2, foldResWordline s)
     else (foldHeight s, foldWidth s / #2, foldResBitline s, foldResWordline s / #2) in
   mkFold h w (h * w) rb rw (negb (reduceHeight s)) (Z.mul (tiers s) 2))%num.

Definition fold_loop (mivsPerTier : Z) (viaArea logicArea : F) (tierLimit : Z) (s : Fold) : Outcome Fold :=
  loop 64 (folds mivsPerTier viaArea logicArea tierLimit) (fun s => Ret (fold s)) s.

(** Before the loop: one tier of the whole array. *)
Definition unfolded (m : t F) : Fold :=
  mkFold (lenBitline m) (lenWordline m) (lenBitline m * lenWordline m)%num (resBitline m) (resWordline m)
    (lenBitline m >? lenWordline m)%num 1.

(** Logic and memory after folding. *)
Definition tier_areas (s : Fold) (m : t F) : Flow F (t F) :=
  (let n := Layout.mivsPerTier (m3d m) in
   let m := m <| memoryHeight := foldHeight s |> <| memoryWidth := foldWidth s |> <| memoryArea := foldArea s |>
              <| resBitline := foldResBitline s |> <| resWordline := foldResWordline s |> in
   if Z.ltb (uint64_max / tiers s) n then unfit m
   else
     let total := (n * tiers s)%Z in
     let totalMivArea := #total * area (TSV.fu (tsvArray m)) in
     let final := Layout.peripheralLogicArea (m3d m) + totalMivArea in
     let perTier := memoryArea m in
     let m := set_m3d (fun l => l <| Layout.totalMivCount := total |> <| Layout.totalMivArea := totalMivArea |>
                                  <| Layout.finalLogicLayerArea := final |> <| Layout.perTierMemoryArea := perTier |>
                                  <| Layout.projectedArea := MAX final perTier |>
                                  <| Layout.dominantTier := if final >=? perTier then Layout.logic else Layout.memory |>) m in
     if negb (IsFinitePositive totalMivArea) || negb (IsFinitePositive final) || negb (IsFinitePositive perTier)
        || negb (IsFinitePositive (MAX final perTier)) || Z.ltb int_max (tiers s)
     then unfit m
     else
       let m := m <| stackedMemTiers := tiers s |> <| logicArea := final |> <| memoryArea := perTier |>
                  <| areaRatio := memoryHeight m / perTier |> in
       let a := MAX final perTier in
       let h := areaRatio m * a in
       next (set_area h (a / h) a m))%num.

(** The vias and the wires to them load the lines: the added capacitance of a
    line, and the added resistances. *)
Definition deltas (m : t F) : F * F * F :=
  (let v := tsvArray m in
   let n := of_Z (stackedMemTiers m) in
   let cap := Wires.Wire.capWirePerUnit localWire in
   let wireExtension := nsqrt (nabs (memoryArea m - Layout.peripheralLogicArea (m3d m))) in
   let res (r : F) := width (TSV.fu v) * n * r + TSV.res v * n + wireExtension * r in
   (width (TSV.fu v) * n * cap + wireExtension * cap + TSV.cap v * n,
    res (Wires.Wire.resWirePerUnit_M0 localWire), res (Wires.Wire.resWirePerUnit_M1 localWire)))%num.

Definition set_load (cap res : F) (d : RowDecoder.t F) : RowDecoder.t F :=
  d <| RowDecoder.capLoad := cap |> <| RowDecoder.resLoad := res |>
    <| RowDecoder.outputDriver := (RowDecoder.outputDriver d) <| OutputDriver.outputCap := cap |> <| OutputDriver.outputRes := res |> |>.

(** The components keep their sizes; their loads are updated. *)
Definition reload (capDelta : F) (m : t F) : t F :=
  (let n := of_Z (numRepeaters m + 1) in
   let m := m <| sectionres := resWordline m / n |> <| sectioncap := capWordline m / n |>
              <| sectionresMux := resWordline m / n |> <| sectioncapMux := sectioncapMux m + capDelta / n |> in
   let gate := if Z.eqb (numRepeaters m) 0 then #0 else gateCapRep m in
   let rowDecoderCap := sectioncap m + gate in
   let muxDecoderCap := sectioncapMux m + gate in
   let mux := set_load muxDecoderCap (sectionresMux m) in
   let m := m <| rowDecoder := set_load rowDecoderCap (sectionres m) (rowDecoder m) |>
              <| bitlineMuxDecoder := mux (bitlineMuxDecoder m) |>
              <| senseAmpMuxLev1Decoder := mux (senseAmpMuxLev1Decoder m) |>
              <| senseAmpMuxLev2Decoder := mux (senseAmpMuxLev2Decoder m) |>
              <| precharger := (precharger m) <| Precharger.capBitline := if kind gcDRAM then capBitlineRead m else capBitline m |>
                                              <| Precharger.resBitline := resBitline m |> |> in
   if kind gcDRAM then
     m <| gcRowDecoder := set_load (capWordlineRead m) (resWordline m) (gcRowDecoder m) |>
       <| writeDriver := (writeDriver m) <| Precharger.capBitline := capBitline m |> <| Precharger.resBitline := resBitline m |> |>
   else m)%num.

(** The lines reach further. *)
Definition lengthen (capDelta bitlineResDelta wordlineResDelta : F) (m : t F) : t F :=
  (let m := m <| capBitline := capBitline m + capDelta |> <| capWordline := capWordline m + capDelta |>
              <| resBitline := resBitline m + bitlineResDelta |> <| resWordline := resWordline m + wordlineResDelta |> in
   if kind gcDRAM
   then m <| capBitlineRead := capBitlineRead m + capDelta |> <| capWordlineRead := capWordlineRead m + capDelta |>
   else m)%num.

(** The loads of the lines after folding, and the voltage a DRAM senses with them. *)
Definition folded_loads (m : t F) : Flow F (t F) :=
  let '(capDelta, bitlineResDelta, wordlineResDelta) := deltas m in
  if negb (IsFiniteNonNegative capDelta) || negb (IsFiniteNonNegative bitlineResDelta)
     || negb (IsFiniteNonNegative wordlineResDelta)
  then unfit m
  else
    let m := reload capDelta (lengthen capDelta bitlineResDelta wordlineResDelta m) in
    if dram then
      let m := m <| senseVoltage := MatInit.shared_voltage devtech cell m |> in
      if negb (IsFinitePositive (Cell.capDRAMCell cell + capBitline m)%num) || negb (IsFinitePositive (senseVoltage m))
         || (senseVoltage m <? Cell.minSenseVoltage cell)%num
      then unfit m
      else next (m <| senseAmp := (senseAmp m) <| SenseAmp.senseVoltage := senseVoltage m |> |>)
    else next m.

Definition monolithic (m : t F) : Flow F (t F) :=
  let> v := lift (TSV.CalculateArea tech ip (tsvArray m)) in
  let> m := vias (m <| tsvArray := v |>) in
  let logic := logic_area m in
  let m := set_m3d (fun l => l <| Layout.peripheralLogicArea := logic |>) m in
  let viaArea := area (TSV.fu (tsvArray m)) in
  if negb (IsFinitePositive logic) || negb (IsFiniteNonNegative viaArea) then unfit m
  else
    let side := nsqrt logic in
    let m := m <| logicHeight := side |> <| logicWidth := side |> in
    let> s := lift (fold_loop (Layout.mivsPerTier (m3d m)) viaArea logic (InputParameter.maxMatLayers ip) (unfolded m)) in
    let> m := tier_areas s m in
    folded_loads m.

(** Mat::CalculateArea *)
Definition CalculateArea (m : t F) : Outcome (t F) :=
  if negb (initialized m) then Ret m
  else if invalid m then Ret (set_area invalid_value invalid_value invalid_value m)
  else
    let? m := planar m in
    if InputParameter.monolithic3DMat ip then finish (monolithic m) else Ret m.

End Operations.
End MatArea.
