(* ===== verification/MatTiming.v ===== *)
(** * Mats: latency

    Mat.cpp, [Mat::CalculateLatency]: the decoders and repeaters, the discharge of
    a bitline per kind of cell, and reading, writing, restoring and refreshing. *)
From S2P Require Import Prelude Numeric Types InputParameter Process Formula Circuit OutputDriver Decoders BinarySenseAmp Peripherals Tsv Aos Cell Wires MatData MatInit.
From stdpp Require Import base list strings.
From Stdlib Require Import ZArith Lia.
Open Scope Z_scope.

Module MatTiming.
Import Formula FunctionUnit Mat.

Section Operations.
Context {F : Type} `{Num F}.
Context (tech : Process.t F) (ip : InputParameter.t F) (cell : Cell.t F).

#[local] Abbreviation kind := (MatInit.kind cell).
#[local] Abbreviation dram := (MatInit.dram cell).
#[local] Abbreviation read r := (readLatency (RowDecoder.fu r)).
#[local] Abbreviation written r := (writeLatency (RowDecoder.fu r)).
#[local] Abbreviation muxRead x := (readLatency (Mux.fu x)).
#[local] Abbreviation muxCap m := (Mux.capForPreviousDelayCalculation (bitlineMux m)).

Definition set_latency (r w : F) (m : t F) : t F :=
  m <| fu := (fu m) <| readLatency := r |> <| writeLatency := w |> |>.
Definition set_switch (reset set : F) (m : t F) : t F :=
  m <| fu := (fu m) <| resetLatency := reset |> <| setLatency := set |> |>.
Definition set_refresh (x : F) (m : t F) : t F := m <| fu := (fu m) <| refreshLatency := x |> |>.

(** [invalid = true; readLatency = writeLatency = invalid_value; return;] *)
Definition fail (m : t F) : t F := set_latency invalid_value invalid_value (m <| invalid := true |>).

(** The repeaters on the wordline, and on the select lines of the muxes. *)
Definition repeater_latencies (_rampInput : F) (m : t F) : Outcome (F * F) :=
  if numRepeaters m =? 0 then Ret (of_Z 0, of_Z 0)
  else
    let chain (load : F) :=
      let? (latency, _) := MatInit.repeater_chain tech ip (numRepeaters m) (widthInvN m) (gateCapRep m) (sectionres m)
                             (sectioncap m) load (lit 0 (-1), _rampInput) in
      Ret latency in
    let? wordline := chain (sectioncap m) in
    let? select := chain (sectioncapMux m) in
    Ret (wordline, select).

(** The latencies of the peripherals before the bitline; the decoder latency for a
    read, and the one of the writes of a DRAM. *)
Definition peripherals (_rampInput : F) (m : t F) : Outcome (t F * F * F) :=
  (let? (wordline, select) := repeater_latencies _rampInput m in
   let? p := Precharger.CalculateLatency tech ip _rampInput (precharger m) in
   let? d := RowDecoder.CalculateLatency tech ip _rampInput (rowDecoder m) in
   let? d0 := RowDecoder.CalculateLatency tech ip _rampInput (bitlineMuxDecoder m) in
   let? d1 := RowDecoder.CalculateLatency tech ip _rampInput (senseAmpMuxLev1Decoder m) in
   let? d2 := RowDecoder.CalculateLatency tech ip _rampInput (senseAmpMuxLev2Decoder m) in
   let column := MAX (MAX (read d0) (read d1)) (read d2) in
   let capPass := Mux.capNMOSPassTransistor (bitlineMux m) + Mux.capNMOSPassTransistor (senseAmpMuxLev1 m)
                  + Mux.capNMOSPassTransistor (senseAmpMuxLev2 m) in
   let resPass := Mux.resNMOSPassTransistor (bitlineMux m) + Mux.resNMOSPassTransistor (senseAmpMuxLev1 m)
                  + Mux.resNMOSPassTransistor (senseAmpMuxLev2 m) in
   let tau := resPass * (capPass + capBitline m) + resBitline m * capBitline m / #2 in
   let '(charge, _) := horowitz tau #0 (lit 1 20) in
   Ret (m <| precharger := p |> <| rowDecoder := d |> <| bitlineMuxDecoder := d0 |> <| senseAmpMuxLev1Decoder := d1 |>
          <| senseAmpMuxLev2Decoder := d2 |> <| columnDecoderLatency := column |> <| chargeLatency := charge |>,
        MAX (read d + wordline) (column + select), MAX (written d + wordline) (column + select)))%num.

(** The circuits after the bitline mux. *)
Definition sense_chain (senseRamp lev1Ramp : F) (m : t F) : t F :=
  let a := if internalSenseAmp m then SenseAmp.CalculateLatency tech senseRamp (senseAmp m) else senseAmp m in
  let x1 := Mux.CalculateLatency lev1Ramp (senseAmpMuxLev1 m) in
  let x2 := Mux.CalculateLatency (Mux.rampOutput x1) (senseAmpMuxLev2 m) in
  m <| senseAmp := a |> <| senseAmpMuxLev1 := x1 |> <| senseAmpMuxLev2 := x2 |>.

(** The bitline mux, then the sense amplifier when it is in the mat. *)
Definition mux_and_sense (bitlineRamp : F) (m : t F) : t F :=
  let x := Mux.CalculateLatency bitlineRamp (bitlineMux m) in
  let m := m <| bitlineMux := x |> in
  if internalSenseAmp m then sense_chain (RowDecoder.rampOutput (bitlineMuxDecoder m)) (lit 1 20) m
  else sense_chain (of_Z 0) (Mux.rampOutput x) m.

(** The sense amplifiers and output muxes of a DRAM, which always has them. *)
Definition dram_sense (bitlineRamp : F) (m : t F) : t F :=
  let a := SenseAmp.CalculateLatency tech bitlineRamp (senseAmp m) in
  let x1 := Mux.CalculateLatency (lit 1 20) (senseAmpMuxLev1 m) in
  let x2 := Mux.CalculateLatency (Mux.rampOutput x1) (senseAmpMuxLev2 m) in
  m <| senseAmp := a |> <| senseAmpMuxLev1 := x1 |> <| senseAmpMuxLev2 := x2 |>.

(** [decoder + bitline + mux + sense + lev1 + lev2] *)
Definition read_path (decoderLatency : F) (m : t F) : F :=
  (decoderLatency + bitlineDelay m + muxRead (bitlineMux m) + readLatency (SenseAmp.fu (senseAmp m))
   + muxRead (senseAmpMuxLev1 m) + muxRead (senseAmpMuxLev2 m))%num.

(** The time constant of a bitline discharged through [res]. *)
Definition bitline_tau (res : F) (m : t F) : F :=
  (res * (capCellAccess m + capBitline m + muxCap m) + resBitline m * (muxCap m + capBitline m / #2))%num.

(** *** SRAM *)
Definition latency_SRAM (decoderLatency : F) (m : t F) : Outcome (t F) :=
  (let k14 := MatInit.k14 tech in
   let fs := Process.featureSize tech in
   let? resPullDown := CalculateOnResistance (Cell.widthSRAMCellNMOS cell * k14 * fs) NMOS (MatInit.T ip) tech in
   let tau := bitline_tau (resCellAccess m + resPullDown) m
              * nlog (voltagePrecharge m / (voltagePrecharge m - senseVoltage m / #2)) in
   let gm := CalculateTransconductance (k14 * Cell.widthAccessCMOS cell * fs) NMOS tech in
   let '(delay, bitlineRamp) := horowitz tau (#1 / (resPullDown * gm)) (RowDecoder.rampOutput (rowDecoder m)) in
   let m := mux_and_sense bitlineRamp (m <| bitlineDelay := delay |>) in
   let r := read_path decoderLatency m + readLatency (Precharger.fu (precharger m)) in
   Ret (set_latency r r m))%num.

(** *** DRAM and eDRAM *)

(** How far the write and the restoration of a cell must settle. *)
Record Settling : Type := mkSettling { writeSettling : F; restoreSettling : F }.

Definition settling (m : t F) : option Settling :=
  (let writePathCap := Cell.capDRAMCell cell + capCellAccess m + capBitline m + muxCap m in
   let writePathResistance := resBitline m + resCellAccess m in
   let fullWriteSwing := nabs (Cell.resetVoltage cell - voltagePrecharge m) in
   let residualRatio := InputParameter.dramTargetResidualRatio ip in
   if negb (IsFinitePositive writePathCap) || negb (IsFinitePositive writePathResistance)
      || negb (IsFinitePositive fullWriteSwing) || negb (nfinite residualRatio) || (residualRatio <=? #0)
      || (residualRatio >=? #1)
   then None
   else
     let targetResidual := fullWriteSwing * residualRatio in
     let remaining := MAX (fullWriteSwing - senseVoltage m) (lit 0 (-1)) in
     Some (mkSettling (writePathResistance * writePathCap * nlog (lit 10 (-1) / residualRatio))
             (if remaining >? targetResidual
              then writePathResistance * writePathCap * nlog (remaining / targetResidual) else #0)))%num.

(** The delays of the write and of the restoration after a read. *)
Definition settle (s : Settling) (m : t F) : t F :=
  let ramp := RowDecoder.rampOutput (rowDecoder m) in
  let '(write, _) := ExactSettlingDelay (writeSettling s) ramp in
  let restore := if (restoreSettling s >? #0)%num then fst (ExactSettlingDelay (restoreSettling s) ramp) else of_Z 0 in
  m <| writeBitlineDelay := write |>
    <| dramTiming := (dramTiming m) <| Timing.restoreDelay := restore |> <| Timing.writeBitlineDelay := write |> |>.

(** Time to data, the cycle with the restoration, writing and refreshing. *)
Definition dram_results (decoderLatency writeDecoderLatency : F) (m : t F) : t F :=
  (let r := decoderLatency + bitlineDelay m + readLatency (SenseAmp.fu (senseAmp m)) + muxRead (senseAmpMuxLev1 m)
            + muxRead (senseAmpMuxLev2 m) + readLatency (Precharger.fu (precharger m)) in
   let cycle := r + Timing.restoreDelay (dramTiming m) in
   let w := writeDecoderLatency + writeBitlineDelay m in
   let m := m <| dramTiming := (dramTiming m) <| Timing.accessLatency := r |> <| Timing.readCycleLatency := cycle |> |> in
   let m := set_refresh (cycle * #(numRow m)) (set_latency r w m) in
   if negb (IsFiniteNonNegative (bitlineDelay m)) || negb (IsFiniteNonNegative (Timing.restoreDelay (dramTiming m)))
      || negb (IsFinitePositive r) || negb (IsFinitePositive cycle) || negb (IsFinitePositive (writeBitlineDelay m))
      || negb (IsFinitePositive w) || negb (IsFiniteNonNegative (refreshLatency (fu m)))
   then fail m else m)%num.

Definition latency_DRAM (decoderLatency writeDecoderLatency : F) (m : t F) : t F :=
  (let c := Cell.capDRAMCell cell in
   let cap := (capCellAccess m + c) * (capBitline m + muxCap m) / (capCellAccess m + c + capBitline m + muxCap m) in
   let res := resBitline m + resCellAccess m in
   if negb (IsFinitePositive cap) || negb (IsFinitePositive res) then fail m
   else
     let '(delay, bitlineRamp) := horowitz (lit 23 (-1) * res * cap) #0 (RowDecoder.rampOutput (rowDecoder m)) in
     let m := dram_sense bitlineRamp (m <| bitlineDelay := delay |> <| readBitlineDelay := delay |>) in
     match settling m with
     | None => fail m
     | Some s => dram_results decoderLatency writeDecoderLatency (settle s m)
     end)%num.

(** *** Gain cells *)

(** The discharge of the read bitline through a cell, to the voltage to sense. *)
Definition gc_tau (res : F) (m : t F) : F :=
  (res * (capReadCellAccess m + capBitlineRead m + muxCap m) + resBitline m * (muxCap m + capBitlineRead m / #2))%num.

(** The settling constants of the two bitlines. *)
Definition gc_constants (m : t F) : option (F * F) :=
  (let capRBL := capReadCellAccess m + capBitlineRead m + muxCap m in
   let capWBL := capWriteCellAccess m + capReadCellGate m + capBitline m + muxCap m in
   let readPathResistance := resBitline m + resReadCellAccess m in
   let writePathResistance := resBitline m + resWriteCellAccess m in
   if negb (IsFinitePositive capRBL) || negb (IsFinitePositive capWBL) || negb (IsFinitePositive readPathResistance)
      || negb (IsFinitePositive writePathResistance)
   then None
   else
     let tauRBL := lit 23 (-1) * readPathResistance * capRBL in
     let tauWBL := writePathResistance * capWBL * nlog (lit 10 (-1) / InputParameter.dramTargetResidualRatio ip) in
     if negb (IsFinitePositive tauRBL) || negb (IsFinitePositive tauWBL) then None else Some (tauRBL, tauWBL))%num.

(** The delays of a set and of a cleared cell; [None] when the swing is too small or a
    time constant is not positive, which the second may be after the first is known. *)
Definition gc_discharge (m : t F) : option (F * option F) :=
  (let tau := gc_tau (resReadCellAccess m) m in
   let availableOnSwing := nabs (voltagePrecharge m - voltageMemCellOn m) in
   let availableOffSwing := nabs (voltageMemCellOff m - voltagePrecharge m) in
   if negb (IsFinitePositive tau) || negb (IsFinitePositive availableOnSwing) || negb (IsFinitePositive availableOffSwing)
      || negb (IsFinitePositive (senseVoltage m)) || (availableOnSwing <=? senseVoltage m)
      || (availableOffSwing <=? senseVoltage m)
   then None
   else
     let on := tau * nlog (availableOnSwing / (availableOnSwing - senseVoltage m)) in
     let tau := gc_tau (resReadCellAccessOff m) m in
     Some (on, if negb (IsFinitePositive tau) then None
               else Some (tau * nlog (availableOffSwing / (availableOffSwing - senseVoltage m)))))%num.

Definition both (u : FunctionUnit.t F) : list F := [readLatency u; writeLatency u].

Definition gc_results (decoderLatency gcDecoderLatency : F) (m : t F) : t F :=
  (let sense := readLatency (SenseAmp.fu (senseAmp m)) in
   let driver := readLatency (Precharger.fu (writeDriver m)) in
   let refresh := (gcDecoderLatency + decoderLatency + readBitlineDelay m + sense + driver + writeBitlineDelay m)
                  * #(numRow m) in
   let w := decoderLatency + writeBitlineDelay m + driver in
   let r := gcDecoderLatency + readBitlineDelay m + sense + muxRead (senseAmpMuxLev1 m) + muxRead (senseAmpMuxLev2 m)
            + readLatency (Precharger.fu (precharger m)) in
   let m := set_latency r w (set_refresh refresh m) in
   let figures :=
     ([columnDecoderLatency m; decoderLatency; gcDecoderLatency] ++ both (RowDecoder.fu (rowDecoder m))
      ++ both (RowDecoder.fu (gcRowDecoder m)) ++ both (RowDecoder.fu (bitlineMuxDecoder m))
      ++ both (RowDecoder.fu (senseAmpMuxLev1Decoder m)) ++ both (RowDecoder.fu (senseAmpMuxLev2Decoder m))
      ++ both (Precharger.fu (precharger m)) ++ both (Precharger.fu (writeDriver m)) ++ both (Mux.fu (bitlineMux m))
      ++ both (SenseAmp.fu (senseAmp m)) ++ both (Mux.fu (senseAmpMuxLev1 m)) ++ both (Mux.fu (senseAmpMuxLev2 m))
      ++ [chargeLatency m; bitlineDelayOn m; bitlineDelayOff m; readBitlineDelay m; writeBitlineDelay m; refresh])%list in
   if negb (AreFiniteNonNegative figures) || negb (IsFinitePositive r) || negb (IsFinitePositive w) then fail m else m)%num.

Definition latency_gcDRAM (_rampInput : F) (m : t F) : Outcome (t F) :=
  let? d := RowDecoder.CalculateLatency tech ip _rampInput (gcRowDecoder m) in
  let? p := Precharger.CalculateLatency tech ip _rampInput (writeDriver m) in
  let m := m <| gcRowDecoder := d |> <| writeDriver := p |> in
  let decoderLatency := MAX (read (rowDecoder m)) (columnDecoderLatency m) in
  let gcDecoderLatency := MAX (read d) (columnDecoderLatency m) in
  Ret (match gc_constants m with
       | None => fail m
       | Some (tauRBL, tauWBL) =>
           let '(write, _) := ExactSettlingDelay tauWBL (RowDecoder.rampOutput (rowDecoder m)) in
           let '(discharge, bitlineRampRead) := horowitz tauRBL (of_Z 0) (RowDecoder.rampOutput d) in
           let m := m <| writeBitlineDelay := write |> <| readBitlineDelay := discharge |> in
           match gc_discharge m with
           | None => fail m
           | Some (on, None) => fail (m <| bitlineDelayOn := on |>)
           | Some (on, Some off) =>
               let m := m <| bitlineDelayOn := on |> <| bitlineDelayOff := off |> <| bitlineDelay := MAX on off |>
                          <| readBitlineDelay := MAX on off |> in
               gc_results decoderLatency gcDecoderLatency (dram_sense bitlineRampRead m)
           end
       end).

(** *** Resistive cells and floating bodies *)

(** The delay of the bitline and the ramp of its output. *)
Definition resistive_bitline (m : t F) : t F * F :=
  (if negb (Cell.readMode cell) then
     let tau := resBitline m * capBitline m / #2 * (resMemCellOff m + resBitline m / #3) / (resMemCellOff m + resBitline m) in
     let '(delay, bitlineRamp) := horowitz tau #0 (RowDecoder.rampOutput (rowDecoder m)) in
     (m <| bitlineDelay := delay |>, bitlineRamp)
   else
     let '(resOn, resOff) :=
       if Cell.readVoltage cell =? #0 then (resMemCellOn m, resMemCellOff m) else (resEquivalentOn m, resEquivalentOff m) in
     let swingOn := voltagePrecharge m - voltageMemCellOn m in
     let swingOff := voltageMemCellOff m - voltagePrecharge m in
     let on := bitline_tau resOn m * nlog (swingOn / (swingOn - senseVoltage m)) in
     let off := bitline_tau resOff m * nlog (swingOff / (swingOff - senseVoltage m)) in
     (m <| bitlineDelayOn := on |> <| bitlineDelayOff := off |> <| bitlineDelay := MAX on off |>, #0))%num.

(** Writing: a set and a reset pulse, one of them when they are independent. *)
Definition resistive_write (m : t F) : t F :=
  (let u := fu m in
   let resetPulse := Cell.resetPulse cell in
   let setPulse := Cell.setPulse cell in
   let scheme := InputParameter.writeScheme ip in
   let row := written (rowDecoder m) in
   let start := MAX row (columnDecoderLatency m + chargeLatency m) in
   let independent :=
     m <| fu := u <| resetLatency := start + resetPulse |> <| setLatency := start + setPulse |>
                  <| writeLatency := start + MAX resetPulse setPulse |> |> in
   if kind PCRAM then if bool_decide (scheme = write_and_verify) then m else independent
   else if kind FBRAM then independent
   else if bool_decide (Cell.accessType cell = diode_access) || bool_decide (Cell.accessType cell = none_access) then
     let start := if bool_decide (scheme = erase_before_reset) || bool_decide (scheme = erase_before_set)
                  then MAX row (chargeLatency m) else start in
     m <| fu := u <| writeLatency := start + chargeLatency m + (resetPulse + setPulse) |> |>
   else independent)%num.

Definition latency_resistive (decoderLatency : F) (m : t F) : t F :=
  let '(m, bitlineRamp) := resistive_bitline m in
  let m := mux_and_sense bitlineRamp m in
  resistive_write (m <| fu := (fu m) <| readLatency := read_path decoderLatency m |> |>).

(** *** NAND flash *)
Definition latency_NAND (decoderLatency : F) (m : t F) : Outcome (t F) :=
  (let? n := MatInit.pages ip in
   let stringLength := wrap32 (wrap32 n + 2) in
   let w := MatInit.k14 tech * Process.featureSize tech in
   let? on := CalculateOnResistance w NMOS (MatInit.T ip) tech in
   let resPullDown := on * #stringLength in
   let tau := bitline_tau resPullDown m * nlog (voltagePrecharge m / (voltagePrecharge m - senseVoltage m)) in
   let gm := CalculateTransconductance w NMOS tech in
   let '(delay, bitlineRamp) := horowitz tau (#1 / (resPullDown * gm)) (RowDecoder.rampOutput (rowDecoder m)) in
   let m := mux_and_sense bitlineRamp (m <| bitlineDelay := MAX delay (tau * #20) |>) in
   let start := MAX (read (rowDecoder m)) (columnDecoderLatency m + chargeLatency m) in
   let set := start + Cell.flashProgramTime cell in
   Ret (set_latency (read_path decoderLatency m) set (set_switch (start + Cell.flashEraseTime cell) set m)))%num.

(** Mat::CalculateLatency *)
Definition CalculateLatency (_rampInput : F) (m : t F) : Outcome (t F) :=
  if negb (initialized m) then Ret m
  else if invalid m then Ret (set_latency invalid_value invalid_value m)
  else
    let? (m, decoderLatency, writeDecoderLatency) := peripherals _rampInput (m <| dramTiming := Timing.zero |>) in
    if kind SRAM then latency_SRAM decoderLatency m
    else if dram then Ret (latency_DRAM decoderLatency writeDecoderLatency m)
    else if kind gcDRAM then latency_gcDRAM _rampInput m
    else if MatInit.resistive cell || kind FBRAM then Ret (latency_resistive decoderLatency m)
    else if kind SLCNAND then latency_NAND decoderLatency m
    else Ret m.

End Operations.
End MatTiming.
