(* ===== verification/MatPower.v ===== *)
(** * Mats: energy and leakage

    Mat.cpp, [Mat::CalculatePower].  The write energies of a resistive cell are
    computed into the global [cell], so the cell is returned with the mat. *)
From S2P Require Import Prelude Numeric Types InputParameter Process Formula Circuit OutputDriver Decoders BinarySenseAmp Peripherals Tsv Aos Cell Wires MatData MatInit.
From stdpp Require Import base list strings.
From Stdlib Require Import ZArith Lia.
Open Scope Z_scope.

Module MatPower.
Import Formula FunctionUnit Mat.

Section Operations.
Context {F : Type} `{Num F}.
Context (tech devtech : Process.t F) (ip : InputParameter.t F) (cell : Cell.t F).

#[local] Abbreviation kind := (MatInit.kind cell).
#[local] Abbreviation dram := (MatInit.dram cell).
#[local] Abbreviation muxCap m := (Mux.capForPreviousPowerCalculation (bitlineMux m)).
#[local] Abbreviation vdd := (Process.vdd tech).

Definition DRAM_REFRESH_PERIOD : F := lit 2 (-1).

Definition set_fu (f : FunctionUnit.t F -> FunctionUnit.t F) (m : t F) : t F := m <| fu := f (fu m) |>.

(** The peripherals. *)
Definition peripherals (m : t F) : Outcome (t F) :=
  let ty := Cell.memCellType cell in
  let? p := Precharger.CalculatePower tech ip (precharger m) in
  let? d := RowDecoder.CalculatePower tech ip ty (rowDecoder m) in
  let? d0 := RowDecoder.CalculatePower tech ip ty (bitlineMuxDecoder m) in
  let? d1 := RowDecoder.CalculatePower tech ip ty (senseAmpMuxLev1Decoder m) in
  let? d2 := RowDecoder.CalculatePower tech ip ty (senseAmpMuxLev2Decoder m) in
  let? a := if internalSenseAmp m then SenseAmp.CalculatePower tech ip (senseAmp m) else Ret (senseAmp m) in
  Ret (m <| precharger := p |> <| rowDecoder := d |> <| bitlineMuxDecoder := d0 |> <| senseAmpMuxLev1Decoder := d1 |>
         <| senseAmpMuxLev2Decoder := d2 |> <| senseAmp := a |> <| bitlineMux := Mux.CalculatePower tech (bitlineMux m) |>
         <| senseAmpMuxLev1 := Mux.CalculatePower tech (senseAmpMuxLev1 m) |>
         <| senseAmpMuxLev2 := Mux.CalculatePower tech (senseAmpMuxLev2 m) |>).

(** The capacitance charged on a column. *)
Definition column_cap (m : t F) : F := (capCellAccess m + capBitline m + muxCap m)%num.

(** [x * numColumn / muxSenseAmp / muxOutputLev1 / muxOutputLev2], in [double]. *)
Definition per_selected (x : F) (m : t F) : F :=
  (x * #(numColumn m) / #(muxSenseAmp m) / #(muxOutputLev1 m) / #(muxOutputLev2 m))%num.

Definition power_SRAM (m : t F) : Outcome (t F) :=
  (let e := column_cap m * voltagePrecharge m * voltagePrecharge m in
   let k14 := MatInit.k14 tech in
   let fs := Process.featureSize tech in
   let? inverter := CalculateGateLeakage INV 1 (Cell.widthSRAMCellNMOS cell * k14 * fs) (Cell.widthSRAMCellPMOS cell * k14 * fs)
                      (MatInit.T ip) tech in
   let? access := CalculateGateLeakage INV 1 (Cell.widthAccessCMOS cell * fs) #0 (MatInit.T ip) tech in
   let l := (inverter * vdd * #2 + access * vdd) * #(wrap64 (numRow m * numColumn m)) in
   Ret (set_fu (fun u => u <| readDynamicEnergy := e * #(numColumn m) |> <| writeDynamicEnergy := per_selected e m |>
                           <| leakage := l |>) m))%num.

Definition power_DRAM (m : t F) : t F :=
  (let r := column_cap m * senseVoltage m * Process.vdd devtech * #(numColumn m) in
   let v := Cell.resetVoltage cell in
   let w := (capBitline m + muxCap m) * v * v * #(numColumn m) in
   let l := r / DRAM_REFRESH_PERIOD * #(numRow m) in
   let m := set_fu (fun u => u <| readDynamicEnergy := r |> <| refreshDynamicEnergy := r |> <| writeDynamicEnergy := w |>) m in
   if kind eDRAM && Cell.oxideTransistor cell then
     let bound := vdd * #(numRow m) * #(numColumn m) * AOS.Point.Ioff (aosAccessOperatingPoint m) in
     set_fu (fun u => u <| leakage := l + bound |>) (m <| aosLeakageUpperBound := bound |>)
   else set_fu (fun u => u <| leakage := l |>) m)%num.

Definition power_gcDRAM (m : t F) : Outcome (t F) :=
  (let? d := RowDecoder.CalculatePower tech ip (Cell.memCellType cell) (gcRowDecoder m) in
   let? p := Precharger.CalculatePower tech ip (writeDriver m) in
   let m := m <| gcRowDecoder := d |> <| writeDriver := p |> in
   let r := (capReadCellAccess m + capBitlineRead m + muxCap m) * senseVoltage m * Process.vdd devtech * #(numColumn m) in
   let v := Cell.resetVoltage cell in
   let w := (capWriteCellAccess m + capReadCellGate m + capBitline m + muxCap m) * v * v * #(numColumn m) in
   let l := w / DRAM_REFRESH_PERIOD * #(numRow m) in
   let m := set_fu (fun u => u <| readDynamicEnergy := r |> <| refreshDynamicEnergy := r |> <| writeDynamicEnergy := w |>)
              (m <| gcDramPower := (gcDramPower m) <| GcPower.readBitlineAccessEnergy := r |>
                                                   <| GcPower.writeBitlineAccessEnergy := w |> |>) in
   Ret (if Cell.oxideTransistor cell then
          let bound := vdd * (#(numRow m) + lit 20 (-1)) * #(numColumn m)
                       * (AOS.Point.Ioff (aosReadOperatingPoint m) + AOS.Point.Ioff (aosWriteOperatingPoint m)) in
          set_fu (fun u => u <| leakage := l + bound |>)
            (m <| aosLeakageUpperBound := bound |>
               <| gcDramPower := (gcDramPower m) <| GcPower.aosLeakageUpperBound := bound |> |>)
        else set_fu (fun u => u <| leakage := l |>) m))%num.

(** *** Resistive cells and floating bodies *)

(** The energy of the columns of a read. *)
Definition resistive_read (m : t F) : t F :=
  (if SenseAmp.UsesBinaryModel (senseAmp m) then
     let e := muxCap m * Cell.readVoltage cell * Cell.readVoltage cell * #(numSenseAmp m) in
     set_fu (fun u => u <| readDynamicEnergy := e |>)
       (m <| sensingMuxInputReadEnergy := e |> <| sensingBitlineReadEnergy := #0 |>)
   else if negb (Cell.readMode cell) then
     let resBitlineMux := Mux.resNMOSPassTransistor (bitlineMux m) in
     let total := resBitlineMux + resBitline m + resMemCellOn m in
     let vpreMin := Cell.readVoltage cell * resBitlineMux / total in
     let vpreMax := Cell.readVoltage cell * (resBitlineMux + resBitline m) / total in
     let e := (capCellAccess m * vpreMax * vpreMax + muxCap m * vpreMin * vpreMin
               + capBitline m * (vpreMax * vpreMax + vpreMin * vpreMin + vpreMax * vpreMin) / #3) * #(numColumn m) in
     set_fu (fun u => u <| readDynamicEnergy := e |>) (m <| sensingBitlineReadEnergy := e |>)
   else
     let e := column_cap m * (voltagePrecharge m * voltagePrecharge m - voltageMemCellOn m * voltageMemCellOn m)
              * #(numColumn m) in
     set_fu (fun u => u <| readDynamicEnergy := e |>) m)%num.

(** The energy of the read current in the cells; twice for the reference cell. *)
Definition cell_read (m : t F) : F :=
  (let time := readLatency (SenseAmp.fu (senseAmp m)) in
   let e :=
     if SenseAmp.UsesBinaryModel (senseAmp m) then #0
     else if Cell.readPower cell =? #0 then #2 * Cell.CalculateReadPower vdd cell * time
     else #2 * Cell.readPower cell * time in
   e * #(MatInit.selected m))%num.

(** The energy per bit of a pulse, with the charge of the column. *)
Definition pulse (energy voltage : F) (voltageMode : bool) (m : t F) : F :=
  (energy + column_cap m * (if voltageMode then voltage else vdd) * (if voltageMode then voltage else vdd))%num.

(** The energies of a write, by write scheme and access device. *)
Definition resistive_write (set reset : F) (m : t F) : t F :=
  (let r := per_selected reset m in
   let s := per_selected set m in
   let store (r s w : F) := set_fu (fun u => u <| cellResetEnergy := r |> <| cellSetEnergy := s |> <| writeDynamicEnergy := w |>) m in
   let shaped (e : F) := store (r / e) (s / e) (MAX (r / e) (s / e)) in
   let scheme := InputParameter.writeScheme ip in
   if kind PCRAM then if bool_decide (scheme = write_and_verify) then m else shaped (lit 2 (-1))
   else if kind FBRAM then shaped (lit 10 (-1))
   else
     let w :=
       if (bool_decide (Cell.accessType cell = diode_access) || bool_decide (Cell.accessType cell = none_access))
          && (bool_decide (scheme = erase_before_reset) || bool_decide (scheme = erase_before_set))
       then r + s else MAX r s in
     store (r / lit 10 (-1)) (s / lit 10 (-1)) (w / lit 10 (-1)))%num.

Definition power_resistive (m : t F) : t F * Cell.t F :=
  let m := resistive_read m in
  let e := cell_read m in
  let m := set_fu (fun u => u <| cellReadEnergy := e |>) m in
  let c := Cell.CalculateWriteEnergy vdd cell in
  let set := pulse (Cell.setEnergy c) (Cell.setVoltage c) (Cell.setMode c) m in
  let reset := pulse (Cell.resetEnergy c) (Cell.resetVoltage c) (Cell.resetMode c) m in
  (set_fu (fun u => u <| leakage := of_Z 0 |>) (resistive_write set reset m), c).

(** *** NAND flash *)
Definition power_NAND (m : t F) : Outcome (t F) :=
  (let? n := MatInit.pages ip in
   let pageCount := wrap32 n in
   let stringLength := wrap32 (pageCount + 2) in
   let? strings := quotient (numRow m) pageCount in
   let fs := Process.featureSize tech in
   let wordlines := (strings * stringLength)%Z in
   let pass := Cell.flashPassVoltage cell in
   let program := Cell.flashProgramVoltage cell in
   let erase := Cell.flashEraseVoltage cell in
   let word := readDynamicEnergy (RowDecoder.fu (rowDecoder m)) in
   let actualRead := word / vdd / vdd * pass * pass * #(wordlines - 1) in
   let set := column_cap m * program * program * #(numColumn m)
              + lit 50 (-1) * #10 * Cell.area cell * fs * fs * Cell.flashProgramTime cell * #(numColumn m) in
   let actualSet := word + word / vdd / vdd * pass * pass * #(wordlines - 1) + word / vdd / vdd * program * program in
   let lift := erase - Process.buildInPotential tech in
   let well := Process.capJunction tech * Cell.area cell * fs * fs * #(InputParameter.flashBlockSize ip) in
   let reset := column_cap m * lift * lift * #(numColumn m + 1) + well * erase * erase in
   let beta := lit 8 (-1) in
   let actualReset := word / vdd / vdd * (erase * beta) * (erase * beta) * #(wordlines - pageCount) in
   let write (s r : F) := (s + r / #pageCount) / #2 in
   let d := rowDecoder m in
   let d := d <| RowDecoder.fu := (RowDecoder.fu d) <| readDynamicEnergy := actualRead |> <| setDynamicEnergy := actualSet |>
                                    <| resetDynamicEnergy := actualReset |> <| writeDynamicEnergy := write actualSet actualReset |> |> in
   Ret (set_fu (fun u => u <| readDynamicEnergy := column_cap m * voltagePrecharge m * voltagePrecharge m * #(numColumn m) |>
                           <| setDynamicEnergy := set |> <| resetDynamicEnergy := reset |>
                           <| writeDynamicEnergy := write set reset |> <| leakage := #0 |>)
          (m <| rowDecoder := d |>)))%num.

(** ** Totals *)

(** One way of a set is written when all ways are read in parallel. *)
Definition per_way (m : t F) : t F :=
  if bool_decide (InputParameter.designTarget ip = cache)
     && negb (bool_decide (InputParameter.cacheAccessMode ip = sequential_access_mode)) then
    let a := of_Z (InputParameter.associativity ip) in
    set_fu (fun u => u <| cellResetEnergy := (cellResetEnergy u / a)%num |> <| cellSetEnergy := (cellSetEnergy u / a)%num |>
                       <| writeDynamicEnergy := (writeDynamicEnergy u / a)%num |>
                       <| resetDynamicEnergy := (resetDynamicEnergy u / a)%num |>
                       <| setDynamicEnergy := (setDynamicEnergy u / a)%num |>) m
  else m.

Definition ruDecoder (m : t F) : FunctionUnit.t F := RowDecoder.fu (rowDecoder m).

(** The energies of the circuits that write: all but the row decoder. *)
Definition write_circuits (first : F) (m : t F) : F :=
  (let w (u : FunctionUnit.t F) := writeDynamicEnergy u in
   first + w (RowDecoder.fu (bitlineMuxDecoder m)) + w (RowDecoder.fu (senseAmpMuxLev1Decoder m))
   + w (RowDecoder.fu (senseAmpMuxLev2Decoder m)) + w (Mux.fu (bitlineMux m)) + w (SenseAmp.fu (senseAmp m))
   + w (Mux.fu (senseAmpMuxLev1 m)) + w (Mux.fu (senseAmpMuxLev2 m)))%num.

Definition read_circuits (first : F) (m : t F) : F :=
  (let r (u : FunctionUnit.t F) := readDynamicEnergy u in
   first + r (ruDecoder m) + r (RowDecoder.fu (bitlineMuxDecoder m)) + r (RowDecoder.fu (senseAmpMuxLev1Decoder m))
   + r (RowDecoder.fu (senseAmpMuxLev2Decoder m)) + r (Precharger.fu (precharger m)) + r (Mux.fu (bitlineMux m))
   + r (SenseAmp.fu (senseAmp m)) + r (Mux.fu (senseAmpMuxLev1 m)) + r (Mux.fu (senseAmpMuxLev2 m)))%num.

Definition leaking_circuits (m : t F) : F :=
  (let l (u : FunctionUnit.t F) := leakage u in
   l (ruDecoder m) + l (RowDecoder.fu (bitlineMuxDecoder m)) + l (RowDecoder.fu (senseAmpMuxLev1Decoder m))
   + l (RowDecoder.fu (senseAmpMuxLev2Decoder m)) + l (Precharger.fu (precharger m)) + l (Mux.fu (bitlineMux m))
   + l (SenseAmp.fu (senseAmp m)) + l (Mux.fu (senseAmpMuxLev1 m)) + l (Mux.fu (senseAmpMuxLev2 m)))%num.

(** Reading and writing, with the split paths of a gain cell. *)
Definition access_energy (m : t F) : t F :=
  (let m := set_fu (fun u => u <| readDynamicEnergy := readDynamicEnergy u + read_circuits (cellReadEnergy u) m |>
                               <| writeDynamicEnergy := writeDynamicEnergy u + write_circuits (writeDynamicEnergy (ruDecoder m)) m |>) m in
   if kind gcDRAM then
     let driver := Precharger.fu (writeDriver m) in
     let reader := RowDecoder.fu (gcRowDecoder m) in
     let m := m <| gcDramPower := (gcDramPower m) <| GcPower.writeDriverEnergy := readDynamicEnergy driver |> |> in
     set_fu (fun u => u <| writeDynamicEnergy := writeDynamicEnergy u + readDynamicEnergy driver |>
                        <| readDynamicEnergy := readDynamicEnergy u - readDynamicEnergy (ruDecoder m) + readDynamicEnergy reader |>
                        <| leakage := leakage u + (leakage reader + leakage driver) |>) m
   else m)%num.

(** Refreshing all rows and the two reference rows. *)
Definition refresh_energy (m : t F) : t F :=
  (let e (u : FunctionUnit.t F) := readDynamicEnergy u in
   let rows := of_Z (numRow m + 2) in
   let g := gcDramPower m in
   let x :=
     if kind gcDRAM
     then (GcPower.readBitlineAccessEnergy g + GcPower.writeBitlineAccessEnergy g + e (ruDecoder m)
           + e (RowDecoder.fu (gcRowDecoder m)) + e (Precharger.fu (precharger m)) + e (Precharger.fu (writeDriver m))
           + e (SenseAmp.fu (senseAmp m))) * rows
     else (refreshDynamicEnergy (fu m) + (e (ruDecoder m) + e (Precharger.fu (precharger m)) + e (SenseAmp.fu (senseAmp m))))
          * rows in
   set_fu (fun u => u <| refreshDynamicEnergy := x |>) m)%num.

(** Set and reset, the muxes of a cross point once more, and the leakage. *)
Definition switching_energy (m : t F) : t F :=
  (let u := fu m in
   let set := setDynamicEnergy u + write_circuits (cellSetEnergy u + setDynamicEnergy (ruDecoder m)) m in
   let reset := resetDynamicEnergy u + write_circuits (set + resetDynamicEnergy (ruDecoder m)) m in
   let w (v : FunctionUnit.t F) := writeDynamicEnergy v in
   let write :=
     if bool_decide (Cell.accessType cell = diode_access) || bool_decide (Cell.accessType cell = none_access)
     then w u + (w (Mux.fu (bitlineMux m)) + w (SenseAmp.fu (senseAmp m)) + w (Mux.fu (senseAmpMuxLev1 m))
                 + w (Mux.fu (senseAmpMuxLev2 m)))
     else w u in
   set_fu (fun u => u <| setDynamicEnergy := set |> <| resetDynamicEnergy := reset |> <| writeDynamicEnergy := write |>
                      <| leakage := leakage u + leaking_circuits m |>) m)%num.

(** [invalid = true; readDynamicEnergy = ... = leakage = invalid_value;] *)
Definition fail (m : t F) : t F :=
  set_fu (fun u => u <| readDynamicEnergy := invalid_value |> <| writeDynamicEnergy := invalid_value |>
                     <| refreshDynamicEnergy := invalid_value |> <| leakage := invalid_value |>) (m <| invalid := true |>).

Definition figures (u : FunctionUnit.t F) : list F := [readDynamicEnergy u; writeDynamicEnergy u; leakage u].

(** The results of a DRAM must be finite and not negative. *)
Definition checked (m : t F) : t F :=
  let u := fu m in
  let g := gcDramPower m in
  if (dram || kind gcDRAM)
     && negb (AreFiniteNonNegative [readDynamicEnergy u; writeDynamicEnergy u; refreshDynamicEnergy u; leakage u; aosLeakageUpperBound m])
  then fail m
  else if kind gcDRAM
     && negb (AreFiniteNonNegative
          ([GcPower.readBitlineAccessEnergy g; GcPower.writeBitlineAccessEnergy g; GcPower.writeDriverEnergy g;
            GcPower.aosLeakageUpperBound g] ++ figures (ruDecoder m) ++ figures (RowDecoder.fu (gcRowDecoder m))
           ++ figures (RowDecoder.fu (bitlineMuxDecoder m)) ++ figures (RowDecoder.fu (senseAmpMuxLev1Decoder m))
           ++ figures (RowDecoder.fu (senseAmpMuxLev2Decoder m)) ++ figures (Precharger.fu (precharger m))
           ++ figures (Precharger.fu (writeDriver m)) ++ figures (Mux.fu (bitlineMux m)) ++ figures (SenseAmp.fu (senseAmp m))
           ++ figures (Mux.fu (senseAmpMuxLev1 m)) ++ figures (Mux.fu (senseAmpMuxLev2 m))
           ++ [readDynamicEnergy u; writeDynamicEnergy u; refreshDynamicEnergy u; leakage u])%list)
  then fail m
  else m.

(** The energy of the cells and bitlines, by kind of cell. *)
Definition cells (m : t F) : Outcome (t F * Cell.t F) :=
  if kind SRAM then let? m := power_SRAM m in Ret (m, cell)
  else if dram then Ret (power_DRAM m, cell)
  else if kind gcDRAM then let? m := power_gcDRAM m in Ret (m, cell)
  else if MatInit.resistive cell || kind FBRAM then Ret (power_resistive m)
  else if kind SLCNAND then let? m := power_NAND m in Ret (m, cell)
  else Ret (m, cell).

(** Mat::CalculatePower *)
Definition CalculatePower (m : t F) : Outcome (t F * Cell.t F) :=
  if negb (initialized m) then Ret (m, cell)
  else if invalid m then
    Ret (set_fu (fun u => u <| readDynamicEnergy := invalid_value |> <| writeDynamicEnergy := invalid_value |>
                            <| leakage := invalid_value |>) m, cell)
  else
    let m := set_fu (fun u => u <| refreshDynamicEnergy := of_Z 0 |>)
               (m <| gcDramPower := GcPower.zero |> <| aosLeakageUpperBound := of_Z 0 |>) in
    let? m := peripherals m in
    let? (m, c) := cells m in
    Ret (checked (switching_energy (refresh_energy (access_energy (per_way m)))), c).

End Operations.
End MatPower.
