(* ===== verification/LeafFacts.v ===== *)
(** * Facts about drivers and decoders *)
From S2P Require Import Prelude Numeric Types InputParameter Process Formula Circuit OutputDriver Decoders Predecode.
From stdpp Require Import base list strings.
From Stdlib Require Import ZArith Lia.
Open Scope Z_scope.

(** ** Output drivers *)

Module DriverFacts.
Import Formula OutputDriver.

Section Arrays.
Context {A : Type}.

Lemma get_ok (l : list A) i : 0 <= i < Z.of_nat (length l) -> exists x, get l i = Ret x.
Proof.
  intros Hi. unfold get. rewrite (proj2 (Z.ltb_ge i 0)) by lia.
  destruct (lookup_lt_is_Some_2 l (Z.to_nat i)) as [x ->]; [lia|by exists x].
Qed.

Lemma put_ok (l : list A) i x : 0 <= i < Z.of_nat (length l) ->
  exists l', put l i x = Ret l' /\ length l' = length l.
Proof.
  intros Hi. unfold put. rewrite (proj2 (Z.leb_le 0 i)), (proj2 (Z.ltb_lt i _)) by lia.
  eexists. split; [reflexivity|]. apply length_insert.
Qed.

Lemma put_out (l : list A) i x : Z.of_nat (length l) <= i -> put l i x = Exit undefined.
Proof. intros Hi. unfold put. by rewrite (proj2 (Z.ltb_ge i _)), andb_false_r. Qed.

(** A loop whose body returns while an invariant holds returns. *)
Lemma stages_ok (I : A -> Prop) n (body : A -> Z -> Outcome A) :
  (forall s i, I s -> 0 <= i < n -> exists s', body s i = Ret s' /\ I s') ->
  forall s, I s -> exists s', stages n body s = Ret s' /\ I s'.
Proof.
  intros Hb s Hs. unfold stages.
  assert (Hr : Forall (fun i => 0 <= i < n) (seqZ 0 n)) by (apply Forall_forall; intros i Hi%elem_of_seqZ; lia).
  revert s Hs. induction Hr as [|i l Hi _ IH]; intros s Hs; cbn; [by exists s|].
  destruct (Hb s i Hs Hi) as (s1 & -> & H1). cbn. by apply IH.
Qed.
End Arrays.

Section Driver.
Context {F : Type} `{Num F}.
Context (tech : Process.t F) (ip : InputParameter.t F).

(** The members a driver keeps through its sizing. *)
Definition frame (d d' : t F) : Prop :=
  fu d' = fu d /\ initialized d' = initialized d /\ invalid d' = invalid d /\ inv d' = inv d /\
  logicEffort d' = logicEffort d /\ inputCap d' = inputCap d /\ outputCap d' = outputCap d /\
  length (widthNMOS d') = length (widthNMOS d) /\ length (widthPMOS d') = length (widthPMOS d) /\
  length (capInput d') = length (capInput d) /\ length (capOutput d') = length (capOutput d).

Lemma frame_refl d : frame d d.
Proof. by repeat split. Qed.

Lemma frame_trans d d' d'' : frame d d' -> frame d' d'' -> frame d d''.
Proof. unfold frame. intuition congruence. Qed.

Lemma put_length {A} (l : list A) i x l' : put l i x = Ret l' -> length l' = length l.
Proof. unfold put. case_match; [|done]. intros [= <-]. apply length_insert. Qed.

Lemma shrink_frame e f i : forall d d', shrink tech e f i d = Ret d' -> frame d d' /\ numStage d' = numStage d /\
  areaOptimizationLevel d' = areaOptimizationLevel d.
Proof.
  induction i as [|j IH]; intros d d'; cbn [shrink].
  - intros [= <-]. split; [apply frame_refl|done].
  - destruct (get _ _) as [x|]; [|done]. cbn [outcome_bind].
    destruct (if e then _ else _) as [[n p]|]; [|done]. cbn [outcome_bind].
    destruct (put (widthNMOS d) _ _) as [ns|] eqn:En; [|done]. cbn [outcome_bind].
    destruct (put (widthPMOS d) _ _) as [ps|] eqn:Ep; [|done]. cbn [outcome_bind].
    intros (Hf & Hs & Hl)%IH. split; [|done]. eapply frame_trans; [|exact Hf].
    apply put_length in En, Ep. by repeat split.
Qed.

Hypothesis bulk : (nm 22 <=? Process.featureSize tech)%num = true.

Lemma enlarge_ok n p h : exists r, EnlargeSize n p h tech = Ret r.
Proof. unfold EnlargeSize. rewrite bulk. by eexists. Qed.

Lemma shrink_ok e f i : forall d, Z.of_nat i < Z.of_nat (length (widthNMOS d)) -> length (widthPMOS d) = length (widthNMOS d) ->
  exists d', shrink tech e f i d = Ret d'.
Proof.
  induction i as [|j IH]; intros d Hi Hl; cbn [shrink]; [by exists d|].
  destruct (get_ok (widthNMOS d) (Z.of_nat (S j))) as [x ->]; [lia|]. cbn [outcome_bind].
  set (n := if (_ <? _)%num then _ else _). set (p := (n * _)%num).
  assert (exists r, (if e then EnlargeSize n p (cell_region tech) tech else Ret (n, p)) = Ret r) as [[n' p'] ->]
    by (destruct e; [apply enlarge_ok|by eexists]).
  cbn [outcome_bind]. destruct (put_ok (widthNMOS d) (Z.of_nat j) n') as (ns & -> & Hns); [lia|]. cbn [outcome_bind].
  destruct (put_ok (widthPMOS d) (Z.of_nat j) p') as (ps & -> & Hps); [lia|]. cbn [outcome_bind].
  apply IH; cbn; lia.
Qed.

Lemma adjust_range b n : 0 <= n -> 0 <= adjust b n <= 20 /\ (adjust b n < 20 -> Z.odd (adjust b n) = b).
Proof.
  intros Hn. unfold adjust, MAX_INV_CHAIN_LEN.
  assert (Ho : (Z.rem n 2 =? 1) = Z.odd n).
  { rewrite Z.rem_mod_nonneg by lia. rewrite Zmod_odd. by destruct (Z.odd n). }
  rewrite Ho. assert (Hp : Z.odd (if xorb (Z.odd n) b then n + 1 else n) = b).
  { destruct (xorb (Z.odd n) b) eqn:E.
    - rewrite Z.add_1_r, Z.odd_succ, <- Z.negb_odd. by destruct (Z.odd n), b.
    - by destruct (Z.odd n), b. }
  set (m := if xorb (Z.odd n) b then n + 1 else n) in *.
  assert (0 <= m) by (unfold m; case_match; lia).
  destruct (Z.ltb_spec 20 m); split; try lia. done.
Qed.

Lemma effort_stages_nonneg (x : F) : 0 <= effort_stages x.
Proof. unfold effort_stages. lia. Qed.

(** A sized chain: stages within the arrays, with the parity of [inv] unless the
    chain has the largest length. *)
Definition sized (d : t F) : Prop :=
  0 <= numStage d <= 20 /\ (numStage d < 20 -> Z.odd (numStage d) = inv d).

Definition full_arrays (d : t F) : Prop :=
  length (widthNMOS d) = 20%nat /\ length (widthPMOS d) = 20%nat /\ length (capInput d) = 20%nat /\
  length (capOutput d) = 20%nat.

Lemma frame_arrays d d' : frame d d' -> full_arrays d -> full_arrays d'.
Proof. unfold frame, full_arrays. intuition congruence. Qed.

Lemma latency_style_ok w d : full_arrays d -> areaOptimizationLevel d = latency_first ->
  exists d', latency_style tech ip w d = Ret d' /\ frame d d' /\
    (areaOptimizationLevel d' = latency_first /\ sized d' \/ areaOptimizationLevel d' = latency_area_trade_off).
Proof.
  intros Ha Hl. pose proof Ha as (HN & HP & _). unfold latency_style. cbv zeta.
  set (effort := MAX _ _). set (n := adjust _ _).
  destruct (adjust_range (inv d) (effort_stages effort) (effort_stages_nonneg _)) as [Hr Ho]. fold n in Hr, Ho.
  destruct (Z.eqb_spec n 0) as [E|E].
  - eexists. split; [reflexivity|]. case_match; (split; [by repeat split|]); [by right|].
    left. split; [done|]. split; [done|exact Ho].
  - destruct (last_inverter tech ip _ effort n) as [x f].
    destruct (put_ok (widthNMOS d) (n - 1) x) as (ns & En & Hns); [rewrite HN; lia|].
    change (widthNMOS (d <| numStage := n |>)) with (widthNMOS d). rewrite En. cbn [outcome_bind].
    case_match; [eexists; split; [reflexivity|]; split; [by repeat split|by right]|].
    destruct (put_ok (widthPMOS d) (n - 1) (x * Process.pnSizeRatio tech)%num) as (ps & Ep & Hps); [rewrite HP; lia|].
    change (widthPMOS (d <| numStage := n |> <| widthNMOS := ns |>)) with (widthPMOS d). rewrite Ep. cbn [outcome_bind].
    set (d1 := _ <| widthPMOS := ps |>).
    destruct (shrink_ok true f (Z.to_nat (n - 1)) d1) as [d' Es]; [cbn; lia|cbn; lia|].
    destruct (shrink_frame _ _ _ _ _ Es) as (Hf & Hs & Hv).
    exists d'. split; [done|]. assert (Hfr : frame d d') by (eapply frame_trans; [|exact Hf]; by repeat split).
    split; [done|]. left. split; [by rewrite Hv|]. unfold sized.
    destruct Hfr as (_ & _ & _ & -> & _). by rewrite Hs.
Qed.

(** The inverters before the last one in the trade-off style. *)
Definition trade_off_stages (le ic w : F) (iv : bool) : Z :=
  adjust (negb iv) (effort_stages (trade_off_effort tech le ic w)).

Lemma trade_off_ok w d : full_arrays d -> trade_off_stages (logicEffort d) (inputCap d) w (inv d) <> 20 ->
  exists d', trade_off_style tech w d = Ret d' /\ frame d d' /\ sized d'.
Proof.
  intros Ha He. pose proof Ha as (HN & HP & _). unfold trade_off_style, trade_off_stages in *. cbv zeta.
  set (n := adjust _ _) in *.
  destruct (adjust_range (negb (inv d)) (effort_stages (trade_off_effort tech (logicEffort d) (inputCap d) w)) (effort_stages_nonneg _)) as [Hr Ho].
  fold n in Hr, Ho.
  assert (Hn : n <= 19) by lia.
  change (widthNMOS (d <| numStage := n + 1 |>)) with (widthNMOS d).
  change (widthPMOS (d <| numStage := n + 1 |>)) with (widthPMOS d).
  destruct (put_ok (widthNMOS d) n w) as (ns & -> & Hns); [rewrite HN; lia|]. cbn [outcome_bind].
  destruct (put_ok (widthPMOS d) n (w * Process.pnSizeRatio tech)%num) as (ps & -> & Hps); [rewrite HP; lia|].
  cbn [outcome_bind]. set (d1 := _ <| widthPMOS := ps |>). set (f := npow _ _).
  destruct (shrink_ok false f (Z.to_nat n) d1) as [d' Es]; [cbn; lia|cbn; lia|].
  destruct (shrink_frame _ _ _ _ _ Es) as (Hf & Hs & _). exists d'. split; [done|].
  assert (Hfr : frame d d') by (eapply frame_trans; [|exact Hf]; by repeat split). split; [done|].
  unfold sized. destruct Hfr as (_ & _ & _ & -> & _). rewrite Hs. cbn [numStage d1].
  change (numStage d1) with (n + 1). split; [lia|]. intros Hlt. rewrite Z.add_1_r, Z.odd_succ, <- Z.negb_odd, Ho by lia.
  by rewrite negb_involutive.
Qed.

(** With a stage count of 20 the last inverter lies outside the arrays. *)
Lemma trade_off_overruns w d : full_arrays d -> trade_off_stages (logicEffort d) (inputCap d) w (inv d) = 20 ->
  trade_off_style tech w d = Exit undefined.
Proof.
  intros (HN & _) He. unfold trade_off_style. cbv zeta. unfold trade_off_stages in He. rewrite He.
  change (widthNMOS (d <| numStage := 20 + 1 |>)) with (widthNMOS d). rewrite put_out by (rewrite HN; lia). done.
Qed.

(** The outcome of [Initialize]: an invalid driver that is not initialised, or a
    sized chain. *)
Definition driver_ready (level : BufferDesignTarget) (d d' : t F) : Prop :=
  full_arrays d' /\ fu d' = fu d /\
  (invalid d' = true /\ initialized d' = initialized d \/
   invalid d' = false /\ initialized d' = true /\ areaOptimizationLevel d' = level /\
   0 <= numStage d' <= 20 /\ (level <> area_first -> numStage d' < 20 -> Z.odd (numStage d') = inv d')).

Lemma min_driver_width_ok current : length (Process.currentOnNmos tech) = 101%nat ->
  300 <= InputParameter.temperature ip <= 400 -> exists w, min_driver_width tech ip current = Ret w.
Proof.
  intros Hl Ht. unfold min_driver_width.
  destruct (get_ok (Process.currentOnNmos tech) (InputParameter.temperature ip - 300)) as [x ->]; [rewrite Hl; lia|].
  by eexists.
Qed.

Lemma area_style_ok w d : full_arrays d ->
  exists d' b, area_style tech ip w d = Ret (d', b) /\ full_arrays d' /\ fu d' = fu d /\ initialized d' = initialized d /\
    numStage d' = 1 /\ areaOptimizationLevel d' = areaOptimizationLevel d /\ inv d' = inv d /\
    invalid d' = (if b then true else invalid d).
Proof.
  intros (HN & HP & HI & HO). unfold area_style. cbv zeta.
  change (widthNMOS (d <| numStage := 1 |>)) with (widthNMOS d).
  destruct (put_ok (widthNMOS d) 0 (MAX (min_width tech) w)) as (ns & -> & Hns); [rewrite HN; lia|]. cbn [outcome_bind].
  case_match.
  - eexists _, true. split; [reflexivity|]. unfold full_arrays. cbn. by rewrite Hns.
  - change (widthPMOS (_ <| widthNMOS := ns |>)) with (widthPMOS d).
    destruct (put_ok (widthPMOS d) 0 (MAX (min_width tech) w * Process.pnSizeRatio tech)%num) as (ps & -> & Hps); [rewrite HP; lia|].
    cbn [outcome_bind]. eexists _, false. split; [reflexivity|]. unfold full_arrays. cbn. by rewrite Hns, Hps.
Qed.

(** A driver is built, or its chain in the trade-off style overruns the arrays. *)
Lemma Initialize_cases le ic oc ores iv level cur rep wl d w :
  full_arrays d -> min_driver_width tech ip cur = Ret w ->
  (exists d', Initialize tech ip le ic oc ores iv level cur rep wl d = Ret d' /\ driver_ready level d d' /\ inv d' = iv) \/
  (Initialize tech ip le ic oc ores iv level cur rep wl d = Exit undefined /\ level <> area_first /\
   trade_off_stages le ic w iv = 20).
Proof.
  intros Ha Ew. unfold Initialize. cbv zeta. set (d0 := _ <| invalid := false |>).
  change (minDriverCurrent d0) with cur. rewrite Ew. cbn [outcome_bind].
  assert (Ha0 : full_arrays d0) by exact Ha.
  case_match; [left; eexists; split; [reflexivity|]; split; [|done]; split; [exact Ha|]; split; [done|by left]|].
  change (areaOptimizationLevel d0) with level.
  assert (exists d1, (if bool_decide (level = latency_first) then latency_style tech ip w d0 else Ret d0) = Ret d1 /\
            frame d0 d1 /\ (areaOptimizationLevel d1 = latency_first /\ sized d1 /\ level <> area_first \/
                            areaOptimizationLevel d1 = latency_area_trade_off /\ level <> area_first \/
                            areaOptimizationLevel d1 = area_first /\ level = area_first)) as (d1 & -> & Hf & Hlev).
  { case_bool_decide as El.
    - destruct (latency_style_ok w d0 Ha0 El) as (d1 & E1 & Hf & Hd). exists d1. split; [done|]. split; [done|].
      destruct Hd as [[E2 Hs]|E2]; [left; split; [done|]; split; [done|congruence]|right; left; split; [done|congruence]].
    - exists d0. split; [done|]. split; [apply frame_refl|]. change (areaOptimizationLevel d0) with level.
      destruct level; [done|right; left; done|right; right; done]. }
  cbn [outcome_bind]. pose proof (frame_arrays _ _ Hf Ha0) as Ha1. pose proof Hf as (Hfu & Hi & Hv & Hiv & Hle & Hic & _).
  assert (Hdone : forall d2, frame d1 d2 -> 0 <= numStage d2 <= 20 ->
            (level <> area_first -> numStage d2 < 20 -> Z.odd (numStage d2) = inv d2) ->
            driver_ready level d (d2 <| areaOptimizationLevel := level |> <| initialized := true |>) /\
            inv (d2 <| areaOptimizationLevel := level |> <| initialized := true |>) = iv).
  { intros d2 Hf2 Hn Ho. pose proof (frame_arrays _ _ Hf2 Ha1). destruct Hf2 as (Hfu2 & _ & Hv2 & Hiv2 & _).
    split; [|cbn; rewrite Hiv2, Hiv; done].
    split; [done|]. split; [cbn; rewrite Hfu2, Hfu; done|]. right. split; [cbn; rewrite Hv2, Hv; done|].
    split; [done|]. split; [done|]. split; [exact Hn|exact Ho]. }
  destruct Hlev as [(El & [Hn Ho] & Hne)|[(El & Hne)|(El & Heq)]]; rewrite El.
  - rewrite bool_decide_false, bool_decide_false by done. cbn [outcome_bind].
    left. eexists. split; [reflexivity|]. apply Hdone; [apply frame_refl|done|done].
  - rewrite bool_decide_true by done.
    assert (Es : trade_off_stages (logicEffort d1) (inputCap d1) w (inv d1) = trade_off_stages le ic w iv) by (by rewrite Hle, Hic, Hiv).
    destruct (decide (trade_off_stages le ic w iv = 20)) as [H20|H20].
    { right. rewrite trade_off_overruns by congruence. done. }
    left. destruct (trade_off_ok w d1 Ha1) as (d2 & -> & Hf2 & Hn2 & Ho2); [congruence|]. cbn [outcome_bind].
    eexists. split; [reflexivity|]. by apply Hdone.
  - rewrite bool_decide_false, bool_decide_true by done.
    destruct (area_style_ok w d1 Ha1) as (d2 & b & -> & Ha2 & Hfu2 & Hi2 & Hn2 & Hl2 & Hiv2 & Hv2). cbn [outcome_bind].
    left. destruct b; (eexists; split; [reflexivity|]); (split; [|cbn; rewrite Hiv2, Hiv; done]).
    + split; [done|]. split; [rewrite Hfu2, Hfu; done|]. left. split; [done|]. rewrite Hi2, Hi. done.
    + split; [done|]. split; [cbn; rewrite Hfu2, Hfu; done|]. right. split; [cbn; rewrite Hv2, Hv; done|].
      split; [done|]. split; [done|]. cbn. rewrite Hn2. split; [lia|]. intros. congruence.
Qed.

(** The area of an initialised chain is computed without undefined behaviour. *)
Lemma area_ok level d d' : initialized d = false -> driver_ready level d d' -> exists d2, CalculateArea tech d' = Ret d2.
Proof.
  intros Hi ((HN & HP & _) & _ & Hd). unfold CalculateArea.
  destruct Hd as [[_ E]|(Ev & Ei & _ & Hn & _)]; [rewrite E, Hi; by eexists|]. rewrite Ei, Ev. cbn [negb].
  set (body := fun '(th, tw) i => _).
  destruct (stages_ok (fun _ => True) (numStage d') body) with (s := (of_Z 0 : F, of_Z 0 : F)) as ([h w] & E & _); [|done|].
  - intros [th tw] i _ Hr. unfold body. destruct (get_ok (widthNMOS d') i) as [n ->]; [rewrite HN; lia|].
    destruct (get_ok (widthPMOS d') i) as [p ->]; [rewrite HP; lia|]. cbn [outcome_bind].
    unfold CalculateGateArea, gate_regions. rewrite bulk. destruct (bulk_limits _ _ _) as [mp mn]. cbn [outcome_bind].
    destruct (bulk_region _ _ mp), (bulk_region _ _ mn). by eexists.
  - rewrite E. by eexists.
Qed.

End Driver.
(** ** Invalid drivers *)

Section Invalid.
Context {F : Type} `{Num F}.
Context (tech : Process.t F) (ip : InputParameter.t F).

Lemma latency_frame w (d d' : t F) : latency_style tech ip w d = Ret d' -> frame d d'.
Proof.
  unfold latency_style. cbv zeta. case_match; [by intros [= <-]; case_match; repeat split|].
  destruct (last_inverter _ _ _ _ _) as [x f].
  destruct (put (widthNMOS _) _ x) as [ns|] eqn:En; [|done]. cbn [outcome_bind]. apply put_length in En.
  case_match; [by intros [= <-]; repeat split|].
  destruct (put (widthPMOS _) _ _) as [ps|] eqn:Ep; [|done]. cbn [outcome_bind]. apply put_length in Ep.
  intros (Hf & _)%shrink_frame. eapply frame_trans; [|exact Hf]. by repeat split.
Qed.

Lemma trade_off_frame w (d d' : t F) : trade_off_style tech w d = Ret d' -> frame d d'.
Proof.
  unfold trade_off_style. cbv zeta.
  destruct (put (widthNMOS _) _ w) as [ns|] eqn:En; [|done]. cbn [outcome_bind]. apply put_length in En.
  destruct (put (widthPMOS _) _ _) as [ps|] eqn:Ep; [|done]. cbn [outcome_bind]. apply put_length in Ep.
  intros (Hf & _)%shrink_frame. eapply frame_trans; [|exact Hf]. by repeat split.
Qed.

Lemma area_frame w (d d' : t F) b : area_style tech ip w d = Ret (d', b) ->
  fu d' = fu d /\ initialized d' = initialized d /\ invalid d' = (if b then true else invalid d).
Proof.
  unfold area_style. cbv zeta. destruct (put (widthNMOS _) _ _); [|done]. cbn [outcome_bind].
  case_match; [by intros [= <- <-]|]. destruct (put (widthPMOS _) _ _); [|done]. by intros [= <- <-].
Qed.

(** Whatever the arguments: an invalid driver is left uninitialised. *)
Lemma Initialize_invalid le ic oc ores iv level cur rep wl (d d' : t F) :
  Initialize tech ip le ic oc ores iv level cur rep wl d = Ret d' -> invalid d' = true ->
  initialized d' = initialized d /\ fu d' = fu d.
Proof.
  unfold Initialize. cbv zeta. set (d0 := _ <| invalid := false |>).
  destruct (min_driver_width _ _ _) as [w|]; [|done]. cbn [outcome_bind].
  case_match; [by intros [= <-]|].
  destruct (if bool_decide (areaOptimizationLevel d0 = latency_first) then _ else _) as [d1|] eqn:E1; [|done].
  cbn [outcome_bind].
  assert (Hf : frame d0 d1) 
    by (revert E1; destruct (bool_decide _); [by intros E1%latency_frame|intros [= <-]; apply frame_refl]).
  destruct Hf as (Hfu & Hi & Hv & _).
  destruct (if bool_decide (areaOptimizationLevel d1 = latency_area_trade_off) then _ else _) as [[d2 b]|] eqn:E2; [|done].
  cbn [outcome_bind].
  assert (Hd2 : fu d2 = fu d0 /\ initialized d2 = initialized d0 /\ invalid d2 = (if b then true else false)).
  { revert E2. destruct (bool_decide (areaOptimizationLevel d1 = latency_area_trade_off)).
    - destruct (trade_off_style _ _ _) as [d3|] eqn:E3; [|done]. cbn [outcome_bind]. intros [= <- <-].
      apply trade_off_frame in E3 as (Hfu3 & Hi3 & Hv3 & _). by rewrite Hfu3, Hi3, Hv3, Hfu, Hi, Hv.
    - destruct (bool_decide (areaOptimizationLevel d1 = area_first)).
      + intros (Hfu3 & Hi3 & Hv3)%area_frame. rewrite Hfu3, Hi3, Hv3, Hfu, Hi, Hv. done.
      + intros [= <- <-]. by rewrite Hfu, Hi, Hv. }
  destruct Hd2 as (Hfu2 & Hi2 & Hv2). destruct b; intros [= <-] Hinv.
  - by rewrite Hi2, Hfu2.
  - change (invalid d2 = true) in Hinv. congruence.
Qed.

Lemma uninitialised_phases (d : t F) ramp : initialized d = false ->
  CalculateArea tech d = Ret d /\ CalculateRC tech d = Ret d /\ CalculateLatency tech ip ramp d = Ret d /\
  CalculatePower tech ip d = Ret d.
Proof.
  intros E. unfold CalculateArea, CalculateRC, CalculateLatency, CalculatePower. by rewrite E.
Qed.

End Invalid.
End DriverFacts.

(** ** Predecode blocks *)

Module PredecodeFacts.
Import Formula PredecodeBlock.

Lemma counts_bits n : 1 <= n -> let '(d12, d24, d38) := decoder_counts n in
  d12 + 2 * d24 + 3 * d38 = n /\ 0 <= d12 <= 1 /\ 0 <= d24 <= 2 /\ 0 <= d38.
Proof.
  intros Hn. unfold decoder_counts. destruct (Z.eqb_spec n 1) as [->|Hne]; [lia|].
  rewrite Z.rem_mod_nonneg by lia. pose proof (Z.div_mod n 3). pose proof (Z.mod_pos_bound n 3).
  destruct (Z.eqb_spec (n mod 3) 2) as [E|E].
  - rewrite Z.quot_div_nonneg by lia. replace (n - 2 * 1) with (n / 3 * 3) by lia. rewrite Z.div_mul by lia. lia.
  - destruct (Z.eqb_spec (n mod 3) 1) as [E1|E1].
    + rewrite Z.quot_div_nonneg by lia. replace (n - 2 * 2) with ((n / 3 - 1) * 3) by lia. rewrite Z.div_mul by lia. lia.
    + rewrite Z.quot_div_nonneg by lia. replace (n - 2 * 0) with (n / 3 * 3) by lia. rewrite Z.div_mul by lia. lia.
Qed.

Section Tree.
Context {F : Type} `{Num F}.
Context (raw : F) (tech : Process.t F) (ip : InputParameter.t F).

(** The outputs of a basic decoder: its gates, or the two ends of an inverter. *)
Definition outputs (d : BasicDecoder.t F) : Z :=
  if BasicDecoder.numNandInput d =? 0 then 2 else BasicDecoder.numNandGate d.

(** The combinations the decoders of a group can select. *)
Definition combinations (n : Z) (d : option (BasicDecoder.t F)) : Z :=
  match d with Some x => outputs x ^ n | None => 1 end.

Definition rows (r : option (RowDecoder.t F)) : Z := match r with Some x => RowDecoder.numRow x | None => 1 end.

(** The tree decodes [n] bits: the groups have as many rows as their decoders have
    combinations, and the last stage has one row per address. *)
Definition decodes (n : Z) (b : t F) : Prop :=
  numAddressBit b = n /\ initialized b = true /\
  combinations (numBasicDecoderA1 b) (basicDecoderA1 b) * combinations (numBasicDecoderA2 b) (basicDecoderA2 b)
    * combinations (numNandInputStage1B b) (basicDecoderB b) * combinations (numNandInputStage1C b) (basicDecoderC b)
    = 2 ^ n /\
  match rowDecoderStage1A b with
  | None => True
  | Some _ =>
      rows (rowDecoderStage1A b) * rows (rowDecoderStage1B b) * rows (rowDecoderStage1C b) = 2 ^ n /\
      rows (rowDecoderStage1B b) = combinations (numNandInputStage1B b) (basicDecoderB b) /\
      match rowDecoderStage2 b with Some r => RowDecoder.numRow r = 2 ^ n | None => True end
  end.

Lemma row_Initialize_rows k load res m level cur mux wl r r' :
  RowDecoder.Initialize tech ip k load res m level cur mux wl r = Ret r' -> RowDecoder.numRow r' = k.
Proof.
  unfold RowDecoder.Initialize. cbv zeta. destruct (if (0 <? _)%Z then _ else _) as [n effort].
  destruct (EnlargeSize _ _ _ _) as [[a c]|]; [|done]. cbn [outcome_bind].
  destruct (OutputDriver.Initialize _ _ _ _ _ _ _ _ _ _ _ _) as [o|]; [|done]. cbn [outcome_bind].
  destruct (OutputDriver.invalid o); by intros [= <-].
Qed.

Lemma row_RC_rows x y : RowDecoder.CalculateRC tech x = Ret y -> RowDecoder.numRow y = RowDecoder.numRow x.
Proof.
  unfold RowDecoder.CalculateRC. destruct (negb _); [by intros [= <-]|].
  destruct (OutputDriver.CalculateRC _ _); [|done]. cbn [outcome_bind].
  destruct (if _ =? 0 then _ else _) as [[]|]; [|done]. by intros [= <-].
Qed.

Lemma new_row_rows k load res nand3 r : new_row tech ip k load res nand3 = Ret r -> RowDecoder.numRow r = k.
Proof.
  unfold new_row. destruct (RowDecoder.Initialize _ _ _ _ _ _ _ _ _ _ _) as [x|] eqn:E; [|done]. cbn [outcome_bind].
  intros Hrc%row_RC_rows. by apply row_Initialize_rows in E as <-.
Qed.

Lemma new_basic_outputs k load res d : 1 <= k <= 3 -> new_basic raw tech ip k load res = Ret d -> outputs d = 2 ^ k.
Proof.
  intros Hk. unfold new_basic, BasicDecoder.Initialize. cbv zeta.
  assert (k = 1 \/ k = 2 \/ k = 3) as [-> | [-> | ->]] by lia; cbn;
    (destruct (OutputDriver.Initialize _ _ _ _ _ _ _ _ _ _ _ _); [|done]); by intros [= <-].
Qed.

(** Fields a stage of gates leaves alone. *)
Definition same_bits (b b' : t F) : Prop :=
  numAddressBit b' = numAddressBit b /\ numDecoder12 b' = numDecoder12 b /\ numDecoder24 b' = numDecoder24 b /\
  numDecoder38 b' = numDecoder38 b.

Lemma one_stage_spec k b b' : one_stage tech ip k b = Ret b' ->
  same_bits b b' /\ numNandInputStage1A b' = k /\ rows (rowDecoderStage1A b') = numOutputAddressBit b /\
  is_Some (rowDecoderStage1A b') /\ rowDecoderStage1B b' = None /\ rowDecoderStage1C b' = None /\ rowDecoderStage2 b' = None.
Proof.
  unfold one_stage. cbv zeta. destruct (new_row _ _ _ _ _ _) as [r|] eqn:E; [|done]. cbn [outcome_bind].
  intros [= <-]. apply new_row_rows in E. split; [by repeat split|]. split; [done|]. split; [exact E|]. split; [by eexists|done].
Qed.

Lemma two_groups_spec k b b' : 4 <= k <= 6 -> 0 <= numDecoder24 b <= 2 -> two_groups tech ip k b = Ret b' ->
  same_bits b b' /\ 2 <= numNandInputStage1A b' <= 3 /\ numNandInputStage1A b' + numNandInputStage1B b' = k /\
  2 <= numNandInputStage1B b' /\
  is_Some (rowDecoderStage1A b') /\ rows (rowDecoderStage1A b') = 2 ^ (3 * numNandInputStage1A b' - numDecoder24 b) /\
  is_Some (rowDecoderStage1B b') /\ rows (rowDecoderStage1B b') = 2 ^ (3 * numNandInputStage1B b') /\
  rowDecoderStage1C b' = None /\ is_Some (rowDecoderStage2 b') /\ rows (rowDecoderStage2 b') = numOutputAddressBit b.
Proof.
  intros Hk Hd. unfold two_groups. cbv zeta.
  destruct (new_row tech ip (numOutputAddressBit b) _ _ _) as [r2|] eqn:E2; [|done]. cbn [outcome_bind].
  destruct (new_row tech ip (Z.shiftl 1 (3 * (k - _) - _)) _ _ _) as [rA|] eqn:EA; [|done]. cbn [outcome_bind].
  destruct (new_row tech ip (Z.shiftl 1 (3 * Z.quot k 2)) _ _ _) as [rB|] eqn:EB; [|done]. cbn [outcome_bind].
  intros [= <-]. apply new_row_rows in E2, EA, EB. cbn.
  assert (Hq : 2 <= Z.quot k 2 <= 3 /\ 2 <= k - Z.quot k 2 <= 3)
    by (rewrite Z.quot_div_nonneg by lia; pose proof (Z.div_mod k 2); pose proof (Z.mod_pos_bound k 2); lia).
  split; [by repeat split|]. split; [lia|]. split; [lia|]. split; [lia|].
  split; [by eexists|]. split; [rewrite EA, Z.shiftl_mul_pow2, Z.mul_1_l by lia; done|].
  split; [by eexists|]. split; [rewrite EB, Z.shiftl_mul_pow2, Z.mul_1_l by lia; done|].
  split; [done|]. split; [by eexists|done].
Qed.

Lemma group_decoder_spec r nand d : group_decoder raw tech ip r nand = Ret d ->
  match r with Some _ => exists x, d = Some x /\ outputs x = 8 | None => d = None end.
Proof.
  unfold group_decoder. destruct r as [r|]; [|by intros [= <-]].
  destruct (new_basic _ _ _ _ _ _) as [x|] eqn:E; [|done]. cbn [outcome_bind]. intros [= <-].
  exists x. split; [done|]. by apply new_basic_outputs in E; [|lia].
Qed.

Lemma groupA_spec r b b' : 2 <= numNandInputStage1A b <= 3 -> 0 <= numDecoder24 b <= 2 ->
  groupA_decoders raw tech ip r b = Ret b' ->
  combinations (numBasicDecoderA1 b') (basicDecoderA1 b') * combinations (numBasicDecoderA2 b') (basicDecoderA2 b')
    = 2 ^ (3 * numNandInputStage1A b - numDecoder24 b) /\
  exists n1 n2 d1 d2, b' = b <| numBasicDecoderA1 := n1 |> <| numBasicDecoderA2 := n2 |> <| basicDecoderA1 := Some d1 |>
                            <| basicDecoderA2 := d2 |>.
Proof.
  intros Hn Hd. unfold groupA_decoders. cbv zeta.
  assert (numDecoder24 b = 0 \/ numDecoder24 b = 1 \/ numDecoder24 b = 2) as [-> | [-> | ->]] by lia;
    cbn [Z.eqb Pos.eqb].
  - destruct (new_basic _ _ _ _ _ _) as [d|] eqn:E; [|done]. cbn [outcome_bind]. intros [= <-].
    apply new_basic_outputs in E; [|lia]. split; [|by eexists _, _, _, _]. cbn. rewrite E, Z.mul_1_r.
    replace (3 * numNandInputStage1A b - 0) with (3 * numNandInputStage1A b) by lia. by rewrite Z.pow_mul_r by lia.
  - destruct (new_basic _ _ _ 2 _ _) as [d|] eqn:E; [|done]. cbn [outcome_bind].
    destruct (new_basic _ _ _ 3 _ _) as [d'|] eqn:E'; [|done]. cbn [outcome_bind]. intros [= <-].
    apply new_basic_outputs in E, E'; [|lia..]. split; [|by eexists _, _, _, _]. cbn. rewrite E, E'.
    assert (numNandInputStage1A b = 2 \/ numNandInputStage1A b = 3) as [-> | ->] by lia; done.
  - assert (numNandInputStage1A b = 2 \/ numNandInputStage1A b = 3) as [-> | ->] by lia; cbn [Z.eqb Pos.eqb].
    + destruct (new_basic _ _ _ _ _ _) as [d|] eqn:E; [|done]. cbn [outcome_bind]. intros [= <-].
      apply new_basic_outputs in E; [|lia]. split; [|by eexists _, _, _, _]. cbn. by rewrite E.
    + destruct (new_basic _ _ _ 2 _ _) as [d|] eqn:E; [|done]. cbn [outcome_bind].
      destruct (new_basic _ _ _ 3 _ _) as [d'|] eqn:E'; [|done]. cbn [outcome_bind]. intros [= <-].
      apply new_basic_outputs in E, E'; [|lia..]. split; [|by eexists _, _, _, _]. cbn. by rewrite E, E'.
Qed.

Lemma lone_spec b b' : numDecoder12 b + numDecoder24 b + numDecoder38 b = 1 ->
  0 <= numDecoder12 b -> 0 <= numDecoder24 b -> 0 <= numDecoder38 b -> lone_decoder raw tech ip b = Ret b' ->
  combinations (numBasicDecoderA1 b') (basicDecoderA1 b')
    = 2 ^ (numDecoder12 b + 2 * numDecoder24 b + 3 * numDecoder38 b) /\
  exists d, b' = b <| numBasicDecoderA1 := 1 |> <| numBasicDecoderA2 := 0 |> <| basicDecoderA2 := None |>
                   <| basicDecoderA1 := Some d |>.
Proof.
  intros Hs H1 H2 H3. unfold lone_decoder. cbv zeta.
  assert ((numDecoder12 b = 1 /\ numDecoder24 b = 0 /\ numDecoder38 b = 0) \/
          (numDecoder12 b = 0 /\ numDecoder24 b = 1 /\ numDecoder38 b = 0) \/
          (numDecoder12 b = 0 /\ numDecoder24 b = 0 /\ numDecoder38 b = 1))
    as [(E1 & E2 & E3) | [(E1 & E2 & E3) | (E1 & E2 & E3)]] by lia;
    rewrite E1, E2, E3; cbn [Z.eqb Pos.eqb];
    (destruct (new_basic _ _ _ _ _ _) as [d|] eqn:E; [|done]); cbn [outcome_bind]; intros [= <-];
    (apply new_basic_outputs in E; [|lia]); (split; [cbn; rewrite E; done|by eexists]).
Qed.

Lemma no_group k : group_decoder raw tech ip None k = Ret None.
Proof. done. Qed.

(** The decoders in front of no gates, of one stage, and of two. *)
Lemma front_lone b b' :
  rowDecoderStage1A b = None -> rowDecoderStage1B b = None -> rowDecoderStage1C b = None ->
  numDecoder12 b + numDecoder24 b + numDecoder38 b = 1 ->
  0 <= numDecoder12 b -> 0 <= numDecoder24 b -> 0 <= numDecoder38 b ->
  numAddressBit b = numDecoder12 b + 2 * numDecoder24 b + 3 * numDecoder38 b ->
  front raw tech ip b = Ret b' -> decodes (numAddressBit b) b'.
Proof.
  intros EA EB EC Hs H1 H2 H3 Hn. unfold front. rewrite EB, EC, !no_group. cbn [outcome_bind].
  set (b2 := b <| basicDecoderC := None |> <| basicDecoderB := None |>).
  change (rowDecoderStage1A b2) with (rowDecoderStage1A b). rewrite EA.
  destruct (lone_decoder raw tech ip b2) as [b3|] eqn:E3; [|done]. cbn [outcome_bind]. intros [= <-].
  apply lone_spec in E3 as [Hcomb [d ->]]; [|done..]. split; [done|]. split; [done|]. split; [|by cbn; rewrite EA].
  cbn in Hcomb |- *. by rewrite Hcomb, !Z.mul_1_r, Hn.
Qed.

Lemma front_one b b' r : rowDecoderStage1A b = Some r -> rowDecoderStage1B b = None -> rowDecoderStage1C b = None ->
  rowDecoderStage2 b = None -> RowDecoder.numRow r = 2 ^ numAddressBit b ->
  2 <= numNandInputStage1A b <= 3 -> 0 <= numDecoder24 b <= 2 ->
  3 * numNandInputStage1A b - numDecoder24 b = numAddressBit b ->
  front raw tech ip b = Ret b' -> decodes (numAddressBit b) b'.
Proof.
  intros EA EB EC E2 Hr Hna H24 Hn. unfold front. rewrite EB, EC, !no_group. cbn [outcome_bind].
  set (b2 := b <| basicDecoderC := None |> <| basicDecoderB := None |>).
  change (rowDecoderStage1A b2) with (rowDecoderStage1A b). rewrite EA.
  destruct (groupA_decoders raw tech ip r b2) as [b3|] eqn:E3; [|done]. cbn [outcome_bind]. intros [= <-].
  apply groupA_spec in E3 as [Hcomb (n1 & n2 & d1 & d2 & ->)]; [|done..].
  split; [done|]. split; [done|]. split.
  - cbn in Hcomb |- *. by rewrite Hcomb, !Z.mul_1_r, Hn.
  - cbn. rewrite EA, EB, EC, E2. cbn. rewrite Hr. split; [lia|done].
Qed.

Lemma front_two b b' rA rB r2 : rowDecoderStage1A b = Some rA -> rowDecoderStage1B b = Some rB ->
  rowDecoderStage1C b = None -> rowDecoderStage2 b = Some r2 -> RowDecoder.numRow r2 = 2 ^ numAddressBit b ->
  RowDecoder.numRow rA = 2 ^ (3 * numNandInputStage1A b - numDecoder24 b) ->
  RowDecoder.numRow rB = 2 ^ (3 * numNandInputStage1B b) ->
  2 <= numNandInputStage1A b <= 3 -> 0 <= numNandInputStage1B b -> 0 <= numDecoder24 b <= 2 ->
  3 * (numNandInputStage1A b + numNandInputStage1B b) - numDecoder24 b = numAddressBit b ->
  front raw tech ip b = Ret b' -> decodes (numAddressBit b) b'.
Proof.
  intros EA EB EC E2 Hr2 HrA HrB Hna Hnb H24 Hn. unfold front. rewrite EC, EB, no_group. cbn [outcome_bind].
  destruct (group_decoder raw tech ip (Some rB) _) as [dB|] eqn:ED; [|done]. cbn [outcome_bind].
  apply group_decoder_spec in ED as (xB & -> & HxB).
  set (b2 := b <| basicDecoderC := None |> <| basicDecoderB := Some xB |>).
  change (rowDecoderStage1A b2) with (rowDecoderStage1A b). rewrite EA.
  destruct (groupA_decoders raw tech ip rA b2) as [b3|] eqn:E3; [|done]. cbn [outcome_bind]. intros [= <-].
  apply groupA_spec in E3 as [Hcomb (n1 & n2 & d1 & d2 & ->)]; [|done..].
  assert (Hprod : 2 ^ (3 * numNandInputStage1A b - numDecoder24 b) * 2 ^ (3 * numNandInputStage1B b)
                  = 2 ^ numAddressBit b) by (rewrite <- Z.pow_add_r by lia; f_equal; lia).
  assert (H8 : 8 ^ numNandInputStage1B b = 2 ^ (3 * numNandInputStage1B b)) by (by rewrite Z.pow_mul_r by lia).
  split; [done|]. split; [done|]. split.
  - cbn in Hcomb |- *. rewrite Hcomb, HxB, H8, Z.mul_1_r. exact Hprod.
  - cbn. rewrite EA, EB, EC, E2. cbn. rewrite HrA, HrB, Hr2, HxB, H8. split; [lia|done].
Qed.

Lemma Initialize_decodes n load res b :
  1 <= n <= 18 -> PredecodeBlock.Initialize raw tech ip n load res (PredecodeBlock.PredecodeBlock raw) = Ret b ->
  decodes n b.
Proof.
  intros Hn. unfold PredecodeBlock.Initialize. cbv zeta.
  rewrite (proj2 (Z.ltb_ge 27 n)), (proj2 (Z.eqb_neq n 0)), (proj2 (Z.ltb_ge n 0)) by lia.
  pose proof (counts_bits n ltac:(lia)) as Hc. destruct (decoder_counts n) as [[d12 d24] d38] eqn:Ec.
  destruct Hc as (Hbits & H12 & H24 & H38). set (b0 := _ <| numDecoder38 := d38 |>).
  assert (Hout : numOutputAddressBit b0 = 2 ^ n) by (cbn; rewrite Z.shiftl_mul_pow2 by lia; lia).
  assert (H12' : d12 = 1 -> n = 1).
  { intros ->. revert Ec. unfold decoder_counts. destruct (Z.eqb_spec n 1); [done|]. by intros [= ]. }
  destruct (Z.leb_spec (d12 + d24 + d38) 1) as [Hk|Hk].
  - cbn [outcome_bind]. intros Hf%front_lone; cbn; (done || lia).
  - assert (d12 = 0) by (destruct (Z.eq_dec d12 1); [specialize (H12' ltac:(done)); lia|lia]).
    destruct (Z.leb_spec (d12 + d24 + d38) 3) as [Hk3|Hk3].
    + destruct (one_stage tech ip (d12 + d24 + d38) b0) as [b1|] eqn:E1; [|done]. cbn [outcome_bind].
      apply one_stage_spec in E1 as ((Hb1 & _ & Hb24 & _) & Hna & Hra & [r Er] & EB & EC & E2).
      rewrite Er, Hout in Hra. change (numAddressBit b0) with n in Hb1. change (numDecoder24 b0) with d24 in Hb24.
      rewrite <- Hb1. apply (front_one b1 b r); rewrite ?Hb1; (done || lia).
    + rewrite (proj2 (Z.leb_le _ 6)) by lia.
      destruct (two_groups tech ip (d12 + d24 + d38) b0) as [b1|] eqn:E1; [|done]. cbn [outcome_bind].
      apply two_groups_spec in E1
        as ((Hb1 & _ & Hb24 & _) & Hna & Hnab & Hnb & [rA ErA] & Hra & [rB ErB] & Hrb & EC & [r2 Er2] & Hr2);
        [|lia|cbn; lia].
      rewrite ErA in Hra. rewrite ErB in Hrb. rewrite Er2, Hout in Hr2.
      change (numAddressBit b0) with n in Hb1. change (numDecoder24 b0) with d24 in *.
      rewrite <- Hb1. apply (front_two b1 b rA rB r2); rewrite ?Hb1, ?Hb24; (done || lia).
Qed.

(** Seven decoders or more: the first group's count is shifted before it is set. *)
Lemma Initialize_wide n load res : 19 <= n ->
  forall b, PredecodeBlock.Initialize raw tech ip n load res (PredecodeBlock.PredecodeBlock raw) <> Ret b.
Proof.
  intros Hn b. unfold PredecodeBlock.Initialize. cbv zeta.
  destruct (Z.ltb_spec 27 n); [done|].
  rewrite (proj2 (Z.eqb_neq n 0)), (proj2 (Z.ltb_ge n 0)) by lia.
  pose proof (counts_bits n ltac:(lia)) as Hc. destruct (decoder_counts n) as [[d12 d24] d38] eqn:Ec.
  destruct Hc as (Hbits & H12 & H24 & H38). set (b0 := _ <| numDecoder38 := d38 |>).
  assert (7 <= d12 + d24 + d38 <= 9).
  { assert (d12 = 0); [|lia]. revert Ec. unfold decoder_counts. rewrite (proj2 (Z.eqb_neq n 1)) by lia. by intros [= ]. }
  rewrite (proj2 (Z.leb_gt _ 1)), (proj2 (Z.leb_gt _ 3)), (proj2 (Z.leb_gt _ 6)), (proj2 (Z.leb_le _ 9)) by lia.
  unfold three_groups. cbv zeta. destruct (new_row _ _ _ _ _ _) as [r2|]; [|done]. cbn [outcome_bind].
  repeat case_match; simplify_eq; done.
Qed.

End Tree.
End PredecodeFacts.
