(* ===== verification/ChainFacts.v ===== *)
(** * Drivers and decoders of bulk nodes run to the end

    On exact reals, at 22 nm and above: every phase of an output driver, of a row
    decoder and of a basic decoder returns, because the inverters of a chain keep
    the ratio of their transistors, so that none of them falls short of the least
    folding height. *)
From S2P Require Import Prelude Numeric RealNum Types InputParameter Process Formula FormulaFacts Circuit.
From S2P Require Import OutputDriver Decoders Predecode LeafFacts.
From stdpp Require Import base list strings.
From Stdlib Require Import ZArith Lia Reals Lra.
Open Scope R_scope.

Module ChainFacts.
Import Formula FormulaFacts OutputDriver DriverFacts.

(** What the tables of Technology.cpp provide at a bulk node, within the range of
    temperatures the program accepts. *)
Record Usable (tech : Process.t R) (ip : InputParameter.t R) : Prop := {
  bulk_node : nm 22 <= Process.featureSize tech;
  pn_range : 1 <= Process.pnSizeRatio tech <= 4;
  on_table : length (Process.currentOnNmos tech) = 101%nat;
  off_table_n : length (Process.currentOffNmos tech) = 101%nat;
  off_table_p : length (Process.currentOffPmos tech) = 101%nat;
  warm : (300 <= InputParameter.temperature ip <= 400)%Z
}.

Section Chains.
Context (tech : Process.t R) (ip : InputParameter.t R) (U : Usable tech ip).
Let F := Process.featureSize tech.
Let pn := Process.pnSizeRatio tech.

Lemma bulk_test : (nm 22 <=? Process.featureSize tech)%num = true.
Proof. apply Rleb_true, U. Qed.

Lemma F_pos : 0 < F.
Proof. exact (fs_pos tech (bulk_node _ _ U)). Qed.

Lemma pn_bounds : 1 <= pn <= 4.
Proof. exact (pn_range _ _ U). Qed.

Lemma min_value : min_width tech = 2 * F.
Proof. unfold min_width, MIN_NMOS_SIZE. rewrite Rlit_neg. num_R. change (10 ^ 1)%Z with 10%Z. fold F. unfold fs. fold F. lra. Qed.

Lemma region_value : cell_region tech = 28 * F.
Proof. unfold cell_region, fs. rewrite height_value. num_R. fold F. lra. Qed.

(** ** The formulas return *)

Lemma entry_ok (l : list R) i : length l = 101%nat -> (0 <= i <= 100)%Z -> exists x, entry l i = Ret x.
Proof. intros Hl Hi. apply get_ok. rewrite Hl. lia. Qed.

Lemma index_value : temperature_index (temperature ip) = Ret (InputParameter.temperature ip - 300)%Z.
Proof.
  pose proof (warm _ _ U). unfold temperature_index, temperature. num_R. rewrite Rtrunc_IZR by lia. cbv zeta.
  rewrite (proj2 (Z.ltb_ge 100 _)), (proj2 (Z.ltb_ge _ 0)) by lia. done.
Qed.

Lemma resistance_ok w : exists r, CalculateOnResistance w NMOS (temperature ip) tech = Ret r.
Proof.
  pose proof (warm _ _ U). unfold CalculateOnResistance. rewrite index_value. cbn [outcome_bind].
  destruct (entry_ok (Process.currentOnNmos tech) (InputParameter.temperature ip - 300)) as [x E]; [apply U|lia|].
  change (NMOS =? NMOS)%Z with true. cbv iota. rewrite E. by eexists.
Qed.

Lemma leakage_ok g k n p : exists l, CalculateGateLeakage g k n p (temperature ip) tech = Ret l.
Proof.
  pose proof (warm _ _ U). unfold CalculateGateLeakage. rewrite index_value. cbn [outcome_bind].
  destruct (entry_ok (Process.currentOffNmos tech) (InputParameter.temperature ip - 300)) as [x ->]; [apply U|lia|].
  destruct (entry_ok (Process.currentOffPmos tech) (InputParameter.temperature ip - 300)) as [y ->]; [apply U|lia|].
  by eexists.
Qed.

Lemma area_total g k n p h : exists r, CalculateGateArea g k n p h tech = Ret r.
Proof.
  unfold CalculateGateArea, gate_regions. rewrite bulk_test. destruct (bulk_limits _ _ _) as [mp mn]. cbn [outcome_bind].
  destruct (bulk_region _ _ mp), (bulk_region _ _ mn). by eexists.
Qed.

Lemma drain_ok w limit m : 3 * F <= limit -> exists r, bulk_drain F w limit m = Ret r.
Proof.
  intros Hl. unfold bulk_drain. num_R. destruct (Rltb 0 w); [|by eexists].
  destruct (Rltb w limit); [by eexists|]. r_decide. by eexists.
Qed.

(** Neither transistor of the pair is more than four times the other. *)
Definition paired (n p : R) : Prop := 0 < n /\ 0 < p /\ n <= 4 * p /\ p <= 4 * n.

Lemma share a b : 0 < a -> 0 < b -> b <= 4 * a -> 1 / 5 <= a / (a + b).
Proof.
  intros. apply (Rmult_le_reg_r (a + b)); [lra|]. replace (a / (a + b) * (a + b)) with a by (field; lra). lra.
Qed.

Lemma cap_ok g k n p : paired n p -> exists c, CalculateGateCapacitance g k n p (cell_region tech) tech = Ret c.
Proof.
  intros (Hn & Hp & Hnp & Hpn). pose proof F_pos as HF. unfold CalculateGateCapacitance. rewrite bulk_test. unfold bulk_capOutput. cbv zeta.
  destruct (ratio_range n p Hn Hp) as (Hr & _). pose proof (share p n Hp Hn Hnp) as Sp. pose proof (share n p Hn Hp Hpn) as Sn.
  assert (Er : mos_ratio n p = p / (p + n)) by reflexivity.
  assert (En : 1 - mos_ratio n p = n / (n + p)) by (rewrite Er; field; lra).
  assert (El : cap_limits F (cell_region tech) (mos_ratio n p) =
          (mos_ratio n p * (245 / 10 * F), (1 - mos_ratio n p) * (245 / 10 * F))).
  { unfold cap_limits. num_R. rewrite gap_value, region_value. r_decide. f_equal; [lra|]. field. lra. }
  fold F. rewrite El.
  destruct (drain_ok p (mos_ratio n p * (245 / 10 * F))
    "Error: Unable to do PMOS folding because PMOS size limitation is less than 3F!") as [[[a b] c] ->]; [nra|].
  destruct (drain_ok n ((1 - mos_ratio n p) * (245 / 10 * F))
    "Error: Unable to do NMOS folding because NMOS size limitation is less than 3F!") as [[[a' b'] c'] ->]; [nra|].
  cbn [outcome_bind]. destruct (bulk_drain_widths _ _ _ _ _ _ _). by eexists.
Qed.

(** Widening a pair keeps its proportion. *)
Lemma enlarge_pair n p : 0 < n -> 0 < p ->
  exists n' p', EnlargeSize n p (cell_region tech) tech = Ret (n', p') /\ n <= n' /\ p' * n = p * n'.
Proof.
  intros Hn Hp. pose proof F_pos. unfold EnlargeSize. rewrite bulk_test.
  pose proof (enlarge_bulk_spec tech n p (cell_region tech) Hn Hp) as He. rewrite region_value in He |- *.
  change (Process.featureSize tech) with F in He |- *. specialize (He ltac:(lra)).
  destruct (enlarge_bulk _ n p _) as [n' p'], (bulk_limits _ _ _) as [mp mn].
  destruct He as (Hn' & Hp' & Er & _). exists n', p'. split; [done|]. split; [done|].
  unfold mos_ratio in Er. num_R.
  assert (E : p' * (p + n) = p * (p' + n')).
  { replace p' with (p' / (p' + n') * (p' + n')) at 1 by (field; lra). rewrite Er. field. lra. }
  lra.
Qed.

(** ** Chains *)

(** Stage [j] of a chain: an inverter in the ratio of the process, not below the
    least width. *)
Definition good (d : t R) (j : nat) : Prop :=
  exists n, widthNMOS d !! j = Some n /\ widthPMOS d !! j = Some (n * pn) /\ 2 * F <= n.

Definition ready (d : t R) : Prop :=
  full_arrays d /\
  (initialized d = true ->
     invalid d = false /\ (0 <= numStage d <= 20)%Z /\ forall j, (Z.of_nat j < numStage d)%Z -> good d j).

Lemma good_paired d j n p : good d j -> get (widthNMOS d) (Z.of_nat j) = Ret n -> get (widthPMOS d) (Z.of_nat j) = Ret p ->
  paired n p.
Proof.
  intros (x & Ex & Ey & Hx). unfold get. rewrite (proj2 (Z.ltb_ge _ 0)), Nat2Z.id, Ex, Ey by lia.
  intros [= <-] [= <-]. pose proof F_pos. pose proof pn_bounds. unfold paired. nra.
Qed.

Lemma put_lookup (l l' : list R) i x : put l i x = Ret l' ->
  (0 <= i)%Z /\ l' !! Z.to_nat i = Some x /\ forall j, j <> Z.to_nat i -> l' !! j = l !! j.
Proof.
  unfold put. destruct (Z.leb_spec 0 i); [|done]. destruct (Z.ltb_spec i (Z.of_nat (length l))); [|done]. cbn [andb].
  intros [= <-]. split; [done|]. split; [apply list_lookup_insert_eq; lia|].
  intros j Hj. by apply list_lookup_insert_ne.
Qed.

Lemma shrink_good e f i : forall d d', shrink tech e f i d = Ret d' ->
  forall N, (forall j, (i <= j < N)%nat -> good d j) -> forall j, (j < N)%nat -> good d' j.
Proof.
  induction i as [|i IH]; intros d d'; cbn [shrink].
  - intros [= <-] N HN j Hj. apply HN. lia.
  - destruct (get _ _) as [next|]; [|done]. cbn [outcome_bind]. num_R.
    set (n0 := if Rltb _ (min_width tech) then min_width tech else _).
    assert (Hn0 : 2 * F <= n0).
    { unfold n0. rewrite min_value. destruct (Rltb (next / f) (2 * F)) eqn:E; r_facts; lra. }
    pose proof F_pos. pose proof pn_bounds.
    assert (Hp0 : 0 < n0 * pn) by nra. change (Process.pnSizeRatio tech) with pn.
    assert (exists n' p', (if e then EnlargeSize n0 (n0 * pn) (cell_region tech) tech else Ret (n0, n0 * pn)) = Ret (n', p')
              /\ n0 <= n' /\ p' = n' * pn) as (n' & p' & -> & Hn' & ->).
    { destruct e; [|exists n0, (n0 * pn); split; [done|]; split; [lra|done]].
      destruct (enlarge_pair n0 (n0 * pn) ltac:(lra) Hp0) as (n' & p' & -> & Hle & Er).
      exists n', p'. split; [done|]. split; [done|]. apply (Rmult_eq_reg_r n0); lra. }
    cbn [outcome_bind].
    destruct (put (widthNMOS d) _ _) as [ns|] eqn:En; [|done]. cbn [outcome_bind].
    destruct (put (widthPMOS d) _ _) as [ps|] eqn:Ep; [|done]. cbn [outcome_bind].
    apply put_lookup in En as (_ & En & Eno), Ep as (_ & Ep & Epo). rewrite Nat2Z.id in *.
    intros Hs N HN. eapply IH; [exact Hs|]. intros j Hj.
    destruct (decide (j = i)) as [->|Hne].
    + exists n'. split; [exact En|]. split; [exact Ep|lra].
    + destruct (HN j ltac:(lia)) as (x & Ex & Ey & Hx). exists x. cbn. by rewrite Eno, Epo.
Qed.

(** The last inverter and everything before it. *)
Lemma chain_good e f w (i : Z) d ns ps d' : (0 <= i)%Z -> put (widthNMOS d) i w = Ret ns ->
  put (widthPMOS d) i (w * pn) = Ret ps -> 2 * F <= w ->
  shrink tech e f (Z.to_nat i) (d <| widthNMOS := ns |> <| widthPMOS := ps |>) = Ret d' ->
  forall j, (Z.of_nat j < i + 1)%Z -> good d' j.
Proof.
  intros Hi (_ & En & _)%put_lookup (_ & Ep & _)%put_lookup Hw Hs j Hj.
  eapply shrink_good; [exact Hs| |instantiate (1 := S (Z.to_nat i)); lia].
  intros k Hk. replace k with (Z.to_nat i) by lia. exists w. done.
Qed.

Lemma MAX_l (a b : R) : a <= MAX a b.
Proof. unfold MAX. num_R. destruct (Rltb b a) eqn:E; r_facts; lra. Qed.

Lemma last_width d effort n x f : 2 * F <= max_width tech ip -> last_inverter tech ip d effort n = (x, f) -> 2 * F <= x.
Proof.
  intros Hm. unfold last_inverter. cbv zeta. destruct (_ <? _)%num; intros [= <- _]; [exact Hm|].
  rewrite <- min_value. apply MAX_l.
Qed.

Lemma latency_good w d d' : full_arrays d -> 2 * F <= w -> w <= max_width tech ip -> latency_style tech ip w d = Ret d' ->
  areaOptimizationLevel d' = latency_first -> areaOptimizationLevel d = latency_first ->
  forall j, (Z.of_nat j < numStage d')%Z -> good d' j.
Proof.
  intros Ha Hw Hm. unfold latency_style. cbv zeta. set (effort := MAX _ _). set (n := adjust _ _).
  destruct (Z.eqb_spec n 0) as [E|E].
  - rewrite E. intros [= <-] _ _ j Hj. revert Hj. case_match; cbn; lia.
  - destruct (last_inverter tech ip _ effort n) as [x f] eqn:El.
    assert (Hx : 2 * F <= x) by (apply last_width in El; [done|lra]).
    destruct (put (widthNMOS _) _ x) as [ns|] eqn:En; [|done]. cbn [outcome_bind].
    destruct (x <? w)%num; [by intros [= <-]|].
    destruct (put (widthPMOS _) _ _) as [ps|] eqn:Ep; [|done]. cbn [outcome_bind].
    intros Hs _ _ j Hj. pose proof (shrink_frame _ _ _ _ _ _ Hs) as (_ & Hn & _). rewrite Hn in Hj. cbn in Hj.
    eapply (chain_good _ _ x (n - 1)); [| | |exact Hx|exact Hs|cbn in Hj; lia].
    + apply put_lookup in En. lia.
    + exact En.
    + exact Ep.
Qed.

Lemma trade_off_good w d d' : 2 * F <= w -> trade_off_style tech w d = Ret d' ->
  forall j, (Z.of_nat j < numStage d')%Z -> good d' j.
Proof.
  intros Hw. unfold trade_off_style. cbv zeta. set (n := adjust _ _).
  destruct (put (widthNMOS _) _ w) as [ns|] eqn:En; [|done]. cbn [outcome_bind].
  destruct (put (widthPMOS _) _ _) as [ps|] eqn:Ep; [|done]. cbn [outcome_bind].
  intros Hs j Hj. pose proof (shrink_frame _ _ _ _ _ _ Hs) as (_ & Hn & _). rewrite Hn in Hj. cbn in Hj.
  eapply (chain_good _ _ w n); [| | |exact Hw|exact Hs|exact Hj].
  - apply put_lookup in En. lia.
  - exact En.
  - exact Ep.
Qed.

Lemma area_good w d d' : area_style tech ip w d = Ret (d', false) ->
  forall j, (Z.of_nat j < numStage d')%Z -> good d' j.
Proof.
  unfold area_style. cbv zeta. set (x := MAX _ _).
  assert (Hx : 2 * F <= x).
  { rewrite <- min_value. apply MAX_l. }
  destruct (put (widthNMOS _) _ x) as [ns|] eqn:En; [|done]. cbn [outcome_bind].
  destruct (_ <? x)%num; [done|].
  destruct (put (widthPMOS _) _ _) as [ps|] eqn:Ep; [|done]. cbn [outcome_bind]. intros [= <-] j Hj. cbn in Hj.
  apply put_lookup in En as (_ & En & _), Ep as (_ & Ep & _). replace j with (Z.to_nat 0) by lia.
  exists x. done.
Qed.

Lemma driver_width_bounds cur w : min_driver_width tech ip cur = Ret w -> 2 * F <= w.
Proof.
  unfold min_driver_width. destruct (get _ _); [|done]. cbn [outcome_bind]. intros [= <-].
  rewrite <- min_value. apply MAX_l.
Qed.

(** A driver that [Initialize] leaves initialised is a chain of such inverters. *)
Lemma Initialize_good le ic oc ores iv level cur rep wl d d' : full_arrays d -> initialized d = false ->
  Initialize tech ip le ic oc ores iv level cur rep wl d = Ret d' -> initialized d' = true ->
  forall j, (Z.of_nat j < numStage d')%Z -> good d' j.
Proof.
  intros Ha Hi0. unfold Initialize. cbv zeta. set (d0 := _ <| invalid := false |>).
  destruct (min_driver_width tech ip _) as [w|] eqn:Ew; [|done]. cbn [outcome_bind].
  apply driver_width_bounds in Ew. num_R.
  destruct (Rltb (max_width tech ip) w) eqn:Em; [intros [= <-]; cbn; congruence|]. r_facts.
  assert (Ha0 : full_arrays d0) by exact Ha.
  destruct (if bool_decide (areaOptimizationLevel d0 = latency_first) then _ else _) as [d1|] eqn:E1; [|done].
  cbn [outcome_bind].
  assert (Hf : frame d0 d1 /\ (areaOptimizationLevel d1 = latency_first -> forall j, (Z.of_nat j < numStage d1)%Z -> good d1 j)).
  { revert E1. destruct (bool_decide (areaOptimizationLevel d0 = latency_first)) eqn:Eb.
    - apply bool_decide_eq_true in Eb. intros E1. split; [by eapply latency_frame|].
      intros El. by eapply latency_good.
    - apply bool_decide_eq_false in Eb. intros [= <-]. split; [apply frame_refl|done]. }
  destruct Hf as [(Hfu & Hi & _) Hg].
  destruct (areaOptimizationLevel d1) eqn:El.
  - rewrite !bool_decide_false by done. cbn [outcome_bind]. intros [= <-] _. by apply Hg.
  - rewrite bool_decide_true by done. destruct (trade_off_style tech w d1) as [d2|] eqn:E2; [|done].
    cbn [outcome_bind]. intros [= <-] _. exact (trade_off_good _ _ _ Ew E2).
  - rewrite bool_decide_false, bool_decide_true by done.
    destruct (area_style tech ip w d1) as [[d2 b]|] eqn:E2; [|done]. cbn [outcome_bind]. destruct b.
    + intros [= <-]. apply area_frame in E2 as (_ & Hi2 & _). rewrite Hi2, Hi. cbn. congruence.
    + intros [= <-] _. exact (area_good _ _ _ E2).
Qed.

(** Without a driver current the latency style is never given up. *)
Lemma latency_stays w d d' : w <= 2 * F -> 2 * F <= max_width tech ip -> minDriverCurrent d = 0 ->
  latency_style tech ip w d = Ret d' -> areaOptimizationLevel d = latency_first -> areaOptimizationLevel d' = latency_first.
Proof.
  intros Hw Hm Hc. unfold latency_style. cbv zeta. set (effort := MAX _ _). set (n := adjust _ _).
  destruct (Z.eqb_spec n 0) as [E|E].
  - cbn. rewrite Hc. num_R. rewrite (proj2 (Rltb_false 0 0)) by lra. by intros [= <-].
  - destruct (last_inverter tech ip _ effort n) as [x f] eqn:El.
    assert (Hx : 2 * F <= x) by (apply last_width in El; [done|lra]).
    destruct (put (widthNMOS _) _ x) as [ns|] eqn:En; [|done]. cbn [outcome_bind]. num_R.
    rewrite (proj2 (Rltb_false x w)) by lra.
    destruct (put (widthPMOS _) _ _) as [ps|] eqn:Ep; [|done]. cbn [outcome_bind].
    intros Hs Hl. pose proof (shrink_frame _ _ _ _ _ _ Hs) as (_ & _ & ->). exact Hl.
Qed.

Lemma unloaded_width w : min_driver_width tech ip 0 = Ret w -> w = 2 * F.
Proof.
  unfold min_driver_width. destruct (get _ _) as [on|]; [|done]. cbn [outcome_bind]. rewrite min_value.
  intros [= <-]. pose proof F_pos. unfold MAX. num_R. replace (0 / on) with 0 by (unfold Rdiv; lra). by r_decide.
Qed.

Lemma Initialize_unloaded le ic oc ores iv rep wl d : full_arrays d ->
  exists d', Initialize tech ip le ic oc ores iv latency_first 0 rep wl d = Ret d' /\ driver_ready latency_first d d'.
Proof.
  intros Ha. unfold Initialize. cbv zeta. set (d0 := _ <| invalid := false |>).
  destruct (min_driver_width_ok tech ip 0 (on_table _ _ U) (warm _ _ U)) as [w Ew].
  change (minDriverCurrent d0) with 0. rewrite Ew. cbn [outcome_bind]. apply unloaded_width in Ew as ->. num_R.
  destruct (Rltb (max_width tech ip) (2 * F)) eqn:Em.
  { eexists. split; [reflexivity|]. split; [exact Ha|]. split; [done|by left]. }
  r_facts. rewrite (bool_decide_true (areaOptimizationLevel d0 = latency_first)) by reflexivity.
  destruct (latency_style_ok tech ip bulk_test (2 * F) d0) as (d1 & E1 & Hf & Hd); [exact Ha|done|].
  rewrite E1. cbn [outcome_bind].
  assert (El : areaOptimizationLevel d1 = latency_first) by (refine (latency_stays (2 * F) d0 d1 _ _ eq_refl E1 eq_refl); lra).
  rewrite El, !bool_decide_false by done. cbn [outcome_bind]. eexists. split; [reflexivity|].
  destruct Hd as [[_ [Hn Ho]]|E]; [|congruence]. pose proof (frame_arrays _ _ Hf Ha) as Ha1.
  destruct Hf as (Hfu & _ & Hv & _). split; [exact Ha1|]. split; [exact Hfu|].
  right. split; [exact Hv|]. split; [done|]. split; [done|]. split; [exact Hn|]. intros _. exact Ho.
Qed.

(** The drivers of decoders have no driver current and put latency first; any other
    driver is built too, unless its chain overruns the arrays. *)
Lemma Initialize_ready le ic oc ores iv level cur rep wl d : full_arrays d -> initialized d = false ->
  (exists d', Initialize tech ip le ic oc ores iv level cur rep wl d = Ret d' /\ ready d' /\ driver_ready level d d') \/
  (Initialize tech ip le ic oc ores iv level cur rep wl d = Exit undefined /\ level <> area_first /\
   ~ (cur = 0 /\ level = latency_first) /\
   exists w, min_driver_width tech ip cur = Ret w /\ trade_off_stages tech le ic w iv = 20%Z).
Proof.
  intros Ha Hi. destruct (min_driver_width_ok tech ip cur (on_table _ _ U) (warm _ _ U)) as [w Ew].
  destruct (Initialize_cases tech ip bulk_test le ic oc ores iv level cur rep wl d w Ha Ew) as [(d' & E & Hr & _)|(E & Hl & H20)].
  - left. exists d'. split; [done|]. split; [|done]. pose proof (Initialize_good _ _ _ _ _ _ _ _ _ _ _ Ha Hi E) as Hg.
    destruct Hr as (Ha' & _ & Hr). split; [done|]. intros Hi'.
    destruct Hr as [[_ Hni]|(Hv & _ & _ & Hn & _)]; [congruence|]. split; [done|]. split; [done|]. by apply Hg.
  - right. split; [done|]. split; [done|]. split; [|by exists w]. intros [-> ->].
    destruct (Initialize_unloaded le ic oc ores iv rep wl d Ha) as (d' & E' & _). congruence.
Qed.

Lemma Initialize_unloaded_ready le ic oc ores iv rep wl d : full_arrays d -> initialized d = false ->
  exists d', Initialize tech ip le ic oc ores iv latency_first 0 rep wl d = Ret d' /\ ready d' /\ driver_ready latency_first d d'.
Proof.
  intros Ha Hi. destruct (Initialize_ready le ic oc ores iv latency_first 0 rep wl d Ha Hi) as [?|(_ & _ & X & _)]; [done|].
  by destruct X.
Qed.

(** ** Phases of a driver *)

(** Phases change the figures and the capacitances only. *)
Lemma ready_keep d d' : ready d -> full_arrays d' -> initialized d' = initialized d -> invalid d' = invalid d ->
  numStage d' = numStage d -> widthNMOS d' = widthNMOS d -> widthPMOS d' = widthPMOS d -> ready d'.
Proof.
  intros [_ Hr] Ha Hi Hv Hn EN EP. split; [done|]. rewrite Hi, Hv, Hn. unfold good. rewrite EN, EP. exact Hr.
Qed.

Lemma stage_widths d i : ready d -> initialized d = true -> (0 <= i < numStage d)%Z ->
  exists n p, get (widthNMOS d) i = Ret n /\ get (widthPMOS d) i = Ret p /\ paired n p.
Proof.
  intros [(HN & HP & _) Hr] Hi Hl. destruct (Hr Hi) as (_ & Hn & Hg).
  destruct (get_ok (widthNMOS d) i) as [n En]; [rewrite HN; lia|].
  destruct (get_ok (widthPMOS d) i) as [p Ep]; [rewrite HP; lia|]. exists n, p. split; [done|]. split; [done|].
  eapply (good_paired d (Z.to_nat i)); [apply Hg; lia| |]; by rewrite Z2Nat.id by lia.
Qed.

(** A phase: returns and leaves a ready driver. *)
Definition runs {A} (P : A -> Prop) (op : A -> Outcome A) : Prop := forall x, P x -> exists y, op x = Ret y /\ P y.

Lemma driver_area : runs ready (CalculateArea tech).
Proof.
  intros d Hd. unfold CalculateArea. destruct (initialized d) eqn:Hi; [|by exists d]. cbn [negb].
  destruct (proj2 Hd Hi) as (Hv & Hn & _). rewrite Hv. set (body := fun '(th, tw) i => _).
  destruct (stages_ok (fun _ => True) (numStage d) body) with (s := (0, 0)) as ([h w] & E & _); [|done|].
  - intros [th tw] i _ Hr. unfold body. destruct (stage_widths d i Hd Hi Hr) as (n & p & -> & -> & _). cbn [outcome_bind].
    destruct (area_total INV 1 n p (fs tech * of_Z 40)%num) as [[[a b] c] ->]. by eexists.
  - num_R. rewrite E. cbn [outcome_bind]. eexists. split; [reflexivity|]. apply (ready_keep d); done || apply Hd.
Qed.

Lemma driver_RC : runs ready (CalculateRC tech).
Proof.
  intros d Hd. unfold CalculateRC. destruct (initialized d) eqn:Hi; [|by exists d]. cbn [negb].
  destruct (proj2 Hd Hi) as (Hv & Hn & _). rewrite Hv. pose proof (proj1 Hd) as Ha.
  destruct (Z.eqb_spec (numStage d) 0) as [E0|E0].
  - destruct (put_ok (capInput d) 0 (of_Z 0)) as (cs & -> & Hl); [destruct Ha as (_ & _ & -> & _); lia|]. cbn [outcome_bind].
    eexists. split; [reflexivity|]. apply (ready_keep d); try done.
    destruct Ha as (HN & HP & HI & HO). unfold full_arrays. cbn. by rewrite Hl.
  - set (body := fun x i => _).
    destruct (stages_ok (fun x => ready x /\ initialized x = true /\ numStage x = numStage d) (numStage d) body) with (s := d)
      as (d' & E & Hr & _); [|done|by exists d'].
    intros x i (Hx & Hix & Hnx) Hr. unfold body. rewrite <- Hnx in Hr.
    destruct (stage_widths x i Hx Hix Hr) as (n & p & -> & -> & Hp). cbn [outcome_bind].
    destruct (cap_ok INV 1 n p Hp) as [[ci co] ->]. cbn [outcome_bind]. pose proof (proj1 Hx) as (HN & HP & HI & HO).
    destruct (put_ok (capInput x) i ci) as (cis & -> & Hci); [rewrite HI; lia|]. cbn [outcome_bind].
    destruct (put_ok (capOutput x) i co) as (cos & -> & Hco); [rewrite HO; lia|]. cbn [outcome_bind].
    eexists. split; [reflexivity|]. split; [|done]. apply (ready_keep x); try done.
    unfold full_arrays. cbn. by rewrite Hci, Hco.
Qed.

Lemma delay_ok w time ramp : exists r, inverter_delay tech ip w time ramp = Ret r.
Proof. unfold inverter_delay. destruct (resistance_ok (fin_scale tech w)) as [r ->]. by eexists. Qed.

Lemma driver_latency ramp : runs ready (CalculateLatency tech ip ramp).
Proof.
  intros d Hd. unfold CalculateLatency. destruct (initialized d) eqn:Hi; [|by exists d]. cbn [negb].
  destruct (proj2 Hd Hi) as (Hv & Hn & _). rewrite Hv. pose proof (proj1 Hd) as (HN & HP & HI & HO).
  destruct (Z.eqb_spec (numStage d) 0) as [E0|E0].
  - eexists. split; [reflexivity|]. by apply (ready_keep d).
  - set (body := fun '(latency, r) i => _).
    destruct (stages_ok (fun _ => True) (numStage d - 1) body) with (s := (0, ramp)) as ([l r] & E & _); [|done|].
    + intros [l r] i _ Hr. unfold body. destruct (stage_widths d i Hd Hi ltac:(lia)) as (n & p & -> & _). cbn [outcome_bind].
      destruct (get_ok (capOutput d) i) as [co ->]; [rewrite HO; lia|]. cbn [outcome_bind].
      destruct (get_ok (capInput d) (i + 1)) as [ci ->]; [rewrite HI; lia|]. cbn [outcome_bind].
      destruct (delay_ok n (fun res => res * (co + ci))%num r) as [[a b] ->]. by eexists.
    + num_R. rewrite E. cbn [outcome_bind].
      destruct (stage_widths d (numStage d - 1) Hd Hi ltac:(lia)) as (n & p & -> & _). cbn [outcome_bind].
      destruct (get_ok (capOutput d) (numStage d - 1)) as [co ->]; [rewrite HO; lia|]. cbn [outcome_bind].
      destruct (delay_ok n (fun res => res * (co + outputCap d) + outputCap d * outputRes d / IZR 2) r) as [[a b] E1].
      num_R. rewrite E1. cbn [outcome_bind]. eexists. split; [reflexivity|]. by apply (ready_keep d).
Qed.

Lemma driver_power : runs ready (CalculatePower tech ip).
Proof.
  intros d Hd. unfold CalculatePower. cbv zeta. destruct (initialized d) eqn:Hi; [|by exists d]. cbn [negb].
  destruct (proj2 Hd Hi) as (Hv & Hn & _). rewrite Hv. pose proof (proj1 Hd) as (HN & HP & HI & HO).
  destruct (Z.eqb_spec (numStage d) 0) as [E0|E0].
  - eexists. split; [reflexivity|]. by apply (ready_keep d).
  - set (leak := fun leakage i => let? n := get (widthNMOS d) i in _).
    destruct (stages_ok (fun _ => True) (numStage d) leak) with (s := 0) as (l & El & _); [|done|].
    { intros l i _ Hr. unfold leak. destruct (stage_widths d i Hd Hi Hr) as (n & p & -> & -> & _). cbn [outcome_bind].
      destruct (leakage_ok INV 1 n p) as [x ->]. by eexists. }
    num_R. rewrite El. cbn [outcome_bind]. set (en := fun energy i => let? co := get (capOutput d) i in _).
    destruct (stages_ok (fun _ => True) (numStage d - 1) en) with (s := 0) as (e & Ee & _); [|done|].
    { intros e i _ Hr. unfold en. destruct (get_ok (capOutput d) i) as [co ->]; [rewrite HO; lia|]. cbn [outcome_bind].
      destruct (get_ok (capInput d) (i + 1)) as [ci ->]; [rewrite HI; lia|]. by eexists. }
    num_R. rewrite Ee. cbn [outcome_bind].
    destruct (get_ok (capOutput d) (numStage d - 1)) as [co ->]; [rewrite HO; lia|]. cbn [outcome_bind].
    eexists. split; [reflexivity|]. by apply (ready_keep d).
Qed.

(** ** Decoders *)

Lemma fresh_arrays : full_arrays (OutputDriver : t R).
Proof. done. Qed.

Lemma least_pair k : (1 <= k <= 3)%Z -> paired (IZR k * (2 * F)) (pn * (2 * F)).
Proof.
  intros Hk. pose proof F_pos. pose proof pn_bounds.
  assert (1 <= IZR k <= 3) by (split; apply IZR_le; lia). unfold paired. nra.
Qed.

Lemma enlarge_paired n p : paired n p -> exists n' p', EnlargeSize n p (cell_region tech) tech = Ret (n', p') /\ paired n' p'.
Proof.
  intros (Hn & Hp & Hnp & Hpn). destruct (enlarge_pair n p Hn Hp) as (n' & p' & -> & Hle & Er).
  exists n', p'. split; [done|]. unfold paired.
  assert (p' = p / n * n') by (apply (Rmult_eq_reg_r n); [rewrite Er; field; lra|lra]).
  assert (E : p / n * n = p) by (field; lra). assert (1 / 4 <= p / n <= 4).
  { split; apply (Rmult_le_reg_r n); lra. }
  subst p'. split; [lra|]. split; [nra|]. split; nra.
Qed.

Lemma gate_widths : (MIN_NMOS_SIZE * Process.featureSize tech)%num = 2 * F /\
  (Process.pnSizeRatio tech * MIN_NMOS_SIZE * Process.featureSize tech)%num = pn * (2 * F) /\
  forall k, (of_Z k * MIN_NMOS_SIZE * Process.featureSize tech)%num = IZR k * (2 * F).
Proof.
  pose proof min_value as E. unfold min_width, fs in E. num_R. split; [exact E|].
  split; [|intros k]; rewrite Rmult_assoc, E; reflexivity.
Qed.

Definition row_ready (r : RowDecoder.t R) : Prop :=
  ready (RowDecoder.outputDriver r) /\
  (RowDecoder.initialized r = true -> paired (RowDecoder.widthNandN r) (RowDecoder.widthNandP r)).

Lemma row_Initialize k load res m cur mux wl : cur = 0 ->
  exists r, RowDecoder.Initialize tech ip k load res m latency_first cur mux wl RowDecoder.RowDecoder = Ret r /\ row_ready r.
Proof.
  intros ->. unfold RowDecoder.Initialize. cbv zeta. destruct gate_widths as (-> & -> & Ek).
  set (r0 := _ <| RowDecoder.numNandInput := _ |>). set (q := if (0 <? _)%Z then _ else _).
  assert (exists k, (1 <= k <= 3)%Z /\ fst q = IZR k * (2 * F)) as (j & Hj & Eq).
  { unfold q. destruct (0 <? _)%Z; [|exists 1%Z; cbn; split; [lia|lra]]. cbn [fst].
    destruct (Z.eqb _ 2); [exists 2%Z|exists 3%Z]; (split; [lia|apply Ek]). }
  destruct q as [n effort]. cbn [fst] in Eq. subst n.
  destruct (enlarge_paired _ _ (least_pair j Hj)) as (n' & p' & -> & Hp). cbn [outcome_bind].
  set (r1 := _ <| RowDecoder.widthNandP := p' |>).
  destruct (Initialize_unloaded_ready effort (BasicDecoder.gate_cap tech n' p') (RowDecoder.capLoad r1) (RowDecoder.resLoad r1) true
    mux (RowDecoder.wireLength r1) (RowDecoder.outputDriver r1)) as (o & Eo & Ho & _); [exact fresh_arrays|done|].
  change (RowDecoder.minDriverCurrent r1) with 0%R. rewrite Eo.
  cbn [outcome_bind]. destruct (OutputDriver.invalid o); (eexists; split; [reflexivity|]); by split.
Qed.

(** A phase of a decoder works on its driver first. *)
Lemma row_area : runs row_ready (RowDecoder.CalculateArea tech).
Proof.
  intros r Hr. unfold RowDecoder.CalculateArea. destruct (negb _); [by exists r|].
  destruct (driver_area _ (proj1 Hr)) as (o & -> & Ho). cbn [outcome_bind].
  destruct (_ =? 0)%Z; [eexists; split; [reflexivity|]; split; [done|apply Hr]|].
  destruct (area_total NAND (RowDecoder.numNandInput r) (RowDecoder.widthNandN r) (RowDecoder.widthNandP r)
    (Process.featureSize tech * of_Z 40)%num) as [[[a h] w] ->].
  cbn [outcome_bind]. eexists. split; [reflexivity|]. split; [done|apply Hr].
Qed.

Lemma row_RC : runs row_ready (RowDecoder.CalculateRC tech).
Proof.
  intros r Hr. unfold RowDecoder.CalculateRC. destruct (RowDecoder.initialized r) eqn:Hi; [|by exists r]. cbn [negb].
  destruct (driver_RC _ (proj1 Hr)) as (o & -> & Ho). cbn [outcome_bind].
  destruct (cap_ok NAND (RowDecoder.numNandInput r) _ _ (proj2 Hr Hi)) as [[ci co] ->].
  destruct (_ =? 0)%Z; (eexists; split; [reflexivity|]; split; [done|intros _; by apply Hr]).
Qed.

Lemma nand_delay_ok w k load ramp : exists r, BasicDecoder.nand_delay tech ip w k load ramp = Ret r.
Proof. unfold BasicDecoder.nand_delay. destruct (resistance_ok (fin_scale tech w)) as [r ->]. by eexists. Qed.

Lemma first_cap d : ready d -> exists c, get (capInput d) 0 = Ret c.
Proof. intros [(_ & _ & HI & _) _]. apply get_ok. rewrite HI. lia. Qed.

Lemma row_latency ramp : runs row_ready (RowDecoder.CalculateLatency tech ip ramp).
Proof.
  intros r Hr. unfold RowDecoder.CalculateLatency. destruct (negb _); [by exists r|].
  destruct (_ =? 0)%Z.
  - cbn [outcome_bind]. destruct (driver_latency ramp _ (proj1 Hr)) as (o & -> & Ho). cbn [outcome_bind].
    eexists. split; [reflexivity|]. split; [done|apply Hr].
  - cbv zeta. destruct (first_cap _ (proj1 Hr)) as [c Ec].
    change (RowDecoder.outputDriver (r <| RowDecoder.rampInput := ramp |>)) with (RowDecoder.outputDriver r).
    rewrite Ec. cbn [outcome_bind]. set (r1 := r <| RowDecoder.rampInput := ramp |>).
    destruct (nand_delay_ok (RowDecoder.widthNandN r1) (RowDecoder.numNandInput r1) (RowDecoder.capNandOutput r1 + c)%num
      (RowDecoder.rampInput r1)) as [[x y] ->]. cbn [outcome_bind].
    change (RowDecoder.outputDriver r1) with (RowDecoder.outputDriver r).
    destruct (driver_latency y _ (proj1 Hr)) as (o & -> & Ho). cbn [outcome_bind].
    eexists. split; [reflexivity|]. split; [done|apply Hr].
Qed.

Lemma row_power cell : runs row_ready (RowDecoder.CalculatePower tech ip cell).
Proof.
  intros r Hr. unfold RowDecoder.CalculatePower. cbv zeta. destruct (negb _); [by exists r|].
  destruct (driver_power _ (proj1 Hr)) as (o & -> & Ho). cbn [outcome_bind].
  destruct (_ =? 0)%Z; [eexists; split; [reflexivity|]; split; [done|apply Hr]|].
  destruct (leakage_ok NAND (RowDecoder.numNandInput r) (RowDecoder.widthNandN r) (RowDecoder.widthNandP r)) as [l ->].
  cbn [outcome_bind]. destruct (first_cap _ Ho) as [c ->]. cbn [outcome_bind].
  eexists. split; [reflexivity|]. split; [done|apply Hr].
Qed.

Definition basic_ready (b : BasicDecoder.t R) : Prop :=
  ready (BasicDecoder.outputDriver b) /\
  (BasicDecoder.initialized b = true -> (0 < BasicDecoder.numNandInput b)%Z -> paired (BasicDecoder.widthNandN b) (BasicDecoder.widthNandP b)).

Lemma basic_Initialize raw k load res wl :
  exists b, BasicDecoder.Initialize tech ip k load res wl (BasicDecoder.BasicDecoder raw) = Ret b /\ basic_ready b.
Proof.
  unfold BasicDecoder.Initialize. cbv zeta. destruct gate_widths as (-> & -> & Ek).
  set (b0 := _ <| BasicDecoder.wireLength := wl |>).
  assert (Hd : forall effort cap b, BasicDecoder.outputDriver b = OutputDriver ->
    ((0 < BasicDecoder.numNandInput b)%Z -> paired (BasicDecoder.widthNandN b) (BasicDecoder.widthNandP b)) ->
    exists b', (let? o := Initialize tech ip effort cap (BasicDecoder.capLoad b) (BasicDecoder.resLoad b) true latency_first
                  (of_Z 0) false (BasicDecoder.wireLength b) (BasicDecoder.outputDriver b) in
                Ret (b <| BasicDecoder.outputDriver := o |> <| BasicDecoder.initialized := true |>)) = Ret b' /\ basic_ready b').
  { intros effort cap b Eo Hp. rewrite Eo.
    destruct (Initialize_unloaded_ready effort cap (BasicDecoder.capLoad b) (BasicDecoder.resLoad b) true false
      (BasicDecoder.wireLength b) OutputDriver fresh_arrays eq_refl) as (o & Ei & Ho & _).
    num_R. rewrite Ei.
    cbn [outcome_bind]. eexists. split; [reflexivity|]. split; [exact Ho|]. intros _. exact Hp. }
  destruct (BasicDecoder.numNandInput b0 =? 0)%Z eqn:E0.
  - apply Z.eqb_eq in E0. apply Hd; [done|]. cbn. cbn in E0. lia.
  - destruct (BasicDecoder.numNandInput b0 =? 2)%Z; apply Hd; try done; intros _; cbn -[IZR]; rewrite Ek; by apply least_pair.
Qed.

Lemma basic_area : runs basic_ready (BasicDecoder.CalculateArea tech).
Proof.
  intros r Hr. unfold BasicDecoder.CalculateArea. destruct (negb _); [by exists r|].
  destruct (driver_area _ (proj1 Hr)) as (o & -> & Ho). cbn [outcome_bind].
  destruct (_ =? 0)%Z; [eexists; split; [reflexivity|]; split; [done|apply Hr]|].
  destruct (area_total NAND (BasicDecoder.numNandInput r) (BasicDecoder.widthNandN r) (BasicDecoder.widthNandP r)
    (Process.featureSize tech * of_Z 40)%num) as [[[a h] w] ->].
  cbn [outcome_bind]. eexists. split; [reflexivity|]. split; [done|apply Hr].
Qed.

Lemma basic_RC : runs basic_ready (BasicDecoder.CalculateRC tech).
Proof.
  intros r Hr. unfold BasicDecoder.CalculateRC. destruct (BasicDecoder.initialized r) eqn:Hi; [|by exists r]. cbn [negb].
  destruct (driver_RC _ (proj1 Hr)) as (o & -> & Ho). cbn [outcome_bind]. cbv zeta.
  set (r1 := r <| BasicDecoder.outputDriver := o |>). destruct (Z.ltb_spec 0 (BasicDecoder.numNandInput r1)) as [Hn|Hn].
  - destruct (cap_ok NAND (BasicDecoder.numNandInput r1) _ _ (proj2 Hr Hi Hn)) as [[ci co] E].
    change (BasicDecoder.widthNandN r1) with (BasicDecoder.widthNandN r).
    change (BasicDecoder.widthNandP r1) with (BasicDecoder.widthNandP r). rewrite E. cbn [outcome_bind].
    eexists. split; [reflexivity|]. split; [done|intros _; by apply Hr].
  - eexists. split; [reflexivity|]. split; [done|apply Hr].
Qed.

Lemma basic_latency ramp : runs basic_ready (BasicDecoder.CalculateLatency tech ip ramp).
Proof.
  intros r Hr. unfold BasicDecoder.CalculateLatency. destruct (negb _); [by exists r|]. cbv zeta.
  set (r1 := r <| BasicDecoder.rampInput := ramp |>).
  destruct (_ =? 0)%Z.
  - cbn [outcome_bind]. destruct (driver_latency (BasicDecoder.rampInput r1) _ (proj1 Hr)) as (o & E & Ho).
    change (BasicDecoder.outputDriver r1) with (BasicDecoder.outputDriver r). rewrite E. cbn [outcome_bind].
    eexists. split; [reflexivity|]. split; [done|apply Hr].
  - change (BasicDecoder.outputDriver r1) with (BasicDecoder.outputDriver r).
    destruct (first_cap _ (proj1 Hr)) as [c ->]. cbn [outcome_bind].
    destruct (nand_delay_ok (BasicDecoder.widthNandN r1) (BasicDecoder.numNandInput r1) (BasicDecoder.capNandOutput r1 + c)%num
      (BasicDecoder.rampInput r1)) as [[x y] ->]. cbn [outcome_bind].
    destruct (driver_latency y _ (proj1 Hr)) as (o & -> & Ho). cbn [outcome_bind].
    eexists. split; [reflexivity|]. split; [done|apply Hr].
Qed.

Lemma basic_power : runs basic_ready (BasicDecoder.CalculatePower tech ip).
Proof.
  intros r Hr. unfold BasicDecoder.CalculatePower. cbv zeta. destruct (negb _); [by exists r|].
  destruct (driver_power _ (proj1 Hr)) as (o & -> & Ho). cbn [outcome_bind].
  destruct (first_cap _ Ho) as [c ->]. cbn [outcome_bind].
  destruct (_ =? 0)%Z.
  - destruct (get_ok (capOutput o) 0) as [co ->]; [destruct Ho as [(_ & _ & _ & HO) _]; rewrite HO; lia|].
    cbn [outcome_bind]. eexists. split; [reflexivity|]. split; [done|apply Hr].
  - destruct (leakage_ok NAND (BasicDecoder.numNandInput r) (BasicDecoder.widthNandN r) (BasicDecoder.widthNandP r)) as [l ->].
    cbn [outcome_bind]. eexists. split; [reflexivity|]. split; [done|apply Hr].
Qed.

(** ** Predecode blocks *)

Section Blocks.
Import PredecodeBlock.
Context (raw : R).

Definition opt {A} (P : A -> Prop) (o : option A) : Prop := match o with Some x => P x | None => True end.

(** The gates, and the second stage that groups B and C end in. *)
Definition gates_ready (b : PredecodeBlock.t R) : Prop :=
  opt row_ready (rowDecoderStage1A b) /\ opt row_ready (rowDecoderStage1B b) /\ opt row_ready (rowDecoderStage1C b) /\
  opt row_ready (rowDecoderStage2 b).

Definition basics_ready (b : PredecodeBlock.t R) : Prop :=
  opt basic_ready (basicDecoderA1 b) /\ opt basic_ready (basicDecoderA2 b) /\ opt basic_ready (basicDecoderB b) /\
  opt basic_ready (basicDecoderC b).

Definition connected (b : PredecodeBlock.t R) : Prop :=
  (is_Some (basicDecoderA2 b) -> is_Some (basicDecoderA1 b) /\ is_Some (rowDecoderStage1A b)) /\
  (is_Some (basicDecoderB b) -> is_Some (rowDecoderStage1B b) /\ is_Some (rowDecoderStage2 b)) /\
  (is_Some (basicDecoderC b) -> is_Some (rowDecoderStage1C b) /\ is_Some (rowDecoderStage2 b)).

Definition block_ready (b : PredecodeBlock.t R) : Prop := gates_ready b /\ basics_ready b /\ connected b.

Lemma new_row_ok k load res nand3 : exists r, new_row tech ip k load res nand3 = Ret r /\ row_ready r.
Proof.
  unfold new_row. destruct (row_Initialize k load res nand3 0 false (lit 0 (-1)) eq_refl) as (r & E & Hr).
  num_R. rewrite E. cbn [outcome_bind]. by apply row_RC.
Qed.

Lemma new_basic_ok k load res : exists d, new_basic raw tech ip k load res = Ret d /\ basic_ready d.
Proof. apply basic_Initialize. Qed.

Lemma one_stage_ok k b : exists b', one_stage tech ip k b = Ret b' /\ gates_ready b' /\
  rowDecoderStage1B b' = None /\ rowDecoderStage1C b' = None /\ basicDecoderA1 b' = basicDecoderA1 b /\ basicDecoderA2 b' = basicDecoderA2 b.
Proof.
  unfold one_stage. cbv zeta. set (b0 := _ <| rowDecoderStage1C := None |>).
  destruct (new_row_ok (numOutputAddressBit b0) (PredecodeBlock.capLoad b0) (PredecodeBlock.resLoad b0) (numNandInputStage1A b0 =? 3)%Z)
    as (r & -> & Hr). cbn [outcome_bind]. eexists. split; [reflexivity|]. by split.
Qed.

Lemma two_groups_ok k b : exists b', two_groups tech ip k b = Ret b' /\ gates_ready b' /\
  rowDecoderStage1C b' = None /\ is_Some (rowDecoderStage2 b') /\ basicDecoderA1 b' = basicDecoderA1 b /\ basicDecoderA2 b' = basicDecoderA2 b.
Proof.
  unfold two_groups. cbv zeta.
  destruct (new_row_ok (numOutputAddressBit b) (PredecodeBlock.capLoad b) (PredecodeBlock.resLoad b) false) as (r2 & -> & H2). cbn [outcome_bind].
  set (bitsA := Z.shiftl 1 (3 * (k - _) - _)). set (bitsB := Z.shiftl 1 (3 * Z.quot k 2)).
  set (capA := (of_Z bitsB * _)%num). set (capB := (of_Z bitsA * _)%num).
  destruct (new_row_ok bitsA capA (of_Z 0) (k - Z.quot k 2 =? 3)%Z) as (rA & -> & HA). cbn [outcome_bind].
  destruct (new_row_ok bitsB capB (of_Z 0) (Z.quot k 2 =? 3)%Z) as (rB & -> & HB). cbn [outcome_bind].
  eexists. split; [reflexivity|]. split; [exact (conj HA (conj HB (conj I H2)))|]. split; [done|]. split; [by eexists|done].
Qed.

Lemma group_ok row k : exists d, group_decoder raw tech ip row k = Ret d /\ opt basic_ready d /\ (is_Some d -> is_Some row).
Proof.
  unfold group_decoder. destruct row as [r|]; [|by exists None].
  destruct (new_basic_ok 3 (of_Z (if (k =? 2)%Z then 8 else 64)%Z * RowDecoder.capNandInput r)%num (of_Z 0)) as (d & -> & Hd).
  cbn [outcome_bind]. exists (Some d). split; [done|]. split; [done|by eexists].
Qed.

(** The decoders in front of group A do not touch the rest of the block. *)
Definition only_A (b b' : PredecodeBlock.t R) : Prop :=
  exists n1 n2 d1 d2, b' = b <| numBasicDecoderA1 := n1 |> <| numBasicDecoderA2 := n2 |> <| basicDecoderA1 := d1 |>
                            <| basicDecoderA2 := d2 |> /\
  opt basic_ready d1 /\ opt basic_ready d2 /\ (is_Some d2 -> is_Some d1).

Lemma only_A_set b n1 n2 d1 d2 : basic_ready d1 -> opt basic_ready d2 ->
  exists b', Ret (b <| numBasicDecoderA1 := n1 |> <| numBasicDecoderA2 := n2 |> <| basicDecoderA1 := Some d1 |>
                    <| basicDecoderA2 := d2 |>) = Ret b' /\ only_A b b'.
Proof. intros H1 H2. eexists. split; [reflexivity|]. exists n1, n2, (Some d1), d2. repeat (split; [done|]). by eexists. Qed.

Lemma groupA_ok r b : basicDecoderA1 b = None -> basicDecoderA2 b = None ->
  exists b', groupA_decoders raw tech ip r b = Ret b' /\ only_A b b'.
Proof.
  intros E1 E2. unfold groupA_decoders. cbv zeta.
  repeat match goal with
  | |- exists b', (if ?c then _ else _) = Ret b' /\ _ => destruct c
  | |- exists b', (let? d := new_basic raw tech ip ?k ?l ?r in _) = Ret b' /\ _ =>
      let d := fresh "d" in let Hd := fresh "Hd" in destruct (new_basic_ok k l r) as (d & -> & Hd); cbn [outcome_bind]
  end; try by apply only_A_set.
  exists b. split; [done|]. exists (numBasicDecoderA1 b), (numBasicDecoderA2 b), (basicDecoderA1 b), (basicDecoderA2 b).
  split; [by destruct b|]. rewrite E1, E2. split; [done|]. split; [done|by intros [? ?]].
Qed.

Lemma lone_ok b : exists b' n1 n2 d, lone_decoder raw tech ip b = Ret b' /\
  b' = b <| numBasicDecoderA1 := n1 |> <| numBasicDecoderA2 := n2 |> <| basicDecoderA2 := None |> <| basicDecoderA1 := Some d |> /\
  basic_ready d.
Proof.
  unfold lone_decoder.
  assert (exists d, (if (numDecoder12 b =? 1)%Z then new_basic raw tech ip 1 (PredecodeBlock.capLoad b) (PredecodeBlock.resLoad b)
            else if (numDecoder24 b =? 1)%Z then new_basic raw tech ip 2 (PredecodeBlock.capLoad b) (PredecodeBlock.resLoad b)
            else if (numDecoder38 b =? 1)%Z then new_basic raw tech ip 3 (PredecodeBlock.capLoad b) (PredecodeBlock.resLoad b)
            else Ret (BasicDecoder.BasicDecoder raw)) = Ret d /\ basic_ready d) as (d & -> & Hd).
  { repeat match goal with |- context [if ?c then _ else _] => destruct c end; try apply new_basic_ok.
    eexists. split; [reflexivity|]. split; [|done]. by split. }
  cbn [outcome_bind]. by eexists _, 1%Z, 0%Z, d.
Qed.

Lemma front_ok b : gates_ready b -> (is_Some (rowDecoderStage1B b) -> is_Some (rowDecoderStage2 b)) ->
  rowDecoderStage1C b = None -> basicDecoderA1 b = None -> basicDecoderA2 b = None ->
  exists b', front raw tech ip b = Ret b' /\ block_ready b'.
Proof.
  intros Hg HB2 EC E1 E2. unfold front. rewrite EC. cbn [group_decoder outcome_bind].
  destruct (group_ok (rowDecoderStage1B b) (numNandInputStage1B b)) as (dB & -> & HdB & HB). cbn [outcome_bind].
  set (b0 := b <| basicDecoderC := None |> <| basicDecoderB := dB |>).
  assert (Hblock : forall n1 n2 d1 d2, opt basic_ready d1 -> opt basic_ready d2 ->
            (is_Some d2 -> is_Some d1 /\ is_Some (rowDecoderStage1A b)) ->
            block_ready (b0 <| numBasicDecoderA1 := n1 |> <| numBasicDecoderA2 := n2 |> <| basicDecoderA1 := d1 |>
                            <| basicDecoderA2 := d2 |> <| PredecodeBlock.initialized := true |>)).
  { intros n1 n2 d1 d2 H1 H2 H12. split; [exact Hg|]. split; [exact (conj H1 (conj H2 (conj HdB I)))|]. split; [exact H12|].
    split; [|by intros [? ?]]. intros Hs. split; [by apply HB|by apply HB2, HB]. }
  change (rowDecoderStage1A b0) with (rowDecoderStage1A b). destruct (rowDecoderStage1A b) as [r|] eqn:EA.
  - destruct (groupA_ok r b0 E1 E2) as (b' & -> & n1 & n2 & d1 & d2 & -> & H1 & H2 & H12). cbn [outcome_bind].
    eexists. split; [reflexivity|]. apply Hblock; [done|done|]. intros Hs. split; [by apply H12|by eexists].
  - destruct (lone_ok b0) as (b' & n1 & n2 & d & -> & -> & Hd). cbn [outcome_bind].
    eexists. split; [reflexivity|]. apply (Hblock n1 n2 (Some d) None); [done|done|by intros [? ?]].
Qed.

Lemma block_Initialize n load res : (1 <= n <= 18)%Z ->
  exists b, PredecodeBlock.Initialize raw tech ip n load res (PredecodeBlock.PredecodeBlock raw) = Ret b /\ block_ready b.
Proof.
  intros Hn. unfold PredecodeBlock.Initialize. cbv zeta.
  rewrite (proj2 (Z.ltb_ge 27 n)), (proj2 (Z.eqb_neq n 0)), (proj2 (Z.ltb_ge n 0)) by lia.
  pose proof (PredecodeFacts.counts_bits n ltac:(lia)) as Hc. destruct (decoder_counts n) as [[d12 d24] d38] eqn:Ec.
  destruct Hc as (Hbits & H12 & H24 & H38).
  assert (H12' : (d12 = 1 -> n = 1)%Z).
  { intros ->. revert Ec. unfold decoder_counts. destruct (Z.eqb_spec n 1); [done|]. by intros [= ]. }
  set (b0 := _ <| numDecoder38 := d38 |>).
  destruct (Z.leb_spec (d12 + d24 + d38) 1) as [H1|H1].
  - cbn [outcome_bind]. apply front_ok; done || (intros [? ?]; done).
  - destruct (Z.leb_spec (d12 + d24 + d38) 3) as [H3|H3].
    + destruct (one_stage_ok (d12 + d24 + d38) b0) as (b1 & -> & Hg & EB & EC & E1 & E2). cbn [outcome_bind].
      apply front_ok; rewrite ?EB; done || (intros [? ?]; done).
    + destruct (Z.leb_spec (d12 + d24 + d38) 6) as [H6|H6]; [|lia].
      destruct (two_groups_ok (d12 + d24 + d38) b0) as (b1 & -> & Hg & EC & Hs & E1 & E2). cbn [outcome_bind].
      by apply front_ok.
Qed.

(** Phases of the components of a block *)

Lemma guarded_ok {A B} (P : B -> Prop) (op : B -> Outcome B) (g : option A) p : runs P op -> opt P p ->
  exists p', on_guarded g op p = Ret p' /\ opt P p' /\ (is_Some p' <-> is_Some p).
Proof.
  intros Hop Hp. destruct g; cbn; [|by exists p]. destruct p as [x|]; cbn; [|by exists None].
  destruct (Hop x Hp) as (y & -> & Hy). cbn. exists (Some y). split; [done|]. split; [done|]. by split; eexists.
Qed.

Lemma pointer_ok {B} (P : B -> Prop) (op : B -> Outcome B) p : runs P op -> opt P p ->
  exists p', on_pointer op p = Ret p' /\ opt P p' /\ (is_Some p' <-> is_Some p).
Proof. exact (guarded_ok P op (Some tt) p). Qed.

Lemma each_basic_ok op : runs basic_ready op -> runs block_ready (each_basic op).
Proof.
  intros Hop b (Hg & (H1 & H2 & H3 & H4) & Hc1 & Hc2 & Hc3). unfold each_basic.
  destruct (pointer_ok _ op _ Hop H1) as (a1 & -> & Ha1 & E1). cbn [outcome_bind].
  destruct (guarded_ok _ op a1 _ Hop H2) as (a2 & -> & Ha2 & E2). cbn [outcome_bind].
  destruct (guarded_ok _ op a1 _ Hop H3) as (bb & -> & Hbb & E3). cbn [outcome_bind].
  destruct (guarded_ok _ op (guarded a1 bb) _ Hop H4) as (bc & -> & Hbc & E4). cbn [outcome_bind].
  eexists. split; [reflexivity|]. split; [exact Hg|]. split; [by split|]. unfold connected. cbn. by rewrite E1, E2, E3, E4.
Qed.

Lemma each_row1_ok op : runs row_ready op -> runs block_ready (each_row1 op).
Proof.
  intros Hop b ((H1 & H2 & H3 & H4) & Hb & Hc1 & Hc2 & Hc3). unfold each_row1.
  destruct (pointer_ok _ op _ Hop H1) as (ra & -> & Hra & E1). cbn [outcome_bind].
  destruct (guarded_ok _ op ra _ Hop H2) as (rb & -> & Hrb & E2). cbn [outcome_bind].
  destruct (guarded_ok _ op (guarded ra rb) _ Hop H3) as (rc & -> & Hrc & E3). cbn [outcome_bind].
  eexists. split; [reflexivity|]. split; [by split|]. split; [exact Hb|]. unfold connected. cbn. by rewrite E1, E2, E3.
Qed.

(** Members that readiness does not look at. *)
Lemma block_ready_fu b u : block_ready b -> block_ready (b <| PredecodeBlock.fu := u |>).
Proof. done. Qed.

Lemma block_area : runs block_ready (PredecodeBlock.CalculateArea tech).
Proof.
  intros b Hb. unfold PredecodeBlock.CalculateArea. cbv zeta. destruct (negb _); [by exists b|].
  destruct (_ =? 0)%Z; [eexists; split; [reflexivity|done]|].
  destruct (each_basic_ok _ basic_area b Hb) as (b1 & -> & H1). cbn [outcome_bind].
  destruct (stack _ _ (guarded (guarded _ _) _) _) as [height width].
  destruct (each_row1_ok _ row_area b1 H1) as (b2 & -> & H2). cbn [outcome_bind].
  destruct H2 as ((Ha & Hbb & Hc & Hs) & Hba & Hc1 & Hc2 & Hc3).
  destruct (guarded_ok _ _ (rowDecoderStage1A b2) _ row_area Hs) as (r2 & -> & Hr2 & E2). cbn [outcome_bind].
  destruct (stack_row _ (stack_row _ _)) as [h w]. destruct (match guarded _ (rowDecoderStage2 _) with Some _ => _ | None => _ end) as [h' w'].
  eexists. split; [reflexivity|]. split; [by split|]. split; [exact Hba|]. unfold connected. cbn. by rewrite E2.
Qed.

Lemma block_RC : runs block_ready (PredecodeBlock.CalculateRC tech).
Proof.
  intros b Hb. unfold PredecodeBlock.CalculateRC. destruct (negb _); [by exists b|].
  destruct (_ <? _)%Z; [|by exists b]. by apply (each_basic_ok _ basic_RC).
Qed.

Lemma block_power cell : runs block_ready (PredecodeBlock.CalculatePower tech ip cell).
Proof.
  intros b Hb. unfold PredecodeBlock.CalculatePower. cbv zeta. destruct (negb _); [by exists b|].
  destruct (_ =? 0)%Z; [eexists; split; [reflexivity|done]|].
  destruct (each_basic_ok _ basic_power b Hb) as (b1 & -> & H1). cbn [outcome_bind].
  destruct (each_row1_ok _ (row_power cell) b1 H1) as (b2 & -> & H2). cbn [outcome_bind].
  destruct (add_power RowDecoder.fu (guarded (rowDecoderStage1A b2) (rowDecoderStage2 b2)) _) as [l e]. eexists. split; [reflexivity|done].
Qed.

(** ** Paths *)

Lemma row_path_ok ramp r : row_ready r -> exists r' d o, row_path tech ip ramp r = Ret (r', d, o) /\ row_ready r'.
Proof. intros Hr. unfold row_path. destruct (row_latency ramp r Hr) as (r' & -> & Hr'). by eexists _, _, _. Qed.

Lemma last_path_ok ramp delay b : block_ready b -> exists b' d o, last_path tech ip ramp delay b = Ret (b', d, o) /\ block_ready b'.
Proof.
  intros Hb. unfold last_path. destruct (rowDecoderStage2 b) as [r|] eqn:E; [|by eexists _, _, _].
  destruct Hb as ((Ha & Hbb & Hc & Hs) & Hba & Hc1 & Hc2 & Hc3). rewrite E in *.
  destruct (row_path_ok ramp r Hs) as (r' & d & o & -> & Hr'). cbn [outcome_bind]. eexists _, _, _. split; [reflexivity|].
  split; [by split|]. split; [exact Hba|]. split; [exact Hc1|]. split.
  - intros H. split; [by apply Hc2|by eexists].
  - intros H. split; [by apply Hc3|by eexists].
Qed.

Lemma worst_ready d r b : block_ready b -> block_ready (worst d r b).
Proof. done. Qed.

Lemma with_1A b r : block_ready b -> row_ready r -> block_ready (b <| rowDecoderStage1A := Some r |>).
Proof.
  intros ((Ha & Hbb & Hc & Hs) & Hba & Hc1 & Hc2 & Hc3) Hr. split; [by split|]. split; [exact Hba|].
  split; [|by split]. intros H. split; [by apply Hc1|by eexists].
Qed.

Lemma path_A1_ok : runs block_ready (path_A1 tech ip).
Proof.
  intros b Hb. unfold path_A1. destruct (basicDecoderA1 b) as [d|] eqn:E1; [|eexists; split; [reflexivity|done]].
  pose proof Hb as (Hg & (H1 & H2 & H3 & H4) & Hc1 & Hc2 & Hc3). rewrite E1 in H1.
  destruct (basic_latency (PredecodeBlock.rampInput b) d H1) as (d' & -> & Hd). cbn [outcome_bind]. cbv zeta.
  set (b1 := b <| basicDecoderA1 := Some d' |>).
  assert (Hb1 : block_ready b1).
  { split; [exact Hg|]. split; [by split|]. split; [|by split]. intros H. split; [by eexists|by apply Hc1]. }
  change (rowDecoderStage1A b1) with (rowDecoderStage1A b).
  destruct (rowDecoderStage1A b) as [r|] eqn:EA; [|eexists; split; [reflexivity|done]].
  pose proof Hg as (Hr & _). rewrite EA in Hr.
  destruct (row_path_ok (BasicDecoder.rampOutput d') r Hr) as (r' & rd & o & -> & Hr'). cbn [outcome_bind].
  set (b2 := b1 <| rowDecoderStage1A := Some r' |>).
  match goal with |- context [last_path tech ip o ?x b2] => destruct (last_path_ok o x b2) as (b3 & d3 & o3 & -> & Hb3) end;
    [by apply with_1A|].
  cbn [outcome_bind]. eexists. split; [reflexivity|done].
Qed.

Lemma path_A2_ok : runs block_ready (path_A2 tech ip).
Proof.
  intros b Hb. unfold path_A2. destruct (basicDecoderA2 b) as [d|] eqn:E2; [|eexists; split; [reflexivity|done]].
  pose proof Hb as (Hg & (H1 & H2 & H3 & H4) & Hc1 & Hc2 & Hc3). rewrite E2 in H2.
  destruct (Hc1 ltac:(rewrite E2; by eexists)) as [[a1 E1] [r EA]].
  destruct (basic_latency (PredecodeBlock.rampInput b) d H2) as (d' & -> & Hd). cbn [outcome_bind]. cbv zeta.
  set (b1 := b <| basicDecoderA2 := Some d' |>).
  assert (Hb1 : block_ready b1).
  { split; [exact Hg|]. split; [by split|]. split; [|by split]. intros H. apply Hc1. rewrite E2. by eexists. }
  change (basicDecoderA1 b1) with (basicDecoderA1 b). change (rowDecoderStage1A b1) with (rowDecoderStage1A b).
  rewrite E1, EA. cbn [deref outcome_bind]. pose proof Hg as (Hr & _). rewrite EA in Hr.
  destruct (row_path_ok (BasicDecoder.rampOutput d') r Hr) as (r' & rd & o & -> & Hr'). cbn [outcome_bind].
  set (b2 := b1 <| rowDecoderStage1A := Some r' |>).
  match goal with |- context [last_path tech ip o ?x b2] => destruct (last_path_ok o x b2) as (b3 & d3 & o3 & -> & Hb3) end;
    [by apply with_1A|].
  cbn [outcome_bind]. eexists. split; [reflexivity|done].
Qed.

Lemma group_path_ok d r r2 ramp : basic_ready d -> row_ready r -> row_ready r2 ->
  exists d' r' r2' x y, group_path tech ip d (Some r) (Some r2) ramp = Ret (d', r', r2', x, y) /\
    basic_ready d' /\ row_ready r' /\ row_ready r2'.
Proof.
  intros Hd Hr H2. unfold group_path. destruct (basic_latency ramp d Hd) as (d' & -> & Hd'). cbn [deref outcome_bind].
  destruct (row_path_ok (BasicDecoder.rampOutput d') r Hr) as (r' & rd & o & -> & Hr'). cbn [outcome_bind].
  destruct (row_path_ok o r2 H2) as (r2' & d2 & o2 & -> & H2'). cbn [outcome_bind]. by eexists _, _, _, _, _.
Qed.

Lemma path_B_ok : runs block_ready (path_B tech ip).
Proof.
  intros b Hb. unfold path_B. destruct (basicDecoderB b) as [d|] eqn:E; [|eexists; split; [reflexivity|done]].
  destruct Hb as ((Ha & Hbb & Hc & Hs) & (H1 & H2 & H3 & H4) & Hc1 & Hc2 & Hc3).
  destruct (Hc2 ltac:(rewrite E; by eexists)) as [[r Er] [r2 E2]]. rewrite E, Er, E2 in *.
  destruct (group_path_ok d r r2 (PredecodeBlock.rampInput b) H3 Hbb Hs) as (d' & r' & r2' & x & y & -> & Hd & Hr & Hr2).
  cbn [outcome_bind]. eexists. split; [reflexivity|]. split; [by split|]. split; [by split|]. split; [exact Hc1|].
  split; [by split; eexists|]. intros H. split; [by apply Hc3|by eexists].
Qed.

Lemma path_C_ok : runs block_ready (path_C tech ip).
Proof.
  intros b Hb. unfold path_C. destruct (basicDecoderC b) as [d|] eqn:E; [|eexists; split; [reflexivity|done]].
  destruct Hb as ((Ha & Hbb & Hc & Hs) & (H1 & H2 & H3 & H4) & Hc1 & Hc2 & Hc3).
  destruct (Hc3 ltac:(rewrite E; by eexists)) as [[r Er] [r2 E2]]. rewrite E, Er, E2 in *.
  destruct (group_path_ok d r r2 (PredecodeBlock.rampInput b) H4 Hc Hs) as (d' & r' & r2' & x & y & -> & Hd & Hr & Hr2).
  cbn [outcome_bind]. eexists. split; [reflexivity|]. split; [by split|]. split; [by split|]. split; [exact Hc1|].
  split; [|by split; eexists]. intros H. split; [by apply Hc2|by eexists].
Qed.

Lemma block_latency ramp : runs block_ready (PredecodeBlock.CalculateLatency tech ip ramp).
Proof.
  intros b Hb. unfold PredecodeBlock.CalculateLatency. cbv zeta. destruct (negb _); [by exists b|].
  destruct (_ =? 0)%Z; [eexists; split; [reflexivity|done]|]. set (b0 := _ <| PredecodeBlock.fu := _ |>).
  destruct (path_A1_ok b0 Hb) as (b1 & -> & H1). cbn [outcome_bind].
  destruct (path_A2_ok b1 H1) as (b2 & -> & H2). cbn [outcome_bind].
  destruct (path_B_ok b2 H2) as (b3 & -> & H3). cbn [outcome_bind].
  destruct (path_C_ok b3 H3) as (b4 & -> & H4). cbn [outcome_bind]. eexists. split; [reflexivity|done].
Qed.

End Blocks.
End Chains.
End ChainFacts.
