(* ===== verification/WireFacts.v ===== *)
(** * Facts about repeated wires

    Exact arithmetic at bulk nodes: the figures of a repeater exist and are
    positive, the search for a cheaper repeater ends, and the spacing of the
    optimal repeater minimises the delay. *)
From S2P Require Import Prelude Numeric RealNum Types InputParameter Process Formula FormulaFacts Circuit.
From S2P Require Import OutputDriver LeafFacts ChainFacts Peripherals Wires.
From stdpp Require Import base list strings.
From Stdlib Require Import ZArith Lia Reals Lra Zfloor.
Open Scope R_scope.

(** A loop whose body returns, keeps an invariant and decreases a measure while it
    goes on, returns. *)
Lemma loop_ok {S : Type} (I : S -> Prop) (mu : S -> nat) cond (body : S -> Outcome S) :
  (forall s, I s -> cond s = true -> exists s', body s = Ret s' /\ I s' /\ (cond s' = true -> (mu s' < mu s)%nat)) ->
  forall fuel s, I s -> (cond s = true -> (mu s < fuel)%nat) ->
  exists s', loop fuel cond body s = Ret s' /\ I s' /\ cond s' = false.
Proof.
  intros Hb. induction fuel as [|n IH]; intros s Hs Hf; cbn; destruct (cond s) eqn:E.
  - specialize (Hf eq_refl). lia.
  - by exists s.
  - destruct (Hb s Hs E) as (s1 & -> & H1 & Hm). cbn. apply IH; [done|]. intros E1.
    specialize (Hm E1). specialize (Hf eq_refl). lia.
  - by exists s.
Qed.

Module WireFacts.
Import Formula FormulaFacts ChainFacts.

(** Parameters of a physical process. *)
Record Physical (tech : Process.t R) : Prop := {
  vdd_pos : 0 < Process.vdd tech;
  multiplier_pos : 0 < Process.effectiveResistanceMultiplier tech;
  gate_pos : 0 < Process.capIdealGate tech + Process.capOverlap tech + Process.capFringe tech;
  poly_nonneg : 0 <= Process.phyGateLength tech * Process.capPolywire tech;
  junction_nonneg : 0 <= Process.capJunction tech;
  sidewall_nonneg : 0 <= Process.capSidewall tech;
  channel_nonneg : 0 <= Process.capDrainToChannel tech;
  on_n : List.Forall (Rlt 0) (Process.currentOnNmos tech);
  on_p : List.Forall (Rlt 0) (Process.currentOnPmos tech);
  off_n : List.Forall (Rlt 0) (Process.currentOffNmos tech);
  off_p : List.Forall (Rlt 0) (Process.currentOffPmos tech);
  on_p_table : length (Process.currentOnPmos tech) = 101%nat
}.

Lemma resize_same (w : Wire.t R) : w <| Wire.repeaterSize := Wire.repeaterSize w |> = w.
Proof. by destruct w. Qed.

Section Repeated.
Context (tech : Process.t R) (ip : InputParameter.t R) (U : Usable tech ip) (P : Physical tech).
Let F := Process.featureSize tech.
Let pn := Process.pnSizeRatio tech.

Lemma factor_one : Wire.factor tech = 1.
Proof.
  unfold Wire.factor. num_R. pose proof (bulk_node _ _ U). assert (nm 14 < nm 22) by (rewrite !nm_value; lra). by r_decide.
Qed.

Lemma entry_pos (l : list R) i : List.Forall (Rlt 0) l -> length l = 101%nat -> (0 <= i <= 100)%Z ->
  exists x, entry l i = Ret x /\ 0 < x.
Proof.
  intros Hp Hl Hi. destruct (entry_ok l i Hl Hi) as [x E]. exists x. split; [done|].
  revert E. unfold entry. destruct (i <? 0)%Z; [done|]. destruct (l !! Z.to_nat i) as [y|] eqn:Ey; [|done].
  intros [= <-]. apply (proj1 (List.Forall_forall _ _) Hp). apply list_elem_of_In. by eapply list_elem_of_lookup_2.
Qed.

Lemma index_T : temperature_index (Wire.T ip) = Ret (InputParameter.temperature ip - 300)%Z.
Proof. exact (index_value tech ip U). Qed.

Lemma warm_index : (0 <= InputParameter.temperature ip - 300 <= 100)%Z.
Proof. pose proof (warm _ _ U). lia. Qed.

(** ** The parts of a repeater, as functions of its width *)

Lemma contact_nonneg : 0 <= drain_contact F.
Proof.
  unfold drain_contact, CONTACT_SIZE, MIN_GAP_BET_CONTACT_POLY. rewrite !Rlit_neg. num_R. change (10 ^ 1)%Z with 10%Z.
  pose proof (F_pos tech ip U) as HF. fold F in HF. nra.
Qed.

Lemma pn_pos : 0 < pn.
Proof. pose proof (pn_bounds tech ip U) as Hb. unfold pn. lra. Qed.

Lemma resistance_part type : exists x, 0 < x /\
  forall w, 0 < w -> CalculateOnResistance w type (Wire.T ip) tech = Ret (x / w).
Proof.
  destruct (entry_pos (if (type =? NMOS)%Z then Process.currentOnNmos tech else Process.currentOnPmos tech)
              (InputParameter.temperature ip - 300)) as (i & Ei & Hi); [destruct (type =? NMOS)%Z; apply P| |apply warm_index|].
  { destruct (type =? NMOS)%Z; [apply U|apply P]. }
  pose proof (vdd_pos _ P). pose proof (multiplier_pos _ P).
  exists (Process.effectiveResistanceMultiplier tech * Process.vdd tech / i). split.
  { apply Rdiv_lt_0_compat; [by apply Rmult_lt_0_compat|done]. }
  intros w Hw. unfold CalculateOnResistance. rewrite index_T. cbn [outcome_bind]. rewrite Ei. cbn [outcome_bind].
  unfold resistance_width. rewrite (bulk_test tech ip U). num_R. f_equal. field. lra.
Qed.

Lemma leakage_part : exists x, 0 < x /\ forall n, CalculateGateLeakage INV 1 n (n * pn) (Wire.T ip) tech = Ret (x * n).
Proof.
  destruct (entry_pos (Process.currentOffNmos tech) (InputParameter.temperature ip - 300)) as (x & Ex & Hx);
    [apply P|apply U|apply warm_index|].
  destruct (entry_pos (Process.currentOffPmos tech) (InputParameter.temperature ip - 300)) as (y & Ey & Hy);
    [apply P|apply U|apply warm_index|].
  exists ((x + pn * y) / 2). pose proof pn_pos. split; [nra|]. intros n. unfold CalculateGateLeakage. rewrite index_T.
  cbn [outcome_bind]. rewrite Ex, Ey. cbn [outcome_bind]. change (INV =? INV)%Z with true. cbv iota.
  rewrite (bulk_test tech ip U). num_R. f_equal. field.
Qed.

(** A drain narrower than the limit of one metre is not folded. *)
Lemma drain_part type : type = NMOS \/ type = PMOS -> exists a b, 0 <= a /\ 0 <= b /\
  forall w, 0 < w < 1 -> CalculateDrainCap w type 1 tech = Ret (a + b * w).
Proof.
  intros Ht. pose proof contact_nonneg as Hc. pose proof (junction_nonneg _ P) as Hj. pose proof (channel_nonneg _ P) as Hch.
  pose proof (sidewall_nonneg _ P) as Hs.
  exists (2 * drain_contact F * Process.capSidewall tech),
    (drain_contact F * Process.capJunction tech + Process.capSidewall tech + Process.capDrainToChannel tech).
  split; [apply Rmult_le_pos; lra|]. split; [pose proof (Rmult_le_pos _ _ Hc Hj); lra|]. intros w Hw.
  unfold CalculateDrainCap, CalculateGateCapacitance. rewrite (bulk_test tech ip U).
  destruct Ht as [-> | ->]; cbn [Z.eqb NMOS PMOS]; unfold bulk_capOutput; cbv zeta; fold F; num_R.
  - replace (mos_ratio w 0) with 0 by (unfold mos_ratio; num_R; unfold Rdiv; lra).
    replace (cap_limits F 1 0) with (0, 1) by (unfold cap_limits; num_R; by r_decide).
    unfold bulk_drain, bulk_drain_widths, bulk_sidewall. num_R. r_decide. cbn [outcome_bind].
    change (INV =? INV)%Z with true. cbv iota beta zeta. cbn [outcome_bind Z.rem Z.eqb]. f_equal. num_R. simpl. lra.
  - replace (mos_ratio 0 w) with 1 by (unfold mos_ratio; num_R; field; lra).
    replace (cap_limits F 1 1) with (1, 0) by (unfold cap_limits; num_R; by r_decide).
    unfold bulk_drain, bulk_drain_widths, bulk_sidewall. num_R. r_decide. cbn [outcome_bind].
    change (INV =? INV)%Z with true. cbv iota beta zeta. cbn [outcome_bind Z.rem Z.eqb]. f_equal. num_R. simpl. lra.
Qed.

(** A repeater whose NMOS is [n] wide: its resistance falls with [n], its
    capacitances and its leakage grow. *)
Record Parts : Type := mkParts { drive : R; gate0 : R; gate1 : R; drain0 : R; drain1 : R; leak : R }.

Record parts_ok (c : Parts) : Prop := {
  drive_pos : 0 < drive c;
  gate0_nonneg : 0 <= gate0 c;
  gate1_pos : 0 < gate1 c;
  drain0_nonneg : 0 <= drain0 c;
  drain1_nonneg : 0 <= drain1 c;
  leak_pos : 0 < leak c;
  parts_value : forall n, 0 < n -> n * pn < 1 ->
    Wire.repeater_input tech n (n * pn) = gate0 c + gate1 c * n /\
    Wire.repeater_output tech n (n * pn) = Ret (drain0 c + drain1 c * n) /\
    Wire.repeater_resistance tech ip n (n * pn) = Ret (drive c / n) /\
    CalculateGateLeakage INV 1 n (n * pn) (Wire.T ip) tech = Ret (leak c * n)
}.

Lemma parts_exist : exists c, parts_ok c.
Proof.
  destruct (resistance_part NMOS) as (rn & Hrn & En). destruct (resistance_part PMOS) as (rp & Hrp & Ep).
  destruct leakage_part as (l & Hl & El). destruct (drain_part NMOS (or_introl eq_refl)) as (a & b & Ha & Hb & Ed).
  destruct (drain_part PMOS (or_intror eq_refl)) as (a' & b' & Ha' & Hb' & Ed').
  set (g := Process.capIdealGate tech + Process.capOverlap tech + Process.capFringe tech).
  set (q := Process.phyGateLength tech * Process.capPolywire tech).
  assert (Hg : 0 < g) by apply P. assert (Hq : 0 <= q) by apply P. pose proof (pn_bounds tech ip U) as Hpn. fold pn in Hpn.
  exists (mkParts (rn + rp / pn) (2 * q) (g * (1 + pn)) (a + a') (b + b' * pn) l).
  constructor; cbn [drive gate0 gate1 drain0 drain1 leak]; [|nra|nra|lra|nra|done|].
  { assert (0 < rp / pn) by (apply Rdiv_lt_0_compat; lra). lra. }
  intros n Hn Hm. assert (Hnp : 0 < n * pn) by nra. assert (Hn1 : n < 1) by nra.
  unfold Wire.repeater_input, Wire.repeater_output, Wire.repeater_resistance, CalculateGateCap. rewrite factor_one.
  cbv zeta. rewrite (bulk_test tech ip U). num_R. rewrite !Rmult_1_l. fold g q. change (Wire.no_limit : R) with 1.
  rewrite Ed, Ed', En, Ep, El by lra. cbn [outcome_bind].
  split; [ring|]. split; [f_equal; ring|]. split; [|done]. f_equal. field. lra.
Qed.

(** ** A repeated wire *)

Lemma width_value (w : Wire.t R) : Wire.nmosSize tech w = 2 * F * Wire.repeaterSize w.
Proof.
  unfold Wire.nmosSize, MIN_NMOS_SIZE. rewrite Rlit_neg. num_R. change (10 ^ 1)%Z with 10%Z. fold F. lra.
Qed.

(** A wire with a repeater to evaluate, of transistors narrower than a metre. *)
Record Sound (w : Wire.t R) : Prop := {
  size_pos : 0 < Wire.repeaterSize w;
  narrow : 2 * Process.featureSize tech * Wire.repeaterSize w * Process.pnSizeRatio tech < 1;
  spacing_pos : 0 < Wire.repeaterSpacing w;
  cap_pos : 0 < Wire.capWirePerUnit w;
  res_pos : 0 < Wire.resWirePerUnit w
}.

Section Figures.
Context (c : Parts) (K : parts_ok c).

Definition delay_at (n L C W : R) : R :=
  lit 693 (-3) * (drive c / n * (gate0 c + gate1 c * n + (drain0 c + drain1 c * n)) + drive c / n * (C * L)
     + W * L * (drain0 c + drain1 c * n) + lit 5 (-1) * (W * L) * (C * L)) / L.
Definition energy_at (n L C : R) : R :=
  ((gate0 c + gate1 c * n + (drain0 c + drain1 c * n) + C * L) * Process.vdd tech * Process.vdd tech) / L.
Definition leakage_at (n L : R) : R := leak c * n * Process.vdd tech / L.

Lemma unit_figures w : Sound w -> let n := Wire.nmosSize tech w in let L := Wire.repeaterSpacing w in
  0 < n /\
  Wire.getRepeatedWireUnitDelay tech ip w = Ret (delay_at n L (Wire.capWirePerUnit w) (Wire.resWirePerUnit w)) /\
  Wire.getRepeatedWireUnitDynamicEnergy tech w = Ret (energy_at n L (Wire.capWirePerUnit w)) /\
  Wire.getRepeatedWireUnitLeakage tech ip w = Ret (leakage_at n L).
Proof.
  intros [Hk Hm Hs Hc Hr] n L. pose proof (F_pos tech ip U) as HF. fold F in HF. fold F pn in Hm.
  assert (En : n = 2 * F * Wire.repeaterSize w) by apply width_value.
  assert (Hn : 0 < n) by (rewrite En; repeat apply Rmult_lt_0_compat; lra). rewrite <- En in Hm.
  destruct (parts_value c K n Hn Hm) as (Ei & Eo & Er & El). split; [done|].
  unfold Wire.getRepeatedWireUnitDelay, Wire.getRepeatedWireUnitDynamicEnergy, Wire.getRepeatedWireUnitLeakage.
  fold n L. cbv zeta. num_R. fold pn. rewrite Ei, Er, El, Eo. cbn [outcome_bind]. split.
  - revert Eo. unfold Wire.repeater_output. rewrite factor_one. num_R. rewrite !Rmult_1_l.
    destruct (CalculateDrainCap n NMOS _ _) as [a|]; [|done]. cbn [outcome_bind].
    destruct (CalculateDrainCap (n * pn) PMOS _ _) as [b|]; [|done]. cbn [outcome_bind]. by intros [= ->].
  - split; [|done]. unfold energy_at. by rewrite Rplus_0_r.
Qed.

(** ** The search for a cheaper repeater *)

Section Search.
Context (w0 : Wire.t R) (S0 : Sound w0) (pen : R) (Hpen : 0 <= pen) (one : 1 <= Wire.repeaterSize w0).
Let k0 := Wire.repeaterSize w0.
Let L0 := Wire.repeaterSpacing w0.

Definition resized (k : R) : Wire.t R := w0 <| Wire.repeaterSize := k |>.
Definition D (k : R) : R := delay_at (2 * F * k) L0 (Wire.capWirePerUnit w0) (Wire.resWirePerUnit w0).
Definition E (k : R) : R := energy_at (2 * F * k) L0 (Wire.capWirePerUnit w0).
Definition Lk (k : R) : R := leakage_at (2 * F * k) L0.
Definition target : R := D k0 * (1 + pen).

Lemma resized_same : resized k0 = w0.
Proof. exact (resize_same w0). Qed.

Lemma resized_sound k : 0 < k <= k0 -> Sound (resized k).
Proof.
  intros Hk. destruct S0 as [Hp Hm Hs Hc Hr]. unfold resized. split; [apply Hk| |done..]. cbn.
  pose proof (F_pos tech ip U) as HF. pose proof pn_pos as Hn. unfold pn in Hn. fold k0 in Hm. fold F. fold F in Hm.
  eapply Rle_lt_trans; [|exact Hm]. apply Rmult_le_compat_r; [lra|]. apply Rmult_le_compat_l; [fold F in HF; lra|apply Hk].
Qed.

Lemma resized_figures k : 0 < k <= k0 ->
  Wire.getRepeatedWireUnitDelay tech ip (resized k) = Ret (D k) /\
  Wire.getRepeatedWireUnitDynamicEnergy tech (resized k) = Ret (E k) /\
  Wire.getRepeatedWireUnitLeakage tech ip (resized k) = Ret (Lk k).
Proof. intros Hk. destruct (unit_figures _ (resized_sound k Hk)) as (_ & H). by rewrite width_value in H. Qed.

(** A smaller repeater leaks less and does not switch more. *)
Lemma cheaper k k' : 0 < k < k' -> 0 < E k <= E k' /\ 0 < Lk k < Lk k'.
Proof.
  intros Hk. pose proof (F_pos tech ip U) as HF. fold F in HF. pose proof (vdd_pos _ P) as Hv. destruct S0 as [_ _ Hs Hc _].
  fold L0 in Hs. pose proof (Rinv_0_lt_compat _ Hs) as Hi. destruct K as [_ Hg0 Hg1 Hd0 Hd1 Hl _].
  assert (Hv2 : 0 < Process.vdd tech * Process.vdd tech * / L0) by (repeat apply Rmult_lt_0_compat; lra).
  assert (Hn : 0 < 2 * F * k < 2 * F * k') by nra. unfold E, Lk, energy_at, leakage_at, Rdiv.
  set (n := 2 * F * k) in *. set (n' := 2 * F * k') in *. set (C := Wire.capWirePerUnit w0) in *.
  assert (HC : 0 < C * L0) by (by apply Rmult_lt_0_compat).
  assert (Hvl : 0 < Process.vdd tech * / L0) by (apply Rmult_lt_0_compat; lra).
  assert (Hdn : 0 <= drain1 c * n <= drain1 c * n') by (split; [apply Rmult_le_pos|apply Rmult_le_compat_l]; lra).
  assert (Hgn : 0 < gate1 c * n < gate1 c * n') by (split; [apply Rmult_lt_0_compat|apply Rmult_lt_compat_l]; lra).
  rewrite !Rmult_assoc, <- (Rmult_assoc (Process.vdd tech)). repeat split.
  - apply Rmult_lt_0_compat; lra.
  - apply Rmult_le_compat_r; lra.
  - repeat apply Rmult_lt_0_compat; lra.
  - apply Rmult_lt_compat_l; [done|]. apply Rmult_lt_compat_r; lra.
Qed.

(** After the sizes [k0], [k0 - 1], ..., [k0 - (j - 1)]: the best one is [k0 - i],
    and every later one was too slow. *)
Record Best (j i : Z) (s : Wire.Trial (F := R)) : Prop := {
  seen : (0 <= i)%Z /\ (i < j \/ i = 0 /\ j = 0)%Z;
  least : 1 <= k0 - IZR i;
  best_size : Wire.targetRepeaterSize s = k0 - IZR i;
  best_spacing : Wire.targetRepeaterSpacing s = L0;
  best_energy : Wire.currentDynamicEnergy s = E (k0 - IZR i);
  best_leakage : Wire.currentLeakage s = Lk (k0 - IZR i);
  fast : D (k0 - IZR i) <= target;
  slower : forall m, (i < m < j)%Z -> target < D (k0 - IZR m)
}.

Lemma ratios a b x y : 0 < b -> a <= b -> 0 < y -> x < y -> a / b + x / y < 2.
Proof.
  intros Hb Ha Hy Hx.
  assert (a / b <= b / b) by (apply Rmult_le_compat_r; [left; by apply Rinv_0_lt_compat|done]).
  assert (x / y < y / y) by (apply Rmult_lt_compat_r; [by apply Rinv_0_lt_compat|done]).
  rewrite !Rdiv_diag in * by lra. lra.
Qed.

Lemma try_size_best j i s : Wire.wire s = resized (k0 - IZR j) -> 1 <= k0 - IZR j -> Best j i s ->
  exists s' i', Wire.try_size tech ip target s = Ret s' /\ Wire.wire s' = resized (k0 - IZR (j + 1)) /\ Best (j + 1) i' s'.
Proof.
  intros Hw Hk [Hi Hl Hz Hs He Hlk Hf Hsl]. assert (0 <= IZR j) by (apply IZR_le; lia).
  destruct (resized_figures (k0 - IZR j) ltac:(lra)) as (Ed & Ee & El).
  unfold Wire.try_size. rewrite Hw, Ed, Ee, El, He, Hlk. cbn [outcome_bind]. cbv zeta.
  assert (Hnext : (resized (k0 - IZR j)) <| Wire.repeaterSize := (Wire.repeaterSize (resized (k0 - IZR j)) - of_Z 1)%num |>
                  = resized (k0 - IZR (j + 1))).
  { replace (k0 - IZR (j + 1)) with (k0 - IZR j - 1) by (rewrite plus_IZR; lra). reflexivity. }
  rewrite Hnext. num_R. destruct (Rleb (D (k0 - IZR j)) target) eqn:Hd; cbn [andb].
  - destruct (Z.eq_dec i j) as [-> |Hne].
    + replace (Rltb _ 2) with false.
      { eexists _, j. split; [reflexivity|]. split; [reflexivity|]. split; try done; [lia|]. intros m Hm. lia. }
      symmetry. apply Rltb_false. destruct (cheaper (k0 - IZR j) (k0 + 1) ltac:(lra)) as ((Hp & _) & (Hq & _)).
      right. field. lra.
    + assert (Hlt : (i < j)%Z) by lia. apply IZR_lt in Hlt.
      destruct (cheaper (k0 - IZR j) (k0 - IZR i) ltac:(lra)) as ((Hp & Hpq) & (Hq & Hqr)).
      replace (Rltb _ 2) with true.
      { eexists _, j. split; [reflexivity|]. split; [reflexivity|].
        split; try done; [lia|by apply Rleb_true|]. intros m Hm. lia. }
      symmetry. apply Rltb_true.
      apply ratios; lra.
  - eexists _, i. split; [reflexivity|]. split; [reflexivity|]. split; try done; [|].
    + destruct Hi as [Hi [?|[-> ->]]]; [lia|]. lia.
    + intros m Hm. destruct (Z.eq_dec m j) as [-> |]; [|apply Hsl; lia].
      apply Rnot_le_lt. intros Hx%Rleb_true. congruence.
Qed.

(** The measure of both loops: steps of one down to zero. *)
Lemma trunc_step x : 0 <= x -> (0 <= Rtrunc x)%Z /\ (Rtrunc (x + 1) = Rtrunc x + 1)%Z.
Proof.
  intros Hx. pose proof (Zfloor_bound x) as Hf. assert (-1 < Zfloor x)%Z by (apply lt_IZR; lra).
  rewrite (Rtrunc_unique x (Zfloor x)) by (lia || lra). split; [lia|]. apply Rtrunc_unique; [lia|]. rewrite plus_IZR. lra.
Qed.

Lemma steps_fall x y : 0 <= y -> x = y + 1 -> (Z.to_nat (Rtrunc y) < Z.to_nat (Rtrunc x))%nat.
Proof. intros Hy ->. destruct (trunc_step y Hy). lia. Qed.

Lemma sizes_best s : Wire.wire s = w0 -> Best 0 0 s ->
  exists s' j i, loop (S (Z.to_nat (Rtrunc k0))) (fun s => (of_Z 1 <=? Wire.repeaterSize (Wire.wire s))%num)
      (Wire.try_size tech ip target) s = Ret s' /\
    Wire.wire s' = resized (k0 - IZR j) /\ k0 - IZR j < 1 /\ Best j i s'.
Proof.
  intros Hw Hb.
  destruct (loop_ok (fun s => exists j i, Wire.wire s = resized (k0 - IZR j) /\ Best j i s)
    (fun s => Z.to_nat (Rtrunc (Wire.repeaterSize (Wire.wire s))))
    (fun s => (of_Z 1 <=? Wire.repeaterSize (Wire.wire s))%num) (Wire.try_size tech ip target)
    ) with (fuel := S (Z.to_nat (Rtrunc k0))) (s := s) as (s' & El & (j & i & Hj & Hi) & Hc).
  - intros t (j & i & Ht & Hbt) Hk. rewrite Ht in Hk.
    apply Rleb_true in Hk. destruct (try_size_best j i t Ht Hk Hbt) as (t' & i' & -> & Ht' & Hb').
    exists t'. split; [done|]. split; [by exists (j + 1)%Z, i'|]. rewrite Ht, Ht'. intros Hn%Rleb_true. cbn in Hn |- *.
    rewrite plus_IZR in *. apply steps_fall; lra.
  - exists 0%Z, 0%Z. rewrite Rminus_0_r, resized_same. done.
  - rewrite Hw. fold k0. lia.
  - exists s', j, i. split; [done|]. split; [done|]. split; [|done]. rewrite Hj in Hc. cbn in Hc.
    apply Rnot_le_lt. intros Hx%Rleb_true. num_R. congruence.
Qed.

(** The first spacing settles the size; at the others no size is left to try. *)
Definition settled (s : Wire.Trial (F := R)) : Prop :=
  exists j i L, Wire.wire s = (resized (k0 - IZR j)) <| Wire.repeaterSpacing := L |> /\ k0 - IZR j < 1 /\ Best j i s.

Lemma Best_wire j i s t : Wire.currentDynamicEnergy t = Wire.currentDynamicEnergy s ->
  Wire.currentLeakage t = Wire.currentLeakage s -> Wire.targetRepeaterSpacing t = Wire.targetRepeaterSpacing s ->
  Wire.targetRepeaterSize t = Wire.targetRepeaterSize s -> Best j i s -> Best j i t.
Proof. intros He Hl Hs Hz []. by split; rewrite ?He, ?Hl, ?Hs, ?Hz. Qed.

Lemma spacing_step s : (Wire.wire s = w0 /\ Best 0 0 s) \/ settled s ->
  exists s', Wire.try_spacing tech ip target s = Ret s' /\ settled s' /\
    Wire.repeaterSpacing (Wire.wire s') = Wire.repeaterSpacing (Wire.wire s) + lit 100 (-6).
Proof.
  intros [[Hw Hb]|(j & i & L & Hw & Hj & Hb)]; unfold Wire.try_spacing.
  - destruct (sizes_best s Hw Hb) as (s' & j & i & El & Hw' & Hj & Hb'). rewrite Hw. cbn [trunc R_num]. fold k0.
    rewrite El. cbn [outcome_bind]. eexists. split; [reflexivity|]. cbn [Wire.wire]. rewrite Hw'. split; [|done].
    eexists j, i, _. split; [reflexivity|]. split; [done|]. by eapply Best_wire; [..|exact Hb'].
  - assert (El : loop (S (Z.to_nat (trunc (Wire.repeaterSize (Wire.wire s)))))
        (fun s => (of_Z 1 <=? Wire.repeaterSize (Wire.wire s))%num) (Wire.try_size tech ip target) s = Ret s).
    { cbn [loop]. replace (of_Z 1 <=? Wire.repeaterSize (Wire.wire s))%num with false; [done|].
      rewrite Hw. symmetry. apply not_true_is_false. intros Hx%Rleb_true. cbn in Hx. lra. }
    rewrite El. cbn [outcome_bind]. eexists. split; [reflexivity|]. cbn [Wire.wire]. rewrite Hw. split; [|done].
    eexists j, i, _. split; [reflexivity|]. split; [done|]. by eapply Best_wire; [..|exact Hb].
Qed.

Lemma D_pos : 0 < D k0.
Proof.
  destruct S0 as [Hk _ Hs Hc Hr]. pose proof (F_pos tech ip U) as HF. fold F in HF. fold k0 in Hk. fold L0 in Hs.
  destruct K as [Hd Hg0 Hg1 Hd0 Hd1 _ _]. unfold D, delay_at. rewrite !Rlit_neg. change (10 ^ 3)%Z with 1000%Z.
  change (10 ^ 1)%Z with 10%Z. assert (Hn : 0 < 2 * F * k0) by nra. set (n := 2 * F * k0) in *.
  set (C := Wire.capWirePerUnit w0) in *. set (W := Wire.resWirePerUnit w0) in *.
  assert (HdC : 0 < drive c / n) by (by apply Rdiv_lt_0_compat).
  assert (HC : 0 < C * L0) by nra. assert (HW : 0 < W * L0) by nra.
  assert (Hg : 0 < gate1 c * n) by nra. assert (Ho : 0 <= drain1 c * n) by nra.
  apply Rdiv_lt_0_compat; [|done]. apply Rmult_lt_0_compat; [lra|].
  assert (0 < drive c / n * (gate0 c + gate1 c * n + (drain0 c + drain1 c * n))) by (apply Rmult_lt_0_compat; lra).
  assert (0 < drive c / n * (C * L0)) by nra. assert (0 <= W * L0 * (drain0 c + drain1 c * n)) by nra. nra.
Qed.

Lemma penalized : exists i, Wire.findPenalizedRepeater tech ip pen w0 = Ret (resized (k0 - IZR i)) /\
  (0 <= i)%Z /\ 1 <= k0 - IZR i /\ D (k0 - IZR i) <= target /\
  forall m, (i < m)%Z -> 1 <= k0 - IZR m -> target < D (k0 - IZR m).
Proof.
  destruct (resized_figures k0) as (Ed & Ee & El); [unfold k0 in *; lra|]. rewrite resized_same in *.
  pose proof D_pos as HD. destruct S0 as [_ _ Hs _ _]. fold L0 in Hs.
  unfold Wire.findPenalizedRepeater. rewrite Ed, Ee, El. cbn [outcome_bind]. cbv zeta.
  change (D k0 * (of_Z 1 + pen))%num with target. fold k0 L0.
  set (s0 := Wire.mkTrial w0 (E k0) (Lk k0) L0 k0). set (last := (of_Z 4 * L0)%num).
  assert (Hb0 : Best 0 0 s0).
  { assert (Ez : k0 - IZR 0 = k0) by (num_R; lra). split; rewrite ?Ez; try done; [lia|unfold target; nra|]. intros m Hm. lia. }
  assert (Hstep : 0 < lit 100 (-6)) by (rewrite Rlit_neg; change (10 ^ 6)%Z with 1000000%Z; lra).
  set (step := lit 100 (-6) : R) in *. set (steps sp := (last - sp) / step : R).
  change ((last - L0) / step)%num with (steps L0).
  destruct (loop_ok (fun s => (Wire.wire s = w0 /\ Best 0 0 s) \/ settled s)
    (fun s => Z.to_nat (Rtrunc (steps (Wire.repeaterSpacing (Wire.wire s)))))
    (fun s => (Wire.repeaterSpacing (Wire.wire s) <=? last)%num) (Wire.try_spacing tech ip target))
    with (fuel := S (S (Z.to_nat (trunc (steps L0))))) (s := s0) as (s' & Eo & Hend & Hc).
  - intros s Hs' _. destruct (spacing_step s Hs') as (s' & -> & Hset & Esp). exists s'. split; [done|]. split; [by right|].
    rewrite Esp. intros Hle%Rleb_true. fold step in Hle |- *. apply steps_fall; unfold steps; [|field; lra].
    apply Rmult_le_pos; [lra|]. left. by apply Rinv_0_lt_compat.
  - left. done.
  - intros _. cbn [Wire.wire s0]. fold L0. cbn [trunc R_num]. lia.
  - cbn beta in Eo. rewrite Eo. cbn [outcome_bind]. destruct Hend as [[Hw _]|(j & i & L & Hw & Hj & [Hi Hl Hz Hsp _ _ Hf Hsl])].
    + exfalso. rewrite Hw in Hc. fold L0 in Hc. apply not_true_iff_false in Hc. apply Hc, Rleb_true. unfold last. num_R. lra.
    + exists i. rewrite Hw, Hz, Hsp. split; [f_equal; unfold resized, L0; by destruct w0|]. split; [lia|]. split; [done|].
      split; [done|]. intros m Hm Hk. apply Hsl. split; [done|]. apply lt_IZR. lra.
Qed.

End Search.

(** ** The optimal repeater *)

(** [a / L + b * L] is least where [b * L * L = a]. *)
Lemma balanced a b L l : 0 < b -> 0 < L -> 0 < l -> b * l * l = a -> a / l + b * l <= a / L + b * L.
Proof.
  intros Hb HL Hl <-. apply (Rmult_le_reg_r L); [done|].
  replace ((b * l * l / l + b * l) * L) with (2 * b * l * L) by (field; lra).
  replace ((b * l * l / L + b * L) * L) with (b * (l * l + L * L)) by (field; lra).
  assert (0 <= b * ((L - l) * (L - l))) by (apply Rmult_le_pos; [lra|apply Rle_0_sqr]). lra.
Qed.

Lemma delay_split n L C W : 0 < n -> 0 < L -> delay_at n L C W = 693 / 1000 *
  (drive c / n * (gate0 c + gate1 c * n + (drain0 c + drain1 c * n)) / L + W * C / 2 * L
   + (drive c / n * C + W * (drain0 c + drain1 c * n))).
Proof.
  intros Hn HL. unfold delay_at. rewrite !Rlit_neg. change (10 ^ 3)%Z with 1000%Z. change (10 ^ 1)%Z with 10%Z. field. lra.
Qed.

Lemma optimal w : 0 < Wire.capWirePerUnit w -> 0 < Wire.resWirePerUnit w -> 2 * F * pn < 1 ->
  exists k l, Wire.findOptimalRepeater tech ip w = Ret (w <| Wire.repeaterSize := k |> <| Wire.repeaterSpacing := l |>) /\
    0 < l /\ forall L, 0 < L -> exists d d',
      Wire.getRepeatedWireUnitDelay tech ip (w <| Wire.repeaterSize := 1 |> <| Wire.repeaterSpacing := l |>) = Ret d /\
      Wire.getRepeatedWireUnitDelay tech ip (w <| Wire.repeaterSize := 1 |> <| Wire.repeaterSpacing := L |>) = Ret d' /\ d <= d'.
Proof.
  intros Hc Hr Hm. pose proof (F_pos tech ip U) as HF. fold F in HF.
  destruct (parts_value c K (2 * F) ltac:(lra) Hm) as (Ei & Eo & Er & _). destruct K as [Hd Hg0 Hg1 Hd0 Hd1 _ _].
  unfold Wire.findOptimalRepeater. rewrite (proj1 (gate_widths tech)). fold F. num_R. fold pn. rewrite Ei, Eo, Er. cbn [outcome_bind].
  set (A := drive c / (2 * F) * (gate0 c + gate1 c * (2 * F) + (drain0 c + drain1 c * (2 * F)))).
  set (CW := Wire.resWirePerUnit w * Wire.capWirePerUnit w).
  assert (HA : 0 < A).
  { apply Rmult_lt_0_compat; [apply Rdiv_lt_0_compat; lra|].
    assert (0 < gate1 c * (2 * F)) by nra. assert (0 <= drain1 c * (2 * F)) by nra. lra. }
  assert (HCW : 0 < CW) by (by apply Rmult_lt_0_compat).
  set (q := 2 * (drive c / (2 * F)) * (drain0 c + drain1 c * (2 * F) + (gate0 c + gate1 c * (2 * F))) / CW). set (l := sqrt q).
  assert (Eq : q = 2 * A / CW) by (unfold q, A; f_equal; ring).
  assert (Hl : 0 < l) by (apply sqrt_lt_R0; rewrite Eq; apply Rdiv_lt_0_compat; lra).
  eexists _, l. split; [reflexivity|].
  split; [done|]. intros L HL.
  assert (Hf : forall x, 0 < x -> Wire.getRepeatedWireUnitDelay tech ip (w <| Wire.repeaterSize := 1 |> <| Wire.repeaterSpacing := x |>)
                 = Ret (delay_at (2 * F) x (Wire.capWirePerUnit w) (Wire.resWirePerUnit w))).
  { intros x Hx. destruct (unit_figures (w <| Wire.repeaterSize := 1 |> <| Wire.repeaterSpacing := x |>)) as (_ & -> & _).
    { split; [cbn; lra| |done..]. cbn. rewrite Rmult_1_r. exact Hm. }
    rewrite width_value. cbn [Wire.repeaterSize]. by rewrite Rmult_1_r. }
  rewrite !Hf by done. eexists _, _. split; [reflexivity|]. split; [reflexivity|]. rewrite !delay_split by lra. fold A CW.
  apply Rmult_le_compat_l; [lra|]. apply Rplus_le_compat_r. apply balanced; try lra.
  assert (Hsq : l * l = q) by (apply sqrt_sqrt; rewrite Eq; left; apply Rdiv_lt_0_compat; lra).
  rewrite Rmult_assoc, Hsq, Eq. field. lra.
Qed.

End Figures.

End Repeated.
End WireFacts.
