(* ===== verification/LeafCorrect.v ===== *)
(** * Correctness of the leaf circuits

    The claims about transistor layout, output drivers, predecode blocks and the
    binary sense amplifier, with runs of the models on binary64. *)
From S2P Require Import Prelude Numeric RealNum FloatNum Types InputParameter Process Formula FormulaFacts Circuit.
From S2P Require Import OutputDriver Decoders Predecode BinarySenseAmp Peripherals LeafFacts ChainFacts.
From stdpp Require Import base list strings.
From Stdlib Require Import ZArith Lia Reals Lra Floats.
Open Scope Z_scope.

Module LeafCorrect.
Import Formula FormulaFacts.

(** ** Layout of gates *)

(** C30: a bulk inverter is laid out with the least number of folds that hold each
    of its transistors; its width is that of the more folded one. *)
Theorem bulk_inverter_folds (tech : Process.t R) (wN wP h : R) :
  (nm 22 <= Process.featureSize tech)%R -> (0 < wN)%R -> (0 < wP)%R ->
  (71 / 10 * Process.featureSize tech < h)%R ->
  let limit w := (w / (wN + wP) * (h - 71 / 10 * Process.featureSize tech))%R in
  let holds w k := (w <= IZR k * limit w)%R in
  exists kN kP, 1 <= kN /\ 1 <= kP /\ holds wN kN /\ holds wP kP /\
    (forall j, 1 <= j -> holds wN j -> kN <= j) /\ (forall j, 1 <= j -> holds wP j -> kP <= j) /\
    let w := (IZR (Z.max kN kP + 1) * (38 / 10) * Process.featureSize tech)%R in
    CalculateGateArea INV 1 wN wP h tech = Ret ((w * h)%R, h, w).
Proof.
  intros Hb HN HP Hh limit holds. pose proof (fs_pos tech Hb) as Hf.
  destruct (ratio_range wN wP HN HP) as (Hr & _). pose proof (inverter_area tech Hb wN wP h HN HP) as Ha.
  rewrite (limits_mixed tech h _ Hr) in Ha. set (f := Process.featureSize tech) in *.
  assert (EP : (mos_ratio wN wP * (h - 71 / 10 * f))%R = limit wP).
  { unfold limit, mos_ratio. num_R. fold f. field. lra. }
  assert (EN : ((1 - mos_ratio wN wP) * (h - 71 / 10 * f))%R = limit wN).
  { unfold limit, mos_ratio. num_R. fold f. field. lra. }
  rewrite EP, EN in Ha.
  assert (Hpos : forall w, (0 < w)%R -> (0 < limit w)%R).
  { intros w Hw. unfold limit. apply Rmult_lt_0_compat; [apply Rdiv_lt_0_compat; lra|fold f; lra]. }
  pose proof (bulk_region_spec tech wN (limit wN) HN (Hpos _ HN)) as SN.
  pose proof (bulk_region_spec tech wP (limit wP) HP (Hpos _ HP)) as SP. fold f in SN, SP.
  destruct (bulk_region f wN (limit wN)) as [kN uN], (bulk_region f wP (limit wP)) as [kP uP].
  destruct SN as (N1 & N2 & N3 & ->), SP as (P1 & P2 & P3 & ->).
  exists kN, kP. split; [done|]. split; [done|]. split; [done|]. split; [done|]. split; [done|]. split; [done|].
  cbv zeta. rewrite Ha. cbn [snd]. cbv zeta.
  assert (Em : MAX (IZR (kN + 1) * (38 / 10) * f)%R (IZR (kP + 1) * (38 / 10) * f)%R
               = (IZR (Z.max kN kP + 1) * (38 / 10) * f)%R); [|by rewrite Em].
  unfold MAX. num_R. destruct (Rltb _ _) eqn:El; r_facts; do 3 f_equal.
  - assert (kP + 1 < kN + 1); [|lia]. apply lt_IZR. apply (Rmult_lt_reg_r (38 / 10 * f)); nra.
  - assert (kN + 1 <= kP + 1); [|lia]. apply le_IZR. apply (Rmult_le_reg_r (38 / 10 * f)); nra.
Qed.

Lemma bulk_inverter_folds_witness :
  exists kN kP, 1 <= kN /\ 1 <= kP /\
    let w := (IZR (Z.max kN kP + 1) * (38 / 10) * nm 90)%R in
    CalculateGateArea INV 1 (nm 2000) (nm 3000) (nm 2520) (Process.demo_table 90) = Ret ((w * nm 2520)%R, nm 2520, w).
Proof.
  destruct (bulk_inverter_folds (Process.demo_table 90) (nm 2000) (nm 3000) (nm 2520))
    as (kN & kP & H1 & H2 & _ & _ & _ & _ & E);
    try (change (Process.featureSize (Process.demo_table 90)) with (nm 90 : R); rewrite !nm_value; lra).
  by exists kN, kP.
Defined.

(** A FinFET that does not fit is folded into the integer quotient of its fins
    and the limit, so the folds hold its fins only when the limit divides them. *)
Theorem fin_folding_undercounts (fs pitch : R) num limit : 0 < limit < num ->
  exists folds width, fin_region fs pitch num limit = Ret (folds, width) /\
    (num <= folds * limit <-> (limit | num)).
Proof.
  intros Hl. eexists _, _. split; [by apply fin_region_folds|].
  pose proof (Z.div_mod num limit ltac:(lia)). pose proof (Z.mod_pos_bound num limit ltac:(lia)).
  rewrite <- Z.mod_divide by lia. lia.
Qed.

Lemma fin_folding_undercounts_witness :
  exists folds width, fin_region (nm 14 : R) (CPP_advanced (nm 14)) 7 4 = Ret (folds, width) /\ ~ 7 <= folds * 4.
Proof.
  destruct (fin_folding_undercounts (nm 14) (CPP_advanced (nm 14)) 7 4) as (f & w & E & Hiff); [lia|].
  exists f, w. split; [done|]. rewrite Hiff. intros [k Hk]. lia.
Defined.

(** Between 14 nm and 22 nm the widths are not converted to fins, so all gates of
    one type have the same area, however wide their transistors are. *)
Theorem mid_node_area_flat (tech : Process.t R) gateType numInput (wN wP wN' wP' h : R) :
  (nm 14 < Process.featureSize tech < nm 22)%R ->
  (0 < wN <= 1)%R -> (0 < wP <= 1)%R -> (0 < wN' <= 1)%R -> (0 < wP' <= 1)%R ->
  CalculateGateArea gateType numInput wN wP h tech = CalculateGateArea gateType numInput wN' wP' h tech.
Proof.
  intros Hf HN HP HN' HP'. unfold CalculateGateArea. num_R. cbv zeta. r_decide.
  by rewrite (mid_node_regions tech _ wN wP h wN' wP').
Qed.

Lemma mid_node_area_flat_witness :
  CalculateGateArea INV 1 (nm 32) (nm 64) (nm 448) (Process.demo_table 16)
  = CalculateGateArea INV 1 (nm 3200) (nm 6400) (nm 448) (Process.demo_table 16).
Proof.
  apply mid_node_area_flat; change (Process.featureSize (Process.demo_table 16)) with (nm 16 : R); rewrite !nm_value; lra.
Defined.

(** The Horowitz delay of a gate is at least its delay for an infinitely fast
    input, does not decrease when the input gets slower, and the output ramp is
    half the supply over the delay. *)
Theorem horowitz_monotone (tr beta ramp slower : R) :
  (0 < tr)%R -> (0 <= beta)%R -> (0 < slower <= ramp)%R ->
  (0 < tr * ln 2 <= fst (horowitz tr beta ramp))%R /\
  (fst (horowitz tr beta ramp) <= fst (horowitz tr beta slower))%R /\
  (snd (horowitz tr beta ramp) * fst (horowitz tr beta ramp) = 1 / 2)%R.
Proof.
  intros Ht Hb Hs. destruct (horowitz_delay tr beta ramp Ht Hb ltac:(lra)) as (H1 & H2 & H3).
  assert (El : R_sqrt.sqrt (ln (1 / 2) * ln (1 / 2)) = ln 2).
  { replace (1 / 2)%R with (/ 2)%R by lra. rewrite ln_Rinv by lra.
    replace (- ln 2 * - ln 2)%R with (ln 2 * ln 2)%R by lra. apply sqrt_square.
    left. rewrite <- ln_1. apply ln_increasing; lra. }
  rewrite El in H1. split; [exact H1|]. split; [by apply H3|done].
Qed.

Lemma horowitz_monotone_witness :
  (0 < 1 * ln 2 <= fst (horowitz 1 1 2))%R /\ (fst (horowitz 1 1 2) <= fst (horowitz 1 1 1))%R /\
  (snd (horowitz 1 1 2) * fst (horowitz 1 1 2) = 1 / 2)%R.
Proof. apply horowitz_monotone; lra. Defined.

(** ** Drivers *)

Section Bulk.
Import OutputDriver DriverFacts ChainFacts.

(** Tables with unit parameters and constant currents. *)
Definition table (F : Type) `{Num F} (nano : Z) : Process.t F :=
  let one : F := of_Z 1 in
  let k : list F := replicate 101 one in
  let via : Z -> Z -> F := fun _ _ => one in
  Process.mk nano one one one one one one one one one one one one one one one (of_Z 2) one k k k k
    one one one one (of_Z 4) one one one one one one one one [] [] [] 0 via via via via via via via [] [] []
    (of_Z nano * lit 1 (-9))%num one one one one false LSTP true.

(** Widening a transistor pair to the height of its cell ([EnlargeSize]) is meant to be
    free.  In binary64 it is not: the pair that just fills a cell of 28 F at 76 nm (LSTP,
    with a ratio of 2.3224) is laid out with two folds once it is widened, and the
    inverter becomes half as wide again. *)
Example enlarge_not_free :
  let tech : Process.t float := (table float 76) <| Process.pnSizeRatio := lit 23224 (-4) |> in
  let fs := Process.featureSize tech in
  let h := (fs * of_Z 28)%num in
  let n := (lit 20 (-1) * fs)%num in
  let p := (n * Process.pnSizeRatio tech)%num in
  let width o := match o with Ret (_, _, w) => w | Exit _ => of_Z 0 end in
  match EnlargeSize n p h tech with
  | Ret (n', p') =>
      let w := width (CalculateGateArea INV 1 n p h tech) in
      let w' := width (CalculateGateArea INV 1 n' p' h tech) in
      (w <? w') && (w' * #2 <=? w * #3 + nm 1) && (w * #3 <=? w' * #2 + nm 1)
  | Exit _ => false
  end%num = true.
Proof. vm_compute. reflexivity. Qed.

Definition bulk_table : Process.t R := table R 90.

Definition warm_ip : InputParameter.t R := InputParameter.InputParameter 0 64 350 HP 0%R false.

Lemma bulk_usable : Usable bulk_table warm_ip.
Proof.
  split; try reflexivity; [|change (1 <= 2 <= 4)%R; lra|cbn; lia].
  change (Process.featureSize bulk_table) with (nm 90 : R). rewrite !nm_value. lra.
Qed.

(** C13: what sizing an output driver at a bulk node does, whatever the arguments.
    Either [Initialize] returns: the driver is marked invalid and left alone, or is a
    chain of at most twenty inverters, each at least of the least width and in the ratio
    of the process, whose number has the parity asked for unless it was clamped to twenty
    or the style is area first, which always takes one inverter; and its area, its
    capacitances, its delay and its power are computed without an error.  Or it writes
    outside its arrays, which happens only when the trade-off style asks for twenty
    inverters before the last one: never when area comes first, and never for a driver
    that puts latency first and has no driver current, as those of the decoders. *)
Theorem driver_chain_sound (tech : Process.t R) (ip : InputParameter.t R) le ic oc ores iv level cur rep wl ramp :
  Usable tech ip ->
  match Initialize tech ip le ic oc ores iv level cur rep wl OutputDriver with
  | Ret d => driver_ready level OutputDriver d /\
      (initialized d = true -> forall j, Z.of_nat j < numStage d -> good tech d j) /\
      exists a r l p, CalculateArea tech d = Ret a /\ CalculateRC tech a = Ret r /\
        CalculateLatency tech ip ramp r = Ret l /\ CalculatePower tech ip l = Ret p
  | Exit e => e = undefined /\ level <> area_first /\ ~ (cur = 0%R /\ level = latency_first) /\
      exists w, min_driver_width tech ip cur = Ret w /\
        adjust (negb iv) (effort_stages (trade_off_effort tech le ic w)) = MAX_INV_CHAIN_LEN
  end.
Proof.
  intros U.
  destruct (Initialize_ready tech ip U le ic oc ores iv level cur rep wl OutputDriver fresh_arrays eq_refl)
    as [(d & -> & Hr & Hd)|(-> & Hl & Hc & Hw)]; [|done].
  split; [done|]. split; [intros Hi; by apply Hr|].
  destruct (driver_area tech ip U d Hr) as (a & Ea & Ha). destruct (driver_RC tech ip U a Ha) as (r & Er & Hr').
  destruct (driver_latency tech ip U ramp r Hr') as (l & El & Hl). destruct (driver_power tech ip U l Hl) as (p & Ep & _).
  by exists a, r, l, p.
Qed.

Lemma driver_chain_sound_witness :
  exists d, Initialize bulk_table warm_ip 1%R 1%R 4%R 0%R true latency_first 0%R false 0%R OutputDriver = Ret d /\
    driver_ready latency_first OutputDriver d /\
    (initialized d = true -> forall j, Z.of_nat j < numStage d -> good bulk_table d j) /\
    exists a r l p, CalculateArea bulk_table d = Ret a /\ CalculateRC bulk_table a = Ret r /\
      CalculateLatency bulk_table warm_ip 1%R r = Ret l /\ CalculatePower bulk_table warm_ip l = Ret p.
Proof.
  pose proof (driver_chain_sound bulk_table warm_ip 1%R 1%R 4%R 0%R true latency_first 0%R false 0%R 1%R bulk_usable) as Hd.
  destruct (Initialize _ _ _ _ _ _ _ _ _ _ _ _) as [d|e]; [by exists d|].
  exfalso. destruct Hd as (_ & _ & Hn & _). by apply Hn.
Defined.

(** The overrun is reached: an effort of 4^21 or more takes twenty inverters before
    the last one. *)
Lemma effort_stages_large (e : R) : (4 ^ 21 <= e)%R -> 20 <= effort_stages e.
Proof.
  intros He. unfold effort_stages, OPT_F. num_R. assert (0 < ln 4)%R by (rewrite <- ln_1; apply ln_increasing; lra).
  assert (Hq : (21 <= ln e / ln 4)%R).
  { apply (Rmult_le_reg_r (ln 4)); [done|]. unfold Rdiv. rewrite Rmult_assoc, Rinv_l, Rmult_1_r by lra.
    replace (21 * ln 4)%R with (ln (4 ^ 21)) by (rewrite ln_pow by lra; cbn [INR]; lra).
    assert (0 < 4 ^ 21)%R by (apply pow_lt; lra).
    destruct He as [He| <-]; [left; by apply ln_increasing|right; done]. }
  rewrite Rlit_neg. unfold Rtrunc. change (10 ^ 1)%Z with 10%Z.
  match goal with |- context [Rle_dec 0 ?y] => set (x := y) end. assert (21 <= x)%R by (unfold x; change (@nlog R _) with ln; lra). destruct (Rle_dec 0 x); [|lra].
  assert (21 <= Zfloor x) by (apply Zfloor_lub; lra). lia.
Qed.

Theorem driver_overruns (tech : Process.t R) (ip : InputParameter.t R) le ic oc ores iv cur rep wl w :
  Usable tech ip -> min_driver_width tech ip cur = Ret w -> (w <= max_width tech ip)%R ->
  (4 ^ 21 <= trade_off_effort tech le ic w)%R ->
  Initialize tech ip le ic oc ores iv latency_area_trade_off cur rep wl OutputDriver = Exit undefined.
Proof.
  intros U Ew Hm He%effort_stages_large. unfold Initialize. cbv zeta. set (d0 := _ <| invalid := false |>).
  change (minDriverCurrent d0) with cur. rewrite Ew. cbn [outcome_bind]. num_R. rewrite (proj2 (Rltb_false _ _)) by lra.
  rewrite (bool_decide_false (areaOptimizationLevel d0 = latency_first)) by done. cbn [outcome_bind].
  rewrite bool_decide_true by done. rewrite trade_off_overruns; [done|exact fresh_arrays|].
  unfold trade_off_stages. change (logicEffort d0) with le. change (inputCap d0) with ic.
  unfold adjust, MAX_INV_CHAIN_LEN. repeat case_match; lia.
Qed.

(** A driver that [Initialize] rejects is not initialised, so every later phase
    returns it unchanged: it keeps the zero figures of its constructor and the
    branches that would report the invalid value are never taken. *)
Theorem invalid_driver_costs_nothing {F : Type} `{Num F} (tech : Process.t F) (ip : InputParameter.t F)
  le ic oc ores iv level cur rep wl ramp d :
  Initialize tech ip le ic oc ores iv level cur rep wl OutputDriver = Ret d -> invalid d = true ->
  fu d = FunctionUnit.FunctionUnit /\ CalculateArea tech d = Ret d /\ CalculateRC tech d = Ret d /\
  CalculateLatency tech ip ramp d = Ret d /\ CalculatePower tech ip d = Ret d.
Proof.
  intros E Hv. destruct (Initialize_invalid tech ip _ _ _ _ _ _ _ _ _ _ _ E Hv) as [Hi Hf].
  split; [exact Hf|]. by apply uninitialised_phases.
Qed.

(** No transistor is allowed to be wide enough. *)
Definition narrow_ip : InputParameter.t float :=
  (InputParameter.InputParameter 0 64 350 HP (of_Z 0) false) <| InputParameter.maxNmosSize := of_Z 1 |>.

Lemma invalid_driver_costs_nothing_witness :
  exists d, Initialize (table float 90) narrow_ip (of_Z 1) (of_Z 1) (of_Z 4) (of_Z 0) true latency_first (of_Z 0) false (of_Z 0)
              OutputDriver = Ret d /\ invalid d = true /\ fu d = FunctionUnit.FunctionUnit /\
    CalculateArea (table float 90) d = Ret d.
Proof.
  eexists. split; [vm_compute; reflexivity|]. split; [reflexivity|].
  edestruct (invalid_driver_costs_nothing (table float 90) narrow_ip (of_Z 1) (of_Z 1) (of_Z 4) (of_Z 0) true latency_first
    (of_Z 0) false (of_Z 0) (of_Z 1)) as (Hf & Ha & _); [vm_compute; reflexivity|reflexivity|]. by split.
Defined.

(** C10: at bulk nodes a predecoder of 1 to 18 address bits is built and all its
    phases return; the combinations its basic decoders select are exactly the 2^n
    addresses, and every gate stage has one row per combination. *)
Theorem predecoder_tree_exact (raw : R) (tech : Process.t R) (ip : InputParameter.t R) cell n load res ramp :
  Usable tech ip -> 1 <= n <= 18 ->
  exists b, PredecodeBlock.Initialize raw tech ip n load res (PredecodeBlock.PredecodeBlock raw) = Ret b /\
    PredecodeFacts.decodes n b /\
    exists a r l p, PredecodeBlock.CalculateArea tech b = Ret a /\ PredecodeBlock.CalculateRC tech a = Ret r /\
      PredecodeBlock.CalculateLatency tech ip ramp r = Ret l /\ PredecodeBlock.CalculatePower tech ip cell l = Ret p.
Proof.
  intros U Hn. destruct (block_Initialize tech ip U raw n load res Hn) as (b & E & Hb). exists b. split; [done|].
  split; [by eapply PredecodeFacts.Initialize_decodes|].
  destruct (block_area tech ip U b Hb) as (a & Ea & Ha). destruct (block_RC tech ip U a Ha) as (r & Er & Hr).
  destruct (block_latency tech ip U ramp r Hr) as (l & El & Hl). destruct (block_power tech ip U cell l Hl) as (p & Ep & _).
  by exists a, r, l, p.
Qed.

Lemma predecoder_tree_exact_witness :
  exists b, PredecodeBlock.Initialize 0%R bulk_table warm_ip 11 1%R 0%R (PredecodeBlock.PredecodeBlock 0%R) = Ret b /\
    PredecodeFacts.decodes 11 b /\
    exists a r l p, PredecodeBlock.CalculateArea bulk_table b = Ret a /\ PredecodeBlock.CalculateRC bulk_table a = Ret r /\
      PredecodeBlock.CalculateLatency bulk_table warm_ip 1%R r = Ret l /\
      PredecodeBlock.CalculatePower bulk_table warm_ip SRAM l = Ret p.
Proof. apply predecoder_tree_exact; [exact bulk_usable|lia]. Defined.

(** Although the check of [Initialize] admits up to 27 address bits, a predecoder
    of 19 or more never gets built: the count of the first group is shifted before it
    is set. *)
Theorem predecoder_wide_undefined {F : Type} `{Num F} (raw : F) (tech : Process.t F) (ip : InputParameter.t F) n load res b :
  19 <= n -> PredecodeBlock.Initialize raw tech ip n load res (PredecodeBlock.PredecodeBlock raw) <> Ret b.
Proof. intros Hn. by apply PredecodeFacts.Initialize_wide. Qed.

Lemma predecoder_wide_undefined_witness :
  PredecodeBlock.Initialize 0%R bulk_table warm_ip 19 1%R 0%R (PredecodeBlock.PredecodeBlock 0%R)
  <> Ret (PredecodeBlock.PredecodeBlock 0%R).
Proof. apply predecoder_wide_undefined. lia. Defined.

End Bulk.

(** ** The binary sense amplifier *)

Section Sensing.
Import BinarySenseAmp.

(** The reference of the binary sense amplifier conducts halfway between the two
    states; the margin is the distance of the on state from the reference relative to
    the reference, which is the smaller of the two normalised separations, and the
    model is applied only when the off resistance is at least 5/4 of the on resistance. *)
Theorem binary_margin_exact (on off : R) : (0 < on <= off)%R ->
  (1 / on - 1 / reference on off = 1 / reference on off - 1 / off)%R /\
  margin on off = ((reference on off - on) / reference on off)%R /\
  (margin on off <= (off - reference on off) / off)%R /\
  ((margin on off <? lit 10 (-2))%num = false <-> (5 / 4 * on <= off)%R).
Proof.
  intros Hon.
  assert (Er : reference on off = (2 * on * off / (on + off))%R).
  { unfold reference. rewrite !Rlit_neg. num_R. change (10 ^ 1)%Z with 10. field. lra. }
  assert (Em : margin on off = ((off - on) / (2 * off))%R).
  { unfold margin. rewrite !Rlit_neg. num_R. change (10 ^ 1)%Z with 10. field. lra. }
  rewrite Er, Em. split; [field; lra|]. split; [field; lra|]. split.
  - replace ((off - 2 * on * off / (on + off)) / off)%R with ((off - on) / (on + off))%R by (field; lra).
    unfold Rdiv. apply Rmult_le_compat_l; [lra|]. apply Rinv_le_contravar; lra.
  - rewrite Rlit_neg. num_R. change (10 ^ 2)%Z with 100.
    assert (E : ((off - on) / (2 * off) * (2 * off) = off - on)%R) by (field; lra). split.
    + intros ?%Rltb_false. nra.
    + intros ?. apply Rltb_false. apply (Rmult_le_reg_r (2 * off)); lra.
Qed.

Lemma binary_margin_exact_witness :
  (1 / 6000 - 1 / reference 6000 11000 = 1 / reference 6000 11000 - 1 / 11000)%R /\
  (margin 6000%R 11000%R <? lit 10 (-2))%num = false.
Proof. destruct (binary_margin_exact 6000 11000) as (E & _ & _ & H); [lra|]. split; [exact E|]. apply H. lra. Defined.

(** The processes the model was fitted for, with the read voltage of each. *)
Definition fitted {F : Type} `{Num F} : list (Z * F) :=
  [(90, lit 58 (-2)); (65, lit 55 (-2)); (45, lit 51 (-2)); (32, lit 51 (-2)); (22, lit 55 (-2)); (14, lit 277 (-3));
   (10, lit 28 (-2)); (7, lit 264 (-3)); (5, lit 253 (-3)); (3, lit 248 (-3))].

(** The columns the model is for: resistive cells behind transistors, in one tier, read
    at room temperature with the nominal voltage of a fitted low-standby-power process. *)
Record InScope {F : Type} `{Num F} (point : Point.t F) (tech : Process.t F) (k : Z) : Prop := {
  sensed_inside : Point.contextAvailable point = true /\ Point.internalSenseAmp point = true;
  some_amplifiers : 0 < k;
  one_tier : Point.tierCount point = 1;
  resistive_cell : Point.cellType point = MRAM \/ Point.cellType point = PCRAM \/ Point.cellType point = memristor;
  cell_access : Point.accessType point = CMOS_access /\ Point.readPowerOverride point = false;
  two_states : Positive (Point.resistanceOn point) = true /\ Positive (Point.resistanceOff point) = true /\
    (Point.resistanceOff point <? Point.resistanceOn point)%num = false;
  column_load : Positive (Point.columnCapacitance point) = true /\ Positive (Point.referenceColumnArea point) = true;
  room_temperature : Positive (Point.temperatureK point) = true /\ (Point.temperatureK point =? of_Z 300)%num = true;
  low_power_process : Process.initialized tech = true /\ Process.deviceRoadmap tech = LSTP /\
    Positive (Process.featureSize tech) = true /\ Positive (Process.vdd tech) = true /\ Positive (Process.pnSizeRatio tech) = true;
  nominal_read : exists volts, List.In (Process.featureSizeInNano tech, volts) fitted /\
    (Process.featureSize tech =? of_Z (Process.featureSizeInNano tech) * lit 1 (-9))%num = true /\
    Nonnegative (Point.readVoltage point) = true /\ (nabs (Point.readVoltage point - volts) >? lit 1 (-12))%num = false
}.

Lemma FindFit_fitted {F : Type} `{Num F} n :
  match FindFit n with
  | Some fit => Fit.node fit = n /\ forall volts : F, List.In (n, volts) fitted <-> volts = Fit.readVoltage fit
  | None => forall volts : F, ~ List.In (n, volts) fitted
  end.
Proof.
  unfold FindFit, kFits, fitted. cbn [List.find Fit.node].
  repeat match goal with |- context [?a =? n] =>
    destruct (Z.eqb_spec a n) as [<-|]; [split; [reflexivity|]; intros volts; cbn [List.In Fit.readVoltage]; split;
      [intros Hin; repeat (destruct Hin as [Hin|Hin]; [congruence|]); destruct Hin|intros ->; tauto]|] end.
  intros volts Hin. cbn [List.In] in Hin. repeat (destruct Hin as [Hin|Hin]; [congruence|]). destruct Hin.
Qed.

Ltac obstacles :=
  repeat match goal with
  | H : _ || _ = false |- _ => apply orb_false_iff in H as [? ?]
  | H : negb _ = false |- _ => apply negb_false_iff in H
  | H : (_ <=? _)%Z = false |- _ => apply Z.leb_gt in H
  | H : (_ =? _)%Z = true |- _ => apply Z.eqb_eq in H
  | H : bool_decide _ = true |- _ => apply bool_decide_eq_true in H
  end.

(** No test objects to a point exactly when it is in scope. *)
Lemma eligible_in_scope {F : Type} `{Num F} (point : Point.t F) tech k :
  first_objection (eligibility point tech k) = None <-> InScope point tech k.
Proof.
  unfold eligibility. cbv zeta. pose proof (FindFit_fitted (F := F) (Process.featureSizeInNano tech)) as Hf. split.
  - cbn [first_objection]. repeat case_match; try done. intros _. obstacles. destruct Hf as [En Hv].
    match goal with H : _ && _ && _ = false |- _ => rename H into Hc end.
    split; try tauto.
    + destruct (bool_decide_reflect (Point.cellType point = MRAM)); [tauto|].
      destruct (bool_decide_reflect (Point.cellType point = PCRAM)); [tauto|].
      destruct (bool_decide_reflect (Point.cellType point = memristor)); [tauto|done].
    + eexists. rewrite Hv. split; [reflexivity|]. rewrite <- En at 1. tauto.
  - intros [[S1 S2] S3 S4 S5 [S6 S7] (S8 & S9 & S10) [S11 S12] [S13 S14] (S15 & S16 & S17 & S18 & S19) (v & V1 & V2 & V3 & V4)].
    destruct (FindFit _) as [fit|]; [|by destruct (Hf v)]. destruct Hf as [En Hv]. apply Hv in V1 as ->.
    assert (Ec : negb (bool_decide (Point.cellType point = MRAM)) && negb (bool_decide (Point.cellType point = PCRAM))
       && negb (bool_decide (Point.cellType point = memristor)) = false) by (destruct S5 as [->|[->| ->]]; reflexivity).
    rewrite Ec, S1, S2, S4, S6, S7, S8, S9, S10, S11, S12, S13, S14, S15, S16, S17, S18, S19, En, V2, V3, V4.
    rewrite (proj2 (Z.leb_gt k 0) S3). reflexivity.
Qed.

(** The figures of an applied model add up and none of them is negative. *)
Definition consistent {F : Type} `{Num F} (r : Outputs.t F) : Prop :=
  Outputs.area r = (Outputs.coreArea r + Outputs.referenceArea r)%num /\
  Outputs.readDynamicEnergy r
    = (Outputs.columnSwitchingEnergy r + Outputs.internalSwitchingEnergy r + Outputs.operatingEnergy r)%num /\
  Positive (Outputs.readLatency r) = true /\ Positive (Outputs.inputCapacitance r) = true /\
  AllNonnegative [Outputs.area r; Outputs.readDynamicEnergy r; Outputs.leakage r; Outputs.perAmplifierArea r;
                  Outputs.perAmplifierReadDynamicEnergy r; Outputs.perAmplifierLeakage r] = true.

Lemma applied_consistent {F : Type} `{Num F} (r : Outputs.t F) s why : consistent r ->
  consistent (r <| Outputs.status := s |> <| Outputs.reason := why |>).
Proof. destruct r. exact (fun h => h). Qed.

Lemma totals_consistent {F : Type} `{Num F} (r : Outputs.t F) count core refarea column internal operating standby :
  let t := totals r count core refarea column internal operating standby in
  Positive (Outputs.readLatency r) = true -> Positive (Outputs.inputCapacitance r) = true ->
  AllNonnegative [Outputs.area t; Outputs.readDynamicEnergy t; Outputs.leakage t; Outputs.perAmplifierArea t;
                  Outputs.perAmplifierReadDynamicEnergy t; Outputs.perAmplifierLeakage t] = true -> consistent t.
Proof. destruct r. intros t H1 H2 H4. split; [reflexivity|]. split; [reflexivity|]. exact (conj H1 (conj H2 H4)). Qed.

(** Two states a tenth of the off resistance apart on either side of the middle. *)
Definition separable {F : Type} `{Num F} (point : Point.t F) : Prop :=
  ((Point.resistanceOff point - Point.resistanceOn point) / Point.resistanceOff point * lit 5 (-1) <? lit 10 (-2))%num = false.

(** What the evaluation of a point in scope comes to. *)
Lemma evaluate_cases {F : Type} `{Num F} (point : Point.t F) tech k fit :
  match evaluate point tech k fit with
  | Ret r => separable point /\ Outputs.status r = Applied /\ consistent r \/
      (exists why, r = Reject Invalid why) \/
      ~ separable point /\ r = Reject Fallback "insufficient-resistance-margin"
  | Exit _ => separable point
  end.
Proof.
  unfold evaluate. cbv zeta. destruct (negb _ || negb _); [right; left; by eexists|].
  destruct (_ <? lit 10 (-2))%num eqn:Em; [right; right; split; [|done]; intros Hs; exact (diff_true_false (eq_trans (eq_sym Em) Hs))|].
  assert (Hsep : separable point) by exact Em. clear Em.
  destruct (CalculateGateCapacitance _ _ _ _ _ _) as [[gN jN]|]; cbn [outcome_bind]; [|exact Hsep].
  destruct (CalculateGateCapacitance _ _ _ _ _ _) as [[gP jP]|]; cbn [outcome_bind]; [|exact Hsep].
  destruct (negb (AllNonnegative _)); [right; left; by eexists|].
  destruct (CalculateGateArea _ _ _ _ _ _) as [[[a h] w]|]; cbn [outcome_bind]; [|exact Hsep].
  destruct (BinarySenseAmpLatencyFit _ _ _) as [latency|]; [|right; left; by eexists].
  destruct (BinarySenseAmpOperatingPowerFit _ _ _ _) as [on|]; [|right; left; by eexists].
  destruct (BinarySenseAmpOperatingPowerFit _ _ _ _) as [off|]; [|right; left; by eexists].
  destruct (_ || _) eqn:Ep; [right; left; by eexists|].
  destruct (CalculateGateLeakage _ _ _ _ _ _) as [lN|]; cbn [outcome_bind]; [|exact Hsep].
  destruct (CalculateGateLeakage _ _ _ _ _ _) as [lP|]; cbn [outcome_bind]; [|exact Hsep].
  destruct (negb (AllNonnegative _)) eqn:En; [right; left; by eexists|]. left. split; [exact Hsep|]. split; [done|].
  apply negb_false_iff in En. unfold AllNonnegative in En. cbn [forallb] in En. rewrite !andb_true_iff in En.
  destruct En as (_ & _ & _ & _ & H1 & _ & _ & _ & H2 & H3 & H4 & H5 & H6 & _).
  rewrite !orb_false_iff, !negb_false_iff in Ep. destruct Ep as ((((Hi & _) & Hl) & _) & _).
  apply applied_consistent, totals_consistent; [exact Hl|exact Hi|].
  unfold AllNonnegative. cbn [forallb]. by rewrite H1, H2, H3, H4, H5, H6.
Qed.

Lemma objections_decline {F : Type} `{Num F} (point : Point.t F) tech k status why :
  first_objection (eligibility point tech k) = Some (status, why) -> status <> Applied.
Proof. unfold eligibility. cbv zeta. cbn [first_objection]. repeat case_match; intros [= <- <-]; done. Qed.

(** C26: the binary sense amplifier model is applied only where it was fitted: to a
    column of MRAM, PCRAM or memristor cells behind transistors in a single tier, sensed
    within the mat, without a read power of its own, at 300 K, at one of ten nodes of an
    initialised low-standby-power process, with the read voltage of the node to 1e-12 V
    and states far enough apart; the figures then add up, the delay is positive and the
    totals are finite and not negative.  No such column falls back to the older model; a
    column outside is declined, without figures; and a malformed one that is sensed
    within the mat is reported invalid, not passed to the older model.  Only a column in
    scope can end the program, through the formulas of the gates. *)
Theorem binary_sense_contract {F : Type} `{Num F} (point : Point.t F) (tech : Process.t F) k :
  let malformed := k <= 0 \/ Positive (Point.resistanceOn point) = false \/ Positive (Point.resistanceOff point) = false \/
    (Point.resistanceOff point <? Point.resistanceOn point)%num = true \/ Positive (Point.columnCapacitance point) = false \/
    Positive (Point.referenceColumnArea point) = false in
  match EvaluateBinarySenseAmp point tech k with
  | Ret r =>
      (Outputs.status r = Applied -> InScope point tech k /\ separable point /\ consistent r) /\
      (InScope point tech k -> separable point -> Outputs.status r <> Fallback) /\
      (Outputs.status r <> Applied -> r = Reject (Outputs.status r) (Outputs.reason r)) /\
      (Point.contextAvailable point = true -> Point.internalSenseAmp point = true -> malformed -> Outputs.status r = Invalid)
  | Exit _ => InScope point tech k /\ separable point
  end.
Proof.
  intros malformed. unfold EvaluateBinarySenseAmp.
  assert (Hm : Point.contextAvailable point = true -> Point.internalSenseAmp point = true -> malformed ->
    exists why, first_objection (eligibility point tech k) = Some (Invalid, why)).
  { intros E1 E2 Hbad. unfold eligibility. cbv zeta. rewrite E1, E2. cbn [negb first_objection].
    assert (Eb : (k <=? 0) || negb (Positive (Point.resistanceOn point)) || negb (Positive (Point.resistanceOff point))
      || (Point.resistanceOff point <? Point.resistanceOn point)%num || negb (Positive (Point.columnCapacitance point))
      || negb (Positive (Point.referenceColumnArea point)) = true).
    { destruct Hbad as [Hk%Z.leb_le|[Hb|[Hb|[Hb|[Hb|Hb]]]]]; rewrite ?Hk, ?Hb; by rewrite ?orb_true_r. }
    rewrite Eb. by eexists. }
  destruct (first_objection (eligibility point tech k)) as [[status why]|] eqn:E.
  - pose proof (objections_decline _ _ _ _ _ E) as Hs. cbn. split; [done|]. split; [|split; [done|]].
    + intros Hi%eligible_in_scope. congruence.
    + intros E1 E2 Hbad. destruct (Hm E1 E2 Hbad) as [w [= -> _]]. done.
  - pose proof (proj1 (eligible_in_scope point tech k) E) as Hi.
    assert (Hn : Point.contextAvailable point = true -> Point.internalSenseAmp point = true -> ~ malformed)
      by (intros E1 E2 Hbad; destruct (Hm E1 E2 Hbad); congruence).
    pose proof (FindFit_fitted (F := F) (Process.featureSizeInNano tech)) as Hf.
    destruct (FindFit _) as [fit|]; [|destruct (nominal_read _ _ _ Hi) as (v & Hv & _); by destruct (Hf v)].
    pose proof (evaluate_cases point tech k fit) as Hc. destruct (evaluate point tech k fit) as [r|]; [|done].
    destruct Hc as [(Hp & Hs & Hr)|[[why ->]|[Hp ->]]].
    + rewrite Hs. split_and!; [done|done|done|]. intros E1 E2 Hbad. by destruct (Hn E1 E2).
    + cbn. split_and!; [done|done|done|done].
    + cbn. split_and!; [done|done|done|]. intros E1 E2 Hbad. by destruct (Hn E1 E2).
Qed.

(** A one-tier MRAM column at 10 nm. *)
Definition mram_point : Point.t float :=
  Point.mk true true false 1 MRAM CMOS_access (of_Z 300) (lit 28 (-2)) (of_Z 6000) (of_Z 11000) (lit 2 (-15)) (lit 1 (-12)).

(** The model is applied to it. *)
Lemma binary_sense_contract_witness :
  exists r, EvaluateBinarySenseAmp mram_point (table float 10) 4 = Ret r /\ Outputs.status r = Applied /\
    InScope mram_point (table float 10) 4 /\ consistent r.
Proof.
  pose proof (binary_sense_contract mram_point (table float 10) 4) as Hc. cbv zeta in Hc.
  assert (Hs : match EvaluateBinarySenseAmp mram_point (table float 10) 4 with Ret r => Outputs.status r | Exit _ => Invalid end
               = Applied) by (vm_compute; reflexivity).
  destruct (EvaluateBinarySenseAmp mram_point (table float 10) 4) as [r|]; [|discriminate].
  exists r. destruct (proj1 Hc Hs) as (Hi & _ & Hr). done.
Defined.

End Sensing.

End LeafCorrect.
