(* ===== verification/CellCorrect.v ===== *)
(** * Correctness of memory cells

    The claims about MemCell.cpp and AOSFETCompactModel.cpp: the operating point of an
    oxide transistor, the current behind its contacts, what the reader of cell files
    accepts and what it makes of the lines of a file. *)
From S2P Require Import Prelude Numeric RealNum FloatNum Types InputParameter ConfigParser ConfigFacts Circuit Process Formula FormulaFacts Aos Cell CellReader.
From stdpp Require Import base list.
From Stdlib Require Import ZArith Lia Ascii String Floats Reals Lra.
Open Scope Z_scope.

Module CellCorrect.
Import FormulaFacts.

(** ** Sequences that may fail *)

Lemma bind_ret {A B : Type} (m : Outcome A) (f : A -> Outcome B) b :
  outcome_bind m f = Ret b -> exists a, m = Ret a /\ f a = Ret b.
Proof. destruct m as [a|]; cbn; [eauto|discriminate]. Qed.

(** Takes the first step off a run that returned. *)
Tactic Notation "step" hyp(E) "as" ident(x) ident(Ex) := apply bind_ret in E as (x & Ex & E).

(** ** Oxide transistors *)

Section Oxide.
Context {F : Type} `{Num F}.

Lemma require_finite (x : F) name u : AOS.RequireFinite x name = Ret u -> nfinite x = true.
Proof. unfold AOS.RequireFinite. by destruct (nfinite x). Qed.

Lemma require_result (x : F) name u : AOS.RequireFiniteResult x name = Ret u -> nfinite x = true.
Proof. unfold AOS.RequireFiniteResult. by destruct (nfinite x). Qed.

(** The upper end of a bisection does not carry more than is assumed of it, and the
    lower end, unless it is the one started from, carries more. *)
Definition brackets (res : F -> Outcome F) (start low high : F) : Prop :=
  (exists r, res high = Ret r /\ (r >? #0)%num = false) /\
  (low = start \/ exists r, res low = Ret r /\ (r >? #0)%num = true).

Lemma expand_reaches (res : F -> Outcome F) limit n : forall high r high' r',
  res high = Ret r -> AOS.expand res limit n high r = Ret (high', r') -> res high' = Ret r'.
Proof.
  induction n as [|n IH]; intros high r high' r' Er E; cbn in E; [by injection E as <- <-|].
  destruct (_ && _)%bool; [|by injection E as <- <-]. step E as r1 E1. by eapply IH.
Qed.

Lemma bisect_brackets (res : F -> Outcome F) start n : forall low high low' high',
  brackets res start low high -> AOS.bisect res n low high = Ret (Some (low', high')) ->
  brackets res start low' high' /\ (high' - low' <=? std_max (lit 1 (-30)) (lit 1 (-12) * high'))%num = true.
Proof.
  induction n as [|n IH]; intros low high low' high' Hb E; cbn in E; [discriminate|].
  step E as r Er. destruct (negb (nfinite r)); [discriminate|]. set (mid := (lit 5 (-1) * (low + high))%num) in *.
  assert (Hb' : brackets res start (if (r >? #0)%num then mid else low) (if (r >? #0)%num then high else mid)).
  { destruct Hb as [Hh Hl]. destruct (r >? #0)%num eqn:Es; split; eauto. }
  destruct (r >? #0)%num; (destruct (_ <=? _)%num eqn:Et in E; [injection E as <- <-; done|by eapply IH]).
Qed.

(** C16: behind contact resistances the current of an oxide transistor is bracketed.  The
    solver returns the middle of two currents that are apart by no more than a relative
    1e-12 (or 1e-30): with the upper one the transistor, biased less the voltage lost at
    its contacts, carries no more than is assumed, and with the lower one, unless it is
    zero, it carries more.  The result is finite and positive. *)
Theorem contact_current_bracketed (m : AOS.Model F) vgs vds rsd current :
  AOS.TotalContactResistanceOhm m = Ret rsd -> (rsd =? #0)%num = false ->
  AOS.CalculateDrainCurrentExternal m vgs vds = Ret current ->
  nfinite current = true /\ (current <=? #0)%num = false /\
  exists low high, current = (lit 5 (-1) * (low + high))%num /\
    (high - low <=? std_max (lit 1 (-30)) (lit 1 (-12) * high))%num = true /\
    brackets (AOS.residual m vgs vds rsd) (lit 0 (-1)) low high.
Proof.
  intros Er Hr E. unfold AOS.CalculateDrainCurrentExternal in E. step E as u1 E1. destruct (_ || _)%bool; [discriminate|].
  rewrite Er in E. cbn [outcome_bind] in E. rewrite Hr in E. step E as i Ei. step E as r0 Er0. step E as hr Eh. destruct hr as [high rh].
  destruct (_ || _)%bool eqn:Eb in E; [discriminate|]. apply orb_false_iff in Eb as [_ Hh].
  step E as ends Eends. destruct ends as [[low' high']|]; [|discriminate]. step E as u2 E2. destruct (_ <=? _)%num eqn:Ep in E; [discriminate|].
  injection E as <-. split; [by eapply require_result|]. split; [done|]. exists low', high'. split; [done|].
  apply and_comm. eapply bisect_brackets; [|exact Eends]. split; [|by left].
  exists rh. split; [|done]. by eapply expand_reaches.
Qed.

(** An operating point that is returned is physical.  Both currents are the ones behind
    the contacts at the two gate voltages, of which the one to switch on is the higher;
    the transistor conducts more switched on than off, and off more than nothing; the
    resistances are the drain voltage over the currents; every figure is finite and the
    capacitances are not negative. *)
Theorem operating_point_physical (m : AOS.Model F) on off vds (pt : AOS.Point.t F) :
  AOS.EvaluateOperatingPoint m on off vds = Ret pt ->
  (on <=? off)%num = false /\ (vds <=? #0)%num = false /\
  AOS.CalculateDrainCurrentExternal m on vds = Ret (AOS.Point.Ion pt) /\
  AOS.CalculateDrainCurrentExternal m off vds = Ret (AOS.Point.Ioff pt) /\
  (AOS.Point.Ion pt <=? AOS.Point.Ioff pt)%num = false /\ (AOS.Point.Ioff pt <=? #0)%num = false /\
  AOS.Point.Ron pt = (vds / AOS.Point.Ion pt)%num /\ AOS.Point.Roff pt = (vds / AOS.Point.Ioff pt)%num /\
  (AOS.Point.Ron pt <=? #0)%num = false /\ (AOS.Point.Roff pt <=? #0)%num = false /\
  (exists gs, AOS.CalculateCapacitances m on vds (lit 1 (-3)) = Ret (gs, AOS.Point.Cdrain pt) /\
     AOS.Point.Cgate pt = (gs + AOS.Point.Cdrain pt)%num) /\
  (AOS.Point.Cgate pt <? #0)%num = false /\ (AOS.Point.Cdrain pt <? #0)%num = false /\
  forallb nfinite [AOS.Point.Ion pt; AOS.Point.Ioff pt; AOS.Point.Ron pt; AOS.Point.Roff pt; AOS.Point.Cgate pt;
    AOS.Point.Cdrain pt] = true.
Proof.
  unfold AOS.EvaluateOperatingPoint. intros E. step E as u1 E1. step E as u2 E2. destruct (on <=? off)%num; [discriminate|].
  destruct (_ || _)%bool eqn:Ev in E; [discriminate|]. apply orb_false_iff in Ev as [_ Hv].
  step E as ion Eon. step E as ioff Eoff. step E as caps Ec. destruct caps as [gs gd].
  step E as f1 H1. step E as f2 H2. step E as f3 H3. step E as f4 H4. step E as f5 H5. step E as f6 H6.
  destruct (_ || _)%bool eqn:Eb in E; [discriminate|]. injection E as <-.
  rewrite !orb_false_iff in Eb. destruct Eb as [[[[[B1 B2] B3] B4] B5] B6].
  apply require_result in H1, H2, H3, H4, H5, H6. cbn in *.
  rewrite H1, H2, H3, H4, H5, H6. split_and!; eauto.
Qed.

(** *** Reading cells *)

(** Steps through the tests of a run that returned. *)
Ltac pass E := repeat (match type of E with context [if ?b then _ else _] => destruct b eqn:?; try discriminate E end).

Lemma evaluated_off (m : AOS.Model F) on off vds (pt : AOS.Point.t F) :
  AOS.EvaluateOperatingPoint m on off vds = Ret pt ->
  AOS.CalculateDrainCurrentExternal m off vds = Ret (AOS.Point.Ioff pt) /\
  nfinite (AOS.Point.Ioff pt) = true /\ (AOS.Point.Ioff pt <=? #0)%num = false.
Proof.
  unfold AOS.EvaluateOperatingPoint. intros E. step E as u1 E1. step E as u2 E2. destruct (on <=? off)%num; [discriminate|].
  destruct (_ || _)%bool in E; [discriminate|]. step E as ion Eon. step E as ioff Eoff. step E as caps Ec. destruct caps as [gs gd].
  step E as f1 H1. step E as f2 H2. step E as f3 H3. step E as f4 H4. step E as f5 H5. step E as f6 H6.
  destruct (_ || _)%bool eqn:Eb in E; [discriminate|]. injection E as <-. rewrite !orb_false_iff in Eb.
  apply require_result in H2. split; [exact Eoff|]. split; [exact H2|]. tauto.
Qed.

Context (vdd : F) (ip : InputParameter.t F).

(** A transistor whose operating point was evaluated. *)
Definition usable (o : Oxide.t F) : Prop :=
  CellReader.missing_fields o = [] /\ (Oxide.wordlineBoostVoltage o <=? Oxide.wordlineHoldVoltage o)%num = false /\
  exists model, AOS.Initialize (Oxide.parameters o) = Ret model /\
    AOS.EvaluateOperatingPoint model (Oxide.wordlineBoostVoltage o) (Oxide.wordlineHoldVoltage o) vdd = Ret (Oxide.operatingPoint o).

Lemma validated name o o' : CellReader.ValidateAOSParameterSet vdd ip name o = Ret o' -> usable o'.
Proof.
  unfold CellReader.ValidateAOSParameterSet. intros E. destruct (CellReader.missing_fields o) eqn:Em; [|discriminate].
  destruct (_ <=? _)%num eqn:Eh in E; [discriminate|]. destruct (_ || _)%bool in E; [discriminate|].
  destruct (_ >? _)%num in E; [discriminate|]. destruct (AOS.Initialize (Oxide.parameters o)) as [model|] eqn:Ei; [|discriminate].
  cbn [outcome_bind] in E. destruct (AOS.EvaluateOperatingPoint _ _ _ _) as [pt|] eqn:Ep in E; [|discriminate]. injection E as <-.
  split; [exact Em|]. split; [exact Eh|]. exists model. done.
Qed.

Definition oxide_checked (c : Cell.t F) : Prop := Cell.oxideTransistor c = true ->
  (Cell.memCellType c = eDRAM /\ usable (Cell.oxideAccessTransistor c)) \/
  (Cell.memCellType c = gcDRAM /\ usable (Cell.oxideReadTransistor c) /\ usable (Cell.oxideWriteTransistor c)).

Lemma check_oxide_checked st c : CellReader.check_oxide vdd ip st = Ret c -> oxide_checked c.
Proof.
  unfold CellReader.check_oxide. intros E. destruct (_ && _)%bool in E; [discriminate|].
  destruct (_ && _)%bool eqn:Ek in E; [discriminate|].
  destruct (Cell.oxideTransistor (CellReader.cell st)) eqn:Eo; cbn [andb] in E, Ek;
    [|injection E as <-; intros Ht; congruence].
  case_bool_decide as Ee.
  { destruct (_ || _)%bool in E; [discriminate|]. step E as o Eval. injection E as <-. left. split; [exact Ee|by eapply validated]. }
  case_bool_decide as Eg.
  { destruct (Oxide.initialized _) in E; [discriminate|]. step E as r Er. step E as w Ew. injection E as <-.
    right. split; [exact Eg|]. split; by eapply validated. }
  unfold CellReader.IsAOSCell in Ek. rewrite !bool_decide_eq_false_2 in Ek by done. discriminate.
Qed.

Definition retention_checked (c : Cell.t F) : Prop :=
  (Cell.retentionAOSOffCurrentRatio c = true -> Cell.memCellType c = eDRAM /\ Cell.oxideTransistor c = true /\
     (Cell.retentionTime c =? invalid_value)%num = false) /\
  Cell.retentionReferenceHoldVoltageSpecified c = Cell.retentionAOSOffCurrentRatio c.

Lemma check_retention_checked c c' : CellReader.check_retention c = Ret c' -> c' = c /\ retention_checked c.
Proof.
  unfold CellReader.check_retention, retention_checked. intros E. step E as u Eu. destruct u.
  destruct (Cell.retentionAOSOffCurrentRatio c), (Cell.retentionReferenceHoldVoltageSpecified c); cbn in E, Eu;
    try discriminate; [|by destruct (_ || _)%bool in Eu; [|destruct (_ =? _)%num in Eu]|by injection E as <-].
  destruct (_ || _)%bool eqn:Ek in Eu; [discriminate|]. destruct (_ =? _)%num in Eu |- *; [discriminate|].
  injection E as <-. apply orb_false_iff in Ek as [Ee Eo]. rewrite negb_false_iff in Ee, Eo. apply bool_decide_eq_true in Ee. done.
Qed.

(** With the reference bias applied, the two off currents are the same. *)
Lemma same_bias_ratio c : oxide_checked c -> retention_checked c -> Cell.retentionAOSOffCurrentRatio c = true ->
  Cell.retentionReferenceHoldVoltage c = Oxide.wordlineHoldVoltage (Cell.oxideAccessTransistor c) ->
  let i := AOS.Point.Ioff (Oxide.operatingPoint (Cell.oxideAccessTransistor c)) in
  Cell.off_current_ratio vdd c = Ret (i / i)%num.
Proof.
  intros Ho [Hr _] Ha Ev. destruct (Hr Ha) as (He & Hx & _). destruct (Ho Hx) as [[_ (_ & _ & model & Ei & Ep)]|[Hg _]]; [|congruence].
  destruct (evaluated_off _ _ _ _ _ Ep) as (Eoff & Hf & Hp). unfold Cell.off_current_ratio. rewrite Ei. cbn [outcome_bind].
  rewrite Ev, Eoff. cbn [outcome_bind]. by rewrite Hf, Hp.
Qed.

Context (raw_line raw_tmp : string).

(** C12: a cell file that is accepted describes a usable cell.  Oxide transistors are only
    in eDRAM, with an access transistor, and in gain cells, with a read and a write
    transistor, and each of these has all required fields, a switching voltage above its
    holding voltage and the operating point of the compact model at the supply voltage.
    The retention model needs an oxide eDRAM with a retention time, and a reference
    voltage is given exactly with it; when it is the voltage the cell is held with, the
    off currents that scale the retention time are one and the same. *)
Theorem accepted_cell_usable file (c c' : Cell.t F) :
  CellReader.ReadCellFromFile vdd ip raw_line raw_tmp file c = Some (Ret c') ->
  (Cell.oxideTransistor c' = true ->
     (Cell.memCellType c' = eDRAM /\ usable (Cell.oxideAccessTransistor c')) \/
     (Cell.memCellType c' = gcDRAM /\ usable (Cell.oxideReadTransistor c') /\ usable (Cell.oxideWriteTransistor c'))) /\
  (Cell.retentionAOSOffCurrentRatio c' = true ->
     Cell.memCellType c' = eDRAM /\ Cell.oxideTransistor c' = true /\ (Cell.retentionTime c' =? invalid_value)%num = false) /\
  Cell.retentionReferenceHoldVoltageSpecified c' = Cell.retentionAOSOffCurrentRatio c' /\
  (Cell.retentionAOSOffCurrentRatio c' = true ->
   Cell.retentionReferenceHoldVoltage c' = Oxide.wordlineHoldVoltage (Cell.oxideAccessTransistor c') ->
   let i := AOS.Point.Ioff (Oxide.operatingPoint (Cell.oxideAccessTransistor c')) in Cell.off_current_ratio vdd c' = Ret (i / i)%num).
Proof.
  unfold CellReader.ReadCellFromFile. intros E. destruct file as [input|]; [|discriminate].
  destruct (CellReader.read_loop _ _ _ _ _) as [m|]; [|discriminate]. apply (inj Some) in E. step E as st Est. step E as c1 Ec.
  apply check_retention_checked in E as [-> Hr]. apply check_oxide_checked in Ec.
  split; [exact Ec|]. split; [apply Hr|]. split; [apply Hr|]. by apply same_bias_ratio.
Qed.

(** ** The end of a cell file *)



End Oxide.

(** ** A cell file *)

(** Elementary functions on binary64 that come close to those of libm. *)
Section Libm.
Local Open Scope float_scope.

Definition near_exp (x : float) : float := Nat.iter 20 (fun y => y * y) (1 + x / 1048576).
Definition near_sin (x : float) : float :=
  let y := x * x in x * (1 - y / 6 * (1 - y / 20 * (1 - y / 42 * (1 - y / 72 * (1 - y / 110))))).
Definition near_log (x : float) : float := Nat.iter 60 (fun y => let e := near_exp y in y + 2 * (x - e) / (x + e)) 0.
Definition near_libm : Libm := {|
  libm_log := near_log;
  libm_log2 := fun x => near_log x / near_log 2;
  libm_exp := near_exp;
  libm_sin := near_sin;
  libm_pow := fun x y => near_exp (y * near_log x)
|}.
End Libm.

Section Run.
#[local] Instance near_float : Num float := float_num near_libm.

(** The settings of config/New_Configs/AOS_eDRAM_demo.cell. *)
Definition demo_cell : string :=
"-MemCellType: eDRAM
-CellArea (F^2): 76.530600
-CellAspectRatio: 1.46
-ReadMode: voltage
-AccessType: CMOS
-DRAMCellCapacitance (F): 13e-15
-ResetVoltage (V): vdd
-SetVoltage (V): vdd
-MinSenseVoltage (mV): 10
-RetentionTime (us): 100
-Temperature (K): 300
-OxideTransistor: true
-OxideAccessTransistorTemperature (K): 300
-OxideAccessTransistorTailTemperature (K): 400
-OxideAccessTransistorElementaryCharge (C): 1.602e-19
-OxideAccessTransistorBoltzmannConstant (J/K): 1.380649e-23
-OxideAccessTransistorVacuumPermittivity (F/m): 8.854e-12
-OxideAccessTransistorSemiconductorPermittivity (F/m): 8.854e-11
-OxideAccessTransistorNu0T0: 1.0
-OxideAccessTransistorWidth (m): 100e-9
-OxideAccessTransistorLength (m): 30e-9
-OxideAccessTransistorOverlapCapacitance (F): 30e-18
-OxideAccessTransistorFlatBandVoltage (V): -0.5396
-OxideAccessTransistorTrapDensity: 1e17
-OxideAccessTransistorFermiReference: 0.0
-OxideAccessTransistorOxideCapacitance (F/m^2): 0.0371868
-OxideAccessTransistorVRHThreshold (V): -1.5
-OxideAccessTransistorPercolationThreshold (V): -1.0
-OxideAccessTransistorVRHPrefactor (cm^2/Vs): 15.0
-OxideAccessTransistorPercolationPrefactor (cm^2/Vs): 35.0
-OxideAccessTransistorPercolationExponent: 0.3
-OxideAccessTransistorMobilityScale: 0.09921
-OxideAccessTransistorLeakageSwingFactor: 2.0
-OxideAccessTransistorLeakageSurfacePotentialReference (V): 0.15
-OxideAccessTransistorLeakageScale: 13.16
-OxideAccessTransistorCurrentFloor (A): 1e-17
-OxideAccessTransistorTotalContactResistance (kOhm-um): 0.5
-OxideAccessTransistorOffGateVoltage (V): -0.75
-OxideAccessTransistorOnGateVoltage (V): 1.25
-RetentionModel: AOSOffCurrentRatio
-RetentionReferenceHoldVoltage (V): -0.75
".
Definition demo_vdd : float := lit 8 (-1).
Definition demo_ip : InputParameter.t float := InputParameter.InputParameter 0 64 300 HP (of_Z 0) false.
Abbreviation demo_read := (CellReader.ReadCellFromFile demo_vdd demo_ip "" "" (Some demo_cell) (Cell.MemCell (of_Z 1))).

Lemma demo_accepted : exists c, demo_read = Some (Ret c) /\ Cell.oxideTransistor c = true /\ Cell.retentionAOSOffCurrentRatio c = true /\
  Cell.retentionReferenceHoldVoltage c = Oxide.wordlineHoldVoltage (Cell.oxideAccessTransistor c).
Proof. eexists. split; [vm_compute; reflexivity|]. split; [reflexivity|]. split; reflexivity. Qed.

Lemma accepted_cell_usable_witness : exists c, demo_read = Some (Ret c) /\
  let i := AOS.Point.Ioff (Oxide.operatingPoint (Cell.oxideAccessTransistor c)) in Cell.off_current_ratio demo_vdd c = Ret (i / i)%num.
Proof.
  destruct demo_accepted as (c & E & _ & Ha & Ev). exists c. split; [exact E|].
  exact (proj2 (proj2 (proj2 (accepted_cell_usable demo_vdd demo_ip _ _ (Some demo_cell) _ c E))) Ha Ev).
Defined.

Definition demo_parameters : AOS.Parameters.t float :=
  AOS.DefaultParameters <| AOS.Parameters.totalContactResistanceKohmUm := lit 5 (-1) |>.

Lemma demo_point : exists m pt, AOS.Initialize demo_parameters = Ret m /\
  AOS.EvaluateOperatingPoint m (of_Z 1) (of_Z 0) demo_vdd = Ret pt.
Proof. eexists _, _. split; [vm_compute; reflexivity|vm_compute; reflexivity]. Qed.

Lemma operating_point_physical_witness : exists m pt, AOS.EvaluateOperatingPoint m (of_Z 1) (of_Z 0) demo_vdd = Ret pt /\
  (AOS.Point.Ion pt <=? AOS.Point.Ioff pt)%num = false.
Proof.
  destruct demo_point as (m & pt & _ & E). exists m, pt. split; [exact E|].
  exact (proj1 (proj2 (proj2 (proj2 (proj2 (operating_point_physical m (of_Z 1) (of_Z 0) demo_vdd pt E)))))).
Defined.

Lemma demo_current : exists m rsd i, AOS.TotalContactResistanceOhm m = Ret rsd /\ (rsd =? #0)%num = false /\
  AOS.CalculateDrainCurrentExternal m (of_Z 1) demo_vdd = Ret i.
Proof.
  destruct (AOS.Initialize demo_parameters) as [m|e] eqn:E; [|vm_compute in E; discriminate].
  exists m. vm_compute in E. injection E as <-. eexists _, _. split; [vm_compute; reflexivity|]. split; [vm_compute; reflexivity|vm_compute; reflexivity].
Qed.

Lemma contact_current_bracketed_witness : exists m i, AOS.CalculateDrainCurrentExternal m (of_Z 1) demo_vdd = Ret i /\
  (i <=? #0)%num = false.
Proof.
  destruct demo_current as (m & rsd & i & Er & Hr & E). exists m, i. split; [exact E|].
  exact (proj1 (proj2 (contact_current_bracketed m (of_Z 1) demo_vdd rsd i Er Hr E))).
Defined.

End Run.
End CellCorrect.
