(* ===== verification/WireCorrect.v ===== *)
(** * Correctness of repeated wires

    The claims about the search for repeaters of Wire.cpp, and the pitch of wires at
    nodes without an entry in its table. *)
From S2P Require Import Prelude Numeric RealNum Types InputParameter Process Formula FormulaFacts Circuit.
From S2P Require Import Peripherals ChainFacts LeafCorrect Wires WireFacts.
From stdpp Require Import base list strings.
From Stdlib Require Import ZArith Lia Reals Lra.
Open Scope R_scope.

Module WireCorrect.
Import Formula Wire WireFacts FormulaFacts LeafCorrect.

(** C15: at bulk nodes the search for a repeater within a delay penalty ends.  It keeps
    the spacing it starts from, and of the sizes below the optimal one, in steps of one,
    it returns the least whose delay stays within the penalty: every smaller one is
    slower.  Other spacings up to four times the optimal one are visited after the
    sizes are used up, so none of them is ever evaluated. *)
Theorem penalized_repeater_least (tech : Process.t R) (ip : InputParameter.t R) (pen : R) (w : t R) :
  ChainFacts.Usable tech ip -> Physical tech -> Sound tech w -> 0 <= pen -> 1 <= repeaterSize w ->
  let at_step m := w <| repeaterSize := repeaterSize w - IZR m |> in
  exists i d0 d, findPenalizedRepeater tech ip pen w = Ret (at_step i) /\ (0 <= i)%Z /\ 1 <= repeaterSize w - IZR i /\
    getRepeatedWireUnitDelay tech ip w = Ret d0 /\
    getRepeatedWireUnitDelay tech ip (at_step i) = Ret d /\ d <= d0 * (1 + pen) /\
    forall m, (i < m)%Z -> 1 <= repeaterSize w - IZR m ->
      exists d', getRepeatedWireUnitDelay tech ip (at_step m) = Ret d' /\ d0 * (1 + pen) < d'.
Proof.
  intros U P S Hp H1 at_step. destruct (parts_exist tech ip U P) as [c K].
  pose proof (fun k Hk => proj1 (resized_figures tech ip U c K w S k Hk)) as Hf.
  destruct (penalized tech ip U P c K w S pen Hp H1) as (i & E & Hi & Hk & Hd & Hs).
  pose proof (Hf (repeaterSize w) ltac:(lra)) as H0. rewrite resized_same in H0.
  assert (0 <= IZR i) by (by apply IZR_le).
  eexists i, _, _. split; [exact E|]. split; [done|]. split; [done|]. split; [exact H0|].
  split; [apply Hf; lra|]. split; [exact Hd|]. intros m Hm Hkm. assert (IZR i < IZR m) by (by apply IZR_lt).
  eexists. split; [apply Hf; lra|]. by apply Hs.
Qed.

Lemma bulk_physical : Physical bulk_table.
Proof.
  assert (Hp : forall n, List.Forall (Rlt 0) (replicate n 1)) by (induction n; constructor; [lra|done]).
  split; try apply Hp; try reflexivity; cbn; lra.
Qed.

(** A wire with a repeater of eight times the least size. *)
Definition demo_wire : t R :=
  (Wire 0) <| repeaterSize := 8 |> <| repeaterSpacing := 1 / 1000 |> <| capWirePerUnit := 1 |> <| resWirePerUnit := 1 |>.

Lemma demo_sound : Sound bulk_table demo_wire.
Proof.
  split; cbn [demo_wire repeaterSize repeaterSpacing capWirePerUnit resWirePerUnit]; try (cbn; lra).
  change (Process.featureSize bulk_table) with (nm 90 : R). change (Process.pnSizeRatio bulk_table) with 2.
  rewrite nm_value. cbn. lra.
Qed.

Lemma penalized_repeater_least_witness :
  exists i d0 d,
    findPenalizedRepeater bulk_table warm_ip (1 / 10) demo_wire = Ret (demo_wire <| repeaterSize := 8 - IZR i |>) /\
    getRepeatedWireUnitDelay bulk_table warm_ip demo_wire = Ret d0 /\
    getRepeatedWireUnitDelay bulk_table warm_ip (demo_wire <| repeaterSize := 8 - IZR i |>) = Ret d /\
    d <= d0 * (1 + 1 / 10).
Proof.
  destruct (penalized_repeater_least bulk_table warm_ip (1 / 10) demo_wire bulk_usable bulk_physical demo_sound)
    as (i & d0 & d & E & _ & _ & E0 & Ed & Hd & _); [lra|cbn; lra|].
  exists i, d0, d. exact (conj E (conj E0 (conj Ed Hd))).
Defined.

(** C29: at bulk nodes the spacing of the optimal repeater minimises the delay per
    metre, over all spacings, of a wire with repeaters of the least size. *)
Theorem optimal_spacing_least (tech : Process.t R) (ip : InputParameter.t R) (w : t R) :
  ChainFacts.Usable tech ip -> Physical tech -> 0 < capWirePerUnit w -> 0 < resWirePerUnit w ->
  2 * Process.featureSize tech * Process.pnSizeRatio tech < 1 ->
  exists k l, findOptimalRepeater tech ip w = Ret (w <| repeaterSize := k |> <| repeaterSpacing := l |>) /\ 0 < l /\
    forall L, 0 < L -> exists d d',
      getRepeatedWireUnitDelay tech ip (w <| repeaterSize := 1 |> <| repeaterSpacing := l |>) = Ret d /\
      getRepeatedWireUnitDelay tech ip (w <| repeaterSize := 1 |> <| repeaterSpacing := L |>) = Ret d' /\ d <= d'.
Proof. intros U P Hc Hr Hm. destruct (parts_exist tech ip U P) as [c K]. by apply (optimal tech ip U c K). Qed.

Lemma optimal_spacing_least_witness :
  exists k l, findOptimalRepeater bulk_table warm_ip demo_wire = Ret (demo_wire <| repeaterSize := k |> <| repeaterSpacing := l |>)
    /\ 0 < l.
Proof.
  destruct (optimal_spacing_least bulk_table warm_ip demo_wire bulk_usable bulk_physical) as (k & l & E & Hl & _);
    [cbn; lra|cbn; lra| |by exists k, l].
  change (Process.featureSize bulk_table) with (nm 90 : R). change (Process.pnSizeRatio bulk_table) with 2.
  rewrite nm_value. lra.
Defined.

(** At 14 nm and below the pitch of a local wire is [p] feature sizes where the table
    has an entry [p] for the node, and a square of the feature size where it has none. *)
Theorem untabulated_pitch_squared (nano : Z) : (nano <= 14)%Z ->
  let fs := IZR nano * (1 / 1000000000) in
  option_map pitch (geometry (F := R) nano local_aggressive) =
  Some (match M2_PITCH nano with Some p => p * fs | None => 2 * fs * fs end).
Proof.
  intros Hn fs. unfold geometry. destruct (Z.leb_spec nano 14); [|lia]. cbn [option_map]. f_equal.
  unfold geometry_advanced, metal_pitch. cbv zeta. cbn [pitch]. rewrite !Rlit_neg. num_R.
  change (10 ^ 9)%Z with 1000000000%Z. change (10 ^ 1)%Z with 10%Z. fold fs.
  destruct (M2_PITCH nano) as [p|]; [field|ring].
Qed.

End WireCorrect.
