(* ===== verification/TechCorrect.v ===== *)
(** * Correctness of the process technology

    The claims about the process the program builds from its tables: for which
    nodes and roadmaps it builds one, that the circuit models can rely on it,
    and how its currents depend on the temperature; then what the tables and
    their blend get wrong. *)
From S2P Require Import Prelude Numeric RealNum FloatNum Types InputParameter Process Formula FormulaFacts.
From S2P Require Import TechTables Technology TechFacts TechInit TechTrend ChainFacts WireFacts.
From stdpp Require Import base list strings.
From Stdlib Require Import ZArith Lia Reals Lra Floats.
Open Scope Z_scope.

Module TechCorrect.
Import Process Formula FormulaFacts TechTables Technology TechFacts TechInit TechTrend.
Open Scope Z_scope.

(** ** Storage *)

(** Storage with one value in every [double]. *)
Definition storage {F : Type} (x : F) : t F :=
  let k := replicate 101 x in
  let v := fun _ _ : Z => x in
  mk 0 x x x x x x x x x x x x x x x x x k k k k x x x x x x x x x x x x x [] [] [] 0 v v v v v v v [] [] []
    x x x x x false HP false.

Lemma storage_stores x : Storage (storage x).
Proof. by split. Qed.

Definition demo_input {F : Type} `{Num F} : InputParameter.t F := InputParameter.InputParameter 0 64 350 HP (of_Z 0) false.

(** ** Claims *)

(** C25: the program builds a process exactly for the supported nodes and
    roadmaps; for any other it exits with a message. *)
Theorem process_supported_exactly (ip : InputParameter.t R) raw raw' n r :
  0 <= InputParameter.localTsvProjection ip <= 2 -> 0 <= InputParameter.globalTsvProjection ip <= 2 ->
  Storage raw -> Storage raw' ->
  if supported n r then exists tech, initializeTechnology ip raw n r (Technology raw') = Ret tech
  else exists message, initializeTechnology ip raw n r (Technology raw') = Exit message.
Proof.
  intros Hl Hg S S'. destruct (supported n r) eqn:E.
  - destruct (initializeTechnology_ready ip Hl Hg raw raw' n r S S' E) as (tech & Et & _). by exists tech.
  - by apply initializeTechnology_exit.
Qed.

(** The 90 nm table has an embedded DRAM, but at 100 nm the blend needs the
    120 nm table, which has none. *)
Lemma process_supported_exactly_witness :
  (exists tech, initializeTechnology demo_input (storage 0%R) 90 EDRAM (Technology (storage 0%R)) = Ret tech) /\
  (exists message, initializeTechnology demo_input (storage 0%R) 100 EDRAM (Technology (storage 0%R)) = Exit message).
Proof.
  split.
  - apply (process_supported_exactly demo_input (storage 0%R) (storage 0%R) 90 EDRAM);
      [split; lazy; discriminate|split; lazy; discriminate|apply storage_stores|apply storage_stores].
  - apply (process_supported_exactly demo_input (storage 0%R) (storage 0%R) 100 EDRAM);
      [split; lazy; discriminate|split; lazy; discriminate|apply storage_stores|apply storage_stores].
Defined.

(** C9: every process the program builds has the node asked for, voltages,
    capacitances and resistance factors that are positive, and four tables of
    101 positive currents, whatever its storage held; at bulk nodes and within
    the temperature range it meets all that the driver, decoder and wire models
    assume of a process. *)
Theorem program_process_ready (ip : InputParameter.t R) raw raw' n r :
  0 <= InputParameter.localTsvProjection ip <= 2 -> 0 <= InputParameter.globalTsvProjection ip <= 2 ->
  Storage raw -> Storage raw' -> supported n r = true ->
  exists tech, initializeTechnology ip raw n r (Technology raw') = Ret tech /\ Ready n tech /\
    (22 <= n -> 300 <= InputParameter.temperature ip <= 400 ->
     ChainFacts.Usable tech ip /\ WireFacts.Physical tech).
Proof.
  intros Hl Hg S S' E. destruct (initializeTechnology_ready ip Hl Hg raw raw' n r S S' E) as (tech & Et & A).
  exists tech. split; [done|]. split; [done|]. intros Hn Ht.
  assert (Hsize : (nm 22 <= featureSize tech)%R).
  { rewrite (ready_size _ _ A), !nm_value. apply IZR_le in Hn. lra. }
  pose proof (ready_voltage _ _ A). pose proof (ready_ideal _ _ A). pose proof (ready_overlap _ _ A).
  pose proof (ready_fringe _ _ A). pose proof (ready_poly _ _ A) as Hp.
  split; split; try done; try lra; try (left; apply A); try apply A. rewrite Hp. lra.
Qed.

Lemma program_process_ready_witness :
  exists tech, initializeTechnology demo_input (storage 0%R) 190 LOP (Technology (storage 1%R)) = Ret tech /\
    Ready 190 tech /\ ChainFacts.Usable tech demo_input /\ WireFacts.Physical tech.
Proof.
  destruct (program_process_ready demo_input (storage 0%R) (storage 1%R) 190 LOP) as (tech & E & A & H);
    [split; lazy; discriminate|split; lazy; discriminate|apply storage_stores|apply storage_stores|reflexivity|].
  exists tech. split; [exact E|]. split; [exact A|]. apply H; [lia|split; lazy; discriminate].
Defined.

(** C28: storing eleven points in an array and running the interpolation loop over
    it gives the straight lines between the points, exactly, whatever the array
    held; in particular the loop never reads an element it has written. *)
Theorem current_tables_linear {F} `{Num F} (l a : list F) : length l = 11%nat -> length a = 101%nat ->
  interpolate (points l a) = ramp l /\ sample (interpolate (points l a)) = l.
Proof.
  intros Hl Ha. split; [by apply interpolate_points|]. assert (Hp : length (points l a) = 101%nat) by (by rewrite points_length).
  transitivity (sample (points l a)); [|by apply sample_points]. unfold sample. apply map_ext_in. intros k Hk%in_seq.
  rewrite interpolate_elt by lia. unfold between.
  by rewrite (Nat.mul_comm 10 k), Nat.Div0.mod_mul, Nat.eqb_refl.
Qed.

Lemma current_tables_linear_witness :
  interpolate (points (dec [(1, 0); (2, 0); (3, 0); (4, 0); (5, 0); (6, 0); (7, 0); (8, 0); (9, 0); (10, 0); (11, 0)])
    (replicate 101 nan)) !! 25%nat = Some 3.5%float.
Proof.
  destruct (current_tables_linear (F := float)
    (dec [(1, 0); (2, 0); (3, 0); (4, 0); (5, 0); (6, 0); (7, 0); (8, 0); (9, 0); (10, 0); (11, 0)])
    (replicate 101 nan)) as [-> _]; vm_compute; reflexivity.
Defined.

(** The tables with a leakage entry out of line. *)
Definition leak_typo (n : Z) (r : DeviceRoadmap) : bool :=
  match r with
  | LSTP => (90 <=? n) && (n <? 120)
  | LOP => (65 <=? n) && (n <? 120)
  | _ => false
  end.

Lemma LSTP_90_typo this : Storage this -> ~ off_n_rises (LSTP_90 this).
Proof.
  intros S H. specialize (H 2%nat ltac:(cbn; lia)). revert H. lazy delta [LSTP_90]. field_of.
  rewrite sample_points by (first [reflexivity|stored S]). literals. lra.
Qed.

Lemma LOP_90_typo this : Storage this -> ~ off_n_rises (LOP_90 this).
Proof.
  intros S H. specialize (H 0%nat ltac:(cbn; lia)). revert H. lazy delta [LOP_90]. field_of.
  rewrite sample_points by (first [reflexivity|stored S]). literals. lra.
Qed.

Lemma LOP_65_typo this : Storage this -> ~ off_p_rises (LOP_65 this).
Proof.
  intros S H. specialize (H 6%nat ltac:(cbn; lia)). revert H. lazy delta [LOP_65]. field_of.
  rewrite sample_points by (first [reflexivity|stored S]). literals. lra.
Qed.

Lemma Ret_inj {A} (a b : A) : Ret a = Ret b -> a = b.
Proof. by intros [= ->]. Qed.

Lemma devices_trend n r this d : Storage this -> featureSizeInNano this = n -> deviceRoadmap this = r ->
  devices n r this = Ret d -> on_falls d /\ (off_n_rises d /\ off_p_rises d <-> leak_typo n r = false).
Proof.
  intros S Hn Hr. unfold devices, roadmap3, roadmap4, advanced. rewrite Hn, Hr.
  repeat match goal with |- context [(?k <=? n)%Z] => destruct (Z.leb_spec k n) end; try lia; try discriminate;
    destruct r; try discriminate; intros <-%Ret_inj; (split; [solve [auto with trends]|]); cbn [leak_typo];
    (split; [intros [Hn' Hp']|intros Ht]);
    lazymatch goal with
    | H : off_n_rises (LSTP_90 _) |- _ => exfalso; exact (LSTP_90_typo _ S H)
    | H : off_n_rises (LOP_90 _) |- _ => exfalso; exact (LOP_90_typo _ S H)
    | H : off_p_rises (LOP_65 _) |- _ => exfalso; exact (LOP_65_typo _ S H)
    | |- _ = false => lia
    | _ => first [exfalso; lia | split; solve [auto with trends]]
    end.
Qed.

(** A table of [tech] steps as the points of the device table do. *)
Lemma derived_steps s (l : list R) : charted l -> steps s (sample l) <-> steps s (interpolate l).
Proof.
  intros [Hl _]. rewrite interpolate_ramp by done. split; [by apply ramp_steps|].
  intros H i Hi. change (S i < 11)%nat in Hi.
  assert (E : forall k, (k <= 10)%nat -> elt (sample l) k = elt (ramp (sample l)) (10 * k)).
  { intros k Hk. rewrite ramp_elt by lia. rewrite (Nat.mul_comm 10 k), Nat.div_mul, Nat.Div0.mod_mul by lia. cbn. lra. }
  rewrite !E by lia. apply (steps_trans s _ _ _ H). unfold ramp. rewrite length_map, length_seq. lia.
Qed.

(** C14: in every table of every supported node, over the whole range of
    temperatures, the on currents of both transistors do not grow with the
    temperature; the off currents of both do not shrink with it exactly when the
    table is not one of three (90 nm LSTP, 90 nm LOP, 65 nm LOP) with an entry
    out of line. *)
Theorem currents_follow_temperature (ip : InputParameter.t R) raw n r tech :
  0 <= InputParameter.localTsvProjection ip <= 2 -> 0 <= InputParameter.globalTsvProjection ip <= 2 ->
  Storage raw -> Initialize ip n r (Technology raw) = Ret tech ->
  let falls l := forall i j, (i <= j <= 100)%nat -> (elt l j <= elt l i)%R in
  let rises l := forall i j, (i <= j <= 100)%nat -> (elt l i <= elt l j)%R in
  falls (currentOnNmos tech) /\ falls (currentOnPmos tech) /\
  (rises (currentOffNmos tech) /\ rises (currentOffPmos tech) <-> leak_typo n r = false).
Proof.
  intros Hl Hg St%constructed_storage Ei falls rises.
  destruct (has_table n r) eqn:Ht; [|by destruct (Initialize_exit ip n r (Technology raw) Ht) as [e Ee]; rewrite Ee in Ei].
  destruct (Initialize_prepares ip Hl Hg n r _ St eq_refl Ht) as (d & tech' & Ed & Ei' & A & D).
  rewrite Ei in Ei'. apply Ret_inj in Ei' as <-.
  destruct (devices_ready n r (prepared n r (Technology raw)) (prepared_storage n r _ St) eq_refl eq_refl Ht) as (d' & Ed' & V & _).
  rewrite Ed in Ed'. apply Ret_inj in Ed' as <-.
  destruct (devices_trend n r (prepared n r (Technology raw)) d (prepared_storage n r _ St) eq_refl eq_refl Ed) as [[On Op] Off].
  assert (F : forall l, charted l -> steps (-1) (sample l) -> falls (interpolate l)).
  { intros l Hc Hs i j Hij. apply (derived_steps _ _ Hc) in Hs.
    pose proof (steps_trans _ _ i j Hs). destruct (interpolate_charted l Hc) as [E _]. rewrite E in *. specialize (H ltac:(lia)). lra. }
  assert (G : forall l, charted l -> steps 1 (sample l) <-> rises (interpolate l)).
  { intros l Hc. destruct (interpolate_charted l Hc) as [E _]. rewrite (derived_steps _ _ Hc). split.
    - intros Hs i j Hij. pose proof (steps_trans _ _ i j Hs ltac:(lia)). lra.
    - intros Hr i Hi. pose proof (Hr i (S i) ltac:(lia)). lra. }
  rewrite (der_on_n _ _ D), (der_on_p _ _ D), (der_off_n _ _ D), (der_off_p _ _ D).
  split; [apply F; [apply V|done]|]. split; [apply F; [apply V|done]|].
  rewrite <- (G _ (dev_off_n _ V)), <- (G _ (dev_off_p _ V)). exact Off.
Qed.

Lemma currents_follow_temperature_witness :
  exists tech : t R, Initialize demo_input 45 HP (Technology (storage 0%R)) = Ret tech /\
    (elt (currentOnNmos tech) 100 <= elt (currentOnNmos tech) 37)%R /\ (elt (currentOffPmos tech) 3 <= elt (currentOffPmos tech) 64)%R.
Proof.
  destruct (Initialize_prepares demo_input ltac:(split; lazy; discriminate) ltac:(split; lazy; discriminate) 45 HP
    (Technology (storage 0%R)) (constructed_storage _ (storage_stores 0%R)) eq_refl eq_refl) as (d & tech & _ & E & _).
  exists tech. split; [exact E|].
  destruct (currents_follow_temperature demo_input (storage 0%R) 45 HP tech) as (F & _ & G);
    [split; lazy; discriminate|split; lazy; discriminate|apply storage_stores|exact E|].
  split; [apply F; lia|]. apply (proj2 G eq_refl); lia.
Defined.

(** ** What the blend loses *)

(** The junction capacitances measured at the advanced nodes. *)
Definition calibrated : list (Z * R) :=
  [(14, lit 12 (-3)); (10, lit 134 (-4)); (7, lit 137 (-4)); (5, lit 119 (-4)); (3, lit 128 (-4)); (2, lit 91 (-4)); (1, lit 102 (-4))].

Lemma flags_junction (x : t R) : capJunction (x <| neurosim_wiring := true |> <| initialized := true |>) = capJunction x.
Proof. reflexivity. Qed.

Lemma Initialize_junction ip n r this tech c : In (n, c) calibrated -> Initialize ip n r this = Ret tech -> capJunction tech = c.
Proof.
  intros Hc. unfold Initialize. cbv zeta. destruct (devices _ _ _) as [d|e]; [|discriminate]. cbn [outcome_bind].
  destruct (defined _) as [x|e]; [|discriminate]. cbn [outcome_bind]. intros <-%Ret_inj.
  rewrite flags_junction, capJunction_value.
  repeat (destruct Hc as [[= <- <-]|Hc]; [reflexivity|]). destruct Hc.
Qed.

Lemma bulk_junction_small (c x : R) : (0 < c)%R -> (1 <= x)%R -> (c / Rpower x (lit 5 (-1)) <= c)%R.
Proof.
  intros Hc Hx. assert (Hp : (1 <= Rpower x (lit 5 (-1)))%R).
  { rewrite <- (Rpower_O x) at 1 by lra. apply Rle_Rpower; [done|]. left. apply lit_pos. lia. }
  apply (Rmult_le_reg_r (Rpower x (lit 5 (-1)))); [lra|]. unfold Rdiv. rewrite Rmult_assoc, Rinv_l by lra. nra.
Qed.

(** What is measured at a node of 14 nm or less does not reach the circuits: the
    blend, which the program performs even at the node itself with weight 0,
    replaces it by the bulk formula, which is less than a ninth of it. *)
Theorem calibrated_junction_lost (ip : InputParameter.t R) raw raw' n r c :
  0 <= InputParameter.localTsvProjection ip <= 2 -> 0 <= InputParameter.globalTsvProjection ip <= 2 ->
  Storage raw -> Storage raw' -> supported n r = true -> In (n, c) calibrated ->
  exists a tech, Initialize ip n r (Technology raw') = Ret a /\ capJunction a = c /\
    initializeTechnology ip raw n r (Technology raw') = Ret tech /\ (capJunction tech < c / 9)%R.
Proof.
  intros Hl Hg S%constructed_storage S'%constructed_storage [Ht Hb]%supported_tables Hc.
  destruct (Initialize_prepares ip Hl Hg n r _ S' eq_refl Ht) as (d & a & _ & Ea & A & _).
  exists a. unfold initializeTechnology. rewrite Ea. cbn [outcome_bind].
  assert (Eb : exists high (alpha : R), blend n = Some (high, alpha) /\ high <> n).
  { repeat (destruct Hc as [[= <- _]|Hc]; [eexists _, _; split; [reflexivity|lia]|]). destruct Hc. }
  destruct Eb as (high & alpha & Eb & Hne). rewrite Eb in Hb |- *.
  destruct (Initialize_prepares ip Hl Hg high r _ S eq_refl Hb) as (d' & b & _ & -> & B & _). cbn [outcome_bind].
  eexists. split; [done|]. split; [by apply (Initialize_junction ip n r (Technology raw'))|]. split; [reflexivity|].
  pose proof (ready_nano _ _ A). pose proof (ready_nano _ _ B).
  assert (Bl : Blended alpha a b (InterpolateWith a b alpha)) by (apply InterpolateWith_blended; congruence).
  rewrite (bl_junction _ _ _ _ Bl).
  assert (Hv : (0 < vdd (InterpolateWith a b alpha))%R).
  { rewrite (bl_vdd _ _ _ _ Bl). pose proof (ready_voltage _ _ A). pose proof (ready_voltage _ _ B).
    destruct (blend_range n high alpha) as [Ha _]; [repeat (destruct Hc as [[= <- _]|Hc]; [lia|]); destruct Hc|done|].
    apply mix_pos; [done|lra..]. }
  apply (Rle_lt_trans _ (lit 1 (-3))).
  - apply bulk_junction_small; [apply lit_pos; lia|]. pose proof (lit_pos 9 (-1) ltac:(lia)) as H9.
    pose proof (Rdiv_lt_0_compat _ _ Hv H9). num_R. lra.
  - repeat (destruct Hc as [[= _ <-]|Hc]; [literals; lra|]). destruct Hc.
Qed.

Lemma calibrated_junction_lost_witness :
  exists a tech, Initialize demo_input 7 LSTP (Technology (storage 0%R)) = Ret a /\ capJunction a = lit 137 (-4) /\
    initializeTechnology demo_input (storage 0%R) 7 LSTP (Technology (storage 0%R)) = Ret tech /\
    (capJunction tech < lit 137 (-4) / 9)%R.
Proof.
  apply calibrated_junction_lost;
    [split; lazy; discriminate|split; lazy; discriminate|apply storage_stores|apply storage_stores|reflexivity|].
  right. right. left. reflexivity.
Defined.

(** The on current of a p transistor at 22 nm is half that of an n transistor ten
    degrees colder. *)
Theorem pmos_22_lags {F} `{Num F} (this d : t F) r k :
  length (currentOnNmos this) = 101%nat -> length (currentOnPmos this) = 101%nat ->
  In r [HP; LSTP; LOP] -> (k < 10)%nat -> devices 22 r this = Ret d ->
  elt (currentOnPmos d) (10 * S k) = (elt (currentOnNmos d) (10 * k) / #2)%num.
Proof.
  intros Hn Hp Hr Hk. cbn [devices Z.leb Z.compare Pos.compare Pos.compare_cont]. unfold roadmap4.
  assert (E : forall l : list F, elt (points (map (fun i => (elt l i / #2)%num) [0; 0; 10; 20; 30; 40; 50; 60; 70; 80; 90]%nat)
                (currentOnPmos this)) (10 * S k) = (elt l (10 * k) / #2)%num).
  { intros l. rewrite points_elt by (done || lia). do 10 (destruct k as [|k]; [reflexivity|]). lia. }
  destruct Hr as [<-|[<-|[<-|[]]]]; intros <-%Ret_inj; apply E.
Qed.

Lemma pmos_22_lags_witness :
  elt (currentOnPmos (HP_22 (storage 0%float))) 100 = (elt (currentOnNmos (HP_22 (storage 0%float))) 90 / #2)%num.
Proof. apply (pmos_22_lags (storage 0%float) _ HP 9); [reflexivity|reflexivity|by left|lia|reflexivity]. Defined.

(** ** Runs on binary64 *)

Definition run (x : float) (n : Z) (r : DeviceRoadmap) : Outcome (t float) :=
  initializeTechnology demo_input (storage x) n r (Technology (storage x)).

(** At 2 nm the blend takes the number of fins per sheet stack from the 3 nm
    table, where it is 0: the gate of any transistor has an infinite capacitance. *)
Theorem gaa_gate_infinite :
  (let? tech := run 0 2 LSTP in Ret (max_fin_per_GAA tech, CalculateGateCap (lit 1 (-8)) tech)) = Ret (0%float, infinity).
Proof. vm_compute. reflexivity. Qed.

(** Between 14 nm and 22 nm a transconductance is computed from the sheets of
    nodes that have none: it is not a number. *)
Theorem mid_node_transconductance_nan :
  (let? tech := run 0 16 LSTP in Ret (CalculateTransconductance (lit 1 (-8)) NMOS tech)) = Ret nan.
Proof. vm_compute. reflexivity. Qed.

(** At 22 nm and more no table sets the pitch of a monolithic via: its area is
    the square of what the storage held. *)
Theorem monolithic_via_unset :
  (let? tech := run 0 22 HP in Ret (areaTSV tech !! 2%nat)) = Ret (Some 0%float) /\
  (let? tech := run 3 22 HP in Ret (areaTSV tech !! 2%nat)) = Ret (Some 9%float).
Proof. split; vm_compute; reflexivity. Qed.

(** At 5 nm the height of the fins is not set, but the transconductance reads it. *)
Theorem fin_height_unset :
  (let? tech := run 0 5 LSTP in Ret (heightFin tech)) = Ret 0%float /\
  (let? tech := run 1 5 LSTP in Ret (heightFin tech)) = Ret 1%float.
Proof. split; vm_compute; reflexivity. Qed.

End TechCorrect.
