(* ===== verification/MatFacts.v ===== *)
(** * Facts about mats

    A program logic for the blocks of [Mat::Initialize] and the phases, the
    configuration every one of them keeps, and what a mat that was not rejected
    satisfies. *)
From S2P Require Import Prelude Numeric Types InputParameter Process Formula Circuit OutputDriver Decoders BinarySenseAmp Peripherals Tsv Aos Cell Wires MatData MatInit MatArea MatTiming MatPower.
From stdpp Require Import base list strings.
From Stdlib Require Import ZArith Lia.
Open Scope Z_scope.

(** [P] of the value of a computation that returns. *)
Definition returns {A : Type} (P : A -> Prop) (m : Outcome A) : Prop := match m with Ret a => P a | Exit _ => True end.

Lemma returns_bind {A B} (P : A -> Prop) (Q : B -> Prop) m (k : A -> Outcome B) :
  returns P m -> (forall a, P a -> returns Q (k a)) -> returns Q (let? x := m in k x).
Proof. destruct m; cbn; auto. Qed.

Lemma returns_any {A} (m : Outcome A) : returns (fun _ => True) m.
Proof. by destruct m. Qed.

Lemma returns_weaken {A} (P Q : A -> Prop) m : returns P m -> (forall a, P a -> Q a) -> returns Q m.
Proof. destruct m; cbn; auto. Qed.

Module MatFacts.
Import Mat.

(** [P] of the value of a block that goes on, [Q] of the mat of one that returns. *)
Definition flows {F A : Type} (P : A -> Prop) (Q : t F -> Prop) (f : Flow F A) : Prop :=
  returns (fun r => match r with inl a => P a | inr m => Q m end) f.

Section Logic.
Context {F : Type}.

Lemma flows_bind {A B} (P : A -> Prop) (P' : B -> Prop) (Q : t F -> Prop) f (k : A -> Flow F B) :
  flows P Q f -> (forall a, P a -> flows P' Q (k a)) -> flows P' Q (let> x := f in k x).
Proof. destruct f as [[a|m]|e]; cbn; auto. Qed.

Lemma flows_lift {A} (P : A -> Prop) (Q : t F -> Prop) m : returns P m -> flows P Q (lift m).
Proof. by destruct m. Qed.

Lemma flows_next {A} (P : A -> Prop) (Q : t F -> Prop) a : P a -> flows P Q (next a).
Proof. done. Qed.

Lemma flows_weaken {A} (P P' : A -> Prop) (Q Q' : t F -> Prop) f :
  flows P Q f -> (forall a, P a -> P' a) -> (forall m, Q m -> Q' m) -> flows P' Q' f.
Proof. destruct f as [[a|m]|e]; cbn; auto. Qed.

Lemma lift_seq {A B} (m : Outcome A) (k : A -> Flow F B) : (let> x := lift m in k x) = (let? x := m in k x).
Proof. by destruct m. Qed.

Lemma finish_returns (P : t F -> Prop) f : flows P P f -> returns P (finish f).
Proof. by destruct f as [[m|m]|e]. Qed.

(** The members that say what the mat is. *)
Definition config (m : t F) : Z * Z * Z * Z * Z * Z * bool :=
  (numRow m, numColumn m, muxSenseAmp m, muxOutputLev1 m, muxOutputLev2 m, num3DLevels m, internalSenseAmp m).

(** A block keeps the configuration; if it returns, the mat is invalid. *)
Definition block (f : t F -> Flow F (t F)) : Prop := forall m,
  flows (fun m' => config m' = config m) (fun m' => config m' = config m /\ invalid m' = true) (f m).
Definition keeps (f : t F -> Outcome (t F)) : Prop := forall m, returns (fun m' => config m' = config m) (f m).

Lemma keeps_block f : keeps f -> block (fun m => lift (f m)).
Proof. intros Hf m. apply flows_lift, Hf. Qed.

End Logic.

(** Evaluate a block to its results: computations of components may return
    anything. *)
Ltac results :=
  unfold lift, flow_bind, next, reject, leave; cbn [outcome_bind];
  repeat first
    [ done
    | progress cbn [outcome_bind]
    | match goal with
      | |- context [outcome_bind ?x _] =>
          lazymatch x with
          | context [outcome_bind _ _] => fail
          | context [if _ then _ else _] => fail
          | _ => destruct x as [?|?]
          end
      | |- context [let '(_, _) := ?x in _] => destruct x
      | |- context [if ?b then _ else _] => destruct b
      end
    | progress cbn ].

Section Blocks.
Context {F : Type} `{Num F} `{Extended F}.
Context (tech devtech : Process.t F) (ip : InputParameter.t F) (localWire : Wires.Wire.t F) (cell : Cell.t F).

Lemma counts_block : block (MatInit.counts cell).
Proof. intros m. unfold MatInit.counts. results. Qed.

Lemma legal_block m : flows (fun _ => True) (fun m' => config m' = config m /\ invalid m' = true) (MatInit.legal ip cell m).
Proof. unfold MatInit.legal. results. Qed.

Lemma via_keeps : keeps (MatInit.via tech ip).
Proof. intros m. unfold MatInit.via. results. Qed.

Lemma currents_block m :
  flows (fun _ => True) (fun m' => config m' = config m /\ invalid m' = true) (MatInit.currents tech ip cell m).
Proof. unfold MatInit.currents, MatInit.crosspoint. results. Qed.

Lemma mux_width_block c m :
  flows (fun _ => True) (fun m' => config m' = config m /\ invalid m' = true) (MatInit.mux_width tech ip c m).
Proof. unfold MatInit.mux_width. results. Qed.

Lemma sensing_block : block (MatInit.sensing cell).
Proof. intros m. unfold MatInit.sensing. results. Qed.

Lemma lengths_keeps : keeps (MatInit.lengths tech devtech ip cell).
Proof. intros m. unfold MatInit.lengths. results. Qed.

Lemma loads_keeps w m : config (fst (fst (MatInit.loads tech localWire cell w m))) = config m.
Proof. done. Qed.

Lemma read_levels_block adjust : block (MatInit.read_levels tech cell adjust).
Proof. intros m. unfold MatInit.read_levels. results. Qed.

Lemma access_block : block (MatInit.access tech devtech ip cell).
Proof.
  intros m. unfold MatInit.access. repeat case_match.
  - apply flows_lift. unfold MatInit.access_SRAM. results.
  - apply flows_lift. unfold MatInit.access_DRAM. results.
  - unfold MatInit.access_gcDRAM. apply (flows_bind (fun m' => config m' = config m)); [results|].
    intros m' E. case_match. rewrite <- E. eapply flows_weaken; [apply read_levels_block| |]; cbn; by intros ?.
  - unfold MatInit.access_FBRAM. eapply flows_weaken; [apply read_levels_block| |]; cbn; by intros ?.
  - unfold MatInit.access_resistive. apply (flows_bind (fun m' => config m' = config m)); [results|].
    intros m' E. rewrite <- E. eapply flows_weaken; [apply read_levels_block| |]; cbn; by intros ?.
  - apply flows_lift. unfold MatInit.access_NAND. results.
  - results.
Qed.

Lemma charge_sharing_block : block (MatInit.charge_sharing devtech cell).
Proof. intros m. unfold MatInit.charge_sharing. results. Qed.

Lemma rows_block a b : block (MatInit.rows tech ip localWire cell a b).
Proof. intros m. unfold MatInit.rows. results. Qed.

Lemma gain_cell_block a : block (MatInit.gain_cell tech ip localWire cell a).
Proof. intros m. unfold MatInit.gain_cell. results. Qed.

Lemma mux_decoders_keeps a : keeps (MatInit.mux_decoders tech ip a).
Proof. intros m. unfold MatInit.mux_decoders. results. Qed.

Lemma output_muxes_keeps a : keeps (MatInit.output_muxes tech ip cell a).
Proof. intros m. unfold MatInit.output_muxes. results. Qed.

Lemma column_sensing_keeps a b : keeps (MatInit.column_sensing tech ip cell a b).
Proof. intros m. unfold MatInit.column_sensing. results. Qed.

Lemma sections_keeps a b m : returns (fun '(m', _, _) => config m' = config m) (MatInit.sections tech ip a b m).
Proof. unfold MatInit.sections. results. Qed.

Lemma repeater_keeps n memo m :
  returns (fun '(m', _) => config m' = config m) (MatInit.CalculateRepeater tech ip n memo m).
Proof. unfold MatInit.CalculateRepeater. results. Qed.

(** Blocks in sequence. *)
Lemma block_bind {A} (m0 m : t F) (P : A -> Prop) f k :
  block f -> config m = config m0 ->
  (forall m', config m' = config m0 ->
     flows P (fun m' => config m' = config m0 /\ invalid m' = true) (k m')) ->
  flows P (fun m' => config m' = config m0 /\ invalid m' = true) (let> m' := f m in k m').
Proof.
  intros Hf E Hk. apply (flows_bind (fun m' => config m' = config m0)); [|exact Hk].
  eapply flows_weaken; [apply Hf| |]; cbn; [congruence|]. intros m' [Em Hi]. split; congruence.
Qed.

Lemma keeps_bind {A} (m0 m : t F) (P : A -> Prop) (f : t F -> Outcome (t F)) (k : t F -> Flow F A) :
  keeps f -> config m = config m0 ->
  (forall m', config m' = config m0 ->
     flows P (fun m' => config m' = config m0 /\ invalid m' = true) (k m')) ->
  flows P (fun m' => config m' = config m0 /\ invalid m' = true) (let> m' := lift (f m) in k m').
Proof. intros Hf. apply (block_bind m0 m P (fun m => lift (f m))), keeps_block, Hf. Qed.

Lemma front_flows m0 :
  flows (fun '(m, _, _, _, _) => config m = config m0) (fun m => config m = config m0 /\ invalid m = true)
    (MatInit.front tech devtech ip localWire cell m0).
Proof.
  unfold MatInit.front. apply block_bind; [apply counts_block|done|]. intros m E.
  apply (flows_bind (fun _ => True)); [rewrite <- E; apply legal_block|]. intros _ _.
  apply keeps_bind; [apply via_keeps|done|]. intros m1 E1.
  apply (flows_bind (fun _ => True)); [rewrite <- E1; apply currents_block|]. intros [w b] _.
  apply (flows_bind (fun _ => True)); [rewrite <- E1; apply mux_width_block|]. intros width _.
  apply block_bind; [apply sensing_block|done|]. intros m2 E2.
  apply keeps_bind; [apply lengths_keeps|done|]. intros m3 E3.
  pose proof (loads_keeps width m3) as E4. rewrite E3 in E4.
  destruct (MatInit.loads _ _ _ width m3) as [[m4 r] x]. cbn in E4.
  apply block_bind; [apply access_block|done|]. intros m5 E5.
  apply block_bind; [apply charge_sharing_block|done|]. intros m6 E6. exact E6.
Qed.

(** The components: the configuration is kept, and a mat that returns early is
    invalid. *)
Lemma components_block d a b c e : block (MatInit.components tech ip localWire cell d a b c e).
Proof.
  intros m0. unfold MatInit.components.
  eapply flows_bind; [apply flows_lift, sections_keeps|]. intros [[m r] x] E.
  apply block_bind; [apply rows_block|done|]. intros m1 E1.
  apply keeps_bind; [apply mux_decoders_keeps|done|]. intros m2 E2.
  apply keeps_bind; [apply output_muxes_keeps|done|]. intros m3 E3.
  apply keeps_bind; [apply column_sensing_keeps|done|]. intros m4 E4.
  apply block_bind; [apply gain_cell_block|done|]. intros m5 E5. rewrite <- E5. results.
Qed.

(** A mat has the configuration it is given. *)
Lemma Initialize_config r c ms sp mx ia l1 l2 lv nl sd memo m :
  returns (fun '(m', _) => config m' = (r, c, mx, l1, l2, nl, ia))
    (MatInit.Initialize tech devtech ip localWire cell r c ms sp mx ia l1 l2 lv nl sd memo m).
Proof.
  unfold MatInit.Initialize. set (m0 := MatInit.arguments _ _ _ _ _ _ _ _ _ _ _ _).
  change (r, c, mx, l1, l2, nl, ia) with (config m0).
  pose proof (front_flows m0) as Hf. destruct (MatInit.front _ _ _ _ _ m0) as [[[[[[m1 w] b] rl] cl]|m1]|e]; cbn in *.
  - pose proof (repeater_keeps (wrap32 (numColumn m1)) memo m1) as Hr.
    destruct (MatInit.CalculateRepeater _ _ _ _ _) as [[m2 memo2]|e2]; cbn in *; [|done].
    pose proof (components_block sd w b rl cl m2) as Hc.
    destruct (MatInit.components _ _ _ _ _ _ _ _ _ m2) as [[m3|m3]|e3]; cbn in *; [congruence| |done].
    destruct Hc. congruence.
  - by destruct Hf.
  - done.
Qed.

(** *** The phases *)

(** What the phases after [Initialize] leave alone. *)
Definition standing (m : t F) := (config m, initialized m).
Definition kept (m0 m : t F) : Prop := standing m = standing m0.

Lemma kept_refl m : kept m m.
Proof. done. Qed.

(** A mat with the same configuration as one that kept it. *)
Lemma kept_config m0 m : kept m0 m -> config m = config m0.
Proof. unfold kept, standing. congruence. Qed.

Lemma kept_step m0 m m' : kept m0 m -> standing m' = standing m -> kept m0 m'.
Proof. unfold kept. congruence. Qed.

(** Walk along a computation: name its intermediate values, forget them but for
    the configuration of mats. *)
Ltac conf := first [ unfold kept; reflexivity | match goal with E : kept _ ?m |- _ => apply (kept_step _ m _ E); reflexivity end ].
Create HintDb mat_keeps.
#[local] Hint Extern 1 (kept _ _) => conf : mat_keeps.
Ltac walk m0 := repeat
  lazymatch goal with
  | |- returns ?P (let x := ?v in @?e x) =>
      let y := fresh x in pose (y := v); change (returns P (e y)); cbv beta;
      try (assert (kept m0 y) by (subst y; conf)); clearbody y
  | |- returns _ (outcome_bind ?x _) =>
      first [ eapply returns_bind; [solve [eauto with mat_keeps nocore]|cbv beta; intros ? ?]
            | apply (returns_bind (fun _ => True)); [apply returns_any|intros ? _] ]
  | |- returns _ (let '(_, _) := ?x in _) => destruct x
  | |- returns _ (if ?b then _ else _) => destruct b
  | |- returns _ (match ?x with Some _ => _ | None => _ end) => destruct x
  | |- returns _ (match ?x with inl _ => _ | inr _ => _ end) => destruct x
  | |- returns _ (Exit _) => exact I
  | |- returns _ (Ret _) => cbn [returns]; try conf
  end.

(** The same along a pure computation. *)
Ltac pace := repeat
  lazymatch goal with
  | |- kept ?m0 (let x := ?v in @?e x) =>
      let y := fresh x in pose (y := v); change (kept m0 (e y)); cbv beta;
      try (assert (kept m0 y) by (subst y; first [conf | solve [eauto with mat_keeps nocore]])); clearbody y
  | |- kept _ (let '(_, _) := ?x in _) => destruct x
  | |- kept _ (if ?b then _ else _) => destruct b
  | |- kept _ (match ?x with Some _ => _ | None => _ end) => destruct x
  | |- kept _ _ => first [conf | solve [eauto with mat_keeps nocore]]
  end.

Lemma sense_height_keeps w m0 m : kept m0 m -> returns (fun '(m', _) => kept m0 m') (MatArea.sense_height tech w m).
Proof. intros E. unfold MatArea.sense_height. walk m0. Qed.

Lemma gain_area_keeps a b w h m0 m :
  kept m0 m -> returns (fun '(m', _, _) => kept m0 m') (MatArea.gain_area tech cell a b w h m).
Proof. intros E. unfold MatArea.gain_area. walk m0. Qed.
#[local] Hint Resolve sense_height_keeps gain_area_keeps : mat_keeps.

Lemma planar_keeps m0 m : kept m0 m -> returns (kept m0) (MatArea.planar tech cell m).
Proof. intros E. unfold MatArea.planar. walk m0. Qed.
#[local] Hint Resolve planar_keeps : mat_keeps.

(** Blocks of the folded layout. *)
Abbreviation both m0 := (fun r : t F + t F => match r with inl m => kept m0 m | inr m => kept m0 m end).

Lemma vias_keeps m0 m : kept m0 m -> returns (both m0) (MatArea.vias ip cell m).
Proof. intros E. unfold MatArea.vias, MatArea.unfit, next. walk m0. Qed.

Lemma tier_areas_keeps s m0 m : kept m0 m -> returns (both m0) (MatArea.tier_areas s m).
Proof. intros E. unfold MatArea.tier_areas, MatArea.unfit, next. walk m0. Qed.

Lemma reload_keeps x m0 m : kept m0 m -> kept m0 (MatArea.reload cell x m).
Proof. intros E. apply (kept_step _ m _ E). unfold MatArea.reload. by destruct (MatInit.kind cell gcDRAM). Qed.

Lemma lengthen_keeps c b w m0 m : kept m0 m -> kept m0 (MatArea.lengthen cell c b w m).
Proof. intros E. apply (kept_step _ m _ E). unfold MatArea.lengthen. by destruct (MatInit.kind cell gcDRAM). Qed.

Lemma folded_loads_keeps m0 m : kept m0 m -> returns (both m0) (MatArea.folded_loads devtech localWire cell m).
Proof.
  intros E. unfold MatArea.folded_loads, MatArea.unfit, next. destruct (MatArea.deltas localWire m) as [[c b] w].
  destruct (_ || _ : bool); [cbn; conf|]. pose proof (reload_keeps c m0 _ (lengthen_keeps c b w m0 m E)) as E1.
  generalize dependent (MatArea.reload cell c (MatArea.lengthen cell c b w m)). intros m1 E1. walk m0.
Qed.
#[local] Hint Resolve vias_keeps tier_areas_keeps folded_loads_keeps : mat_keeps.

Lemma monolithic_keeps m0 m : kept m0 m -> returns (both m0) (MatArea.monolithic tech devtech ip localWire cell m).
Proof.
  intros E. unfold MatArea.monolithic, MatArea.unfit. rewrite lift_seq. walk m0. unfold flow_bind at 1. walk m0.
  rewrite lift_seq. walk m0. unfold flow_bind. walk m0. by apply folded_loads_keeps.
Qed.

Lemma finish_kept m0 f : returns (both m0) f -> returns (kept m0) (finish f).
Proof. by destruct f as [[m|m]|e]. Qed.

Lemma CalculateArea_keeps m : returns (kept m) (MatArea.CalculateArea tech devtech ip localWire cell m).
Proof.
  unfold MatArea.CalculateArea. walk m. apply finish_kept. by apply monolithic_keeps.
Qed.

(** *** Latency *)

Lemma sense_chain_keeps a b m0 m : kept m0 m -> kept m0 (MatTiming.sense_chain tech a b m).
Proof. intros E. apply (kept_step _ m _ E). reflexivity. Qed.

#[local] Hint Resolve sense_chain_keeps : mat_keeps.

Lemma mux_and_sense_keeps a m0 m : kept m0 m -> kept m0 (MatTiming.mux_and_sense tech a m).
Proof. intros E. unfold MatTiming.mux_and_sense. pace. Qed.

Lemma peripheral_latencies_keeps x m0 m :
  kept m0 m -> returns (fun '(m', _, _) => kept m0 m') (MatTiming.peripherals tech ip x m).
Proof. intros E. unfold MatTiming.peripherals. walk m0. Qed.

Lemma latency_SRAM_keeps x m0 m : kept m0 m -> returns (kept m0) (MatTiming.latency_SRAM tech ip cell x m).
Proof.
  intros E. unfold MatTiming.latency_SRAM. walk m0.
  match goal with |- kept _ (MatTiming.set_latency _ _ ?m1) => assert (kept m0 m1) by (apply mux_and_sense_keeps; conf) end. conf.
Qed.

Lemma dram_results_keeps x y m0 m : kept m0 m -> kept m0 (MatTiming.dram_results x y m).
Proof. intros E. unfold MatTiming.dram_results. pace. Qed.

Lemma settle_keeps s m0 m : kept m0 m -> kept m0 (MatTiming.settle s m).
Proof. intros E. apply (kept_step _ m _ E). unfold MatTiming.settle. by destruct (ExactSettlingDelay _ _). Qed.

Lemma dram_sense_keeps x m0 m : kept m0 m -> kept m0 (MatTiming.dram_sense tech x m).
Proof. intros E. by apply (kept_step _ m _ E). Qed.

#[local] Hint Resolve dram_results_keeps settle_keeps dram_sense_keeps : mat_keeps.

Lemma latency_DRAM_keeps x y m0 m : kept m0 m -> kept m0 (MatTiming.latency_DRAM tech ip cell x y m).
Proof. intros E. unfold MatTiming.latency_DRAM. pace. Qed.

Lemma gc_results_keeps x y m0 m : kept m0 m -> kept m0 (MatTiming.gc_results x y m).
Proof. intros E. unfold MatTiming.gc_results. pace. Qed.

#[local] Hint Resolve gc_results_keeps : mat_keeps.

Lemma latency_gcDRAM_keeps x m0 m : kept m0 m -> returns (kept m0) (MatTiming.latency_gcDRAM tech ip x m).
Proof.
  intros E. unfold MatTiming.latency_gcDRAM. walk m0. pace.
Qed.

Lemma resistive_bitline_keeps m0 m : kept m0 m -> kept m0 (fst (MatTiming.resistive_bitline cell m)).
Proof.
  intros E. unfold MatTiming.resistive_bitline. destruct (negb _).
  - cbv zeta. destruct (Formula.horowitz _ _ _). conf.
  - cbv zeta. destruct (_ =? _)%num; conf.
Qed.

Lemma resistive_write_keeps m0 m : kept m0 m -> kept m0 (MatTiming.resistive_write ip cell m).
Proof. intros E. unfold MatTiming.resistive_write. pace. Qed.

Lemma latency_resistive_keeps x m0 m : kept m0 m -> kept m0 (MatTiming.latency_resistive tech ip cell x m).
Proof.
  intros E. unfold MatTiming.latency_resistive. pose proof (resistive_bitline_keeps m0 m E) as E1.
  destruct (MatTiming.resistive_bitline cell m) as [m1 r]. cbn in E1. apply resistive_write_keeps.
  pose proof (mux_and_sense_keeps r m0 m1 E1) as E2. set (m2 := MatTiming.mux_and_sense tech r m1) in *. clearbody m2. conf.
Qed.

Lemma latency_NAND_keeps x m0 m : kept m0 m -> returns (kept m0) (MatTiming.latency_NAND tech ip cell x m).
Proof.
  intros E. unfold MatTiming.latency_NAND. walk m0.
  match goal with |- kept _ (MatTiming.set_latency _ _ (MatTiming.set_switch _ _ ?m1)) =>
    assert (kept m0 m1) by (apply mux_and_sense_keeps; conf) end. conf.
Qed.
#[local] Hint Resolve peripheral_latencies_keeps : mat_keeps.

Lemma CalculateLatency_keeps x m : returns (kept m) (MatTiming.CalculateLatency tech ip cell x m).
Proof.
  unfold MatTiming.CalculateLatency. walk m; try by auto using latency_SRAM_keeps, latency_gcDRAM_keeps, latency_NAND_keeps.
  - by apply latency_DRAM_keeps.
  - by apply latency_resistive_keeps.
Qed.

(** *** Power *)

Lemma set_fu_keeps f m0 m : kept m0 m -> kept m0 (MatPower.set_fu f m).
Proof. intros E. by apply (kept_step _ m _ E). Qed.
#[local] Hint Resolve set_fu_keeps : mat_keeps.

Lemma peripheral_power_keeps m0 m : kept m0 m -> returns (kept m0) (MatPower.peripherals tech ip cell m).
Proof. intros E. unfold MatPower.peripherals. walk m0. Qed.

Lemma power_DRAM_keeps m0 m : kept m0 m -> kept m0 (MatPower.power_DRAM tech devtech cell m).
Proof. intros E. unfold MatPower.power_DRAM. pace. Qed.

Lemma power_gcDRAM_keeps m0 m : kept m0 m -> returns (kept m0) (MatPower.power_gcDRAM tech devtech ip cell m).
Proof. intros E. unfold MatPower.power_gcDRAM. walk m0. pace. Qed.

Lemma resistive_read_keeps m0 m : kept m0 m -> kept m0 (MatPower.resistive_read cell m).
Proof. intros E. unfold MatPower.resistive_read. pace. Qed.

Lemma write_energy_keeps a b m0 m : kept m0 m -> kept m0 (MatPower.resistive_write ip cell a b m).
Proof. intros E. unfold MatPower.resistive_write. cbv zeta. repeat case_match; auto using set_fu_keeps. Qed.
#[local] Hint Resolve peripheral_power_keeps power_DRAM_keeps power_gcDRAM_keeps resistive_read_keeps write_energy_keeps : mat_keeps.

Lemma power_resistive_keeps m0 m : kept m0 m -> kept m0 (fst (MatPower.power_resistive tech ip cell m)).
Proof. intros E. unfold MatPower.power_resistive. cbv zeta. cbn [fst]. auto 6 using set_fu_keeps, write_energy_keeps, resistive_read_keeps. Qed.

Lemma power_SRAM_keeps m0 m : kept m0 m -> returns (kept m0) (MatPower.power_SRAM tech ip cell m).
Proof. intros E. unfold MatPower.power_SRAM. walk m0. Qed.

Lemma power_NAND_keeps m0 m : kept m0 m -> returns (kept m0) (MatPower.power_NAND tech ip cell m).
Proof. intros E. unfold MatPower.power_NAND. walk m0. Qed.
#[local] Hint Resolve power_SRAM_keeps power_NAND_keeps : mat_keeps.

Lemma cells_keeps m0 m : kept m0 m -> returns (fun '(m', _) => kept m0 m') (MatPower.cells tech devtech ip cell m).
Proof.
  intros E. unfold MatPower.cells.
  destruct (MatInit.kind cell SRAM); [walk m0|]. destruct (MatInit.dram cell); [by apply power_DRAM_keeps|].
  destruct (MatInit.kind cell gcDRAM); [walk m0|]. destruct (_ || _ : bool).
  { pose proof (power_resistive_keeps m0 m E). by destruct (MatPower.power_resistive tech ip cell m). }
  walk m0.
Qed.

Lemma per_way_keeps m0 m : kept m0 m -> kept m0 (MatPower.per_way ip m).
Proof. intros E. unfold MatPower.per_way. pace. Qed.

Lemma access_energy_keeps m0 m : kept m0 m -> kept m0 (MatPower.access_energy cell m).
Proof. intros E. unfold MatPower.access_energy. pace. Qed.

Lemma refresh_energy_keeps m0 m : kept m0 m -> kept m0 (MatPower.refresh_energy cell m).
Proof. intros E. unfold MatPower.refresh_energy. pace. Qed.

Lemma switching_energy_keeps m0 m : kept m0 m -> kept m0 (MatPower.switching_energy cell m).
Proof. intros E. unfold MatPower.switching_energy. pace. Qed.

Lemma checked_keeps m0 m : kept m0 m -> kept m0 (MatPower.checked cell m).
Proof. intros E. unfold MatPower.checked, MatPower.fail. pace. Qed.
#[local] Hint Resolve cells_keeps : mat_keeps.

Lemma CalculatePower_keeps m : returns (fun '(m', _) => kept m m') (MatPower.CalculatePower tech devtech ip cell m).
Proof.
  unfold MatPower.CalculatePower. walk m.
  auto 6 using checked_keeps, switching_energy_keeps, refresh_energy_keeps, access_energy_keeps, per_way_keeps.
Qed.
End Blocks.
End MatFacts.
