(* ===== verification/MatLegal.v ===== *)
(** * Accepted mats

    What holds of a mat that [Mat::Initialize] did not mark invalid: the
    configuration is one the rules allow, the components are valid, and a DRAM
    develops the voltage its sense amplifiers need. *)
From S2P Require Import Prelude Numeric Types InputParameter Process Formula Circuit OutputDriver Decoders BinarySenseAmp Peripherals Tsv Aos Cell Wires MatData MatInit MatTiming MatPower MatFacts.
From stdpp Require Import base list strings.
From Stdlib Require Import ZArith Lia.
Open Scope Z_scope.

Module MatLegal.
Import Mat MatFacts.

(** The result of a component's operation, of which nothing is needed. *)
Tactic Notation "component" "as" ident(x) := apply (returns_bind (fun _ => True)); [apply returns_any|intros x _].
Tactic Notation "component" := let x := fresh in component as x.

Section Accepted.
Context {F : Type} `{Num F}.
Context (tech devtech : Process.t F) (ip : InputParameter.t F) (localWire : Wires.Wire.t F) (cell : Cell.t F).

Abbreviation rejected := (fun m : t F => invalid m = true).

(** The rules a configuration is checked against before anything is built. *)
Record Allowed (m : t F) : Prop := {
  rows_positive : 0 < numRow m;
  columns_positive : 0 < numColumn m;
  muxes_positive : 0 < muxSenseAmp m /\ 0 < muxOutputLev1 m /\ 0 < muxOutputLev2 m;
  levels_positive : 0 < num3DLevels m;
  finished_cell : Cell.memCellType cell <> MLCNAND;
  ways_fit : InputParameter.designTarget ip = cache -> InputParameter.cacheAccessMode ip <> sequential_access_mode ->
    InputParameter.associativity ip <= numColumn m;
  private_bitlines : MatInit.dram cell || MatInit.kind cell gcDRAM = true -> muxSenseAmp m = 1;
  room_for_sensing : MatInit.kind cell SLCNAND || MatInit.kind cell memristor || MatInit.kind cell FBRAM = true ->
    internalSenseAmp m = true -> 2 <= muxSenseAmp m
}.

Lemma Allowed_config m m' : config m' = config m -> Allowed m -> Allowed m'.
Proof.
  intros E A. unfold config in E. injection E as E1 E2 E3 E4 E5 E6 E7. destruct A.
  split; rewrite ?E1, ?E2, ?E3, ?E4, ?E5, ?E6, ?E7; assumption.
Qed.

Lemma counts_legal m : flows (fun m' => config m' = config m /\ 0 < numRow m /\ 0 < numColumn m /\
    (0 < muxSenseAmp m /\ 0 < muxOutputLev1 m /\ 0 < muxOutputLev2 m) /\ 0 < num3DLevels m /\
    Cell.memCellType cell <> MLCNAND) rejected (MatInit.counts cell m).
Proof.
  unfold MatInit.counts. destruct (_ || _ : bool) eqn:E; [done|].
  rewrite !orb_false_iff, !Z.leb_gt in E. destruct (MatInit.kind cell MLCNAND) eqn:Ek; [done|].
  unfold MatInit.kind in Ek. apply bool_decide_eq_false in Ek. apply flows_next.
  split; [done|]. tauto.
Qed.

Lemma legal_rules m : flows (fun _ =>
    (InputParameter.designTarget ip = cache -> InputParameter.cacheAccessMode ip <> sequential_access_mode ->
       InputParameter.associativity ip <= numColumn m) /\
    (MatInit.dram cell || MatInit.kind cell gcDRAM = true -> muxSenseAmp m <= 1) /\
    (MatInit.kind cell SLCNAND || MatInit.kind cell memristor || MatInit.kind cell FBRAM = true ->
       internalSenseAmp m = true -> 2 <= muxSenseAmp m)) rejected (MatInit.legal ip cell m).
Proof.
  unfold MatInit.legal. destruct (bool_decide (InputParameter.designTarget ip = cache) && _ && _) eqn:E1; [done|].
  destruct ((MatInit.dram cell || _) && _) eqn:E2; [done|].
  apply (flows_bind (fun _ => True)); [results|]. intros short _. destruct short; [done|].
  destruct ((_ || _ || _) && internalSenseAmp m && _) eqn:E3; [done|]. destruct (MatInit.kind cell FBRAM && (_ <? _)%num); [done|].
  apply flows_next. split_and!.
  - intros Hc Hs. rewrite bool_decide_eq_true_2, bool_decide_eq_false_2 in E1 by done. cbn in E1. by apply Z.ltb_ge in E1.
  - intros Hd. rewrite Hd in E2. by apply Z.ltb_ge in E2.
  - intros Hk Hi. rewrite Hk, Hi in E3. by apply Z.ltb_ge in E3.
Qed.

(** A DRAM senses within the mat. *)
Lemma sensing_internal m : flows (fun m' => config m' = config m /\
    (MatInit.dram cell || MatInit.kind cell gcDRAM = true -> internalSenseAmp m = true)) rejected (MatInit.sensing cell m).
Proof. unfold MatInit.sensing. destruct (internalSenseAmp m) eqn:E; [done|]. by destruct (_ || _ : bool). Qed.

(** The voltage that charge sharing leaves is the one the amplifiers get. *)
Definition Sensed (m : t F) : Prop := MatInit.dram cell = true ->
  senseVoltage m = MatInit.shared_voltage devtech cell m /\ IsFinitePositive (senseVoltage m) = true /\
  (senseVoltage m <? Cell.minSenseVoltage cell)%num = false.

Lemma charge_sharing_sensed m :
  flows (fun m' => config m' = config m /\ Sensed m') rejected (MatInit.charge_sharing devtech cell m).
Proof.
  unfold MatInit.charge_sharing, Sensed. destruct (MatInit.dram cell); [|done]. destruct (_ || _ : bool); [done|].
  cbv zeta. destruct (negb _ || _) eqn:E; [done|]. rewrite orb_false_iff, negb_false_iff in E. by destruct E.
Qed.

(** What the blocks before the repeaters establish. *)
Definition Fronted (m : t F) : Prop :=
  Allowed m /\ Sensed m /\ (MatInit.dram cell || MatInit.kind cell gcDRAM = true -> internalSenseAmp m = true).

Lemma front_accepted m0 :
  flows (fun '(m, _, _, _, _) => Fronted m) rejected (MatInit.front tech devtech ip localWire cell m0).
Proof.
  unfold MatInit.front. eapply flows_bind; [apply counts_legal|]. intros m (E & Hr & Hc & Hm & Hl & Hf).
  eapply flows_bind; [apply legal_rules|]. cbv beta. intros _ (Hw & Hd & Hs).
  assert (A : Allowed m).
  { unfold config in E. injection E as E1 E2 E3 E4 E5 E6 E7. rewrite <- E1 in Hr. rewrite <- E2 in Hc.
    rewrite <- E3, <- E4, <- E5 in Hm. rewrite <- E6 in Hl. split; try done. intros X. specialize (Hd X). lia. }
  clear E Hr Hc Hm Hl Hf Hw Hd Hs. apply (flows_bind (fun m' => config m' = config m)); [apply flows_lift, via_keeps|].
  intros m1 E1. apply (Allowed_config m m1 E1) in A. clear E1.
  apply (flows_bind (fun _ => True)); [eapply flows_weaken; [apply currents_block|done|]; by intros ? []|]. intros [w b] _.
  apply (flows_bind (fun _ => True)); [eapply flows_weaken; [apply mux_width_block|done|]; by intros ? []|]. intros wd _.
  eapply flows_bind; [apply sensing_internal|]. intros m2 [E2 Hi].
  assert (Hi2 : MatInit.dram cell || MatInit.kind cell gcDRAM = true -> internalSenseAmp m2 = true).
  { unfold config in E2. injection E2 as _ _ _ _ _ _ E2. by rewrite E2. }
  apply (Allowed_config m1 m2 E2) in A. clear E2 Hi m m1.
  apply (flows_bind (fun m' => config m' = config m2)); [apply flows_lift, lengths_keeps|]. intros m3 E3.
  pose proof (loads_keeps tech localWire cell wd m3) as E4. rewrite E3 in E4.
  destruct (MatInit.loads _ _ _ wd m3) as [[m4 r] x]. cbn in E4.
  eapply flows_bind; [eapply flows_weaken; [apply access_block|intros m' X; exact X|by intros ? []]|]. cbv beta. intros m5 E5.
  eapply flows_bind; [apply charge_sharing_sensed|]. intros m6 [E6 S]. apply flows_next.
  assert (E : config m6 = config m2) by congruence. split; [by apply (Allowed_config m2)|]. split; [done|].
  unfold config in E. injection E as _ _ _ _ _ _ E. by rewrite E.
Qed.

(** *** Components *)

(** The members that the components do not change. *)
Definition frame (m : t F) := (config m, senseVoltage m, capBitline m).

Lemma row_RC_invalid x : returns (fun y => RowDecoder.invalid y = RowDecoder.invalid x) (RowDecoder.CalculateRC tech x).
Proof. unfold RowDecoder.CalculateRC. results. Qed.

Lemma sense_RC_invalid x : returns (fun y => SenseAmp.invalid y = SenseAmp.invalid x) (SenseAmp.CalculateRC tech x).
Proof.
  unfold SenseAmp.CalculateRC. do 3 (case_match; [done|]).
  do 4 (component). done.
Qed.

Lemma repeater_frame n memo m : returns (fun '(m', _) => frame m' = frame m) (MatInit.CalculateRepeater tech ip n memo m).
Proof. unfold MatInit.CalculateRepeater. results. Qed.

Lemma sections_frame a b m : returns (fun '(m', _, _) => frame m' = frame m) (MatInit.sections tech ip a b m).
Proof. unfold MatInit.sections. results. Qed.

Lemma rows_valid a b m : flows (fun m' => frame m' = frame m /\ numColumn m <= int_max /\
  RowDecoder.invalid (rowDecoder m') = false) rejected (MatInit.rows tech ip localWire cell a b m).
Proof.
  unfold MatInit.rows. cbv zeta. destruct (_ || _ : bool) eqn:E; [done|]. rewrite !orb_false_iff, Z.ltb_ge in E.
  destruct E as [_ E]. do 2 (rewrite lift_seq; component). rewrite lift_seq. component as d.
  destruct (RowDecoder.invalid d) eqn:Ed; [done|]. rewrite lift_seq.
  eapply returns_bind; [apply row_RC_invalid|]. cbv beta. intros d' Ed'. cbn. split_and!; [done|done|congruence].
Qed.

(** The mux decoders of a mat. *)
Definition selectors (m : t F) : list (RowDecoder.t F) :=
  [bitlineMuxDecoder m; senseAmpMuxLev1Decoder m; senseAmpMuxLev2Decoder m].

Definition Selectable (m : t F) : Prop := Forall (fun d => RowDecoder.invalid d = false) (selectors m).

(** Blocks that leave the row decoder alone. *)
Definition framed (m m' : t F) : Prop := frame m' = frame m /\ rowDecoder m' = rowDecoder m.

Lemma mux_decoder_valid n a (m : t F) d :
  returns (fun '(d', bad) => bad = false -> invalid m = false /\ RowDecoder.invalid d' = false)
    (MatInit.mux_decoder tech ip n a m d).
Proof.
  unfold MatInit.mux_decoder. destruct (invalid m); [done|]. component as x.
  destruct (RowDecoder.invalid x) eqn:E; [done|].
  eapply returns_bind; [apply row_RC_invalid|]. cbv beta. intros y Ey. cbn. by rewrite Ey.
Qed.

Lemma mux_decoders_valid a m :
  returns (fun m' => framed m m' /\ (invalid m' = false -> Selectable m')) (MatInit.mux_decoders tech ip a m).
Proof.
  unfold MatInit.mux_decoders.
  eapply returns_bind; [apply mux_decoder_valid|]. intros [d1 b1] H1.
  eapply returns_bind; [apply mux_decoder_valid|]. intros [d2 b2] H2.
  eapply returns_bind; [apply mux_decoder_valid|]. intros [d3 b3] H3. cbn in *.
  split; [done|]. intros E. destruct (H3 E) as [E2 V3]. destruct (H2 E2) as [E1 V2]. destruct (H1 E1) as [_ V1].
  repeat constructor; assumption.
Qed.

Lemma output_muxes_framed a m : returns (fun m' => framed m m' /\ selectors m' = selectors m /\ invalid m' = invalid m)
  (MatInit.output_muxes tech ip cell a m).
Proof. unfold MatInit.output_muxes. results. Qed.

Lemma column_sensing_valid a b m : returns (fun m' => framed m m' /\ selectors m' = selectors m /\
  (invalid m' = false -> invalid m = false /\
     (internalSenseAmp m' = true -> SenseAmp.invalid (senseAmp m') = false)))
  (MatInit.column_sensing tech ip cell a b m).
Proof.
  unfold MatInit.column_sensing. cbv zeta. destruct (invalid m) eqn:E; [cbn; split_and!; [done|done|congruence]|].
  destruct (internalSenseAmp m) eqn:Ei.
  - component as x.
    destruct (SenseAmp.invalid x) eqn:Ex; [done|]. eapply returns_bind; [apply sense_RC_invalid|]. cbv beta. intros y Ey.
    component as z. cbn. split_and!; [done|done|]. intros _. split; [done|]. intros _. congruence.
  - component as z. cbn. split_and!; [done|done|]. intros _. split; [done|]. intros X. congruence.
Qed.

Lemma gain_cell_valid a m : flows (fun m' => framed m m' /\ selectors m' = selectors m /\ senseAmp m' = senseAmp m /\
  invalid m' = invalid m /\ (MatInit.kind cell gcDRAM = true -> RowDecoder.invalid (gcRowDecoder m') = false)) rejected
  (MatInit.gain_cell tech ip localWire cell a m).
Proof.
  unfold MatInit.gain_cell. destruct (MatInit.kind cell gcDRAM); cbn [negb]; [|done].
  rewrite lift_seq. component as d. destruct (RowDecoder.invalid d) eqn:Ed; [done|].
  rewrite lift_seq. eapply returns_bind; [apply row_RC_invalid|]. cbv beta. intros d' Ed'.
  cbv zeta. destruct (_ || _ : bool); [done|]. do 2 (rewrite lift_seq; component).
  cbn. split_and!; try done. intros _. congruence.
Qed.

(** The components of a mat are valid. *)
Record Sound (m : t F) : Prop := {
  row_sound : RowDecoder.invalid (rowDecoder m) = false;
  muxes_sound : Selectable m;
  gain_sound : MatInit.kind cell gcDRAM = true -> RowDecoder.invalid (gcRowDecoder m) = false;
  sense_sound : internalSenseAmp m = true -> SenseAmp.invalid (senseAmp m) = false
}.

(** What holds after the components are built, unless the mat is invalid. *)
Definition Built (m m' : t F) : Prop := invalid m' = false ->
  initialized m' = true /\ frame m' = frame m /\ numColumn m <= int_max /\ Sound m'.

Lemma components_built d a b c e m :
  flows (Built m) rejected (MatInit.components tech ip localWire cell d a b c e m).
Proof.
  unfold MatInit.components. eapply flows_bind; [apply flows_lift, sections_frame|]. intros [[m1 r] x] E1.
  eapply flows_bind; [apply rows_valid|]. cbv beta. intros m2 (E2 & Hc & Hr).
  eapply flows_bind; [apply flows_lift, mux_decoders_valid|]. cbv beta. intros m3 [[E3 R3] V3].
  eapply flows_bind; [apply flows_lift, output_muxes_framed|]. cbv beta. intros m4 [[E4 R4] [D4 I4]].
  eapply flows_bind; [apply flows_lift, column_sensing_valid|]. cbv beta. intros m5 [[E5 R5] [D5 Hs]].
  eapply flows_bind; [apply gain_cell_valid|]. cbv beta. intros m6 ([E6 R6] & D6 & S6 & I6 & Hg).
  destruct (invalid m6) eqn:Ei; [apply flows_next; intros X; cbn in X; congruence|].
  rewrite lift_seq. component as z. apply flows_next. intros _.
  assert (Ef : frame m6 = frame m) by congruence. assert (numColumn m1 = numColumn m) by (unfold frame, config in E1; congruence).
  destruct (Hs ltac:(congruence)) as [Hv5 Hs5]. specialize (V3 ltac:(congruence)).
  split_and!; [done|exact Ef|congruence|]. split; cbn.
  - congruence.
  - unfold Selectable in *. change (Forall (fun d => RowDecoder.invalid d = false) (selectors m6)). congruence.
  - exact Hg.
  - intros Hi. rewrite S6. apply Hs5. unfold frame, config in E6. congruence.
Qed.

(** A mat that is not marked invalid. *)
Lemma Initialize_accepted r c ms sp mx ia l1 l2 lv nl sd memo m :
  returns (fun '(m', _) => invalid m' = false ->
    initialized m' = true /\ Fronted m' /\ numColumn m' <= int_max /\ Sound m')
    (MatInit.Initialize tech devtech ip localWire cell r c ms sp mx ia l1 l2 lv nl sd memo m).
Proof.
  unfold MatInit.Initialize. cbv zeta. set (m0 := MatInit.arguments _ _ _ _ _ _ _ _ _ _ _ _). clearbody m0.
  pose proof (front_accepted m0) as Hf.
  destruct (MatInit.front _ _ _ _ _ m0) as [[[[[[m1 w] b] rl] cl]|m1]|e]; cbn in Hf; [|cbn; congruence|done].
  cbn [outcome_bind]. eapply returns_bind; [apply repeater_frame|]. intros [m2 memo2] E2.
  apply (returns_bind (Built m2)).
  - pose proof (components_built sd w b rl cl m2) as Hc.
    destruct (MatInit.components _ _ _ _ _ _ _ _ _ m2) as [[m3|m3]|e3]; cbn in *; [done| |done]. intros X. congruence.
  - intros m3 Hb Hv. destruct (Hb Hv) as (Hi & E3 & Hc & Hs). assert (E : frame m3 = frame m1) by congruence.
    destruct Hf as (A & S & I). assert (Ec : config m3 = config m1) by (unfold frame in E; congruence).
    split_and!; [done| |unfold frame, config in E3; congruence|done]. split_and!.
    + by apply (Allowed_config m1).
    + unfold Sensed, MatInit.shared_voltage in *. assert (Es : senseVoltage m3 = senseVoltage m1) by (unfold frame in E; congruence).
      assert (Eb : capBitline m3 = capBitline m1) by (unfold frame in E; congruence). by rewrite Es, Eb.
    + intros X. unfold config in Ec. injection Ec as _ _ _ _ _ _ Ei. rewrite Ei. by apply I.
Qed.
End Accepted.

(** ** Checked figures *)

Lemma put_get {A : Type} (l l' : list A) i x : OutputDriver.put l i x = Ret l' -> OutputDriver.get l' i = Ret x.
Proof.
  unfold OutputDriver.put, OutputDriver.get. destruct (_ && _) eqn:E; [|done]. intros [= <-].
  apply andb_true_iff in E as [E1%Z.leb_le E2%Z.ltb_lt]. destruct (Z.ltb_spec i 0); [lia|].
  rewrite list_lookup_insert_eq; [done|]. lia.
Qed.

Section Checked.
Context {F : Type} `{Num F}.
Context (tech devtech : Process.t F) (ip : InputParameter.t F) (cell : Cell.t F).

Definition Timely (m : t F) : Prop := IsFinitePositive (FunctionUnit.readLatency (fu m)) = true /\
  IsFinitePositive (FunctionUnit.writeLatency (fu m)) = true /\ IsFiniteNonNegative (FunctionUnit.refreshLatency (fu m)) = true.

Lemma dram_results_checked a b m : invalid (MatTiming.dram_results a b m) = false -> Timely (MatTiming.dram_results a b m).
Proof.
  unfold MatTiming.dram_results. cbv zeta. destruct (_ || _ : bool) eqn:E; [done|]. intros _.
  rewrite !orb_false_iff, !negb_false_iff in E. destruct E as [[[[[[_ _] Hr] _] _] Hw] Hf]. by split_and!.
Qed.

Lemma gc_results_checked a b m : invalid (MatTiming.gc_results a b m) = false -> Timely (MatTiming.gc_results a b m).
Proof.
  unfold MatTiming.gc_results. cbv zeta. destruct (_ || _ : bool) eqn:E; [done|]. intros _.
  rewrite !orb_false_iff, !negb_false_iff in E. destruct E as [[Ha Hr] Hw]. split_and!; [done|done|].
  unfold AreFiniteNonNegative in Ha. rewrite !forallb_app in Ha. rewrite !andb_true_iff in Ha. cbn in Ha.
  rewrite !andb_true_iff in Ha. cbn. tauto.
Qed.

Lemma kinds_apart x y : MatInit.kind cell x = true -> x <> y -> MatInit.kind cell y = false.
Proof. unfold MatInit.kind. intros E Hn. apply bool_decide_eq_true in E. apply bool_decide_eq_false. congruence. Qed.

Lemma dram_not_sram : MatInit.dram cell || MatInit.kind cell gcDRAM = true -> MatInit.kind cell SRAM = false.
Proof.
  unfold MatInit.dram. rewrite !orb_true_iff. intros [[E|E]|E]; apply (kinds_apart _ SRAM E); done.
Qed.

Lemma latency_checked ramp m : MatInit.dram cell || MatInit.kind cell gcDRAM = true -> initialized m = true ->
  returns (fun m1 => invalid m1 = false -> Timely m1) (MatTiming.CalculateLatency tech ip cell ramp m).
Proof.
  intros Hk Hi. unfold MatTiming.CalculateLatency. rewrite Hi, (dram_not_sram Hk). cbn [negb].
  destruct (invalid m) eqn:Ev; [cbn; congruence|].
  apply (returns_bind (fun _ => True)); [apply returns_any|intros [[m1 a] b] _].
  destruct (MatInit.dram cell) eqn:Ed.
  - clear Hk. cbn [returns]. unfold MatTiming.latency_DRAM. cbv zeta. destruct (_ || _ : bool); [cbn; congruence|].
    destruct (Formula.horowitz _ _ _) as [d r]. destruct (MatTiming.settling ip cell _); [|cbn; congruence].
    apply dram_results_checked.
  - cbn [orb] in Hk. rewrite Hk. unfold MatTiming.latency_gcDRAM. do 2 (apply (returns_bind (fun _ => True)); [apply returns_any|intros ? _]).
    cbv zeta. cbn [returns]. destruct (MatTiming.gc_constants ip _) as [[r w]|]; [|cbn; congruence].
    destruct (ExactSettlingDelay _ _), (Formula.horowitz _ _ _). destruct (MatTiming.gc_discharge _) as [[on [off|]]|]; [|cbn; congruence..].
    apply gc_results_checked.
Qed.

Definition Counted (m : t F) : Prop :=
  forallb IsFiniteNonNegative [FunctionUnit.readDynamicEnergy (fu m); FunctionUnit.writeDynamicEnergy (fu m);
    FunctionUnit.refreshDynamicEnergy (fu m); FunctionUnit.leakage (fu m); aosLeakageUpperBound m] = true.

Lemma checked_counted m : MatInit.dram cell || MatInit.kind cell gcDRAM = true ->
  invalid (MatPower.checked cell m) = false -> Counted (MatPower.checked cell m).
Proof.
  intros Hk. unfold MatPower.checked. rewrite Hk. cbn [andb]. cbv zeta.
  destruct (AreFiniteNonNegative [_; _; _; _; _]) eqn:E; cbn [negb]; [|done]. destruct (MatInit.kind cell gcDRAM && _); [done|].
  intros _. exact E.
Qed.

Lemma power_checked m : MatInit.dram cell || MatInit.kind cell gcDRAM = true -> initialized m = true -> invalid m = false ->
  returns (fun '(m2, _) => invalid m2 = false -> Counted m2) (MatPower.CalculatePower tech devtech ip cell m).
Proof.
  intros Hk Hi Hv. unfold MatPower.CalculatePower. rewrite Hi, Hv. cbn [negb].
  apply (returns_bind (fun _ => True)); [apply returns_any|intros m1 _].
  apply (returns_bind (fun _ => True)); [apply returns_any|intros [m2 c] _].
  intros Hv2. exact (checked_counted _ Hk Hv2).
Qed.
End Checked.
End MatLegal.
