(* ===== verification/MatReal.v ===== *)
(** * Mats in exact arithmetic

    The folded layout takes the number of tiers with the least projected area, and
    writes and restorations of a DRAM settle exactly as far as they are asked to. *)
From S2P Require Import Prelude Numeric RealNum Types InputParameter Process Formula FormulaFacts Circuit OutputDriver Decoders BinarySenseAmp Peripherals Tsv Aos Cell Wires WireFacts MatData MatInit MatArea MatTiming MatFacts.
From stdpp Require Import base list strings.
From Stdlib Require Import ZArith Lia Reals Lra.
Open Scope R_scope.

Module MatReal.
Import Mat MatFacts FormulaFacts.

(** ** Folding *)

Section Folding.
Context (mivs : Z) (viaArea logic : R) (limit : Z) (s0 : MatArea.Fold (F := R)).

Abbreviation A0 := (MatArea.foldArea s0).

(** The projected area with [2^k] tiers. *)
Definition projection (k : Z) : R := Rmax (A0 / IZR (2 ^ k)) (logic + IZR mivs * IZR (2 ^ k) * viaArea).

(** After [k] folds. *)
Definition folded (k : Z) (s : MatArea.Fold) : Prop :=
  (0 <= k <= 63)%Z /\ MatArea.tiers s = (2 ^ k)%Z /\ MatArea.foldArea s = A0 / IZR (2 ^ k) /\
  MatArea.foldHeight s * MatArea.foldWidth s = A0 / IZR (2 ^ k).

Lemma pow2_R k : (0 <= k)%Z -> 0 < IZR (2 ^ k).
Proof. intros. by apply IZR_lt, pow2_pos. Qed.

Lemma half k : (0 <= k)%Z -> A0 / IZR (2 ^ k) / 2 = A0 / IZR (2 ^ (k + 1)).
Proof. intros Hk. rewrite pow2_succ, mult_IZR by done. pose proof (pow2_R k Hk). field. lra. Qed.

Lemma projected_value k x : x = A0 / IZR (2 ^ k) -> MatArea.projected (F := R) mivs viaArea logic (2 ^ k) x = projection k.
Proof.
  intros ->. unfold MatArea.projected, MatArea.xmax, projection. cbn [x_of x_int xadd xmul xltb R_extended].
  unfold Rmax, Rltb. destruct (Rlt_dec _ _), (Rle_dec _ _); lra.
Qed.

(** The loop goes on exactly when there is room and one more fold pays. *)
Lemma folds_spec k s : folded k s -> MatArea.folds mivs viaArea logic limit s = true <->
  ((k <= 62)%Z /\ (2 ^ (k + 1) <= limit)%Z /\ projection (k + 1) < projection k).
Proof.
  intros (Hk & Ht & Ha & _). unfold MatArea.folds. rewrite Ht, Ha.
  replace (2 ^ k * 2)%Z with (2 ^ (k + 1))%Z by (rewrite pow2_succ; lia).
  cbn [x_of x_int xdiv R_extended].
  rewrite half, !projected_value by (reflexivity || lia). cbn [xfinite xleb R_extended].
  rewrite !andb_true_iff, !negb_true_iff, !Z.ltb_ge. unfold Rleb. destruct (Rle_dec _ _) as [Hp|Hp].
  - split; [intros [_ ?]; done|]. intros (_ & _ & ?). lra.
  - assert (E : (2 ^ k <= MatArea.uint64_max / 2 <-> k <= 62)%Z).
    { change (MatArea.uint64_max / 2)%Z with (2 ^ 63 - 1)%Z. split; intros X.
      - assert (2 ^ k < 2 ^ 63)%Z by lia. pose proof (pow2_lt_inv k 63). lia.
      - pose proof (pow2_lt k 63). lia. }
    rewrite E. split; [intros [[[[? ?] _] _] _]|intros (? & ? & _)]; split_and!; try done; lra.
Qed.

Lemma fold_folded k s : folded k s -> (k <= 62)%Z -> folded (k + 1) (MatArea.fold s).
Proof.
  intros (Hk & Ht & Ha & Hhw) Hk'. unfold MatArea.fold. num_R.
  assert (E : MatArea.foldHeight s * MatArea.foldWidth s / 2 = A0 / IZR (2 ^ (k + 1))) by (rewrite Hhw; apply half; lia).
  destruct (MatArea.reduceHeight s); unfold folded; cbn; rewrite Ht, <- E; split_and!; try lia;
    try (rewrite pow2_succ by lia; lia); field.
Qed.

(** No earlier number of tiers projects to less. *)
Definition best_so_far (k : Z) (s : MatArea.Fold) : Prop :=
  folded k s /\ (2 ^ k <= Z.max 1 limit)%Z /\ forall j, (0 <= j <= k)%Z -> projection k <= projection j.

(** Past the point where another fold does not pay, none does. *)
Lemma projection_rises k : 0 < A0 -> 0 <= IZR mivs * viaArea -> (0 <= k)%Z -> projection k <= projection (k + 1) ->
  forall j, (k < j)%Z -> projection k <= projection j.
Proof.
  intros HA Hv Hk Hp j Hj. assert (Hm : forall a b, (0 <= a <= b)%Z ->
    logic + IZR mivs * IZR (2 ^ a) * viaArea <= logic + IZR mivs * IZR (2 ^ b) * viaArea).
  { intros a b Hab. assert (IZR (2 ^ a) <= IZR (2 ^ b)) by (by apply IZR_le, pow2_le).
    replace (IZR mivs * IZR (2 ^ a) * viaArea) with (IZR mivs * viaArea * IZR (2 ^ a)) by ring.
    replace (IZR mivs * IZR (2 ^ b) * viaArea) with (IZR mivs * viaArea * IZR (2 ^ b)) by ring.
    apply Rplus_le_compat_l, Rmult_le_compat_l; done. }
  pose proof (Hm k j ltac:(lia)) as H1. pose proof (Hm (k + 1)%Z j ltac:(lia)) as H2. unfold projection in *.
  set (v := fun x => logic + IZR mivs * IZR (2 ^ x) * viaArea) in *. change (logic + IZR mivs * IZR (2 ^ k) * viaArea) with (v k) in *.
  change (logic + IZR mivs * IZR (2 ^ (k + 1)) * viaArea) with (v (k + 1)%Z) in *.
  change (logic + IZR mivs * IZR (2 ^ j) * viaArea) with (v j) in *. apply Rmax_lub; [|etransitivity; [exact H1|apply Rmax_r]].
  assert (Hd : A0 / IZR (2 ^ (k + 1)) < A0 / IZR (2 ^ k)).
  { rewrite <- half by done. pose proof (pow2_R k Hk). pose proof (Rdiv_lt_0_compat A0 _ HA H). lra. }
  pose proof (Rmax_l (A0 / IZR (2 ^ k)) (v k)) as Hl. destruct (Rle_dec (A0 / IZR (2 ^ k)) (v j)) as [?|Hn];
    [etransitivity; [eassumption|apply Rmax_r]|]. exfalso.
  assert (A0 / IZR (2 ^ k) <= Rmax (A0 / IZR (2 ^ (k + 1))) (v (k + 1)%Z)) by lra.
  unfold Rmax in H. destruct (Rle_dec _ _); lra.
Qed.

(** The loop ends, with a power of two of tiers that no other one within the limit
    beats. *)
Lemma fold_least : folded 0 s0 ->
  exists s k, MatArea.fold_loop mivs viaArea logic limit s0 = Ret s /\ folded k s /\ (2 ^ k <= Z.max 1 limit)%Z /\
    (0 < A0 -> 0 <= IZR mivs * viaArea ->
     forall j, (0 <= j <= 63)%Z -> (2 ^ j <= limit)%Z -> projection k <= projection j).
Proof.
  intros H0. destruct (loop_ok (fun s => exists k, best_so_far k s)
    (fun s => Z.to_nat (63 - Z.log2 (MatArea.tiers s)))
    (MatArea.folds mivs viaArea logic limit) (fun s => Ret (MatArea.fold s))) with (fuel := 64%nat) (s := s0)
    as (s & E & (k & Hf & Hl & Hb) & Hc).
  - intros s (k & Hf & Hl & Hb) Hc. apply (folds_spec k s Hf) in Hc as (Hk & Hlim & Hp).
    eexists. split; [reflexivity|]. pose proof (fold_folded k s Hf Hk) as Hf'. split.
    + exists (k + 1)%Z. split_and!; [done|lia|]. intros j Hj. destruct (Z.eq_dec j (k + 1)) as [->|]; [lra|].
      specialize (Hb j ltac:(lia)). lra.
    + intros _. destruct Hf as (? & -> & _), Hf' as (? & -> & _). rewrite !Z.log2_pow2 by lia. lia.
  - exists 0%Z. split_and!; [done|lia|]. intros j Hj. replace j with 0%Z by lia. lra.
  - intros _. destruct H0 as (_ & -> & _). rewrite Z.log2_pow2 by lia. lia.
  - exists s, k. split; [exact E|]. split; [done|]. split; [done|]. intros HA Hv j Hj Hlim.
    destruct (Z.le_gt_cases j k); [apply Hb; lia|]. destruct Hf as (Hk & Hr).
    apply projection_rises; [done|done|lia| |done]. destruct (Rle_dec (projection k) (projection (k + 1))); [done|].
    exfalso. enough (MatArea.folds mivs viaArea logic limit s = true) by congruence.
    apply (folds_spec k s (conj Hk Hr)). pose proof (pow2_le (k + 1) j ltac:(lia)). split_and!; [lia|lia|lra].
Qed.

End Folding.

(** ** The folded layout *)

Section Layout.
Context (tech devtech : Process.t R) (ip : InputParameter.t R) (localWire : Wires.Wire.t R) (cell : Cell.t R).

Abbreviation rejected := (fun m : t R => invalid m = true).

(** What the electrical loads do not touch. *)
Definition layout (m : t R) := (fu m, m3d m, stackedMemTiers m, tsvArray m, lenBitline m, lenWordline m).

Lemma lengthen_layout c b w m : layout (MatArea.lengthen cell c b w m) = layout m.
Proof. unfold MatArea.lengthen. by destruct (MatInit.kind cell gcDRAM). Qed.

Lemma reload_layout c m : layout (MatArea.reload cell c m) = layout m.
Proof. unfold MatArea.reload. by destruct (MatInit.kind cell gcDRAM). Qed.

Lemma loads_layout m : flows (fun m' => layout m' = layout m) rejected (MatArea.folded_loads devtech localWire cell m).
Proof.
  unfold MatArea.folded_loads, MatArea.unfit. destruct (MatArea.deltas localWire m) as [[c b] w].
  destruct (_ || _ : bool); [done|]. pose proof (reload_layout c (MatArea.lengthen cell c b w m)) as E.
  rewrite lengthen_layout in E. generalize dependent (MatArea.reload cell c (MatArea.lengthen cell c b w m)). intros m1 E.
  cbv zeta. destruct (MatInit.dram cell); [|by apply flows_next]. destruct (_ || _ : bool); [done|by apply flows_next].
Qed.

(** The area of one via, and the projected area with [2^k] tiers. *)
Definition via_area (m : t R) : R := FunctionUnit.area (TSV.fu (tsvArray m)).
Definition projected_area (m : t R) (k : Z) : R :=
  Rmax (lenBitline m * lenWordline m / IZR (2 ^ k))
    (Layout.peripheralLogicArea (m3d m) + IZR (Layout.mivsPerTier (m3d m)) * IZR (2 ^ k) * via_area m).

Definition Folded (m : t R) : Prop := exists k, (0 <= k)%Z /\ stackedMemTiers m = (2 ^ k)%Z /\
  (2 ^ k <= InputParameter.maxMatLayers ip)%Z /\ FunctionUnit.area (fu m) = projected_area m k /\
  FunctionUnit.height (fu m) * FunctionUnit.width (fu m) = FunctionUnit.area (fu m) /\
  forall j, (0 <= j <= 63)%Z -> (2 ^ j <= InputParameter.maxMatLayers ip)%Z -> FunctionUnit.area (fu m) <= projected_area m j.

Lemma Folded_layout m m' : layout m' = layout m -> Folded m -> Folded m'.
Proof. unfold layout. intros [= E1 E2 E3 E4 E5 E6]. unfold Folded, projected_area, via_area. by rewrite E1, E2, E3, E4, E5, E6. Qed.

Lemma vias_count m : flows (fun m' => (0 < InputParameter.maxMatLayers ip)%Z /\ (0 <= Layout.mivsPerTier (m3d m'))%Z)
  rejected (MatArea.vias ip cell m).
Proof.
  unfold MatArea.vias, MatArea.unfit. destruct (_ || _ : bool) eqn:E; [done|]. apply flows_next.
  rewrite !orb_false_iff, Z.leb_gt in E. destruct E as [[[_ Hs] _] Hl]. split; [done|]. cbn [xleb R_extended] in Hs.
  apply Rleb_false in Hs. cbn. unfold Rtrunc. destruct (Rle_dec _ _) as [Hr|Hr]; [|cbn in Hs; lra].
  apply Zfloor_lub. cbn in *. lra.
Qed.

Lemma positive_R (x : R) : IsFinitePositive x = true <-> 0 < x.
Proof. unfold IsFinitePositive. cbn. apply Rltb_true. Qed.

Lemma nonnegative_R (x : R) : IsFiniteNonNegative x = true <-> 0 <= x.
Proof. unfold IsFiniteNonNegative. cbn. apply Rleb_true. Qed.

Lemma MAX_R (a b : R) : MAX a b = Rmax a b.
Proof. unfold MAX, Rmax. cbn. unfold Rltb. destruct (Rlt_dec b a), (Rle_dec a b); lra. Qed.

(** The areas of the tiers, when the loop left [s] after [k] folds. *)
Lemma tier_areas_folded m s k : folded (MatArea.unfolded m) k s -> (2 ^ k <= InputParameter.maxMatLayers ip)%Z ->
  (0 < lenBitline m * lenWordline m ->
   forall j, (0 <= j <= 63)%Z -> (2 ^ j <= InputParameter.maxMatLayers ip)%Z -> projected_area m k <= projected_area m j) ->
  flows Folded rejected (MatArea.tier_areas s m).
Proof.
  intros (Hk & Ht & Ha & Hhw) Hlim Hbest. unfold MatArea.tier_areas, MatArea.unfit. cbv zeta.
  destruct (_ <? _)%Z; [done|]. destruct (_ || _ : bool) eqn:E; [done|]. apply flows_next.
  rewrite !orb_false_iff, !negb_false_iff, !positive_R in E. destruct E as [[[[_ _] Hper] _] _].
  change (MatArea.foldArea (MatArea.unfolded m)) with (lenBitline m * lenWordline m) in Ha, Hhw.
  change (0 < MatArea.foldArea s) in Hper. rewrite Ha in Hper. pose proof (pow2_R k ltac:(lia)) as Hp.
  assert (HA : 0 < lenBitline m * lenWordline m).
  { replace (lenBitline m * lenWordline m) with (lenBitline m * lenWordline m / IZR (2 ^ k) * IZR (2 ^ k)) by (field; lra).
    by apply Rmult_lt_0_compat. }
  set (final := (Layout.peripheralLogicArea (m3d m) + #(Layout.mivsPerTier (m3d m) * MatArea.tiers s) * via_area m)%num).
  assert (Ef : MAX final (MatArea.foldArea s) = projected_area m k).
  { rewrite MAX_R, Rmax_comm. unfold projected_area. rewrite Ha. f_equal. unfold final. rewrite Ht. num_R. by rewrite mult_IZR. }
  assert (Hh : MatArea.foldHeight s <> 0) by (intros Hz; rewrite Hz, Rmult_0_l in Hhw; lra).
  exists k. split; [lia|]. split; [done|]. split; [done|].
  assert (Hpos : 0 < projected_area m k) by (unfold projected_area; eapply Rlt_le_trans; [exact Hper|apply Rmax_l]).
  change (MAX final (MatArea.foldArea s) = projected_area m k /\
    MatArea.foldHeight s / MatArea.foldArea s * MAX final (MatArea.foldArea s) *
    (MAX final (MatArea.foldArea s) / (MatArea.foldHeight s / MatArea.foldArea s * MAX final (MatArea.foldArea s)))
    = MAX final (MatArea.foldArea s) /\
    forall j, (0 <= j <= 63)%Z -> (2 ^ j <= InputParameter.maxMatLayers ip)%Z ->
      MAX final (MatArea.foldArea s) <= projected_area m j).
  rewrite Ef, Ha. split; [done|]. split; [|by apply Hbest]. field. split_and!; try lra; try done; intros Hz; rewrite Hz in HA; lra.
Qed.

Lemma monolithic_folded m :
  flows Folded rejected (MatArea.monolithic tech devtech ip localWire cell m).
Proof.
  unfold MatArea.monolithic. rewrite lift_seq. apply (returns_bind (fun _ => True)); [apply returns_any|intros v _].
  eapply flows_bind; [apply vias_count|]. cbv beta. intros m1 [Hl Hm]. cbv zeta. set (m2 := MatArea.set_m3d _ m1).
  destruct (_ || _ : bool) eqn:E; [done|]. rewrite orb_false_iff, !negb_false_iff, nonnegative_R in E. destruct E as [_ Hv].
  change (Layout.mivsPerTier (m3d m1)) with (Layout.mivsPerTier (m3d m2)) in Hm.
  set (m3 := m2 <| logicHeight := _ |> <| logicWidth := _ |>).
  destruct (fold_least (Layout.mivsPerTier (m3d m3)) (via_area m2) (MatArea.logic_area cell m1) (InputParameter.maxMatLayers ip)
    (MatArea.unfolded m3)) as (s & k & El & Hf & Hk & Hbest).
  { split_and!; [lia|lia|done|..]; change (IZR (2 ^ 0)) with 1;
      change (lenBitline m3 * lenWordline m3 = lenBitline m3 * lenWordline m3 / 1); field. }
  change (FunctionUnit.area (TSV.fu (tsvArray m2))) with (via_area m2).
  rewrite lift_seq, El. cbn [outcome_bind]. eapply flows_bind.
  - apply (tier_areas_folded m3 s k Hf); [lia|]. intros HA. apply Hbest; [done|]. apply Rmult_le_pos; [by apply IZR_le|done].
  - intros m4 H4. eapply flows_weaken; [apply loads_layout| |done]. cbv beta. intros m5 E5. by apply (Folded_layout m4).
Qed.

Lemma CalculateArea_folded m : InputParameter.monolithic3DMat ip = true -> initialized m = true ->
  returns (fun m' => invalid m' = false -> Folded m') (MatArea.CalculateArea tech devtech ip localWire cell m).
Proof.
  intros Hm Hi. unfold MatArea.CalculateArea. rewrite Hi, Hm. cbn [negb]. destruct (invalid m) eqn:E; [cbn; congruence|].
  apply (returns_bind (fun _ => True)); [apply returns_any|intros m1 _]. pose proof (monolithic_folded m1) as Hf.
  destruct (MatArea.monolithic _ _ _ _ _ m1) as [[m2|m2]|e]; cbn in *; [done|congruence|done].
Qed.
End Layout.

(** ** Settling *)

Lemma half_value : (lit 5 (-1) : R) = / 2.
Proof. rewrite Rlit_neg. change (10 ^ 1)%Z with 10%Z. lra. Qed.

Lemma ln_half : ln (/ 2) < 0.
Proof. rewrite <- ln_1. apply ln_increasing; lra. Qed.

(** The requested settling time is the delay, whatever the ramp of the input. *)
Lemma settling_exact (x ramp : R) : fst (ExactSettlingDelay x ramp) = x.
Proof.
  unfold ExactSettlingDelay, Formula.horowitz. cbn [fst nlog nabs nsqrt R_num]. num_R. rewrite half_value. pose proof ln_half as Hl.
  rewrite Rabs_left by done. match goal with |- context [sqrt ?e] => replace e with (- ln (/ 2) * - ln (/ 2)) by ring end.
  rewrite sqrt_square by lra. field. lra.
Qed.

Section Dram.
Context (tech : Process.t R) (ip : InputParameter.t R) (cell : Cell.t R).

Abbreviation rho := (InputParameter.dramTargetResidualRatio ip).

(** The time constant of the path a cell is written through, and the swing. *)
Definition write_tau (m : t R) : R :=
  (resBitline m + resCellAccess m) *
  (Cell.capDRAMCell cell + capCellAccess m + capBitline m + Mux.capForPreviousDelayCalculation (bitlineMux m)).
Definition swing (m : t R) : R := Rabs (Cell.resetVoltage cell - voltagePrecharge m).

(** What remains of [v] after [d]. *)
Definition residual (m : t R) (v d : R) : R := v * exp (- d / write_tau m).

Record Settled (m : t R) (s : MatTiming.Settling) : Prop := {
  tau_pos : 0 < write_tau m;
  swing_pos : 0 < swing m;
  ratio_range : 0 < rho < 1;
  write_exact : residual m (swing m) (MatTiming.writeSettling s) = rho * swing m;
  write_pos : 0 < MatTiming.writeSettling s;
  restore_reaches : residual m (Rmax (swing m - senseVoltage m) 0) (MatTiming.restoreSettling s) <= rho * swing m;
  restore_bounds : 0 <= senseVoltage m -> 0 <= MatTiming.restoreSettling s <= MatTiming.writeSettling s
}.

Lemma ln_pos x : 1 < x -> 0 < ln x.
Proof. intros. rewrite <- ln_1. apply ln_increasing; lra. Qed.

Lemma ln_mono x y : 0 < x -> x <= y -> ln x <= ln y.
Proof. intros Hx [H| ->]; [left; by apply ln_increasing|lra]. Qed.

Lemma exp_settles t x : 0 < t -> 0 < x -> exp (- (t * ln x) / t) = / x.
Proof. intros Ht Hx. replace (- (t * ln x) / t) with (- ln x) by (field; lra). by rewrite exp_Ropp, exp_ln. Qed.

Lemma settling_value m s : MatTiming.settling ip cell m = Some s ->
  0 < write_tau m /\ 0 < swing m /\ 0 < rho < 1 /\ MatTiming.writeSettling s = write_tau m * ln (/ rho) /\
  MatTiming.restoreSettling s =
    let left := Rmax (swing m - senseVoltage m) 0 in
    if Rltb (swing m * rho) left then write_tau m * ln (left / (swing m * rho)) else 0.
Proof.
  unfold MatTiming.settling. cbv zeta. destruct (_ || _ : bool) eqn:E; [done|]. intros Hs%(inj Some). subst s.
  rewrite !orb_false_iff, !negb_false_iff, !positive_R in E.
  assert (Ew : (lit 10 (-1) / rho)%num = / rho) by (rewrite Rlit_neg; change (10 ^ 1)%Z with 10%Z; num_R; unfold Rdiv; lra).
  assert (Ez : (lit 0 (-1) : R) = 0) by (rewrite Rlit_neg; change (10 ^ 1)%Z with 10%Z; lra).
  rewrite Ew, Ez, !MAX_R. num_R. cbn [nabs nlog R_num] in *. destruct E as [[[[[Hc Hr] Hs] _] H0] H1]. apply Rleb_false in H0, H1.
  split; [by apply Rmult_lt_0_compat|]. split; [exact Hs|]. split; [lra|]. split; reflexivity.
Qed.

Lemma settling_spec m s : MatTiming.settling ip cell m = Some s -> Settled m s.
Proof.
  intros E. destruct (settling_value m s E) as (Ht & Hs & Hr & Ew & Er). cbv zeta in Er.
  assert (Hi : 1 < / rho) by (rewrite <- Rinv_1; apply Rinv_lt_contravar; lra).
  set (S := swing m) in *. set (left := Rmax (S - senseVoltage m) 0) in *. assert (HSr : 0 < S * rho) by nra.
  pose proof (ln_pos _ Hi) as Hln. split; try done; fold S.
  - unfold residual. rewrite Ew, exp_settles, Rinv_inv by lra. ring.
  - rewrite Ew. by apply Rmult_lt_0_compat.
  - fold left. unfold residual. rewrite Er. destruct (Rltb (S * rho) left) eqn:El.
    + apply Rltb_true in El. rewrite exp_settles; [|done|apply Rdiv_lt_0_compat; lra]. right. field. lra.
    + apply Rltb_false in El. unfold Rdiv. rewrite Ropp_0, Rmult_0_l, exp_0. lra.
  - intros Hv. rewrite Er, Ew. destruct (Rltb (S * rho) left) eqn:El; [|split; [lra|]; left; by apply Rmult_lt_0_compat].
    apply Rltb_true in El. assert (Hl : left <= S) by (unfold left; apply Rmax_lub; lra).
    assert (H1 : 1 < left / (S * rho)) by (apply (Rmult_lt_reg_r (S * rho)); [done|]; field_simplify; lra).
    pose proof (ln_pos _ H1). split; [left; by apply Rmult_lt_0_compat|]. apply Rmult_le_compat_l; [lra|].
    apply ln_mono; [lra|]. apply (Rmult_le_reg_r (S * rho)); [done|]. field_simplify; [done|lra..].
Qed.

(** The figures of a DRAM that was accepted. *)
Definition Timed (m : t R) : Prop :=
  let d := dramTiming m in
  0 < write_tau m /\ residual m (swing m) (writeBitlineDelay m) = rho * swing m /\
  residual m (Rmax (swing m - senseVoltage m) 0) (Timing.restoreDelay d) <= rho * swing m /\
  (0 <= senseVoltage m -> 0 <= Timing.restoreDelay d <= writeBitlineDelay m) /\
  Timing.readCycleLatency d = FunctionUnit.readLatency (fu m) + Timing.restoreDelay d /\
  FunctionUnit.refreshLatency (fu m) = Timing.readCycleLatency d * IZR (numRow m).

Lemma settle_delays m s : Settled m s ->
  writeBitlineDelay (MatTiming.settle s m) = MatTiming.writeSettling s /\
  (Timing.restoreDelay (dramTiming (MatTiming.settle s m)) = MatTiming.restoreSettling s \/
   Timing.restoreDelay (dramTiming (MatTiming.settle s m)) = 0 /\ MatTiming.restoreSettling s <= 0).
Proof.
  intros _. unfold MatTiming.settle. set (ramp := RowDecoder.rampOutput _). pose proof (settling_exact (MatTiming.writeSettling s) ramp) as Ew.
  destruct (ExactSettlingDelay (MatTiming.writeSettling s) ramp) as [w o]. cbn in Ew. split; [exact Ew|].
  num_R. destruct (Rltb 0 (MatTiming.restoreSettling s)) eqn:E.
  - left. apply settling_exact.
  - right. split; [done|]. by apply Rltb_false in E.
Qed.

(** Everything else the results are computed from. *)
Lemma dram_results_timed a b m s : Settled m s -> let m' := MatTiming.dram_results a b (MatTiming.settle s m) in
  invalid m' = true \/ Timed m'.
Proof.
  intros S m'. destruct (settle_delays m s S) as [Ew Er]. destruct S as [Ht Hs Hr Hw Hwp Hrr Hb].
  assert (K : write_tau (MatTiming.settle s m) = write_tau m /\ swing (MatTiming.settle s m) = swing m /\
    senseVoltage (MatTiming.settle s m) = senseVoltage m).
  { unfold MatTiming.settle. by destruct (ExactSettlingDelay _ _). }
  subst m'. set (m1 := MatTiming.settle s m) in *. clearbody m1. destruct K as (Kt & Ks & Kv).
  unfold MatTiming.dram_results. cbv zeta. destruct (_ || _ : bool) eqn:E; [by left|right]. clear E.
  rewrite <- Kt in Ht. rewrite <- Ks in Hs. unfold residual in Hw, Hrr. rewrite <- Ks, <- Kt, <- Kv in *. rewrite <- Ew in *.
  unfold Timed. cbv zeta. split_and!; [exact Ht|exact Hw| | |reflexivity|reflexivity].
  - change (residual m1 (Rmax (swing m1 - senseVoltage m1) 0) (Timing.restoreDelay (dramTiming m1)) <= rho * swing m1).
    destruct Er as [-> |[-> Hn]]; [exact Hrr|]. etransitivity; [|exact Hrr]. unfold residual.
    apply Rmult_le_compat_l; [apply Rmax_r|]. destruct (Rle_lt_or_eq_dec _ _ Hn) as [Hlt| ->]; [|lra].
    left. apply exp_increasing. apply Rmult_lt_compat_r; [by apply Rinv_0_lt_compat|lra].
  - change (0 <= senseVoltage m1 -> 0 <= Timing.restoreDelay (dramTiming m1) <= writeBitlineDelay m1).
    intros Hv. specialize (Hb Hv). destruct Er as [-> |[-> Hn]]; [exact Hb|lra].
Qed.

Lemma CalculateLatency_timed x m : MatInit.kind cell SRAM = false -> MatInit.dram cell = true -> initialized m = true ->
  returns (fun m' => invalid m' = false -> Timed m') (MatTiming.CalculateLatency tech ip cell x m).
Proof.
  intros Hs Hd Hi. unfold MatTiming.CalculateLatency. rewrite Hi, Hs, Hd. cbn [negb].
  destruct (invalid m) eqn:Ev; [cbn; congruence|].
  apply (returns_bind (fun _ => True)); [apply returns_any|intros [[m1 a] b] _]. cbn [returns].
  unfold MatTiming.latency_DRAM. cbv zeta. destruct (_ || _ : bool); [cbn; congruence|].
  destruct (Formula.horowitz _ _ _) as [d r]. set (m2 := MatTiming.dram_sense tech r _). clearbody m2.
  destruct (MatTiming.settling ip cell m2) as [s|] eqn:Es; [|cbn; congruence].
  intros Hv. destruct (dram_results_timed a b m2 s (settling_spec m2 s Es)) as [Hn|]; [congruence|done].
Qed.
End Dram.
End MatReal.
