(* ===== verification/MatCorrect.v ===== *)
(** * Correctness of mats

    The claims about Mat.cpp: the configuration a bank relies on, what an accepted
    mat satisfies, the folded layout and the timing of DRAM. *)
From S2P Require Import Prelude Numeric RealNum FloatNum Types InputParameter Process Formula FormulaFacts Circuit OutputDriver Decoders BinarySenseAmp Peripherals Tsv Aos Cell Wires LeafCorrect MatData MatInit MatArea MatTiming MatPower MatFacts MatLegal MatReal.
From stdpp Require Import base list strings.
From Stdlib Require Import ZArith Lia Floats Reals Lra Zfloor.
Open Scope Z_scope.

Module MatCorrect.
Import Mat MatFacts MatLegal.

(** C17: the detailed mat honours what banks and subarrays assume of one: after
    [Initialize] its rows and columns are the ones it was given, whether it is accepted
    or rejected, and neither the area, nor the latency, nor the power phase changes
    them, on any path through them. *)
Theorem mat_dimensions_kept {F : Type} `{Num F} `{Extended F} (tech devtech : Process.t F) (ip : InputParameter.t F)
  (localWire : Wires.Wire.t F) (cell : Cell.t F) r c ms sp mx ia l1 l2 lv nl sd memo ramp (m : t F) :
  let dims (x : t F) := (Circuit.Mat.numRow (view x), Circuit.Mat.numColumn (view x)) in
  returns (fun '(m', _) => dims m' = (r, c))
    (MatInit.Initialize tech devtech ip localWire cell r c ms sp mx ia l1 l2 lv nl sd memo m) /\
  returns (fun m' => dims m' = dims m) (MatArea.CalculateArea tech devtech ip localWire cell m) /\
  returns (fun m' => dims m' = dims m) (MatTiming.CalculateLatency tech ip cell ramp m) /\
  returns (fun '(m', _) => dims m' = dims m) (MatPower.CalculatePower tech devtech ip cell m).
Proof.
  intros dims. assert (D : forall x y : t F, config y = config x -> dims y = dims x).
  { intros x y E. change ((numRow y, numColumn y) = (numRow x, numColumn x)). unfold config in E. congruence. }
  split_and!.
  - eapply returns_weaken; [apply Initialize_config|]. intros [m' memo'] E. unfold config in E.
    change ((numRow m', numColumn m') = (r, c)). congruence.
  - eapply returns_weaken; [apply CalculateArea_keeps|]. intros m'. intros K. by apply D, kept_config.
  - eapply returns_weaken; [apply CalculateLatency_keeps|]. intros m'. intros K. by apply D, kept_config.
  - eapply returns_weaken; [apply CalculatePower_keeps|]. intros [m' c']. intros K. by apply D, kept_config.
Qed.

(** C4: a mat that [Initialize] does not mark invalid is one the rules of the program
    allow.  All counts are positive; a cache that is not accessed sequentially has a
    column per way; the bitlines of DRAM, eDRAM and gain cells are not shared and are
    sensed within the mat; where sense amplifiers do not fit below one column at least
    two share one; the row decoder, the decoders of the bitline mux and of both output
    muxes, the read decoder of a gain cell and the sense amplifiers of a mat that senses
    internally are valid; and the voltage a DRAM or eDRAM cell develops on its bitline is
    the one of charge sharing with the final bitline load, positive and not below what
    the amplifiers need. *)
Theorem accepted_mat_legal {F : Type} `{Num F} (tech devtech : Process.t F) (ip : InputParameter.t F)
  (localWire : Wires.Wire.t F) (cell : Cell.t F) r c ms sp mx ia l1 l2 lv nl sd memo memo' (m m' : t F) :
  MatInit.Initialize tech devtech ip localWire cell r c ms sp mx ia l1 l2 lv nl sd memo m = Ret (m', memo') ->
  invalid m' = false ->
  initialized m' = true /\ 0 < r /\ 0 < c <= int_max /\ 0 < mx /\ 0 < l1 /\ 0 < l2 /\ 0 < nl /\
  Cell.memCellType cell <> MLCNAND /\
  (InputParameter.designTarget ip = cache -> InputParameter.cacheAccessMode ip <> sequential_access_mode ->
   InputParameter.associativity ip <= c) /\
  (MatInit.dram cell || MatInit.kind cell gcDRAM = true -> mx = 1 /\ ia = true) /\
  (MatInit.kind cell SLCNAND || MatInit.kind cell memristor || MatInit.kind cell FBRAM = true -> ia = true -> 2 <= mx) /\
  (RowDecoder.invalid (rowDecoder m') = false /\ RowDecoder.invalid (bitlineMuxDecoder m') = false /\
   RowDecoder.invalid (senseAmpMuxLev1Decoder m') = false /\ RowDecoder.invalid (senseAmpMuxLev2Decoder m') = false /\
   (MatInit.kind cell gcDRAM = true -> RowDecoder.invalid (gcRowDecoder m') = false) /\
   (ia = true -> SenseAmp.invalid (senseAmp m') = false)) /\
  (MatInit.dram cell = true -> senseVoltage m' = MatInit.shared_voltage devtech cell m' /\
     IsFinitePositive (senseVoltage m') = true /\ (senseVoltage m' <? Cell.minSenseVoltage cell)%num = false).
Proof.
  intros E Hv. pose proof (Initialize_config tech devtech ip localWire cell r c ms sp mx ia l1 l2 lv nl sd memo m) as Hc.
  pose proof (Initialize_accepted tech devtech ip localWire cell r c ms sp mx ia l1 l2 lv nl sd memo m) as Ha.
  rewrite E in Hc, Ha. cbn in Hc, Ha. specialize (Ha Hv) as (Hi & (A & S & I) & Hm & [Hr Hd Hg Hs]).
  unfold config in Hc. injection Hc as Er Ec Emx E1 E2 En Ei. destruct A as [A1 A2 (A3 & A4 & A5) A6 A7 A8 A9 A10].
  unfold Selectable, selectors in Hd. rewrite !Forall_cons in Hd. destruct Hd as (D1 & D2 & D3 & _).
  rewrite Er, Ec, Emx, E1, E2, En, Ei in *. split_and!; auto.
Qed.

(** A mat of 128 rows and 256 columns of eDRAM. *)
Definition run_tech : Process.t float := (LeafCorrect.table float 90) <| Process.vth := lit 5 (-1) |>.
Definition run_ip : InputParameter.t float := InputParameter.InputParameter 0 64 350 HP (of_Z 0) false.
Definition run_cell : Cell.t float :=
  (Cell.MemCell (of_Z 1)) <| Cell.memCellType := eDRAM |> <| Cell.widthInFeatureSize := of_Z 10 |>
    <| Cell.heightInFeatureSize := of_Z 10 |> <| Cell.widthAccessCMOS := of_Z 2 |> <| Cell.capDRAMCell := of_Z 1 |>
    <| Cell.resetVoltage := of_Z 2 |>.
Definition run_memo : Memo float := mkMemo (replicate 25 0) (replicate 25 (of_Z 0)).
Definition run_wire : Wires.Wire.t float := Wires.Wire.Wire (of_Z 1).
Abbreviation run_init :=
  (MatInit.Initialize run_tech run_tech run_ip run_wire run_cell 128 256 false false 1 true 1 1 latency_first 1 1 run_memo Mat).

Lemma run_accepted : exists m memo, run_init = Ret (m, memo) /\ invalid m = false.
Proof. eexists _, _. split; [vm_compute; reflexivity|reflexivity]. Qed.

Lemma accepted_mat_legal_witness : exists m memo, run_init = Ret (m, memo) /\
  (senseVoltage m <? Cell.minSenseVoltage run_cell)%num = false /\ SenseAmp.invalid (senseAmp m) = false /\
  RowDecoder.invalid (senseAmpMuxLev2Decoder m) = false.
Proof.
  destruct run_accepted as (m & memo & E & Hv). exists m, memo. split; [exact E|].
  destruct (accepted_mat_legal run_tech run_tech run_ip run_wire run_cell 128 256 false false 1 true 1 1 latency_first 1 1 run_memo
    memo Mat m E Hv) as (_ & _ & _ & _ & _ & _ & _ & _ & _ & _ & _ & (_ & _ & _ & Hl & _ & Hs) & Hd).
  split; [exact (proj2 (proj2 (Hd eq_refl)))|]. split; [exact (Hs eq_refl)|exact Hl].
Defined.

(** ** Repeaters *)

(** The repeaters of a number of columns are searched for once.  After a search that
    chose any, every mat whose number of columns has the same integer logarithm gets the
    same number and size, whatever the resistance and capacitance of its own wordlines. *)
Theorem repeaters_remembered {F : Type} `{Num F} (tech : Process.t F) (ip : InputParameter.t F) n n' memo memo' (m m' other : t F) :
  MatInit.CalculateRepeater tech ip n memo m = Ret (m', memo') -> numRepeaters m' <> 0 ->
  trunc (nlog2 #n')%num = trunc (nlog2 #n)%num ->
  MatInit.CalculateRepeater tech ip n' memo' other =
    Ret (other <| numRepeaters := numRepeaters m' |> <| bufferSizeRatio := bufferSizeRatio m' |>, memo').
Proof.
  unfold MatInit.CalculateRepeater. intros E Hn Hs. rewrite Hs. destruct (negb (InputParameter.addRepeaters ip)).
  { injection E as <- <-. by destruct Hn. }
  destruct (OutputDriver.get (optNumRepeaters memo) _) as [known|] eqn:Ek; cbn in E; [|done].
  destruct (Z.eqb_spec known 0) as [->|Hk]; cbn in E.
  - destruct (MatInit.search tech ip m n) as [c|]; cbn in E; [|done].
    destruct (OutputDriver.put (optNumRepeaters memo) _ _) as [nums|] eqn:En; cbn in E; [|done].
    destruct (OutputDriver.put (optSizeRepeaters memo) _ _) as [sizes|] eqn:Es; cbn in E; [|done].
    injection E as <- <-. cbn [optNumRepeaters optSizeRepeaters numRepeaters] in *.
    rewrite (put_get _ _ _ _ En), (put_get _ _ _ _ Es). cbn [outcome_bind].
    destruct (Z.eqb_spec (MatInit.optNumber c) 0); [by destruct Hn|reflexivity].
  - destruct (OutputDriver.get (optSizeRepeaters memo) _) as [size|] eqn:Es; cbn in E; [|done].
    injection E as <- <-. rewrite Ek, Es. cbn [outcome_bind]. by destruct (Z.eqb_spec known 0).
Qed.

Definition repeated_ip : InputParameter.t float := run_ip <| InputParameter.addRepeaters := true |>.
Definition repeated_mat : t float := Mat <| resWordline := of_Z 100000 |> <| capWordline := lit 1 (-12) |> <| sectioncap := lit 1 (-12) |>.

Lemma repeated : exists m memo, MatInit.CalculateRepeater run_tech repeated_ip 4 run_memo repeated_mat = Ret (m, memo) /\
  numRepeaters m <> 0.
Proof. eexists _, _. split; [vm_compute; reflexivity|discriminate]. Qed.

Lemma repeaters_remembered_witness : exists m memo,
  MatInit.CalculateRepeater run_tech repeated_ip 5 memo Mat =
    Ret (Mat <| numRepeaters := numRepeaters m |> <| bufferSizeRatio := bufferSizeRatio m |>, memo).
Proof.
  destruct repeated as (m & memo & E & Hn). exists m, memo.
  refine (repeaters_remembered run_tech repeated_ip 4 5 run_memo memo repeated_mat m Mat E Hn _). vm_compute. reflexivity.
Defined.

(** ** DRAM *)

(** C27: no DRAM that stays valid reports a figure that is not a number.  When a DRAM,
    eDRAM or gain-cell mat went through the latency and the power phase and is not marked
    invalid, its read and write latencies are finite and positive; its refresh latency,
    its energies, its leakage and the bound on the leakage of its oxide transistors are
    finite and not negative; and it was valid after the latency phase already, with the
    rows and columns it had. *)
Theorem dram_figures_checked {F : Type} `{Num F} `{Extended F} (tech devtech : Process.t F) (ip : InputParameter.t F)
  (cell : Cell.t F) ramp (m m1 m2 : t F) c :
  MatInit.dram cell || MatInit.kind cell gcDRAM = true -> initialized m = true ->
  MatTiming.CalculateLatency tech ip cell ramp m = Ret m1 ->
  MatPower.CalculatePower tech devtech ip cell m1 = Ret (m2, c) -> invalid m2 = false ->
  invalid m1 = false /\ numRow m2 = numRow m /\ numColumn m2 = numColumn m /\
  IsFinitePositive (FunctionUnit.readLatency (fu m1)) = true /\ IsFinitePositive (FunctionUnit.writeLatency (fu m1)) = true /\
  IsFiniteNonNegative (FunctionUnit.refreshLatency (fu m1)) = true /\
  forallb IsFiniteNonNegative [FunctionUnit.readDynamicEnergy (fu m2); FunctionUnit.writeDynamicEnergy (fu m2);
    FunctionUnit.refreshDynamicEnergy (fu m2); FunctionUnit.leakage (fu m2); aosLeakageUpperBound m2] = true.
Proof.
  intros Hk Hi El Ep Hv2.
  pose proof (CalculateLatency_keeps tech ip cell ramp m) as K1. rewrite El in K1. cbn in K1.
  pose proof (CalculatePower_keeps tech devtech ip cell m1) as K2. rewrite Ep in K2. cbn in K2.
  assert (Hi1 : initialized m1 = true) by (unfold kept, standing in K1; congruence).
  assert (Hv1 : invalid m1 = false).
  { destruct (invalid m1) eqn:E; [|done]. unfold MatPower.CalculatePower in Ep. rewrite Hi1, E in Ep. cbn in Ep.
    injection Ep as <- _. cbn in Hv2. congruence. }
  pose proof (latency_checked tech ip cell ramp m Hk Hi) as Hl. rewrite El in Hl. specialize (Hl Hv1) as (Hr & Hw & Hf).
  pose proof (power_checked tech devtech ip cell m1 Hk Hi1 Hv1) as Hp. rewrite Ep in Hp. specialize (Hp Hv2).
  unfold kept, standing, config in K1, K2. split_and!; first [done|congruence].
Qed.

(** The same eDRAM, run through the phases. *)
Lemma run_figures : exists m memo, run_init = Ret (m, memo) /\ exists m0,
  MatArea.CalculateArea run_tech run_tech run_ip run_wire run_cell m = Ret m0 /\ initialized m0 = true /\ numRow m0 = 128 /\
  exists m1, MatTiming.CalculateLatency run_tech run_ip run_cell (of_Z 1) m0 = Ret m1 /\
  exists m2 c, MatPower.CalculatePower run_tech run_tech run_ip run_cell m1 = Ret (m2, c) /\ invalid m2 = false.
Proof.
  eexists _, _. split; [vm_compute; reflexivity|]. eexists. split; [vm_compute; reflexivity|]. do 2 (split; [reflexivity|]).
  eexists. split; [vm_compute; reflexivity|]. eexists _, _. split; [vm_compute; reflexivity|reflexivity].
Qed.

(** It stays valid to the end, so its figures are usable. *)
Lemma dram_figures_checked_witness : exists m memo m0 m1 m2 c, run_init = Ret (m, memo) /\
  MatArea.CalculateArea run_tech run_tech run_ip run_wire run_cell m = Ret m0 /\
  MatTiming.CalculateLatency run_tech run_ip run_cell (of_Z 1) m0 = Ret m1 /\
  MatPower.CalculatePower run_tech run_tech run_ip run_cell m1 = Ret (m2, c) /\ invalid m2 = false /\ numRow m2 = 128 /\
  IsFinitePositive (FunctionUnit.readLatency (fu m1)) = true /\ IsFinitePositive (FunctionUnit.writeLatency (fu m1)) = true /\
  IsFiniteNonNegative (FunctionUnit.refreshLatency (fu m1)) = true /\
  IsFiniteNonNegative (FunctionUnit.leakage (fu m2)) = true.
Proof.
  destruct run_figures as (m & memo & Ei & m0 & Ea & Hi0 & Hn & m1 & El & m2 & c & Ep & Hv2).
  destruct (dram_figures_checked run_tech run_tech run_ip run_cell (of_Z 1) m0 m1 m2 c eq_refl Hi0 El Ep Hv2)
    as (_ & Er & _ & Hr & Hw & Hf & Hp). rewrite Hn in Er.
  exists m, memo, m0, m1, m2, c. do 8 (split; [assumption|]). split; [exact Hf|].
  cbn [forallb] in Hp. rewrite !andb_true_iff in Hp. exact (proj1 (proj2 (proj2 (proj2 Hp)))).
Defined.

(** Evaluation up to the operations on reals, and deciding the comparisons. *)
#[local] Ltac run_R := lazy -[Rplus Rminus Rmult Rdiv Ropp Rinv IZR Rltb Rleb Reqb sqrt ln exp Rabs Rpower powerRZ Rtrunc Zfloor
  MatArea.fold_loop MatArea.tier_areas MatArea.folded_loads MatArea.unfit].
#[local] Ltac settle_R := repeat (first
  [ match goal with |- context [Rltb ?a ?b] =>
      first [rewrite (proj2 (Rltb_true a b)) by lra|rewrite (proj2 (Rltb_false a b)) by lra] end
  | match goal with |- context [Rleb ?a ?b] =>
      first [rewrite (proj2 (Rleb_true a b)) by lra|rewrite (proj2 (FormulaFacts.Rleb_false a b)) by lra] end]; cbv iota).
#[local] Ltac powers_R :=
  try replace (powerRZ 10 1) with 10%R by (unfold powerRZ, Pos.to_nat; simpl; lra);
  try replace (powerRZ 10 2) with 100%R by (unfold powerRZ, Pos.to_nat; simpl; lra);
  try replace (powerRZ 10 4) with 10000%R by (unfold powerRZ, Pos.to_nat; simpl; lra).

(** C11: the write and the restoration of a DRAM or eDRAM cell last exactly as long as the
    requested residual demands.  When the latency phase accepts the mat, what remains of
    the full swing after the write delay, decaying with the time constant of the write
    path, is the residual ratio times the swing; what a sensed cell still lacks is below
    it after the restoration, which never takes longer than a write; and the read cycle
    is the read plus the restoration, the refresh one such cycle per row. *)
Theorem dram_settling_exact (tech : Process.t R) (ip : InputParameter.t R) (cell : Cell.t R) ramp (m m' : t R) :
  MatInit.dram cell = true -> initialized m = true ->
  MatTiming.CalculateLatency tech ip cell ramp m = Ret m' -> invalid m' = false ->
  let d := dramTiming m' in
  let rho := InputParameter.dramTargetResidualRatio ip in
  let left v t := MatReal.residual cell m' v t in
  (0 < MatReal.write_tau cell m' /\ left (MatReal.swing cell m') (writeBitlineDelay m') = rho * MatReal.swing cell m' /\
   left (Rmax (MatReal.swing cell m' - senseVoltage m') 0) (Timing.restoreDelay d) <= rho * MatReal.swing cell m' /\
   (0 <= senseVoltage m' -> 0 <= Timing.restoreDelay d <= writeBitlineDelay m') /\
   Timing.readCycleLatency d = FunctionUnit.readLatency (fu m') + Timing.restoreDelay d /\
   FunctionUnit.refreshLatency (fu m') = Timing.readCycleLatency d * IZR (numRow m'))%R.
Proof.
  intros Hd Hi E Hv. assert (Hs : MatInit.kind cell SRAM = false) by (apply (dram_not_sram cell); by rewrite Hd).
  pose proof (MatReal.CalculateLatency_timed tech ip cell ramp m Hs Hd Hi) as Ht. rewrite E in Ht. exact (Ht Hv).
Qed.

Definition plain_ip : InputParameter.t R := InputParameter.InputParameter 0 64 350 HP 0%R false.
Definition plain_tech : Process.t R := LeafCorrect.table R 90.

Section Settling.
Local Open Scope R_scope.

Definition dram_cell : Cell.t R :=
  (Cell.MemCell 1) <| Cell.memCellType := eDRAM |> <| Cell.capDRAMCell := 1 |> <| Cell.resetVoltage := 1 |>.
Definition dram_mat : t R := Mat <| initialized := true |> <| resBitline := 1 |> <| capBitline := 1 |>.

Lemma sqrt_half e : sqrt (ln (5 / 10) * ln (5 / 10) + 2 * e * 0 * (1 - 5 / 10)) = - ln (5 / 10).
Proof.
  replace (5 / 10) with (/ 2) by lra. pose proof MatReal.ln_half.
  replace (_ + _) with (- ln (/ 2) * - ln (/ 2)) by ring. apply sqrt_square. lra.
Qed.

Lemma dram_mat_accepted : exists m',
  MatTiming.CalculateLatency plain_tech plain_ip dram_cell 1 dram_mat = Ret m' /\ invalid m' = false.
Proof.
  run_R. powers_R. replace (Rabs (1 - 0)) with 1 by (rewrite Rabs_right; lra). settle_R. rewrite !sqrt_half.
  assert (Hl : ln (5 / 10) < 0) by (replace (5 / 10) with (/ 2) by lra; apply MatReal.ln_half).
  rewrite (Rabs_left (ln (5 / 10))) by done.
  assert (Hc : forall x, x / - ln (5 / 10) * - ln (5 / 10) = x) by (intros; field; lra). rewrite !Hc.
  pose proof (MatReal.ln_pos ((1 - 0) / (1 * (10 / 100))) ltac:(lra)).
  pose proof (MatReal.ln_pos (10 / 10 / (10 / 100)) ltac:(lra)). settle_R. eexists. split; reflexivity.
Qed.

Lemma dram_settling_exact_witness : exists m',
  MatTiming.CalculateLatency plain_tech plain_ip dram_cell 1 dram_mat = Ret m' /\ 0 < MatReal.write_tau dram_cell m'.
Proof.
  destruct dram_mat_accepted as (m' & E & Hv). exists m'. split; [exact E|].
  exact (proj1 (dram_settling_exact plain_tech plain_ip dram_cell 1 dram_mat m' eq_refl eq_refl E Hv)).
Defined.
End Settling.

(** ** Folding *)

(** C5: the memory of a monolithic three-dimensional mat is folded over the best number of
    tiers.  When the area phase accepts the mat, the tiers are a power of two within the
    limit, the area is the larger of a memory tier and the logic with its vias, width and
    height multiply to it, and no other power of two within the limit needs less. *)
Theorem folded_area_least (tech devtech : Process.t R) (ip : InputParameter.t R) (localWire : Wires.Wire.t R) (cell : Cell.t R)
  (m m' : t R) :
  InputParameter.monolithic3DMat ip = true -> initialized m = true ->
  MatArea.CalculateArea tech devtech ip localWire cell m = Ret m' -> invalid m' = false ->
  exists k, 0 <= k /\ stackedMemTiers m' = 2 ^ k /\ 2 ^ k <= InputParameter.maxMatLayers ip /\
  (FunctionUnit.area (fu m') = MatReal.projected_area m' k /\
   FunctionUnit.height (fu m') * FunctionUnit.width (fu m') = FunctionUnit.area (fu m'))%R /\
  forall j, 0 <= j <= 63 -> 2 ^ j <= InputParameter.maxMatLayers ip ->
    (FunctionUnit.area (fu m') <= MatReal.projected_area m' j)%R.
Proof.
  intros Hm Hi E Hv. pose proof (MatReal.CalculateArea_folded tech devtech ip localWire cell m Hm Hi) as Hf. rewrite E in Hf.
  destruct (Hf Hv) as (k & Hk & Ht & Hl & Ha & Hw & Hb). exists k. split_and!; auto.
Qed.

Section Folded.
Local Open Scope R_scope.

Definition folded_ip : InputParameter.t R :=
  plain_ip <| InputParameter.monolithic3DMat := true |> <| InputParameter.maxMatLayers := 2%Z |> <| InputParameter.tsvRedundancy := 1 |>.
Definition folded_mat : t R :=
  Mat <| initialized := true |> <| numRow := 1%Z |> <| numColumn := 1%Z |> <| lenBitline := 8 |> <| lenWordline := 4 |>
    <| rowDecoder := (rowDecoder Mat) <| RowDecoder.fu := FunctionUnit.FunctionUnit <| FunctionUnit.area := 2 |> |> |>
    <| tsvArray := (tsvArray Mat) <| TSV.min_area := 1 / 16 |> |>.
Abbreviation folding :=
  (MatArea.CalculateArea plain_tech plain_tech folded_ip (Wires.Wire.Wire 1) (Cell.MemCell 1) folded_mat).

Lemma loop_stop {S : Type} n cond (body : S -> Outcome S) s : cond s = false -> loop n cond body s = Ret s.
Proof. intros E. destruct n; cbn; by rewrite E. Qed.

Lemma loop_step {S : Type} n cond (body : S -> Outcome S) s :
  cond s = true -> loop (Datatypes.S n) cond body s = outcome_bind (body s) (loop n cond body).
Proof. intros E. cbn. by rewrite E. Qed.

Lemma folded_mat_accepted : exists m', folding = Ret m' /\ invalid m' = false.
Proof.
  run_R. replace (Zfloor (- (2 * (1 + 2 * 1) * 1))) with (-6)%Z by (symmetry; apply Zfloor_eq; lra). powers_R. settle_R.
  rewrite !(Rtrunc_unique 6 6) by (lia || lra). run_R. settle_R.
  unfold MatArea.fold_loop. rewrite (loop_step 63) by (run_R; settle_R; reflexivity). cbn [outcome_bind].
  rewrite loop_stop by (run_R; settle_R; reflexivity). run_R. unfold MatArea.tier_areas. run_R. settle_R.
  unfold MatArea.folded_loads. run_R. pose proof (sqrt_pos (1 / 16)).
  pose proof (sqrt_pos (Rabs (8 / 2 * 4 - (2 + 0 + 0 + 0 + 0 + 0 + 0 + 0 + 0)))). settle_R. eexists. split; reflexivity.
Qed.

Lemma folded_area_least_witness : exists m', folding = Ret m' /\ exists k, stackedMemTiers m' = (2 ^ k)%Z.
Proof.
  destruct folded_mat_accepted as (m' & E & Hv). exists m'. split; [exact E|].
  destruct (folded_area_least plain_tech plain_tech folded_ip (Wires.Wire.Wire 1) (Cell.MemCell 1) folded_mat m' eq_refl eq_refl
    E Hv) as (k & _ & Hk & _).
  exists k. exact Hk.
Defined.
End Folded.

End MatCorrect.
