(* ===== verification/SubArray.v ===== *)
(** * Subarrays

    SubArray.h/.cpp: a grid of mats with the predecoders that drive it. *)
From S2P Require Import Prelude Numeric Types InputParameter Circuit.
From stdpp Require Import base list.
From Stdlib Require Import ZArith Lia.
Open Scope Z_scope.

Module SubArray.

Record t (F : Type) : Type := mk {
  fu : FunctionUnit.t F;
  initialized : bool;
  invalid : bool;
  internalSenseAmp : bool;
  numRowMat : Z;
  numColumnMat : Z;
  numAddressBit : Z;
  numDataBit : Z;
  numWay : Z;
  numRowPerSet : Z;
  split : bool;
  numActiveMatPerRow : Z;
  numActiveMatPerColumn : Z;
  muxSenseAmp : Z;
  muxOutputLev1 : Z;
  muxOutputLev2 : Z;
  areaOptimizationLevel : BufferDesignTarget;
  memoryType : MemoryType;
  stackedDieCount : Z;
  partitionGranularity : Z;
  totalPredecoderOutputBits : Z;
  predecoderLatency : F;
  areaAllLogicBlocks : F;
  mat : Mat.t F;
  rowPredecoderBlock1 : PredecodeBlock.t F;
  rowPredecoderBlock2 : PredecodeBlock.t F;
  bitlineMuxPredecoderBlock1 : PredecodeBlock.t F;
  bitlineMuxPredecoderBlock2 : PredecodeBlock.t F;
  senseAmpMuxLev1PredecoderBlock1 : PredecodeBlock.t F;
  senseAmpMuxLev1PredecoderBlock2 : PredecodeBlock.t F;
  senseAmpMuxLev2PredecoderBlock1 : PredecodeBlock.t F;
  senseAmpMuxLev2PredecoderBlock2 : PredecodeBlock.t F;
  comparator : Comparator.t F;
  tsvArray : TSV.t F
}.
Arguments mk {_} _ _ _ _ _ _ _ _ _ _ _ _ _ _ _ _ _ _ _ _ _ _ _ _ _ _ _ _ _ _ _ _ _ _.
Arguments fu {_} _.
Arguments initialized {_} _.
Arguments invalid {_} _.
Arguments internalSenseAmp {_} _.
Arguments numRowMat {_} _.
Arguments numColumnMat {_} _.
Arguments numAddressBit {_} _.
Arguments numDataBit {_} _.
Arguments numWay {_} _.
Arguments numRowPerSet {_} _.
Arguments split {_} _.
Arguments numActiveMatPerRow {_} _.
Arguments numActiveMatPerColumn {_} _.
Arguments muxSenseAmp {_} _.
Arguments muxOutputLev1 {_} _.
Arguments muxOutputLev2 {_} _.
Arguments areaOptimizationLevel {_} _.
Arguments memoryType {_} _.
Arguments stackedDieCount {_} _.
Arguments partitionGranularity {_} _.
Arguments totalPredecoderOutputBits {_} _.
Arguments predecoderLatency {_} _.
Arguments areaAllLogicBlocks {_} _.
Arguments mat {_} _.
Arguments rowPredecoderBlock1 {_} _.
Arguments rowPredecoderBlock2 {_} _.
Arguments bitlineMuxPredecoderBlock1 {_} _.
Arguments bitlineMuxPredecoderBlock2 {_} _.
Arguments senseAmpMuxLev1PredecoderBlock1 {_} _.
Arguments senseAmpMuxLev1PredecoderBlock2 {_} _.
Arguments senseAmpMuxLev2PredecoderBlock1 {_} _.
Arguments senseAmpMuxLev2PredecoderBlock2 {_} _.
Arguments comparator {_} _.
Arguments tsvArray {_} _.
#[global] Instance eta {F : Type} : RecordEta (t F) := fun x =>
  mk (fu x) (initialized x) (invalid x) (internalSenseAmp x) (numRowMat x) (numColumnMat x)
    (numAddressBit x) (numDataBit x) (numWay x) (numRowPerSet x) (split x) (numActiveMatPerRow x)
    (numActiveMatPerColumn x) (muxSenseAmp x) (muxOutputLev1 x) (muxOutputLev2 x)
    (areaOptimizationLevel x) (memoryType x) (stackedDieCount x) (partitionGranularity x)
    (totalPredecoderOutputBits x) (predecoderLatency x) (areaAllLogicBlocks x) (mat x)
    (rowPredecoderBlock1 x) (rowPredecoderBlock2 x) (bitlineMuxPredecoderBlock1 x)
    (bitlineMuxPredecoderBlock2 x) (senseAmpMuxLev1PredecoderBlock1 x)
    (senseAmpMuxLev1PredecoderBlock2 x) (senseAmpMuxLev2PredecoderBlock1 x)
    (senseAmpMuxLev2PredecoderBlock2 x) (comparator x) (tsvArray x).


Section Operations.
Context {F : Type} `{Num F} `{CircuitOps F}.
Abbreviation pre := PredecodeBlock.fu (only parsing).

(** [fu.field = v] on the inherited members. *)
Notation "s <! p := v !>" := (field_update (proj := fu) (field_update (proj := p) (fun _ => v)) s)
  (at level 1, left associativity, p at level 9, v at level 200, only parsing).

(** SubArray::SubArray; the other members keep what the memory held. *)
Definition SubArray (raw : t F) : t F :=
  raw <| fu := FunctionUnit.FunctionUnit |> <| initialized := false |> <| invalid := false |>.

(** [invalid = true; initialized = true; return;] *)
Definition reject (s : t F) : t F := s <| invalid := true |> <| initialized := true |>.

(** More than three address bits are split between two predecoder blocks. *)
Definition split_predecoder (n : Z) : Z * Z :=
  if 3 <? n then (n - Z.quot n 2, Z.quot n 2) else (n, 0).

(** [1 << n] is an [int]. *)
Definition int_shl1 (n : Z) : Z := wrap32 (Z.shiftl 1 n).

(** [muxSenseAmp * muxOutputLev1 * muxOutputLev2] *)
Definition mux_product (a b c : Z) : Z := wrap32 (wrap32 (a * b) * c).

(** SubArray::Initialize: the copied arguments, and the clamped activity. *)
Definition Initialize_members (_numRowMat _numColumnMat _numAddressBit _numDataBit
    _numWay _numRowPerSet : Z) (_split : bool) (_numActiveMatPerRow _numActiveMatPerColumn
    _muxSenseAmp : Z) (_internalSenseAmp : bool) (_muxOutputLev1 _muxOutputLev2 : Z)
    (_areaOptimizationLevel : BufferDesignTarget) (_memoryType : MemoryType)
    (_stackedDieCount _partitionGranularity : Z) (s : t F) : t F :=
  s <| numRowMat := _numRowMat |>
    <| numColumnMat := _numColumnMat |>
    <| numAddressBit := _numAddressBit |>
    <| numDataBit := _numDataBit |>
    <| numWay := _numWay |>
    <| numRowPerSet := _numRowPerSet |>
    <| split := _split |>
    <| internalSenseAmp := _internalSenseAmp |>
    <| areaOptimizationLevel := _areaOptimizationLevel |>
    <| memoryType := _memoryType |>
    <| stackedDieCount := _stackedDieCount |>
    <| partitionGranularity := _partitionGranularity |>
    <| numActiveMatPerRow :=
         if _numColumnMat <? _numActiveMatPerRow then _numColumnMat else _numActiveMatPerRow |>
    <| numActiveMatPerColumn :=
         if _numRowMat <? _numActiveMatPerColumn then _numRowMat else _numActiveMatPerColumn |>
    <| muxSenseAmp := _muxSenseAmp |>
    <| muxOutputLev1 := _muxOutputLev1 |>
    <| muxOutputLev2 := _muxOutputLev2 |>.

(** SubArray::Initialize: the mat's rows and columns, or [None] on an early return. *)
Definition mat_dimensions (ip : InputParameter.t F) (addressBit : Z) (s : t F) : option (Z * Z) :=
  let muxes := mux_product (muxSenseAmp s) (muxOutputLev1 s) (muxOutputLev2 s) in
  if addressBit <=? 0 then None
  else
    let numRow := int_shl1 addressBit in
    let numRow := if bool_decide (memoryType s = data) then wrap64 (numRow * numWay s) else numRow in
    let numRow := Z.quot numRow muxes in
    if numRow =? 0 then None
    else
      let numColumn := Z.quot (numDataBit s) (wrap32 (numActiveMatPerRow s * numActiveMatPerColumn s)) in
      if numColumn =? 0 then None
      else
        let numColumn := wrap64 (numColumn * muxes) in
        let numColumn := if bool_decide (memoryType s = tag) then wrap64 (numColumn * numWay s)
                         else numColumn in
        if bool_decide (memoryType s = data) && InputParameter.forceMatSize ip
           && (negb (numRow mod 2 ^ 64 =? InputParameter.forcedMatRows ip)
               || negb (numColumn mod 2 ^ 64 =? InputParameter.forcedMatColumns ip))
        then None
        else Some (numRow, numColumn).

(** The eight predecoder blocks, in the order of every phase. *)
Definition each_predecoder (op : PredecodeBlock.t F -> Outcome (PredecodeBlock.t F)) (s : t F) : Outcome (t F) :=
  let? row1 := op (rowPredecoderBlock1 s) in
  let? row2 := op (rowPredecoderBlock2 s) in
  let? bl1 := op (bitlineMuxPredecoderBlock1 s) in
  let? bl2 := op (bitlineMuxPredecoderBlock2 s) in
  let? sa1 := op (senseAmpMuxLev1PredecoderBlock1 s) in
  let? sa2 := op (senseAmpMuxLev1PredecoderBlock2 s) in
  let? sb1 := op (senseAmpMuxLev2PredecoderBlock1 s) in
  let? sb2 := op (senseAmpMuxLev2PredecoderBlock2 s) in
  Ret (s <| rowPredecoderBlock1 := row1 |> <| rowPredecoderBlock2 := row2 |>
         <| bitlineMuxPredecoderBlock1 := bl1 |> <| bitlineMuxPredecoderBlock2 := bl2 |>
         <| senseAmpMuxLev1PredecoderBlock1 := sa1 |> <| senseAmpMuxLev1PredecoderBlock2 := sa2 |>
         <| senseAmpMuxLev2PredecoderBlock1 := sb1 |> <| senseAmpMuxLev2PredecoderBlock2 := sb2 |>).

(** SubArray::Initialize: the predecoders. *)
Definition Initialize_predecoders (g : Globals.t F) (addressRow : Z) (s : t F) : Outcome (t F) :=
  let '(row1, row2) := split_predecoder addressRow in
  let '(bl1, bl2) := split_predecoder (int_log2 (of_Z (muxSenseAmp s))) in
  let '(sa1, sa2) := split_predecoder (int_log2 (of_Z (muxOutputLev1 s))) in
  let '(sb1, sb2) := split_predecoder (int_log2 (of_Z (muxOutputLev2 s))) in
  let cap := Wire.capWirePerUnit (Globals.localWire g) in
  let h := FunctionUnit.height (Mat.fu (mat s)) in
  let w := FunctionUnit.width (Mat.fu (mat s)) in
  let capLoadRowPredecoder :=
    (h * cap * #(numRowMat s) / #2 + w * cap * #(numColumnMat s) / #2)%num in
  let capLoadMuxPredecoder :=
    (MAX #0 (h * cap * #(numRowMat s - 2) / #2) + MAX #0 (w * cap * #(numColumnMat s - 2) / #2))%num in
  let s := s <| totalPredecoderOutputBits :=
    int_shl1 row1 + int_shl1 row2 + int_shl1 bl1 + int_shl1 bl2
    + int_shl1 sa1 + int_shl1 sa2 + int_shl1 sb1 + int_shl1 sb2 |> in
  let? p1 := PredecodeBlock_Initialize g row1 capLoadRowPredecoder (of_Z 0) in
  let? p2 := PredecodeBlock_Initialize g row2 capLoadRowPredecoder (of_Z 0) in
  let? p3 := PredecodeBlock_Initialize g bl1 capLoadMuxPredecoder (of_Z 0) in
  let? p4 := PredecodeBlock_Initialize g bl2 capLoadMuxPredecoder (of_Z 0) in
  let? p5 := PredecodeBlock_Initialize g sa1 capLoadMuxPredecoder (of_Z 0) in
  let? p6 := PredecodeBlock_Initialize g sa2 capLoadMuxPredecoder (of_Z 0) in
  let? p7 := PredecodeBlock_Initialize g sb1 capLoadMuxPredecoder (of_Z 0) in
  let? p8 := PredecodeBlock_Initialize g sb2 capLoadMuxPredecoder (of_Z 0) in
  Ret (s <| rowPredecoderBlock1 := p1 |> <| rowPredecoderBlock2 := p2 |>
         <| bitlineMuxPredecoderBlock1 := p3 |> <| bitlineMuxPredecoderBlock2 := p4 |>
         <| senseAmpMuxLev1PredecoderBlock1 := p5 |> <| senseAmpMuxLev1PredecoderBlock2 := p6 |>
         <| senseAmpMuxLev2PredecoderBlock1 := p7 |> <| senseAmpMuxLev2PredecoderBlock2 := p8 |>).

(** SubArray::Initialize: the predecoders, the comparator and the TSVs. *)
Definition Initialize_decoders (g : Globals.t F) (addressRow : Z) (s : t F) : Outcome (t F) :=
  let? s := Initialize_predecoders g addressRow s in
  let? s := if bool_decide (memoryType s = tag) && internalSenseAmp s
            then let? c := Comparator_Initialize g (numDataBit s) (of_Z 0) in
                 Ret (s <| comparator := c |>)
            else Ret s in
  let? s := if (1 <? stackedDieCount s) && negb (partitionGranularity s =? 0)
            then let? v := TSV_Initialize g
                       (WireTypeToTSVType (InputParameter.maxLocalWireType (Globals.inputParameter g)))
                       (tsvArray s) in
                 Ret (s <| tsvArray := v |>)
            else Ret s in
  Ret (s <| initialized := true |>).

(** SubArray::Initialize *)
Definition Initialize (g : Globals.t F) (_numRowMat _numColumnMat _numAddressBit _numDataBit
    _numWay _numRowPerSet : Z) (_split : bool) (_numActiveMatPerRow _numActiveMatPerColumn
    _muxSenseAmp : Z) (_internalSenseAmp : bool) (_muxOutputLev1 _muxOutputLev2 : Z)
    (_areaOptimizationLevel : BufferDesignTarget) (_memoryType : MemoryType)
    (_stackedDieCount _partitionGranularity monolithicStackCount : Z) (s : t F) : Outcome (t F) :=
  let s := Initialize_members _numRowMat _numColumnMat _numAddressBit _numDataBit _numWay
    _numRowPerSet _split _numActiveMatPerRow _numActiveMatPerColumn _muxSenseAmp
    _internalSenseAmp _muxOutputLev1 _muxOutputLev2 _areaOptimizationLevel _memoryType
    _stackedDieCount _partitionGranularity s in
  let numAddressForGating := int_log2 (of_Z (Z.quot (Z.quot (wrap32 (numRowMat s * numColumnMat s))
    (numActiveMatPerColumn s)) (numActiveMatPerRow s))) in
  let _numAddressBit := _numAddressBit - numAddressForGating in
  match mat_dimensions (Globals.inputParameter g) _numAddressBit s with
  | None => Ret (reject s)
  | Some (numRow, numColumn) =>
      let? m := Mat_Initialize g numRow numColumn (1 <? numRowPerSet s) true
                  (muxSenseAmp s) (internalSenseAmp s) (muxOutputLev1 s) (muxOutputLev2 s)
                  (areaOptimizationLevel s) monolithicStackCount (stackedDieCount s) in
      if Mat.invalid m then Ret (reject (s <| mat := m |>))
      else
        let? m := Mat_CalculateArea g m in
        let s := s <| mat := m |> in
        if Mat.invalid m then Ret (reject s)
        else
          let numAddressRow := _numAddressBit -
            int_log2 (of_Z (mux_product (muxSenseAmp s) (muxOutputLev1 s) (muxOutputLev2 s))) in
          if numAddressRow <? 0 then Ret (reject s)
          else Initialize_decoders g numAddressRow s
  end.


(** SubArray::CalculateArea: the predecoders, and the array of mats. *)
Definition area_mats (g : Globals.t F) (s : t F) : Outcome (t F) :=
  let? s := each_predecoder (PredecodeBlock_CalculateArea g) s in
  let areaAllPredecoderBlocks :=
    (FunctionUnit.area (pre (rowPredecoderBlock1 s)) + FunctionUnit.area (pre (rowPredecoderBlock2 s))
       + FunctionUnit.area (pre (bitlineMuxPredecoderBlock1 s)) + FunctionUnit.area (pre (bitlineMuxPredecoderBlock2 s))
       + FunctionUnit.area (pre (senseAmpMuxLev1PredecoderBlock1 s)) + FunctionUnit.area (pre (senseAmpMuxLev1PredecoderBlock2 s))
       + FunctionUnit.area (pre (senseAmpMuxLev2PredecoderBlock1 s)) + FunctionUnit.area (pre (senseAmpMuxLev2PredecoderBlock2 s)))%num in
  Ret (s <! FunctionUnit.width := (FunctionUnit.width (Mat.fu (mat s)) * #(numColumnMat s))%num !>
         <! FunctionUnit.height := (FunctionUnit.height (Mat.fu (mat s)) * #(numRowMat s))%num !>
         <| areaAllLogicBlocks := areaAllPredecoderBlocks |>).

(** A strip of the given area along the longer side. *)
Definition add_strip (strip : F) (s : t F) : t F :=
  if (FunctionUnit.width (fu s) >? FunctionUnit.height (fu s))%num
  then s <! FunctionUnit.width := (FunctionUnit.width (fu s) + nsqrt strip)%num !>
  else s <! FunctionUnit.height := (FunctionUnit.height (fu s) + nsqrt strip)%num !>.

(** SubArray::CalculateArea: with fine-grained partitioning the predecoders move
    to the logic die and the TSVs take their place. *)
Definition area_predecoders (g : Globals.t F) (s : t F) : Outcome (t F) :=
  if (1 <? stackedDieCount s) && (partitionGranularity s =? 1) then
    let? v := TSV_CalculateArea g (tsvArray s) in
    let s := s <| tsvArray := v |> in
    let redundancyFactor := InputParameter.tsvRedundancy (Globals.inputParameter g) in
    let areaTSV := (FunctionUnit.area (TSV.fu (tsvArray s)) * #(totalPredecoderOutputBits s)
                    * redundancyFactor)%num in
    let total := trunc (#(totalPredecoderOutputBits s) * redundancyFactor + lit 1 (-1))%num in
    Ret (add_strip areaTSV (s <| tsvArray := (tsvArray s) <| TSV.numTotalBits := total |>
                                                          <| TSV.numAccessBits := total |> |>))
  else Ret (add_strip (areaAllLogicBlocks s) s).

(** SubArray::CalculateArea: the comparators of a tag array. *)
Definition area_comparator (g : Globals.t F) (s : t F) : Outcome (t F) :=
  if bool_decide (memoryType s = tag) && internalSenseAmp s then
    let? c := Comparator_CalculateArea g (comparator s) in
    let s := s <| comparator := c |> in
    let s := s <| areaAllLogicBlocks :=
                    (areaAllLogicBlocks s + FunctionUnit.area (Comparator.fu (comparator s)))%num |> in
    if (stackedDieCount s <=? 1) || negb (partitionGranularity s =? 1)
    then Ret (s <! FunctionUnit.height := (FunctionUnit.height (fu s)
           + #(numWay s) * FunctionUnit.area (Comparator.fu (comparator s)) / FunctionUnit.width (fu s))%num !>)
    else Ret s
  else Ret s.

(** SubArray::CalculateArea *)
Definition CalculateArea (g : Globals.t F) (s : t F) : Outcome (t F) :=
  if negb (initialized s) then Ret s
  else if invalid s then
    Ret (s <! FunctionUnit.height := invalid_value !> <! FunctionUnit.width := invalid_value !>
           <! FunctionUnit.area := invalid_value !>)
  else
    let? s := area_mats g s in
    let? s := area_predecoders g s in
    let? s := area_comparator g s in
    Ret (s <! FunctionUnit.area := (FunctionUnit.height (fu s) * FunctionUnit.width (fu s))%num !>).

(** SubArray::CalculateRC *)
Definition CalculateRC (g : Globals.t F) (s : t F) : Outcome (t F) :=
  if negb (initialized s) then Ret s
  else if invalid s then Ret s
  else
    let? s := each_predecoder (PredecodeBlock_CalculateRC g) s in
    if bool_decide (memoryType s = tag) && internalSenseAmp s
    then let? c := Comparator_CalculateRC g (comparator s) in Ret (s <| comparator := c |>)
    else Ret s.

(** SubArray::CalculateLatency: the slowest predecoder. *)
Definition latency_predecoders (g : Globals.t F) (_rampInput : F) (s : t F) : Outcome (t F) :=
  let? s := each_predecoder (PredecodeBlock_CalculateLatency g _rampInput) s in
  let lat p := FunctionUnit.readLatency (pre p) in
  let rowPredecoderLatency := MAX (lat (rowPredecoderBlock1 s)) (lat (rowPredecoderBlock2 s)) in
  let bitlineMuxPredecoderLatency :=
    MAX (lat (bitlineMuxPredecoderBlock1 s)) (lat (bitlineMuxPredecoderBlock2 s)) in
  let senseAmpMuxLev1PredecoderLatency :=
    MAX (lat (senseAmpMuxLev1PredecoderBlock1 s)) (lat (senseAmpMuxLev1PredecoderBlock2 s)) in
  let senseAmpMuxLev2PredecoderLatency :=
    MAX (lat (senseAmpMuxLev2PredecoderBlock1 s)) (lat (senseAmpMuxLev2PredecoderBlock2 s)) in
  Ret (s <| predecoderLatency :=
    MAX (MAX rowPredecoderLatency bitlineMuxPredecoderLatency)
        (MAX senseAmpMuxLev1PredecoderLatency senseAmpMuxLev2PredecoderLatency) |>).

(** SubArray::CalculateLatency: the predecoded address crosses the dies. *)
Definition latency_tsv (g : Globals.t F) (s : t F) : Outcome (t F) :=
  if (1 <? stackedDieCount s) && negb (partitionGranularity s =? 0) then
    let? v := TSV_CalculateLatencyAndPower g (lit 1 20) infinite_ramp (tsvArray s) in
    Ret (s <| tsvArray := v |>
           <| predecoderLatency := (predecoderLatency s
                + #(stackedDieCount s - 1) * FunctionUnit.writeLatency (TSV.fu v))%num |>)
  else Ret s.

(** SubArray::CalculateLatency: mats and comparators, once the mat is valid. *)
Definition latency_mats (g : Globals.t F) (_rampInput : F) (s : t F) : Outcome (t F) :=
  let m := Mat.fu (mat s) in
  let s := s
    <! FunctionUnit.readLatency := (predecoderLatency s + FunctionUnit.readLatency m)%num !>
    <! FunctionUnit.writeLatency := (predecoderLatency s + FunctionUnit.writeLatency m)%num !>
    <! FunctionUnit.resetLatency := (predecoderLatency s + FunctionUnit.resetLatency m)%num !>
    <! FunctionUnit.setLatency := (predecoderLatency s + FunctionUnit.setLatency m)%num !>
    <! FunctionUnit.refreshLatency := ((predecoderLatency s + FunctionUnit.refreshLatency m)
                                       * #(numColumnMat s))%num !> in
  if bool_decide (memoryType s = tag) && internalSenseAmp s then
    let? c := Comparator_CalculateLatency g _rampInput (comparator s) in
    Ret (s <| comparator := c |>
           <! FunctionUnit.readLatency := (FunctionUnit.readLatency (fu s)
                + FunctionUnit.readLatency (Comparator.fu c))%num !>)
  else Ret s.

(** SubArray::CalculateLatency *)
Definition CalculateLatency (g : Globals.t F) (_rampInput : F) (s : t F) : Outcome (t F) :=
  if negb (initialized s) then Ret s
  else if invalid s then
    Ret (s <! FunctionUnit.readLatency := invalid_value !> <! FunctionUnit.writeLatency := invalid_value !>)
  else
    let? s := latency_predecoders g _rampInput s in
    let? s := latency_tsv g s in
    let? m := Mat_CalculateLatency g
      (MIN (PredecodeBlock.rampOutput (rowPredecoderBlock1 s))
           (PredecodeBlock.rampOutput (rowPredecoderBlock2 s))) (mat s) in
    let s := s <| mat := m |> in
    if Mat.invalid m then
      Ret (s <| invalid := true |> <! FunctionUnit.readLatency := invalid_value !>
             <! FunctionUnit.writeLatency := invalid_value !> <! FunctionUnit.refreshLatency := invalid_value !>)
    else latency_mats g _rampInput s.

(** SubArray::CalculatePower: predecoders, mats and cells. *)
Definition CalculatePower_array (s : t F) : t F :=
    let m := Mat.fu (mat s) in
    let act := fun x : F => (x * #(numActiveMatPerRow s) * #(numActiveMatPerColumn s))%num in
    let s := s <! FunctionUnit.readDynamicEnergy :=
      (FunctionUnit.readDynamicEnergy (pre (rowPredecoderBlock1 s)) + FunctionUnit.readDynamicEnergy (pre (rowPredecoderBlock2 s))
         + FunctionUnit.readDynamicEnergy (pre (bitlineMuxPredecoderBlock1 s)) + FunctionUnit.readDynamicEnergy (pre (bitlineMuxPredecoderBlock2 s))
         + FunctionUnit.readDynamicEnergy (pre (senseAmpMuxLev1PredecoderBlock1 s)) + FunctionUnit.readDynamicEnergy (pre (senseAmpMuxLev1PredecoderBlock2 s))
         + FunctionUnit.readDynamicEnergy (pre (senseAmpMuxLev2PredecoderBlock1 s)) + FunctionUnit.readDynamicEnergy (pre (senseAmpMuxLev2PredecoderBlock2 s)))%num !> in
    let s := s <! FunctionUnit.writeDynamicEnergy :=
      (FunctionUnit.writeDynamicEnergy (pre (rowPredecoderBlock1 s)) + FunctionUnit.writeDynamicEnergy (pre (rowPredecoderBlock2 s))
         + FunctionUnit.writeDynamicEnergy (pre (bitlineMuxPredecoderBlock1 s)) + FunctionUnit.writeDynamicEnergy (pre (bitlineMuxPredecoderBlock2 s))
         + FunctionUnit.writeDynamicEnergy (pre (senseAmpMuxLev1PredecoderBlock1 s)) + FunctionUnit.writeDynamicEnergy (pre (senseAmpMuxLev1PredecoderBlock2 s))
         + FunctionUnit.writeDynamicEnergy (pre (senseAmpMuxLev2PredecoderBlock1 s)) + FunctionUnit.writeDynamicEnergy (pre (senseAmpMuxLev2PredecoderBlock2 s)))%num !> in
    let s := s <! FunctionUnit.refreshDynamicEnergy :=
      ((FunctionUnit.readDynamicEnergy (pre (rowPredecoderBlock1 s))
        + FunctionUnit.readDynamicEnergy (pre (rowPredecoderBlock2 s)))
       * #(wrap64 (Mat.numRow (mat s) * numRowMat s)))%num !> in
    let s := s <! FunctionUnit.leakage :=
      (FunctionUnit.leakage (pre (rowPredecoderBlock1 s)) + FunctionUnit.leakage (pre (rowPredecoderBlock2 s))
         + FunctionUnit.leakage (pre (bitlineMuxPredecoderBlock1 s)) + FunctionUnit.leakage (pre (bitlineMuxPredecoderBlock2 s))
         + FunctionUnit.leakage (pre (senseAmpMuxLev1PredecoderBlock1 s)) + FunctionUnit.leakage (pre (senseAmpMuxLev1PredecoderBlock2 s))
         + FunctionUnit.leakage (pre (senseAmpMuxLev2PredecoderBlock1 s)) + FunctionUnit.leakage (pre (senseAmpMuxLev2PredecoderBlock2 s)))%num !> in
    let s := s <! FunctionUnit.readDynamicEnergy :=
      (FunctionUnit.readDynamicEnergy (fu s) + act (FunctionUnit.readDynamicEnergy m))%num !> in
    let s := s <! FunctionUnit.refreshDynamicEnergy :=
      (FunctionUnit.refreshDynamicEnergy (fu s)
       + FunctionUnit.refreshDynamicEnergy m * #(numRowMat s) * #(numColumnMat s))%num !> in
    let s := s <! FunctionUnit.cellReadEnergy := act (FunctionUnit.cellReadEnergy m) !>
               <! FunctionUnit.cellSetEnergy := act (FunctionUnit.cellSetEnergy m) !>
               <! FunctionUnit.cellResetEnergy := act (FunctionUnit.cellResetEnergy m) !> in
    let s := s <! FunctionUnit.resetDynamicEnergy :=
      (FunctionUnit.writeDynamicEnergy (fu s) + act (FunctionUnit.resetDynamicEnergy m))%num !> in
    let s := s <! FunctionUnit.setDynamicEnergy :=
      (FunctionUnit.writeDynamicEnergy (fu s) + act (FunctionUnit.setDynamicEnergy m))%num !> in
    let s := s <! FunctionUnit.writeDynamicEnergy :=
      (FunctionUnit.writeDynamicEnergy (fu s) + act (FunctionUnit.writeDynamicEnergy m))%num !> in
    s <! FunctionUnit.leakage := (FunctionUnit.leakage (fu s)
          + FunctionUnit.leakage m * #(numRowMat s) * #(numColumnMat s))%num !>.

(** SubArray::CalculatePower: the TSVs that carry the predecoded address. *)
Definition CalculatePower_tsv (s : t F) : t F :=
  if (1 <? stackedDieCount s) && negb (partitionGranularity s =? 0) then
    let tsv := TSV.fu (tsvArray s) in
    let hops := wrap32 ((stackedDieCount s - 1) * totalPredecoderOutputBits s) in
    s <! FunctionUnit.readDynamicEnergy := (FunctionUnit.readDynamicEnergy (fu s)
           + #hops * FunctionUnit.readDynamicEnergy tsv)%num !>
      <! FunctionUnit.writeDynamicEnergy := (FunctionUnit.writeDynamicEnergy (fu s)
           + #hops * FunctionUnit.writeDynamicEnergy tsv)%num !>
      <! FunctionUnit.resetDynamicEnergy := (FunctionUnit.resetDynamicEnergy (fu s)
           + #hops * FunctionUnit.resetDynamicEnergy tsv)%num !>
      <! FunctionUnit.setDynamicEnergy := (FunctionUnit.setDynamicEnergy (fu s)
           + #hops * FunctionUnit.setDynamicEnergy tsv)%num !>
      <! FunctionUnit.refreshDynamicEnergy := (FunctionUnit.refreshDynamicEnergy (fu s)
           + #hops * FunctionUnit.readDynamicEnergy tsv)%num !>
      <! FunctionUnit.leakage := (FunctionUnit.leakage (fu s)
           + #(wrap32 (TSV.numTotalBits (tsvArray s) * (stackedDieCount s - 1)))
             * FunctionUnit.leakage tsv)%num !>
  else s.

(** SubArray::CalculatePower: the comparators of a tag array. *)
Definition CalculatePower_comparator (g : Globals.t F) (s : t F) : Outcome (t F) :=
  if bool_decide (memoryType s = tag) && internalSenseAmp s then
    let? cmp := Comparator_CalculatePower g (comparator s) in
    let s := s <| comparator := cmp |> in
    let c := Comparator.fu cmp in
    Ret (s <! FunctionUnit.readDynamicEnergy := (FunctionUnit.readDynamicEnergy (fu s)
                + FunctionUnit.readDynamicEnergy c * #(numWay s))%num !>
           <! FunctionUnit.writeDynamicEnergy := (FunctionUnit.writeDynamicEnergy (fu s)
                + FunctionUnit.writeDynamicEnergy c * #(numWay s))%num !>
           <! FunctionUnit.leakage := (FunctionUnit.leakage (fu s)
                + FunctionUnit.leakage c * #(numWay s))%num !>)
  else Ret s.

(** SubArray::CalculatePower: the power of the parts. *)
Definition CalculatePower_parts (g : Globals.t F) (s : t F) : Outcome (t F) :=
  let? s := each_predecoder (PredecodeBlock_CalculatePower g) s in
  let? m := Mat_CalculatePower g (mat s) in
  Ret (s <| mat := m |>).

(** SubArray::CalculatePower *)
Definition CalculatePower (g : Globals.t F) (s : t F) : Outcome (t F) :=
  if negb (initialized s) then Ret s
  else if invalid s then
    Ret (s <! FunctionUnit.readDynamicEnergy := invalid_value !>
           <! FunctionUnit.writeDynamicEnergy := invalid_value !> <! FunctionUnit.leakage := invalid_value !>)
  else
    let? s := CalculatePower_parts g s in
    if Mat.invalid (mat s) then
      Ret (s <| invalid := true |> <! FunctionUnit.readDynamicEnergy := invalid_value !>
             <! FunctionUnit.writeDynamicEnergy := invalid_value !>
             <! FunctionUnit.refreshDynamicEnergy := invalid_value !> <! FunctionUnit.leakage := invalid_value !>)
    else CalculatePower_comparator g (CalculatePower_tsv (CalculatePower_array s)).

(** SubArray::operator=: [stackedDieCount], [partitionGranularity],
    [totalPredecoderOutputBits] and, unless the target is an internally sensed
    tag array, the comparator keep their old values. *)
Definition assign (lhs rhs : t F) : t F :=
  mk ((fu rhs) <| FunctionUnit.newHeight := FunctionUnit.newHeight (fu lhs) |>
             <| FunctionUnit.newWidth := FunctionUnit.newWidth (fu lhs) |>)
     (initialized rhs) (invalid rhs) (internalSenseAmp rhs) (numRowMat rhs) (numColumnMat rhs)
     (numAddressBit rhs) (numDataBit rhs) (numWay rhs) (numRowPerSet rhs) (split rhs)
     (numActiveMatPerRow rhs) (numActiveMatPerColumn rhs) (muxSenseAmp rhs) (muxOutputLev1 rhs)
     (muxOutputLev2 rhs) (areaOptimizationLevel rhs) (memoryType rhs) (stackedDieCount lhs)
     (partitionGranularity lhs) (totalPredecoderOutputBits lhs) (predecoderLatency rhs)
     (areaAllLogicBlocks rhs) (mat rhs) (rowPredecoderBlock1 rhs) (rowPredecoderBlock2 rhs)
     (bitlineMuxPredecoderBlock1 rhs) (bitlineMuxPredecoderBlock2 rhs)
     (senseAmpMuxLev1PredecoderBlock1 rhs) (senseAmpMuxLev1PredecoderBlock2 rhs)
     (senseAmpMuxLev2PredecoderBlock1 rhs) (senseAmpMuxLev2PredecoderBlock2 rhs)
     (if bool_decide (memoryType rhs = tag) && internalSenseAmp rhs
      then comparator rhs else comparator lhs)
     (tsvArray rhs).

End Operations.
End SubArray.
