(* ===== verification/Htree.v ===== *)
(** * H-tree routing

    BankWithHtree::Initialize, the routing part: how many address, distributed
    and broadcast bits each level of the H-tree carries, and how many wire
    groups it has.  The six [int] arrays of a direction are one array of
    records here: every iteration of the source writes all six at one index.
    The counts are [int]s: a sum or product out of their range is undefined.
    (The address bits only count down, from the integer logarithm of a
    capacity, so their decrements stay in range.) *)
From S2P Require Import Prelude.
From stdpp Require Import base list.
From Stdlib Require Import ZArith Lia.
Open Scope Z_scope.

Module Htree.

(** numHorizontalAddressBitToRoute[x], ..., numActiveHorizontalWire[x] *)
Record Level : Type := mkLevel {
  addressBitToRoute : Z;
  dataDistributeBitToRoute : Z;
  dataBroadcastBitToRoute : Z;
  wire : Z;
  sumWire : Z;
  activeWire : Z
}.

(** The local variables of the routing loops, and the arrays. *)
Record Route : Type := mkRoute {
  h : Z;
  v : Z;
  rowToActive : Z;
  columnToActive : Z;
  numAddressBitToRoute : Z;
  numDataDistributeBitToRoute : Z;
  numDataBroadcastBitToRoute : Z;
  hTemp : Z;
  vTemp : Z;
  horizontal : array Level;
  vertical : array Level
}.
#[global] Instance eta_Route : RecordEta Route := fun x =>
  mkRoute (h x) (v x) (rowToActive x) (columnToActive x) (numAddressBitToRoute x)
    (numDataDistributeBitToRoute x) (numDataBroadcastBitToRoute x) (hTemp x) (vTemp x)
    (horizontal x) (vertical x).

Section Routing.
Context (levelHorizontal levelVertical : Z).

(** The early return of every routing step. *)
Definition exhausted (r : Route) : bool :=
  (numDataDistributeBitToRoute r + numDataBroadcastBitToRoute r =? 0)
  || (numAddressBitToRoute r =? 0).

(** [if (numDataDistributeBitToRoute + numDataBroadcastBitToRoute == 0 ||
    numAddressBitToRoute == 0) { invalid = true; initialized = true; return; }];
    the sum is an [int]. *)
Definition reject_exhausted (r : Route) : Init unit :=
  let! _ := checked (numDataDistributeBitToRoute r + numDataBroadcastBitToRoute r) in
  reject_if (exhausted r).

(** One step along a row: halve the data if several columns are still active,
    otherwise spend an address bit. *)
Definition reduce_column (r : Route) : Route :=
  if 1 <? columnToActive r then
    r <| numDataDistributeBitToRoute := Z.quot (numDataDistributeBitToRoute r) 2 |>
      <| columnToActive := Z.quot (columnToActive r) 2 |>
  else r <| numAddressBitToRoute := numAddressBitToRoute r - 1 |>.

Definition reduce_row (r : Route) : Route :=
  if 1 <? rowToActive r then
    r <| numDataDistributeBitToRoute := Z.quot (numDataDistributeBitToRoute r) 2 |>
      <| rowToActive := Z.quot (rowToActive r) 2 |>
  else r <| numAddressBitToRoute := numAddressBitToRoute r - 1 |>.

(** The wire groups that switch double when the step splits the data. *)
Definition fanout (toActive previous : Z) : Init Z :=
  if 1 <? toActive then checked (2 * previous) else Done previous.

Definition level_of (r : Route) (w s a : Z) : Level :=
  mkLevel (numAddressBitToRoute r) (numDataDistributeBitToRoute r) (numDataBroadcastBitToRoute r) w s a.

(** [if (h > 0)]: always route H as the first step. *)
Definition first_horizontal (r : Route) : Init Route :=
  if 0 <? h r then
    let! _ := reject_exhausted r in
    let! hor := awrite (horizontal r) 0 (level_of r 1 1 1) in
    Done (r <| horizontal := hor |> <| h := h r - 1 |>)
  else Done r.

(** [while (h > v)]: reduce H to V. *)
Definition step_horizontal (r : Route) : Init Route :=
  let! _ := reject_exhausted r in
  let i := levelHorizontal - h r in
  let! prev := aread (horizontal r) (i - 1) in
  let r' := reduce_column r in
  let! active := fanout (columnToActive r) (activeWire prev) in
  let! sum := checked (2 * sumWire prev) in
  let! hor := awrite (horizontal r) i (level_of r' 1 sum active) in
  let! vTemp' := checked (vTemp r * 2) in
  Done (r' <| horizontal := hor |> <| h := h r - 1 |> <| vTemp := vTemp' |>).

(** [while (v > h)]: reduce V to H. *)
Definition step_vertical (r : Route) : Init Route :=
  let! _ := reject_exhausted r in
  let i := levelVertical - v r in
  let! (prevSum, prevActive) :=
    if v r =? levelVertical then Done (1, 1)
    else let! prev := aread (vertical r) (i - 1) in Done (sumWire prev, activeWire prev) in
  let r' := reduce_row r in
  let! active := fanout (rowToActive r) prevActive in
  let! sum := checked (2 * prevSum) in
  let! ver := awrite (vertical r) i (level_of r' 1 sum active) in
  let! hTemp' := checked (hTemp r * 2) in
  Done (r' <| vertical := ver |> <| v := v r - 1 |> <| hTemp := hTemp' |>).

(** [while (h > 0)]: reduce H and V together. *)
Definition step_both (r : Route) : Init Route :=
  let! _ := reject_exhausted r in
  let i := levelHorizontal - h r in
  let j := levelVertical - v r in
  let! prev := if v r =? levelVertical then aread (horizontal r) (i - 1)
               else aread (vertical r) (j - 1) in
  let r1 := reduce_column r in
  let! active := fanout (columnToActive r) (activeWire prev) in
  let! sum := checked (2 * sumWire prev) in
  let! hor := awrite (horizontal r) i (level_of r1 (hTemp r) sum active) in
  let! _ := reject_exhausted r1 in
  let r2 := reduce_row r1 in
  let! active' := fanout (rowToActive r1) active in
  let! w := if levelHorizontal =? 2 then Done (vTemp r) else checked (2 * vTemp r) in
  let! sum' := checked (2 * sum) in
  let! ver := awrite (vertical r) j (level_of r2 w sum' active') in
  let! hTemp' := checked (hTemp r * 2) in
  let! vTemp' := checked (vTemp r * 2) in
  Done (r2 <| horizontal := hor |> <| vertical := ver |> <| h := h r - 1 |> <| v := v r - 1 |>
           <| hTemp := hTemp' |> <| vTemp := vTemp' |>).

(** The step after the loops. *)
Definition last_step (r : Route) : Init Route :=
  let! _ := reject_exhausted r in
  Done (if 1 <? columnToActive r then
          r <| numDataDistributeBitToRoute := Z.quot (numDataDistributeBitToRoute r) 2 |>
            <| columnToActive := Z.quot (columnToActive r) 2 |>
        else if 0 <? levelHorizontal then
          r <| numAddressBitToRoute := numAddressBitToRoute r - 1 |>
        else r).

(** The routing of BankWithHtree::Initialize. *)
Definition route (numAddressBit numDataDistributeBit numDataBroadcastBit
    numActiveSubArrayPerColumn numActiveSubArrayPerRow : Z) : Init Route :=
  let r := mkRoute levelHorizontal levelVertical numActiveSubArrayPerColumn numActiveSubArrayPerRow
             numAddressBit numDataDistributeBit numDataBroadcastBit 1 1
             (new_array levelHorizontal) (new_array levelVertical) in
  let! r := first_horizontal r in
  let! r := while_loop (S (Z.to_nat levelHorizontal)) (fun r => v r <? h r) step_horizontal r in
  let! r := while_loop (S (Z.to_nat levelVertical)) (fun r => h r <? v r) step_vertical r in
  let! r := while_loop (S (Z.to_nat levelHorizontal)) (fun r => 0 <? h r) step_both r in
  last_step r.

(** ** The invariant of the loops *)

Section Invariant.
Context (A D B ca ra : Z).
Hypothesis HLH : 0 <= levelHorizontal.
Hypothesis HLV : 0 <= levelVertical.
Hypothesis HA : 0 <= A.
Hypothesis HD : 0 <= D.
Hypothesis HB : 0 <= B.
Hypothesis Hca : 0 <= ca <= levelHorizontal.
Hypothesis Hra : 0 <= ra <= levelVertical.
Hypothesis Hlevels : levelHorizontal + levelVertical < 31.
Hypothesis Hbits : D + B < 2 ^ 31.

(** A level carries no more than the root, its active groups exist, and there are
    at most [2^k] groups after [k] steps. *)
Definition level_ok (k : Z) (l : Level) : Prop :=
  0 <= addressBitToRoute l <= A /\ 0 <= dataDistributeBitToRoute l <= D /\
  dataBroadcastBitToRoute l = B /\ 1 <= wire l /\ 1 <= activeWire l <= sumWire l /\
  sumWire l <= 2 ^ k.

Lemma filled_ok_mono k k' n arr : 0 <= k <= k' ->
  filled (fun _ => level_ok k) n arr -> filled (fun _ => level_ok k') n arr.
Proof.
  intros Hk Hf i Hi. destruct (Hf i Hi) as (l & El & Hl). exists l. split; [done|].
  pose proof (pow2_le k k' Hk). unfold level_ok in *. lia.
Qed.

(** [dh] column steps and [dv] row steps have been taken. *)
Definition bits_after (dh dv : Z) (r : Route) : Prop :=
  columnToActive r = 2 ^ (ca - Z.min dh ca) /\
  rowToActive r = 2 ^ (ra - Z.min dv ra) /\
  numAddressBitToRoute r = A - (dh - Z.min dh ca) - (dv - Z.min dv ra) /\
  numDataDistributeBitToRoute r = Z.quot D (2 ^ (Z.min dh ca + Z.min dv ra)) /\
  numDataBroadcastBitToRoute r = B /\
  0 <= numAddressBitToRoute r.

(** The next index to write in each direction. *)
Definition next_h (r : Route) : Z := if 0 <? levelHorizontal then levelHorizontal - h r else 0.
Definition next_v (r : Route) : Z := levelVertical - v r.

(** The steps taken after the first one. *)
Definition steps (r : Route) : Z := Z.max 0 (levelHorizontal - 1) - h r + (levelVertical - v r).

Definition arrays_ok (r : Route) : Prop :=
  Z.of_nat (length (horizontal r)) = levelHorizontal /\
  Z.of_nat (length (vertical r)) = levelVertical /\
  filled (fun _ => level_ok (steps r)) (next_h r) (horizontal r) /\
  filled (fun _ => level_ok (steps r)) (next_v r) (vertical r) /\
  1 <= hTemp r <= 2 ^ steps r /\ 1 <= vTemp r <= 2 ^ steps r.

Definition counters_ok (r : Route) : Prop :=
  0 <= h r <= Z.max 0 (levelHorizontal - 1) /\ 0 <= v r <= levelVertical.

Definition inv (r : Route) : Prop :=
  counters_ok r /\ arrays_ok r /\
  bits_after (Z.max 0 (levelHorizontal - 1) - h r) (levelVertical - v r) r.

Lemma not_exhausted r : exhausted r = false -> numAddressBitToRoute r <> 0.
Proof. unfold exhausted. rewrite orb_false_iff, !Z.eqb_neq. tauto. Qed.

Lemma half_quot k : 0 <= k -> Z.quot (Z.quot D (2 ^ k)) 2 = Z.quot D (2 ^ (k + 1)).
Proof.
  intros Hk. rewrite Z.quot_quot; [|pose proof (pow2_pos k Hk); lia|lia].
  rewrite pow2_succ by lia. f_equal. lia.
Qed.

Lemma half_pow2 k : 1 < 2 ^ k -> Z.quot (2 ^ k) 2 = 2 ^ (k - 1) /\ 1 <= k.
Proof.
  intros H. assert (1 <= k). { destruct (Z.le_gt_cases k 0); [|lia].
    destruct (Z.eq_dec k 0) as [->|]; [lia|]. rewrite Z.pow_neg_r in H; lia. }
  split; [|lia]. change 2 with (2 ^ 1) at 2. rewrite quot_pow2 by lia. done.
Qed.

Lemma one_pow2 k : 0 <= k -> 2 ^ k <= 1 -> k = 0.
Proof. intros Hk H. destruct (Z.eq_dec k 0); [done|]. pose proof (pow2_le 1 k). lia. Qed.

Lemma reduce_column_bits dh dv r :
  bits_after dh dv r -> exhausted r = false -> 0 <= dh -> 0 <= dv ->
  bits_after (dh + 1) dv (reduce_column r).
Proof.
  intros (Hc & Hr & Ha & Hd & Hb & Hpos) Hex%not_exhausted Hdh Hdv.
  unfold reduce_column. destruct (Z.ltb_spec 1 (columnToActive r)) as [Hlt|Hge].
  - rewrite Hc in Hlt. apply half_pow2 in Hlt as [Hh Hk].
    repeat split; cbn; try done.
    + rewrite Hc, Hh. f_equal. lia.
    + rewrite Ha. lia.
    + rewrite Hd, half_quot by lia. do 2 f_equal. lia.
  - rewrite Hc in Hge. apply one_pow2 in Hge; [|lia].
    repeat split; cbn; try done; try lia.
    + rewrite Hc. f_equal. lia.
    + rewrite Hd. do 2 f_equal. lia.
Qed.

Lemma reduce_row_bits dh dv r :
  bits_after dh dv r -> exhausted r = false -> 0 <= dh -> 0 <= dv ->
  bits_after dh (dv + 1) (reduce_row r).
Proof.
  intros (Hc & Hr & Ha & Hd & Hb & Hpos) Hex%not_exhausted Hdh Hdv.
  unfold reduce_row. destruct (Z.ltb_spec 1 (rowToActive r)) as [Hlt|Hge].
  - rewrite Hr in Hlt. apply half_pow2 in Hlt as [Hh Hk].
    repeat split; cbn; try done.
    + rewrite Hr, Hh. f_equal. lia.
    + rewrite Ha. lia.
    + rewrite Hd, half_quot by lia. do 2 f_equal. lia.
  - rewrite Hr in Hge. apply one_pow2 in Hge; [|lia].
    repeat split; cbn; try done; try lia.
    + rewrite Hr. f_equal. lia.
    + rewrite Hd. do 2 f_equal. lia.
Qed.

(** A level built from routed bits is well formed. *)
Lemma level_of_ok dh dv r k w s a :
  0 <= dh -> 0 <= dv -> bits_after dh dv r -> 1 <= w -> 1 <= a <= s -> s <= 2 ^ k ->
  level_ok k (level_of r w s a).
Proof.
  intros Hdh Hdv (Hc & Hr & Ha & Hd & Hb & Hpos) Hw Hs Hk.
  unfold level_ok, level_of; cbn. rewrite Hd.
  pose proof (pow2_pos (Z.min dh ca + Z.min dv ra) ltac:(lia)).
  rewrite Z.quot_div_nonneg by lia.
  pose proof (Z.div_pos D (2 ^ (Z.min dh ca + Z.min dv ra))).
  assert (D / 2 ^ (Z.min dh ca + Z.min dv ra) <= D) by (apply Z.div_le_upper_bound; nia).
  repeat split; try lia; congruence.
Qed.

(** Counts double without leaving the [int]s. *)
Lemma double_ok k x : 1 <= x <= 2 ^ k -> 0 <= k < 30 ->
  checked (2 * x) = Done (2 * x) /\ checked (x * 2) = Done (x * 2) /\ 2 <= 2 * x <= 2 ^ (k + 1).
Proof.
  intros Hx Hk. pose proof (pow2_lt (k + 1) 31 ltac:(lia)) as Hlt. rewrite (pow2_succ k) in * by lia.
  rewrite (checked_in (2 * x)), (checked_in (x * 2)) by lia. repeat split; lia.
Qed.

Lemma fanout_ok k t p s : 1 <= p <= s -> s <= 2 ^ k -> 0 <= k < 30 ->
  exists a, fanout t p = Done a /\ 1 <= a <= 2 * s.
Proof.
  intros Hp Hs Hk. unfold fanout. destruct (double_ok k p) as (E & _); [lia|done|].
  destruct (1 <? t); [rewrite E|]; eexists; (split; [reflexivity|lia]).
Qed.

Lemma reject_exhausted_eq dh dv r : bits_after dh dv r -> 0 <= dh -> 0 <= dv ->
  reject_exhausted r = reject_if (exhausted r).
Proof.
  intros (_ & _ & _ & Ed & Eb & _) Hdh Hdv. unfold reject_exhausted. rewrite Ed, Eb.
  pose proof (pow2_pos (Z.min dh ca + Z.min dv ra) ltac:(lia)). rewrite Z.quot_div_nonneg by lia.
  pose proof (Z.div_pos D (2 ^ (Z.min dh ca + Z.min dv ra))).
  assert (D / 2 ^ (Z.min dh ca + Z.min dv ra) <= D) by (apply Z.div_le_upper_bound; nia).
  by rewrite checked_in by lia.
Qed.

Lemma first_bits :
  bits_after 0 0 (mkRoute levelHorizontal levelVertical (2 ^ ra) (2 ^ ca) A D B 1 1
    (new_array levelHorizontal) (new_array levelVertical)).
Proof.
  repeat split; cbn; try lia; try done.
  - f_equal. lia.
  - f_equal. lia.
  - rewrite !Z.min_l, Z.quot_1_r by lia. done.
Qed.

Lemma first_horizontal_safe :
  let r := mkRoute levelHorizontal levelVertical (2 ^ ra) (2 ^ ca) A D B 1 1
             (new_array levelHorizontal) (new_array levelVertical) in
  safe inv (first_horizontal r).
Proof.
  intros r. assert (Hb0 : bits_after 0 0 r) by apply first_bits.
  unfold first_horizontal. rewrite (reject_exhausted_eq 0 0 r Hb0) by lia.
  destruct (Z.ltb_spec 0 (h r)) as [Hpos|Hzero]; cbn in *.
  - apply (safe_bind _ _ _ _ (safe_reject _)). intros _ _.
    eapply safe_bind; [apply (awrite_next (fun _ => level_ok 0))|].
    + apply filled_new.
    + rewrite length_new_array; lia.
    + eapply (level_of_ok 0 0 r); try lia; done.
    + intros hor [Hf Hl]. split; [|split].
      * split; cbn; lia.
      * unfold arrays_ok, steps, next_h, next_v; cbn.
        replace (Z.max 0 (levelHorizontal - 1) - (levelHorizontal - 1) + (levelVertical - levelVertical)) with 0 by lia.
        rewrite Hl, !length_new_array, Z.sub_diag by lia. repeat split; try lia.
        -- destruct (Z.ltb_spec 0 levelHorizontal); [|lia].
           replace (levelHorizontal - (levelHorizontal - 1)) with (0 + 1) by lia. done.
        -- apply filled_new.
      * cbn. rewrite Z.sub_diag, Z.max_r, Z.sub_diag by lia. exact Hb0.
  - assert (levelHorizontal = 0) by lia. split; [|split].
    + split; cbn; lia.
    + unfold arrays_ok, steps, next_h, next_v; cbn.
      replace (Z.max 0 (levelHorizontal - 1) - levelHorizontal + (levelVertical - levelVertical)) with 0 by lia.
      rewrite !length_new_array, !Z.sub_diag by lia. repeat split; try lia; [|apply filled_new].
      destruct (Z.ltb_spec 0 levelHorizontal); [lia|]. apply filled_new.
    + cbn. rewrite Z.sub_diag. replace (Z.max 0 _ - _) with 0 by lia. exact Hb0.
Qed.

(** The untouched members of a reduction. *)
Lemma reduce_column_frame r :
  h (reduce_column r) = h r /\ v (reduce_column r) = v r /\ rowToActive (reduce_column r) = rowToActive r
  /\ hTemp (reduce_column r) = hTemp r /\ vTemp (reduce_column r) = vTemp r
  /\ horizontal (reduce_column r) = horizontal r /\ vertical (reduce_column r) = vertical r.
Proof. unfold reduce_column. by destruct (1 <? columnToActive r). Qed.

Lemma reduce_row_frame r :
  h (reduce_row r) = h r /\ v (reduce_row r) = v r /\ columnToActive (reduce_row r) = columnToActive r
  /\ hTemp (reduce_row r) = hTemp r /\ vTemp (reduce_row r) = vTemp r
  /\ horizontal (reduce_row r) = horizontal r /\ vertical (reduce_row r) = vertical r.
Proof. unfold reduce_row. by destruct (1 <? rowToActive r). Qed.

(** Bits only depend on the five routed quantities. *)
Lemma bits_after_ext dh dv r r' :
  columnToActive r' = columnToActive r -> rowToActive r' = rowToActive r ->
  numAddressBitToRoute r' = numAddressBitToRoute r ->
  numDataDistributeBitToRoute r' = numDataDistributeBitToRoute r ->
  numDataBroadcastBitToRoute r' = numDataBroadcastBitToRoute r ->
  bits_after dh dv r -> bits_after dh dv r'.
Proof. unfold bits_after. intros -> -> -> -> ->. done. Qed.

Lemma next_h_pos r : 0 < h r -> counters_ok r -> next_h r = levelHorizontal - h r.
Proof.
  unfold next_h, counters_ok. intros. destruct (Z.ltb_spec 0 levelHorizontal); [done|lia].
Qed.

Lemma step_horizontal_safe r : inv r -> (v r <? h r) = true ->
  safe (fun r' => inv r' /\ (Z.to_nat (h r') < Z.to_nat (h r))%nat) (step_horizontal r).
Proof.
  intros (Hc & Ha & Hb) Hlt%Z.ltb_lt. pose proof Hc as [Hh Hv].
  pose proof (next_h_pos r ltac:(lia) Hc) as Hn.
  pose proof Ha as (Hlh & Hlv & Hfh & Hfv & Hth & Htv). rewrite Hn in Hfh.
  assert (Hk : 0 <= steps r < 30) by (unfold steps; lia).
  unfold step_horizontal. rewrite (reject_exhausted_eq _ _ r Hb) by lia.
  apply (safe_bind _ _ _ _ (safe_reject _)). intros _ Hex.
  eapply safe_bind; [eapply aread_filled; [exact Hfh|lia]|]. intros prev (_ & _ & _ & _ & Hp & Hs).
  pose proof (reduce_column_bits _ _ r Hb Hex ltac:(lia) ltac:(lia)) as Hb'.
  destruct (reduce_column_frame r) as (E1 & E2 & E3 & E4 & E5 & E6 & E7).
  destruct (fanout_ok (steps r) (columnToActive r) _ _ Hp Hs Hk) as (a & -> & Ha'). cbn [init_bind].
  destruct (double_ok (steps r) (sumWire prev)) as (-> & _ & Hs2); [lia|done|]. cbn [init_bind].
  eapply safe_bind; [apply (awrite_next (fun _ => level_ok (steps r + 1)) (levelHorizontal - h r))|].
  { eapply filled_ok_mono; [|exact Hfh]. lia. }
  { lia. }
  { eapply level_of_ok; [| |exact Hb'|..]; lia. }
  intros hor [Hf Hl]. destruct (double_ok (steps r) (vTemp r)) as (_ & -> & Hv2); [lia|done|]. cbn [init_bind].
  split; [|cbn; lia]. split; [|split].
  - split; cbn; rewrite ?E2; lia.
  - unfold arrays_ok, steps, next_h, next_v; cbn. rewrite ?E2, ?E4, ?E5, ?E7.
    replace (Z.max 0 (levelHorizontal - 1) - (h r - 1) + (levelVertical - v r)) with (steps r + 1) by (unfold steps; lia).
    rewrite pow2_succ in * by lia. repeat split; try lia.
    + destruct (Z.ltb_spec 0 levelHorizontal); [|lia].
      replace (levelHorizontal - (h r - 1)) with (levelHorizontal - h r + 1) by lia. done.
    + eapply filled_ok_mono; [|exact Hfv]. lia.
  - eapply bits_after_ext; [..|cbn; rewrite E2;
      replace (Z.max 0 (levelHorizontal - 1) - (h r - 1)) with (Z.max 0 (levelHorizontal - 1) - h r + 1) by lia;
      exact Hb']; done.
Qed.

Lemma step_vertical_safe r : inv r -> (h r <? v r) = true ->
  safe (fun r' => inv r' /\ h r' = h r /\ v r' = v r - 1) (step_vertical r).
Proof.
  intros (Hc & Ha & Hb) Hlt%Z.ltb_lt. pose proof Hc as [Hh Hv].
  pose proof Ha as (Hlh & Hlv & Hfh & Hfv & Hth & Htv). unfold next_v in Hfv.
  assert (Hk : 0 <= steps r < 30) by (unfold steps; lia). pose proof (pow2_pos (steps r) ltac:(lia)).
  unfold step_vertical. rewrite (reject_exhausted_eq _ _ r Hb) by lia.
  apply (safe_bind _ _ _ _ (safe_reject _)). intros _ Hex.
  eapply (safe_bind (fun p => 1 <= snd p <= fst p /\ fst p <= 2 ^ steps r)).
  { destruct (Z.eqb_spec (v r) levelVertical); [cbn; lia|].
    eapply safe_bind; [eapply aread_filled; [exact Hfv|lia]|].
    intros prev (_ & _ & _ & _ & Hp). exact Hp. }
  intros [prevSum prevActive] [Hp Hs]; cbn in Hp, Hs.
  pose proof (reduce_row_bits _ _ r Hb Hex ltac:(lia) ltac:(lia)) as Hb'.
  destruct (reduce_row_frame r) as (E1 & E2 & E3 & E4 & E5 & E6 & E7).
  destruct (fanout_ok (steps r) (rowToActive r) _ _ Hp Hs Hk) as (a & -> & Ha'). cbn [init_bind].
  destruct (double_ok (steps r) prevSum) as (-> & _ & Hs2); [lia|done|]. cbn [init_bind].
  eapply safe_bind; [apply (awrite_next (fun _ => level_ok (steps r + 1)) (levelVertical - v r))|].
  { eapply filled_ok_mono; [|exact Hfv]. lia. }
  { lia. }
  { eapply level_of_ok; [| |exact Hb'|..]; lia. }
  intros ver [Hf Hl]. destruct (double_ok (steps r) (hTemp r)) as (_ & -> & Hv2); [lia|done|]. cbn [init_bind].
  split; [|by cbn]. split; [|split].
  - split; cbn; rewrite ?E1; lia.
  - unfold arrays_ok, steps, next_h, next_v; cbn. rewrite ?E1, ?E4, ?E5, ?E6.
    replace (Z.max 0 (levelHorizontal - 1) - h r + (levelVertical - (v r - 1))) with (steps r + 1) by (unfold steps; lia).
    rewrite pow2_succ in * by lia. repeat split; try lia.
    + eapply filled_ok_mono; [|exact Hfh]. lia.
    + replace (levelVertical - (v r - 1)) with (levelVertical - v r + 1) by lia. done.
  - eapply bits_after_ext; [..|cbn; rewrite E1;
      replace (levelVertical - (v r - 1)) with (levelVertical - v r + 1) by lia; exact Hb']; done.
Qed.

(** Between the second and the third loop the two counters meet. *)
Lemma step_both_safe r : inv r /\ h r = v r -> (0 <? h r) = true ->
  safe (fun r' => (inv r' /\ h r' = v r') /\ (Z.to_nat (h r') < Z.to_nat (h r))%nat) (step_both r).
Proof.
  intros [(Hc & Ha & Hb) Heq] Hlt%Z.ltb_lt. pose proof Hc as [Hh Hv].
  pose proof (next_h_pos r ltac:(lia) Hc) as Hn.
  pose proof Ha as (Hlh & Hlv & Hfh & Hfv & Hth & Htv). rewrite Hn in Hfh. unfold next_v in Hfv.
  assert (Hk : 0 <= steps r < 29) by (unfold steps; lia).
  unfold step_both. rewrite (reject_exhausted_eq _ _ r Hb) by lia.
  apply (safe_bind _ _ _ _ (safe_reject _)). intros _ Hex.
  apply (safe_bind (level_ok (steps r))).
  { destruct (Z.eqb_spec (v r) levelVertical);
      [apply (aread_filled (fun _ => level_ok (steps r)) (levelHorizontal - h r))
      |apply (aread_filled (fun _ => level_ok (steps r)) (levelVertical - v r))]; done || lia. }
  intros prev (_ & _ & _ & _ & Hp & Hs).
  pose proof (reduce_column_bits _ _ r Hb Hex ltac:(lia) ltac:(lia)) as Hb1.
  destruct (reduce_column_frame r) as (E1 & E2 & E3 & E4 & E5 & E6 & E7).
  destruct (fanout_ok (steps r) (columnToActive r) _ _ Hp Hs ltac:(lia)) as (a & -> & Ha'). cbn [init_bind].
  destruct (double_ok (steps r) (sumWire prev)) as (-> & _ & Hs2); [lia|lia|]. cbn [init_bind].
  eapply safe_bind; [apply (awrite_next (fun _ => level_ok (steps r + 1)) (levelHorizontal - h r))|].
  { eapply filled_ok_mono; [|exact Hfh]. lia. }
  { lia. }
  { eapply level_of_ok; [| |exact Hb1|..]; lia. }
  intros hor [Hfh' Hlh']. rewrite (reject_exhausted_eq _ _ _ Hb1) by lia.
  apply (safe_bind _ _ _ _ (safe_reject _)). intros _ Hex1.
  pose proof (reduce_row_bits _ _ _ Hb1 Hex1 ltac:(lia) ltac:(lia)) as Hb2.
  destruct (reduce_row_frame (reduce_column r)) as (G1 & G2 & G3 & G4 & G5 & G6 & G7).
  destruct (fanout_ok (steps r + 1) (rowToActive (reduce_column r)) a (2 * sumWire prev)) as (a' & -> & Ha2);
    [lia..|]. cbn [init_bind].
  destruct (double_ok (steps r) (vTemp r)) as (Ev & Ev' & Hv2); [lia|lia|]. rewrite Ev, Ev'.
  eapply (safe_bind (fun w => 1 <= w)); [destruct (levelHorizontal =? 2); cbn; lia|]. intros w Hw.
  destruct (double_ok (steps r + 1) (2 * sumWire prev)) as (-> & _ & Hs4); [lia|lia|]. cbn [init_bind].
  replace (steps r + 1 + 1) with (steps r + 2) in * by lia.
  eapply safe_bind; [apply (awrite_next (fun _ => level_ok (steps r + 2)) (levelVertical - v r))|].
  { eapply filled_ok_mono; [|exact Hfv]. lia. }
  { lia. }
  { eapply level_of_ok; [| |exact Hb2|..]; lia. }
  intros ver [Hfv' Hlv']. destruct (double_ok (steps r) (hTemp r)) as (_ & -> & Hh2); [lia|lia|]. cbn [init_bind].
  split; [|cbn; lia]. split; [|cbn; lia]. split; [|split].
  - split; cbn; lia.
  - unfold arrays_ok, steps, next_h, next_v; cbn.
    replace (Z.max 0 (levelHorizontal - 1) - (h r - 1) + (levelVertical - (v r - 1))) with (steps r + 2)
      by (unfold steps; lia).
    assert (2 ^ (steps r + 1) <= 2 ^ (steps r + 2)) by (apply pow2_le; lia). repeat split; try lia.
    + destruct (Z.ltb_spec 0 levelHorizontal); [|lia].
      replace (levelHorizontal - (h r - 1)) with (levelHorizontal - h r + 1) by lia.
      eapply filled_ok_mono; [|exact Hfh']. lia.
    + replace (levelVertical - (v r - 1)) with (levelVertical - v r + 1) by lia. done.
  - eapply bits_after_ext; [..|cbn;
      replace (levelVertical - (v r - 1)) with (levelVertical - v r + 1) by lia;
      replace (Z.max 0 (levelHorizontal - 1) - (h r - 1)) with (Z.max 0 (levelHorizontal - 1) - h r + 1) by lia;
      exact Hb2]; done.
Qed.

(** What the routing leaves for a subarray. *)
Definition routed (r : Route) : Prop :=
  numAddressBitToRoute r = A - (levelHorizontal - ca) - (levelVertical - ra) /\
  numDataDistributeBitToRoute r = Z.quot D (2 ^ (ca + ra)) /\
  numDataBroadcastBitToRoute r = B /\
  filled (fun _ => level_ok (levelHorizontal + levelVertical)) levelHorizontal (horizontal r) /\
  filled (fun _ => level_ok (levelHorizontal + levelVertical)) levelVertical (vertical r).

Lemma last_step_safe r : inv r -> h r = 0 -> v r = 0 -> safe routed (last_step r).
Proof.
  intros (Hc & Ha & Hb) Hh0 Hv0. rewrite Hh0, Hv0, !Z.sub_0_r in Hb.
  pose proof Ha as (Hlh & Hlv & Hfh & Hfv & Hth & Htv). unfold next_v, next_h in *.
  rewrite Hh0 in Hfh. rewrite Hv0, Z.sub_0_r in Hfv.
  assert (Hk : 0 <= steps r <= levelHorizontal + levelVertical) by (unfold steps; lia).
  apply (filled_ok_mono _ _ _ _ Hk) in Hfh, Hfv.
  assert (Hfh' : filled (fun _ => level_ok (levelHorizontal + levelVertical)) levelHorizontal (horizontal r)).
  { destruct (Z.ltb_spec 0 levelHorizontal); [by rewrite Z.sub_0_r in Hfh|].
    intros i Hi. lia. }
  unfold last_step. rewrite (reject_exhausted_eq _ _ r Hb) by lia.
  apply (safe_bind _ _ _ _ (safe_reject _)). intros _ Hex. cbn [safe].
  destruct (Z.ltb_spec 0 levelHorizontal) as [Hpos|Hz].
  - assert (Hb' := reduce_column_bits _ _ r Hb Hex ltac:(lia) ltac:(lia)).
    destruct Hb' as (_ & _ & Ha' & Hd' & Hb' & _). unfold reduce_column in *.
    destruct (1 <? columnToActive r); cbn in *; repeat split; cbn; try done.
    all: rewrite ?Ha', ?Hd'; try lia; do 2 f_equal; lia.
  - destruct Hb as (Hcol & _ & Ha' & Hd' & Hb' & _).
    replace (1 <? columnToActive r) with false
      by (rewrite Hcol; replace (ca - _) with 0 by lia; done).
    repeat split; try done; rewrite ?Ha', ?Hd'; try lia; do 2 f_equal; lia.
Qed.

(** The routing never leaves its arrays and never reads an unset level; when it
    completes, the bits left are a closed form of its inputs. *)
Lemma route_safe : safe routed (route A D B (2 ^ ra) (2 ^ ca)).
Proof.
  unfold route. eapply safe_bind; [apply first_horizontal_safe|]. intros r0 I0.
  eapply safe_bind.
  { apply (while_loop_safe inv (fun r => Z.to_nat (h r)) _ _ step_horizontal_safe);
      [done|destruct I0 as ([? ?] & _); lia]. }
  intros r1 [I1 C1%Z.ltb_ge]. eapply safe_bind.
  { apply (while_loop_safe (fun r => inv r /\ h r <= v r) (fun r => Z.to_nat (v r))).
    - intros r [I L] C. eapply safe_weaken; [exact (step_vertical_safe r I C)|].
      intros r' (I' & Eh & Ev). apply Z.ltb_lt in C. pose proof I as ([? ?] & _).
      split; [split; [done|lia]|lia].
    - split; [done|lia].
    - destruct I1 as ([? ?] & _); lia. }
  intros r2 [[I2 L2] C2%Z.ltb_ge]. eapply safe_bind.
  { apply (while_loop_safe (fun r => inv r /\ h r = v r) (fun r => Z.to_nat (h r)) _ _ step_both_safe);
      [split; [done|lia]|destruct I2 as ([? ?] & _); lia]. }
  intros r3 [[I3 E3] C3%Z.ltb_ge]. pose proof I3 as ([? ?] & _).
  apply last_step_safe; [done|lia|lia].
Qed.

(** With an address bit to spare and data to carry, no step is rejected. *)
Section Complete.
Hypothesis Haddress : (levelHorizontal - ca) + (levelVertical - ra) < A.
Hypothesis Hdata : 2 ^ (ca + ra) <= D \/ 0 < B.

Lemma enough dh dv r : bits_after dh dv r -> 0 <= dh <= levelHorizontal -> 0 <= dv <= levelVertical ->
  exhausted r = false.
Proof.
  intros (_ & _ & Ea & Ed & Eb & _) Hh Hv. unfold exhausted.
  rewrite (proj2 (Z.eqb_neq (numAddressBitToRoute r) 0)) by lia. rewrite orb_false_r. apply Z.eqb_neq.
  rewrite Ed, Eb. assert (0 < 2 ^ (Z.min dh ca + Z.min dv ra)) by (apply pow2_pos; lia).
  assert (2 ^ (Z.min dh ca + Z.min dv ra) <= 2 ^ (ca + ra)) by (apply pow2_le; lia).
  assert (0 <= Z.quot D (2 ^ (Z.min dh ca + Z.min dv ra))) by (apply Z.quot_pos; lia).
  destruct Hdata as [HD'|HB']; [|lia]. rewrite Z.quot_div_nonneg by lia.
  assert (1 <= D / 2 ^ (Z.min dh ca + Z.min dv ra)) by (apply Z.div_le_lower_bound; lia). lia.
Qed.

Lemma enough_inv r : inv r -> exhausted r = false.
Proof.
  intros (([? ?] & [? ?]) & _ & Hb). eapply enough; [exact Hb|lia|lia].
Qed.

Lemma enough_reject r : inv r -> reject_exhausted r = Done tt.
Proof.
  intros Hi. pose proof Hi as (([? ?] & [? ?]) & _ & Hb).
  rewrite (reject_exhausted_eq _ _ r Hb) by lia. by rewrite (enough_inv r Hi).
Qed.

Lemma fanout_proceeds t p : proceeds false (fanout t p).
Proof. unfold fanout. destruct (1 <? t); eauto with nscache. Qed.
#[local] Hint Resolve fanout_proceeds : nscache.

Ltac proceed := cbn [init_bind]; eauto 14 with nscache.

Lemma step_horizontal_proceeds r : inv r -> proceeds false (step_horizontal r).
Proof. intros Hi. unfold step_horizontal. rewrite (enough_reject r Hi). proceed. Qed.

Lemma step_vertical_proceeds r : inv r -> proceeds false (step_vertical r).
Proof.
  intros Hi. unfold step_vertical. rewrite (enough_reject r Hi). cbn [init_bind].
  destruct (v r =? levelVertical); apply proceeds_bind; eauto 14 with nscache;
    intros [? ?]; eauto 14 with nscache.
Qed.

Lemma step_both_proceeds r : inv r -> (0 <? h r) = true -> proceeds false (step_both r).
Proof.
  intros Hi Hpos%Z.ltb_lt. unfold step_both. rewrite (enough_reject r Hi).
  assert (Hex1 : reject_exhausted (reduce_column r) = Done tt).
  { pose proof (enough_inv r Hi) as Hex. destruct Hi as (([? ?] & [? ?]) & _ & Hb).
    apply (reduce_column_bits _ _ r) in Hb; [|done|lia|lia].
    rewrite (reject_exhausted_eq _ _ _ Hb) by lia. rewrite (enough _ _ _ Hb) by lia. done. }
  rewrite Hex1. cbn [init_bind].
  apply proceeds_bind; [destruct (v r =? levelVertical); eauto with nscache|]. intros prev.
  do 3 (apply proceeds_bind; [eauto with nscache|intros ?]).
  apply proceeds_bind; [eauto with nscache|intros ?].
  apply proceeds_bind; [destruct (levelHorizontal =? 2); eauto with nscache|]. eauto 14 with nscache.
Qed.

Lemma route_proceeds : proceeds false (route A D B (2 ^ ra) (2 ^ ca)).
Proof.
  unfold route. eapply proceeds_bind_safe; [apply first_horizontal_safe| |].
  { unfold first_horizontal. cbn [h]. destruct (0 <? levelHorizontal) eqn:E; [|done]. apply Z.ltb_lt in E.
    rewrite (reject_exhausted_eq 0 0), (enough 0 0) by (apply first_bits || lia). proceed. }
  intros r0 I0. eapply proceeds_bind_safe.
  { apply (while_loop_safe inv (fun r => Z.to_nat (h r)) _ _ step_horizontal_safe);
      [done|destruct I0 as ([? ?] & _); lia]. }
  { apply (while_loop_proceeds false inv (fun r => Z.to_nat (h r)));
      [|done|destruct I0 as ([? ?] & _); lia].
    intros r Hi Hc. split; [by apply step_horizontal_safe|by apply step_horizontal_proceeds]. }
  intros r1 [I1 C1%Z.ltb_ge].
  assert (Hvert : forall r, inv r /\ h r <= v r -> (h r <? v r) = true ->
    safe (fun r' => (inv r' /\ h r' <= v r') /\ (Z.to_nat (v r') < Z.to_nat (v r))%nat) (step_vertical r)).
  { intros r [Hi L] C. eapply safe_weaken; [exact (step_vertical_safe r Hi C)|].
    intros r' (I' & Eh & Ev). apply Z.ltb_lt in C. pose proof Hi as ([? ?] & _).
    split; [split; [done|lia]|lia]. }
  eapply proceeds_bind_safe.
  { apply (while_loop_safe _ _ _ _ Hvert); [split; [done|lia]|destruct I1 as ([? ?] & _); lia]. }
  { apply (while_loop_proceeds false (fun r => inv r /\ h r <= v r) (fun r => Z.to_nat (v r)));
      [|split; [exact I1|lia]|destruct I1 as ([? ?] & _); lia].
    intros r Hi Hc. split; [by apply Hvert|apply step_vertical_proceeds, Hi]. }
  intros r2 [[I2 L2] C2%Z.ltb_ge]. eapply proceeds_bind_safe.
  { apply (while_loop_safe (fun r => inv r /\ h r = v r) (fun r => Z.to_nat (h r)) _ _ step_both_safe);
      [split; [done|lia]|destruct I2 as ([? ?] & _); lia]. }
  { eapply (while_loop_proceeds false (fun r => inv r /\ h r = v r) (fun r => Z.to_nat (h r)));
      [|split; [exact I2|lia]|destruct I2 as ([? ?] & _); lia].
    intros r Hi Hc. split; [by apply step_both_safe|apply step_both_proceeds; [apply Hi|done]]. }
  intros r3 [[I3 E3] C3%Z.ltb_ge]. unfold last_step. rewrite (enough_reject r3 I3). proceed.
Qed.

End Complete.
End Invariant.
End Routing.
End Htree.
