(* ===== verification/Bank.v ===== *)
(** * Banks

    Bank.h/.cpp: the members common to both bank organisations, the arguments of
    [Initialize], and the code the two organisations repeat word for word. *)
From S2P Require Import Prelude Numeric Types InputParameter Circuit SubArray.
From stdpp Require Import base list.
From Stdlib Require Import ZArith Lia.
Open Scope Z_scope.

(** The parameters of [Bank::Initialize]. *)
Module BankArgs.

Record t : Type := mk {
  _numRowSubArray : Z;
  _numColumnSubArray : Z;
  _capacity : Z;
  _blockSize : Z;
  _associativity : Z;
  _numRowPerSet : Z;
  _numActiveSubArrayPerRow : Z;
  _numActiveSubArrayPerColumn : Z;
  _muxSenseAmp : Z;
  _internalSenseAmp : bool;
  _muxOutputLev1 : Z;
  _muxOutputLev2 : Z;
  _numRowMat : Z;
  _numColumnMat : Z;
  _numActiveMatPerRow : Z;
  _numActiveMatPerColumn : Z;
  _areaOptimizationLevel : BufferDesignTarget;
  _memoryType : MemoryType;
  _stackedDieCount : Z;
  _partitionGranularity : Z;
  _monolithicStackCount : Z
}.
#[global] Instance eta : RecordEta (t) := fun x =>
  mk (_numRowSubArray x) (_numColumnSubArray x) (_capacity x) (_blockSize x) (_associativity x)
    (_numRowPerSet x) (_numActiveSubArrayPerRow x) (_numActiveSubArrayPerColumn x)
    (_muxSenseAmp x) (_internalSenseAmp x) (_muxOutputLev1 x) (_muxOutputLev2 x) (_numRowMat x)
    (_numColumnMat x) (_numActiveMatPerRow x) (_numActiveMatPerColumn x)
    (_areaOptimizationLevel x) (_memoryType x) (_stackedDieCount x) (_partitionGranularity x)
    (_monolithicStackCount x).

End BankArgs.

Module Bank.

Record t (F : Type) : Type := mk {
  fu : FunctionUnit.t F;
  initialized : bool;
  invalid : bool;
  internalSenseAmp : bool;
  numRowSubArray : Z;
  numColumnSubArray : Z;
  capacity : Z;
  blockSize : Z;
  associativity : Z;
  numRowPerSet : Z;
  numActiveSubArrayPerRow : Z;
  numActiveSubArrayPerColumn : Z;
  muxSenseAmp : Z;
  muxOutputLev1 : Z;
  muxOutputLev2 : Z;
  numRowMat : Z;
  numColumnMat : Z;
  numActiveMatPerRow : Z;
  numActiveMatPerColumn : Z;
  areaOptimizationLevel : BufferDesignTarget;
  memoryType : MemoryType;
  stackedDieCount : Z;
  partitionGranularity : Z;
  routingReadLatency : F;
  routingWriteLatency : F;
  routingResetLatency : F;
  routingSetLatency : F;
  routingRefreshLatency : F;
  routingReadDynamicEnergy : F;
  routingWriteDynamicEnergy : F;
  routingResetDynamicEnergy : F;
  routingSetDynamicEnergy : F;
  routingRefreshDynamicEnergy : F;
  routingLeakage : F;
  subarray : SubArray.t F;
  tsvArray : TSV.t F
}.
Arguments mk {_} _ _ _ _ _ _ _ _ _ _ _ _ _ _ _ _ _ _ _ _ _ _ _ _ _ _ _ _ _ _ _ _ _ _ _ _.
Arguments fu {_} _.
Arguments initialized {_} _.
Arguments invalid {_} _.
Arguments internalSenseAmp {_} _.
Arguments numRowSubArray {_} _.
Arguments numColumnSubArray {_} _.
Arguments capacity {_} _.
Arguments blockSize {_} _.
Arguments associativity {_} _.
Arguments numRowPerSet {_} _.
Arguments numActiveSubArrayPerRow {_} _.
Arguments numActiveSubArrayPerColumn {_} _.
Arguments muxSenseAmp {_} _.
Arguments muxOutputLev1 {_} _.
Arguments muxOutputLev2 {_} _.
Arguments numRowMat {_} _.
Arguments numColumnMat {_} _.
Arguments numActiveMatPerRow {_} _.
Arguments numActiveMatPerColumn {_} _.
Arguments areaOptimizationLevel {_} _.
Arguments memoryType {_} _.
Arguments stackedDieCount {_} _.
Arguments partitionGranularity {_} _.
Arguments routingReadLatency {_} _.
Arguments routingWriteLatency {_} _.
Arguments routingResetLatency {_} _.
Arguments routingSetLatency {_} _.
Arguments routingRefreshLatency {_} _.
Arguments routingReadDynamicEnergy {_} _.
Arguments routingWriteDynamicEnergy {_} _.
Arguments routingResetDynamicEnergy {_} _.
Arguments routingSetDynamicEnergy {_} _.
Arguments routingRefreshDynamicEnergy {_} _.
Arguments routingLeakage {_} _.
Arguments subarray {_} _.
Arguments tsvArray {_} _.
#[global] Instance eta {F : Type} : RecordEta (t F) := fun x =>
  mk (fu x) (initialized x) (invalid x) (internalSenseAmp x) (numRowSubArray x)
    (numColumnSubArray x) (capacity x) (blockSize x) (associativity x) (numRowPerSet x)
    (numActiveSubArrayPerRow x) (numActiveSubArrayPerColumn x) (muxSenseAmp x) (muxOutputLev1 x)
    (muxOutputLev2 x) (numRowMat x) (numColumnMat x) (numActiveMatPerRow x)
    (numActiveMatPerColumn x) (areaOptimizationLevel x) (memoryType x) (stackedDieCount x)
    (partitionGranularity x) (routingReadLatency x) (routingWriteLatency x)
    (routingResetLatency x) (routingSetLatency x) (routingRefreshLatency x)
    (routingReadDynamicEnergy x) (routingWriteDynamicEnergy x) (routingResetDynamicEnergy x)
    (routingSetDynamicEnergy x) (routingRefreshDynamicEnergy x) (routingLeakage x) (subarray x)
    (tsvArray x).


(** [fu.field = v] on the inherited members. *)
Notation "s <! p := v !>" := (field_update (proj := fu) (field_update (proj := p) (fun _ => v)) s)
  (at level 1, left associativity, p at level 9, v at level 200, only parsing) : cpp_scope.

Section Operations.
Context {F : Type} `{Num F} `{CircuitOps F}.

(** Bank::Bank; the other members keep what the memory held. *)
Definition Bank (raw : t F) : t F :=
  raw <| fu := FunctionUnit.FunctionUnit |> <| initialized := false |> <| invalid := false |>
      <| subarray := SubArray.SubArray (subarray raw) |>.

(** [invalid = true; initialized = true; return;] *)
Definition reject (b : t F) : t F := b <| invalid := true |> <| initialized := true |>.

(** The copied arguments and the clamped activities. *)
Definition Initialize_members (a : BankArgs.t) (b : t F) : t F :=
  b
    <| numRowSubArray := BankArgs._numRowSubArray a |>
    <| numColumnSubArray := BankArgs._numColumnSubArray a |>
    <| capacity := BankArgs._capacity a |>
    <| blockSize := BankArgs._blockSize a |>
    <| associativity := BankArgs._associativity a |>
    <| numRowPerSet := BankArgs._numRowPerSet a |>
    <| internalSenseAmp := BankArgs._internalSenseAmp a |>
    <| areaOptimizationLevel := BankArgs._areaOptimizationLevel a |>
    <| memoryType := BankArgs._memoryType a |>
    <| stackedDieCount := BankArgs._stackedDieCount a |>
    <| partitionGranularity := BankArgs._partitionGranularity a |>
    <| numActiveSubArrayPerRow :=
         if BankArgs._numColumnSubArray a <? BankArgs._numActiveSubArrayPerRow a
         then BankArgs._numColumnSubArray a else BankArgs._numActiveSubArrayPerRow a |>
    <| numActiveSubArrayPerColumn :=
         if BankArgs._numRowSubArray a <? BankArgs._numActiveSubArrayPerColumn a
         then BankArgs._numRowSubArray a else BankArgs._numActiveSubArrayPerColumn a |>
    <| muxSenseAmp := BankArgs._muxSenseAmp a |>
    <| muxOutputLev1 := BankArgs._muxOutputLev1 a |>
    <| muxOutputLev2 := BankArgs._muxOutputLev2 a |>
    <| numRowMat := BankArgs._numRowMat a |>
    <| numColumnMat := BankArgs._numColumnMat a |>
    <| numActiveMatPerRow :=
         if BankArgs._numColumnMat a <? BankArgs._numActiveMatPerRow a
         then BankArgs._numColumnMat a else BankArgs._numActiveMatPerRow a |>
    <| numActiveMatPerColumn :=
         if BankArgs._numRowMat a <? BankArgs._numActiveMatPerColumn a
         then BankArgs._numRowMat a else BankArgs._numActiveMatPerColumn a |>.

(** [(double)capacity / blockSize / associativity [/ stackedDieCount]], as an
    integer logarithm. *)
Definition address_bits (b : t F) : Z :=
  if 1 <? stackedDieCount b
  then int_log2 (#(capacity b) / #(blockSize b) / #(associativity b) / #(stackedDieCount b))%num
  else int_log2 (#(capacity b) / #(blockSize b) / #(associativity b))%num.

(** A row that holds several ways needs a larger multiplexer; the factors of the
    bitline multiplexer and of the two output multiplexers. *)
Definition extra_muxes (dram : bool) (numWayPerRow : Z) : Z * Z * Z :=
  if 1 <? numWayPerRow then
    let numWayPerRowInLog := int_log2 (of_Z numWayPerRow) in
    if dram then
      let extraMuxOutputLev2 := trunc (npow (of_Z 2) (of_Z (Z.quot numWayPerRowInLog 2))) in
      let extraMuxOutputLev1 := Z.quot numWayPerRow extraMuxOutputLev2 in
      (1, extraMuxOutputLev1, extraMuxOutputLev2)
    else
      let extraMuxOutputLev2 := trunc (npow (of_Z 2) (of_Z (Z.quot numWayPerRowInLog 3))) in
      let extraMuxOutputLev1 := extraMuxOutputLev2 in
      let extraMuxSenseAmp := Z.quot (Z.quot numWayPerRow extraMuxOutputLev1) extraMuxOutputLev2 in
      (extraMuxSenseAmp, extraMuxOutputLev1, extraMuxOutputLev2)
  else (1, 1, 1).

(** [subarray.Initialize(...)] with the bank's members. *)
Definition init_subarray (g : Globals.t F) (addressBit dataBit numWay monolithicStackCount : Z)
  (mx l1 l2 : Z) (b : t F) : Outcome (t F) :=
  let? s := SubArray.Initialize g (numRowMat b) (numColumnMat b) addressBit dataBit
              numWay (numRowPerSet b) false (numActiveMatPerRow b) (numActiveMatPerColumn b)
              mx (internalSenseAmp b) l1 l2 (areaOptimizationLevel b) (memoryType b)
              (stackedDieCount b) (partitionGranularity b) monolithicStackCount (subarray b) in
  Ret (b <| subarray := s |>).

(** The aspect ratio limit on data banks; zero disables it. *)
Definition aspect_ratio_illegal (g : Globals.t F) (b : t F) : bool :=
  let limit := InputParameter.bankAspectRatioLimit (Globals.inputParameter g) in
  let h := FunctionUnit.height (fu b) in
  let w := FunctionUnit.width (fu b) in
  bool_decide (memoryType b = data) && (limit >? #0)%num
  && ((h / w >? limit)%num || (w / h >? limit)%num).

Definition set_invalid_area (b : t F) : t F :=
  b <! FunctionUnit.height := invalid_value !> <! FunctionUnit.width := invalid_value !>
    <! FunctionUnit.area := invalid_value !>.

(** The wire area: how many wires share a repeater, and their pitch. *)
Definition wire_sharing (w : Wire.t F) : Z * F :=
  if bool_decide (Wire.wireRepeaterType w = repeated_none) then (1, of_Z 0)
  else (trunc (nfloor (Wire.repeaterSpacing w / Wire.repeaterHeight w)%num), Wire.repeatedWirePitch w).

(** The number of TSVs, from the bits that cross the dies. *)
Definition count_tsv_bits (g : Globals.t F) (b : t F) : t F :=
  let numControlBits := stackedDieCount b in
  let numAddressBits := if partitionGranularity b =? 1 then 0
    else int_log2 (#(capacity b) / #(blockSize b) / #(associativity b) / #(stackedDieCount b))%num in
  let numDataBits := wrap32 (blockSize b * 2) in
  let redundancyFactor := InputParameter.tsvRedundancy (Globals.inputParameter g) in
  b <| tsvArray := (tsvArray b)
         <| TSV.numTotalBits := trunc (#(numControlBits + numAddressBits + numDataBits) * redundancyFactor)%num |>
         <| TSV.numAccessBits := trunc (#(numControlBits + numAddressBits + blockSize b) * redundancyFactor)%num |> |>.

(** The TSV part of both [CalculateArea]s. *)
Definition add_tsv_area (g : Globals.t F) (b : t F) : Outcome (t F) :=
  if 1 <? stackedDieCount b then
    let? v := TSV_CalculateArea g (tsvArray b) in
    let b := count_tsv_bits g (b <| tsvArray := v |>) in
    Ret (b <! FunctionUnit.area := (FunctionUnit.area (fu b)
           + #(TSV.numTotalBits (tsvArray b)) * FunctionUnit.area (TSV.fu (tsvArray b)))%num !>)
  else Ret b.

(** The TSV part of both [CalculateLatencyAndPower]s that is common. *)
Definition tsv_latency_power (g : Globals.t F) (b : t F) : Outcome (t F) :=
  let b := b <! FunctionUnit.leakage := (FunctionUnit.leakage (fu b) * #(stackedDieCount b))%num !> in
  let? v := TSV_CalculateLatencyAndPower g (lit 1 20) infinite_ramp (tsvArray b) in
  let b := count_tsv_bits g (b <| tsvArray := v |>) in
  let redundancyFactor := InputParameter.tsvRedundancy (Globals.inputParameter g) in
  let numControlBits := stackedDieCount b in
  let numAddressBits := if partitionGranularity b =? 1 then 0
    else int_log2 (#(capacity b) / #(blockSize b) / #(associativity b) / #(stackedDieCount b))%num in
  Ret (b <| tsvArray := (tsvArray b)
         <| TSV.numReadBits := trunc (#(numControlBits + numAddressBits) * redundancyFactor)%num |>
         <| TSV.numDataBits := trunc (#(blockSize b) * redundancyFactor)%num |> |>).

Definition tsv_energy (b : t F) : t F :=
  let tsv := tsvArray b in
  let hops := stackedDieCount b - 1 in
  b <! FunctionUnit.readDynamicEnergy := (FunctionUnit.readDynamicEnergy (fu b)
         + (#(wrap32 (TSV.numReadBits tsv * hops)) * FunctionUnit.writeDynamicEnergy (TSV.fu tsv)
            + #(TSV.numDataBits tsv) * FunctionUnit.readDynamicEnergy (TSV.fu tsv) * #hops))%num !>
    <! FunctionUnit.writeDynamicEnergy := (FunctionUnit.writeDynamicEnergy (fu b)
         + #(wrap32 (TSV.numAccessBits tsv * hops)) * FunctionUnit.writeDynamicEnergy (TSV.fu tsv))%num !>
    <! FunctionUnit.resetDynamicEnergy := (FunctionUnit.resetDynamicEnergy (fu b)
         + #(wrap32 (TSV.numAccessBits tsv * hops)) * FunctionUnit.resetDynamicEnergy (TSV.fu tsv))%num !>
    <! FunctionUnit.setDynamicEnergy := (FunctionUnit.setDynamicEnergy (fu b)
         + #(wrap32 (TSV.numAccessBits tsv * hops)) * FunctionUnit.setDynamicEnergy (TSV.fu tsv))%num !>
    <! FunctionUnit.refreshDynamicEnergy := (FunctionUnit.refreshDynamicEnergy (fu b)
         + #(wrap32 (TSV.numReadBits tsv * hops)) * FunctionUnit.writeDynamicEnergy (TSV.fu tsv))%num !>
    <! FunctionUnit.leakage := (FunctionUnit.leakage (fu b)
         + #(wrap32 (TSV.numTotalBits tsv * hops)) * FunctionUnit.leakage (TSV.fu tsv))%num !>.

(** The routing share of every metric: what the bank adds to its subarrays. *)
Definition routing_shares (b : t F) : t F :=
  let s := SubArray.fu (subarray b) in
  let act := fun x : F => (x * #(numActiveSubArrayPerColumn b) * #(numActiveSubArrayPerRow b))%num in
  b <| routingReadLatency := (FunctionUnit.readLatency (fu b) - FunctionUnit.readLatency s)%num |>
    <| routingWriteLatency := (FunctionUnit.writeLatency (fu b) - FunctionUnit.writeLatency s)%num |>
    <| routingResetLatency := (FunctionUnit.resetLatency (fu b) - FunctionUnit.resetLatency s)%num |>
    <| routingSetLatency := (FunctionUnit.setLatency (fu b) - FunctionUnit.setLatency s)%num |>
    <| routingRefreshLatency := (FunctionUnit.refreshLatency (fu b) - FunctionUnit.refreshLatency s)%num |>
    <| routingReadDynamicEnergy :=
         (FunctionUnit.readDynamicEnergy (fu b) - act (FunctionUnit.readDynamicEnergy s))%num |>
    <| routingWriteDynamicEnergy :=
         (FunctionUnit.writeDynamicEnergy (fu b) - act (FunctionUnit.writeDynamicEnergy s))%num |>
    <| routingResetDynamicEnergy :=
         (FunctionUnit.resetDynamicEnergy (fu b) - act (FunctionUnit.resetDynamicEnergy s))%num |>
    <| routingSetDynamicEnergy :=
         (FunctionUnit.setDynamicEnergy (fu b) - act (FunctionUnit.setDynamicEnergy s))%num |>
    <| routingRefreshDynamicEnergy :=
         (FunctionUnit.refreshDynamicEnergy (fu b) - act (FunctionUnit.refreshDynamicEnergy s))%num |>
    <| routingLeakage := (FunctionUnit.leakage (fu b)
         - FunctionUnit.leakage s * #(numColumnSubArray b) * #(numRowSubArray b))%num |>.

(** The retention check at the end of both [CalculateLatencyAndPower]s. *)
Definition check_retention (g : Globals.t F) (b : t F) : t F :=
  if IsRefreshMemory (MemCell.memCellType (Globals.cell g))
     && (FunctionUnit.refreshLatency (fu b) >? MemCell.retentionTime (Globals.cell g))%num
  then b <| invalid := true |> else b.

(** Both [CalculateLatencyAndPower]s, when the bank is already invalid. *)
Definition set_invalid_metrics (b : t F) : t F :=
  b <! FunctionUnit.readLatency := invalid_value !> <! FunctionUnit.writeLatency := invalid_value !>
    <! FunctionUnit.readDynamicEnergy := invalid_value !>
    <! FunctionUnit.writeDynamicEnergy := invalid_value !> <! FunctionUnit.leakage := invalid_value !>.

(** ... and when a subarray turns out invalid. *)
Definition fail_metrics (b : t F) : t F :=
  set_invalid_metrics (b <| invalid := true |>)
    <! FunctionUnit.refreshLatency := invalid_value !>
    <! FunctionUnit.refreshDynamicEnergy := invalid_value !>.

(** Bank::operator=, which the explorer applies through [Bank *]: the members of
    the derived classes are not copied, nor are [newHeight] and [newWidth]. *)
Definition assign (lhs rhs : t F) : t F :=
  rhs <| fu := (fu rhs) <| FunctionUnit.newHeight := FunctionUnit.newHeight (fu lhs) |>
                        <| FunctionUnit.newWidth := FunctionUnit.newWidth (fu lhs) |> |>
      <| subarray := SubArray.assign (subarray lhs) (subarray rhs) |>.

End Operations.
End Bank.
