(* ===== verification/BankWithHtree.v ===== *)
(** * Banks routed by an H-tree

    BankWithHtree.h/.cpp.  The phases return [Init]: [Undefined] if an array
    would be read before it is set or outside its bounds or an [int] overflow,
    [Halt] if a circuit ends the program.  Inside a phase an early return that
    marks the bank invalid is an ordinary result. *)
From S2P Require Import Prelude Numeric Types InputParameter Circuit SubArray Htree Bank.
From stdpp Require Import base list.
From Stdlib Require Import ZArith Lia.
Open Scope Z_scope.

Module BankWithHtree.

Record t (F : Type) : Type := mk {
  bank : Bank.t F;
  numAddressBit : Z;
  numDataDistributeBit : Z;
  numDataBroadcastBit : Z;
  levelHorizontal : Z;
  levelVertical : Z;
  horizontal : array Htree.Level;
  vertical : array Htree.Level;
  lengthHorizontalWire : array F;
  lengthVerticalWire : array F
}.
Arguments mk {_} _ _ _ _ _ _ _ _ _ _.
Arguments bank {_} _.
Arguments numAddressBit {_} _.
Arguments numDataDistributeBit {_} _.
Arguments numDataBroadcastBit {_} _.
Arguments levelHorizontal {_} _.
Arguments levelVertical {_} _.
Arguments horizontal {_} _.
Arguments vertical {_} _.
Arguments lengthHorizontalWire {_} _.
Arguments lengthVerticalWire {_} _.
#[global] Instance eta {F : Type} : RecordEta (t F) := fun x =>
  mk (bank x) (numAddressBit x) (numDataDistributeBit x) (numDataBroadcastBit x)
     (levelHorizontal x) (levelVertical x) (horizontal x) (vertical x)
     (lengthHorizontalWire x) (lengthVerticalWire x).

(** [b.p = v] on a member of the base class. *)
Notation "b <@ p := v @>" := (field_update (proj := bank) (field_update (proj := p) (fun _ => v)) b)
  (at level 1, left associativity, p at level 9, v at level 200, only parsing) : cpp_scope.

Section Operations.
Context {F : Type} `{Num F} `{CircuitOps F}.

(** BankWithHtree::BankWithHtree *)
Definition BankWithHtree (raw : t F) : t F :=
  raw <| bank := Bank.Bank (bank raw) |> <| horizontal := [] |> <| vertical := [] |>
      <| lengthHorizontalWire := [] |> <| lengthVerticalWire := [] |>.

Definition reject (b : t F) : t F := b <| bank := Bank.reject (bank b) |>.

(** The arrays of a re-initialised bank are released. *)
Definition release (b : t F) : t F :=
  b <@ Bank.initialized := false @> <@ Bank.invalid := false @>
    <| horizontal := [] |> <| vertical := [] |>
    <| lengthHorizontalWire := [] |> <| lengthVerticalWire := [] |>.

(** The signals to route: data words are distributed and way selects broadcast;
    for a tag array the ways are distributed and the tag is broadcast. *)
Definition signals (b : t F) : t F :=
  let b := b <| numAddressBit := Bank.address_bits (bank b) |> in
  match Bank.memoryType (bank b) with
  | data => b <| numDataDistributeBit := wrap32 (Bank.blockSize (bank b)) |>
              <| numDataBroadcastBit := trunc (nlog2 (of_Z (Bank.associativity (bank b)))) |>
  | tag => b <| numDataDistributeBit := Bank.associativity (bank b) |>
             <| numDataBroadcastBit := wrap32 (Bank.blockSize (bank b)) |>
  | CAM => b <| numDataDistributeBit := 0 |>
             <| numDataBroadcastBit := wrap32 (Bank.blockSize (bank b)) |>
  end.

(** The levels of the tree, and the arrays allocated for them. *)
Definition allocate (b : t F) : t F :=
  let lh := int_log2 (of_Z (Bank.numColumnSubArray (bank b))) in
  let lv := int_log2 (of_Z (Bank.numRowSubArray (bank b))) in
  b <| levelHorizontal := lh |> <| levelVertical := lv |>
    <| lengthHorizontalWire := new_array lh |> <| lengthVerticalWire := new_array lv |>.

(** The ways a subarray holds, and whether that is legal; [None] is the early return. *)
Definition ways_of_subarray (r : Htree.Route) (b : t F) : option Z :=
  let ways := trunc (npow (of_Z 2) (of_Z (Htree.numDataBroadcastBitToRoute r))) in
  match Bank.memoryType (bank b) with
  | data => if ways <? Bank.numRowPerSet (bank b) then None else Some ways
  | tag => if 1 <? Bank.numRowPerSet (bank b) then None
           else if Htree.numDataDistributeBitToRoute r =? 0 then None
           else Some (Htree.numDataDistributeBitToRoute r)
  | CAM => Some 1
  end.

(** The subarray of the routed bank. *)
Definition init_subarray (g : Globals.t F) (monolithicStackCount : Z) (r : Htree.Route)
  (numWay : Z) (b : t F) : Outcome (t F) :=
  let m := Bank.memoryType (bank b) in
  let subarrayBlockSize := match m with
                           | data => Htree.numDataDistributeBitToRoute r
                           | _ => Htree.numDataBroadcastBitToRoute r
                           end in
  let '(extraMuxSenseAmp, extraMuxOutputLev1, extraMuxOutputLev2) :=
    match m with
    | data => Bank.extra_muxes (IsRefreshMemory (MemCell.memCellType (Globals.cell g)))
                (Z.quot numWay (Bank.numRowPerSet (bank b)))
    | _ => (1, 1, 1)
    end in
  let mx := wrap32 (Bank.muxSenseAmp (bank b) * extraMuxSenseAmp) in
  let l1 := wrap32 (Bank.muxOutputLev1 (bank b) * extraMuxOutputLev1) in
  let l2 := wrap32 (Bank.muxOutputLev2 (bank b) * extraMuxOutputLev2) in
  let? k := Bank.init_subarray g (Htree.numAddressBitToRoute r) subarrayBlockSize numWay
              monolithicStackCount mx l1 l2
              ((bank b) <| Bank.muxSenseAmp := mx |> <| Bank.muxOutputLev1 := l1 |>
                        <| Bank.muxOutputLev2 := l2 |>) in
  Ret (b <| bank := k |>).

(** BankWithHtree::Initialize, after the subarray: legality, the multiplexers
    reset, and TSVs. *)
Definition Initialize_end (g : Globals.t F) (a : BankArgs.t) (b : t F) : Outcome (t F) :=
  if SubArray.invalid (Bank.subarray (bank b)) then Ret (reject b)
  else
    let b := b <| bank := (bank b) <| Bank.muxSenseAmp := BankArgs._muxSenseAmp a |>
               <| Bank.muxOutputLev1 := BankArgs._muxOutputLev1 a |>
               <| Bank.muxOutputLev2 := BankArgs._muxOutputLev2 a |> |> in
    let? b := if negb (Bank.stackedDieCount (bank b) =? 0)
      then let? v := TSV_Initialize g
                  (WireTypeToTSVType (InputParameter.maxGlobalWireType (Globals.inputParameter g)))
                  (Bank.tsvArray (bank b)) in
           Ret (b <@ Bank.tsvArray := v @>)
      else Ret b in
    Ret (b <@ Bank.initialized := true @>).

(** BankWithHtree::Initialize, from the routing loops on. *)
Definition Initialize_route (g : Globals.t F) (a : BankArgs.t) (b : t F) : Init (t F) :=
  match Htree.route (levelHorizontal b) (levelVertical b) (numAddressBit b)
          (numDataDistributeBit b) (numDataBroadcastBit b)
          (Bank.numActiveSubArrayPerColumn (bank b)) (Bank.numActiveSubArrayPerRow (bank b)) with
  | Undefined => Undefined
  | Halt e => Halt e
  | Invalid => Done (reject b)
  | Done r =>
      let b := b <| horizontal := Htree.horizontal r |> <| vertical := Htree.vertical r |> in
      match ways_of_subarray r b with
      | None => Done (reject b)
      | Some numWay =>
          let! b := circuit (init_subarray g (BankArgs._monolithicStackCount a) r numWay b) in
          circuit (Initialize_end g a b)
      end
  end.

(** BankWithHtree::Initialize.  The arrays of a rejected bank are left out: no
    phase reads them. *)
Definition Initialize (g : Globals.t F) (a : BankArgs.t) (b : t F) : Init (t F) :=
  if (BankArgs._numRowSubArray a =? 0) || (BankArgs._numColumnSubArray a =? 0) then Done (reject b)
  else
    let b := if Bank.initialized (bank b) then release b else b in
    if negb (BankArgs._internalSenseAmp a) then Done (b <@ Bank.invalid := true @>)
    else
      let b := b <| bank := Bank.Initialize_members a (bank b) |> in
      Initialize_route g a (allocate (signals b)).

(** *** CalculateArea *)

(** The bits of a level, a sum of [int]s. *)
Definition level_bits (l : Htree.Level) : Init Z :=
  let! x := checked (Htree.addressBitToRoute l + Htree.dataDistributeBitToRoute l) in
  checked (x + Htree.dataBroadcastBitToRoute l).

(** [for (i = 0; i < n; i++) side += ceil(bits * wire / sharing) * pitch] *)
Definition add_wire_area (levels : array Htree.Level) (n sharing : Z) (pitch side : F) : Init F :=
  init_for 0 n (fun side i =>
    let! l := aread levels i in
    let! bits := level_bits l in
    Done (side + nceil (#bits * #(Htree.wire l) / #sharing) * pitch)%num) side.

(** The counters and the two arrays of the wire length computation. *)
Record Lengths : Type := mkLengths { lh : Z; lv : Z; lenH : array F; lenV : array F }.

Definition half_pitch (l : Htree.Level) (sharing : Z) (pitch : F) : Init F :=
  let! bits := level_bits l in
  Done (nceil (#bits / #sharing) * pitch / #2)%num.

(** [while (v > h)] *)
Definition length_vertical (b : t F) (s : Lengths) : Init Lengths :=
  let sh := FunctionUnit.height (SubArray.fu (Bank.subarray (bank b))) in
  let! len := if lv s =? levelVertical b - 1 then Done (sh / #2)%num
              else let! x := aread (lenV s) (lv s + 1) in Done (x * #2)%num in
  let! arr := awrite (lenV s) (lv s) len in
  Done (mkLengths (lh s) (lv s - 1) (lenH s) arr).

(** [while (v >= 0)] *)
Definition length_both (b : t F) (sharing : Z) (pitch : F) (s : Lengths) : Init Lengths :=
  let sa := SubArray.fu (Bank.subarray (bank b)) in
  let! len :=
    if lv s =? levelVertical b - 1 then Done (FunctionUnit.height sa / #2)%num
    else
      let! x := aread (lenV s) (lv s + 1) in
      if lh s =? levelHorizontal b - 1 then Done (x * #2)%num
      else let! l := aread (horizontal b) (lh s + 1) in
           let! y := half_pitch l sharing pitch in
           Done (x * #2 + y)%num in
  let! lenV' := awrite (lenV s) (lv s) len in
  let! len :=
    if lh s =? levelHorizontal b - 1 then
      init_for (lv s) (levelVertical b) (fun acc i =>
        let! l := aread (vertical b) i in
        let! y := half_pitch l sharing pitch in
        Done (acc + y)%num)
        (FunctionUnit.width sa)
    else
      let! l := aread (vertical b) (lv s) in
      let! y := half_pitch l sharing pitch in
      let! x := aread (lenH s) (lh s + 1) in
      Done (x * #2 + y)%num in
  let! lenH' := awrite (lenH s) (lh s) len in
  Done (mkLengths (lh s - 1) (lv s - 1) lenH' lenV').

(** [while (h >= 0)] *)
Definition length_horizontal (b : t F) (s : Lengths) : Init Lengths :=
  let! len := if lh s =? levelHorizontal b - 1
              then Done (FunctionUnit.width (SubArray.fu (Bank.subarray (bank b))))
              else let! x := aread (lenH s) (lh s + 1) in Done (x * #2)%num in
  let! arr := awrite (lenH s) (lh s) len in
  Done (mkLengths (lh s - 1) (lv s) arr (lenV s)).

Definition wire_lengths (b : t F) (sharing : Z) (pitch : F) : Init Lengths :=
  let fuel := S (Z.to_nat (Z.max (levelHorizontal b) (levelVertical b))) in
  let s := mkLengths (levelHorizontal b - 1) (levelVertical b - 1)
             (lengthHorizontalWire b) (lengthVerticalWire b) in
  let! s := while_loop fuel (fun s => lh s <? lv s) (length_vertical b) s in
  let! s := while_loop fuel (fun s => 0 <=? lv s) (length_both b sharing pitch) s in
  while_loop fuel (fun s => 0 <=? lh s) (length_horizontal b) s.

(** BankWithHtree::CalculateArea, once the sides are known: the aspect ratio, the
    lengths of the wires and the TSVs. *)
Definition area_wires (g : Globals.t F) (sharing : Z) (pitch height width : F) (b : t F) : Init (t F) :=
  let b := b <@ Bank.fu := (Bank.fu (bank b)) <| FunctionUnit.height := height |>
                                              <| FunctionUnit.width := width |> @> in
  if Bank.aspect_ratio_illegal g (bank b) then
    Done (b <| bank := Bank.set_invalid_area ((bank b) <| Bank.invalid := true |>) |>)
  else
    let b := b <@ Bank.fu := (Bank.fu (bank b)) <| FunctionUnit.area := (height * width)%num |> @> in
    let! s := wire_lengths b sharing pitch in
    let b := b <| lengthHorizontalWire := lenH s |> <| lengthVerticalWire := lenV s |> in
    let! k := circuit (Bank.add_tsv_area g (bank b)) in
    Done (b <| bank := k |>).

(** BankWithHtree::CalculateArea, after the area of the subarray. *)
Definition area_bank (g : Globals.t F) (b : t F) : Init (t F) :=
  if SubArray.invalid (Bank.subarray (bank b)) then
    Done (b <| bank := Bank.set_invalid_area ((bank b) <| Bank.invalid := true |>) |>)
  else
    let sa := SubArray.fu (Bank.subarray (bank b)) in
    let '(sharing, pitch) := Bank.wire_sharing (Globals.globalWire g) in
    let! height := add_wire_area (horizontal b) (levelHorizontal b) sharing pitch
                     (FunctionUnit.height sa * #(Bank.numRowSubArray (bank b)))%num in
    let! width := add_wire_area (vertical b) (levelVertical b) sharing pitch
                    (FunctionUnit.width sa * #(Bank.numColumnSubArray (bank b)))%num in
    area_wires g sharing pitch height width b.

(** BankWithHtree::CalculateArea *)
Definition CalculateArea (g : Globals.t F) (b : t F) : Init (t F) :=
  if negb (Bank.initialized (bank b)) then Done b
  else if Bank.invalid (bank b) then Done (b <| bank := Bank.set_invalid_area (bank b) |>)
  else
    let! s := circuit (SubArray.CalculateArea g (Bank.subarray (bank b))) in
    area_bank g (b <@ Bank.subarray := s @>).

(** BankWithHtree::CalculateRC *)
Definition CalculateRC (g : Globals.t F) (b : t F) : Init (t F) :=
  if negb (Bank.initialized (bank b)) then Done b
  else if Bank.invalid (bank b) then Done b
  else
    let! s := circuit (SubArray.CalculateRC g (Bank.subarray (bank b))) in
    Done (b <@ Bank.subarray := s @>).

(** *** CalculateLatencyAndPower *)

(** The metrics of the subarrays, before the tree is added. *)
Definition subarray_metrics (b : Bank.t F) : FunctionUnit.t F :=
  let s := SubArray.fu (Bank.subarray b) in
  let act := fun x : F =>
    (x * #(Bank.numActiveSubArrayPerRow b) * #(Bank.numActiveSubArrayPerColumn b))%num in
  let all := fun x : F => (x * #(Bank.numRowSubArray b) * #(Bank.numColumnSubArray b))%num in
  (Bank.fu b)
    <| FunctionUnit.readLatency := FunctionUnit.readLatency s |>
    <| FunctionUnit.writeLatency := FunctionUnit.writeLatency s |>
    <| FunctionUnit.refreshLatency := (FunctionUnit.refreshLatency s * #(Bank.numColumnSubArray b))%num |>
    <| FunctionUnit.readDynamicEnergy := act (FunctionUnit.readDynamicEnergy s) |>
    <| FunctionUnit.writeDynamicEnergy := act (FunctionUnit.writeDynamicEnergy s) |>
    <| FunctionUnit.refreshDynamicEnergy := all (FunctionUnit.refreshDynamicEnergy s) |>
    <| FunctionUnit.leakage := all (FunctionUnit.leakage s) |>
    <| FunctionUnit.cellReadEnergy := act (FunctionUnit.cellReadEnergy s) |>
    <| FunctionUnit.cellSetEnergy := act (FunctionUnit.cellSetEnergy s) |>
    <| FunctionUnit.cellResetEnergy := act (FunctionUnit.cellResetEnergy s) |>
    <| FunctionUnit.resetLatency := FunctionUnit.resetLatency s |>
    <| FunctionUnit.setLatency := FunctionUnit.setLatency s |>
    <| FunctionUnit.resetDynamicEnergy := act (FunctionUnit.resetDynamicEnergy s) |>
    <| FunctionUnit.setDynamicEnergy := act (FunctionUnit.setDynamicEnergy s) |>.

(** One level of the tree: a wire of the given length on every group. *)
Definition add_level (beta : Z) (l : Htree.Level) (bits : Z) (figures : F * F * F)
  (u : FunctionUnit.t F) : FunctionUnit.t F :=
  let '(latency, energy, leakageWire) := figures in
  let e := (energy * #(Htree.activeWire l) * #bits)%num in
  u <| FunctionUnit.readLatency := (FunctionUnit.readLatency u + latency * #2)%num |>
    <| FunctionUnit.writeLatency := (FunctionUnit.writeLatency u + latency)%num |>
    <| FunctionUnit.resetLatency := (FunctionUnit.resetLatency u + latency)%num |>
    <| FunctionUnit.setLatency := (FunctionUnit.setLatency u + latency)%num |>
    <| FunctionUnit.refreshLatency := (FunctionUnit.refreshLatency u + latency)%num |>
    <| FunctionUnit.readDynamicEnergy := (FunctionUnit.readDynamicEnergy u + e)%num |>
    <| FunctionUnit.writeDynamicEnergy := (FunctionUnit.writeDynamicEnergy u + e / #beta)%num |>
    <| FunctionUnit.resetDynamicEnergy := (FunctionUnit.resetDynamicEnergy u + e / #beta)%num |>
    <| FunctionUnit.setDynamicEnergy := (FunctionUnit.setDynamicEnergy u + e / #beta)%num |>
    <| FunctionUnit.refreshDynamicEnergy := (FunctionUnit.refreshDynamicEnergy u + e / #beta)%num |>
    <| FunctionUnit.leakage := (FunctionUnit.leakage u + leakageWire * #(Htree.sumWire l) * #bits)%num |>.

Definition add_levels (w : Wire.t F) (beta n : Z) (levels : array Htree.Level) (lengths : array F)
  (u : FunctionUnit.t F) : Init (FunctionUnit.t F) :=
  init_for 0 n (fun u i =>
    let! len := aread lengths i in
    let! l := aread levels i in
    let! figures := circuit (Wire_CalculateLatencyAndPower w len) in
    let! bits := level_bits l in
    Done (add_level beta l bits figures u)) u.

(** The TSV latencies of the H-tree bank; refresh does not cross the dies. *)
Definition add_tsv_latency (b : Bank.t F) : Bank.t F :=
  let tsv := TSV.fu (Bank.tsvArray b) in
  let hops := Bank.stackedDieCount b - 1 in
  b <| Bank.fu := (Bank.fu b)
    <| FunctionUnit.readLatency := (FunctionUnit.readLatency (Bank.fu b)
         + (#hops * FunctionUnit.readLatency tsv + #hops * FunctionUnit.writeLatency tsv))%num |>
    <| FunctionUnit.writeLatency :=
         (FunctionUnit.writeLatency (Bank.fu b) + #hops * FunctionUnit.writeLatency tsv)%num |>
    <| FunctionUnit.resetLatency :=
         (FunctionUnit.resetLatency (Bank.fu b) + #hops * FunctionUnit.resetLatency tsv)%num |>
    <| FunctionUnit.setLatency :=
         (FunctionUnit.setLatency (Bank.fu b) + #hops * FunctionUnit.setLatency tsv)%num |> |>.

(** Only one way in [beta] drives the tree in a fast access cache. *)
Definition beta_of (ip : InputParameter.t F) : Z :=
  if bool_decide (InputParameter.designTarget ip = cache)
     && bool_decide (InputParameter.cacheAccessMode ip = fast_access_mode)
  then InputParameter.associativity ip else 1.

(** The metrics of the subarrays, of the tree and of the TSVs. *)
Definition tree_metrics (g : Globals.t F) (b : t F) : Init (t F) :=
  let beta := beta_of (Globals.inputParameter g) in
  let! u := add_levels (Globals.globalWire g) beta (levelHorizontal b) (horizontal b)
              (lengthHorizontalWire b) (subarray_metrics (bank b)) in
  let! u := add_levels (Globals.globalWire g) beta (levelVertical b) (vertical b)
              (lengthVerticalWire b) u in
  let k := Bank.routing_shares ((bank b) <| Bank.fu := u |>) in
  let! k := if 1 <? Bank.stackedDieCount k
            then let! k := circuit (Bank.tsv_latency_power g k) in
                 Done (Bank.tsv_energy (add_tsv_latency k))
            else Done k in
  Done (b <| bank := k |>).

(** BankWithHtree::CalculateLatencyAndPower, the end: the retention check. *)
Definition finish (g : Globals.t F) (b : t F) : t F :=
  b <| bank := Bank.check_retention g (bank b) |>.

(** BankWithHtree::CalculateLatencyAndPower, of a valid bank. *)
Definition metrics (g : Globals.t F) (b : t F) : Init (t F) :=
  let! s := circuit (SubArray.CalculateLatency g infinite_ramp (Bank.subarray (bank b))) in
  let b := b <@ Bank.subarray := s @> in
  if SubArray.invalid (Bank.subarray (bank b)) then Done (b <| bank := Bank.fail_metrics (bank b) |>)
  else
    let! s := circuit (SubArray.CalculatePower g (Bank.subarray (bank b))) in
    let b := b <@ Bank.subarray := s @> in
    if SubArray.invalid (Bank.subarray (bank b)) then Done (b <| bank := Bank.fail_metrics (bank b) |>)
    else let! b := tree_metrics g b in Done (finish g b).

(** BankWithHtree::CalculateLatencyAndPower *)
Definition CalculateLatencyAndPower (g : Globals.t F) (b : t F) : Init (t F) :=
  if negb (Bank.initialized (bank b)) then Done (finish g b)
  else if Bank.invalid (bank b)
  then Done (finish g (b <| bank := Bank.set_invalid_metrics (bank b) |>))
  else metrics g b.

End Operations.
End BankWithHtree.
