(* ===== verification/BankWithoutHtree.v ===== *)
(** * Banks with flat routing

    BankWithoutHtree.h/.cpp: every subarray has its own wires to the edge of the
    bank.  This organisation also supports sensing outside of the subarrays.
    It allocates no arrays: a phase returns, or ends with a circuit it calls. *)
From S2P Require Import Prelude Numeric Types InputParameter Circuit SubArray Bank.
From stdpp Require Import base list.
From Stdlib Require Import ZArith Lia.
Open Scope Z_scope.

Module BankWithoutHtree.

Record t (F : Type) : Type := mk {
  bank : Bank.t F;
  numAddressBit : Z;
  numWay : Z;
  numAddressBitRouteToSubArray : Z;
  numDataBitRouteToSubArray : Z;
  globalBitlineMux : Mux.t F;
  globalSenseAmp : SenseAmp.t F;
  globalComparator : Comparator.t F
}.
Arguments mk {_} _ _ _ _ _ _ _ _.
Arguments bank {_} _.
Arguments numAddressBit {_} _.
Arguments numWay {_} _.
Arguments numAddressBitRouteToSubArray {_} _.
Arguments numDataBitRouteToSubArray {_} _.
Arguments globalBitlineMux {_} _.
Arguments globalSenseAmp {_} _.
Arguments globalComparator {_} _.
#[global] Instance eta {F : Type} : RecordEta (t F) := fun x =>
  mk (bank x) (numAddressBit x) (numWay x) (numAddressBitRouteToSubArray x)
     (numDataBitRouteToSubArray x) (globalBitlineMux x) (globalSenseAmp x) (globalComparator x).

(** [b.p = v] on a member of the base class, and on a metric of it. *)
Notation "b <# p := v #>" := (field_update (proj := bank) (field_update (proj := p) (fun _ => v)) b)
  (at level 1, left associativity, p at level 9, v at level 200, only parsing) : cpp_scope.

Section Operations.
Context {F : Type} `{Num F} `{CircuitOps F}.

(** BankWithoutHtree::BankWithoutHtree *)
Definition BankWithoutHtree (raw : t F) : t F := raw <| bank := Bank.Bank (bank raw) |>.

Definition reject (b : t F) : t F := b <| bank := Bank.reject (bank b) |>.

(** The address bits that power gate the inactive subarrays. *)
Definition idle_subarrays (b : Bank.t F) : Z :=
  Z.quot (Z.quot (wrap32 (Bank.numRowSubArray b * Bank.numColumnSubArray b))
            (Bank.numActiveSubArrayPerColumn b)) (Bank.numActiveSubArrayPerRow b).

(** The bits routed to a subarray, the ways it holds, and whether that is legal
    (an early return otherwise). *)
Definition bits_and_ways (b : Bank.t F) : Z * Z * bool :=
  let per_subarray x := Z.quot (Z.quot x (Bank.numActiveSubArrayPerColumn b))
                          (Bank.numActiveSubArrayPerRow b) in
  match Bank.memoryType b with
  | data =>
      let bits := wrap32 (per_subarray (Bank.blockSize b)) in
      if Bank.associativity b <? Bank.numRowPerSet b then (bits, 1, false)
      else (bits, Bank.associativity b, true)
  | tag =>
      let bits := wrap32 (Bank.blockSize b) in
      if 1 <? Bank.numRowPerSet b then (bits, 1, false)
      else
        let numWay := per_subarray (Bank.associativity b) in
        (bits, numWay, negb (numWay <? 1))
  | CAM => (wrap32 (Bank.blockSize b), 1, true)
  end.

(** The multiplexers of a subarray, enlarged where a row holds several ways. *)
Definition subarray_muxes (g : Globals.t F) (numWay : Z) (b : Bank.t F) : Z * Z * Z :=
  let '(extraMuxSenseAmp, extraMuxOutputLev1, extraMuxOutputLev2) :=
    match Bank.memoryType b with
    | data => Bank.extra_muxes (IsRefreshMemory (MemCell.memCellType (Globals.cell g)))
                (Z.quot numWay (Bank.numRowPerSet b))
    | _ => (1, 1, 1)
    end in
  (wrap32 (Bank.muxSenseAmp b * extraMuxSenseAmp),
   wrap32 (Bank.muxOutputLev1 b * extraMuxOutputLev1),
   wrap32 (Bank.muxOutputLev2 b * extraMuxOutputLev2)).

(** The global sense amplifiers, their multiplexer and the tag comparator;
    an invalid sense amplifier ends it early. *)
Definition init_external (g : Globals.t F) (b : t F) : Outcome (t F) :=
  let c := Globals.cell g in
  let k := bank b in
  let voltageSense :=
    if bool_decide (MemCell.memCellType c = SRAM) then true
    else if IsResistiveMemory (MemCell.memCellType c) then MemCell.readMode c else true in
  let numSenseAmp := match Bank.memoryType k with
                     | data => wrap32 (Bank.blockSize k)
                     | _ => wrap32 (Bank.blockSize k * Bank.associativity k)
                     end in
  let? amp := SenseAmp_Initialize g numSenseAmp (negb voltageSense) (MemCell.minSenseVoltage c)
                (FunctionUnit.width (SubArray.fu (Bank.subarray k)) * #(Bank.numColumnSubArray k)
                 / #numSenseAmp)%num in
  let b := b <| globalSenseAmp := amp |> in
  if SenseAmp.invalid amp then Ret b
  else
    let? amp := SenseAmp_CalculateRC g amp in
    let? mux := Mux_Initialize g (idle_subarrays k) numSenseAmp
                  (SenseAmp.capLoad amp) (SenseAmp.capLoad amp) (of_Z 0) in
    let? mux := Mux_CalculateRC g mux in
    let b := b <| globalSenseAmp := amp |> <| globalBitlineMux := mux |> in
    if bool_decide (Bank.memoryType k = tag)
    then let? c := Comparator_Initialize g (wrap32 (Bank.blockSize k)) (of_Z 0) in
         Ret (b <| globalComparator := c |>)
    else Ret b.

(** BankWithoutHtree::Initialize, the end: multiplexers reset, TSVs. *)
Definition Initialize_end (g : Globals.t F) (a : BankArgs.t) (b : t F) : Outcome (t F) :=
  let b := b <| bank := (bank b) <| Bank.muxSenseAmp := BankArgs._muxSenseAmp a |>
             <| Bank.muxOutputLev1 := BankArgs._muxOutputLev1 a |>
             <| Bank.muxOutputLev2 := BankArgs._muxOutputLev2 a |> |> in
  let? b := if 1 <? Bank.stackedDieCount (bank b)
    then let? v := TSV_Initialize g
                (WireTypeToTSVType (InputParameter.maxGlobalWireType (Globals.inputParameter g)))
                (Bank.tsvArray (bank b)) in
         Ret (b <# Bank.tsvArray := v #>)
    else Ret b in
  Ret (b <# Bank.initialized := true #>).

(** BankWithoutHtree::Initialize, from the subarray on. *)
Definition Initialize_subarray (g : Globals.t F) (a : BankArgs.t) (b : t F) : Outcome (t F) :=
  let '(mx, l1, l2) := subarray_muxes g (numWay b) (bank b) in
  let b := b <| bank := (bank b) <| Bank.muxSenseAmp := mx |> <| Bank.muxOutputLev1 := l1 |>
                                 <| Bank.muxOutputLev2 := l2 |> |> in
  let? k := Bank.init_subarray g (numAddressBitRouteToSubArray b)
              (numDataBitRouteToSubArray b) (numWay b) (BankArgs._monolithicStackCount a)
              mx l1 l2 (bank b) in
  let b := b <| bank := k |> in
  if SubArray.invalid (Bank.subarray (bank b)) then Ret (reject b)
  else
    let? s := SubArray.CalculateArea g (Bank.subarray (bank b)) in
    let b := b <# Bank.subarray := s #> in
    if SubArray.invalid (Bank.subarray (bank b)) then Ret (reject b)
    else if negb (Bank.internalSenseAmp (bank b)) then
      let? b := init_external g b in
      if SenseAmp.invalid (globalSenseAmp b) then Ret (reject b) else Initialize_end g a b
    else Initialize_end g a b.

(** BankWithoutHtree::Initialize *)
Definition Initialize (g : Globals.t F) (a : BankArgs.t) (b : t F) : Outcome (t F) :=
  let b := if Bank.initialized (bank b)
           then b <# Bank.initialized := false #> <# Bank.invalid := false #> else b in
  if negb (BankArgs._internalSenseAmp a) && IsRefreshMemory (MemCell.memCellType (Globals.cell g))
  then Ret (b <# Bank.invalid := true #>)
  else if negb (BankArgs._internalSenseAmp a)
          && negb (bool_decide (Wire.wireRepeaterType (Globals.globalWire g) = repeated_none))
  then Ret (reject b)
  else
    let b := b <| bank := Bank.Initialize_members a (bank b) |> <| numWay := 1 |> in
    let b := b <| numAddressBit := Bank.address_bits (bank b) |> in
    let b := b <| numAddressBitRouteToSubArray :=
                    numAddressBit b - int_log2 (of_Z (idle_subarrays (bank b))) |>
               <| numDataBitRouteToSubArray := wrap32 (Bank.blockSize (bank b)) |> in
    let '(bits, ways, legal) := bits_and_ways (bank b) in
    let b := b <| numDataBitRouteToSubArray := bits |> <| numWay := ways |> in
    if negb legal then Ret (reject b) else Initialize_subarray g a b.

(** BankWithoutHtree::CalculateArea: the height of external sensing. *)
Definition external_area (g : Globals.t F) (width height : F) (b : t F) : Outcome (t F * F) :=
  let k := bank b in
  let? amp := SenseAmp_CalculateArea g (globalSenseAmp b) in
  let height := (height + FunctionUnit.height (SenseAmp.fu amp))%num in
  let? mux := Mux_CalculateArea g (globalBitlineMux b) in
  let height := (height + FunctionUnit.height (Mux.fu mux))%num in
  let b := b <| globalSenseAmp := amp |> <| globalBitlineMux := mux |> in
  if bool_decide (Bank.memoryType k = tag) then
    let? c := Comparator_CalculateArea g (globalComparator b) in
    Ret (b <| globalComparator := c |>,
         (height + #(Bank.associativity k) * FunctionUnit.area (Comparator.fu c) / width)%num)
  else Ret (b, height).

(** BankWithoutHtree::CalculateArea *)
Definition CalculateArea (g : Globals.t F) (b : t F) : Outcome (t F) :=
  let k := bank b in
  if negb (Bank.initialized k) then Ret b
  else if Bank.invalid k then Ret (b <| bank := Bank.set_invalid_area k |>)
  else
    let sa := SubArray.fu (Bank.subarray k) in
    let height := (FunctionUnit.height sa * #(Bank.numRowSubArray k))%num in
    let width := (FunctionUnit.width sa * #(Bank.numColumnSubArray k))%num in
    let '(sharing, pitch) := Bank.wire_sharing (Globals.globalWire g) in
    let width := (width + nceil (#(Bank.numRowSubArray k) * #(Bank.numColumnSubArray k)
                                 * #(numAddressBitRouteToSubArray b) / #sharing) * pitch)%num in
    let? (b, height) := if negb (Bank.internalSenseAmp k) then external_area g width height b
                        else Ret (b, height) in
    let b := b <# Bank.fu := (Bank.fu (bank b)) <| FunctionUnit.height := height |>
                                                <| FunctionUnit.width := width |> #> in
    if Bank.aspect_ratio_illegal g (bank b) then
      Ret (b <| bank := Bank.set_invalid_area ((bank b) <| Bank.invalid := true |>) |>)
    else
      let b := b <# Bank.fu := (Bank.fu (bank b)) <| FunctionUnit.area := (height * width)%num |> #> in
      let? k := Bank.add_tsv_area g (bank b) in
      Ret (b <| bank := k |>).

(** BankWithoutHtree::CalculateRC *)
Definition CalculateRC (g : Globals.t F) (b : t F) : Outcome (t F) :=
  let k := bank b in
  if negb (Bank.initialized k) then Ret b
  else if Bank.invalid k then Ret b
  else
    let? s := SubArray.CalculateRC g (Bank.subarray k) in
    let b := b <# Bank.subarray := s #> in
    if negb (Bank.internalSenseAmp k) then
      let? mux := Mux_CalculateRC g (globalBitlineMux b) in
      let? amp := SenseAmp_CalculateRC g (globalSenseAmp b) in
      let b := b <| globalBitlineMux := mux |> <| globalSenseAmp := amp |> in
      if bool_decide (Bank.memoryType k = tag)
      then let? c := Comparator_CalculateRC g (globalComparator b) in Ret (b <| globalComparator := c |>)
      else Ret b
    else Ret b.

(** *** CalculateLatencyAndPower *)

(** Internal sensing: row [i] of subarrays is reached by a global wire. *)
Definition route_internal (b : t F) (i : Z) (figures : F * F * F) (u : FunctionUnit.t F)
  : FunctionUnit.t F :=
  let k := bank b in
  let '(latency, energy, leakageWire) := figures in
  let u := if i =? 0 then
      u <| FunctionUnit.readLatency := (FunctionUnit.readLatency u + latency)%num |>
        <| FunctionUnit.writeLatency := (FunctionUnit.writeLatency u + latency)%num |>
        <| FunctionUnit.refreshLatency := (FunctionUnit.refreshLatency u + latency)%num |>
    else u in
  let active := i <? Bank.numActiveSubArrayPerColumn k in
  let numBitRouteToSubArray : F :=
    if active then
      if bool_decide (Bank.memoryType k = tag)
      then of_Z (wrap32 (wrap32 (numAddressBitRouteToSubArray b + numDataBitRouteToSubArray b) + numWay b))
      else of_Z (wrap32 (numAddressBitRouteToSubArray b + numDataBitRouteToSubArray b))
    else of_Z 0 in
  let e := (energy * numBitRouteToSubArray * #(Bank.numActiveSubArrayPerRow k))%num in
  let u := if active then
      u <| FunctionUnit.readDynamicEnergy := (FunctionUnit.readDynamicEnergy u + e)%num |>
        <| FunctionUnit.writeDynamicEnergy := (FunctionUnit.writeDynamicEnergy u + e)%num |>
        <| FunctionUnit.refreshDynamicEnergy := (FunctionUnit.refreshDynamicEnergy u + e)%num |>
    else u in
  u <| FunctionUnit.leakage := (FunctionUnit.leakage u
         + leakageWire * numBitRouteToSubArray * #(Bank.numColumnSubArray k))%num |>.

(** The energy of the address wires on an active row of subarrays. *)
Definition address_energy (g : Globals.t F) (b : t F) (capGlobalBitline : F) : F :=
  let vdd := Technology.vdd (Globals.tech g) in
  (capGlobalBitline * vdd * vdd * #(numAddressBitRouteToSubArray b))%num.

(** External sensing, SRAM cells. *)
Definition route_sram (g : Globals.t F) (i : Z) (resLocalBitline resGlobalBitline
  capGlobalBitline capGlobalBitlineMux : F) (b : t F) (u : FunctionUnit.t F)
  : Outcome (t F * FunctionUnit.t F) :=
  let vpre := MemCell.readVoltage (Globals.cell g) in
  let? (b, u) :=
    if i =? 0 then
      let latency := (resLocalBitline * capGlobalBitline / #2
        + (resLocalBitline + resGlobalBitline) * (capGlobalBitline / #2 + capGlobalBitlineMux))%num in
      let latency := (latency * nlog (vpre / (vpre - SenseAmp.senseVoltage (globalSenseAmp b))))%num in
      let latency := (latency + resLocalBitline * capGlobalBitline / #2)%num in
      let? mux := Mux_CalculateLatency g (lit 1 20) (globalBitlineMux b) in
      let latency := (latency + FunctionUnit.readLatency (Mux.fu mux))%num in
      let? amp := SenseAmp_CalculateLatency g (lit 1 20) (globalSenseAmp b) in
      let u := u <| FunctionUnit.writeLatency := (FunctionUnit.writeLatency u + latency)%num |> in
      let latency := (latency + FunctionUnit.readLatency (SenseAmp.fu amp))%num in
      Ret (b <| globalBitlineMux := mux |> <| globalSenseAmp := amp |>,
           u <| FunctionUnit.readLatency := (FunctionUnit.readLatency u + latency)%num |>)
    else Ret (b, u) in
  let u :=
    if i <? Bank.numActiveSubArrayPerColumn (bank b) then
      let energy := address_energy g b capGlobalBitline in
      u <| FunctionUnit.readDynamicEnergy := (FunctionUnit.readDynamicEnergy u + energy
             + capGlobalBitline * vpre * vpre * #(numWay b))%num |>
        <| FunctionUnit.writeDynamicEnergy := (FunctionUnit.writeDynamicEnergy u + energy
             + capGlobalBitline * vpre * vpre * #(numDataBitRouteToSubArray b))%num |>
    else u in
  Ret (b, u).

(** The read latency a resistive cell adds with voltage sensing. *)
Definition voltage_sensing (g : Globals.t F) (b : t F) (resLocalBitline resGlobalBitline
  capGlobalBitline readLatency : F) : F :=
  let c := Globals.cell g in
  let m := SubArray.mat (Bank.subarray (bank b)) in
  let vs := SenseAmp.senseVoltage (globalSenseAmp b) in
  let vPre := Mat.voltagePrecharge m in
  let vOn := Mat.voltageMemCellOn m in
  let vOff := Mat.voltageMemCellOff m in
  let tau r := (r * capGlobalBitline + (r + resGlobalBitline) * capGlobalBitline / #2)%num in
  let '(on, off) :=
    if (MemCell.readVoltage c =? #0)%num then
      let on := (resLocalBitline + Mat.resMemCellOn m)%num in
      (on, (on + (MemCell.resistanceOff c - MemCell.resistanceOn c))%num)
    else
      let on := (resLocalBitline + Mat.resEquivalentOn m)%num in
      (on, (on + (Mat.resEquivalentOff m - Mat.resEquivalentOn m))%num) in
  let latencyOn := (tau on * nlog ((vPre - vOn) / (vPre - vOn - vs)))%num in
  let latencyOff := (tau off * nlog ((vOff - vPre) / (vOff - vPre - vs)))%num in
  let readLatency := (readLatency - Mat.bitlineDelay m)%num in
  if (latencyOn + Mat.bitlineDelayOn m >? latencyOff + Mat.bitlineDelayOff m)%num
  then (readLatency + (latencyOn + Mat.bitlineDelayOn m))%num
  else (readLatency + (latencyOff + Mat.bitlineDelayOff m))%num.

(** External sensing, resistive cells. *)
Definition route_resistive (g : Globals.t F) (i : Z) (resBitlineMux resLocalBitline capLocalBitline
  resGlobalBitline capGlobalBitline : F) (b : t F) (u : FunctionUnit.t F) : FunctionUnit.t F :=
  let c := Globals.cell g in
  let m := SubArray.mat (Bank.subarray (bank b)) in
  let vWrite := MAX (nabs (MemCell.resetVoltage c)) (nabs (MemCell.setVoltage c)) in
  let vPre := Mat.voltagePrecharge m in
  let vOn := Mat.voltageMemCellOn m in
  let u :=
    if i =? 0 then
      let tau := (resBitlineMux * capGlobalBitline / #2
        + (resBitlineMux + resGlobalBitline) * (capGlobalBitline + capLocalBitline) / #2
        + (resBitlineMux + resGlobalBitline + resLocalBitline) * capLocalBitline / #2)%num in
      let u := u <| FunctionUnit.writeLatency := (FunctionUnit.writeLatency u + lit 63 (-2) * tau)%num |> in
      if negb (MemCell.readMode c) then
        let res := (resLocalBitline + Mat.resMemCellOff m)%num in
        let tau := (resGlobalBitline * capGlobalBitline / #2
                    * (res + resGlobalBitline / #3) / (res + resGlobalBitline))%num in
        u <| FunctionUnit.readLatency := (FunctionUnit.readLatency u + lit 63 (-2) * tau)%num |>
      else u <| FunctionUnit.readLatency := voltage_sensing g b resLocalBitline resGlobalBitline
                  capGlobalBitline (FunctionUnit.readLatency u) |>
    else u in
  if i <? Bank.numActiveSubArrayPerColumn (bank b) then
    let energy := address_energy g b capGlobalBitline in
    let u := u
      <| FunctionUnit.readDynamicEnergy := (FunctionUnit.readDynamicEnergy u + energy)%num |>
      <| FunctionUnit.writeDynamicEnergy := (FunctionUnit.writeDynamicEnergy u + energy
           + capGlobalBitline * vWrite * vWrite * #(numDataBitRouteToSubArray b))%num |> in
    if MemCell.readMode c
    then u <| FunctionUnit.readDynamicEnergy := (FunctionUnit.readDynamicEnergy u
                + capGlobalBitline * (vPre * vPre - vOn * vOn) * #(numDataBitRouteToSubArray b))%num |>
    else u
  else u.

(** One iteration of the loop over the rows of subarrays. *)
Definition route_row (g : Globals.t F) (s : t F * FunctionUnit.t F * F) (i : Z)
  : Outcome (t F * FunctionUnit.t F * F) :=
  let '(b, u, lengthWire) := s in
  let sa := Bank.subarray (bank b) in
  let lengthWire := (lengthWire - FunctionUnit.height (SubArray.fu sa))%num in
  if Bank.internalSenseAmp (bank b) then
    let? figures := Wire_CalculateLatencyAndPower (Globals.globalWire g) lengthWire in
    Ret (b, route_internal b i figures u, lengthWire)
  else
    let capBitlineMux := Mux.capNMOSPassTransistor (globalBitlineMux b) in
    let resBitlineMux := Mux.resNMOSPassTransistor (globalBitlineMux b) in
    let resLocalBitline := (Mat.resBitline (SubArray.mat sa) + #3 * resBitlineMux)%num in
    let capLocalBitline := (Mat.capBitline (SubArray.mat sa) + #6 * capBitlineMux)%num in
    let resGlobalBitline := (lengthWire * Wire.resWirePerUnit (Globals.globalWire g))%num in
    let capGlobalBitline := (lengthWire * Wire.capWirePerUnit (Globals.globalWire g))%num in
    let capGlobalBitlineMux := Mux.capForPreviousDelayCalculation (globalBitlineMux b) in
    if bool_decide (MemCell.memCellType (Globals.cell g) = SRAM) then
      let? (b, u) := route_sram g i resLocalBitline resGlobalBitline capGlobalBitline
                       capGlobalBitlineMux b u in
      Ret (b, u, lengthWire)
    else if IsResistiveMemory (MemCell.memCellType (Globals.cell g)) then
      Ret (b, route_resistive g i resBitlineMux resLocalBitline capLocalBitline resGlobalBitline
                capGlobalBitline b u, lengthWire)
    else Ret (b, u, lengthWire).

(** The global multiplexer, sense amplifiers and comparator of external sensing. *)
Definition external_metrics (g : Globals.t F) (b : t F) (u : FunctionUnit.t F)
  : Outcome (t F * FunctionUnit.t F) :=
  let k := bank b in
  let? mux := Mux_CalculateLatency g (lit 1 40) (globalBitlineMux b) in
  let? amp := SenseAmp_CalculateLatency g (lit 1 40) (globalSenseAmp b) in
  let both p := (p (Mux.fu mux) + p (SenseAmp.fu amp))%num in
  let u := u
    <| FunctionUnit.readLatency := (FunctionUnit.readLatency u + both FunctionUnit.readLatency)%num |>
    <| FunctionUnit.writeLatency := (FunctionUnit.writeLatency u + both FunctionUnit.writeLatency)%num |> in
  let? mux := Mux_CalculatePower g mux in
  let? amp := SenseAmp_CalculatePower g amp in
  let b := b <| globalBitlineMux := mux |> <| globalSenseAmp := amp |> in
  let both p := (p (Mux.fu mux) + p (SenseAmp.fu amp))%num in
  let u := u
    <| FunctionUnit.readDynamicEnergy := (FunctionUnit.readDynamicEnergy u
         + both FunctionUnit.readDynamicEnergy * #(Bank.numActiveSubArrayPerRow k))%num |>
    <| FunctionUnit.writeDynamicEnergy := (FunctionUnit.writeDynamicEnergy u
         + both FunctionUnit.writeDynamicEnergy * #(Bank.numActiveSubArrayPerRow k))%num |>
    <| FunctionUnit.leakage := (FunctionUnit.leakage u
         + both FunctionUnit.leakage * #(Bank.numColumnSubArray k))%num |> in
  if bool_decide (Bank.memoryType k = tag) then
    let? c := Comparator_CalculateLatency g (lit 1 40) (globalComparator b) in
    let u := u <| FunctionUnit.readLatency := (FunctionUnit.readLatency u
                    + FunctionUnit.readLatency (Comparator.fu c))%num |> in
    let? c := Comparator_CalculatePower g c in
    let cmp := Comparator.fu c in
    Ret (b <| globalComparator := c |>,
         u <| FunctionUnit.readDynamicEnergy := (FunctionUnit.readDynamicEnergy u
                + #(numWay b) * FunctionUnit.readDynamicEnergy cmp)%num |>
           <| FunctionUnit.leakage := (FunctionUnit.leakage u
                + #(Bank.associativity k) * FunctionUnit.leakage cmp)%num |>)
  else Ret (b, u).

(** The metrics the rows of subarrays start from. *)
Definition initial_metrics (b : Bank.t F) : FunctionUnit.t F :=
  let s := SubArray.fu (Bank.subarray b) in
  (Bank.fu b)
    <| FunctionUnit.readLatency := of_Z 0 |> <| FunctionUnit.resetLatency := of_Z 0 |>
    <| FunctionUnit.setLatency := of_Z 0 |> <| FunctionUnit.writeLatency := of_Z 0 |>
    <| FunctionUnit.refreshLatency := (FunctionUnit.refreshLatency s * #(Bank.numColumnSubArray b))%num |>
    <| FunctionUnit.readDynamicEnergy := of_Z 0 |> <| FunctionUnit.writeDynamicEnergy := of_Z 0 |>
    <| FunctionUnit.resetDynamicEnergy := of_Z 0 |> <| FunctionUnit.setDynamicEnergy := of_Z 0 |>
    <| FunctionUnit.refreshDynamicEnergy := (FunctionUnit.refreshDynamicEnergy s
         * #(Bank.numRowSubArray b) * #(Bank.numColumnSubArray b))%num |>
    <| FunctionUnit.leakage := of_Z 0 |>.

(** The routing of a valid bank. *)
Definition routing_metrics (g : Globals.t F) (b : t F) : Outcome (t F) :=
  let sa := SubArray.fu (Bank.subarray (bank b)) in
  let lengthWire := (FunctionUnit.height sa * #(Bank.numRowSubArray (bank b) + 1))%num in
  let? (b, u, _) := outcome_fold (route_row g) (seqZ 0 (Bank.numRowSubArray (bank b)))
                      (b, initial_metrics (bank b), lengthWire) in
  let? (b, u) := if negb (Bank.internalSenseAmp (bank b)) then external_metrics g b u else Ret (b, u) in
  Ret (b <# Bank.fu := u #>).

(** The part after the conditional, which every bank that did not return early
    goes through: the subarrays are added to the routing. *)
Definition add_subarrays (g : Globals.t F) (k : Bank.t F) : Bank.t F :=
  let ip := Globals.inputParameter g in
  let s := SubArray.fu (Bank.subarray k) in
  let act := fun x : F =>
    (x * #(Bank.numActiveSubArrayPerRow k) * #(Bank.numActiveSubArrayPerColumn k))%num in
  let u := Bank.fu k in
  let writeDynamicEnergy :=
    if bool_decide (InputParameter.designTarget ip = cache)
       && bool_decide (InputParameter.cacheAccessMode ip = fast_access_mode)
    then (FunctionUnit.writeDynamicEnergy u / #(InputParameter.associativity ip))%num
    else FunctionUnit.writeDynamicEnergy u in
  let writeLatency := FunctionUnit.writeLatency u in
  k <| Bank.fu := u
    <| FunctionUnit.readLatency := (FunctionUnit.readLatency u + FunctionUnit.readLatency s)%num |>
    <| FunctionUnit.resetLatency := (writeLatency + FunctionUnit.resetLatency s)%num |>
    <| FunctionUnit.setLatency := (writeLatency + FunctionUnit.setLatency s)%num |>
    <| FunctionUnit.writeLatency := (writeLatency + FunctionUnit.writeLatency s)%num |>
    <| FunctionUnit.readDynamicEnergy :=
         (FunctionUnit.readDynamicEnergy u + act (FunctionUnit.readDynamicEnergy s))%num |>
    <| FunctionUnit.cellReadEnergy := act (FunctionUnit.cellReadEnergy s) |>
    <| FunctionUnit.cellSetEnergy := act (FunctionUnit.cellSetEnergy s) |>
    <| FunctionUnit.cellResetEnergy := act (FunctionUnit.cellResetEnergy s) |>
    <| FunctionUnit.resetDynamicEnergy := (writeDynamicEnergy + act (FunctionUnit.resetDynamicEnergy s))%num |>
    <| FunctionUnit.setDynamicEnergy := (writeDynamicEnergy + act (FunctionUnit.setDynamicEnergy s))%num |>
    <| FunctionUnit.writeDynamicEnergy := (writeDynamicEnergy + act (FunctionUnit.writeDynamicEnergy s))%num |>
    <| FunctionUnit.leakage := (FunctionUnit.leakage u
         + FunctionUnit.leakage s * #(Bank.numRowSubArray k) * #(Bank.numColumnSubArray k))%num |> |>.

(** The TSV latencies of a flat bank: every operation crosses the dies once more
    with the latency of a write. *)
Definition add_tsv_latency (b : Bank.t F) : Bank.t F :=
  let tsv := TSV.fu (Bank.tsvArray b) in
  let hops := Bank.stackedDieCount b - 1 in
  let u := Bank.fu b in
  let w := (#hops * FunctionUnit.writeLatency tsv)%num in
  b <| Bank.fu := u
    <| FunctionUnit.readLatency :=
         (FunctionUnit.readLatency u + (#hops * FunctionUnit.readLatency tsv + w))%num |>
    <| FunctionUnit.writeLatency := (FunctionUnit.writeLatency u + w)%num |>
    <| FunctionUnit.resetLatency := (FunctionUnit.resetLatency u + w)%num |>
    <| FunctionUnit.setLatency := (FunctionUnit.setLatency u + w)%num |>
    <| FunctionUnit.refreshLatency := (FunctionUnit.refreshLatency u + w)%num |> |>.

(** BankWithoutHtree::CalculateLatencyAndPower, after the conditional. *)
Definition finish_metrics (g : Globals.t F) (b : t F) : Outcome (t F) :=
  let k := Bank.routing_shares (add_subarrays g (bank b)) in
  let? k := if Bank.initialized k && negb (Bank.invalid k) && (1 <? Bank.stackedDieCount k)
            then let? k := Bank.tsv_latency_power g k in Ret (Bank.tsv_energy (add_tsv_latency k))
            else Ret k in
  Ret (b <| bank := Bank.check_retention g k |>).

(** BankWithoutHtree::CalculateLatencyAndPower *)
Definition CalculateLatencyAndPower (g : Globals.t F) (b : t F) : Outcome (t F) :=
  if negb (Bank.initialized (bank b)) then finish_metrics g b
  else if Bank.invalid (bank b)
  then finish_metrics g (b <| bank := Bank.set_invalid_metrics (bank b) |>)
  else
    let? s := SubArray.CalculateLatency g infinite_ramp (Bank.subarray (bank b)) in
    let b := b <# Bank.subarray := s #> in
    if SubArray.invalid (Bank.subarray (bank b)) then Ret (b <| bank := Bank.fail_metrics (bank b) |>)
    else
      let? s := SubArray.CalculatePower g (Bank.subarray (bank b)) in
      let b := b <# Bank.subarray := s #> in
      if SubArray.invalid (Bank.subarray (bank b)) then Ret (b <| bank := Bank.fail_metrics (bank b) |>)
      else let? b := routing_metrics g b in finish_metrics g b.

End Operations.
End BankWithoutHtree.
