(* ===== verification/Geometry.v ===== *)
(** * Geometry: what a valid organisation stores

    The dimensions of the mats are derived from the capacity by a chain of
    logarithms, quotients and shifts.  The theorems show that the derived
    dimensions multiply back to the capacity for every organisation a search
    over powers of two visits, in both bank organisations, and that no phase
    changes them or has undefined behaviour of its own. *)
From S2P Require Import Prelude Numeric Types InputParameter Circuit SubArray Htree Bank.
From S2P Require Import BankWithHtree BankWithoutHtree.
From stdpp Require Import base list.
From Stdlib Require Import ZArith Lia.
Open Scope Z_scope.

Module Geometry.

(** [x] either vanishes when it is split into [2^k] parts, or splits evenly. *)
Definition splits (x k : Z) : Prop := Z.quot x (2 ^ k) = 0 \/ exists q, x = q * 2 ^ k.

Lemma splits_pow2 d k : 0 <= d -> 0 <= k -> splits (2 ^ d) k.
Proof.
  intros. destruct (Z.lt_ge_cases d k).
  - left. apply quot_pow2_zero. lia.
  - right. exists (2 ^ (d - k)). apply pow2_split. lia.
Qed.

Lemma splits_exact x k : 0 <= k -> splits x k -> Z.quot x (2 ^ k) <> 0 -> Z.quot x (2 ^ k) * 2 ^ k = x.
Proof.
  intros Hk [->|[q ->]] Hne; [done|]. rewrite Z.quot_mul; [done|]. pose proof (pow2_pos k). lia.
Qed.

Lemma quot_quot_pow2 x j k : 0 <= x -> 0 <= j -> 0 <= k ->
  Z.quot (Z.quot x (2 ^ j)) (2 ^ k) = Z.quot x (2 ^ (j + k)).
Proof.
  intros. pose proof (pow2_pos j). pose proof (pow2_pos k).
  rewrite Z.quot_quot by lia. by rewrite Z.pow_add_r by lia.
Qed.

(** The exponents of an organisation by powers of two. *)
Record org : Type := mkOrg {
  rowSub : Z; colSub : Z; actCol : Z; actRow : Z;       (* subarrays, active per column and row *)
  rowMat : Z; colMat : Z; actMatCol : Z; actMatRow : Z; (* mats, active per column and row *)
  mux1 : Z; mux2 : Z; mux3 : Z;                         (* sense, output level 1 and 2 *)
  rowsPerSet : Z; ways : Z; dies : Z; index : Z         (* 2^index sets per die *)
}.

(** [a] is an organisation by powers of two of a memory with [2^index] sets of
    [2^ways] words on each of [2^dies] dies, within the integer widths of the
    code.  The word splits evenly over the active mats, or not at all. *)
Record organised (a : BankArgs.t) (o : org) : Prop := {
  org_rowSub : BankArgs._numRowSubArray a = 2 ^ rowSub o;
  org_colSub : BankArgs._numColumnSubArray a = 2 ^ colSub o;
  org_actCol : BankArgs._numActiveSubArrayPerColumn a = 2 ^ actCol o;
  org_actRow : BankArgs._numActiveSubArrayPerRow a = 2 ^ actRow o;
  org_rowMat : BankArgs._numRowMat a = 2 ^ rowMat o;
  org_colMat : BankArgs._numColumnMat a = 2 ^ colMat o;
  org_actMatCol : BankArgs._numActiveMatPerColumn a = 2 ^ actMatCol o;
  org_actMatRow : BankArgs._numActiveMatPerRow a = 2 ^ actMatRow o;
  org_mux1 : BankArgs._muxSenseAmp a = 2 ^ mux1 o;
  org_mux2 : BankArgs._muxOutputLev1 a = 2 ^ mux2 o;
  org_mux3 : BankArgs._muxOutputLev2 a = 2 ^ mux3 o;
  org_rows : BankArgs._numRowPerSet a = 2 ^ rowsPerSet o;
  org_ways : BankArgs._associativity a = 2 ^ ways o;
  org_dies : BankArgs._stackedDieCount a = 2 ^ dies o;
  org_capacity : BankArgs._capacity a = 2 ^ index o * 2 ^ ways o * BankArgs._blockSize a * 2 ^ dies o;
  org_active : 0 <= actCol o <= rowSub o /\ 0 <= actRow o <= colSub o;
  org_active_mat : 0 <= actMatCol o <= rowMat o /\ 0 <= actMatRow o <= colMat o;
  org_nonneg : 0 <= mux1 o /\ 0 <= mux2 o /\ 0 <= mux3 o /\ 0 <= rowsPerSet o /\ 0 <= ways o
               /\ 0 <= dies o /\ 0 <= index o < 31;
  org_int : rowSub o + colSub o < 31 /\ rowMat o + colMat o < 31
            /\ mux1 o + mux2 o + mux3 o + ways o < 31;
  org_block : 0 < BankArgs._blockSize a < 2 ^ 31;
  org_double : BankArgs._capacity a < 2 ^ 53;
  org_wires : index o + (match BankArgs._memoryType a with
                         | data => BankArgs._blockSize a + ways o
                         | _ => 2 ^ ways o + BankArgs._blockSize a
                         end) < 2 ^ 31;
  org_splits : splits (BankArgs._blockSize a)
                 (match BankArgs._memoryType a with
                  | data => actCol o + actRow o + (actMatRow o + actMatCol o)
                  | _ => actMatRow o + actMatCol o
                  end)
}.

(** The bits the mats of one die of a bank store, as the program counts them ... *)
Definition bank_cells {F} (b : Bank.t F) : Z :=
  Mat.numColumn (SubArray.mat (Bank.subarray b)) * Mat.numRow (SubArray.mat (Bank.subarray b))
  * Bank.numColumnSubArray b * Bank.numRowSubArray b * Bank.numColumnMat b * Bank.numRowMat b.

(** ... and the bits one die has to store. *)
Definition layer_capacity (a : BankArgs.t) : Z := BankArgs._capacity a / BankArgs._stackedDieCount a.

Lemma layer_org a o : organised a o ->
  layer_capacity a = 2 ^ index o * 2 ^ ways o * BankArgs._blockSize a /\
  layer_capacity a * BankArgs._stackedDieCount a = BankArgs._capacity a.
Proof.
  intros Ho. destruct (org_nonneg _ _ Ho) as (_ & _ & _ & _ & _ & Hd & _). pose proof (pow2_pos (dies o) Hd).
  unfold layer_capacity. rewrite (org_capacity _ _ Ho), (org_dies _ _ Ho), Z.div_mul by lia. lia.
Qed.

(** Evaluate the tests on closed enumeration values. *)
Ltac decide_eqs := repeat
  match goal with
  | |- context [bool_decide (?a = ?b)] =>
      first [rewrite (bool_decide_eq_true_2 (a = b)) by done
            |rewrite (bool_decide_eq_false_2 (a = b)) by done]
  end.

Section Geometry.
Context {F : Type} {NumF : Num F} {NI : NumInt F} {Ops : CircuitOps F} {Laws : CircuitLaws F}.

Lemma int_log2_pow2 k : 0 <= k < 53 -> int_log2 (of_Z (F := F) (2 ^ k)) = k.
Proof. apply ilog2_round. Qed.

(** *** Mats *)

Lemma mux_product_pow2 a b c : 0 <= a -> 0 <= b -> 0 <= c -> a + b + c < 31 ->
  SubArray.mux_product (2 ^ a) (2 ^ b) (2 ^ c) = 2 ^ (a + b + c).
Proof.
  intros. unfold SubArray.mux_product.
  pose proof (pow2_lt (a + b) 31). pose proof (pow2_pos (a + b)).
  pose proof (pow2_lt (a + b + c) 31). pose proof (pow2_pos (a + b + c)).
  rewrite <- Z.pow_add_r by lia. rewrite (wrap32_small (2 ^ (a + b))) by lia.
  rewrite <- Z.pow_add_r by lia. rewrite wrap32_small; lia.
Qed.

Lemma int_shl1_pow2 n : 0 <= n < 31 -> SubArray.int_shl1 n = 2 ^ n.
Proof.
  intros. unfold SubArray.int_shl1. rewrite Z.shiftl_mul_pow2, Z.mul_1_l by lia.
  pose proof (pow2_pos n). pose proof (pow2_lt n 31). apply wrap32_small. lia.
Qed.

(** The mats of a subarray hold the words of its ways: the multiplexers only
    trade rows for columns. *)
Lemma mat_dimensions_product (ip : InputParameter.t F) n (s : SubArray.t F) m1 m2 m3 am bm w row col :
  SubArray.muxSenseAmp s = 2 ^ m1 -> SubArray.muxOutputLev1 s = 2 ^ m2 ->
  SubArray.muxOutputLev2 s = 2 ^ m3 -> SubArray.numActiveMatPerRow s = 2 ^ am ->
  SubArray.numActiveMatPerColumn s = 2 ^ bm -> SubArray.numWay s = 2 ^ w ->
  0 <= m1 -> 0 <= m2 -> 0 <= m3 -> 0 <= am -> 0 <= bm -> 0 <= w ->
  m1 + m2 + m3 < 31 -> am + bm < 31 -> n < 31 -> w < 31 ->
  (SubArray.memoryType s = data \/ SubArray.memoryType s = tag /\ m1 + m2 + m3 + w < 31) ->
  0 <= SubArray.numDataBit s < 2 ^ 31 ->
  SubArray.mat_dimensions ip n s = Some (row, col) ->
  0 < n /\ Z.quot (SubArray.numDataBit s) (2 ^ (am + bm)) <> 0 /\
  row * col = 2 ^ n * 2 ^ w * Z.quot (SubArray.numDataBit s) (2 ^ (am + bm)).
Proof.
  intros E1 E2 E3 E4 E5 E6 ? ? ? ? ? ? Hm Hab Hn Hw Hmt Hd. unfold SubArray.mat_dimensions.
  rewrite E1, E2, E3, E4, E5, E6, mux_product_pow2 by lia.
  pose proof (pow2_pos (am + bm)). pose proof (pow2_lt (am + bm) 31).
  rewrite <- (Z.pow_add_r 2 am bm), (wrap32_small (2 ^ (am + bm))) by lia.
  set (q := Z.quot (SubArray.numDataBit s) (2 ^ (am + bm))) in *.
  set (m := m1 + m2 + m3) in *.
  assert (Hq : 0 <= q < 2 ^ 31).
  { unfold q. rewrite quot_nonneg by lia. split; [apply Z.div_pos; lia|].
    apply Z.div_lt_upper_bound; nia. }
  destruct (Z.leb_spec n 0); [done|].
  rewrite int_shl1_pow2 by lia.
  pose proof (pow2_pos m). pose proof (pow2_pos w). pose proof (pow2_pos n).
  pose proof (pow2_lt m 31). pose proof (pow2_lt n 31). pose proof (pow2_lt w 31).
  destruct Hmt as [Et|[Et Hmw]]; rewrite Et;
    decide_eqs;
    rewrite ?(wrap64_small (2 ^ n * 2 ^ w)) by nia; rewrite (wrap64_small (q * 2 ^ m)) by nia;
    cbn [andb].
  - rewrite <- Z.pow_add_r by lia. destruct (Z.lt_ge_cases (n + w) m).
    { rewrite quot_pow2_zero by lia. done. }
    rewrite quot_pow2 by lia. pose proof (pow2_pos (n + w - m)).
    destruct (Z.eqb_spec (2 ^ (n + w - m)) 0); [lia|]. destruct (Z.eqb_spec q 0); [done|].
    destruct (_ && _); [done|]. intros [= <- <-]. repeat split; [lia|done|].
    rewrite (pow2_split (n + w) m) by lia. ring.
  - destruct (Z.lt_ge_cases n m).
    { rewrite quot_pow2_zero by lia. done. }
    pose proof (pow2_lt (m + w) 31). rewrite Z.pow_add_r in * by lia.
    rewrite quot_pow2 by lia. pose proof (pow2_pos (n - m)).
    destruct (Z.eqb_spec (2 ^ (n - m)) 0); [lia|]. destruct (Z.eqb_spec q 0); [done|].
    rewrite wrap64_small by nia. intros [= <- <-]. repeat split; [lia|done|].
    rewrite (pow2_split n m) by lia. ring.
Qed.

(** *** Subarrays *)

(** A chain of circuit operations whose results do not matter. *)
Ltac yield := repeat first [apply yields_any; intros ?|case_match|done].

(** The mat is kept, and so is the validity. *)
Definition same_mat (s s' : SubArray.t F) : Prop :=
  SubArray.mat s' = SubArray.mat s /\ SubArray.invalid s' = SubArray.invalid s.

Lemma each_predecoder_mat op (s : SubArray.t F) : yields (same_mat s) (SubArray.each_predecoder op s).
Proof. unfold SubArray.each_predecoder. do 8 (apply yields_any; intros ?). by split. Qed.

Lemma predecoders_mat g n (s : SubArray.t F) : yields (same_mat s) (SubArray.Initialize_predecoders g n s).
Proof.
  unfold SubArray.Initialize_predecoders.
  destruct (SubArray.split_predecoder n), (SubArray.split_predecoder (int_log2 (of_Z (SubArray.muxSenseAmp s)))),
    (SubArray.split_predecoder (int_log2 (of_Z (SubArray.muxOutputLev1 s)))),
    (SubArray.split_predecoder (int_log2 (of_Z (SubArray.muxOutputLev2 s)))).
  do 8 (apply yields_any; intros ?). by split.
Qed.

Lemma decoders_mat g n (s : SubArray.t F) :
  yields (fun s' => SubArray.mat s' = SubArray.mat s) (SubArray.Initialize_decoders g n s).
Proof.
  unfold SubArray.Initialize_decoders.
  eapply yields_bind; [apply predecoders_mat|]. intros s1 [<- _].
  apply (yields_bind (fun s2 => SubArray.mat s2 = SubArray.mat s1)); [by yield|]. intros s2 <-.
  apply (yields_bind (fun s3 => SubArray.mat s3 = SubArray.mat s2)); [by yield|]. by intros s3 <-.
Qed.

Lemma gating_pow2 r c a b : 0 <= r -> 0 <= c -> 0 <= a <= c -> 0 <= b <= r -> r + c < 31 ->
  Z.quot (Z.quot (wrap32 (2 ^ r * 2 ^ c)) (2 ^ b)) (2 ^ a) = 2 ^ (r + c - b - a).
Proof.
  intros. rewrite <- Z.pow_add_r by lia. pose proof (pow2_pos (r + c)).
  pose proof (pow2_lt (r + c) 31). rewrite wrap32_small by lia. by rewrite !quot_pow2 by lia.
Qed.

Lemma rejected_yields (P : SubArray.t F -> Prop) s :
  yields (fun s' => SubArray.invalid s' = false -> P s') (Ret (SubArray.reject s)).
Proof. intros Hf. discriminate Hf. Qed.

(** A subarray that its initialisation does not reject holds [2^n] words of
    [D] bits for each of its [2^w] ways. *)
Lemma subarray_cells g rm cm n D w nps sp am bm m1 ia m2 m3 ao mt sd pg mono (s0 : SubArray.t F) :
  0 <= am <= cm -> 0 <= bm <= rm -> rm + cm < 31 -> n < 31 ->
  0 <= m1 -> 0 <= m2 -> 0 <= m3 -> 0 <= w < 31 -> m1 + m2 + m3 < 31 ->
  (mt = data \/ mt = tag /\ m1 + m2 + m3 + w < 31) ->
  0 <= D < 2 ^ 31 -> splits D (am + bm) ->
  yields (fun s => SubArray.invalid s = false ->
    Mat.numRow (SubArray.mat s) * Mat.numColumn (SubArray.mat s) * 2 ^ (rm + cm) = 2 ^ n * 2 ^ w * D
    /\ Z.quot D (2 ^ (am + bm)) <> 0 /\ 0 <= n)
    (SubArray.Initialize g (2 ^ rm) (2 ^ cm) n D (2 ^ w) nps sp (2 ^ am) (2 ^ bm) (2 ^ m1) ia
       (2 ^ m2) (2 ^ m3) ao mt sd pg mono s0).
Proof.
  intros Ha Hb Hrc Hn ? ? ? Hw Hm Hmt HD Hsp. unfold SubArray.Initialize.
  pose proof (pow2_le am cm ltac:(lia)). pose proof (pow2_le bm rm ltac:(lia)).
  set (s1 := SubArray.Initialize_members _ _ _ _ _ _ _ _ _ _ _ _ _ _ _ _ _ s0).
  assert (Er : SubArray.numActiveMatPerRow s1 = 2 ^ am).
  { cbn. destruct (Z.ltb_spec (2 ^ cm) (2 ^ am)); lia. }
  assert (Ec : SubArray.numActiveMatPerColumn s1 = 2 ^ bm).
  { cbn. destruct (Z.ltb_spec (2 ^ rm) (2 ^ bm)); lia. }
  rewrite Er, Ec. change (SubArray.numRowMat s1) with (2 ^ rm).
  change (SubArray.numColumnMat s1) with (2 ^ cm).
  rewrite gating_pow2, int_log2_pow2 by lia.
  set (n' := n - (rm + cm - bm - am)).
  destruct (SubArray.mat_dimensions _ n' s1) as [[row col]|] eqn:E; [|apply rejected_yields].
  eapply (mat_dimensions_product _ _ _ m1 m2 m3 am bm w) in E as (Hpos & Hq & Hprod);
    [|done..|lia|lia|lia|lia|lia|lia|lia|lia|lia|lia|exact Hmt|exact HD].
  change (SubArray.numDataBit s1) with D in Hq, Hprod.
  cbv zeta. eapply yields_bind; [apply Mat_Initialize_dims|]. intros mat1 [D1 D2].
  destruct (Mat.invalid mat1); [apply rejected_yields|].
  eapply yields_bind; [apply Mat_Area_dims|]. intros mat2 [D3 D4].
  destruct (Mat.invalid mat2); [apply rejected_yields|]. destruct (_ <? 0); [apply rejected_yields|].
  eapply yields_weaken; [apply decoders_mat|]. intros s3 -> _. clearbody s1.
  change (SubArray.mat (s1 <| SubArray.mat := mat2 |>)) with mat2.
  rewrite D3, D4, D1, D2, Hprod. split; [|split; [done|lia]].
  pose proof (splits_exact D (am + bm) ltac:(lia) Hsp Hq) as HD'.
  set (q := Z.quot D (2 ^ (am + bm))) in *. rewrite <- HD'.
  replace (2 ^ n) with (2 ^ n' * 2 ^ (rm + cm - bm - am)) by
    (rewrite <- Z.pow_add_r by lia; f_equal; lia).
  replace (rm + cm) with ((rm + cm - bm - am) + (am + bm)) at 1 by lia.
  rewrite Z.pow_add_r by lia. ring.
Qed.

(** No phase changes the dimensions of the mats. *)
Definition mat_dims (s : SubArray.t F) : Z * Z :=
  (Mat.numRow (SubArray.mat s), Mat.numColumn (SubArray.mat s)).

Definition keeps_dims (s s' : SubArray.t F) : Prop := mat_dims s' = mat_dims s.

Lemma same_mat_dims s s' : SubArray.mat s' = SubArray.mat s -> keeps_dims s s'.
Proof. unfold keeps_dims, mat_dims. by intros ->. Qed.

Lemma dims_are_dims s m : dims_are (Mat.numRow (SubArray.mat s)) (Mat.numColumn (SubArray.mat s)) m ->
  forall s', SubArray.mat s' = m -> keeps_dims s s'.
Proof. unfold keeps_dims, mat_dims. intros [E1 E2] s' ->. by rewrite E1, E2. Qed.

Definition keeps_mat (s s' : SubArray.t F) : Prop := SubArray.mat s' = SubArray.mat s.

Lemma area_mats_mat g (s : SubArray.t F) : yields (keeps_mat s) (SubArray.area_mats g s).
Proof. unfold SubArray.area_mats. eapply yields_bind; [apply each_predecoder_mat|]. by intros s' [E _]. Qed.

Lemma add_strip_mat x (s : SubArray.t F) : keeps_mat s (SubArray.add_strip x s).
Proof. unfold SubArray.add_strip. by destruct (nltb _ _). Qed.

Lemma area_predecoders_mat g (s : SubArray.t F) : yields (keeps_mat s) (SubArray.area_predecoders g s).
Proof.
  unfold SubArray.area_predecoders. destruct (_ && _); [|apply add_strip_mat].
  apply yields_any. intros v. cbv zeta. unfold yields, keeps_mat. rewrite add_strip_mat. done.
Qed.

Lemma area_comparator_mat g (s : SubArray.t F) : yields (keeps_mat s) (SubArray.area_comparator g s).
Proof.
  unfold SubArray.area_comparator. destruct (_ && _); [|done]. apply yields_any. intros c. cbv zeta.
  by destruct (_ || _).
Qed.

Lemma subarray_area_dims g (s : SubArray.t F) : yields (keeps_dims s) (SubArray.CalculateArea g s).
Proof.
  unfold SubArray.CalculateArea. destruct (negb _); [done|]. destruct (SubArray.invalid s); [done|].
  eapply yields_bind; [apply area_mats_mat|]. intros s1 E1.
  eapply yields_bind; [apply area_predecoders_mat|]. intros s2 E2.
  eapply yields_bind; [apply area_comparator_mat|]. intros s3 E3.
  apply same_mat_dims. unfold keeps_mat in *. change (SubArray.mat s3 = SubArray.mat s). congruence.
Qed.

Lemma subarray_rc_dims g (s : SubArray.t F) : yields (keeps_dims s) (SubArray.CalculateRC g s).
Proof.
  unfold SubArray.CalculateRC. destruct (negb _); [done|]. destruct (SubArray.invalid s); [done|].
  eapply yields_bind; [apply each_predecoder_mat|]. intros s1 [E1 _].
  apply (yields_weaken (keeps_mat s1)); [by yield|].
  intros s2 E2. apply same_mat_dims. unfold keeps_mat in *. congruence.
Qed.

Lemma latency_predecoders_mat g x (s : SubArray.t F) : yields (keeps_mat s) (SubArray.latency_predecoders g x s).
Proof.
  unfold SubArray.latency_predecoders. eapply yields_bind; [apply each_predecoder_mat|]. by intros s1 [E _].
Qed.

Lemma latency_tsv_mat g (s : SubArray.t F) : yields (keeps_mat s) (SubArray.latency_tsv g s).
Proof. unfold SubArray.latency_tsv. destruct (_ && _); [apply yields_any; intros v|]; done. Qed.

Lemma latency_mats_mat g x (s : SubArray.t F) : yields (keeps_mat s) (SubArray.latency_mats g x s).
Proof. unfold SubArray.latency_mats. cbv zeta. destruct (_ && _); [apply yields_any; intros c|]; done. Qed.

Lemma subarray_latency_dims g x (s : SubArray.t F) : yields (keeps_dims s) (SubArray.CalculateLatency g x s).
Proof.
  unfold SubArray.CalculateLatency. destruct (negb _); [done|].
  destruct (SubArray.invalid s); [done|].
  eapply yields_bind; [apply latency_predecoders_mat|]. intros s1 E1.
  eapply yields_bind; [apply latency_tsv_mat|]. intros s2 E2.
  eapply yields_bind; [apply Mat_Latency_dims|]. intros m Hm.
  assert (E : SubArray.mat s2 = SubArray.mat s) by (unfold keeps_mat in *; congruence). rewrite E in Hm.
  cbv zeta. destruct (Mat.invalid m); [by apply (dims_are_dims s m Hm)|].
  eapply yields_weaken; [apply latency_mats_mat|]. intros s3 E3. by apply (dims_are_dims s m Hm).
Qed.

Lemma power_comparator_mat g (s : SubArray.t F) : yields (keeps_mat s) (SubArray.CalculatePower_comparator g s).
Proof. unfold SubArray.CalculatePower_comparator. destruct (_ && _); [apply yields_any; intros c|]; done. Qed.

Lemma power_tsv_mat (s : SubArray.t F) : SubArray.mat (SubArray.CalculatePower_tsv s) = SubArray.mat s.
Proof. unfold SubArray.CalculatePower_tsv. destruct (_ && _); reflexivity. Qed.

Lemma power_array_mat (s : SubArray.t F) : SubArray.mat (SubArray.CalculatePower_array s) = SubArray.mat s.
Proof. reflexivity. Qed.

Lemma power_parts_dims g (s : SubArray.t F) : yields (keeps_dims s) (SubArray.CalculatePower_parts g s).
Proof.
  unfold SubArray.CalculatePower_parts. eapply yields_bind; [apply each_predecoder_mat|]. intros s1 [E1 _].
  eapply yields_bind; [apply Mat_Power_dims|]. intros m Hm. rewrite E1 in Hm.
  by apply (dims_are_dims s m Hm).
Qed.

#[local] Opaque SubArray.CalculatePower_array SubArray.CalculatePower_tsv
  SubArray.CalculatePower_comparator SubArray.CalculatePower_parts.

Lemma subarray_power_dims g (s : SubArray.t F) : yields (keeps_dims s) (SubArray.CalculatePower g s).
Proof.
  unfold SubArray.CalculatePower. destruct (negb _); [done|]. destruct (SubArray.invalid s); [done|].
  eapply yields_bind; [apply power_parts_dims|]. intros s1 E1. destruct (Mat.invalid (SubArray.mat s1)); [done|].
  eapply yields_weaken; [apply power_comparator_mat|]. intros s2 E2.
  transitivity (mat_dims s1); [|done]. apply same_mat_dims. unfold keeps_mat in E2.
  by rewrite E2, power_tsv_mat, power_array_mat.
Qed.

(** *** Banks *)

Lemma extra_muxes_pow2 dram k : 0 <= k < 31 ->
  exists e1 e2 e3, Bank.extra_muxes (F := F) dram (2 ^ k) = (2 ^ e1, 2 ^ e2, 2 ^ e3)
    /\ 0 <= e1 /\ 0 <= e2 /\ 0 <= e3 /\ e1 + e2 + e3 = k.
Proof.
  intros Hk. unfold Bank.extra_muxes. destruct (Z.ltb_spec 1 (2 ^ k)).
  - rewrite int_log2_pow2 by lia. rewrite (quot_nonneg k 2), (quot_nonneg k 3) by lia.
    pose proof (Z.div_pos k 2). pose proof (Z.div_pos k 3).
    pose proof (Z.mul_div_le k 2). pose proof (Z.mul_div_le k 3).
    rewrite !ipow2_exact by lia. destruct dram.
    + exists 0, (k - k / 2), (k / 2).
      rewrite quot_pow2 by lia. repeat split; lia.
    + exists (k - k / 3 - k / 3), (k / 3), (k / 3).
      rewrite !quot_pow2 by lia. repeat split; lia.
  - exists 0, 0, 0. assert (k = 0); [|by repeat split; lia].
    destruct (Z.eq_dec k 0); [done|]. pose proof (pow2_lt 0 k). lia.
Qed.

Lemma address_bits_org a o (b : Bank.t F) : organised a o ->
  Bank.address_bits (Bank.Initialize_members a b) = index o.
Proof.
  intros Ho. destruct (org_nonneg _ _ Ho) as (_ & _ & _ & _ & Hw & Hd & Hi).
  pose proof (org_block _ _ Ho) as Hb. pose proof (org_double _ _ Ho) as Hc.
  unfold Bank.address_bits. cbn -[Z.pow].
  rewrite (org_capacity _ _ Ho) in *. rewrite (org_ways _ _ Ho), (org_dies _ _ Ho).
  set (bs := BankArgs._blockSize a) in *. set (i := index o) in *. set (w := ways o) in *.
  set (d := dies o) in *. pose proof (pow2_pos w). pose proof (pow2_pos d). pose proof (pow2_pos i).
  replace (2 ^ i * 2 ^ w * bs * 2 ^ d) with (2 ^ (i + w + d) * bs) in *
    by (rewrite !Z.pow_add_r by lia; ring).
  assert (Hlt : 2 ^ (i + w + d) < 2 ^ 53) by (pose proof (pow2_pos (i + w + d)); nia).
  rewrite ndiv_exact by lia.
  replace (2 ^ (i + w + d)) with (2 ^ (i + d) * 2 ^ w) in * by (rewrite <- Z.pow_add_r by lia; f_equal; lia).
  rewrite ndiv_exact by lia. rewrite Z.pow_add_r in * by lia.
  destruct (Z.ltb_spec 1 (2 ^ d)).
  - rewrite ndiv_exact by nia. apply int_log2_pow2. lia.
  - replace (2 ^ d) with 1 by lia. rewrite Z.mul_1_r. apply int_log2_pow2. lia.
Qed.

(** The members of a bank that decide what it stores. *)
Definition carries (a : BankArgs.t) (b : Bank.t F) : Prop :=
  Bank.numRowSubArray b = BankArgs._numRowSubArray a /\
  Bank.numColumnSubArray b = BankArgs._numColumnSubArray a /\
  Bank.numRowMat b = BankArgs._numRowMat a /\ Bank.numColumnMat b = BankArgs._numColumnMat a /\
  Bank.numActiveMatPerRow b = BankArgs._numActiveMatPerRow a /\
  Bank.numActiveMatPerColumn b = BankArgs._numActiveMatPerColumn a /\
  Bank.memoryType b = BankArgs._memoryType a /\
  Bank.stackedDieCount b = BankArgs._stackedDieCount a.

Lemma carries_muxes a (k : Bank.t F) x1 x2 x3 : carries a k ->
  carries a (k <| Bank.muxSenseAmp := x1 |> <| Bank.muxOutputLev1 := x2 |> <| Bank.muxOutputLev2 := x3 |>).
Proof. intros Hc. exact Hc. Qed.

(** The activities of an organised bank are not clamped. *)
Lemma members_active a o (b : Bank.t F) : organised a o ->
  Bank.numActiveSubArrayPerColumn (Bank.Initialize_members a b) = 2 ^ actCol o /\
  Bank.numActiveSubArrayPerRow (Bank.Initialize_members a b) = 2 ^ actRow o /\
  carries a (Bank.Initialize_members a b).
Proof.
  intros Ho. destruct (org_active _ _ Ho) as [? ?]. destruct (org_active_mat _ _ Ho) as [? ?].
  unfold carries. cbn -[Z.pow].
  rewrite (org_rowSub _ _ Ho), (org_colSub _ _ Ho), (org_actCol _ _ Ho), (org_actRow _ _ Ho),
    (org_rowMat _ _ Ho), (org_colMat _ _ Ho), (org_actMatCol _ _ Ho), (org_actMatRow _ _ Ho).
  pose proof (pow2_le (actCol o) (rowSub o)). pose proof (pow2_le (actRow o) (colSub o)).
  pose proof (pow2_le (actMatCol o) (rowMat o)). pose proof (pow2_le (actMatRow o) (colMat o)).
  repeat case_match; rewrite ?Z.ltb_lt in *; repeat split; lia.
Qed.

(** A bank whose subarray is valid stores its share of the capacity. *)
Definition stores (a : BankArgs.t) (b : Bank.t F) : Prop :=
  SubArray.invalid (Bank.subarray b) = false -> bank_cells b = layer_capacity a.

(** The share of a subarray, with the data distributed over the active ones. *)
Lemma bank_subarray_cells g a o (b : Bank.t F) D w mono x1 x2 x3 :
  organised a o -> carries a b ->
  (BankArgs._memoryType a = data \/ BankArgs._memoryType a = tag /\ x1 + x2 + x3 + w < 31) ->
  0 <= x1 -> 0 <= x2 -> 0 <= x3 -> 0 <= w < 31 -> x1 + x2 + x3 < 31 ->
  0 <= D < 2 ^ 31 -> splits D (actMatRow o + actMatCol o) ->
  (Z.quot D (2 ^ (actMatRow o + actMatCol o)) <> 0 ->
   2 ^ (actCol o + actRow o) * 2 ^ w * D = 2 ^ ways o * BankArgs._blockSize a) ->
  yields (stores a)
    (Bank.init_subarray g (index o - (colSub o - actRow o) - (rowSub o - actCol o)) D (2 ^ w) mono
       (2 ^ x1) (2 ^ x2) (2 ^ x3) b).
Proof.
  intros Ho (E1 & E2 & E3 & E4 & E5 & E6 & E7 & E8) Hmt ? ? ? ? Hx HD Hsp Hshare.
  destruct (org_active _ _ Ho) as [? ?]. destruct (org_active_mat _ _ Ho) as [? ?].
  destruct (org_nonneg _ _ Ho) as (_ & _ & _ & _ & ? & ? & ?). destruct (org_int _ _ Ho) as (? & ? & _).
  unfold Bank.init_subarray.
  rewrite E3, E4, E5, E6, E7, E8, (org_rowMat _ _ Ho), (org_colMat _ _ Ho),
    (org_actMatCol _ _ Ho), (org_actMatRow _ _ Ho).
  set (n := index o - _ - _).
  eapply yields_bind.
  { apply (subarray_cells g (rowMat o) (colMat o) n D w (Bank.numRowPerSet b) false
      (actMatRow o) (actMatCol o) x1 (Bank.internalSenseAmp b) x2 x3 (Bank.areaOptimizationLevel b)
      (BankArgs._memoryType a) (BankArgs._stackedDieCount a) (Bank.partitionGranularity b) mono
      (Bank.subarray b)); done || lia. }
  intros s Hs Hinv. destruct (Hs Hinv) as (Hcells & Hq & Hn). unfold bank_cells. cbn -[Z.pow].
  rewrite E1, E2, E3, E4, (org_rowMat _ _ Ho), (org_colMat _ _ Ho), (org_rowSub _ _ Ho), (org_colSub _ _ Ho).
  destruct (layer_org _ _ Ho) as [-> _].
  replace (2 ^ index o * 2 ^ ways o * BankArgs._blockSize a)
    with (2 ^ index o * (2 ^ ways o * BankArgs._blockSize a)) by ring.
  rewrite <- (Hshare Hq).
  replace (index o) with (n + (colSub o - actRow o) + (rowSub o - actCol o)) by lia.
  replace (rowSub o) with ((rowSub o - actCol o) + actCol o) at 1 by lia.
  replace (colSub o) with ((colSub o - actRow o) + actRow o) at 1 by lia.
  rewrite !Z.pow_add_r in * by lia.
  transitivity (Mat.numRow (SubArray.mat s) * Mat.numColumn (SubArray.mat s) * (2 ^ rowMat o * 2 ^ colMat o)
    * 2 ^ (colSub o - actRow o) * 2 ^ actRow o * 2 ^ (rowSub o - actCol o) * 2 ^ actCol o); [ring|].
  rewrite Hcells. ring.
Qed.

(** What a bank stores depends on its organisation and the dimensions of its
    mats only. *)
Lemma cells_subarray (k : Bank.t F) s : mat_dims s = mat_dims (Bank.subarray k) ->
  bank_cells (k <| Bank.subarray := s |>) = bank_cells k.
Proof. unfold mat_dims, bank_cells. cbn. by intros [= -> ->]. Qed.

(** A phase that only adds TSVs: same cells, same state. *)
Definition same_cells (k k' : Bank.t F) : Prop :=
  bank_cells k' = bank_cells k /\ Bank.invalid k' = Bank.invalid k /\ Bank.initialized k' = Bank.initialized k.

Lemma cells_add_tsv_area g (k : Bank.t F) : yields (same_cells k) (Bank.add_tsv_area g k).
Proof. unfold Bank.add_tsv_area. destruct (1 <? _); [apply yields_any; intros v|]; done. Qed.

Lemma cells_tsv_latency_power g (k : Bank.t F) : yields (same_cells k) (Bank.tsv_latency_power g k).
Proof. unfold Bank.tsv_latency_power. apply yields_any. intros v. done. Qed.

Lemma cells_tsv_energy (k : Bank.t F) : same_cells k (Bank.tsv_energy k).
Proof. done. Qed.

Lemma cells_check_retention g (k : Bank.t F) : bank_cells (Bank.check_retention g k) = bank_cells k.
Proof. unfold Bank.check_retention. destruct (_ && _); reflexivity. Qed.

Lemma valid_check_retention g (k : Bank.t F) :
  Bank.invalid (Bank.check_retention g k) = false -> Bank.invalid k = false.
Proof. unfold Bank.check_retention. destruct (_ && _); done. Qed.

(** A data word is distributed over the active subarrays. *)
Lemma share_data a o :
  let D := Z.quot (BankArgs._blockSize a) (2 ^ (actRow o + actCol o)) in
  organised a o -> BankArgs._memoryType a = data ->
  0 <= D < 2 ^ 31 /\ splits D (actMatRow o + actMatCol o) /\
  (Z.quot D (2 ^ (actMatRow o + actMatCol o)) <> 0 ->
   2 ^ (actCol o + actRow o) * 2 ^ ways o * D = 2 ^ ways o * BankArgs._blockSize a).
Proof.
  intros D Ho Hmt. destruct (org_active _ _ Ho) as [? ?]. destruct (org_active_mat _ _ Ho) as [? ?].
  pose proof (org_block _ _ Ho). pose proof (org_splits _ _ Ho) as Hsp. rewrite Hmt in Hsp.
  set (j := actRow o + actCol o) in *. set (k := actMatRow o + actMatCol o) in *.
  replace (actCol o + actRow o + k) with (j + k) in Hsp by lia.
  replace (actCol o + actRow o) with j by lia.
  pose proof (pow2_pos j). pose proof (pow2_pos k). assert (Hqq := quot_quot_pow2 (BankArgs._blockSize a) j k).
  fold D in Hqq. split; [|split].
  - unfold D. rewrite quot_nonneg by lia. split; [apply Z.div_pos; lia|]. apply Z.div_lt_upper_bound; nia.
  - destruct Hsp as [Hz|[q Hq]]; [left; rewrite Hqq by lia; done|right]. exists q.
    unfold D. rewrite Hq, Z.pow_add_r by lia. replace (q * (2 ^ j * 2 ^ k)) with (q * 2 ^ k * 2 ^ j) by ring.
    apply Z.quot_mul. lia.
  - rewrite Hqq by lia. intros Hne. destruct Hsp as [Hz|[q Hq]]; [done|].
    assert (D * 2 ^ j = BankArgs._blockSize a); [|lia].
    unfold D. rewrite Hq, Z.pow_add_r by lia.
    replace (q * (2 ^ j * 2 ^ k)) with (q * 2 ^ k * 2 ^ j) by ring. rewrite Z.quot_mul by lia. ring.
Qed.

(** The ways of a tag array are distributed over the active subarrays. *)
Lemma share_tag a o : organised a o -> Z.quot (2 ^ ways o) (2 ^ (actRow o + actCol o)) <> 0 ->
  let w := ways o - (actRow o + actCol o) in
  0 <= w /\ Z.quot (2 ^ ways o) (2 ^ (actRow o + actCol o)) = 2 ^ w /\
  2 ^ (actCol o + actRow o) * 2 ^ w * BankArgs._blockSize a = 2 ^ ways o * BankArgs._blockSize a.
Proof.
  intros Ho Hne w. destruct (org_active _ _ Ho) as [? ?].
  destruct (org_nonneg _ _ Ho) as (_ & _ & _ & _ & Hw & _).
  destruct (Z.lt_ge_cases w 0) as [Hlt|Hge].
  { rewrite quot_pow2_zero in Hne by lia. done. }
  rewrite quot_pow2 by lia. repeat split; [done|].
  rewrite <- Z.pow_add_r by lia. do 2 f_equal. lia.
Qed.

(** *** Banks routed by an H-tree *)
Section Htree.
Import BankWithHtree.

(** The bits of a level fit an [int]. *)
Definition bits_fit (_ : Z) (l : Htree.Level) : Prop := exists n, level_bits l = Done n.

(** The arrays a routed bank carries into the later phases. *)
Definition tree_ready (b : t F) : Prop :=
  0 <= levelHorizontal b /\ 0 <= levelVertical b /\
  filled bits_fit (levelHorizontal b) (horizontal b) /\
  filled bits_fit (levelVertical b) (vertical b) /\
  Z.of_nat (length (lengthHorizontalWire b)) = levelHorizontal b /\
  Z.of_nat (length (lengthVerticalWire b)) = levelVertical b.

(** What the initialisation of an organised bank guarantees. *)
Definition initialised (a : BankArgs.t) (b : t F) : Prop :=
  Bank.initialized (bank b) = true /\
  (Bank.invalid (bank b) = false -> bank_cells (bank b) = layer_capacity a /\ tree_ready b).

Lemma initialised_reject a b : initialised a (reject b).
Proof. split; done. Qed.

Lemma broadcast_ways k : 0 <= k < 31 -> trunc (nlog2 (of_Z (F := F) (2 ^ k))) = k.
Proof. intros. apply ilog2_exact. lia. Qed.

(** The subarray of a data bank. *)
Lemma init_subarray_data g a o mono r (b : t F) :
  organised a o -> BankArgs._memoryType a = data -> carries a (bank b) ->
  Htree.routed (colSub o) (rowSub o) (index o) (BankArgs._blockSize a) (ways o) (actRow o) (actCol o) r ->
  Bank.muxSenseAmp (bank b) = 2 ^ mux1 o -> Bank.muxOutputLev1 (bank b) = 2 ^ mux2 o ->
  Bank.muxOutputLev2 (bank b) = 2 ^ mux3 o -> Bank.numRowPerSet (bank b) = 2 ^ rowsPerSet o ->
  rowsPerSet o <= ways o ->
  yields (fun b' => stores a (bank b')) (init_subarray g mono r (2 ^ ways o) b).
Proof.
  intros Ho Hmt Hc (Ea & Ed & Eb & _) M1 M2 M3 Hr Hrw. unfold init_subarray.
  destruct (org_nonneg _ _ Ho) as (? & ? & ? & ? & ? & ? & ?). destruct (org_int _ _ Ho) as (? & ? & ?).
  assert (Bank.memoryType (bank b) = data) as -> by (destruct Hc as (_&_&_&_&_&_& -> &_); done).
  rewrite Hr, quot_pow2, M1, M2, M3 by lia.
  destruct (extra_muxes_pow2 (IsRefreshMemory (MemCell.memCellType (Globals.cell g)))
    (ways o - rowsPerSet o)) as (e1 & e2 & e3 & -> & ? & ? & ? & Hsum); [lia|].
  rewrite <- !Z.pow_add_r by lia.
  assert (Hpow : forall x, 0 <= x < 31 -> wrap32 (2 ^ x) = 2 ^ x).
  { intros x Hx. pose proof (pow2_pos x). pose proof (pow2_lt x 31). apply wrap32_small. lia. }
  rewrite !Hpow, Ea, Ed by lia. destruct (share_data a o Ho Hmt) as (HD & Hsp & Hsh).
  cbv zeta. eapply yields_bind; [|intros k Hk; exact Hk].
  eapply (bank_subarray_cells g a o); first [done|lia|by apply carries_muxes|by left].
Qed.

(** The subarray of a tag bank. *)
Lemma init_subarray_tag g a o mono r (b : t F) :
  organised a o -> BankArgs._memoryType a = tag -> carries a (bank b) ->
  Htree.routed (colSub o) (rowSub o) (index o) (2 ^ ways o) (BankArgs._blockSize a) (actRow o) (actCol o) r ->
  Bank.muxSenseAmp (bank b) = 2 ^ mux1 o -> Bank.muxOutputLev1 (bank b) = 2 ^ mux2 o ->
  Bank.muxOutputLev2 (bank b) = 2 ^ mux3 o ->
  Htree.numDataDistributeBitToRoute r <> 0 ->
  yields (fun b' => stores a (bank b')) (init_subarray g mono r (Htree.numDataDistributeBitToRoute r) b).
Proof.
  intros Ho Hmt Hc (Ea & Ed & Eb & _) M1 M2 M3 Hne. unfold init_subarray.
  destruct (org_nonneg _ _ Ho) as (? & ? & ? & ? & ? & ? & ?). destruct (org_int _ _ Ho) as (? & ? & ?).
  destruct (org_active _ _ Ho) as [? ?].
  pose proof (org_splits _ _ Ho) as Hsp. rewrite Hmt in Hsp. pose proof (org_block _ _ Ho).
  assert (Bank.memoryType (bank b) = tag) as -> by (destruct Hc as (_&_&_&_&_&_& -> &_); done).
  rewrite Ed in *. destruct (share_tag a o Ho Hne) as (Hw & -> & Hsh).
  assert (Hpow : forall x, 0 <= x < 31 -> wrap32 (2 ^ x * 1) = 2 ^ x).
  { intros x Hx. pose proof (pow2_pos x). pose proof (pow2_lt x 31). rewrite Z.mul_1_r. apply wrap32_small. lia. }
  rewrite M1, M2, M3, !Hpow, Ea, Eb by lia.
  cbv zeta. eapply yields_bind; [|intros k Hk; exact Hk].
  eapply (bank_subarray_cells g a o); first [done|lia|by apply carries_muxes|right; split; [done|lia]].
Qed.

(** The routed signals of an organised bank. *)
Definition distributed (a : BankArgs.t) (o : org) : Z :=
  match BankArgs._memoryType a with data => BankArgs._blockSize a | _ => 2 ^ ways o end.
Definition broadcast (a : BankArgs.t) (o : org) : Z :=
  match BankArgs._memoryType a with data => ways o | _ => BankArgs._blockSize a end.

Lemma signals_org a o (b : t F) : organised a o ->
  (BankArgs._memoryType a = data \/ BankArgs._memoryType a = tag) ->
  let b' := allocate (signals (b <| bank := Bank.Initialize_members a (bank b) |>)) in
  bank b' = Bank.Initialize_members a (bank b) /\
  numAddressBit b' = index o /\ numDataDistributeBit b' = distributed a o /\
  numDataBroadcastBit b' = broadcast a o /\ levelHorizontal b' = colSub o /\
  levelVertical b' = rowSub o /\ lengthHorizontalWire b' = new_array (colSub o) /\
  lengthVerticalWire b' = new_array (rowSub o).
Proof.
  intros Ho Hmt. destruct (org_active _ _ Ho) as [? ?]. destruct (org_int _ _ Ho) as (? & ? & ?).
  destruct (org_nonneg _ _ Ho) as (? & ? & ? & ? & ? & ? & ?). pose proof (org_block _ _ Ho) as Hb.
  unfold allocate, signals, distributed, broadcast. cbv zeta.
  change (bank (b <| bank := _ |>)) with (Bank.Initialize_members a (bank b)).
  change (bank ((b <| bank := Bank.Initialize_members a (bank b) |>)
    <| numAddressBit := Bank.address_bits (Bank.Initialize_members a (bank b)) |>))
    with (Bank.Initialize_members a (bank b)).
  rewrite (address_bits_org a o) by done.
  change (Bank.memoryType (Bank.Initialize_members a (bank b))) with (BankArgs._memoryType a).
  destruct Hmt as [-> | ->]; cbn -[Z.pow new_array int_log2 wrap32].
  all: rewrite (org_rowSub _ _ Ho), (org_colSub _ _ Ho), (org_ways _ _ Ho), !int_log2_pow2 by lia.
  all: rewrite ?wrap32_small by lia; rewrite ?broadcast_ways by lia.
  all: repeat split.
Qed.

(** The ways of a subarray are a power of two that the rows of a set divide. *)
Lemma ways_org a o r (b : t F) k : organised a o ->
  bank b = Bank.Initialize_members a k ->
  (BankArgs._memoryType a = data \/ BankArgs._memoryType a = tag) ->
  Htree.numDataBroadcastBitToRoute r = broadcast a o ->
  match ways_of_subarray r b with
  | None => True
  | Some n => match BankArgs._memoryType a with
              | data => n = 2 ^ ways o /\ rowsPerSet o <= ways o
              | _ => n = Htree.numDataDistributeBitToRoute r /\ n <> 0
              end
  end.
Proof.
  intros Ho Hk Hmt Hb. destruct (org_int _ _ Ho) as (? & ? & ?).
  destruct (org_nonneg _ _ Ho) as (? & ? & ? & ? & ? & ? & ?).
  unfold ways_of_subarray. rewrite Hk. cbn -[Z.pow]. rewrite Hb. unfold broadcast.
  destruct Hmt as [-> | ->].
  - rewrite ipow2_exact, (org_rows _ _ Ho) by lia.
    destruct (Z.ltb_spec (2 ^ ways o) (2 ^ rowsPerSet o)); [done|]. split; [done|].
    destruct (Z.le_gt_cases (rowsPerSet o) (ways o)); [done|].
    pose proof (pow2_lt (ways o) (rowsPerSet o)). lia.
  - destruct (1 <? _); [done|].
    destruct (Z.eqb_spec (Htree.numDataDistributeBitToRoute r) 0); [done|]. by split.
Qed.

Lemma filled_fit A D B k n l : A + D + B < 2 ^ 31 -> 0 <= B ->
  filled (fun _ => Htree.level_ok A D B k) n l -> filled bits_fit n l.
Proof.
  intros Hs HB Hf i Hi. destruct (Hf i Hi) as (x & Hx & H1 & H2 & H3 & _). exists x. split; [done|].
  unfold bits_fit, level_bits. rewrite H3, checked_in by lia. cbn [init_bind]. rewrite checked_in by lia. eauto.
Qed.

Lemma Initialize_end_ready g a (b : t F) :
  stores a (bank b) -> tree_ready b -> yields (initialised a) (Initialize_end g a b).
Proof.
  intros Hcells Hr. unfold Initialize_end. unfold stores in Hcells.
  destruct (SubArray.invalid _); [apply initialised_reject|].
  specialize (Hcells eq_refl). cbv zeta.
  destruct (negb _); [destruct (TSV_Initialize _ _ _) as [v|e]; cbn [outcome_bind]; [|done]|];
    (split; [reflexivity|intros _; split; assumption]).
Qed.

Lemma init_subarray_ready g mono r n (b : t F) : tree_ready b -> yields tree_ready (init_subarray g mono r n b).
Proof.
  intros Hr. unfold init_subarray. destruct (match Bank.memoryType _ with data => _ | _ => _ end) as [[? ?] ?].
  apply yields_any. intros k. exact Hr.
Qed.

Lemma yields_both {A} (P Q : A -> Prop) m : yields P m -> yields Q m -> yields (fun x => P x /\ Q x) m.
Proof. destruct m; cbn; auto. Qed.

Lemma route_initialised g a o k (b : t F) :
  organised a o -> (BankArgs._memoryType a = data \/ BankArgs._memoryType a = tag) ->
  bank b = Bank.Initialize_members a k ->
  numAddressBit b = index o -> numDataDistributeBit b = distributed a o ->
  numDataBroadcastBit b = broadcast a o -> levelHorizontal b = colSub o ->
  levelVertical b = rowSub o -> lengthHorizontalWire b = new_array (colSub o) ->
  lengthVerticalWire b = new_array (rowSub o) ->
  safe (initialised a) (Initialize_route g a b).
Proof.
  intros Ho Hmt Ek Ea Ed Eb Eh Ev El Em. destruct (org_active _ _ Ho) as [? ?].
  pose proof (org_block _ _ Ho). destruct (org_nonneg _ _ Ho) as (? & ? & ? & ? & ? & ? & ?).
  pose proof (pow2_pos (ways o)). destruct (members_active a o k Ho) as (Ac & Ar & Hcar).
  unfold Initialize_route. rewrite Ea, Ed, Eb, Eh, Ev, Ek, Ac, Ar.
  pose proof (org_wires _ _ Ho) as Hw. destruct (org_int _ _ Ho) as (? & _ & _).
  assert (Hd : 0 <= distributed a o /\ 0 <= broadcast a o /\
               index o + distributed a o + broadcast a o < 2 ^ 31)
    by (unfold distributed, broadcast; destruct (BankArgs._memoryType a); lia).
  destruct Hd as (Hd & Hbr & Hsum).
  pose proof (Htree.route_safe (colSub o) (rowSub o) (index o) (distributed a o) (broadcast a o)
    (actRow o) (actCol o) ltac:(lia) ltac:(lia) ltac:(lia) Hd Hbr ltac:(lia) ltac:(lia) ltac:(lia) ltac:(lia)) as Hroute.
  destruct (Htree.route _ _ _ _ _ _ _) as [r| | |]; [|apply initialised_reject|exact Hroute|done].
  cbn [safe] in Hroute. set (b3 := (b <| horizontal := _ |>) <| vertical := _ |>).
  assert (Ek3 : bank b3 = Bank.Initialize_members a k) by exact Ek.
  assert (Hr : tree_ready b3).
  { destruct Hroute as (_ & _ & _ & Hh & Hv). subst b3.
    repeat split; cbn -[Z.pow new_array]; rewrite ?Eh, ?Ev, ?El, ?Em.
    1-2: lia. 1-2: by eapply filled_fit. all: apply length_new_array; lia. }
  clearbody b3. pose proof (ways_org a o r b3 k Ho Ek3 Hmt ltac:(apply Hroute)) as Hways.
  destruct (ways_of_subarray r b3) as [n'|]; [|apply initialised_reject].
  eapply (safe_circuit_bind (fun b4 => stores a (bank b4) /\ tree_ready b4));
    [|intros b4 [Hs4 Hr4]; by apply safe_circuit, Initialize_end_ready].
  apply yields_both; [|by apply init_subarray_ready].
  assert (Hc3 : carries a (bank b3)) by (by rewrite Ek3).
  unfold distributed, broadcast in Hroute.
  destruct Hmt as [Hm|Hm]; rewrite Hm in *; destruct Hways as [-> ?];
    [eapply init_subarray_data|eapply init_subarray_tag]; try done; rewrite Ek3;
    [apply (org_mux1 _ _ Ho)|apply (org_mux2 _ _ Ho)|apply (org_mux3 _ _ Ho)|apply (org_rows _ _ Ho)
    |apply (org_mux1 _ _ Ho)|apply (org_mux2 _ _ Ho)|apply (org_mux3 _ _ Ho)].
Qed.

Lemma htree_initialised g a o (b : t F) :
  organised a o -> (BankArgs._memoryType a = data \/ BankArgs._memoryType a = tag) ->
  BankArgs._internalSenseAmp a = true -> safe (initialised a) (Initialize g a b).
Proof.
  intros Ho Hmt Hint. destruct (org_active _ _ Ho) as [? ?].
  unfold Initialize. rewrite (org_rowSub _ _ Ho), (org_colSub _ _ Ho), Hint.
  pose proof (pow2_pos (rowSub o)). pose proof (pow2_pos (colSub o)).
  destruct (Z.eqb_spec (2 ^ rowSub o) 0); [lia|]. destruct (Z.eqb_spec (2 ^ colSub o) 0); [lia|].
  cbn [orb negb]. cbv zeta.
  destruct (signals_org a o (if Bank.initialized (bank b) then release b else b) Ho Hmt)
    as (Ek & Ea & Ed & Eb & Eh & Ev & El & Em).
  exact (route_initialised g a o _ _ Ho Hmt Ek Ea Ed Eb Eh Ev El Em).
Qed.

(** *** The wires of the H-tree: every length is computed before it is used *)

Definition lengths_inv (b : t F) (s : Lengths (F := F)) : Prop :=
  (-1 <= lh s < levelHorizontal b) /\ (-1 <= lv s < levelVertical b) /\
  Z.of_nat (length (lenH s)) = levelHorizontal b /\ Z.of_nat (length (lenV s)) = levelVertical b /\
  set_above (lh s) (lenH s) /\ set_above (lv s) (lenV s).

Lemma length_vertical_safe b s : lengths_inv b s -> 0 <= lv s ->
  safe (fun s' => lengths_inv b s' /\ lh s' = lh s /\ lv s' = lv s - 1) (length_vertical b s).
Proof.
  intros (Hh & Hv & Lh & Lv & Sh & Sv) H0. unfold length_vertical.
  apply (safe_bind (fun _ => True)).
  { destruct (Z.eqb_spec (lv s) (levelVertical b - 1)); [done|].
    eapply safe_bind; [apply (aread_above _ (lv s)); [done|lia|lia]|done]. }
  intros len _. eapply safe_bind; [apply awrite_above; [done|lia]|].
  intros arr [Sa La]. repeat split; cbn; try done || lia.
Qed.

Lemma length_horizontal_safe b s : lengths_inv b s -> 0 <= lh s ->
  safe (fun s' => lengths_inv b s' /\ lh s' = lh s - 1 /\ lv s' = lv s) (length_horizontal b s).
Proof.
  intros (Hh & Hv & Lh & Lv & Sh & Sv) H0. unfold length_horizontal.
  apply (safe_bind (fun _ => True)).
  { destruct (Z.eqb_spec (lh s) (levelHorizontal b - 1)); [done|].
    eapply safe_bind; [apply (aread_above _ (lh s)); [done|lia|lia]|done]. }
  intros len _. eapply safe_bind; [apply awrite_above; [done|lia]|].
  intros arr [Sa La]. repeat split; cbn; try done || lia.
Qed.

Lemma half_pitch_fit i l sharing (pitch : F) : bits_fit i l -> exists y, half_pitch l sharing pitch = Done y.
Proof. intros [n En]. unfold half_pitch. rewrite En. by eexists. Qed.

Lemma length_both_safe b sharing pitch s : tree_ready b -> lengths_inv b s -> 0 <= lv s <= lh s ->
  safe (fun s' => lengths_inv b s' /\ lh s' = lh s - 1 /\ lv s' = lv s - 1) (length_both b sharing pitch s).
Proof.
  intros (_ & _ & Fh & Fv & _ & _) (Hh & Hv & Lh & Lv & Sh & Sv) H0. unfold length_both.
  apply (safe_bind (fun _ => True)).
  { destruct (Z.eqb_spec (lv s) (levelVertical b - 1)); [done|].
    eapply safe_bind; [apply (aread_above _ (lv s)); [done|lia|lia]|]. intros x _.
    destruct (Z.eqb_spec (lh s) (levelHorizontal b - 1)); [done|].
    eapply safe_bind; [eapply aread_filled; [exact Fh|lia]|]. intros l Hl.
    by destruct (half_pitch_fit _ l sharing pitch Hl) as [y ->]. }
  intros len _. eapply safe_bind; [apply awrite_above; [done|lia]|].
  intros lenV' [Sa La]. apply (safe_bind (fun _ => True)).
  { destruct (Z.eqb_spec (lh s) (levelHorizontal b - 1)).
    - apply init_for_safe; [|done]. intros acc i Hi _.
      eapply safe_bind; [eapply aread_filled; [exact Fv|lia]|]. intros l Hl.
      by destruct (half_pitch_fit _ l sharing pitch Hl) as [y ->].
    - eapply safe_bind; [eapply aread_filled; [exact Fv|lia]|]. intros l Hl.
      destruct (half_pitch_fit _ l sharing pitch Hl) as [y ->]. cbn [init_bind].
      eapply safe_bind; [apply (aread_above _ (lh s)); [done|lia|lia]|done]. }
  intros len' _. eapply safe_bind; [apply awrite_above; [done|lia]|].
  intros lenH' [Sb Lb]. repeat split; cbn; try done || lia.
Qed.

(** All wires get a length, and the three loops end. *)
Lemma wire_lengths_inv b sharing pitch : tree_ready b ->
  safe (fun s => lengths_inv b s /\ filled (fun _ _ => True) (levelHorizontal b) (lenH s)
              /\ filled (fun _ _ => True) (levelVertical b) (lenV s)) (wire_lengths b sharing pitch).
Proof.
  intros Hr. pose proof Hr as (H0 & V0 & _ & _ & Lh & Lv). unfold wire_lengths.
  eapply safe_bind.
  { apply (while_loop_safe (lengths_inv b) (fun s => Z.to_nat (lv s + 1))).
    - intros s Hi C%Z.ltb_lt. pose proof Hi as ([? ?] & _).
      eapply safe_weaken; [apply (length_vertical_safe b s Hi); lia|]. intros s' (Hi' & _ & E). split; [done|lia].
    - repeat split; cbn; try lia; intros i Hi; lia.
    - cbn. lia. }
  intros s1 [I1 C1%Z.ltb_ge]. eapply safe_bind.
  { apply (while_loop_safe (fun s => lengths_inv b s /\ lv s <= lh s) (fun s => Z.to_nat (lv s + 1))).
    - intros s [Hi L] C%Z.leb_le.
      eapply safe_weaken; [apply (length_both_safe b sharing pitch s Hr Hi); lia|].
      intros s' (Hi' & E1 & E2). split; [split; [done|lia]|lia].
    - split; [done|lia].
    - destruct I1 as (_ & [? ?] & _). lia. }
  intros s2 [[I2 L2] C2%Z.leb_gt]. eapply safe_weaken.
  { apply (while_loop_safe (fun s => lengths_inv b s /\ lv s = lv s2) (fun s => Z.to_nat (lh s + 1))).
    - intros s [Hi E] C%Z.leb_le. eapply safe_weaken; [apply (length_horizontal_safe b s Hi C)|].
      intros s' (Hi' & E1 & E2). split; [split; [done|lia]|lia].
    - done.
    - destruct I2 as ([? ?] & _). lia. }
  intros s3 [[Hi3 E3] C3%Z.leb_gt]. split; [done|].
  destruct Hi3 as (Hh & Hv & Lh3 & Lv3 & Sh & Sv).
  split; intros i Hi; [destruct (Sh i) as [x Hx]|destruct (Sv i) as [x Hx]]; try lia; by exists x.
Qed.

(** *** The phases of an H-tree bank *)

(** What holds after [CalculateArea]: the wires have lengths, too. *)
Definition measured (a : BankArgs.t) (b : t F) : Prop :=
  Bank.initialized (bank b) = true /\
  (Bank.invalid (bank b) = false -> bank_cells (bank b) = layer_capacity a /\ tree_ready b /\
     filled (fun _ _ => True) (levelHorizontal b) (lengthHorizontalWire b) /\
     filled (fun _ _ => True) (levelVertical b) (lengthVerticalWire b)).

Lemma add_wire_area_safe (levels : array Htree.Level) n sharing (pitch side : F) :
  filled bits_fit n levels ->
  safe (fun _ => True) (add_wire_area levels n sharing pitch side).
Proof.
  intros Hf. apply init_for_safe; [|done]. intros acc i Hi _.
  eapply safe_bind; [eapply aread_filled; [exact Hf|lia]|]. intros l [bits ->]. done.
Qed.

Lemma area_wires_safe g a sharing pitch height width (b : t F) :
  Bank.initialized (bank b) = true -> bank_cells (bank b) = layer_capacity a -> tree_ready b ->
  safe (measured a) (area_wires g sharing pitch height width b).
Proof.
  intros Hi Hc Hr. unfold area_wires. cbv zeta.
  set (b1 := field_update (proj := bank) _ b).
  assert (Hi1 : Bank.initialized (bank b1) = true) by exact Hi.
  assert (Hc1 : bank_cells (bank b1) = layer_capacity a) by exact Hc.
  assert (Hr1 : tree_ready b1) by exact Hr. clearbody b1. clear b Hi Hc Hr.
  destruct (Bank.aspect_ratio_illegal g (bank b1)); [by split|].
  set (b2 := field_update (proj := bank) _ b1).
  assert (Hi2 : Bank.initialized (bank b2) = true) by exact Hi1.
  assert (Hc2 : bank_cells (bank b2) = layer_capacity a) by exact Hc1.
  assert (Hr2 : tree_ready b2) by exact Hr1. clearbody b2. clear b1 Hi1 Hc1 Hr1.
  eapply safe_bind; [exact (wire_lengths_inv b2 sharing pitch Hr2)|].
  intros s (Hinv & Hh & Hv). destruct Hr2 as (? & ? & ? & ? & _ & _). destruct Hinv as (_ & _ & ? & ? & _).
  eapply safe_circuit_bind; [apply cells_add_tsv_area|]. intros k (Ec & Ev & Ei).
  split; [by transitivity (Bank.initialized (bank b2))|]. intros _.
  split; [|by repeat split]. by transitivity (bank_cells (bank b2)).
Qed.

Lemma area_bank_safe g a (b : t F) :
  Bank.initialized (bank b) = true -> bank_cells (bank b) = layer_capacity a -> tree_ready b ->
  safe (measured a) (area_bank g b).
Proof.
  intros Hi Hc Hr. unfold area_bank. destruct (SubArray.invalid _); [by split|].
  destruct (Bank.wire_sharing (Globals.globalWire g)) as [sharing pitch].
  pose proof Hr as (_ & _ & Fh & Fv & _).
  eapply safe_bind; [by apply add_wire_area_safe|]. intros height _.
  eapply safe_bind; [by apply add_wire_area_safe|]. intros width _.
  by apply area_wires_safe.
Qed.

#[local] Opaque SubArray.CalculateArea SubArray.CalculateRC SubArray.CalculateLatency
  SubArray.CalculatePower.

(** The bank after a phase of its subarray: same cells, same tree. *)
Lemma with_subarray a (b : t F) s :
  keeps_dims (Bank.subarray (bank b)) s -> bank_cells (bank b) = layer_capacity a ->
  bank_cells (bank (b <@ Bank.subarray := s @>)) = layer_capacity a.
Proof. intros Hd <-. by apply cells_subarray. Qed.

Lemma CalculateArea_safe g a (b : t F) : initialised a b -> safe (measured a) (CalculateArea g b).
Proof.
  intros [Hi Hv]. unfold CalculateArea. rewrite Hi. cbn [negb].
  destruct (Bank.invalid (bank b)) eqn:E; [split; [done|]; intros E'; change (Bank.invalid (bank b) = false) in E'; congruence|].
  destruct (Hv eq_refl) as [Hc Hr]. eapply safe_circuit_bind; [apply subarray_area_dims|]. intros s Hs.
  apply area_bank_safe; [exact Hi| |exact Hr]. by apply with_subarray.
Qed.

Lemma CalculateRC_measured g a (b : t F) : measured a b -> safe (measured a) (CalculateRC g b).
Proof.
  intros [Hi Hv]. unfold CalculateRC. rewrite Hi. cbn [negb].
  destruct (Bank.invalid (bank b)) eqn:E; [split; [done|]; rewrite E; done|].
  destruct (Hv eq_refl) as (Hc & Hr & Fh & Fv).
  eapply safe_circuit_bind; [apply subarray_rc_dims|]. intros s Hs.
  split; [exact Hi|intros _]. repeat split; try by apply Hr. 2-3: done.
  by apply with_subarray.
Qed.

Lemma add_levels_safe w beta n (levels : array Htree.Level) (lengths : array F) u :
  filled bits_fit n levels -> filled (fun _ _ => True) n lengths ->
  safe (fun _ => True) (add_levels w beta n levels lengths u).
Proof.
  intros Hf Hl. apply init_for_safe; [|done]. intros acc i Hi _.
  eapply safe_bind; [eapply aread_filled; [exact Hl|lia]|]. intros len _.
  eapply safe_bind; [eapply aread_filled; [exact Hf|lia]|]. intros l [bits Hbits].
  eapply (safe_circuit_bind (fun _ => True)); [by destruct (Wire_CalculateLatencyAndPower _ _)|].
  intros figures _. rewrite Hbits. done.
Qed.

Lemma cells_tree_tsv (k : Bank.t F) : same_cells k (Bank.tsv_energy (add_tsv_latency k)).
Proof. done. Qed.

Lemma tree_metrics_safe g a (b : t F) :
  bank_cells (bank b) = layer_capacity a -> tree_ready b ->
  filled (fun _ _ => True) (levelHorizontal b) (lengthHorizontalWire b) ->
  filled (fun _ _ => True) (levelVertical b) (lengthVerticalWire b) ->
  safe (fun b' => bank_cells (bank b') = layer_capacity a) (tree_metrics g b).
Proof.
  intros Hc Hr Fh Fv. pose proof Hr as (_ & _ & Gh & Gv & _). unfold tree_metrics.
  eapply safe_bind; [by apply add_levels_safe|]. intros u1 _.
  eapply safe_bind; [by apply add_levels_safe|]. intros u2 _. cbv zeta.
  set (k := Bank.routing_shares _). assert (Hk : bank_cells k = layer_capacity a) by exact Hc.
  clearbody k. eapply (safe_bind (fun k' => bank_cells k' = layer_capacity a)); [|intros k' Hk'; exact Hk'].
  destruct (1 <? _); [|exact Hk]. eapply safe_circuit_bind; [apply cells_tsv_latency_power|].
  intros k1 [E1 _]. rewrite <- Hk, <- E1. apply cells_tree_tsv.
Qed.

(** The result of all phases: a bank that is still valid stores the capacity. *)
Definition conserves (a : BankArgs.t) (b : t F) : Prop :=
  Bank.invalid (bank b) = false -> bank_cells (bank b) = layer_capacity a.

Lemma finish_conserves g a (b : t F) : conserves a b -> conserves a (finish g b).
Proof.
  intros Hb Hv. unfold finish in *. cbn in *. rewrite cells_check_retention.
  apply Hb. by eapply valid_check_retention.
Qed.

Lemma fail_conserves a (b : t F) : conserves a (b <| bank := Bank.fail_metrics (bank b) |>).
Proof. intros Hf. discriminate Hf. Qed.

Lemma CalculateLatencyAndPower_safe g a (b : t F) : measured a b ->
  safe (conserves a) (CalculateLatencyAndPower g b).
Proof.
  intros [Hi Hv]. unfold CalculateLatencyAndPower. rewrite Hi. cbn [negb].
  destruct (Bank.invalid (bank b)) eqn:E.
  { apply finish_conserves. intros Hf. change (Bank.invalid (bank b) = false) in Hf. congruence. }
  destruct (Hv eq_refl) as (Hc & Hr & Fh & Fv). unfold metrics.
  eapply safe_circuit_bind; [apply subarray_latency_dims|]. intros s1 Hs1. cbv zeta.
  set (b1 := b <@ Bank.subarray := _ @>).
  assert (Hc1 : bank_cells (bank b1) = layer_capacity a) by (by apply with_subarray).
  assert (Hr1 : tree_ready b1) by exact Hr.
  assert (Fh1 : filled (fun _ _ => True) (levelHorizontal b1) (lengthHorizontalWire b1)) by exact Fh.
  assert (Fv1 : filled (fun _ _ => True) (levelVertical b1) (lengthVerticalWire b1)) by exact Fv.
  clearbody b1. destruct (SubArray.invalid (Bank.subarray (bank b1))); [apply fail_conserves|].
  eapply safe_circuit_bind; [apply subarray_power_dims|]. intros s2 Hs2.
  destruct (SubArray.invalid _); [apply fail_conserves|].
  eapply safe_bind; [apply (tree_metrics_safe g a); [|exact Hr1|exact Fh1|exact Fv1]|].
  { by apply with_subarray. }
  intros b3 Hc3. apply finish_conserves. by intros _.
Qed.

End Htree.

(** *** Banks with flat routing *)
Section Flat.
Import BankWithoutHtree.

#[local] Opaque SubArray.CalculateArea SubArray.CalculateRC SubArray.CalculateLatency
  SubArray.CalculatePower SubArray.Initialize.

Definition holds (a : BankArgs.t) (b : t F) : Prop :=
  Bank.invalid (bank b) = false -> bank_cells (bank b) = layer_capacity a.

Definition keeps_bank (b b' : t F) : Prop := bank b' = bank b.
Definition keeps_cells (b b' : t F) : Prop := bank_cells (bank b') = bank_cells (bank b).

Lemma init_external_bank g (b : t F) : yields (keeps_bank b) (init_external g b).
Proof.
  unfold init_external. cbv zeta. apply yields_any. intros amp. destruct (SenseAmp.invalid _); [done|].
  do 3 (apply yields_any; intros ?). destruct (bool_decide _); [apply yields_any; intros c|]; done.
Qed.

Lemma Initialize_end_cells g a (b : t F) : yields (keeps_cells b) (Initialize_end g a b).
Proof.
  unfold Initialize_end. cbv zeta.
  destruct (1 <? _); [destruct (TSV_Initialize _ _ _) as [v|e]; cbn [outcome_bind]|]; done.
Qed.

(** The subarray of an organised bank, with enlarged multiplexers. *)
Lemma subarray_muxes_org g a o n (k : Bank.t F) :
  organised a o -> Bank.memoryType k = BankArgs._memoryType a ->
  Bank.muxSenseAmp k = 2 ^ mux1 o -> Bank.muxOutputLev1 k = 2 ^ mux2 o ->
  Bank.muxOutputLev2 k = 2 ^ mux3 o -> Bank.numRowPerSet k = 2 ^ rowsPerSet o ->
  match BankArgs._memoryType a with
  | data => n = 2 ^ ways o /\ rowsPerSet o <= ways o
  | _ => True
  end ->
  exists x1 x2 x3, subarray_muxes g n k = (2 ^ x1, 2 ^ x2, 2 ^ x3) /\
    0 <= x1 /\ 0 <= x2 /\ 0 <= x3 /\ x1 + x2 + x3 < 31 /\
    match BankArgs._memoryType a with
    | data => True
    | _ => x1 + x2 + x3 = mux1 o + mux2 o + mux3 o
    end.
Proof.
  intros Ho Em M1 M2 M3 Er Hn. destruct (org_nonneg _ _ Ho) as (? & ? & ? & ? & ? & ? & ?).
  destruct (org_int _ _ Ho) as (? & ? & ?).
  unfold subarray_muxes. rewrite Em, M1, M2, M3, Er.
  assert (Hpow : forall x, 0 <= x < 31 -> wrap32 (2 ^ x) = 2 ^ x).
  { intros x Hx. pose proof (pow2_pos x). pose proof (pow2_lt x 31). apply wrap32_small. lia. }
  destruct (BankArgs._memoryType a).
  - destruct Hn as [-> Hle]. rewrite quot_pow2 by lia.
    destruct (extra_muxes_pow2 (IsRefreshMemory (MemCell.memCellType (Globals.cell g)))
      (ways o - rowsPerSet o)) as (e1 & e2 & e3 & -> & ? & ? & ? & Hsum); [lia|].
    exists (mux1 o + e1), (mux2 o + e2), (mux3 o + e3).
    rewrite <- !Z.pow_add_r, !Hpow by lia. repeat split; lia.
  - exists (mux1 o), (mux2 o), (mux3 o). rewrite !Z.mul_1_r, !Hpow by lia. repeat split; lia.
  - exists (mux1 o), (mux2 o), (mux3 o). rewrite !Z.mul_1_r, !Hpow by lia. repeat split; lia.
Qed.

(** The bits and ways of an organised bank. *)
Lemma bits_and_ways_org a o (k : Bank.t F) bits n :
  organised a o -> (BankArgs._memoryType a = data \/ BankArgs._memoryType a = tag) ->
  bits_and_ways (Bank.Initialize_members a k) = (bits, n, true) ->
  exists w, n = 2 ^ w /\ 0 <= w <= ways o /\ 0 <= bits < 2 ^ 31 /\
    splits bits (actMatRow o + actMatCol o) /\
    (Z.quot bits (2 ^ (actMatRow o + actMatCol o)) <> 0 ->
     2 ^ (actCol o + actRow o) * 2 ^ w * bits = 2 ^ ways o * BankArgs._blockSize a) /\
    match BankArgs._memoryType a with
    | data => n = 2 ^ ways o /\ rowsPerSet o <= ways o
    | _ => True
    end.
Proof.
  intros Ho Hmt. destruct (members_active a o k Ho) as (Ac & Ar & _). destruct (org_active _ _ Ho) as [? ?].
  destruct (org_nonneg _ _ Ho) as (? & ? & ? & ? & ? & ? & ?). pose proof (org_block _ _ Ho).
  unfold bits_and_ways. rewrite Ac, Ar.
  change (Bank.memoryType (Bank.Initialize_members a k)) with (BankArgs._memoryType a).
  change (Bank.blockSize (Bank.Initialize_members a k)) with (BankArgs._blockSize a).
  change (Bank.associativity (Bank.Initialize_members a k)) with (BankArgs._associativity a).
  change (Bank.numRowPerSet (Bank.Initialize_members a k)) with (BankArgs._numRowPerSet a).
  rewrite (org_ways _ _ Ho), (org_rows _ _ Ho). pose proof (pow2_pos (ways o)).
  rewrite !quot_quot_pow2, (Z.add_comm (actCol o)) by lia.
  destruct Hmt as [Hm|Hm]; rewrite Hm.
  - destruct (share_data a o Ho Hm) as (HD & Hsp & Hsh).
    rewrite wrap32_small by lia. destruct (Z.ltb_spec (2 ^ ways o) (2 ^ rowsPerSet o)); [done|].
    intros [= <- <-]. exists (ways o). rewrite (Z.add_comm (actRow o)) in *. repeat split; try done || lia.
    destruct (Z.le_gt_cases (rowsPerSet o) (ways o)); [done|]. pose proof (pow2_lt (ways o) (rowsPerSet o)). lia.
  - destruct (1 <? 2 ^ rowsPerSet o); [done|]. rewrite wrap32_small by lia. intros [= <- <- Hge].
    assert (Hne : Z.quot (2 ^ ways o) (2 ^ (actRow o + actCol o)) <> 0)
      by (destruct (Z.ltb_spec (Z.quot (2 ^ ways o) (2 ^ (actRow o + actCol o))) 1); [done|lia]).
    destruct (share_tag a o Ho Hne) as (Hw & -> & Hsh).
    pose proof (org_splits _ _ Ho) as Hsp. rewrite Hm in Hsp.
    exists (ways o - (actRow o + actCol o)). rewrite (Z.add_comm (actRow o)) in *. repeat split; try done || lia.
Qed.

Lemma holds_reject a (b : t F) : holds a (reject b).
Proof. intros Hf. discriminate Hf. Qed.

(** The rest of the initialisation, once the subarray holds its share. *)
Lemma Initialize_subarray_holds g a o (b : t F) k w :
  organised a o -> (BankArgs._memoryType a = data \/ BankArgs._memoryType a = tag) ->
  bank b = Bank.Initialize_members a k ->
  numAddressBitRouteToSubArray b = index o - (colSub o - actRow o) - (rowSub o - actCol o) ->
  numWay b = 2 ^ w -> 0 <= w <= ways o -> 0 <= numDataBitRouteToSubArray b < 2 ^ 31 ->
  splits (numDataBitRouteToSubArray b) (actMatRow o + actMatCol o) ->
  (Z.quot (numDataBitRouteToSubArray b) (2 ^ (actMatRow o + actMatCol o)) <> 0 ->
   2 ^ (actCol o + actRow o) * 2 ^ w * numDataBitRouteToSubArray b = 2 ^ ways o * BankArgs._blockSize a) ->
  match BankArgs._memoryType a with
  | data => numWay b = 2 ^ ways o /\ rowsPerSet o <= ways o
  | _ => True
  end ->
  yields (holds a) (Initialize_subarray g a b).
Proof.
  intros Ho Hmt Ek En Ew Hw HD Hsp Hsh Hn. destruct (org_nonneg _ _ Ho) as (? & ? & ? & ? & ? & ? & ?).
  destruct (org_int _ _ Ho) as (? & ? & ?).
  unfold Initialize_subarray. rewrite Ek.
  destruct (subarray_muxes_org g a o (numWay b) (Bank.Initialize_members a k) Ho eq_refl
    (org_mux1 _ _ Ho) (org_mux2 _ _ Ho) (org_mux3 _ _ Ho) (org_rows _ _ Ho) Hn)
    as (x1 & x2 & x3 & -> & ? & ? & ? & ? & Hx). cbv zeta.
  destruct (members_active a o k Ho) as (_ & _ & Hcar).
  set (b1 := b <| bank := _ |>). assert (Hcar1 : carries a (bank b1)) by (apply carries_muxes; exact Hcar).
  assert (E1 : numAddressBitRouteToSubArray b1 = numAddressBitRouteToSubArray b) by done.
  assert (E2 : numDataBitRouteToSubArray b1 = numDataBitRouteToSubArray b) by done.
  assert (E3 : numWay b1 = numWay b) by done. clearbody b1. rewrite E1, E2, E3, En, Ew.
  eapply (yields_bind (stores a)).
  { apply (bank_subarray_cells g a o); try done || lia.
    destruct Hmt as [Hm|Hm]; [by left|right]. split; [done|]. rewrite Hm in Hx. lia. }
  intros k2 Hc2. set (b2 := b1 <| bank := _ |>).
  change (stores a (bank b2)) in Hc2. unfold stores in Hc2.
  clearbody b2. destruct (SubArray.invalid (Bank.subarray (bank b2))); [apply holds_reject|].
  specialize (Hc2 eq_refl). eapply yields_bind; [apply subarray_area_dims|]. intros s3 Hs3.
  set (b3 := b2 <# Bank.subarray := _ #>).
  assert (Hc3 : bank_cells (bank b3) = layer_capacity a)
    by (rewrite <- Hc2; by apply cells_subarray).
  clearbody b3. destruct (SubArray.invalid _); [apply holds_reject|].
  destruct (negb _).
  - eapply yields_bind; [apply init_external_bank|]. intros b4 E4.
    destruct (SenseAmp.invalid _); [apply holds_reject|].
    eapply yields_weaken; [apply Initialize_end_cells|]. intros b5 E5 _.
    unfold keeps_bank, keeps_cells in *. by rewrite E5, E4.
  - eapply yields_weaken; [apply Initialize_end_cells|]. intros b5 E5 _. by rewrite E5.
Qed.

Lemma Initialize_holds g a o (b : t F) :
  organised a o -> (BankArgs._memoryType a = data \/ BankArgs._memoryType a = tag) ->
  yields (holds a) (Initialize g a b).
Proof.
  intros Ho Hmt. unfold Initialize. cbv zeta.
  set (b0 := if Bank.initialized (bank b) then _ else b). clearbody b0.
  destruct (_ && _); [intros Hf; discriminate Hf|]. destruct (_ && _); [apply holds_reject|].
  set (b1 := (b0 <| bank := _ |>) <| numWay := 1 |>).
  assert (Ek1 : bank b1 = Bank.Initialize_members a (bank b0)) by done. clearbody b1.
  set (b2 := b1 <| numAddressBit := _ |>).
  assert (Ek2 : bank b2 = Bank.Initialize_members a (bank b0)) by exact Ek1.
  assert (Ea : numAddressBit b2 = index o)
    by (change (Bank.address_bits (bank b1) = index o); rewrite Ek1; by apply address_bits_org).
  clearbody b2. destruct (members_active a o (bank b0) Ho) as (Ac & Ar & _).
  destruct (org_active _ _ Ho) as [? ?]. destruct (org_int _ _ Ho) as (? & ? & ?).
  assert (Eg : int_log2 (of_Z (F := F) (idle_subarrays (bank b2))) = rowSub o + colSub o - actCol o - actRow o).
  { unfold idle_subarrays. rewrite Ek2, Ac, Ar.
    change (Bank.numRowSubArray (Bank.Initialize_members a (bank b0))) with (BankArgs._numRowSubArray a).
    change (Bank.numColumnSubArray (Bank.Initialize_members a (bank b0))) with (BankArgs._numColumnSubArray a).
    rewrite (org_rowSub _ _ Ho), (org_colSub _ _ Ho), gating_pow2, int_log2_pow2; lia. }
  rewrite Eg, Ea. set (b3 := (b2 <| numAddressBitRouteToSubArray := _ |>) <| numDataBitRouteToSubArray := _ |>).
  assert (Ek3 : bank b3 = Bank.Initialize_members a (bank b0)) by exact Ek2.
  assert (En3 : numAddressBitRouteToSubArray b3 = index o - (colSub o - actRow o) - (rowSub o - actCol o))
    by (cbn; lia).
  clearbody b3. rewrite Ek3. destruct (bits_and_ways _) as [[bits n] legal] eqn:Eb.
  destruct legal; [|apply holds_reject]. cbn [negb].
  destruct (bits_and_ways_org a o (bank b0) bits n Ho Hmt Eb) as (w & Ew & Hw & HD & Hsp & Hsh & Hn).
  eapply (Initialize_subarray_holds g a o _ (bank b0) w); done.
Qed.

(** *** The phases of a flat bank *)

Lemma external_area_bank g w h (b : t F) : yields (fun p => bank (fst p) = bank b) (external_area g w h b).
Proof.
  unfold external_area. cbv zeta. do 2 (apply yields_any; intros ?).
  destruct (bool_decide _); [apply yields_any; intros c|]; done.
Qed.

Lemma CalculateArea_holds g a (b : t F) : holds a b -> yields (holds a) (CalculateArea g b).
Proof.
  intros Hb. unfold CalculateArea. destruct (negb _); [done|]. destruct (Bank.invalid (bank b)) eqn:Ei.
  { intros Hf. change (Bank.invalid (bank b) = false) in Hf. congruence. }
  specialize (Hb Ei). destruct (Bank.wire_sharing (Globals.globalWire g)) as [sharing pitch]. cbv zeta.
  eapply (yields_bind (fun p => bank (fst p) = bank b)); [destruct (negb _); [apply external_area_bank|done]|].
  intros [b1 height] Ep. cbn [fst] in Ep.
  set (b2 := b1 <# Bank.fu := _ #>).
  assert (E2 : bank_cells (bank b2) = layer_capacity a) by (rewrite <- Hb, <- Ep; done). clearbody b2.
  destruct (Bank.aspect_ratio_illegal g (bank b2)); [intros Hf; discriminate Hf|].
  set (b3 := b2 <# Bank.fu := _ #>).
  assert (E3 : bank_cells (bank b3) = layer_capacity a) by exact E2. clearbody b3.
  eapply yields_bind; [apply cells_add_tsv_area|]. intros k [Ek _] _. by transitivity (bank_cells (bank b3)).
Qed.

Lemma CalculateRC_holds g a (b : t F) : holds a b -> yields (holds a) (CalculateRC g b).
Proof.
  intros Hb. unfold CalculateRC. destruct (negb (Bank.initialized _)); [done|].
  destruct (Bank.invalid (bank b)) eqn:E; [done|]. specialize (Hb E).
  eapply yields_bind; [apply subarray_rc_dims|]. intros s1 Hs1. cbv zeta.
  set (b1 := b <# Bank.subarray := _ #>).
  assert (E1 : bank_cells (bank b1) = layer_capacity a) by (rewrite <- Hb; by apply cells_subarray).
  clearbody b1. destruct (negb _); [|by intros _]. do 2 (apply yields_any; intros ?).
  destruct (bool_decide _); [apply yields_any; intros c|]; by intros _.
Qed.

(** The routing loop works on the metrics, the global multiplexer and the
    global sense amplifiers only. *)
Lemma route_sram_bank g i r1 r2 c1 c2 (b : t F) u :
  yields (fun p => bank (fst p) = bank b) (route_sram g i r1 r2 c1 c2 b u).
Proof.
  unfold route_sram. cbv zeta. eapply (yields_bind (fun p => bank (fst p) = bank b)); [|by intros [b1 u1]].
  destruct (i =? 0); [|done]. by do 2 (apply yields_any; intros ?).
Qed.

Lemma route_row_bank g (b0 : t F) s i : bank (fst (fst s)) = bank b0 ->
  yields (fun p => bank (fst (fst p)) = bank b0) (route_row (F := F) g s i).
Proof.
  destruct s as [[b u] len]. cbn [fst]. intros E. unfold route_row. cbv zeta.
  destruct (Bank.internalSenseAmp (bank b)); [by apply yields_any|].
  destruct (bool_decide _); [|by destruct (IsResistiveMemory _)].
  eapply yields_bind; [apply route_sram_bank|]. intros [b1 u1] E1. cbn [fst yields] in *. congruence.
Qed.

Lemma external_metrics_bank g (b : t F) u :
  yields (fun p => bank (fst p) = bank b) (external_metrics g b u).
Proof.
  unfold external_metrics. cbv zeta. do 4 (apply yields_any; intros ?).
  destruct (bool_decide _); [do 2 (apply yields_any; intros ?)|]; done.
Qed.

Lemma routing_metrics_cells g (b : t F) : yields (keeps_cells b) (routing_metrics g b).
Proof.
  unfold routing_metrics. cbv zeta.
  eapply yields_bind.
  { apply (yields_fold (fun p => bank (fst (fst p)) = bank b)); [|done].
    intros s i E. by apply route_row_bank. }
  intros [[b1 u1] len1] E1. cbn [fst] in E1.
  eapply (yields_bind (fun p => bank (fst p) = bank b)).
  { destruct (negb _); [|exact E1]. eapply yields_weaken; [apply external_metrics_bank|]. intros p ->. done. }
  intros [b2 u2] E2. cbn [fst] in E2. unfold yields, keeps_cells. rewrite <- E2. reflexivity.
Qed.

Lemma cells_flat_tsv (k : Bank.t F) : same_cells k (Bank.tsv_energy (add_tsv_latency k)).
Proof. done. Qed.

Lemma finish_metrics_holds g a (b : t F) : holds a b -> yields (holds a) (finish_metrics g b).
Proof.
  intros Hb. unfold finish_metrics. cbv zeta. set (k := Bank.routing_shares _).
  assert (Ek : bank_cells k = bank_cells (bank b)) by reflexivity.
  assert (Vk : Bank.invalid k = Bank.invalid (bank b)) by reflexivity. clearbody k.
  eapply (yields_bind (same_cells k)).
  { destruct (_ && _); [|done]. eapply yields_bind; [apply cells_tsv_latency_power|].
    intros k1 (E1 & E2 & E3). destruct (cells_flat_tsv k1) as (F1 & F2 & F3).
    repeat split; congruence. }
  intros k2 (E2 & V2 & _). change (Bank.invalid (Bank.check_retention g k2) = false ->
    bank_cells (Bank.check_retention g k2) = layer_capacity a).
  intros Hv%valid_check_retention. rewrite cells_check_retention, E2, Ek. apply Hb. congruence.
Qed.

Lemma CalculateLatencyAndPower_holds g a (b : t F) :
  holds a b -> yields (holds a) (CalculateLatencyAndPower g b).
Proof.
  intros Hb. unfold CalculateLatencyAndPower. destruct (negb _); [by apply finish_metrics_holds|].
  destruct (Bank.invalid (bank b)) eqn:E.
  { apply finish_metrics_holds. intros Hf. change (Bank.invalid (bank b) = false) in Hf. congruence. }
  specialize (Hb E). eapply yields_bind; [apply subarray_latency_dims|]. intros s1 Hs1. cbv zeta.
  set (b1 := b <# Bank.subarray := _ #>).
  assert (E1 : bank_cells (bank b1) = layer_capacity a) by (rewrite <- Hb; by apply cells_subarray).
  clearbody b1. destruct (SubArray.invalid _); [intros Hf; discriminate Hf|].
  eapply yields_bind; [apply subarray_power_dims|]. intros s2 Hs2.
  destruct (SubArray.invalid _); [intros Hf; discriminate Hf|].
  set (b2 := b1 <# Bank.subarray := _ #>).
  assert (E2 : bank_cells (bank b2) = layer_capacity a) by (rewrite <- E1; by apply cells_subarray).
  clearbody b2. eapply yields_bind; [apply routing_metrics_cells|]. intros b3 E3.
  apply finish_metrics_holds. intros _. unfold keeps_cells in E3. congruence.
Qed.

End Flat.

End Geometry.
End Geometry.
