(* ===== verification/Result.v ===== *)
(** * Results

    Result.h/.cpp: the best design found so far for one optimisation target,
    the comparison that replaces it, the bandwidths, and the cache level
    metrics and gem5 parameters that are derived from a data and a tag result. *)
From S2P Require Import Prelude Numeric Types InputParameter Circuit SubArray Bank.
From stdpp Require Import base list.
From Stdlib Require Import ZArith Lia.
Open Scope Z_scope.

Module Result.

(** [bank] is the [Bank] part of the bank the result owns: assignments through
    [Bank *] change nothing else of it. *)
Record t (F : Type) : Type := mk {
  optimizationTarget : OptimizationTarget;
  bank : Bank.t F;
  localWire : Wire.t F;
  globalWire : Wire.t F;
  limitReadLatency : F;
  limitWriteLatency : F;
  limitReadDynamicEnergy : F;
  limitWriteDynamicEnergy : F;
  limitReadEdp : F;
  limitWriteEdp : F;
  limitReadBandwidth : F;
  limitWriteBandwidth : F;
  limitArea : F;
  limitLeakage : F;
  cellTech : option (MemCell.t F)
}.
Arguments mk {_} _ _ _ _ _ _ _ _ _ _ _ _ _ _ _.
Arguments optimizationTarget {_} _.
Arguments bank {_} _.
Arguments localWire {_} _.
Arguments globalWire {_} _.
Arguments limitReadLatency {_} _.
Arguments limitWriteLatency {_} _.
Arguments limitReadDynamicEnergy {_} _.
Arguments limitWriteDynamicEnergy {_} _.
Arguments limitReadEdp {_} _.
Arguments limitWriteEdp {_} _.
Arguments limitReadBandwidth {_} _.
Arguments limitWriteBandwidth {_} _.
Arguments limitArea {_} _.
Arguments limitLeakage {_} _.
Arguments cellTech {_} _.
#[global] Instance eta {F : Type} : RecordEta (t F) := fun x =>
  mk (optimizationTarget x) (bank x) (localWire x) (globalWire x) (limitReadLatency x)
    (limitWriteLatency x) (limitReadDynamicEnergy x) (limitWriteDynamicEnergy x) (limitReadEdp x)
    (limitWriteEdp x) (limitReadBandwidth x) (limitWriteBandwidth x) (limitArea x)
    (limitLeakage x) (cellTech x).

(** The metrics of the bank. *)
Definition metric {F} (p : FunctionUnit.t F -> F) (r : t F) : F := p (Bank.fu (bank r)).

Section Operations.
Context {F : Type} `{Num F}.

(** The worst case every metric starts from, in [Result::Result] and [Result::reset]. *)
Definition worst (b : Bank.t F) : Bank.t F :=
  b <| Bank.fu := (Bank.fu b)
    <| FunctionUnit.readLatency := invalid_value |>
    <| FunctionUnit.writeLatency := invalid_value |>
    <| FunctionUnit.readDynamicEnergy := invalid_value |>
    <| FunctionUnit.writeDynamicEnergy := invalid_value |>
    <| FunctionUnit.leakage := invalid_value |>
    <| FunctionUnit.height := invalid_value |>
    <| FunctionUnit.width := invalid_value |>
    <| FunctionUnit.area := invalid_value |> |>.

(** Result::Result; [rawBank] and [rawWire] are what the memory of the new
    objects held, [cell] the global cell. *)
Definition Result (rawBank : Bank.t F) (rawLocal rawGlobal : Wire.t F) (cell : MemCell.t F) : t F := {|
  optimizationTarget := read_latency_optimized;
  bank := worst (Bank.Bank rawBank);
  localWire := rawLocal;
  globalWire := rawGlobal;
  limitReadLatency := invalid_value;
  limitWriteLatency := invalid_value;
  limitReadDynamicEnergy := invalid_value;
  limitWriteDynamicEnergy := invalid_value;
  limitReadEdp := invalid_value;
  limitWriteEdp := invalid_value;
  limitReadBandwidth := invalid_value_min;
  limitWriteBandwidth := invalid_value_min;
  limitArea := invalid_value;
  limitLeakage := invalid_value;
  cellTech := Some cell
|}.

(** Result::reset *)
Definition reset (r : t F) : t F := r <| bank := worst (bank r) |>.

(** The guards both bandwidths share: [!isfinite(x) || x >= invalid_value / 10]. *)
Definition unusable (x : F) : bool := negb (nfinite x) || (x >=? invalid_value / #10)%num.

(** The time between two reads of a mat. *)
Definition readCycleLatency (c : MemCell.t F) (m : Mat.t F) : F :=
  match MemCell.memCellType c with
  | DRAM | eDRAM => Mat.dramReadCycleLatency m
  | gcDRAM => (FunctionUnit.readLatency (Mat.fu m) - Mat.gcRowDecoderReadLatency m
               + Mat.prechargerReadLatency m)%num
  | _ => (FunctionUnit.readLatency (Mat.fu m) - Mat.rowDecoderReadLatency m
          + Mat.prechargerReadLatency m)%num
  end.

(** Bytes per second of a bank that moves a block per cycle. *)
Definition bandwidth (b : Bank.t F) (cycle : F) : F :=
  if negb (nfinite cycle) || (cycle <=? #0)%num || (cycle >=? invalid_value / #10)%num then of_Z 0
  else (#(Bank.blockSize b) / cycle / #8)%num.

(** Result::getReadBandwidth *)
Definition getReadBandwidth (r : t F) : F :=
  match cellTech r with
  | None => of_Z 0
  | Some c =>
      if unusable (metric FunctionUnit.readLatency r) || (Bank.blockSize (bank r) <=? 0) then of_Z 0
      else bandwidth (bank r) (readCycleLatency c (SubArray.mat (Bank.subarray (bank r))))
  end.

(** Result::getWriteBandwidth *)
Definition getWriteBandwidth (r : t F) : F :=
  match cellTech r with
  | None => of_Z 0
  | Some c =>
      if unusable (metric FunctionUnit.writeLatency r) || (Bank.blockSize (bank r) <=? 0) then of_Z 0
      else bandwidth (bank r) (FunctionUnit.writeLatency (Mat.fu (SubArray.mat (Bank.subarray (bank r)))))
  end.

Definition readEdp (r : t F) : F :=
  (metric FunctionUnit.readLatency r * metric FunctionUnit.readDynamicEnergy r)%num.
Definition writeEdp (r : t F) : F :=
  (metric FunctionUnit.writeLatency r * metric FunctionUnit.writeDynamicEnergy r)%num.

(** The ten constraints of [compareAndUpdate]. *)
Definition within_limits (r new : t F) : bool :=
  ((metric FunctionUnit.readLatency new <=? limitReadLatency r)
   && (metric FunctionUnit.writeLatency new <=? limitWriteLatency r)
   && (metric FunctionUnit.readDynamicEnergy new <=? limitReadDynamicEnergy r)
   && (metric FunctionUnit.writeDynamicEnergy new <=? limitWriteDynamicEnergy r)
   && (readEdp new <=? limitReadEdp r)
   && (writeEdp new <=? limitWriteEdp r)
   && (getReadBandwidth new >=? limitReadBandwidth r)
   && (getWriteBandwidth new >=? limitWriteBandwidth r)
   && (metric FunctionUnit.area new <=? limitArea r)
   && (metric FunctionUnit.leakage new <=? limitLeakage r))%num.

(** The [switch] of [compareAndUpdate]: is [new] better than [old] for the target? *)
Definition better (target : OptimizationTarget) (new old : t F) : bool :=
  let less p := (metric p new <? metric p old)%num in
  match target with
  | read_latency_optimized => less FunctionUnit.readLatency
  | write_latency_optimized => less FunctionUnit.writeLatency
  | read_energy_optimized => less FunctionUnit.readDynamicEnergy
  | write_energy_optimized => less FunctionUnit.writeDynamicEnergy
  | read_edp_optimized => (readEdp new <? readEdp old)%num
  | write_edp_optimized => (writeEdp new <? writeEdp old)%num
  | read_bandwidth_optimized => (getReadBandwidth new >? getReadBandwidth old)%num
  | write_bandwidth_optimized => (getWriteBandwidth new >? getWriteBandwidth old)%num
  | area_optimized => less FunctionUnit.area
  | leakage_optimized => less FunctionUnit.leakage
  | full_exploration => false
  end.

(** [*bank = *(newResult.bank); *localWire = ...; cellTech = newResult.cellTech;] *)
Definition take (r new : t F) : t F :=
  r <| bank := Bank.assign (bank r) (bank new) |> <| localWire := localWire new |>
    <| globalWire := globalWire new |> <| cellTech := cellTech new |>.

(** Result::compareAndUpdate; the second component is the returned flag. *)
Definition compareAndUpdate (r new : t F) : t F * bool :=
  if within_limits r new && better (optimizationTarget r) new r then (take r new, true) else (r, false).

(** *** Result::printAsCache: the metrics of a cache *)

Record Cache : Type := mkCache {
  cacheHitLatency : F; cacheMissLatency : F; cacheWriteLatency : F;
  cacheHitDynamicEnergy : F; cacheMissDynamicEnergy : F; cacheWriteDynamicEnergy : F;
  cacheLeakage : F; cacheArea : F
}.

(** The data result is [r], the tag result [tagResult]. *)
Definition cacheMetrics (mode : CacheAccessMode) (r tagResult : t F) : Cache :=
  let tagReadLatency := metric FunctionUnit.readLatency tagResult in
  let dataReadLatency := metric FunctionUnit.readLatency r in
  let subarrayLatency := FunctionUnit.readLatency (SubArray.fu (Bank.subarray (bank r))) in
  let readEnergy := (metric FunctionUnit.readDynamicEnergy tagResult + metric FunctionUnit.readDynamicEnergy r)%num in
  {| cacheHitLatency :=
       match mode with
       | normal_access_mode =>
           (MAX tagReadLatency subarrayLatency
            + Mat.columnDecoderLatency (SubArray.mat (Bank.subarray (bank r)))
            + (dataReadLatency - subarrayLatency))%num
       | fast_access_mode => MAX tagReadLatency dataReadLatency
       | sequential_access_mode => (tagReadLatency + dataReadLatency)%num
       end;
     cacheMissLatency := tagReadLatency;
     cacheWriteLatency := MAX (metric FunctionUnit.writeLatency tagResult) (metric FunctionUnit.writeLatency r);
     cacheHitDynamicEnergy := readEnergy;
     cacheMissDynamicEnergy :=
       match mode with
       | sequential_access_mode => metric FunctionUnit.readDynamicEnergy tagResult
       | _ => readEnergy
       end;
     cacheWriteDynamicEnergy :=
       (metric FunctionUnit.writeDynamicEnergy tagResult + metric FunctionUnit.writeDynamicEnergy r)%num;
     cacheLeakage := (metric FunctionUnit.leakage tagResult + metric FunctionUnit.leakage r)%num;
     cacheArea := (metric FunctionUnit.area tagResult + metric FunctionUnit.area r)%num |}.

(** *** Result::printAsCache: the parameters of a gem5 run *)

Definition uint64_max : Z := 2 ^ 64 - 1.

(** The lambda [cycles]: seconds to clock cycles, saturating. *)
Definition cycles (clockFreq seconds : F) : Z :=
  let roundedCycles := nceil (seconds * clockFreq)%num in
  if negb (nfinite roundedCycles) || (roundedCycles <=? #0)%num then 0
  else if (roundedCycles >=? #uint64_max)%num then uint64_max
  else trunc roundedCycles.

Record Gem5 : Type := mkGem5 {
  l2_assoc : Z; cacheline_size : Z; l2_size : Z;
  l2_data_hit_latency : Z; l2_data_miss_latency : Z; l2_data_write_latency : Z;
  l2_refresh_period : Z; l2_refresh_latency : Z; l2_refresh_enabled : bool;
  data_read_latency : Z; data_write_latency : Z; tag_read_latency : Z; tag_write_latency : Z;
  serial_latency : Z
}.

(** The extra cycles between the tag and the data access. *)
Definition serialLatency (clockFreq : F) (mode : CacheAccessMode) (r tagResult : t F) : Z :=
  let sub := FunctionUnit.readLatency (SubArray.fu (Bank.subarray (bank r))) in
  let half := (metric FunctionUnit.readLatency r / #2)%num in
  match mode with
  | normal_access_mode =>
      let tagCyc := cycles clockFreq (metric FunctionUnit.readLatency tagResult + (half - sub))%num in
      let dataCyc := cycles clockFreq (half + sub)%num in
      if dataCyc <? (tagCyc + 1) mod 2 ^ 64 then ((tagCyc + 1) mod 2 ^ 64 - dataCyc) mod 2 ^ 64 else 0
  | sequential_access_mode => (cycles clockFreq (metric FunctionUnit.readLatency tagResult) + 1) mod 2 ^ 64
  | fast_access_mode => 0
  end.

Definition gem5Parameters (ip : InputParameter.t F) (c : MemCell.t F) (mode : CacheAccessMode)
  (r tagResult : t F) : Gem5 :=
  let m := cacheMetrics mode r tagResult in
  let cyc := cycles (InputParameter.clockFreq ip) in
  let refreshEnabled := IsRefreshMemory (MemCell.memCellType c) in
  let refreshGroupCount :=
    ((Bank.numRowMat (bank r)) mod 2 ^ 64
     * ((if InputParameter.monolithic3DMat ip
         then Mat.stackedMemTiers (SubArray.mat (Bank.subarray (bank r))) else 1) mod 2 ^ 64)) mod 2 ^ 64 in
  let sub x := SubArray.fu (Bank.subarray (bank x)) in
  {| l2_assoc := InputParameter.associativity ip;
     cacheline_size := InputParameter.wordWidth ip;
     l2_size := Z.quot (Z.quot (Z.quot (Bank.capacity (bank r)) 1024) 1024) 8;
     l2_data_hit_latency := cyc (cacheHitLatency m);
     l2_data_miss_latency := cyc (cacheMissLatency m);
     l2_data_write_latency := cyc (cacheWriteLatency m);
     l2_refresh_period :=
       if refreshEnabled then cyc (MemCell.retentionTime c / #refreshGroupCount)%num else uint64_max;
     l2_refresh_latency := if refreshEnabled then cyc (metric FunctionUnit.refreshLatency r) else 0;
     l2_refresh_enabled := refreshEnabled;
     data_read_latency := cyc (FunctionUnit.readLatency (sub r));
     data_write_latency := cyc (FunctionUnit.writeLatency (sub r));
     tag_read_latency := cyc (FunctionUnit.readLatency (sub tagResult));
     tag_write_latency := cyc (FunctionUnit.writeLatency (sub tagResult));
     serial_latency := serialLatency (InputParameter.clockFreq ip) mode r tagResult |}.

End Operations.

(** ** The comparison keeps the best candidate *)

Section Optimality.
Context {F : Type} {NumF : Num F} {Ord : NumOrder F}.

(** Everything the comparison looks at is copied by an update. *)
Definition same_scores (x y : t F) : Prop :=
  metric FunctionUnit.readLatency x = metric FunctionUnit.readLatency y /\
  metric FunctionUnit.writeLatency x = metric FunctionUnit.writeLatency y /\
  metric FunctionUnit.readDynamicEnergy x = metric FunctionUnit.readDynamicEnergy y /\
  metric FunctionUnit.writeDynamicEnergy x = metric FunctionUnit.writeDynamicEnergy y /\
  metric FunctionUnit.area x = metric FunctionUnit.area y /\
  metric FunctionUnit.leakage x = metric FunctionUnit.leakage y /\
  getReadBandwidth x = getReadBandwidth y /\ getWriteBandwidth x = getWriteBandwidth y.

Lemma take_scores (r new : t F) : same_scores (take r new) new.
Proof. repeat split. Qed.

Lemma better_scores target (x x' y y' : t F) : same_scores x x' -> same_scores y y' ->
  better target x y = better target x' y'.
Proof.
  intros (E1 & E2 & E3 & E4 & E5 & E6 & E7 & E8) (G1 & G2 & G3 & G4 & G5 & G6 & G7 & G8).
  unfold better, readEdp, writeEdp. cbv zeta beta.
  rewrite E1, E2, E3, E4, E5, E6, E7, E8, G1, G2, G3, G4, G5, G6, G7, G8. reflexivity.
Qed.

Lemma same_scores_refl (x : t F) : same_scores x x.
Proof. repeat split. Qed.

Lemma better_irrefl target (x : t F) : better target x x = false.
Proof. destruct target; try done; apply nltb_irrefl. Qed.

Lemma better_trans target (x y z : t F) :
  better target x y = true -> better target y z = true -> better target x z = true.
Proof. destruct target; unfold better; try done; eauto using nltb_trans. Qed.

(** The fold of the explorer over its candidates. *)
Definition explore_best (l : list (t F)) (r : t F) : t F :=
  foldl (fun r new => fst (compareAndUpdate r new)) r l.

Lemma explore_best_cons n l r : explore_best (n :: l) r = explore_best l (fst (compareAndUpdate r n)).
Proof. reflexivity. Qed.

Lemma compareAndUpdate_frame (r new : t F) :
  optimizationTarget (fst (compareAndUpdate r new)) = optimizationTarget r /\
  (forall x, within_limits (fst (compareAndUpdate r new)) x = within_limits r x).
Proof. unfold compareAndUpdate. destruct (_ && _); done. Qed.

Lemma explore_best_frame l : forall r, optimizationTarget (explore_best l r) = optimizationTarget r /\
  (forall x, within_limits (explore_best l r) x = within_limits r x).
Proof.
  induction l as [|n l IH]; intros r; [done|]. rewrite explore_best_cons. destruct (IH (fst (compareAndUpdate r n))) as [E1 E2].
  destruct (compareAndUpdate_frame r n) as [F1 F2]. split; [congruence|]. intros x. by rewrite E2, F2.
Qed.

(** The result of the fold is the start or a candidate within the limits that
    improves on it. *)
Lemma explore_best_origin l : forall r,
  same_scores (explore_best l r) r \/
  (better (optimizationTarget r) (explore_best l r) r = true /\
   exists n, In n l /\ within_limits r n = true /\ same_scores (explore_best l r) n).
Proof.
  induction l as [|n l IH]; intros r; [left; apply same_scores_refl|]. rewrite explore_best_cons.
  destruct (compareAndUpdate_frame r n) as [F1 F2]. specialize (IH (fst (compareAndUpdate r n))).
  rewrite F1 in IH. unfold compareAndUpdate in *.
  destruct (within_limits r n) eqn:Hl; cbn [andb fst] in *.
  2: { destruct IH as [E|(B & x & Hx & Hw & Hs)]; [by left|right]. split; [done|]. exists x. by split; [right|]. }
  destruct (better (optimizationTarget r) n r) eqn:Hb; cbn [fst] in *.
  - pose proof (take_scores r n) as Ht. right.
    destruct IH as [E|(B & x & Hx & Hw & Hs)].
    + split.
      * rewrite <- Hb. apply better_scores; [|apply same_scores_refl].
        unfold same_scores in *; intuition congruence.
      * exists n. split; [by left|]. split; [done|]. unfold same_scores in *; intuition congruence.
    + split.
      * eapply better_trans; [exact B|]. rewrite <- Hb. apply better_scores; [done|apply same_scores_refl].
      * exists x. split; [by right|]. split; [exact Hw|done].
  - destruct IH as [E|(B & x & Hx & Hw & Hs)]; [by left|right]. split; [done|]. exists x. by split; [right|].
Qed.

Lemma within_scores (r x y : t F) : same_scores x y -> within_limits r x = within_limits r y.
Proof.
  intros (E1 & E2 & E3 & E4 & E5 & E6 & E7 & E8). unfold within_limits, readEdp, writeEdp.
  by rewrite E1, E2, E3, E4, E5, E6, E7, E8.
Qed.

(** [r'] has the target and limits of [r], and is [r] or better. *)
Definition no_worse (r r' : t F) : Prop :=
  optimizationTarget r' = optimizationTarget r /\
  (forall x, within_limits r' x = within_limits r x) /\
  (same_scores r' r \/ better (optimizationTarget r) r' r = true).

Lemma no_worse_refl r : no_worse r r.
Proof. split; [done|]. split; [done|]. left. apply same_scores_refl. Qed.

Lemma same_scores_trans (x y z : t F) : same_scores x y -> same_scores y z -> same_scores x z.
Proof. unfold same_scores. intuition congruence. Qed.

Lemma no_worse_trans r1 r2 r3 : no_worse r1 r2 -> no_worse r2 r3 -> no_worse r1 r3.
Proof.
  intros (T1 & W1 & S1) (T2 & W2 & S2). split; [congruence|]. split; [intros x; by rewrite W2, W1|].
  rewrite T1 in S2. destruct S1 as [S1|S1], S2 as [S2|S2].
  - left. by eapply same_scores_trans.
  - right. rewrite <- S2. apply better_scores; [apply same_scores_refl|].
    unfold same_scores in *; intuition congruence.
  - right. rewrite <- S1. apply better_scores; [done|apply same_scores_refl].
  - right. by eapply better_trans.
Qed.

#[global] Instance no_worse_preorder : PreOrder no_worse.
Proof. split; [exact no_worse_refl|exact no_worse_trans]. Qed.

Lemma compareAndUpdate_no_worse r new : no_worse r (fst (compareAndUpdate r new)).
Proof.
  destruct (compareAndUpdate_frame r new) as [E1 E2]. split; [done|]. split; [done|].
  unfold compareAndUpdate. destruct (within_limits r new); cbn [andb fst]; [|left; apply same_scores_refl].
  destruct (better _ new r) eqn:Hb; cbn [fst]; [right|left; apply same_scores_refl].
  rewrite <- Hb. apply better_scores; [apply take_scores|apply same_scores_refl].
Qed.

(** No candidate within the limits is better than the result of the fold. *)
Lemma explore_best_optimal l : forall r n, In n l -> within_limits r n = true ->
  better (optimizationTarget r) n (explore_best l r) = false.
Proof.
  induction l as [|m l IH]; intros r n Hin Hw; [done|]. destruct Hin as [->|Hin].
  - rewrite explore_best_cons. set (r1 := fst (compareAndUpdate r n)).
    assert (Hn : better (optimizationTarget r) n r1 = false).
    { subst r1. unfold compareAndUpdate. rewrite Hw. cbn [andb].
      destruct (better (optimizationTarget r) n r) eqn:Hb; [|done]. cbn [fst].
      rewrite (better_scores _ n n _ n); [apply better_irrefl|apply same_scores_refl|apply take_scores]. }
    destruct (compareAndUpdate_frame r n) as [F1 _]. fold r1 in F1.
    destruct (explore_best_origin l r1) as [E|[B _]].
    + rewrite <- Hn. apply better_scores; [apply same_scores_refl|done].
    + destruct (better _ n (explore_best l r1)) eqn:Hc; [|done]. rewrite F1 in B.
      rewrite (better_trans _ _ _ _ Hc B) in Hn. done.
  - rewrite explore_best_cons. destruct (compareAndUpdate_frame r m) as [F1 F2].
    rewrite <- F1. apply IH; [done|]. by rewrite F2.
Qed.

End Optimality.
End Result.
