(* ===== verification/Explore.v ===== *)
(** * The exploration

    main.cpp ([nvsim], [applyConstraint] and the merge over cell technologies in
    [main]) with the macros of macros.h it is written in.  A run is a fold over
    the points of [BIGFOR]; [Exit] is [exit(-1)], of the explorer or of a circuit
    it calls. *)
From S2P Require Import Scanf ConfigParser.
From S2P Require Import Prelude Numeric Types InputParameter Search Circuit SubArray Bank.
From S2P Require Import BankWithHtree BankWithoutHtree Result.
From stdpp Require Import base list strings.
From Stdlib Require Import ZArith Lia.
Open Scope Z_scope.

Module Explore.

(** What the memory of a freshly allocated bank or wire holds. *)
Record Memory (F : Type) : Type := mkMemory {
  rawTree : BankWithHtree.t F;
  rawFlat : BankWithoutHtree.t F;
  rawLocalWire : Wire.t F;
  rawGlobalWire : Wire.t F
}.
Arguments mkMemory {_} _ _ _ _.
Arguments rawTree {_} _.
Arguments rawFlat {_} _.
Arguments rawLocalWire {_} _.
Arguments rawGlobalWire {_} _.

(** The local variables of [nvsim] that the search updates. *)
Record State (F : Type) : Type := mkState {
  globals : Globals.t F;
  numSolution : Z;
  numDesigns : Z;
  best : list (Result.t F)
}.
Arguments mkState {_} _ _ _ _.
Arguments globals {_} _.
Arguments numSolution {_} _.
Arguments numDesigns {_} _.
Arguments best {_} _.
#[global] Instance eta_State {F : Type} : RecordEta (State F) := fun x =>
  mkState (globals x) (numSolution x) (numDesigns x) (best x).

Definition undefined_behaviour : string := "undefined behaviour".
Definition capacity_violation : string := "ERROR: DATA capacity violation. Shouldn't happen".

(** formula.cpp: [isPow2] *)
Definition isPow2 (n : Z) : bool := if n <? 1 then false else Z.land n (n - 1) =? 0.

Section Operations.
Context {F : Type} `{Num F} `{CircuitOps F}.
Context (mem : Memory F).

(** main.cpp: [applyConstraint]; it may drop the associativity. *)
Definition applyConstraint (g : Globals.t F) : Outcome (Globals.t F) :=
  let ip := Globals.inputParameter g in
  if bool_decide (InputParameter.designTarget ip = CAM_chip)
  then Exit "[ERROR] CAM model is still under development"
  else if bool_decide (MemCell.memCellType (Globals.cell g) = MLCNAND)
  then Exit "[ERROR] MLC NAND flash model is still under development"
  else
    let ip := if negb (bool_decide (InputParameter.designTarget ip = cache))
                 && (1 <? InputParameter.associativity ip)
              then ip <| InputParameter.associativity := 1 |> else ip in
    (* a warning is printed unless [isPow2 (associativity ip)] *)
    if bool_decide (InputParameter.routingMode ip = h_tree) && negb (InputParameter.internalSensing ip)
    then Exit "[ERROR] H-tree does not support external sensing scheme in this version"
    else Ret (g <| Globals.inputParameter := ip |>).

(** macros.h: [INITIAL_BASIC_WIRE] *)
Definition INITIAL_BASIC_WIRE (g : Globals.t F) : Outcome (Globals.t F) :=
  let ip := Globals.inputParameter g in
  let '(lt, lr, ls) := basic_local_wire ip in
  let '(gt, gr, gs) := basic_global_wire ip in
  let node := InputParameter.processNode ip in
  let temp := InputParameter.temperature ip in
  let? lw := Wire_Initialize node lt lr temp ls (Globals.localWire g) in
  let? gw := Wire_Initialize node gt gr temp gs (Globals.globalWire g) in
  Ret (g <| Globals.localWire := lw |> <| Globals.globalWire := gw |>).

(** The arguments of [Initialize] at a point of the search. *)
Definition design_args (ip : InputParameter.t F) (capacity blockSize associativity : Z)
  (mt : MemoryType) (d : Design.t) : BankArgs.t := {|
  BankArgs._numRowSubArray := Design.numRowSubArray d;
  BankArgs._numColumnSubArray := Design.numColumnSubArray d;
  BankArgs._capacity := capacity;
  BankArgs._blockSize := blockSize;
  BankArgs._associativity := associativity;
  BankArgs._numRowPerSet := Design.numRowPerSet d;
  BankArgs._numActiveSubArrayPerRow := Design.numActiveSubArrayPerRow d;
  BankArgs._numActiveSubArrayPerColumn := Design.numActiveSubArrayPerColumn d;
  BankArgs._muxSenseAmp := Design.muxSenseAmp d;
  BankArgs._internalSenseAmp := InputParameter.internalSensing ip;
  BankArgs._muxOutputLev1 := Design.muxOutputLev1 d;
  BankArgs._muxOutputLev2 := Design.muxOutputLev2 d;
  BankArgs._numRowMat := Design.numRowMat d;
  BankArgs._numColumnMat := Design.numColumnMat d;
  BankArgs._numActiveMatPerRow := Design.numActiveMatPerRow d;
  BankArgs._numActiveMatPerColumn := Design.numActiveMatPerColumn d;
  BankArgs._areaOptimizationLevel := BufferDesignTarget_of_Z (Design.areaOptimizationLevel d);
  BankArgs._memoryType := mt;
  BankArgs._stackedDieCount := Design.stackedDieCount d;
  BankArgs._partitionGranularity := InputParameter.partitionGranularity ip;
  BankArgs._monolithicStackCount := InputParameter.monolithicStackCount ip
|}.

(** macros.h: [CALCULATE], a fresh bank of the routing mode through its four phases. *)
Definition CALCULATE (g : Globals.t F) (a : BankArgs.t) : Init (Bank.t F) :=
  if bool_decide (InputParameter.routingMode (Globals.inputParameter g) = h_tree) then
    let! b := BankWithHtree.Initialize g a (BankWithHtree.BankWithHtree (rawTree mem)) in
    let! b := BankWithHtree.CalculateArea g b in
    let! b := BankWithHtree.CalculateRC g b in
    let! b := BankWithHtree.CalculateLatencyAndPower g b in
    Done (BankWithHtree.bank b)
  else circuit (
    let? b := BankWithoutHtree.Initialize g a (BankWithoutHtree.BankWithoutHtree (rawFlat mem)) in
    let? b := BankWithoutHtree.CalculateArea g b in
    let? b := BankWithoutHtree.CalculateRC g b in
    let? b := BankWithoutHtree.CalculateLatencyAndPower g b in
    Ret (BankWithoutHtree.bank b)).

(** What the program does with a bank that does not come back. *)
Definition built {A} (m : Init A) : Outcome A :=
  match m with
  | Done b => Ret b
  | Halt e => Exit e
  | _ => Exit undefined_behaviour
  end.

(** macros.h: [VERIFY_DATA_CAPACITY] and [VERIFY_TAG_CAPACITY]: does the product
    of the dimensions, in 64 bits, differ from the capacity? *)
Definition capacity_violated (capacity stackedDieCount : Z) (b : Bank.t F) : bool :=
  let m := SubArray.mat (Bank.subarray b) in
  let x := wrap64 (Mat.numColumn m * Mat.numRow m) in
  let x := wrap64 (x * Bank.numColumnSubArray b) in
  let x := wrap64 (x * Bank.numRowSubArray b) in
  let x := wrap64 (x * Bank.numColumnMat b) in
  let x := wrap64 (x * Bank.numRowMat b) in
  negb (wrap64 (x * stackedDieCount) =? capacity).

(** [Result tempResult;] *)
Definition fresh_result (g : Globals.t F) : Result.t F :=
  let raw := if bool_decide (InputParameter.routingMode (Globals.inputParameter g) = h_tree)
             then BankWithHtree.bank (rawTree mem) else BankWithoutHtree.bank (rawFlat mem) in
  Result.Result raw (rawLocalWire mem) (rawGlobalWire mem) (Globals.cell g).

(** [*(tempResult.bank) = *b; *(tempResult.localWire) = *localWire; ...] *)
Definition fill_temp (g : Globals.t F) (b : Bank.t F) (temp : Result.t F) : Result.t F :=
  temp <| Result.bank := Bank.assign (Result.bank temp) b |>
       <| Result.localWire := Globals.localWire g |> <| Result.globalWire := Globals.globalWire g |>.

(** macros.h: [UPDATE_BEST_DATA] and [UPDATE_BEST_TAG] *)
Definition UPDATE_BEST (temp : Result.t F) (rs : list (Result.t F)) : list (Result.t F) :=
  map (fun r => fst (Result.compareAndUpdate r temp)) rs.

(** [numActiveSubArrayPerRow * numActiveSubArrayPerColumn * numActiveMatPerRow *
    numActiveMatPerColumn], an [int]. *)
Definition active_product (d : Design.t) : Z :=
  wrap32 (wrap32 (wrap32 (Design.numActiveSubArrayPerRow d * Design.numActiveSubArrayPerColumn d)
                  * Design.numActiveMatPerRow d) * Design.numActiveMatPerColumn d).

(** The common end of a point: a valid bank is verified, counted and compared.
    [accept] is the extra condition of the constrained pass. *)
Definition visit (capacity : Z) (accept : Bank.t F -> bool) (a : BankArgs.t) (s : State F) : Outcome (State F) :=
  let? b := built (CALCULATE (globals s) a) in
  let s := s <| numDesigns := numDesigns s + 1 |> in
  if negb (Bank.invalid b) && accept b then
    if capacity_violated capacity (BankArgs._stackedDieCount a) b then Exit capacity_violation
    else
      let temp := fill_temp (globals s) b (fresh_result (globals s)) in
      Ret (s <| numSolution := numSolution s + 1 |> <| best := UPDATE_BEST temp (best s) |>)
  else Ret s.

(** A point of the data search (main.cpp, both data passes). *)
Definition visit_data (capacity blockSize associativity : Z) (accept : Bank.t F -> bool)
  (s : State F) (d : Design.t) : Outcome (State F) :=
  if active_product d =? 0 then Exit undefined_behaviour (* division by zero *)
  else if Z.quot blockSize (active_product d) =? 0 then Ret s
  else visit capacity accept
         (design_args (Globals.inputParameter (globals s)) capacity blockSize associativity data d) s.

(** constant.h *)
Definition TOTAL_ADDRESS_BIT : Z := 48.

(** The tag bits of a block: address without index and offset, plus valid and dirty. *)
Definition tag_bits (ip : InputParameter.t F) : Z :=
  let numDataSet := wrap32 (Z.quot (Z.quot (wrap64 (InputParameter.capacity ip * 8))
                      (InputParameter.wordWidth ip)) (InputParameter.associativity ip)) in
  let numIndexBit := int_log2 (of_Z numDataSet) in
  let numOffsetBit := int_log2 (of_Z (Z.quot (InputParameter.wordWidth ip) 8)) in
  TOTAL_ADDRESS_BIT - numIndexBit - numOffsetBit + 2.

(** The tag word is padded to a multiple of the active mats. *)
Definition tag_block (tagBits product : Z) : Z :=
  if Z.rem tagBits product =? 0 then tagBits else (Z.quot tagBits product + 1) * product.

(** A point of the tag search. *)
Definition visit_tag (s : State F) (d : Design.t) : Outcome (State F) :=
  let g := globals s in
  let ip := Globals.inputParameter g in
  let? tech := Technology_SetLayerCount ip (Design.stackedDieCount d) (Globals.tech g) in
  let s := s <| globals := g <| Globals.tech := tech |> |> in
  let blockSize := tag_bits ip in
  if active_product d =? 0 then Exit undefined_behaviour
  else if Z.quot blockSize (active_product d) =? 0 then Ret s
  else
    let blockSize := tag_block blockSize (active_product d) in
    let capacity := wrap64 (Z.quot (wrap64 (InputParameter.capacity ip * 8))
                              (InputParameter.wordWidth ip) * blockSize) in
    visit capacity (fun _ => true)
      (design_args ip capacity blockSize (InputParameter.associativity ip) tag d) s.

(** [BIGFOR { body }]; a search that does not end has no outcome. *)
Definition for_BIGFOR (body : State F -> Design.t -> Outcome (State F)) (s : State F)
  : option (Outcome (State F)) :=
  match BIGFOR (Globals.inputParameter (globals s)) with
  | None => None
  | Some space => Some (outcome_fold body space s)
  end.

(** *** Wire refinement *)

(** macros.h: [LOAD_GLOBAL_WIRE] and [LOAD_LOCAL_WIRE] *)
Definition LOAD_GLOBAL_WIRE (r : Result.t F) (g : Globals.t F) : Outcome (Globals.t F) :=
  let ip := Globals.inputParameter g in
  let w := Result.globalWire r in
  let? w := Wire_Initialize (InputParameter.processNode ip) (Wire.wireType w)
              (Wire.wireRepeaterType w) (InputParameter.temperature ip) (Wire.isLowSwing w)
              (Globals.globalWire g) in
  Ret (g <| Globals.globalWire := w |>).

Definition LOAD_LOCAL_WIRE (r : Result.t F) (g : Globals.t F) : Outcome (Globals.t F) :=
  let ip := Globals.inputParameter g in
  let w := Result.localWire r in
  let? w := Wire_Initialize (InputParameter.processNode ip) (Wire.wireType w)
              (Wire.wireRepeaterType w) (InputParameter.temperature ip) (Wire.isLowSwing w)
              (Globals.localWire g) in
  Ret (g <| Globals.localWire := w |>).

(** The arguments of a trial: the organisation of the result so far. *)
Definition retry_args (ip : InputParameter.t F) (mt : MemoryType) (b : Bank.t F) : BankArgs.t := {|
  BankArgs._numRowSubArray := Bank.numRowSubArray b;
  BankArgs._numColumnSubArray := Bank.numColumnSubArray b;
  BankArgs._capacity := Bank.capacity b;
  BankArgs._blockSize := Bank.blockSize b;
  BankArgs._associativity := Bank.associativity b;
  BankArgs._numRowPerSet := Bank.numRowPerSet b;
  BankArgs._numActiveSubArrayPerRow := Bank.numActiveSubArrayPerRow b;
  BankArgs._numActiveSubArrayPerColumn := Bank.numActiveSubArrayPerColumn b;
  BankArgs._muxSenseAmp := Bank.muxSenseAmp b;
  BankArgs._internalSenseAmp := InputParameter.internalSensing ip;
  BankArgs._muxOutputLev1 := Bank.muxOutputLev1 b;
  BankArgs._muxOutputLev2 := Bank.muxOutputLev2 b;
  BankArgs._numRowMat := Bank.numRowMat b;
  BankArgs._numColumnMat := Bank.numColumnMat b;
  BankArgs._numActiveMatPerRow := Bank.numActiveMatPerRow b;
  BankArgs._numActiveMatPerColumn := Bank.numActiveMatPerColumn b;
  BankArgs._areaOptimizationLevel := Bank.areaOptimizationLevel b;
  BankArgs._memoryType := mt;
  BankArgs._stackedDieCount := Bank.stackedDieCount b;
  BankArgs._partitionGranularity := Bank.partitionGranularity b;
  BankArgs._monolithicStackCount := InputParameter.monolithicStackCount ip
|}.

(** macros.h: [TRY_AND_UPDATE]; the temporary result is reused by all trials. *)
Definition TRY_AND_UPDATE (g : Globals.t F) (mt : MemoryType) (temp r : Result.t F)
  : Outcome (Result.t F * Result.t F) :=
  let? b := built (CALCULATE g (retry_args (Globals.inputParameter g) mt (Result.bank r))) in
  let temp := fill_temp g b temp in
  Ret (temp, fst (Result.compareAndUpdate r temp)).

(** [for (int i = 0; i < (int)full_exploration; i++) { LOAD...; TRY_AND_UPDATE... }] *)
Fixpoint try_results (load : Result.t F -> Globals.t F -> Outcome (Globals.t F)) (mt : MemoryType)
  (g : Globals.t F) (temp : Result.t F) (rs : list (Result.t F))
  : Outcome (Globals.t F * Result.t F * list (Result.t F)) :=
  match rs with
  | [] => Ret (g, temp, [])
  | r :: rs =>
      let? g := load r g in
      let? (temp, r) := TRY_AND_UPDATE g mt temp r in
      let? (g, temp, rs) := try_results load mt g temp rs in
      Ret (g, temp, r :: rs)
  end.

(** The body of the two refinement loops of main.cpp. *)
Definition set_local_wire (w : Z * Z * Z) (g : Globals.t F) : Outcome (Globals.t F) :=
  let '(wt, wr, ls) := w in
  let ip := Globals.inputParameter g in
  let? w := Wire_Initialize (InputParameter.processNode ip) (WireType_of_Z wt)
              (WireRepeaterType_of_Z wr) (InputParameter.temperature ip) (negb (ls =? 0)) (Globals.localWire g) in
  Ret (g <| Globals.localWire := w |>).

Definition set_global_wire (w : Z * Z * Z) (g : Globals.t F) : Outcome (Globals.t F) :=
  let '(wt, wr, ls) := w in
  let ip := Globals.inputParameter g in
  let? w := Wire_Initialize (InputParameter.processNode ip) (WireType_of_Z wt)
              (WireRepeaterType_of_Z wr) (InputParameter.temperature ip) (negb (ls =? 0)) (Globals.globalWire g) in
  Ret (g <| Globals.globalWire := w |>).

Definition refine_step (set : Z * Z * Z -> Globals.t F -> Outcome (Globals.t F))
  (load : Result.t F -> Globals.t F -> Outcome (Globals.t F)) (mt : MemoryType)
  (s : State F * Result.t F) (w : Z * Z * Z) : Outcome (State F * Result.t F) :=
  let '(s, temp) := s in
  let? g := set w (globals s) in
  let? (g, temp, rs) := try_results load mt g temp (best s) in
  Ret (s <| globals := g |> <| best := rs |>, temp).

(** Refine the local, then the global wires of all results, if there are any. *)
Definition refine (mt : MemoryType) (s : State F) : Outcome (State F) :=
  if 0 <? numSolution s then
    let ip := Globals.inputParameter (globals s) in
    let? p := outcome_fold (refine_step set_local_wire LOAD_GLOBAL_WIRE mt)
                (REFINE_LOCAL_WIRE_FORLOOP ip) (s, fresh_result (globals s)) in
    let? (s, _) := outcome_fold (refine_step set_global_wire LOAD_LOCAL_WIRE mt)
                     (REFINE_GLOBAL_WIRE_FORLOOP ip) p in
    Ret s
  else Ret s.

(** *** The passes of [nvsim] *)

(** [bestDataResults[i].optimizationTarget = (OptimizationTarget)i; ...cellTech = cell;] *)
Definition start_results (g : Globals.t F) (rs : list (Result.t F)) : list (Result.t F) :=
  zip_with (fun (t : OptimizationTarget) (r : Result.t F) =>
              (r <| Result.optimizationTarget := t |>) <| Result.cellTech := Some (Globals.cell g) |>)
    all_targets rs.

(** The tag search: a reduced space, then the refinement. *)
Definition nvsim_tag (g : Globals.t F) (tags : list (Result.t F)) : option (Outcome (State F)) :=
  let g := g <| Globals.inputParameter := InputParameter.REDUCE_SEARCH_SIZE (Globals.inputParameter g) |> in
  let ip := Globals.inputParameter g in
  if (InputParameter.wordWidth ip =? 0) || (InputParameter.associativity ip =? 0)
  then Some (Exit undefined_behaviour) (* numDataSet divides by both *)
  else match INITIAL_BASIC_WIRE g with
  | Exit e => Some (Exit e)
  | Ret g =>
      match for_BIGFOR visit_tag (mkState g 0 0 tags) with
      | None => None
      | Some o => Some (let? s := o in refine tag s)
      end
  end.

(** The data array as the access mode sees it: capacity in bits, block size,
    associativity, and the rows per set of the search. *)
Definition data_config (g : Globals.t F) : Globals.t F * Z * Z * Z :=
  let ip := Globals.inputParameter g in
  let capacity := wrap64 (InputParameter.capacity ip * 8) in
  let blockSize := InputParameter.wordWidth ip in
  let associativity := InputParameter.associativity ip in
  let '(ip, blockSize, associativity) :=
    if bool_decide (InputParameter.designTarget ip = cache) then
      match InputParameter.cacheAccessMode ip with
      | sequential_access_mode => (ip, blockSize, 1)
      | fast_access_mode => (ip, wrap64 (blockSize * associativity), 1)
      | normal_access_mode =>
          (ip <| InputParameter.maxNumRowPerSet := 1 |> <| InputParameter.minNumRowPerSet := 1 |>,
           blockSize, associativity)
      end
    else (ip, blockSize, associativity) in
  let '(blockSize, associativity) :=
    if bool_decide (InputParameter.designTarget ip = RAM_chip)
       && (bool_decide (MemCell.memCellType (Globals.cell g) = SLCNAND)
           || bool_decide (MemCell.memCellType (Globals.cell g) = DRAM))
    then (InputParameter.pageSize ip, 1) else (blockSize, associativity) in
  (g <| Globals.inputParameter := ip |>, capacity, blockSize, associativity).

(** The limits of the constrained pass, from the unconstrained optima. *)
Record Allowed : Type := mkAllowed {
  allowedDataReadLatency : F; allowedDataWriteLatency : F;
  allowedDataReadDynamicEnergy : F; allowedDataWriteDynamicEnergy : F;
  allowedDataLeakage : F; allowedDataArea : F; allowedDataReadEdp : F; allowedDataWriteEdp : F
}.

(** [bestDataResults[target]] *)
Definition best_for (rs : list (Result.t F)) (target : OptimizationTarget) (default : Result.t F) : Result.t F :=
  nth (Z.to_nat (OptimizationTarget_to_Z target)) rs default.

Definition allowed (ip : InputParameter.t F) (rs : list (Result.t F)) (default : Result.t F) : Allowed :=
  let b t := best_for rs t default in
  {| allowedDataReadLatency := (Result.metric FunctionUnit.readLatency (b read_latency_optimized)
       * (InputParameter.readLatencyConstraint ip + #1))%num;
     allowedDataWriteLatency := (Result.metric FunctionUnit.writeLatency (b write_latency_optimized)
       * (InputParameter.writeLatencyConstraint ip + #1))%num;
     allowedDataReadDynamicEnergy := (Result.metric FunctionUnit.readDynamicEnergy (b read_energy_optimized)
       * (InputParameter.readDynamicEnergyConstraint ip + #1))%num;
     allowedDataWriteDynamicEnergy := (Result.metric FunctionUnit.writeDynamicEnergy (b write_energy_optimized)
       * (InputParameter.writeDynamicEnergyConstraint ip + #1))%num;
     allowedDataLeakage := (Result.metric FunctionUnit.leakage (b leakage_optimized)
       * (InputParameter.leakageConstraint ip + #1))%num;
     allowedDataArea := (Result.metric FunctionUnit.area (b area_optimized)
       * (InputParameter.areaConstraint ip + #1))%num;
     allowedDataReadEdp := (Result.readEdp (b read_edp_optimized)
       * (InputParameter.readEdpConstraint ip + #1))%num;
     allowedDataWriteEdp := (Result.writeEdp (b write_edp_optimized)
       * (InputParameter.writeEdpConstraint ip + #1))%num |}.

(** macros.h: [APPLY_LIMIT] *)
Definition APPLY_LIMIT (a : Allowed) (r : Result.t F) : Result.t F :=
  (Result.reset r)
    <| Result.limitReadLatency := allowedDataReadLatency a |>
    <| Result.limitWriteLatency := allowedDataWriteLatency a |>
    <| Result.limitReadDynamicEnergy := allowedDataReadDynamicEnergy a |>
    <| Result.limitWriteDynamicEnergy := allowedDataWriteDynamicEnergy a |>
    <| Result.limitReadEdp := allowedDataReadEdp a |>
    <| Result.limitWriteEdp := allowedDataWriteEdp a |>
    <| Result.limitArea := allowedDataArea a |>
    <| Result.limitLeakage := allowedDataLeakage a |>.

(** The condition of the constrained pass. *)
Definition acceptable (a : Allowed) (b : Bank.t F) : bool :=
  let u := Bank.fu b in
  ((FunctionUnit.readLatency u <=? allowedDataReadLatency a)
   && (FunctionUnit.writeLatency u <=? allowedDataWriteLatency a)
   && (FunctionUnit.readDynamicEnergy u <=? allowedDataReadDynamicEnergy a)
   && (FunctionUnit.writeDynamicEnergy u <=? allowedDataWriteDynamicEnergy a)
   && (FunctionUnit.leakage u <=? allowedDataLeakage a)
   && (FunctionUnit.area u <=? allowedDataArea a)
   && (FunctionUnit.readLatency u * FunctionUnit.readDynamicEnergy u <=? allowedDataReadEdp a)
   && (FunctionUnit.writeLatency u * FunctionUnit.writeDynamicEnergy u <=? allowedDataWriteEdp a))%num.

(** The search again, under the limits the unconstrained optima allow. *)
Definition constrained_pass (capacity blockSize associativity : Z) (s : State F)
  : option (Outcome (State F)) :=
  let ip := Globals.inputParameter (globals s) in
  let a := allowed ip (best s) (fresh_result (globals s)) in
  match INITIAL_BASIC_WIRE (globals s) with
  | Exit e => Some (Exit e)
  | Ret g =>
      let s := s <| best := map (APPLY_LIMIT a) (best s) |> <| numSolution := 0 |> <| globals := g |> in
      for_BIGFOR (visit_data capacity blockSize associativity (acceptable a)) s
  end.

(** The data search of [nvsim]: all points, the refinement, the constrained pass. *)
Definition nvsim_data (g : Globals.t F) (rs : list (Result.t F)) : option (Outcome (State F)) :=
  let '(g, capacity, blockSize, associativity) := data_config g in
  match INITIAL_BASIC_WIRE g with
  | Exit e => Some (Exit e)
  | Ret g =>
      match for_BIGFOR (visit_data capacity blockSize associativity (fun _ => true)) (mkState g 0 0 rs) with
      | None => None
      | Some (Exit e) => Some (Exit e)
      | Some (Ret s) =>
          match refine data s with
          | Exit e => Some (Exit e)
          | Ret s =>
              let ip := Globals.inputParameter (globals s) in
              if negb (bool_decide (InputParameter.optimizationTarget ip = full_exploration))
                 && InputParameter.isConstraintApplied ip
              then constrained_pass capacity blockSize associativity s
              else Some (Ret s)
          end
      end
  end.

(** main.cpp: [nvsim] for the configuration in [file].  The first component is
    the return value. *)
Definition nvsim (raw : ConfigParser.Raw) (file : option string) (g : Globals.t F)
  (datas tags : list (Result.t F)) : option (Outcome (Z * State F * list (Result.t F))) :=
  match applyConstraint g with
  | Exit e => Some (Exit e)
  | Ret g =>
      let datas := start_results g datas in
      let tags := start_results g tags in
      let g := g <| Globals.localWire := rawLocalWire mem |> <| Globals.globalWire := rawGlobalWire mem |> in
      let run g tags :=
        match nvsim_data g datas with
        | None => None
        | Some o => Some (let? s := o in Ret (0, s, tags))
        end in
      if bool_decide (InputParameter.designTarget (Globals.inputParameter g) = cache) then
        match nvsim_tag g tags with
        | None => None
        | Some (Exit e) => Some (Exit e)
        | Some (Ret s) =>
            if numSolution s =? 0 then Some (Ret (1, s <| best := datas |>, best s))
            else
              match ConfigParser.ReadInputParameterFromFile raw file
                      (InputParameter.RESTORE_SEARCH_SIZE (Globals.inputParameter (globals s))) with
              | None => None
              | Some (Exit e) => Some (Exit e)
              | Some (Ret ip) =>
                  match applyConstraint ((globals s) <| Globals.inputParameter := ip |>) with
                  | Exit e => Some (Exit e)
                  | Ret g => run g (best s)
                  end
              end
        end
      else run g tags
  end.

(** *** Several cell technologies (main.cpp, [main]) *)

(** One target: a better data result brings its tag along, unless tags may use
    another technology and are compared on their own. *)
Definition merge_target (allowDifferentTagTech : bool) (cell : MemCell.t F)
  (acc new : Result.t F * Result.t F) : Result.t F * Result.t F :=
  let '(d0, t0) := acc in
  let '(dn, tn) := new in
  let '(d, updated) := Result.compareAndUpdate d0 dn in
  let '(d, t) :=
    if updated && negb allowDifferentTagTech then
      (d <| Result.cellTech := Some cell |>,
       (t0 <| Result.bank := Bank.assign (Result.bank t0) (Result.bank tn) |>)
         <| Result.localWire := Result.localWire tn |> <| Result.globalWire := Result.globalWire tn |>
         <| Result.cellTech := Some cell |>)
    else if updated then (d <| Result.cellTech := Some cell |>, t0)
    else (d, t0) in
  if allowDifferentTagTech then
    let '(t, updated) := Result.compareAndUpdate t tn in
    (d, if updated then t <| Result.cellTech := Some cell |> else t)
  else (d, t).

(** [for (int cellIdx = 0; ...) { ... nvsim(...) ... }]: the results of every
    cell, the globals afterwards and the number of solutions.  Every cell starts
    from new results; the parameters are left as the previous cell left them. *)
Fixpoint sweep (raw : ConfigParser.Raw) (file : option string) (g : Globals.t F) (totalSolutions : Z)
  (cells : list (MemCell.t F)) : option (Outcome (Globals.t F * Z * list (list (Result.t F * Result.t F)))) :=
  match cells with
  | [] => Some (Ret (g, totalSolutions, []))
  | c :: cells =>
      let g := g <| Globals.cell := c |> in
      let news := replicate (length all_targets) (fresh_result g) in
      match nvsim raw file g news news with
      | None => None
      | Some (Exit e) => Some (Exit e)
      | Some (Ret (rc, s, tags)) =>
          let total := if rc =? 0 then wrap64 (totalSolutions + numSolution s) else totalSolutions in
          match sweep raw file (globals s) total cells with
          | None => None
          | Some o => Some (let? (g, total, rest) := o in Ret (g, total, combine (best s) tags :: rest))
          end
      end
  end.

(** The best of all cells for each target, in the results of the first cell. *)
Definition merge_cells (allowDifferentTagTech : bool)
  (first : list (Result.t F * Result.t F)) (rest : list (MemCell.t F * list (Result.t F * Result.t F)))
  : list (Result.t F * Result.t F) :=
  foldl (fun acc '(c, new) => zip_with (merge_target allowDifferentTagTech c) acc new) first rest.

End Operations.
End Explore.
