(* ===== verification/ExploreFacts.v ===== *)
(** * What the exploration guarantees

    The search over a space of powers of two ends, adds no undefined behaviour to
    that of the circuits, never meets a capacity violation, and keeps for every
    optimisation target a design that no valid design of the space beats. *)
From S2P Require Import Prelude Numeric Types InputParameter Search Circuit SubArray Bank.
From S2P Require Import Htree BankWithHtree BankWithoutHtree Geometry Result Explore.
From stdpp Require Import base list strings.
From Stdlib Require Import ZArith Lia.
Open Scope Z_scope.

Module ExploreFacts.
Import Geometry Explore.

(** ** 64-bit products *)

Lemma wrap64_mod z : exists k, wrap64 z = z + k * 2 ^ 64.
Proof.
  unfold wrap64. exists (- ((z + 2 ^ 63) / 2 ^ 64)).
  pose proof (Z.div_mod (z + 2 ^ 63) (2 ^ 64)). lia.
Qed.

Lemma wrap64_congr x y k : x = y + k * 2 ^ 64 -> wrap64 x = wrap64 y.
Proof.
  intros ->. unfold wrap64. replace (y + k * 2 ^ 64 + 2 ^ 63) with (y + 2 ^ 63 + k * 2 ^ 64) by lia.
  by rewrite Z.mod_add by lia.
Qed.

Lemma wrap64_mul_l x y : wrap64 (wrap64 x * y) = wrap64 (x * y).
Proof. destruct (wrap64_mod x) as [k ->]. apply (wrap64_congr _ _ (k * y)). ring. Qed.

Lemma wrap64_chain x a b c d e :
  wrap64 (wrap64 (wrap64 (wrap64 (wrap64 (wrap64 x * a) * b) * c) * d) * e) = wrap64 (x * a * b * c * d * e).
Proof.
  rewrite (wrap64_mul_l x a), (wrap64_mul_l (x * a) b), (wrap64_mul_l (x * a * b) c),
    (wrap64_mul_l (x * a * b * c) d). apply wrap64_mul_l.
Qed.

(** ** Powers of two *)

Definition pow2 (x : Z) : Prop := exists j, is_pow2 x j.

Lemma pow2_log2 x : pow2 x -> x = 2 ^ Z.log2 x /\ 0 <= Z.log2 x.
Proof. intros (j & Hj & ->). rewrite Z.log2_pow2 by lia. done. Qed.

Lemma pow2_doubles lo hi x : pow2 lo -> doubles lo hi x -> pow2 x.
Proof. intros [k Hk] Hx. exact (doubles_pow2 k lo hi x Hk Hx). Qed.

Lemma pow2_MINZ a b : pow2 a -> pow2 b -> pow2 (MINZ a b).
Proof. intros [j Hj] [k Hk]. exact (MINZ_pow2 a b j k Hj Hk). Qed.

Lemma log2_sum_lt a b n : 0 <= a -> 0 <= b -> 0 <= n -> 2 ^ a * 2 ^ b < 2 ^ n -> a + b < n.
Proof. intros. apply pow2_lt_inv; [lia|]. by rewrite Z.pow_add_r by lia. Qed.

Lemma pow2_log2_le x y : pow2 x -> x <= y -> pow2 y -> Z.log2 x <= Z.log2 y.
Proof. intros. by apply Z.log2_le_mono. Qed.

Section Facts.
Context {F : Type} {NumF : Num F} {NI : NumInt F} {Ops : CircuitOps F} {Laws : CircuitLaws F}.
Context (mem : Memory F).

(** *** One bank *)

Lemma proceeds_if {A} k (b : bool) (x y : Init A) :
  proceeds k x -> proceeds k y -> proceeds k (if b then x else y).
Proof. by destruct b. Qed.

Lemma proceeds_level_bits l : proceeds true (BankWithHtree.level_bits l).
Proof. unfold BankWithHtree.level_bits. eauto with nscache. Qed.

(** After its initialisation, which turns every early return into a rejected
    bank, no phase returns early. *)
Ltac proceed := repeat first
  [ apply proceeds_done | apply proceeds_aread | apply proceeds_awrite | apply proceeds_circuit
  | apply proceeds_level_bits
  | apply proceeds_bind; [|intros] | apply proceeds_if | apply proceeds_for; intros
  | apply proceeds_while; intros ].

Lemma route_result_proceeds g a (b : BankWithHtree.t F) :
  proceeds true (BankWithHtree.Initialize_route g a b).
Proof.
  unfold BankWithHtree.Initialize_route. destruct (Htree.route _ _ _ _ _ _ _); [|done..].
  cbv zeta. destruct (BankWithHtree.ways_of_subarray _ _); proceed.
Qed.

Lemma CALCULATE_proceeds g a : proceeds true (CALCULATE mem g a).
Proof.
  unfold CALCULATE. apply proceeds_if; [|apply proceeds_circuit].
  apply proceeds_bind; [|intros b1; apply proceeds_bind;
    [|intros b2; apply proceeds_bind; [|intros b3; apply proceeds_bind; [|intros; proceed]]]].
  - unfold BankWithHtree.Initialize. cbv zeta. proceed. apply route_result_proceeds.
  - unfold BankWithHtree.CalculateArea, BankWithHtree.area_bank, BankWithHtree.area_wires,
      BankWithHtree.add_wire_area, BankWithHtree.wire_lengths, BankWithHtree.length_vertical,
      BankWithHtree.length_both, BankWithHtree.length_horizontal, BankWithHtree.half_pitch.
    cbv zeta. apply proceeds_if; [proceed|]. apply proceeds_if; [proceed|].
    apply proceeds_bind; [proceed|]. intros s1. apply proceeds_if; [proceed|].
    destruct (Bank.wire_sharing _). proceed.
  - unfold BankWithHtree.CalculateRC. proceed.
  - unfold BankWithHtree.CalculateLatencyAndPower, BankWithHtree.metrics, BankWithHtree.tree_metrics,
      BankWithHtree.add_levels. cbv zeta. proceed.
Qed.

(** All phases of a bank: no undefined behaviour of their own, and a bank that is
    still valid stores its share of the capacity. *)
Lemma CALCULATE_safe g a o :
  organised a o -> (BankArgs._memoryType a = data \/ BankArgs._memoryType a = tag) ->
  (InputParameter.routingMode (Globals.inputParameter g) = h_tree -> BankArgs._internalSenseAmp a = true) ->
  safe (fun b => Bank.invalid b = false -> bank_cells b = layer_capacity a) (CALCULATE mem g a).
Proof.
  intros Ho Hmt Hint. unfold CALCULATE. destruct (bool_decide _) eqn:Er.
  - apply bool_decide_eq_true_1 in Er.
    eapply safe_bind; [exact (htree_initialised g a o _ Ho Hmt (Hint Er))|]. intros b1 H1.
    eapply safe_bind; [exact (Geometry.CalculateArea_safe g a b1 H1)|]. intros b2 H2.
    eapply safe_bind; [exact (CalculateRC_measured g a b2 H2)|]. intros b3 H3.
    eapply safe_bind; [exact (Geometry.CalculateLatencyAndPower_safe g a b3 H3)|].
    intros b4 H4. exact H4.
  - apply safe_circuit.
    eapply yields_bind; [exact (Initialize_holds g a o _ Ho Hmt)|]. intros b1 H1.
    eapply yields_bind; [exact (CalculateArea_holds g a b1 H1)|]. intros b2 H2.
    eapply yields_bind; [exact (CalculateRC_holds g a b2 H2)|]. intros b3 H3.
    eapply yields_bind; [exact (CalculateLatencyAndPower_holds g a b3 H3)|]. intros b4 H4. exact H4.
Qed.

(** A bank of either organisation comes back, or one of its circuits ends the
    program. *)
Lemma CALCULATE_resolves g a o :
  organised a o -> (BankArgs._memoryType a = data \/ BankArgs._memoryType a = tag) ->
  (InputParameter.routingMode (Globals.inputParameter g) = h_tree -> BankArgs._internalSenseAmp a = true) ->
  (exists b, CALCULATE mem g a = Done b /\ (Bank.invalid b = false -> bank_cells b = layer_capacity a)) \/
  exists e, CALCULATE mem g a = Halt e.
Proof.
  intros Ho Hmt Hint. apply safe_resolves; [exact (CALCULATE_safe g a o Ho Hmt Hint)|apply CALCULATE_proceeds].
Qed.

Lemma capacity_violated_false a o (b : Bank.t F) :
  organised a o -> bank_cells b = layer_capacity a ->
  capacity_violated (BankArgs._capacity a) (BankArgs._stackedDieCount a) b = false.
Proof.
  intros Ho Hc. unfold capacity_violated. cbv zeta. rewrite wrap64_chain.
  apply negb_false_iff, Z.eqb_eq. destruct (layer_org a o Ho) as [_ Hl].
  transitivity (wrap64 (BankArgs._capacity a)).
  - f_equal. rewrite <- Hl, <- Hc. reflexivity.
  - apply wrap64_small. pose proof (org_double _ _ Ho). pose proof (org_block _ _ Ho).
    destruct (org_nonneg _ _ Ho) as (_ & _ & _ & _ & ? & ? & ?).
    rewrite (org_capacity _ _ Ho) in *. pose proof (pow2_pos (index o)). pose proof (pow2_pos (ways o)).
    pose proof (pow2_pos (dies o)).
    assert (0 < 2 ^ index o * 2 ^ ways o * BankArgs._blockSize a * 2 ^ dies o)
      by (repeat apply Z.mul_pos_pos; lia). lia.
Qed.

(** *** The designs of a search over powers of two *)

Import InputParameter.

(** The bounds of the search are powers of two within the integer widths, and
    there are [words] words, a power of two, for every way and die. *)
Record search_ok (ip : InputParameter.t F) (words assoc : Z) : Prop := {
  so_bounds : bounds_ok ip;
  so_sub : pow2 (minNumRowSubArray ip) /\ pow2 (minNumColumnSubArray ip);
  so_stack : pow2 (minStackLayer ip);
  so_act : pow2 (minNumActiveSubArrayPerRow ip) /\ pow2 (minNumActiveSubArrayPerColumn ip);
  so_mat : pow2 (minNumRowMat ip) /\ pow2 (minNumColumnMat ip);
  so_act_mat : pow2 (minNumActiveMatPerRow ip) /\ pow2 (minNumActiveMatPerColumn ip);
  so_mux : pow2 (minMuxSenseAmp ip) /\ pow2 (minMuxOutputLev1 ip) /\ pow2 (minMuxOutputLev2 ip);
  so_rows : pow2 (minNumRowPerSet ip);
  so_sub_int : maxNumRowSubArray ip * maxNumColumnSubArray ip < 2 ^ 31;
  so_mat_int : maxNumRowMat ip * maxNumColumnMat ip < 2 ^ 31;
  so_act_int : maxNumRowSubArray ip * maxNumColumnSubArray ip * (maxNumRowMat ip * maxNumColumnMat ip) < 2 ^ 31;
  so_mux_int : maxMuxSenseAmp ip * maxMuxOutputLev1 ip * maxMuxOutputLev2 ip * assoc < 2 ^ 31;
  so_words : pow2 words /\ pow2 assoc;
  so_sets : assoc * maxStackLayer ip <= words /\ words < 2 ^ 31 * assoc
}.

(** The exponents of a design. *)
Definition org_of (words assoc : Z) (d : Design.t) : org := {|
  rowSub := Z.log2 (Design.numRowSubArray d);
  colSub := Z.log2 (Design.numColumnSubArray d);
  actCol := Z.log2 (Design.numActiveSubArrayPerColumn d);
  actRow := Z.log2 (Design.numActiveSubArrayPerRow d);
  rowMat := Z.log2 (Design.numRowMat d);
  colMat := Z.log2 (Design.numColumnMat d);
  actMatCol := Z.log2 (Design.numActiveMatPerColumn d);
  actMatRow := Z.log2 (Design.numActiveMatPerRow d);
  mux1 := Z.log2 (Design.muxSenseAmp d);
  mux2 := Z.log2 (Design.muxOutputLev1 d);
  mux3 := Z.log2 (Design.muxOutputLev2 d);
  rowsPerSet := Z.log2 (Design.numRowPerSet d);
  ways := Z.log2 assoc;
  dies := Z.log2 (Design.stackedDieCount d);
  index := Z.log2 words - Z.log2 assoc - Z.log2 (Design.stackedDieCount d)
|}.

(** Every coordinate of a design is a power of two. *)
Lemma design_pow2 ip words assoc d : search_ok ip words assoc -> in_space ip d ->
  (pow2 (Design.numRowSubArray d) /\ pow2 (Design.numColumnSubArray d) /\ pow2 (Design.stackedDieCount d)) /\
  (pow2 (Design.numActiveSubArrayPerRow d) /\ pow2 (Design.numActiveSubArrayPerColumn d)) /\
  (pow2 (Design.numRowMat d) /\ pow2 (Design.numColumnMat d)) /\
  (pow2 (Design.numActiveMatPerRow d) /\ pow2 (Design.numActiveMatPerColumn d)) /\
  (pow2 (Design.muxSenseAmp d) /\ pow2 (Design.muxOutputLev1 d) /\ pow2 (Design.muxOutputLev2 d)) /\
  pow2 (Design.numRowPerSet d).
Proof.
  intros [_ [A1 A2] A3 [A4 A5] [A6 A7] [A8 A9] (A10 & A11 & A12) A13 _ _ _ _ _ _].
  intros (D1 & D2 & D3 & D4 & D5 & D6 & D7 & D8 & D9 & D10 & D11 & D12 & D13 & _).
  pose proof (pow2_doubles _ _ _ A1 D1) as P1. pose proof (pow2_doubles _ _ _ A2 D2) as P2.
  pose proof (pow2_doubles _ _ _ A6 D6) as P6. pose proof (pow2_doubles _ _ _ A7 D7) as P7.
  repeat split; try done; (eapply pow2_doubles; [|eassumption]); first [assumption|by apply pow2_MINZ].
Qed.

(** ... and within its bounds. *)
Lemma design_range ip words assoc d : search_ok ip words assoc -> in_space ip d ->
  (1 <= Design.numRowSubArray d <= maxNumRowSubArray ip /\
   1 <= Design.numColumnSubArray d <= maxNumColumnSubArray ip /\
   1 <= Design.stackedDieCount d <= maxStackLayer ip) /\
  (Design.numActiveSubArrayPerRow d <= Design.numColumnSubArray d /\
   Design.numActiveSubArrayPerColumn d <= Design.numRowSubArray d) /\
  (1 <= Design.numRowMat d <= maxNumRowMat ip /\ 1 <= Design.numColumnMat d <= maxNumColumnMat ip) /\
  (Design.numActiveMatPerRow d <= Design.numColumnMat d /\
   Design.numActiveMatPerColumn d <= Design.numRowMat d) /\
  (1 <= Design.muxSenseAmp d <= maxMuxSenseAmp ip /\ 1 <= Design.muxOutputLev1 d <= maxMuxOutputLev1 ip /\
   1 <= Design.muxOutputLev2 d <= maxMuxOutputLev2 ip).
Proof.
  intros Hs (D1 & D2 & D3 & D4 & D5 & D6 & D7 & D8 & D9 & D10 & D11 & D12 & _).
  pose proof (so_bounds _ _ _ Hs) as (B1 & B2 & B3 & B4 & B5 & B6 & B7 & B8 & B9 & B10 & B11 & B12 & _).
  assert (Hact : forall c lo hi x, doubles (MINZ c lo) (MINZ c hi) x -> x <= c).
  { intros c lo hi x (i & _ & _ & Hx). pose proof (MINZ_le c hi). lia. }
  pose proof (doubles_pos _ _ _ (proj1 B1) D1). pose proof (doubles_pos _ _ _ (proj1 B2) D2).
  pose proof (doubles_pos _ _ _ (proj1 B3) D3). pose proof (doubles_pos _ _ _ (proj1 B6) D6).
  pose proof (doubles_pos _ _ _ (proj1 B7) D7). pose proof (doubles_pos _ _ _ (proj1 B10) D10).
  pose proof (doubles_pos _ _ _ (proj1 B11) D11). pose proof (doubles_pos _ _ _ (proj1 B12) D12).
  apply Hact in D4, D5, D8, D9. lia.
Qed.

Lemma design_organised ip words block assoc mt d :
  search_ok ip words assoc -> in_space ip d -> 0 < block ->
  match mt with data => block <= 2 ^ 30 | _ => block < 2 ^ 29 end -> words * block < 2 ^ 53 ->
  (let o := org_of words assoc d in
   splits block (match mt with
                 | data => actCol o + actRow o + (actMatRow o + actMatCol o)
                 | _ => actMatRow o + actMatCol o
                 end)) ->
  organised (design_args ip (words * block) block assoc mt d) (org_of words assoc d).
Proof.
  intros Hs Hd Hb Hbm Hw Hsp. destruct (so_words _ _ _ Hs) as [Pw Pa]. destruct (so_sets _ _ _ Hs) as [Hlo Hhi].
  pose proof (so_sub_int _ _ _ Hs). pose proof (so_mat_int _ _ _ Hs). pose proof (so_mux_int _ _ _ Hs).
  destruct (design_pow2 _ _ _ _ Hs Hd) as ((P1 & P2 & P3) & (P4 & P5) & (P6 & P7) & (P8 & P9) & (P10 & P11 & P12) & P13).
  destruct (design_range _ _ _ _ Hs Hd) as ((R1 & R2 & R3) & (R4 & R5) & (R6 & R7) & (R8 & R9) & (R10 & R11 & R12)).
  destruct (pow2_log2 _ Pw) as [Ew Lw], (pow2_log2 _ Pa) as [Ea La], (pow2_log2 _ P1) as [E1 L1],
    (pow2_log2 _ P2) as [E2 L2], (pow2_log2 _ P3) as [E3 L3], (pow2_log2 _ P4) as [E4 L4],
    (pow2_log2 _ P5) as [E5 L5], (pow2_log2 _ P6) as [E6 L6], (pow2_log2 _ P7) as [E7 L7],
    (pow2_log2 _ P8) as [E8 L8], (pow2_log2 _ P9) as [E9 L9], (pow2_log2 _ P10) as [E10 L10],
    (pow2_log2 _ P11) as [E11 L11], (pow2_log2 _ P12) as [E12 L12], (pow2_log2 _ P13) as [E13 L13].
  assert (Hidx : 0 <= Z.log2 words - Z.log2 assoc - Z.log2 (Design.stackedDieCount d) < 31).
  { pose proof (pow2_pos (Z.log2 assoc) La). split.
    - assert (assoc * Design.stackedDieCount d <= words) by nia.
      assert (Z.log2 assoc + Z.log2 (Design.stackedDieCount d) < Z.log2 words + 1); [|lia].
      apply log2_sum_lt; try lia. rewrite <- Ea, <- E3, pow2_succ, <- Ew by lia. nia.
    - assert (Z.log2 words < 31 + Z.log2 assoc); [|lia].
      apply pow2_lt_inv; [lia|]. by rewrite Z.pow_add_r, <- Ew, <- Ea by lia. }
  assert (Hb31 : block < 2 ^ 31) by (destruct mt; lia).
  assert (Hmux : Z.log2 (Design.muxSenseAmp d) + Z.log2 (Design.muxOutputLev1 d) + Z.log2 (Design.muxOutputLev2 d)
                 + Z.log2 assoc < 31).
  { apply log2_sum_lt; try lia.
    rewrite !Z.pow_add_r, <- E10, <- E11, <- E12, <- Ea by lia.
    pose proof (pow2_pos (Z.log2 assoc) La).
    assert (Design.muxSenseAmp d * Design.muxOutputLev1 d <= maxMuxSenseAmp ip * maxMuxOutputLev1 ip)
      by (apply Z.mul_le_mono_nonneg; lia).
    assert (Design.muxSenseAmp d * Design.muxOutputLev1 d * Design.muxOutputLev2 d
            <= maxMuxSenseAmp ip * maxMuxOutputLev1 ip * maxMuxOutputLev2 ip)
      by (apply Z.mul_le_mono_nonneg; nia).
    nia. }
  constructor; cbn -[Z.log2 Z.pow]; try done; try lia.
  - replace (2 ^ _ * 2 ^ Z.log2 assoc * block * 2 ^ Z.log2 (Design.stackedDieCount d))
      with (2 ^ (Z.log2 words - Z.log2 assoc - Z.log2 (Design.stackedDieCount d) + Z.log2 assoc
                 + Z.log2 (Design.stackedDieCount d)) * block)
      by (rewrite !Z.pow_add_r by lia; ring).
    rewrite Ew at 1. do 2 f_equal. lia.
  - split; split; try done; by apply Z.log2_le_mono.
  - split; split; try done; by apply Z.log2_le_mono.
  - repeat split; try lia; apply log2_sum_lt; try lia.
    + rewrite <- E1, <- E2. nia.
    + rewrite <- E6, <- E7. nia.
  - pose proof (pow2_le (Z.log2 assoc) 30 ltac:(lia)). destruct mt; lia.
Qed.

(** The active mats of a design, without overflow. *)
Lemma active_product_exact ip words assoc d : search_ok ip words assoc -> in_space ip d ->
  let o := org_of words assoc d in
  active_product d = 2 ^ (actCol o + actRow o + (actMatRow o + actMatCol o)) /\
  0 <= actCol o /\ 0 <= actRow o /\ 0 <= actMatRow o /\ 0 <= actMatCol o.
Proof.
  intros Hs Hd. pose proof (so_act_int _ _ _ Hs) as Hint.
  destruct (design_pow2 _ _ _ _ Hs Hd) as ((P1 & P2 & _) & (P4 & P5) & (P6 & P7) & (P8 & P9) & _).
  destruct (design_range _ _ _ _ Hs Hd) as ((R1 & R2 & _) & (R4 & R5) & (R6 & R7) & (R8 & R9) & _).
  destruct (pow2_log2 _ P4) as [E4 L4], (pow2_log2 _ P5) as [E5 L5], (pow2_log2 _ P8) as [E8 L8],
    (pow2_log2 _ P9) as [E9 L9].
  cbn -[Z.log2 Z.pow]. split; [|done]. rewrite !Z.pow_add_r, <- E4, <- E5, <- E8, <- E9 by lia.
  pose proof (pow2_pos _ L4). pose proof (pow2_pos _ L5). pose proof (pow2_pos _ L8). pose proof (pow2_pos _ L9).
  unfold active_product. set (a := Design.numActiveSubArrayPerRow d) in *.
  set (b := Design.numActiveSubArrayPerColumn d) in *. set (c := Design.numActiveMatPerRow d) in *.
  set (e := Design.numActiveMatPerColumn d) in *.
  assert (Hab : 0 < a * b <= maxNumRowSubArray ip * maxNumColumnSubArray ip).
  { split; [nia|]. rewrite (Z.mul_comm a). apply Z.mul_le_mono_nonneg; lia. }
  assert (Hce : 0 < c * e <= maxNumRowMat ip * maxNumColumnMat ip).
  { split; [nia|]. rewrite (Z.mul_comm c). apply Z.mul_le_mono_nonneg; lia. }
  assert (a * b * (c * e) < 2 ^ 31).
  { eapply Z.le_lt_trans; [|exact Hint]. apply Z.mul_le_mono_nonneg; lia. }
  rewrite (wrap32_small (a * b)) by nia. rewrite (wrap32_small (a * b * c)) by nia.
  rewrite wrap32_small by nia. ring.
Qed.

Lemma active_product_nonzero ip words assoc d : search_ok ip words assoc -> in_space ip d ->
  (active_product d =? 0) = false.
Proof.
  intros Hs Hd. destruct (active_product_exact _ _ _ _ Hs Hd) as (-> & ? & ? & ? & ?).
  apply Z.eqb_neq. match goal with |- 2 ^ ?k <> 0 => pose proof (pow2_pos k) end. lia.
Qed.

(** *** What a design contributes *)

(** The result of a bank, if it is valid and accepted ... *)
Definition candidate_of (accept : Bank.t F -> bool) (g : Globals.t F) (a : option BankArgs.t)
  : option (Result.t F) :=
  match a with
  | None => None
  | Some a => match CALCULATE mem g a with
              | Done b => if negb (Bank.invalid b) && accept b
                          then Some (fill_temp g b (fresh_result mem g)) else None
              | _ => None
              end
  end.

(** ... and the message of a circuit of the bank that ends the program. *)
Definition exit_of (g : Globals.t F) (a : option BankArgs.t) : option string :=
  match a with
  | None => None
  | Some a => match CALCULATE mem g a with
              | Halt e => Some e
              | _ => None
              end
  end.

(** The results are those of [compareAndUpdate] on the candidates, which are counted. *)
Definition scored (cands : list (Result.t F)) (s s' : State F) : Prop :=
  numSolution s' = numSolution s + Z.of_nat (length cands) /\
  best s' = map (Result.explore_best cands) (best s).

Lemma scored_trans l1 l2 s1 s2 s3 : scored l1 s1 s2 -> scored l2 s2 s3 -> scored (l1 ++ l2) s1 s3.
Proof.
  intros (N1 & B1) (N2 & B2). split; [rewrite length_app; lia|].
  rewrite B2, B1, map_map. apply map_ext. intros r. unfold Result.explore_best. by rewrite foldl_app.
Qed.

Definition option_list {A} (o : option A) : list A := match o with Some x => [x] | None => [] end.

Lemma scored_refl s s' : numSolution s' = numSolution s -> best s' = best s -> scored [] s s'.
Proof. intros E1 E2. split; cbn; [lia|]. by rewrite E2, map_id. Qed.

(** A visit either ends with a circuit of the design or scores its candidate. *)
Lemma visit_scored accept a o s :
  organised a o -> (BankArgs._memoryType a = data \/ BankArgs._memoryType a = tag) ->
  (routingMode (Globals.inputParameter (globals s)) = h_tree -> BankArgs._internalSenseAmp a = true) ->
  match exit_of (globals s) (Some a) with
  | Some e => visit mem (BankArgs._capacity a) accept a s = Exit e
  | None => exists s', visit mem (BankArgs._capacity a) accept a s = Ret s' /\ globals s' = globals s /\
              scored (option_list (candidate_of accept (globals s) (Some a))) s s'
  end.
Proof.
  intros Ho Hmt Hint. unfold exit_of, candidate_of, visit.
  destruct (CALCULATE_resolves (globals s) a o Ho Hmt Hint) as [(b & -> & Hcells)|(e & ->)]; [|done].
  cbn [built outcome_bind].
  destruct (Bank.invalid b); cbn [negb andb]; [eexists; split; [done|]; split; [done|]; by apply scored_refl|].
  destruct (accept b); cbn [negb andb]; [|eexists; split; [done|]; split; [done|]; by apply scored_refl].
  rewrite (capacity_violated_false a _ b Ho (Hcells eq_refl)). eexists. split; [done|]. split; [done|]. by split.
Qed.

(** *** The data search *)

(** The bank of a design; too many active mats for the word leave it out. *)
Definition data_args (ip : InputParameter.t F) (capacity block assoc : Z) (d : Design.t) : option BankArgs.t :=
  if Z.quot block (active_product d) =? 0 then None
  else Some (design_args ip capacity block assoc data d).

Definition data_candidate (capacity block assoc : Z) (accept : Bank.t F -> bool) (g : Globals.t F)
  (d : Design.t) : option (Result.t F) :=
  candidate_of accept g (data_args (Globals.inputParameter g) capacity block assoc d).

Definition data_exit (capacity block assoc : Z) (g : Globals.t F) (d : Design.t) : option string :=
  exit_of g (data_args (Globals.inputParameter g) capacity block assoc d).

Lemma visit_data_scored ip words block assoc accept s d :
  Globals.inputParameter (globals s) = ip ->
  (routingMode ip = h_tree -> internalSensing ip = true) ->
  search_ok ip words assoc -> in_space ip d -> pow2 block -> block < 2 ^ 31 -> words * block < 2 ^ 53 ->
  match data_exit (words * block) block assoc (globals s) d with
  | Some e => visit_data mem (words * block) block assoc accept s d = Exit e
  | None => exists s', visit_data mem (words * block) block assoc accept s d = Ret s' /\
      globals s' = globals s /\
      scored (option_list (data_candidate (words * block) block assoc accept (globals s) d)) s s'
  end.
Proof.
  intros Eip Hint Hs Hd Pb Hb Hw. unfold visit_data, data_candidate, data_exit, data_args. rewrite Eip.
  rewrite (active_product_nonzero _ _ _ _ Hs Hd).
  destruct (Z.quot block _ =? 0); [exists s; split; [done|]; split; [done|]; by apply scored_refl|].
  assert (Ho : organised (design_args ip (words * block) block assoc data d) (org_of words assoc d)).
  { destruct (active_product_exact _ _ _ _ Hs Hd) as (_ & ? & ? & ? & ?).
    destruct (pow2_log2 _ Pb) as [Eb Lb]. pose proof (pow2_pos _ Lb).
    assert (Z.log2 block < 31) by (apply pow2_lt_inv; [lia|by rewrite <- Eb]).
    assert (2 ^ Z.log2 block <= 2 ^ 30) by (apply pow2_le; lia).
    apply design_organised; [done|done|lia|lia|done|]. cbv zeta. rewrite Eb. apply splits_pow2; [done|lia]. }
  apply (visit_scored accept _ _ s Ho (or_introl eq_refl)). by rewrite Eip.
Qed.

(** The fold over the designs of the space stops at the first exit, if any. *)
Lemma data_fold_scored ip words block assoc accept l :
  (routingMode ip = h_tree -> internalSensing ip = true) ->
  search_ok ip words assoc -> pow2 block -> block < 2 ^ 31 -> words * block < 2 ^ 53 ->
  (forall d, In d l -> in_space ip d) ->
  forall s, Globals.inputParameter (globals s) = ip ->
  let run := outcome_fold (visit_data mem (words * block) block assoc accept) l s in
  let exits := data_exit (words * block) block assoc (globals s) in
  (exists s', run = Ret s' /\ globals s' = globals s /\
     scored (omap (data_candidate (words * block) block assoc accept (globals s)) l) s s' /\
     forall d, In d l -> exits d = None) \/
  (exists pre d post e, l = pre ++ d :: post /\ (forall x, In x pre -> exits x = None) /\
     exits d = Some e /\ run = Exit e).
Proof.
  intros Hint Hs Pb Hb Hw. induction l as [|d l IH]; intros Hl s Eip; cbv zeta.
  { left. exists s. split; [done|]. split; [done|]. split; [by apply scored_refl|done]. }
  pose proof (visit_data_scored ip words block assoc accept s d Eip Hint Hs (Hl d (or_introl eq_refl)) Pb Hb Hw) as Hv.
  cbn [outcome_fold]. destruct (data_exit _ _ _ (globals s) d) as [e|] eqn:Ed.
  { right. exists [], d, l, e. rewrite Hv. done. }
  destruct Hv as (s1 & -> & G1 & S1). cbn [outcome_bind].
  destruct (IH ltac:(intros; apply Hl; by right) s1) as [(s2 & E2 & G2 & S2 & N2)|(pre & x & post & e & El & Np & Ex & E2)];
    [by rewrite G1|left|right].
  - rewrite G1 in *. exists s2. split; [done|]. split; [done|]. split; [|intros y [<-|Hy]; [done|by apply N2]].
    pose proof (scored_trans _ _ _ _ _ S1 S2) as S12. cbn. by destruct (data_candidate _ _ _ _ _ d).
  - rewrite G1 in *. exists (d :: pre), x, post, e. split; [by rewrite El|].
    split; [intros y [<-|Hy]; [done|by apply Np]|done].
Qed.

(** The data search visits exactly the space.  Unless a circuit of a design ends
    the program, it ends in the fold over the candidates. *)
Lemma data_search_spec words block assoc accept s :
  let ip := Globals.inputParameter (globals s) in
  let run := for_BIGFOR (visit_data mem (words * block) block assoc accept) s in
  let exits := data_exit (words * block) block assoc (globals s) in
  (routingMode ip = h_tree -> internalSensing ip = true) ->
  search_ok ip words assoc -> pow2 block -> block < 2 ^ 31 -> words * block < 2 ^ 53 ->
  (exists s' cands, run = Some (Ret s') /\ globals s' = globals s /\ scored cands s s' /\
     (forall c, In c cands <-> exists d, in_space ip d /\
        data_candidate (words * block) block assoc accept (globals s) d = Some c) /\
     (forall d, in_space ip d -> exits d = None)) \/
  (exists pre d post e, BIGFOR ip = Some (pre ++ d :: post) /\ in_space ip d /\
     (forall x, In x pre -> exits x = None) /\ exits d = Some e /\ run = Some (Exit e)).
Proof.
  intros ip run exits Hint Hs Pb Hb Hw. destruct (BIGFOR_ends ip (so_bounds _ _ _ Hs)) as (l & El & Hl).
  destruct (data_fold_scored ip words block assoc accept l Hint Hs Pb Hb Hw
    ltac:(intros d; apply Hl) s eq_refl) as [(s' & Es & G & S & N)|(pre & d & post & e & Epd & Np & Ed & Es)];
    subst run; unfold for_BIGFOR; fold ip; rewrite El, Es; [left|right].
  - exists s', (omap (data_candidate (words * block) block assoc accept (globals s)) l).
    split; [done|]. split; [done|]. split; [done|]. split; [|intros d Hd; by apply N, Hl]. intros c.
    rewrite <- list_elem_of_In, list_elem_of_omap. split.
    + intros (d & Hd & Hc). exists d. rewrite list_elem_of_In in Hd. by apply Hl in Hd.
    + intros (d & Hd & Hc). exists d. rewrite list_elem_of_In. by apply Hl in Hd.
  - exists pre, d, post, e. split; [by rewrite Epd|]. split; [|done]. apply Hl. rewrite Epd. apply in_elt.
Qed.

(** *** The tag search *)

(** The padded tag word is the least multiple of the active mats that holds the tag. *)
Lemma tag_block_spec n p : 0 < p <= n ->
  (exists q, tag_block n p = q * p) /\ n <= tag_block n p < n + p.
Proof.
  intros Hp. unfold tag_block. rewrite Z.rem_mod_nonneg, quot_nonneg by lia.
  pose proof (Z.div_mod n p ltac:(lia)) as E. pose proof (Z.mod_pos_bound n p ltac:(lia)).
  destruct (Z.eqb_spec (n mod p) 0) as [E0|E0].
  - split; [exists (n / p); lia|lia].
  - split; [by eexists|]. lia.
Qed.

Lemma tag_bits_exact ip words : pow2 words -> pow2 (associativity ip) -> pow2 (wordWidth ip) ->
  8 <= wordWidth ip -> associativity ip <= words -> words < 2 ^ 31 * associativity ip ->
  capacity ip * 8 = words * wordWidth ip -> words * wordWidth ip < 2 ^ 53 ->
  tag_bits ip = 53 - (Z.log2 words - Z.log2 (associativity ip)) - Z.log2 (wordWidth ip) /\ 1 <= tag_bits ip <= 50.
Proof.
  intros Pw Pa Pb H8 Hle Hsets Hcap Hsmall.
  destruct (pow2_log2 _ Pw) as [Ew Lw], (pow2_log2 _ Pa) as [Ea La], (pow2_log2 _ Pb) as [Eb Lb].
  pose proof (pow2_pos _ Lw). pose proof (pow2_pos _ La). pose proof (pow2_pos _ Lb).
  assert (Hwa : Z.log2 (associativity ip) <= Z.log2 words) by (by apply Z.log2_le_mono).
  assert (H3 : 3 <= Z.log2 (wordWidth ip)) by (change 3 with (Z.log2 8); by apply Z.log2_le_mono).
  assert (H53 : Z.log2 words + Z.log2 (wordWidth ip) < 53)
    by (apply log2_sum_lt; try lia; by rewrite <- Ew, <- Eb).
  assert (H31 : Z.log2 words < 31 + Z.log2 (associativity ip)).
  { apply pow2_lt_inv; [lia|]. rewrite Z.pow_add_r by lia. by rewrite <- Ew, <- Ea. }
  assert (E : tag_bits ip = 53 - (Z.log2 words - Z.log2 (associativity ip)) - Z.log2 (wordWidth ip)); [|lia].
  unfold tag_bits, TOTAL_ADDRESS_BIT. rewrite Hcap, wrap64_small, Z.quot_mul by lia.
  rewrite Ew, Ea at 1. rewrite quot_pow2 by lia.
  rewrite wrap32_small by (pose proof (pow2_lt (Z.log2 words - Z.log2 (associativity ip)) 31);
    pose proof (pow2_pos (Z.log2 words - Z.log2 (associativity ip))); lia).
  rewrite Eb at 1. change 8 with (2 ^ 3). rewrite quot_pow2, !int_log2_pow2 by lia. lia.
Qed.

(** The tag bank of a design: the padded tag of every word. *)
Definition tag_args (ip : InputParameter.t F) (words : Z) (d : Design.t) : option BankArgs.t :=
  let block := tag_block (tag_bits ip) (active_product d) in
  if Z.quot (tag_bits ip) (active_product d) =? 0 then None
  else Some (design_args ip (words * block) block (associativity ip) tag d).

(** The globals a tag design is built with: its own number of dies. *)
Definition tag_globals (ip : InputParameter.t F) (d : Design.t) (g : Globals.t F) : Prop :=
  Globals.inputParameter g = ip /\ Technology.layerCount (Globals.tech g) = Design.stackedDieCount d.

Lemma visit_tag_scored ip words s d :
  Globals.inputParameter (globals s) = ip ->
  (routingMode ip = h_tree -> internalSensing ip = true) ->
  search_ok ip words (associativity ip) -> in_space ip d ->
  pow2 (wordWidth ip) -> 8 <= wordWidth ip -> capacity ip * 8 = words * wordWidth ip ->
  words * wordWidth ip < 2 ^ 53 -> words < 2 ^ 46 ->
  (exists e, Technology_SetLayerCount ip (Design.stackedDieCount d) (Globals.tech (globals s)) = Exit e /\
     visit_tag mem s d = Exit e) \/
  exists g, tag_globals ip d g /\
    match exit_of g (tag_args ip words d) with
    | Some e => visit_tag mem s d = Exit e
    | None => exists s', visit_tag mem s d = Ret s' /\ globals s' = g /\
        scored (option_list (candidate_of (fun _ => true) g (tag_args ip words d))) s s'
    end.
Proof.
  intros Eip Hint Hs Hd Pb H8 Hcap H53 H46. unfold visit_tag, tag_args. rewrite Eip. cbv zeta.
  destruct (so_words _ _ _ Hs) as [Pw Pa]. destruct (so_sets _ _ _ Hs) as [Hlo Hhi].
  destruct (pow2_log2 _ Pw) as [Ew Lw], (pow2_log2 _ Pa) as [Ea La]. pose proof (pow2_pos _ Lw).
  pose proof (pow2_pos _ La).
  destruct (design_range _ _ _ _ Hs Hd) as ((_ & _ & R3) & _).
  assert (Hass : associativity ip <= words) by nia.
  destruct (tag_bits_exact ip words Pw Pa Pb H8 Hass Hhi Hcap H53) as [_ Htb].
  pose proof (SetLayerCount_layers ip (Design.stackedDieCount d) (Globals.tech (globals s))) as HL.
  destruct (Technology_SetLayerCount _ _ _) as [tech|e]; cbn [outcome_bind yields] in HL |- *; [right|left; by exists e].
  set (s1 := s <| globals := _ |>).
  assert (G1 : tag_globals ip d (globals s1)) by (split; [exact Eip|exact HL]).
  assert (N1 : numSolution s1 = numSolution s) by done. assert (B1 : best s1 = best s) by done.
  clearbody s1. exists (globals s1). split; [done|]. destruct G1 as [G1 _].
  rewrite (active_product_nonzero _ _ _ _ Hs Hd).
  destruct (active_product_exact _ _ _ _ Hs Hd) as (Eact & ? & ? & ? & ?).
  set (o := org_of words (associativity ip) d) in *.
  set (k := actCol o + actRow o + (actMatRow o + actMatCol o)) in *. rewrite Eact.
  assert (Hkp : 0 < 2 ^ k) by (apply pow2_pos; lia).
  destruct (Z.eqb_spec (Z.quot (tag_bits ip) (2 ^ k)) 0) as [Hz|Hnz];
    [exists s1; split; [done|]; split; [done|]; by apply scored_refl|].
  assert (Hk : 2 ^ k <= tag_bits ip).
  { destruct (Z.le_gt_cases (2 ^ k) (tag_bits ip)); [done|]. rewrite Z.quot_small in Hnz by lia. done. }
  destruct (tag_block_spec (tag_bits ip) (2 ^ k) (conj Hkp Hk)) as [[q Hq] Hblk].
  set (blk := tag_block (tag_bits ip) (2 ^ k)) in *.
  rewrite Hcap, (wrap64_small (words * wordWidth ip)), Z.quot_mul, wrap64_small by nia.
  assert (Ho : organised (design_args ip (words * blk) blk (associativity ip) tag d) o).
  { apply design_organised; [done|done|lia|lia|nia|]. cbv zeta. fold o. right.
    exists (q * 2 ^ (actCol o + actRow o)). rewrite Hq. unfold k. rewrite (Z.pow_add_r 2 (actCol o + actRow o)) by lia. ring. }
  pose proof (visit_scored (fun _ => true) _ o s1 Ho (or_intror eq_refl)) as Hv. rewrite G1 in Hv.
  specialize (Hv Hint). destruct (exit_of _ _); [exact Hv|]. unfold scored in *. by rewrite N1, B1 in Hv.
Qed.

(** The tag search: every design in turn, with its own number of dies, until a
    circuit ends the program. *)
Lemma tag_search_spec words s :
  let ip := Globals.inputParameter (globals s) in
  (routingMode ip = h_tree -> internalSensing ip = true) ->
  search_ok ip words (associativity ip) ->
  pow2 (wordWidth ip) -> 8 <= wordWidth ip -> capacity ip * 8 = words * wordWidth ip ->
  words * wordWidth ip < 2 ^ 53 -> words < 2 ^ 46 ->
  exists space, BIGFOR ip = Some space /\ (forall d, In d space <-> in_space ip d) /\
  match for_BIGFOR (visit_tag mem) s with
  | Some (Ret s') => exists gs, Forall2 (tag_globals ip) space gs /\
      scored (omap (fun p => candidate_of (fun _ => true) (snd p) (tag_args ip words (fst p))) (zip space gs)) s s'
  | Some (Exit e) => exists d, In d space /\
      ((exists tech, Technology_SetLayerCount ip (Design.stackedDieCount d) tech = Exit e) \/
       exists g, tag_globals ip d g /\ exit_of g (tag_args ip words d) = Some e)
  | None => False
  end.
Proof.
  intros ip Hint Hs Pb H8 Hcap H53 H46. destruct (BIGFOR_ends ip (so_bounds _ _ _ Hs)) as (l & El & Hl).
  exists l. split; [done|]. split; [done|]. unfold for_BIGFOR. fold ip. rewrite El.
  assert (Hin : forall d, In d l -> in_space ip d) by (intros d; apply Hl). clear El Hl.
  assert (Eip : Globals.inputParameter (globals s) = ip) by done. clearbody ip.
  revert s Eip. induction l as [|d l IH]; intros s Eip.
  { exists []. split; [constructor|by apply scored_refl]. }
  destruct (visit_tag_scored ip words s d) as [(e & Et & Hv)|(g & Hg & Hv)]; try done; [apply Hin; by left|..].
  { cbn [outcome_fold]. rewrite Hv. cbn [outcome_bind]. exists d. split; [by left|]. left. by eexists. }
  cbn [outcome_fold]. destruct (exit_of g _) as [e|] eqn:Ee.
  { rewrite Hv. cbn [outcome_bind]. exists d. split; [by left|]. right. by exists g. }
  destruct Hv as (s1 & -> & G1 & S1). cbn [outcome_bind]. rewrite <- G1 in Hg.
  specialize (IH ltac:(intros; apply Hin; by right) s1 (proj1 Hg)).
  destruct (outcome_fold (visit_tag mem) l s1) as [s2|e].
  - destruct IH as (gs & Hgs & S2). rewrite G1 in Hg. exists (g :: gs). split; [by constructor|].
    pose proof (scored_trans _ _ _ _ _ S1 S2) as S12. cbn. by destruct (candidate_of _ g _).
  - destruct IH as (d' & Hd' & Hg'). exists d'. split; [by right|done].
Qed.

End Facts.

(** ** Refinement, constraints and merging never lose a result *)

Section Improve.
Context {F : Type} {NumF : Num F} {Ord : NumOrder F} {Ops : CircuitOps F}.
Context (mem : Memory F).

Lemma try_results_no_worse load mt rs : forall g temp g' temp' rs',
  try_results mem load mt g temp rs = Ret (g', temp', rs') -> Forall2 Result.no_worse rs rs'.
Proof.
  induction rs as [|r rs IH]; intros g temp g' temp' rs'; cbn [try_results].
  { intros [= <- <- <-]. constructor. }
  destruct (load r g) as [g0|e]; cbn [outcome_bind]; [|done].
  unfold TRY_AND_UPDATE. destruct (built _) as [b|e]; cbn [outcome_bind]; [|done].
  destruct (try_results mem load mt _ _ rs) as [[[g1 temp1] rs1]|e] eqn:E; cbn [outcome_bind]; [|done].
  intros [= <- <- <-]. constructor; [apply Result.compareAndUpdate_no_worse|by eapply IH].
Qed.

Lemma refine_fold_no_worse set load mt l : forall p p',
  outcome_fold (refine_step mem set load mt) l p = Ret p' ->
  Forall2 Result.no_worse (best (fst p)) (best (fst p')).
Proof.
  induction l as [|w l IH]; intros [s temp] p'; cbn [outcome_fold].
  { intros [= <-]. reflexivity. }
  unfold refine_step at 1. destruct (set w (globals s)) as [g0|e]; cbn [outcome_bind]; [|done].
  destruct (try_results mem load mt _ temp (best s)) as [[[g1 temp1] rs1]|e] eqn:E; cbn [outcome_bind]; [|done].
  intros Hp. apply IH in Hp. apply try_results_no_worse in E. cbn [fst] in *.
  etransitivity; [exact E|exact Hp].
Qed.

Lemma refine_no_worse mt s s' : refine mem mt s = Ret s' -> Forall2 Result.no_worse (best s) (best s').
Proof.
  unfold refine. destruct (0 <? _).
  - destruct (outcome_fold _ (REFINE_LOCAL_WIRE_FORLOOP _) _) as [p|e] eqn:E1; cbn [outcome_bind]; [|done].
    destruct (outcome_fold _ (REFINE_GLOBAL_WIRE_FORLOOP _) p) as [[s2 temp2]|e] eqn:E2; cbn [outcome_bind]; [|done].
    intros [= <-]. apply refine_fold_no_worse in E1, E2. cbn [fst] in *.
    etransitivity; [exact E1|exact E2].
  - intros [= <-]. reflexivity.
Qed.

(** How a refinement ends early: a wire it sets, or the bank of one of its trials,
    ends the program. *)
Definition trial_exit (mt : MemoryType) (e : string) : Prop :=
  (exists node wt wr temp ls w, Wire_Initialize (F := F) node wt wr temp ls w = Exit e) \/
  (exists g r, built (CALCULATE mem g (retry_args (Globals.inputParameter g) mt (Result.bank r))) = Exit e).

(** [m] only ends early that way. *)
Definition trial_ends {A} (mt : MemoryType) (m : Outcome A) : Prop := forall e, m = Exit e -> trial_exit mt e.

Lemma trial_ends_bind {A B} mt (m : Outcome A) (f : A -> Outcome B) :
  trial_ends mt m -> (forall a, trial_ends mt (f a)) -> trial_ends mt (let? x := m in f x).
Proof.
  intros Hm Hf e. destruct m as [a|e']; cbn [outcome_bind]; [apply Hf|]. intros [= ->]. by apply Hm.
Qed.

Lemma trial_ends_ret {A} mt (a : A) : trial_ends mt (Ret a).
Proof. intros e [=]. Qed.

Lemma trial_ends_wire mt node wt wr temp ls w : trial_ends mt (Wire_Initialize (F := F) node wt wr temp ls w).
Proof. intros e E. left. eauto 10. Qed.

Lemma trial_ends_fold {A S} mt (f : S -> A -> Outcome S) l :
  (forall s x, trial_ends mt (f s x)) -> forall s, trial_ends mt (outcome_fold f l s).
Proof.
  intros Hf. induction l as [|x l IH]; intros s; cbn [outcome_fold]; [apply trial_ends_ret|].
  by apply trial_ends_bind.
Qed.

#[local] Hint Resolve trial_ends_bind trial_ends_ret trial_ends_wire : nscache.

Lemma try_results_ends load mt rs : (forall r g, trial_ends mt (load r g)) ->
  forall g temp, trial_ends mt (try_results mem load mt g temp rs).
Proof.
  intros Hl. induction rs as [|r rs IH]; intros g temp; cbn [try_results]; [apply trial_ends_ret|].
  apply trial_ends_bind; [done|]. intros g1. apply trial_ends_bind.
  - unfold TRY_AND_UPDATE. apply trial_ends_bind; [|eauto with nscache]. intros e E. right. eauto.
  - intros [temp1 r1]. apply trial_ends_bind; [done|]. intros [[g2 temp2] rs2]. apply trial_ends_ret.
Qed.

Lemma refine_step_ends set load mt p w : (forall r g, trial_ends mt (load r g)) ->
  (forall w g, trial_ends mt (set w g)) -> trial_ends mt (refine_step mem set load mt p w).
Proof.
  intros Hl Hs. destruct p as [s temp]. unfold refine_step. apply trial_ends_bind; [done|]. intros g.
  apply trial_ends_bind; [by apply try_results_ends|]. intros [[g2 temp2] rs2]. apply trial_ends_ret.
Qed.

Lemma refine_ends mt s : trial_ends mt (refine mem mt s).
Proof.
  unfold refine. destruct (0 <? _); [|apply trial_ends_ret].
  apply trial_ends_bind; [|intros p; apply trial_ends_bind; [|intros [s2 ?]; apply trial_ends_ret]];
    apply trial_ends_fold; intros p' w; apply refine_step_ends.
  - intros r g. unfold LOAD_GLOBAL_WIRE. eauto with nscache.
  - intros [[wt wr] ls] g. unfold set_local_wire. eauto with nscache.
  - intros r g. unfold LOAD_LOCAL_WIRE. eauto with nscache.
  - intros [[wt wr] ls] g. unfold set_global_wire. eauto with nscache.
Qed.

(** Merging a cell compares its data result with the best so far. *)
Lemma merge_target_data different cell d0 t0 dn tn : Result.cellTech dn = Some cell ->
  fst (merge_target (F := F) different cell (d0, t0) (dn, tn)) = fst (Result.compareAndUpdate d0 dn).
Proof.
  intros Hc. unfold merge_target, Result.compareAndUpdate.
  destruct (Result.within_limits d0 dn && Result.better (Result.optimizationTarget d0) dn d0).
  - assert (E : (Result.take d0 dn) <| Result.cellTech := Some cell |> = Result.take d0 dn)
      by (unfold Result.take; rewrite Hc; reflexivity).
    destruct different; cbn [andb negb]; rewrite E; [|reflexivity].
    destruct (Result.within_limits t0 tn && _); reflexivity.
  - destruct different; cbn [andb]; [|reflexivity]. destruct (Result.within_limits t0 tn && _); reflexivity.
Qed.

(** Unless tags may differ, the tag result follows the cell of the data result. *)
Lemma merge_target_tag cell d0 t0 dn tn : Result.cellTech dn = Some cell ->
  Result.cellTech d0 = Result.cellTech t0 ->
  let m := merge_target (F := F) false cell (d0, t0) (dn, tn) in
  Result.cellTech (fst m) = Result.cellTech (snd m).
Proof.
  intros Hc E. unfold merge_target, Result.compareAndUpdate.
  destruct (Result.within_limits d0 dn && Result.better (Result.optimizationTarget d0) dn d0); [reflexivity|exact E].
Qed.

(** The data results the cells after the first have for target [i]. *)
Definition column (i : nat) (rest : list (MemCell.t F * list (Result.t F * Result.t F))) : list (Result.t F) :=
  omap (fun p => fst <$> (snd p !! i)) rest.

(** Every cell has a result for target [i], of its own technology. *)
Definition swept (i : nat) (rest : list (MemCell.t F * list (Result.t F * Result.t F))) : Prop :=
  forall c new, In (c, new) rest -> exists dn tn, new !! i = Some (dn, tn) /\ Result.cellTech dn = Some c.

Lemma merge_cells_lookup different i rest : forall first d0 t0,
  first !! i = Some (d0, t0) -> swept i rest ->
  exists t, merge_cells different first rest !! i = Some (Result.explore_best (column i rest) d0, t) /\
    (different = false -> Result.cellTech d0 = Result.cellTech t0 ->
     Result.cellTech (Result.explore_best (column i rest) d0) = Result.cellTech t).
Proof.
  induction rest as [|[c new] rest IH]; intros first d0 t0 H0 Hr; [by exists t0|].
  destruct (Hr c new (or_introl eq_refl)) as (dn & tn & En & Hc).
  unfold merge_cells, column. cbn [foldl omap list_omap snd]. rewrite En. cbn [fmap option_fmap option_map fst].
  pose proof (merge_target_data different c d0 t0 dn tn Hc) as Ed.
  pose proof (merge_target_tag c d0 t0 dn tn Hc) as Et.
  destruct (merge_target different c (d0, t0) (dn, tn)) as [d1 t1] eqn:Em. cbn [fst] in Ed.
  rewrite Result.explore_best_cons, <- Ed.
  destruct (IH (zip_with (merge_target different c) first new) d1 t1) as (t & Hl & Hc').
  - rewrite lookup_zip_with, H0, En. exact (f_equal Some Em).
  - intros c' new' Hin. apply Hr. by right.
  - exists t. split; [exact Hl|]. intros -> E. apply Hc'; [done|].
    specialize (Et E). rewrite Em in Et. exact Et.
Qed.

End Improve.

(** ** What the data pass leaves alone *)

Section Frame.
Context {F : Type} {NumF : Num F} {Ops : CircuitOps F}.
Context (mem : Memory F).

Lemma visit_data_globals capacity block assoc accept s d s' :
  visit_data mem capacity block assoc accept s d = Ret s' -> globals s' = globals s.
Proof.
  unfold visit_data, visit. destruct (_ =? 0); [done|]. destruct (_ =? 0); [by intros [= <-]|].
  destruct (built _) as [b|e]; cbn [outcome_bind]; [|done].
  destruct (negb (Bank.invalid b) && accept b); [|by intros [= <-]].
  destruct (capacity_violated _ _ b); [done|]. by intros [= <-].
Qed.

Lemma data_search_globals capacity block assoc accept s s' :
  for_BIGFOR (visit_data mem capacity block assoc accept) s = Some (Ret s') -> globals s' = globals s.
Proof.
  unfold for_BIGFOR. destruct (BIGFOR _) as [l|]; [|done]. intros [= E].
  apply (outcome_fold_inv (fun x => globals x = globals s) _ _ ) in E; [done| |done].
  intros s1 d s2 _ <- E2. symmetry. symmetry. by apply visit_data_globals in E2.
Qed.

(** Loading or setting a wire leaves the technology alone. *)
Definition keeps_tech (g : Globals.t F) (m : Outcome (Globals.t F)) : Prop :=
  yields (fun g' => Globals.tech g' = Globals.tech g) m.

Lemma LOAD_LOCAL_WIRE_tech r g : keeps_tech g (LOAD_LOCAL_WIRE r g).
Proof. by apply yields_any. Qed.

Lemma LOAD_GLOBAL_WIRE_tech r g : keeps_tech g (LOAD_GLOBAL_WIRE r g).
Proof. by apply yields_any. Qed.

Lemma set_local_wire_tech w g : keeps_tech g (set_local_wire w g).
Proof. destruct w as [[? ?] ?]. by apply yields_any. Qed.

Lemma set_global_wire_tech w g : keeps_tech g (set_global_wire w g).
Proof. destruct w as [[? ?] ?]. by apply yields_any. Qed.

Lemma INITIAL_BASIC_WIRE_frame g : yields (fun g' => Globals.tech g' = Globals.tech g /\
  Globals.inputParameter g' = Globals.inputParameter g /\ Globals.cell g' = Globals.cell g) (INITIAL_BASIC_WIRE g).
Proof.
  unfold INITIAL_BASIC_WIRE. destruct (basic_local_wire _) as [[? ?] ?], (basic_global_wire _) as [[? ?] ?].
  do 2 (apply yields_any; intros ?). done.
Qed.

Lemma try_results_tech load mt rs : (forall r g, keeps_tech g (load r g)) ->
  forall g temp g' temp' rs', try_results mem load mt g temp rs = Ret (g', temp', rs') ->
  Globals.tech g' = Globals.tech g.
Proof.
  intros Hload. induction rs as [|r rs IH]; intros g temp g' temp' rs'; cbn [try_results].
  { by intros [= <- <- <-]. }
  pose proof (Hload r g) as Hg. destruct (load r g) as [g0|e]; cbn [outcome_bind]; [|done].
  unfold TRY_AND_UPDATE. destruct (built _) as [b|e]; cbn [outcome_bind]; [|done].
  destruct (try_results mem load mt _ _ rs) as [[[g1 temp1] rs1]|e] eqn:E; cbn [outcome_bind]; [|done].
  intros [= <- <- <-]. by rewrite (IH _ _ _ _ _ E).
Qed.

Lemma refine_fold_tech set load mt l : (forall r g, keeps_tech g (load r g)) ->
  (forall w g, keeps_tech g (set w g)) ->
  forall p p', outcome_fold (refine_step mem set load mt) l p = Ret p' ->
  Globals.tech (globals (fst p')) = Globals.tech (globals (fst p)).
Proof.
  intros Hload Hset. induction l as [|w l IH]; intros [s temp] p'; cbn [outcome_fold]; [by intros [= <-]|].
  unfold refine_step at 1. pose proof (Hset w (globals s)) as Hg.
  destruct (set w (globals s)) as [g0|e]; cbn [outcome_bind]; [|done].
  destruct (try_results mem load mt _ temp (best s)) as [[[g1 temp1] rs1]|e] eqn:E; cbn [outcome_bind]; [|done].
  intros Hp. apply IH in Hp. apply (try_results_tech _ _ _ Hload) in E. cbn [fst] in *.
  rewrite Hp, <- Hg. exact E.
Qed.

Lemma refine_tech mt s s' : refine mem mt s = Ret s' -> Globals.tech (globals s') = Globals.tech (globals s).
Proof.
  unfold refine. destruct (0 <? _); [|by intros [= <-]].
  destruct (outcome_fold _ (REFINE_LOCAL_WIRE_FORLOOP _) _) as [p|e] eqn:E1; cbn [outcome_bind]; [|done].
  destruct (outcome_fold _ (REFINE_GLOBAL_WIRE_FORLOOP _) p) as [[s2 temp2]|e] eqn:E2; cbn [outcome_bind]; [|done].
  intros [= <-].
  apply refine_fold_tech in E1; [|exact LOAD_GLOBAL_WIRE_tech|exact set_local_wire_tech].
  apply refine_fold_tech in E2; [|exact LOAD_LOCAL_WIRE_tech|exact set_global_wire_tech].
  cbn [fst] in *. congruence.
Qed.

Lemma nvsim_data_tech g rs s' : nvsim_data mem g rs = Some (Ret s') -> Globals.tech (globals s') = Globals.tech g.
Proof.
  unfold nvsim_data. destruct (data_config g) as [[[g1 capacity] block] assoc] eqn:Ec.
  assert (Eg : Globals.tech g1 = Globals.tech g).
  { unfold data_config in Ec. repeat case_match; injection Ec as <- _ _ _; reflexivity. }
  pose proof (INITIAL_BASIC_WIRE_frame g1) as Hw. destruct (INITIAL_BASIC_WIRE g1) as [g2|e]; [|done].
  destruct Hw as (Hw & _).
  destruct (for_BIGFOR _ _) as [[s1|e]|] eqn:E1; [|done|done]. apply data_search_globals in E1. cbn in E1.
  destruct (refine mem data s1) as [s2|e] eqn:E2; [|done]. apply refine_tech in E2. rewrite E1 in E2.
  destruct (negb _ && _); [|intros [= <-]; congruence].
  unfold constrained_pass. cbv zeta. pose proof (INITIAL_BASIC_WIRE_frame (globals s2)) as Hw2.
  destruct (INITIAL_BASIC_WIRE (globals s2)) as [g3|e]; [|done]. destruct Hw2 as (Hw2 & _).
  intros E3. apply data_search_globals in E3. rewrite E3.
  change (Globals.tech g3 = Globals.tech g). congruence.
Qed.

End Frame.
End ExploreFacts.
