(* ===== verification/Demo.v ===== *)
(** * A runnable instance

    Concrete leaf components on binary64 and a small configuration, on which
    the witnesses of the theorems are evaluated.  The numbers are chosen for
    the runs, not taken from a technology. *)
From S2P Require Import Prelude Numeric FloatNum Types InputParameter Search Circuit SubArray Bank.
From S2P Require Import BankWithHtree BankWithoutHtree Result Explore.
From stdpp Require Import base list strings.
From Stdlib Require Import ZArith Lia Floats.
Open Scope Z_scope.

Module Demo.

Definition fu0 : FunctionUnit.t float := FunctionUnit.FunctionUnit.
Definition zero : float := of_Z 0.
Definition one : float := of_Z 1.

Definition predecode0 : PredecodeBlock.t float := PredecodeBlock.mk fu0 0 zero.
Definition comparator0 : Comparator.t float := Comparator.mk fu0.
Definition tsv0 : TSV.t float := TSV.mk fu0 0 0 0 0.
Definition mux0 : Mux.t float := Mux.mk fu0 zero zero zero.
Definition amp0 : SenseAmp.t float := SenseAmp.mk fu0 false zero zero.

(** A square mat with unit latencies. *)
Definition unit_mat (rows columns : Z) : Mat.t float :=
  Mat.mk (fu0 <| FunctionUnit.height := one |> <| FunctionUnit.width := one |>
              <| FunctionUnit.readLatency := one |> <| FunctionUnit.writeLatency := one |>
              <| FunctionUnit.refreshLatency := one |> <| FunctionUnit.leakage := one |>
              <| FunctionUnit.readDynamicEnergy := one |> <| FunctionUnit.writeDynamicEnergy := one |>)
    false rows columns zero zero zero zero one zero zero zero zero zero zero zero zero zero zero zero zero 1.

Definition wire0 (t : WireType) (r : WireRepeaterType) (s : bool) : Wire.t float :=
  Wire.mk t r s one one zero zero zero.

(** A conservative global wire is slow and does not leak; every other wire is
    fast and leaks. *)
Definition wire_cost (w : Wire.t float) (length : float) : float * float * float :=
  if bool_decide (Wire.wireType w = global_conservative)
  then (of_Z 100, zero, zero) else (one, zero, one).

#[global] Instance demo_ops : CircuitOps float := {|
  Technology_SetLayerCount := fun _ n t => Ret (t <| Technology.layerCount := n |>);
  Wire_Initialize := fun _ t r _ s _ => Ret (wire0 t r s);
  Wire_CalculateLatencyAndPower := fun w l => Ret (wire_cost w l);
  PredecodeBlock_Initialize := fun _ n _ _ => Ret (predecode0 <| PredecodeBlock.numAddressBit := n |>);
  PredecodeBlock_CalculateArea := fun _ b => Ret b;
  PredecodeBlock_CalculateRC := fun _ b => Ret b;
  PredecodeBlock_CalculateLatency := fun _ _ b => Ret b;
  PredecodeBlock_CalculatePower := fun _ b => Ret b;
  Comparator_Initialize := fun _ _ _ => Ret comparator0;
  Comparator_CalculateArea := fun _ b => Ret b;
  Comparator_CalculateRC := fun _ b => Ret b;
  Comparator_CalculateLatency := fun _ _ b => Ret b;
  Comparator_CalculatePower := fun _ b => Ret b;
  TSV_Initialize := fun _ _ t => Ret t;
  TSV_CalculateArea := fun _ t => Ret t;
  TSV_CalculateLatencyAndPower := fun _ _ _ t => Ret t;
  Mux_Initialize := fun _ _ _ _ _ _ => Ret mux0;
  Mux_CalculateArea := fun _ m => Ret m;
  Mux_CalculateRC := fun _ m => Ret m;
  Mux_CalculateLatency := fun _ _ m => Ret m;
  Mux_CalculatePower := fun _ m => Ret m;
  SenseAmp_Initialize := fun _ _ _ _ _ => Ret amp0;
  SenseAmp_CalculateArea := fun _ a => Ret a;
  SenseAmp_CalculateRC := fun _ a => Ret a;
  SenseAmp_CalculateLatency := fun _ _ a => Ret a;
  SenseAmp_CalculatePower := fun _ a => Ret a;
  Mat_Initialize := fun _ r c _ _ _ _ _ _ _ _ _ => Ret (unit_mat r c);
  Mat_CalculateArea := fun _ m => Ret m;
  Mat_CalculateLatency := fun _ _ m => Ret m;
  Mat_CalculatePower := fun _ m => Ret m
|}.

#[global] Instance demo_laws : CircuitLaws float.
Proof. split; done. Qed.

#[global] Instance demo_order : NumOrder float := float_order demo_libm.

(** Uninitialised memory: any values do. *)
Definition raw_subarray : SubArray.t float :=
  SubArray.mk fu0 false false false 0 0 0 0 0 0 false 0 0 0 0 0 latency_first data 0 0 0 zero zero
    (unit_mat 0 0) predecode0 predecode0 predecode0 predecode0 predecode0 predecode0 predecode0
    predecode0 comparator0 tsv0.

Definition raw_bank : Bank.t float :=
  Bank.mk fu0 false false false 0 0 0 0 0 0 0 0 0 0 0 0 0 0 0 latency_first data 0 0
    zero zero zero zero zero zero zero zero zero zero zero raw_subarray tsv0.

Definition memory : Explore.Memory float :=
  Explore.mkMemory (BankWithHtree.mk raw_bank 0 0 0 0 0 [] [] [] [])
    (BankWithoutHtree.mk raw_bank 0 0 0 0 mux0 amp0 comparator0)
    (wire0 local_aggressive repeated_none false) (wire0 local_aggressive repeated_none false).

(** A one kilobyte memory of 64-bit words, searched over at most 2x2 subarrays. *)
Definition ip (routing : RoutingMode) : InputParameter.t float :=
  (InputParameter.InputParameter 1024 64 300 HP zero false)
    <| InputParameter.routingMode := routing |>
    <| InputParameter.maxNumRowSubArray := 2 |> <| InputParameter.maxNumColumnSubArray := 2 |>
    <| InputParameter.maxNumActiveSubArrayPerRow := 2 |>
    <| InputParameter.maxNumActiveSubArrayPerColumn := 2 |>
    <| InputParameter.minNumRowMat := 1 |> <| InputParameter.maxNumRowMat := 1 |>
    <| InputParameter.minNumColumnMat := 1 |> <| InputParameter.maxNumColumnMat := 1 |>
    <| InputParameter.minNumActiveMatPerRow := 1 |> <| InputParameter.maxNumActiveMatPerRow := 1 |>
    <| InputParameter.minNumActiveMatPerColumn := 1 |> <| InputParameter.maxNumActiveMatPerColumn := 1 |>
    <| InputParameter.maxMuxSenseAmp := 2 |> <| InputParameter.maxMuxOutputLev1 := 1 |>
    <| InputParameter.maxMuxOutputLev2 := 1 |> <| InputParameter.maxStackLayer := 1 |>
    <| InputParameter.maxAreaOptimizationLevel := 0 |>.

Definition cell (t : MemCellType) (retention : Z) : MemCell.t float :=
  MemCell.mk t true zero zero zero zero zero zero (of_Z retention) one one.

Definition globals (routing : RoutingMode) (c : MemCell.t float) : Globals.t float :=
  Globals.mk (ip routing) (Technology.mk 90 one 2) c
    (wire0 local_aggressive repeated_none false) (wire0 global_aggressive repeated_none false).

(** The results before the search, one per target. *)
Definition start (g : Globals.t float) : Explore.State float :=
  Explore.mkState g 0 0
    (Explore.start_results g (replicate 10 (Explore.fresh_result memory g))).

(** The search finds valid designs in both routing modes. *)
Example demo_tree_runs :
  match Explore.for_BIGFOR (Explore.visit_data memory (128 * 64) 64 1 (fun _ => true))
          (start (globals h_tree (cell SRAM 1))) with
  | Some (Ret s) => (Explore.numSolution s, Explore.numDesigns s)
  | _ => (0, 0)
  end = (18, 18).
Proof. vm_compute. reflexivity. Qed.

Example demo_flat_runs :
  match Explore.for_BIGFOR (Explore.visit_data memory (128 * 64) 64 1 (fun _ => true))
          (start (globals non_h_tree (cell SRAM 1))) with
  | Some (Ret s) => (Explore.numSolution s, Explore.numDesigns s)
  | _ => (0, 0)
  end = (18, 18).
Proof. vm_compute. reflexivity. Qed.

End Demo.
