(* ===== verification/Metrics.v ===== *)
(** * Derived metrics

    What the report derives from the results, on exact reals: the latencies of
    the cache access modes, the conversion to clock cycles, the layout of a
    component under a forced dimension; and on binary64 the bandwidth of a
    result that holds no design. *)
From S2P Require Import Prelude Numeric RealNum FloatNum Types InputParameter Circuit SubArray Bank Result.
From S2P Require Import Explore Demo.
From stdpp Require Import base list.
From Stdlib Require Import ZArith Lia Reals Lra Zfloor Floats.
Open Scope R_scope.

Module Metrics.
Import Result.

(** ** Reals *)

Lemma MAX_real (a b : R) : MAX a b = Rmax a b.
Proof.
  unfold MAX. cbn. unfold Rltb, Rmax. destruct (Rlt_dec b a), (Rle_dec a b); lra.
Qed.

Lemma lit_pow (m e : Z) : (0 <= e)%Z -> lit m e = IZR m * powerRZ 10 e :> R.
Proof. intros He. unfold lit, R_num. by rewrite (proj2 (Z.leb_le 0 e)). Qed.

Lemma trunc_ceil (x : R) : 0 < x -> trunc (nceil x) = (- Zfloor (- x))%Z.
Proof.
  intros Hx. apply Rtrunc_unique.
  - pose proof (Zfloor_bound (- x)) as [Hl _].
    assert (IZR (Zfloor (- x)) < 0) by lra. apply lt_IZR in H. lia.
  - cbn. lra.
Qed.

Lemma ceil_bounds (x : R) : x <= IZR (- Zfloor (- x)) < x + 1.
Proof. pose proof (Zfloor_bound (- x)). rewrite opp_IZR. lra. Qed.

(** ** Claims *)

(** The lookup of a cache never finishes a hit before it knows of a miss, and
    the modes are ordered as documented: the fast mode, which overlaps tag and
    data, is at most the normal mode, which waits to select the way, and this one
    is at most the sequential mode plus the column selection. *)
Theorem access_mode_latencies (r tagResult : t R) :
  let tag := metric FunctionUnit.readLatency tagResult in
  let data := metric FunctionUnit.readLatency r in
  let sub := FunctionUnit.readLatency (SubArray.fu (Bank.subarray (bank r))) in
  let column := Mat.columnDecoderLatency (SubArray.mat (Bank.subarray (bank r))) in
  let hit mode := cacheHitLatency (cacheMetrics mode r tagResult) in
  0 <= tag -> 0 <= sub <= data -> 0 <= column ->
  cacheMissLatency (cacheMetrics fast_access_mode r tagResult) <= hit fast_access_mode <= hit normal_access_mode /\
  hit normal_access_mode <= hit sequential_access_mode + column.
Proof.
  intros tag data sub column hit Htag Hsub Hcol. subst hit.
  unfold cacheMetrics. cbn [cacheHitLatency cacheMissLatency]. fold tag data sub column.
  rewrite !MAX_real. cbn. unfold Rmax. destruct (Rle_dec tag data), (Rle_dec tag sub); lra.
Qed.

(** A result over the reals with the given read latency, and one for its mat. *)
Definition real_unit (x : R) : FunctionUnit.t R := FunctionUnit.FunctionUnit <| FunctionUnit.readLatency := x |>.
Definition real_pre : PredecodeBlock.t R := PredecodeBlock.mk (real_unit 0) 0 0.
Definition real_mat (x : R) : Mat.t R :=
  Mat.mk (real_unit x) false 0 0 x 0 0 0 0 0 0 0 0 0 0 0 0 0 0 0 0 1%Z.
Definition real_subarray (x : R) : SubArray.t R :=
  SubArray.mk (real_unit x) false false false 0 0 0 0 0 0 false 0 0 0 0 0 latency_first data 0 0 0 0 0
    (real_mat x) real_pre real_pre real_pre real_pre real_pre real_pre real_pre real_pre
    (Comparator.mk (real_unit 0)) (TSV.mk (real_unit 0) 0 0 0 0).
Definition real_bank (x y : R) : Bank.t R :=
  Bank.mk (real_unit x) false false false 0 0 0 0 0 0 0 0 0 0 0 0 0 0 0 latency_first data 0 0
    0 0 0 0 0 0 0 0 0 0 0 (real_subarray y) (TSV.mk (real_unit 0) 0 0 0 0).
Definition real_wire : Wire.t R := Wire.mk local_aggressive repeated_none false 0 0 0 0 0.
Definition real_result (x y : R) : t R :=
  (Result (real_bank x y) real_wire real_wire (MemCell.mk SRAM true 0 0 0 0 0 0 0 1 1)) <| bank := real_bank x y |>.

Lemma access_mode_latencies_witness :
  let r := real_result 3 2 in
  let tagResult := real_result 1 1 in
  let hit mode := cacheHitLatency (cacheMetrics mode r tagResult) in
  cacheMissLatency (cacheMetrics fast_access_mode r tagResult) <= hit fast_access_mode <= hit normal_access_mode /\
  hit normal_access_mode <= hit sequential_access_mode + 2.
Proof. apply (access_mode_latencies (real_result 3 2) (real_result 1 1)); cbn; lra. Defined.

(** The conversion to cycles rounds up and saturates: a positive time takes the
    least number of cycles that covers it, no time takes none, and the result is
    always a 64-bit value. *)
Theorem cycles_round_up (clockFreq seconds : R) :
  (0 <= cycles clockFreq seconds <= 2 ^ 64 - 1)%Z /\
  (0 < seconds * clockFreq <= IZR (2 ^ 64 - 2) ->
   seconds * clockFreq <= IZR (cycles clockFreq seconds) < seconds * clockFreq + 1) /\
  (seconds * clockFreq <= 0 -> cycles clockFreq seconds = 0%Z).
Proof.
  unfold cycles. change (nceil (seconds * clockFreq)%num) with (IZR (- Zfloor (- (seconds * clockFreq)))).
  pose proof (ceil_bounds (seconds * clockFreq)) as Hc.
  set (x := seconds * clockFreq) in *. set (n := (- Zfloor (- x))%Z) in *.
  change (negb (nfinite (IZR n))) with false. cbn [orb].
  change (IZR n <=? #0)%num with (Rleb (IZR n) 0). change (#uint64_max <=? IZR n)%num with (Rleb (IZR uint64_max) (IZR n)).
  destruct (Rleb (IZR n) 0) eqn:E0.
  { apply Rleb_true in E0. split; [lia|]. split; [intros Hx; lra|done]. }
  assert (Hn : (0 < n)%Z).
  { destruct (Z.lt_ge_cases 0 n) as [|Hn]; [done|]. apply IZR_le in Hn. by apply Rleb_true in Hn; rewrite Hn in E0. }
  destruct (Rleb (IZR uint64_max) (IZR n)) eqn:E1.
  - apply Rleb_true, le_IZR in E1. unfold uint64_max in *. split; [lia|]. split.
    + intros Hx. assert (IZR n < IZR (2 ^ 64 - 2) + 1) by lra. rewrite <- plus_IZR in H. apply lt_IZR in H. lia.
    + intros Hx. assert (IZR n < 1) by lra. apply lt_IZR in H. lia.
  - assert (Hlt : (n < uint64_max)%Z).
    { destruct (Z.lt_ge_cases n uint64_max) as [|Hge]; [done|]. apply IZR_le in Hge.
      by apply Rleb_true in Hge; rewrite Hge in E1. }
    assert (Et : trunc (IZR n) = n) by (apply Rtrunc_unique; [lia|lra]). rewrite Et.
    unfold uint64_max in *. split; [lia|]. split; [done|].
    intros Hx. assert (IZR n < 1) by lra. apply lt_IZR in H. lia.
Qed.

(** Giving a component a new height or width keeps its area. *)
Theorem MagicLayout_keeps_area (u : FunctionUnit.t R) :
  FunctionUnit.newHeight u <> 0 \/ FunctionUnit.newWidth u <> 0 ->
  let u' := FunctionUnit.MagicLayout u in
  FunctionUnit.height u' * FunctionUnit.width u' = FunctionUnit.area u /\
  (FunctionUnit.newHeight u <> 0 -> FunctionUnit.height u' = FunctionUnit.newHeight u) /\
  FunctionUnit.area u' = FunctionUnit.area u.
Proof.
  intros Hne. unfold FunctionUnit.MagicLayout, FunctionUnit.nonzero. cbn. unfold Reqb.
  destruct (Req_dec_T (FunctionUnit.newHeight u) 0) as [E|E]; cbn.
  - destruct (Req_dec_T (FunctionUnit.newWidth u) 0) as [E'|E']; cbn; [tauto|].
    split; [by field|]. split; [done|reflexivity].
  - split; [by field|]. split; reflexivity.
Qed.

Lemma MagicLayout_keeps_area_witness :
  let u := FunctionUnit.FunctionUnit <| FunctionUnit.area := 6 |> <| FunctionUnit.newHeight := 2 |> in
  let u' := FunctionUnit.MagicLayout u in
  FunctionUnit.height u' * FunctionUnit.width u' = FunctionUnit.area u /\
  (FunctionUnit.newHeight u <> 0 -> FunctionUnit.height u' = FunctionUnit.newHeight u) /\
  FunctionUnit.area u' = FunctionUnit.area u.
Proof.
  intros u. apply (MagicLayout_keeps_area u). left. cbn. lra.
Defined.

(** On binary64 a result that was reset has no bandwidth, although the timing
    of the mat it held before is left in place; it therefore loses to every
    candidate that moves data. *)
Theorem reset_has_no_bandwidth (lm : Libm) (r : t float) :
  @getReadBandwidth float (float_num lm) (@reset float (float_num lm) r) = 0%float /\
  @getWriteBandwidth float (float_num lm) (@reset float (float_num lm) r) = 0%float.
Proof.
  split; unfold getReadBandwidth, getWriteBandwidth;
    change (cellTech (@reset float (float_num lm) r)) with (cellTech r); destruct (cellTech r); reflexivity.
Qed.

End Metrics.
