(* ===== verification/Correctness.v ===== *)
(** * Correctness of the exploration

    The main statements about the search, on any arithmetic that computes the
    integers of the geometry exactly (binary64 and the reals do), for any leaf
    components that keep the dimensions of their mats.  A leaf component may end
    the program: the statements say where that shows. *)
From S2P Require Import Prelude Numeric FloatNum Types InputParameter Search Circuit SubArray Htree.
From S2P Require Import Bank BankWithHtree BankWithoutHtree Geometry Result Explore ExploreFacts Demo.
From stdpp Require Import base list strings.
From Stdlib Require Import ZArith Lia Floats.
Open Scope Z_scope.

Module Correctness.
Import Geometry Explore ExploreFacts.

(** ** The demonstration space is a search over powers of two *)

Lemma pow2_at k x : 0 <= k -> x = 2 ^ k -> pow2 x.
Proof. intros Hk E. by exists k. Qed.

Lemma demo_search_ok routing : search_ok (Demo.ip routing) 128 1.
Proof.
  assert (P0 : pow2 1) by (apply (pow2_at 0); [lia|reflexivity]).
  assert (P7 : pow2 128) by (apply (pow2_at 7); [lia|reflexivity]).
  split; cbn -[Z.pow Z.mul]; done || lia.
Qed.

Lemma demo_in_space routing :
  in_space (Demo.ip routing) (Design.mk 2 2 1 1 2 1 1 1 1 1 1 1 1 0).
Proof.
  unfold in_space; cbn. repeat split; try lia;
    first [exists 0; cbn; lia|exists 1; cbn; lia].
Qed.

(** ** The data search *)

(** C1: the data search of [nvsim] over a space whose bounds, words, block and
    associativity are powers of two within the integer widths ([search_ok]) and
    that is sensed internally if routed by an H-tree.  Either no circuit of any
    design of the space ends the program; then the search returns, its results
    are those of [compareAndUpdate] applied, per target, to exactly the valid and
    accepted designs of the space, and it counts them.  Or the search stops at
    the first design, in the order of the loops, one of whose circuits ends the
    program, with the message of that circuit.  The explorer itself neither exits
    on a capacity violation nor has undefined behaviour. *)
Theorem data_search_refines {F} {NumF : Num F} {NI : NumInt F} {Ops : CircuitOps F}
  {Laws : CircuitLaws F} (mem : Memory F) words block assoc accept s :
  let ip := Globals.inputParameter (globals s) in
  let run := for_BIGFOR (visit_data mem (words * block) block assoc accept) s in
  let exits := data_exit mem (words * block) block assoc (globals s) in
  (InputParameter.routingMode ip = h_tree -> InputParameter.internalSensing ip = true) ->
  search_ok ip words assoc -> pow2 block -> block < 2 ^ 31 -> words * block < 2 ^ 53 ->
  (exists s' cands, run = Some (Ret s') /\
    (forall c, In c cands <-> exists d, in_space ip d /\
       data_candidate mem (words * block) block assoc accept (globals s) d = Some c) /\
    globals s' = globals s /\ numSolution s' = numSolution s + Z.of_nat (length cands) /\
    best s' = map (Result.explore_best cands) (best s) /\
    forall d, in_space ip d -> exits d = None) \/
  (exists pre d post e, BIGFOR ip = Some (pre ++ d :: post) /\ in_space ip d /\
    (forall x, In x pre -> exits x = None) /\ exits d = Some e /\ run = Some (Exit e)).
Proof.
  intros ip run exits Hint Hs Pb Hb Hw.
  destruct (data_search_spec mem words block assoc accept s Hint Hs Pb Hb Hw)
    as [(s' & cands & E & G & [N B] & Hin & Hex)|H]; [left|by right].
  exists s', cands. repeat (split; [done|]). done.
Qed.

(** On the demonstration space no circuit ends the program: 18 designs are scored. *)
Lemma data_search_refines_witness :
  let s := Demo.start (Demo.globals h_tree (Demo.cell SRAM 1)) in
  exists s' cands,
    for_BIGFOR (visit_data Demo.memory (128 * 64) 64 1 (fun _ => true)) s = Some (Ret s') /\
    (forall c, In c cands <-> exists d, in_space (Demo.ip h_tree) d /\
       data_candidate Demo.memory (128 * 64) 64 1 (fun _ => true) (globals s) d = Some c) /\
    numSolution s' = 18 /\ length cands = 18%nat /\ best s' = map (Result.explore_best cands) (best s).
Proof.
  destruct (data_search_refines Demo.memory 128 64 1 (fun _ => true)
              (Demo.start (Demo.globals h_tree (Demo.cell SRAM 1))))
    as [(s' & cands & E & Hin & _ & N & B & _)|(pre & d & post & e & _ & _ & _ & _ & E)].
  - intros _. reflexivity.
  - apply demo_search_ok.
  - apply (pow2_at 6); [lia|reflexivity].
  - reflexivity.
  - reflexivity.
  - exists s', cands. pose proof Demo.demo_tree_runs as Hrun. rewrite E in Hrun. injection Hrun as Hn _.
    rewrite Hn in N. change (numSolution _) with 0 in N.
    split; [exact E|]. split; [exact Hin|]. split; [exact Hn|]. split; [lia|exact B].
  - pose proof Demo.demo_tree_runs as Hrun. rewrite E in Hrun. discriminate Hrun.
Defined.

(** C2: after the data search no valid design of the space that respects the
    limits of a result beats it on its optimisation target, and the result is
    either untouched or has the scores of such a design.  The comparison only
    has to be a strict order, which binary64 is even with NaNs.  The search
    returns unless a circuit of a design of the space ends the program. *)
Theorem data_search_optimal {F} {NumF : Num F} {NI : NumInt F} {Ord : NumOrder F}
  {Ops : CircuitOps F} {Laws : CircuitLaws F} (mem : Memory F) words block assoc accept s :
  let ip := Globals.inputParameter (globals s) in
  let candidate := data_candidate mem (words * block) block assoc accept (globals s) in
  (InputParameter.routingMode ip = h_tree -> InputParameter.internalSensing ip = true) ->
  search_ok ip words assoc -> pow2 block -> block < 2 ^ 31 -> words * block < 2 ^ 53 ->
  match for_BIGFOR (visit_data mem (words * block) block assoc accept) s with
  | Some (Ret s') =>
      Forall2 (fun r r' =>
        Result.optimizationTarget r' = Result.optimizationTarget r /\
        (forall d c, in_space ip d -> candidate d = Some c -> Result.within_limits r c = true ->
           Result.better (Result.optimizationTarget r) c r' = false) /\
        (Result.same_scores r' r \/
         exists d c, in_space ip d /\ candidate d = Some c /\ Result.within_limits r c = true /\
           Result.same_scores r' c)) (best s) (best s')
  | Some (Exit e) => exists d, in_space ip d /\ data_exit mem (words * block) block assoc (globals s) d = Some e
  | None => False
  end.
Proof.
  intros ip candidate Hint Hs Pb Hb Hw.
  destruct (data_search_spec mem words block assoc accept s Hint Hs Pb Hb Hw)
    as [(s' & cands & -> & _ & [_ Hbest] & Hin & _)|(pre & d & post & e & _ & Hd & _ & Ed & ->)]; [|by exists d].
  rewrite Hbest. apply Forall2_fmap_r, Forall_Forall2_diag, Forall_forall.
  intros r _. destruct (Result.explore_best_frame cands r) as [Et _]. split; [done|]. split.
  - intros d c Hd Hc Hl. apply Result.explore_best_optimal; [|done]. apply Hin. by exists d.
  - destruct (Result.explore_best_origin cands r) as [Hsame|(_ & c & Hc & Hl & Hsame)]; [by left|right].
    apply Hin in Hc as (d & Hd & Hc). by exists d, c.
Qed.

Lemma data_search_optimal_witness :
  let s := Demo.start (Demo.globals non_h_tree (Demo.cell SRAM 1)) in
  let candidate := data_candidate Demo.memory (128 * 64) 64 1 (fun _ => true) (globals s) in
  exists s', for_BIGFOR (visit_data Demo.memory (128 * 64) 64 1 (fun _ => true)) s = Some (Ret s') /\
    Forall2 (fun r r' =>
      Result.optimizationTarget r' = Result.optimizationTarget r /\
      (forall d c, in_space (Demo.ip non_h_tree) d -> candidate d = Some c ->
         Result.within_limits r c = true -> Result.better (Result.optimizationTarget r) c r' = false) /\
      (Result.same_scores r' r \/
       exists d c, in_space (Demo.ip non_h_tree) d /\ candidate d = Some c /\
         Result.within_limits r c = true /\ Result.same_scores r' c)) (best s) (best s').
Proof.
  intros s candidate.
  pose proof (data_search_optimal Demo.memory 128 64 1 (fun _ => true) s
    ltac:(intros Hr; discriminate Hr) (demo_search_ok non_h_tree) (pow2_at 6 64 ltac:(lia) eq_refl)
    eq_refl eq_refl) as H.
  pose proof Demo.demo_flat_runs as Hrun. fold s in Hrun.
  destruct (for_BIGFOR _ s) as [[s'|e]|]; [|discriminate Hrun|discriminate Hrun].
  exists s'. split; [reflexivity|exact H].
Defined.

(** ** What a bank stores *)


(** A 2x2 bank of 64-bit words on two dies, one subarray of each row active. *)
Definition demo_args (mt : MemoryType) : BankArgs.t :=
  BankArgs.mk 2 2 (128 * 64) 64 2 1 1 2 2 true 1 1 1 2 1 1 latency_first mt 2 0 1.
Definition demo_org : org := mkOrg 1 1 1 0 0 1 0 0 1 0 0 0 1 1 5.

Lemma demo_organised mt : organised (demo_args mt) demo_org.
Proof.
  split; cbn -[Z.pow Z.mul]; try reflexivity; try lia.
  - destruct mt; lia.
  - destruct mt; apply (splits_pow2 6); lia.
Qed.



(** ** The tag search *)

(** C8: the tag search over a space of powers of two ([search_ok]; words of at
    least eight bits, fewer than [2^46] of them, internal sensing if routed by an
    H-tree), although the padded tag word is not a power of two.  If it returns,
    every design of the space was built in turn, with the technology set to its
    own number of dies and the exact capacity of its padded tags, and the results
    are those of [compareAndUpdate] on the valid banks, which it counts.  It
    exits only with the message of a circuit of one of these banks or of setting
    their number of dies: not on a capacity violation, and without undefined
    behaviour of its own. *)
Theorem tag_search_completes {F} {NumF : Num F} {NI : NumInt F} {Ops : CircuitOps F}
  {Laws : CircuitLaws F} (mem : Memory F) words s :
  let ip := Globals.inputParameter (globals s) in
  (InputParameter.routingMode ip = h_tree -> InputParameter.internalSensing ip = true) ->
  search_ok ip words (InputParameter.associativity ip) ->
  pow2 (InputParameter.wordWidth ip) -> 8 <= InputParameter.wordWidth ip ->
  InputParameter.capacity ip * 8 = words * InputParameter.wordWidth ip ->
  words * InputParameter.wordWidth ip < 2 ^ 53 -> words < 2 ^ 46 ->
  exists space, BIGFOR ip = Some space /\ (forall d, In d space <-> in_space ip d) /\
  match for_BIGFOR (visit_tag mem) s with
  | Some (Ret s') => exists gs cands, Forall2 (tag_globals ip) space gs /\
      cands = omap (fun p => candidate_of mem (fun _ => true) (snd p) (tag_args ip words (fst p))) (zip space gs) /\
      numSolution s' = numSolution s + Z.of_nat (length cands) /\
      best s' = map (Result.explore_best cands) (best s)
  | Some (Exit e) => exists d, In d space /\
      ((exists tech, Technology_SetLayerCount ip (Design.stackedDieCount d) tech = Exit e) \/
       exists g, tag_globals ip d g /\ exit_of mem g (tag_args ip words d) = Some e)
  | None => False
  end.
Proof.
  intros ip H1 H2 H3 H4 H5 H6 H7.
  destruct (tag_search_spec mem words s H1 H2 H3 H4 H5 H6 H7) as (space & Eb & Hsp & Hrun).
  exists space. split; [done|]. split; [done|].
  destruct (for_BIGFOR (visit_tag mem) s) as [[s'|e]|]; [|done|done].
  destruct Hrun as (gs & Hgs & [N B]). eexists gs, _. repeat (split; [done|]). done.
Qed.

Example demo_tag_runs :
  match for_BIGFOR (visit_tag Demo.memory) (Demo.start (Demo.globals h_tree (Demo.cell SRAM 1))) with
  | Some (Ret s) => (numSolution s, numDesigns s)
  | _ => (0, 0)
  end = (8, 18).
Proof. vm_compute. reflexivity. Qed.

(** The demonstration cache: 18 tag designs are built and 8 are valid. *)
Lemma tag_search_completes_witness :
  let ip := Demo.ip h_tree in
  let s := Demo.start (Demo.globals h_tree (Demo.cell SRAM 1)) in
  exists space s' gs cands, BIGFOR ip = Some space /\ (forall d, In d space <-> in_space ip d) /\
    for_BIGFOR (visit_tag Demo.memory) s = Some (Ret s') /\ Forall2 (tag_globals ip) space gs /\
    cands = omap (fun p => candidate_of Demo.memory (fun _ => true) (snd p) (tag_args ip 128 (fst p))) (zip space gs) /\
    length cands = 8%nat /\ best s' = map (Result.explore_best cands) (best s).
Proof.
  intros ip s.
  destruct (tag_search_completes Demo.memory 128 (Demo.start (Demo.globals h_tree (Demo.cell SRAM 1))))
    as (space & Eb & Hsp & H).
  - intros _. reflexivity.
  - apply demo_search_ok.
  - apply (pow2_at 6); [lia|reflexivity].
  - lazy; discriminate.
  - reflexivity.
  - reflexivity.
  - reflexivity.
  - fold s in H. pose proof demo_tag_runs as Hrun. fold s in Hrun.
    destruct (for_BIGFOR _ s) as [[s'|e]|]; [|discriminate Hrun|discriminate Hrun].
    injection Hrun as Hn _. destruct H as (gs & cands & Hgs & Ec & N & B).
    exists space, s', gs, cands. rewrite Hn in N. change (numSolution s) with 0 in N.
    split; [exact Eb|]. split; [exact Hsp|]. split; [reflexivity|]. split; [exact Hgs|].
    split; [exact Ec|]. split; [lia|exact B].
Defined.

(** A tag word holds exactly what the 48-bit address leaves: tag, index and
    offset bits plus valid and dirty make 50, for every cache of powers of two,
    and the padding is the least multiple of the active mats that holds it. *)
Theorem tag_word_exact {F} {NumF : Num F} {NI : NumInt F} (ip : InputParameter.t F) words product :
  pow2 words -> pow2 (InputParameter.associativity ip) -> pow2 (InputParameter.wordWidth ip) ->
  8 <= InputParameter.wordWidth ip -> InputParameter.associativity ip <= words ->
  words < 2 ^ 31 * InputParameter.associativity ip ->
  InputParameter.capacity ip * 8 = words * InputParameter.wordWidth ip ->
  words * InputParameter.wordWidth ip < 2 ^ 53 -> 0 < product <= tag_bits ip ->
  tag_bits ip + (Z.log2 words - Z.log2 (InputParameter.associativity ip))
    + Z.log2 (Z.quot (InputParameter.wordWidth ip) 8) = TOTAL_ADDRESS_BIT + 2 /\
  (exists q, tag_block (tag_bits ip) product = q * product) /\
  tag_bits ip <= tag_block (tag_bits ip) product < tag_bits ip + product.
Proof.
  intros Pw Pa Pb H8 Hle Hsets Hcap Hsmall Hp.
  destruct (tag_bits_exact ip words Pw Pa Pb H8 Hle Hsets Hcap Hsmall) as [E _].
  split; [|by apply tag_block_spec]. rewrite E.
  destruct (pow2_log2 _ Pb) as [Eb Lb]. set (k := Z.log2 (InputParameter.wordWidth ip)) in *.
  assert (Hk : 3 <= k) by (subst k; change 3 with (Z.log2 8); by apply Z.log2_le_mono).
  rewrite Eb. change 8 with (2 ^ 3). rewrite quot_pow2, Z.log2_pow2 by lia.
  unfold TOTAL_ADDRESS_BIT. lia.
Qed.

Lemma tag_word_exact_witness :
  let ip := Demo.ip h_tree in
  tag_bits ip + (Z.log2 128 - Z.log2 1) + Z.log2 (Z.quot 64 8) = TOTAL_ADDRESS_BIT + 2 /\
  (exists q, tag_block (tag_bits ip) 4 = q * 4) /\
  tag_bits ip <= tag_block (tag_bits ip) 4 < tag_bits ip + 4.
Proof.
  apply (tag_word_exact (Demo.ip h_tree) 128 4).
  - apply (pow2_at 7); [lia|reflexivity].
  - apply (pow2_at 0); [lia|reflexivity].
  - apply (pow2_at 6); [lia|reflexivity].
  - lazy; discriminate.
  - lazy; discriminate.
  - reflexivity.
  - reflexivity.
  - reflexivity.
  - split; vm_compute; [reflexivity|discriminate].
Defined.

(** ** The search space *)

(** C31: the nest of fourteen loops ends on every well-posed space and enumerates
    exactly its points: every count doubles from its minimum, the active counts
    are clipped by the totals, and no [int] overflows on the way. *)
Theorem search_space_enumerated {F} `{Num F} (ip : InputParameter.t F) :
  bounds_ok ip -> exists space, BIGFOR ip = Some space /\ forall d, In d space <-> in_space ip d.
Proof. apply BIGFOR_ends. Qed.

Lemma search_space_enumerated_witness :
  exists space, BIGFOR (Demo.ip h_tree) = Some space /\ forall d, In d space <-> in_space (Demo.ip h_tree) d.
Proof. apply search_space_enumerated. apply (so_bounds _ _ _ (demo_search_ok h_tree)). Defined.

(** C32: the bounds the program itself sets, before reading the configuration and
    for the tag search.  With a least number of dies that is a power of two, a power of
    two of words, at least one for each way and die and fewer than 2^31 sets, and an
    associativity that is a power of two, they form a space of powers of two without
    [int] overflow for the data exactly up to 64 ways, and for the tags exactly up to
    4096: at 128 ways the three column multiplexers and the ways already multiply to
    2^31. *)
Theorem program_bounds_searchable {F} `{Num F} (ip : InputParameter.t F) words :
  pow2 (InputParameter.minStackLayer ip) -> InputParameter.maxStackLayer ip < 2 ^ 30 ->
  pow2 (InputParameter.associativity ip) -> pow2 words ->
  InputParameter.associativity ip * InputParameter.maxStackLayer ip <= words ->
  words < 2 ^ 31 * InputParameter.associativity ip ->
  (search_ok (InputParameter.RESTORE_SEARCH_SIZE ip) words (InputParameter.associativity ip) <->
     InputParameter.associativity ip <= 64) /\
  (search_ok (InputParameter.REDUCE_SEARCH_SIZE ip) words (InputParameter.associativity ip) <->
     InputParameter.associativity ip <= 4096).
Proof.
  intros Ps Hs Pa Pw Hd Hw.
  assert (P1 : pow2 1) by (apply (pow2_at 0); [lia|reflexivity]).
  assert (1 <= InputParameter.minStackLayer ip)
    by (destruct (pow2_log2 _ Ps) as [El Hl]; pose proof (pow2_pos _ Hl); lia).
  assert (Hstep : forall k, 0 <= k -> InputParameter.associativity ip < 2 ^ (k + 1) -> InputParameter.associativity ip <= 2 ^ k).
  { intros k Hk Hlt. destruct (pow2_log2 _ Pa) as [El Hl]. rewrite El in Hlt |- *. apply Z.pow_lt_mono_r_iff in Hlt; [|lia|lia].
    apply Z.pow_le_mono_r; lia. }
  split; split.
  - intros So. pose proof (so_mux_int _ _ _ So) as Hm. cbn -[Z.pow Z.mul] in Hm. apply (Hstep 6); [lia|]. change (2 ^ (6 + 1)) with 128. lia.
  - intros Ha. split; unfold bounds_ok; cbn -[Z.pow Z.mul]; try done; try lia; repeat split; lia.
  - intros So. pose proof (so_mux_int _ _ _ So) as Hm. cbn -[Z.pow Z.mul] in Hm. apply (Hstep 12); [lia|]. change (2 ^ (12 + 1)) with 8192. lia.
  - intros Ha. split; unfold bounds_ok; cbn -[Z.pow Z.mul]; try done; try lia; repeat split; lia.
Qed.

(** A megabyte in words of 512 bits, of 16 ways and of 128: only the first can be searched. *)
Lemma program_bounds_searchable_witness :
  let ip ways := (InputParameter.InputParameter (F := float) 1048576 512 300 HP 0%float false)
                   <| InputParameter.associativity := ways |> in
  search_ok (InputParameter.RESTORE_SEARCH_SIZE (ip 16)) 16384 16 /\
  ~ search_ok (InputParameter.RESTORE_SEARCH_SIZE (ip 128)) 16384 128 /\
  search_ok (InputParameter.REDUCE_SEARCH_SIZE (ip 128)) 16384 128.
Proof.
  intros ip.
  assert (Hb : forall k ways, 0 <= k <= 7 -> ways = 2 ^ k ->
    (search_ok (InputParameter.RESTORE_SEARCH_SIZE (ip ways)) 16384 ways <-> ways <= 64) /\
    (search_ok (InputParameter.REDUCE_SEARCH_SIZE (ip ways)) 16384 ways <-> ways <= 4096)).
  { intros k ways Hk Hways. assert (1 <= ways <= 128) by (subst ways; split; [pose proof (pow2_pos k); lia|apply (Z.pow_le_mono_r 2 k 7); lia]).
    apply (program_bounds_searchable (ip ways) 16384).
    - apply (pow2_at 0); [lia|reflexivity].
    - reflexivity.
    - apply (pow2_at k); [lia|exact Hways].
    - apply (pow2_at 14); [lia|reflexivity].
    - change (ways * 16 <= 16384). lia.
    - change (16384 < 2 ^ 31 * ways). lia. }
  destruct (Hb 4 16 ltac:(lia) eq_refl) as [H16 _]. destruct (Hb 7 128 ltac:(lia) eq_refl) as [H128 R128].
  split; [apply H16; lia|]. split; [rewrite H128; lia|apply R128; lia].
Defined.

(** ** Routing *)

(** C7: the H-tree routing loops of a bank with [2^LH] columns and [2^LV] rows of
    subarrays, fewer than [2^31] of them, with [2^ca] columns and [2^ra] rows
    active.  If there are more address bits than levels that do not split the
    data, at least one distributed bit for every active subarray or some broadcast
    bits, and the data bits fit an [int], the loops end without undefined
    behaviour (no wire count overflows) or rejection.  What reaches a subarray is
    a closed form: one address bit is spent per level that does not split the
    data, the data halves on the others, and every level of both directions is
    set, with no more active than existing wires and at most one wire group per
    subarray. *)
Theorem htree_routing_exact LH LV A D B ca ra :
  0 <= D -> 0 <= B -> D + B < 2 ^ 31 -> 0 <= ca <= LH -> 0 <= ra <= LV -> LH + LV < 31 ->
  (LH - ca) + (LV - ra) < A -> (2 ^ (ca + ra) <= D \/ 0 < B) ->
  exists r, Htree.route LH LV A D B (2 ^ ra) (2 ^ ca) = Done r /\
    Htree.numAddressBitToRoute r = A - (LH - ca) - (LV - ra) /\
    Htree.numDataDistributeBitToRoute r = Z.quot D (2 ^ (ca + ra)) /\
    Htree.numDataBroadcastBitToRoute r = B /\
    filled (fun _ l => Htree.addressBitToRoute l <= A /\ Htree.dataDistributeBitToRoute l <= D /\
                       1 <= Htree.activeWire l <= Htree.sumWire l /\ Htree.sumWire l <= 2 ^ (LH + LV))
           LH (Htree.horizontal r) /\
    filled (fun _ l => Htree.addressBitToRoute l <= A /\ Htree.dataDistributeBitToRoute l <= D /\
                       1 <= Htree.activeWire l <= Htree.sumWire l /\ Htree.sumWire l <= 2 ^ (LH + LV))
           LV (Htree.vertical r).
Proof.
  intros HD HB Hsum Hca Hra Hlev HA Hdata.
  assert (Hs : safe (Htree.routed LH LV A D B ca ra) (Htree.route LH LV A D B (2 ^ ra) (2 ^ ca)))
    by (apply Htree.route_safe; lia).
  assert (Hp : proceeds false (Htree.route LH LV A D B (2 ^ ra) (2 ^ ca)))
    by (apply Htree.route_proceeds; lia || done).
  destruct (safe_proceeds _ _ Hs Hp) as (r & E & Ea & Ed & Eb & Fh & Fv).
  exists r. do 4 (split; [done|]).
  assert (W : forall n l, filled (fun _ => Htree.level_ok A D B (LH + LV)) n l ->
    filled (fun _ l => Htree.addressBitToRoute l <= A /\ Htree.dataDistributeBitToRoute l <= D /\
      1 <= Htree.activeWire l <= Htree.sumWire l /\ Htree.sumWire l <= 2 ^ (LH + LV)) n l).
  { intros n l Hf i Hi. destruct (Hf i Hi) as (x & Ex & Hx). exists x. split; [done|].
    unfold Htree.level_ok in Hx. lia. }
  split; by apply W.
Qed.

Lemma htree_routing_exact_witness :
  exists r, Htree.route 3 2 10 64 0 (2 ^ 1) (2 ^ 2) = Done r /\
    Htree.numAddressBitToRoute r = 10 - (3 - 2) - (2 - 1) /\
    Htree.numDataDistributeBitToRoute r = Z.quot 64 (2 ^ (2 + 1)) /\
    Htree.numDataBroadcastBitToRoute r = 0 /\
    filled (fun _ l => Htree.addressBitToRoute l <= 10 /\ Htree.dataDistributeBitToRoute l <= 64 /\
                       1 <= Htree.activeWire l <= Htree.sumWire l /\ Htree.sumWire l <= 2 ^ (3 + 2)) 3 (Htree.horizontal r) /\
    filled (fun _ l => Htree.addressBitToRoute l <= 10 /\ Htree.dataDistributeBitToRoute l <= 64 /\
                       1 <= Htree.activeWire l <= Htree.sumWire l /\ Htree.sumWire l <= 2 ^ (3 + 2)) 2 (Htree.vertical r).
Proof. apply htree_routing_exact; lia. Defined.

(** With [2^32] subarrays the sum of the vertical wires overflows. *)
Example htree_wires_overflow : Htree.route 16 16 17 65536 0 (2 ^ 8) (2 ^ 8) = Undefined.
Proof. vm_compute. reflexivity. Qed.

(** The addresses of a bank are counted exactly: the chain of [double]
    quotients and the logarithm give the number of bits that select a set on a
    die, with no rounding, for every organisation of powers of two. *)
Theorem address_bits_exact {F} {NumF : Num F} {NI : NumInt F} a o (b : Bank.t F) :
  organised a o -> Bank.address_bits (Bank.Initialize_members a b) = index o /\
  2 ^ index o * BankArgs._associativity a * BankArgs._blockSize a * BankArgs._stackedDieCount a
  = BankArgs._capacity a.
Proof.
  intros Ho. split; [by apply address_bits_org|].
  rewrite (org_ways _ _ Ho), (org_dies _ _ Ho), (org_capacity _ _ Ho). lia.
Qed.

Lemma address_bits_exact_witness :
  Bank.address_bits (Bank.Initialize_members (demo_args data) Demo.raw_bank) = 5 /\
  2 ^ 5 * 2 * 64 * 2 = 128 * 64.
Proof. apply (address_bits_exact (demo_args data) demo_org), demo_organised. Defined.

(** ** Refinement, constraints and merging *)

(** C19: the wire refinement never loses ground: when it returns it has kept the
    target and the limits of every result, and left it with the same scores or
    strictly better ones.  It always returns, unless one of the wires it sets or
    the bank of one of its trials, rebuilt from the organisation of a result,
    ends the program; then it ends with that message. *)
Theorem refine_never_worsens {F} {NumF : Num F} {Ord : NumOrder F} {Ops : CircuitOps F}
  (mem : Memory F) mt s :
  match refine mem mt s with
  | Ret s' => Forall2 Result.no_worse (best s) (best s')
  | Exit e =>
      (exists node wt wr temp ls w, Wire_Initialize (F := F) node wt wr temp ls w = Exit e) \/
      (exists g r, built (CALCULATE mem g (retry_args (Globals.inputParameter g) mt (Result.bank r))) = Exit e)
  end.
Proof.
  destruct (refine mem mt s) as [s'|e] eqn:E; [by eapply refine_no_worse|].
  exact (refine_ends mem mt s e E).
Qed.

(** Does a result of the first list leak less in the second? *)
Definition leaks_less (rs rs' : list (Result.t float)) : bool :=
  existsb (fun p => Result.better leakage_optimized (snd p) (fst p)) (zip rs rs').

Definition demo_searched : option (Outcome (State float)) :=
  for_BIGFOR (visit_data Demo.memory (128 * 64) 64 1 (fun _ => true))
    (Demo.start (Demo.globals non_h_tree (Demo.cell SRAM 1))).

Example demo_refinement_helps :
  match demo_searched with
  | Some (Ret s) => match refine Demo.memory data s with
                    | Ret s' => (0 <? numSolution s) && leaks_less (best s) (best s')
                    | Exit _ => false
                    end
  | _ => false
  end = true.
Proof. vm_compute. reflexivity. Qed.

(** After the demonstration search the refinement returns, and a slower wire that
    does not leak improves a result. *)
Lemma refine_never_worsens_witness : exists s s',
  demo_searched = Some (Ret s) /\ 0 < numSolution s /\ refine Demo.memory data s = Ret s' /\
  Forall2 Result.no_worse (best s) (best s') /\ leaks_less (best s) (best s') = true.
Proof.
  pose proof demo_refinement_helps as Hrun. destruct demo_searched as [[s|e]|]; [|discriminate Hrun..].
  pose proof (refine_never_worsens Demo.memory data s) as H.
  destruct (refine Demo.memory data s) as [s'|e] eqn:E; [|discriminate Hrun].
  apply andb_true_iff in Hrun as [Hn Hl]. exists s, s'.
  split; [reflexivity|]. split; [by apply Z.ltb_lt|]. split; [exact E|]. split; [exact H|exact Hl].
Defined.

(** All eight limits of the constrained pass, read off a result. *)
Definition meets {F} `{Num F} (a : Allowed) (r : Result.t F) : Prop :=
  (Result.metric FunctionUnit.readLatency r <=? allowedDataReadLatency a)%num = true /\
  (Result.metric FunctionUnit.writeLatency r <=? allowedDataWriteLatency a)%num = true /\
  (Result.metric FunctionUnit.readDynamicEnergy r <=? allowedDataReadDynamicEnergy a)%num = true /\
  (Result.metric FunctionUnit.writeDynamicEnergy r <=? allowedDataWriteDynamicEnergy a)%num = true /\
  (Result.metric FunctionUnit.leakage r <=? allowedDataLeakage a)%num = true /\
  (Result.metric FunctionUnit.area r <=? allowedDataArea a)%num = true /\
  (Result.readEdp r <=? allowedDataReadEdp a)%num = true /\
  (Result.writeEdp r <=? allowedDataWriteEdp a)%num = true.

(** C18: every result of the constrained pass either was never updated, and keeps
    the scores [reset] gave it, or meets all eight limits derived from the
    unconstrained optima; and the pass ends, unless one of the two basic wires or
    a circuit of a design of the space ends the program. *)
Theorem constrained_results_obey {F} {NumF : Num F} {NI : NumInt F} {Ord : NumOrder F}
  {Ops : CircuitOps F} {Laws : CircuitLaws F} (mem : Memory F) words block assoc s :
  let ip := Globals.inputParameter (globals s) in
  let a := allowed ip (best s) (fresh_result mem (globals s)) in
  (InputParameter.routingMode ip = h_tree -> InputParameter.internalSensing ip = true) ->
  search_ok ip words assoc -> pow2 block -> block < 2 ^ 31 -> words * block < 2 ^ 53 ->
  match constrained_pass mem (words * block) block assoc s with
  | Some (Ret s') =>
      Forall2 (fun r r' => Result.same_scores r' (APPLY_LIMIT a r) \/ meets a r') (best s) (best s')
  | Some (Exit e) =>
      INITIAL_BASIC_WIRE (globals s) = Exit e \/
      exists g d, INITIAL_BASIC_WIRE (globals s) = Ret g /\ in_space ip d /\
        data_exit mem (words * block) block assoc g d = Some e
  | None => False
  end.
Proof.
  intros ip a Hint Hs Pb Hb Hw. unfold constrained_pass. fold ip. fold a.
  pose proof (INITIAL_BASIC_WIRE_frame (globals s)) as Hframe.
  destruct (INITIAL_BASIC_WIRE (globals s)) as [g|e]; [|by left]. destruct Hframe as (_ & Eip & _).
  cbv zeta. match goal with |- context [for_BIGFOR _ ?s1] => set (s1' := s1) end.
  assert (Eb : best s1' = map (APPLY_LIMIT a) (best s)) by reflexivity.
  assert (Eg : globals s1' = g) by reflexivity.
  assert (Eip1 : Globals.inputParameter (globals s1') = ip) by (by rewrite Eg). clearbody s1'.
  pose proof (data_search_spec mem words block assoc (acceptable a) s1') as Hspec.
  rewrite Eip1, Eg in Hspec.
  destruct (Hspec Hint Hs Pb Hb Hw)
    as [(s' & cands & -> & _ & [_ Hbest] & Hin & _)|(pre & d & post & e & _ & Hd & _ & Ed & ->)];
    [|right; by exists g, d].
  rewrite Hbest, Eb, map_map.
  apply Forall2_fmap_r, Forall_Forall2_diag, Forall_forall. intros r _.
  destruct (Result.explore_best_origin cands (APPLY_LIMIT a r)) as [Hsame|(_ & c & Hc & _ & Hsame)]; [by left|right].
  apply Hin in Hc as (d & _ & Hd). unfold data_candidate, data_args in Hd.
  destruct (_ =? 0); [done|]. unfold candidate_of in Hd. destruct (CALCULATE mem _ _) as [b| | |]; [|done|done|done].
  destruct (negb (Bank.invalid b) && acceptable a b) eqn:Hacc; [|done]. injection Hd as <-.
  apply andb_true_iff in Hacc as [_ Hacc]. unfold acceptable in Hacc.
  repeat setoid_rewrite andb_true_iff in Hacc. destruct Hsame as (E1 & E2 & E3 & E4 & E5 & E6 & _).
  unfold meets, Result.readEdp, Result.writeEdp. rewrite E1, E2, E3, E4, E5, E6. tauto.
Qed.

Example demo_constrained_runs :
  match constrained_pass Demo.memory (128 * 64) 64 1 (Demo.start (Demo.globals non_h_tree (Demo.cell SRAM 1))) with
  | Some (Ret s) => numSolution s
  | _ => 0
  end = 18.
Proof. vm_compute. reflexivity. Qed.

Lemma constrained_results_obey_witness :
  let s := Demo.start (Demo.globals non_h_tree (Demo.cell SRAM 1)) in
  let a := allowed (Demo.ip non_h_tree) (best s) (fresh_result Demo.memory (globals s)) in
  exists s', constrained_pass Demo.memory (128 * 64) 64 1 s = Some (Ret s') /\
    Forall2 (fun r r' => Result.same_scores r' (APPLY_LIMIT a r) \/ meets a r') (best s) (best s').
Proof.
  intros s a.
  pose proof (constrained_results_obey Demo.memory 128 64 1 s
    ltac:(intros Hr; discriminate Hr) (demo_search_ok non_h_tree) (pow2_at 6 64 ltac:(lia) eq_refl)
    eq_refl eq_refl) as H.
  pose proof demo_constrained_runs as Hrun. fold s in Hrun.
  destruct (constrained_pass _ _ _ _ s) as [[s'|e]|]; [|discriminate Hrun|discriminate Hrun].
  exists s'. split; [reflexivity|exact H].
Defined.

(** C20: when several cell technologies are swept, the merged data result of a
    target is not beaten by the first cell's result, nor by the result of any
    other cell that respects the limits the first cell's result carries (after a
    constrained pass a better result outside these limits is ignored); and unless
    tags may use another technology the data and the tag result come from the
    same cell. *)
Theorem merged_result_best {F} {NumF : Num F} {Ord : NumOrder F} different i first
  (rest : list (MemCell.t F * list (Result.t F * Result.t F))) d0 t0 :
  first !! i = Some (d0, t0) -> swept i rest -> Result.cellTech d0 = Result.cellTech t0 ->
  exists d t, merge_cells different first rest !! i = Some (d, t) /\
    (forall c new dn tn, In (c, new) rest -> new !! i = Some (dn, tn) ->
       Result.within_limits d0 dn = true -> Result.better (Result.optimizationTarget d0) dn d = false) /\
    Result.better (Result.optimizationTarget d0) d0 d = false /\
    (different = false -> Result.cellTech d = Result.cellTech t).
Proof.
  intros H0 Hr Hc. destruct (merge_cells_lookup different i rest first d0 t0 H0 Hr) as (t & El & Ht).
  exists (Result.explore_best (column i rest) d0), t. split; [done|]. split; [|split].
  - intros c new dn tn Hin En Hl. apply Result.explore_best_optimal; [|done].
    apply list_elem_of_In, list_elem_of_omap. exists (c, new). split; [by apply list_elem_of_In|].
    cbn [snd]. by rewrite En.
  - destruct (Result.explore_best_origin (column i rest) d0) as [E|[E _]].
    + rewrite (Result.better_scores _ d0 d0 _ d0); [apply Result.better_irrefl|apply Result.same_scores_refl|done].
    + destruct (Result.better _ d0 _) eqn:E2; [|done].
      pose proof (Result.better_trans _ _ _ _ E E2) as E3. by rewrite Result.better_irrefl in E3.
  - intros Hd. by apply Ht.
Qed.

(** A result of a cell with the given read latency. *)
Definition demo_result (c : MemCell.t float) (latency : Z) : Result.t float :=
  (fresh_result Demo.memory (Demo.globals non_h_tree c))
    <| Result.optimizationTarget := read_latency_optimized |> <| Result.cellTech := Some c |>
    <| Result.bank := Demo.raw_bank <| Bank.blockSize := 64 |> <| Bank.fu :=
         (Bank.fu Demo.raw_bank) <| FunctionUnit.readLatency := of_Z latency |> |> |>.

Definition demo_first : list (Result.t float * Result.t float) :=
  [(demo_result (Demo.cell SRAM 1) 5, demo_result (Demo.cell SRAM 1) 1)].
Definition demo_rest : list (MemCell.t float * list (Result.t float * Result.t float)) :=
  [(Demo.cell memristor 1, [(demo_result (Demo.cell memristor 1) 3, demo_result (Demo.cell memristor 1) 2)]);
   (Demo.cell PCRAM 1, [(demo_result (Demo.cell PCRAM 1) 4, demo_result (Demo.cell PCRAM 1) 1)])].

Example demo_merge :
  (fun p => (Result.metric FunctionUnit.readLatency (fst p), option_map (@MemCell.memCellType float) (Result.cellTech (snd p))))
    <$> (merge_cells false demo_first demo_rest !! 0%nat) = Some (of_Z 3, Some memristor).
Proof. vm_compute. reflexivity. Qed.

(** Three cells of latency 5, 3 and 4: the second wins, and brings its tag. *)
Lemma merged_result_best_witness :
  exists d t, merge_cells false demo_first demo_rest !! 0%nat = Some (d, t) /\
    (forall c new dn tn, In (c, new) demo_rest -> new !! 0%nat = Some (dn, tn) ->
       Result.within_limits (demo_result (Demo.cell SRAM 1) 5) dn = true ->
       Result.better read_latency_optimized dn d = false) /\
    Result.metric FunctionUnit.readLatency d = of_Z 3 /\ Result.cellTech d = Result.cellTech t /\
    option_map (@MemCell.memCellType float) (Result.cellTech t) = Some memristor.
Proof.
  destruct (merged_result_best false 0 demo_first demo_rest
    (demo_result (Demo.cell SRAM 1) 5) (demo_result (Demo.cell SRAM 1) 1)) as (d & t & E & Hb & _ & Hc).
  - reflexivity.
  - intros c new [[= <- <-]|[[= <- <-]|[]]]; by eexists _, _.
  - reflexivity.
  - pose proof demo_merge as Hm. rewrite E in Hm. cbn [fmap option_fmap option_map fst snd] in Hm.
    injection Hm as H1 H2. exists d, t. split; [exact E|]. split; [exact Hb|].
    split; [exact H1|]. split; [exact (Hc eq_refl)|exact H2].
Defined.

(** The data pass leaves the technology untouched: whatever die counts its
    designs have, the vertical connections keep the parameters of the layer count
    that was set before it. *)
Theorem data_pass_keeps_technology {F} {NumF : Num F} {Ops : CircuitOps F} (mem : Memory F) g rs :
  match nvsim_data mem g rs with
  | Some (Ret s') => Globals.tech (globals s') = Globals.tech g
  | _ => True
  end.
Proof. destruct (nvsim_data mem g rs) as [[s'|e]|] eqn:E; [by eapply nvsim_data_tech|done|done]. Qed.

(** The start of a flat search for an eDRAM cell with a short retention time. *)
Definition leaky_globals : Globals.t float := Demo.globals non_h_tree (Demo.cell eDRAM 10).

(** Does a result hold a bank that was found invalid for lack of retention? *)
Definition stale (r : Result.t float) : bool :=
  bool_decide (Result.optimizationTarget r = leakage_optimized) && Bank.invalid (Result.bank r)
  && (of_Z 10 <? Result.metric FunctionUnit.refreshLatency r)%num.

(** The wire refinement accepts banks that [CalculateLatencyAndPower] marked
    invalid.  In this run the search finds valid designs, then a slower wire that
    leaks less wins the leakage target although refreshing takes longer than the
    cell retains its data. *)
Theorem refinement_accepts_invalid_bank : exists s r,
  nvsim_data Demo.memory leaky_globals (best (Demo.start leaky_globals)) = Some (Ret s) /\
  0 < numSolution s /\ In r (best s) /\
  Result.optimizationTarget r = leakage_optimized /\ Bank.invalid (Result.bank r) = true /\
  (of_Z 10 <? Result.metric FunctionUnit.refreshLatency r)%num = true.
Proof.
  assert (Hrun : match nvsim_data Demo.memory leaky_globals (best (Demo.start leaky_globals)) with
                 | Some (Ret s) => (0 <? numSolution s) && existsb stale (best s)
                 | _ => false
                 end = true) by (vm_compute; reflexivity).
  destruct (nvsim_data _ _ _) as [[s|e]|]; [|done|done].
  apply andb_true_iff in Hrun as [Hn%Z.ltb_lt Hr]. apply existsb_exists in Hr as (r & Hin & Hst).
  unfold stale in Hst. apply andb_true_iff in Hst as [[Ht%bool_decide_eq_true Hi]%andb_true_iff Hlat].
  by exists s, r.
Qed.

(** ** Checks before the search *)

(** [n & (n - 1)] of a positive number vanishes at the powers of two only. *)
Lemma land_pred_pow2 n : 0 < n -> Z.land n (n - 1) = 0 <-> n = 2 ^ Z.log2 n.
Proof.
  intros Hn. pose proof (Z.log2_spec n Hn) as [Hlo Hhi]. pose proof (Z.log2_nonneg n) as Hl. split.
  - intros Hz. destruct (Z.eq_dec n (2 ^ Z.log2 n)) as [|Hne]; [done|exfalso].
    assert (Hlog : Z.log2 (n - 1) = Z.log2 n) by (apply Z.log2_unique; lia).
    assert (Hbit : Z.testbit (Z.land n (n - 1)) (Z.log2 n) = true).
    { rewrite Z.land_spec, Z.bit_log2 by lia. rewrite <- Hlog. by rewrite Z.bit_log2 by lia. }
    by rewrite Hz, Z.bits_0 in Hbit.
  - intros E. rewrite E. replace (2 ^ Z.log2 n - 1) with (Z.ones (Z.log2 n)) by (rewrite Z.ones_equiv; lia).
    rewrite Z.land_ones by lia. apply Z.mod_same. pose proof (pow2_pos _ Hl). lia.
Qed.

(** [isPow2] recognises exactly the powers of two, so the spaces of the search
    theorems are those the program checks for. *)
Theorem isPow2_exact n : isPow2 n = true <-> pow2 n.
Proof.
  unfold isPow2. destruct (Z.ltb_spec n 1) as [Hlt|Hge].
  - split; [done|]. intros Hp. destruct (pow2_log2 _ Hp) as [E Hl]. pose proof (pow2_pos _ Hl). lia.
  - rewrite Z.eqb_eq, land_pred_pow2 by lia. split.
    + intros E. apply (pow2_at (Z.log2 n)); [apply Z.log2_nonneg|done].
    + intros Hp. by destruct (pow2_log2 _ Hp).
Qed.

(** [applyConstraint] stops exactly the runs that are not supported (CAM, MLC
    NAND, an H-tree with external sensing) and otherwise only drops the
    associativity of a memory that is not a cache; what it lets through satisfies
    the sensing condition of the search theorems. *)
Theorem applyConstraint_exact {F} `{Num F} (g : Globals.t F) :
  let ip := Globals.inputParameter g in
  let unsupported := InputParameter.designTarget ip = CAM_chip \/
    MemCell.memCellType (Globals.cell g) = MLCNAND \/
    (InputParameter.routingMode ip = h_tree /\ InputParameter.internalSensing ip = false) in
  match applyConstraint g with
  | Exit _ => unsupported
  | Ret g' =>
      ~ unsupported /\
      (InputParameter.routingMode (Globals.inputParameter g') = h_tree ->
       InputParameter.internalSensing (Globals.inputParameter g') = true) /\
      (g' = g \/ InputParameter.designTarget ip <> cache /\ 1 < InputParameter.associativity ip /\
        g' = g <| Globals.inputParameter := ip <| InputParameter.associativity := 1 |> |>)
  end.
Proof.
  cbv zeta. unfold applyConstraint.
  case_bool_decide as Hcam; [by left|]. case_bool_decide as Hmlc; [by right; left|].
  assert (Hb : forall (c : bool) (ip' : InputParameter.t F),
    ip' = (if c then (Globals.inputParameter g) <| InputParameter.associativity := 1 |> else Globals.inputParameter g) ->
    InputParameter.routingMode ip' = InputParameter.routingMode (Globals.inputParameter g) /\
    InputParameter.internalSensing ip' = InputParameter.internalSensing (Globals.inputParameter g))
    by (intros [|] ip' ->; done).
  match goal with |- context [if ?c then (Globals.inputParameter g) <| _ := _ |> else _] =>
    set (cond := c); destruct (Hb cond _ eq_refl) as [Er Es] end.
  rewrite Er, Es. case_bool_decide as Hr; destruct (InputParameter.internalSensing (Globals.inputParameter g)) eqn:Hs;
    cbn [andb negb].
  2: { right. right. done. }
  all: split; [intuition congruence|]; split; [cbn; rewrite ?Er, ?Es, ?Hs; done|].
  all: subst cond; destruct (negb _ && _) eqn:Ec; [right|left; by destruct g].
  all: apply andb_true_iff in Ec as [Ec%negb_true_iff%bool_decide_eq_false Ea%Z.ltb_lt]; done.
Qed.

(** The refinement tries exactly the wires within the bounds that do not combine
    low swing with repeaters, local and global alike. *)
Theorem refine_wires_exact {F} `{Num F} (ip : InputParameter.t F) wt wr ls :
  (In (wt, wr, ls) (REFINE_LOCAL_WIRE_FORLOOP ip) <->
     InputParameter.minLocalWireType ip <= wt <= InputParameter.maxLocalWireType ip /\
     InputParameter.minLocalWireRepeaterType ip <= wr <= InputParameter.maxLocalWireRepeaterType ip /\
     InputParameter.minIsLocalWireLowSwing ip <= ls <= InputParameter.maxIsLocalWireLowSwing ip /\
     (wr = WireRepeaterType_to_Z repeated_none \/ ls = 0)) /\
  (In (wt, wr, ls) (REFINE_GLOBAL_WIRE_FORLOOP ip) <->
     InputParameter.minGlobalWireType ip <= wt <= InputParameter.maxGlobalWireType ip /\
     InputParameter.minGlobalWireRepeaterType ip <= wr <= InputParameter.maxGlobalWireRepeaterType ip /\
     InputParameter.minIsGlobalWireLowSwing ip <= ls <= InputParameter.maxIsGlobalWireLowSwing ip /\
     (wr = WireRepeaterType_to_Z repeated_none \/ ls = 0)).
Proof. split; apply refine_wire_spec. Qed.

End Correctness.
