(* ===== verification/Gem5Arrays.v ===== *)
(** * The banked arrays of the gem5 cache

    src/mem/ruby/structures/BankedArray and ALUFreeListArray: which bank of a
    tag or data array is busy until when, and which lines the atomic ALUs are
    working on.  [curTick()] is an argument; ticks and cycles are 64-bit
    unsigned numbers.  A failed [assert] or [panic] ends the simulation. *)
From S2P Require Import Prelude.
From stdpp Require Import base list strings.
From Stdlib Require Import ZArith Lia.
Open Scope Z_scope.

Definition u64 (z : Z) : Z := z mod 2 ^ 64.
Definition u32 (z : Z) : Z := z mod 2 ^ 32.

Lemma u64_small z : 0 <= z < 2 ^ 64 -> u64 z = z.
Proof. intros. unfold u64. by rewrite Z.mod_small. Qed.

Lemma u32_small z : 0 <= z < 2 ^ 32 -> u32 z = z.
Proof. intros. unfold u32. by rewrite Z.mod_small. Qed.

Definition assertion : string := "assertion failed".
Definition gem5_undefined : string := "undefined behaviour".

(** [assert(b)] *)
Definition assert (b : bool) : Outcome unit := if b then Ret tt else Exit assertion.

(** base/intmath.hh, [floorLog2] on 32 bits: [if (ux & mask) { y += k; ux >>= k; }] *)
Definition halve (s m : Z * Z) : Z * Z :=
  let '(y, ux) := s in
  let '(mask, k) := m in
  if Z.land ux mask =? 0 then (y, ux) else (y + k, Z.shiftr ux k).

Definition floorLog2 (x : Z) : Outcome Z :=
  let? _ := assert (0 <? x) in
  let '(y, ux) := foldl halve (0, x)
    [(0xffff0000, 16); (0x0000ff00, 8); (0x000000f0, 4); (0x0000000c, 2)] in
  Ret (if Z.land ux 2 =? 0 then y else y + 1).

(** [floorLog2] is the logarithm. *)
Lemma land_high_mask ux k : 0 <= k -> 0 <= ux < 2 ^ (2 * k) ->
  Z.land ux (Z.shiftl (Z.ones k) k) = 0 <-> ux < 2 ^ k.
Proof.
  intros Hk Hux. assert (Hp : 0 < 2 ^ k) by (by apply pow2_pos).
  assert (E : Z.land ux (Z.shiftl (Z.ones k) k) = Z.shiftl (ux / 2 ^ k) k).
  { rewrite <- (Z.shiftr_div_pow2 ux k Hk). apply Z.bits_inj'. intros n Hn.
    rewrite Z.land_spec, !Z.shiftl_spec by lia. destruct (Z.lt_ge_cases n k) as [Hlt|Hge].
    { rewrite !(Z.testbit_neg_r _ (n - k)) by lia. apply andb_false_r. }
    rewrite Z.shiftr_spec by lia. replace (n - k + k) with n by lia.
    destruct (Z.lt_ge_cases (n - k) k) as [Hin|Hout].
    { rewrite Z.ones_spec_low by lia. apply andb_true_r. }
    rewrite Z.ones_spec_high by lia. rewrite andb_false_r. symmetry.
    destruct (Z.eq_dec ux 0) as [->|]; [apply Z.bits_0|]. apply Z.bits_above_log2; [lia|]. apply Z.log2_lt_pow2; [lia|].
    eapply Z.lt_le_trans; [apply Hux|]. apply pow2_le. lia. }
  rewrite E, Z.shiftl_mul_pow2 by done. split.
  - intros Hz. assert (ux / 2 ^ k = 0) by nia. apply Z.div_small_iff in H; lia.
  - intros Hlt. rewrite Z.div_small by lia. done.
Qed.

Lemma halve_spec s k mask : mask = Z.shiftl (Z.ones k) k -> 0 < k -> 0 < snd s < 2 ^ (2 * k) ->
  0 < snd (halve s (mask, k)) < 2 ^ k /\
  fst (halve s (mask, k)) + Z.log2 (snd (halve s (mask, k))) = fst s + Z.log2 (snd s).
Proof.
  intros -> Hk. destruct s as [y ux]. cbn [fst snd halve]. intros Hux.
  pose proof (land_high_mask ux k ltac:(lia) ltac:(lia)) as Hiff.
  destruct (Z.eqb_spec (Z.land ux (Z.shiftl (Z.ones k) k)) 0) as [E|E]; cbn [fst snd].
  { apply Hiff in E. split; lia. }
  assert (Hge : 2 ^ k <= ux) by (destruct (Z.lt_ge_cases ux (2 ^ k)) as [Hlt|]; [by apply Hiff in Hlt|done]).
  pose proof (pow2_pos k ltac:(lia)).
  assert (k <= Z.log2 ux) by (apply Z.log2_le_pow2; lia).
  rewrite Z.log2_shiftr, Z.shiftr_div_pow2 by lia.
  replace (2 * k) with (k + k) in Hux by lia. rewrite Z.pow_add_r in Hux by lia.
  split; [|lia]. split; [apply Z.div_str_pos; lia|apply Z.div_lt_upper_bound; lia].
Qed.

Lemma floorLog2_exact x : 0 < x < 2 ^ 32 -> floorLog2 x = Ret (Z.log2 x).
Proof.
  intros Hx. unfold floorLog2, assert. rewrite (proj2 (Z.ltb_lt 0 x)) by lia. cbn [outcome_bind foldl].
  destruct (halve_spec (0, x) 16 0xffff0000 eq_refl ltac:(lia) Hx) as [R1 E1].
  set (s1 := halve (0, x) _) in *.
  destruct (halve_spec s1 8 0xff00 eq_refl ltac:(lia) R1) as [R2 E2]. set (s2 := halve s1 _) in *.
  destruct (halve_spec s2 4 0xf0 eq_refl ltac:(lia) R2) as [R3 E3]. set (s3 := halve s2 _) in *.
  destruct (halve_spec s3 2 0xc eq_refl ltac:(lia) R3) as [R4 E4]. set (s4 := halve s3 _) in *.
  assert (E : fst s4 + Z.log2 (snd s4) = Z.log2 x) by (cbn [fst snd] in E1; lia).
  clear E1 E2 E3 E4 R1 R2 R3. clearbody s4. destruct s4 as [y u]. cbn [fst snd] in *. f_equal.
  assert (u = 1 \/ u = 2 \/ u = 3) as [-> | [-> | ->]] by lia; rewrite <- E.
  - change (y = y + 0). lia.
  - reflexivity.
  - reflexivity.
Qed.

(** ** BankedArray *)

Module BankedArray.

Record AccessRecord : Type := mkRecord { idx : Z; startAccess : Z; endAccess : Z }.

Record t : Type := mk {
  accessLatency : Z;
  bankBits : Z;
  startIndexBit : Z;
  clockPeriod : Z;          (* m_ruby_system->clockPeriod() *)
  busyBanks : list AccessRecord;
  banks : Z
}.
#[global] Instance eta : RecordEta t := fun x =>
  mk (accessLatency x) (bankBits x) (startIndexBit x) (clockPeriod x) (busyBanks x) (banks x).

(** BankedArray::BankedArray; [raw] is what the memory of [bankBits] held. *)
Definition BankedArray (raw n latency startIndex period : Z) : Outcome t :=
  let? bits := if n =? 0 then Ret raw else floorLog2 n in
  Ret (mk latency bits startIndex period (replicate (Z.to_nat n) (mkRecord 0 0 0)) n).

(** BankedArray::mapIndexToBank; [idx % banks] is computed in 64 signed bits. *)
Definition mapIndexToBank (b : t) (i : Z) : Outcome Z :=
  if banks b =? 1 then Ret 0
  else if banks b =? 0 then Exit gem5_undefined
  else Ret (u32 (Z.rem i (banks b))).

(** The bank of an index, after [assert(bank < banks)], and its record. *)
Definition bank_of (b : t) (i : Z) : Outcome (nat * AccessRecord) :=
  let? bank := mapIndexToBank b i in
  let? _ := assert (bank <? banks b) in
  match busyBanks b !! Z.to_nat bank with
  | Some r => Ret (Z.to_nat bank, r)
  | None => Exit gem5_undefined
  end.

(** BankedArray::tryAccess *)
Definition tryAccess (curTick : Z) (b : t) (i : Z) : Outcome bool :=
  if accessLatency b =? 0 then Ret true
  else let? (_, r) := bank_of b i in
       Ret (if curTick <=? endAccess r then false else true).

(** BankedArray::tryAccessSpecf *)
Definition tryAccessSpecf (b : t) (i cycle : Z) : Outcome bool :=
  if accessLatency b =? 0 then Ret true
  else let? (_, r) := bank_of b i in
       Ret (if u64 (cycle * clockPeriod b) <=? endAccess r then false else true).

(** BankedArray::reserve *)
Definition reserve (curTick : Z) (b : t) (i : Z) : Outcome t :=
  if accessLatency b =? 0 then Ret b
  else
    let? (bank, r) := bank_of b i in
    if curTick <=? endAccess r then
      if (startAccess r =? curTick) && (idx r =? i) then Ret b
      else Exit "BankedArray reservation error"
    else Ret (b <| busyBanks := <[bank := mkRecord i curTick
                (u64 (curTick + u64 (u64 (accessLatency b - 1) * clockPeriod b)))]> (busyBanks b) |>).

(** BankedArray::reserveSpecf *)
Definition reserveSpecf (b : t) (i access_time init_cycle : Z) : Outcome t :=
  if access_time =? 0 then Ret b
  else
    let? (bank, r) := bank_of b i in
    let start := u64 (init_cycle * clockPeriod b) in
    if start <=? endAccess r then
      if (startAccess r =? start) && (idx r =? i) then Ret b
      else Exit "BankedArray reservation error"
    else Ret (b <| busyBanks := <[bank := mkRecord i start
                (u64 (start + u64 (u64 (access_time - 1) * clockPeriod b)))]> (busyBanks b) |>).

(** *** Facts *)

(** An array with at least one bank and a record for each. *)
Definition wf (b : t) : Prop :=
  0 < banks b < 2 ^ 32 /\ Z.of_nat (length (busyBanks b)) = banks b.

Lemma constructor_wf raw n latency startIndex period : 0 < n < 2 ^ 32 ->
  exists b, BankedArray raw n latency startIndex period = Ret b /\ wf b /\
    accessLatency b = latency /\ clockPeriod b = period.
Proof.
  intros Hn. unfold BankedArray. destruct (Z.eqb_spec n 0); [lia|].
  unfold floorLog2, assert. rewrite (proj2 (Z.ltb_lt 0 n)) by lia. cbn [outcome_bind].
  destruct (foldl _ _ _) as [y ux]. eexists. split; [reflexivity|]. repeat split; cbn; try lia.
  rewrite length_replicate. lia.
Qed.

(** Non-negative indices are spread over the banks by their remainder. *)
Lemma bank_of_spec b i : wf b -> 0 <= i ->
  exists r, bank_of b i = Ret (Z.to_nat (i mod banks b), r) /\
    busyBanks b !! Z.to_nat (i mod banks b) = Some r.
Proof.
  intros [Hb Hl] Hi. assert (Hm : 0 <= i mod banks b < banks b) by (apply Z.mod_pos_bound; lia).
  destruct (lookup_lt_is_Some_2 (busyBanks b) (Z.to_nat (i mod banks b))) as [r Hr]; [lia|].
  exists r. split; [|done]. unfold bank_of, mapIndexToBank.
  assert (E : (if banks b =? 1 then Ret 0 else if banks b =? 0 then Exit gem5_undefined
               else Ret (u32 (Z.rem i (banks b)))) = Ret (i mod banks b)).
  { destruct (Z.eqb_spec (banks b) 1) as [E1|]; [by rewrite E1, Z.mod_1_r|].
    destruct (Z.eqb_spec (banks b) 0); [lia|].
    rewrite Z.rem_mod_nonneg, u32_small by lia. done. }
  rewrite E. cbn [outcome_bind]. unfold assert. rewrite (proj2 (Z.ltb_lt _ _)) by lia.
  cbn [outcome_bind]. by rewrite Hr.
Qed.

Lemma wf_insert b k r : wf b -> wf (b <| busyBanks := <[k := r]> (busyBanks b) |>).
Proof. intros [Hb Hl]. split; [done|]. cbn. by rewrite length_insert. Qed.

(** Any reservation, of the array's own latency or of a given one, that starts
    after the end of the previous one takes the bank for exactly its interval. *)
Lemma reserve_free curTick b i : wf b -> 0 <= i -> accessLatency b <> 0 ->
  tryAccess curTick b i = Ret true ->
  exists r, busyBanks b !! Z.to_nat (i mod banks b) = Some r /\ endAccess r < curTick /\
    reserve curTick b i = Ret (b <| busyBanks := <[Z.to_nat (i mod banks b) := mkRecord i curTick
      (u64 (curTick + u64 (u64 (accessLatency b - 1) * clockPeriod b)))]> (busyBanks b) |>).
Proof.
  intros Hw Hi Hl. destruct (bank_of_spec b i Hw Hi) as (r & E & Hr).
  unfold tryAccess, reserve. rewrite (proj2 (Z.eqb_neq _ _) Hl), E. cbn [outcome_bind].
  destruct (Z.leb_spec curTick (endAccess r)); [done|]. intros _. by exists r.
Qed.

Lemma reserveSpecf_free b i access_time cycle : wf b -> 0 <= i -> access_time <> 0 -> accessLatency b <> 0 ->
  tryAccessSpecf b i cycle = Ret true ->
  exists r, busyBanks b !! Z.to_nat (i mod banks b) = Some r /\ endAccess r < u64 (cycle * clockPeriod b) /\
    reserveSpecf b i access_time cycle =
      Ret (b <| busyBanks := <[Z.to_nat (i mod banks b) := mkRecord i (u64 (cycle * clockPeriod b))
        (u64 (u64 (cycle * clockPeriod b) + u64 (u64 (access_time - 1) * clockPeriod b)))]> (busyBanks b) |>).
Proof.
  intros Hw Hi Ht Hl. destruct (bank_of_spec b i Hw Hi) as (r & E & Hr).
  unfold tryAccessSpecf, reserveSpecf. rewrite (proj2 (Z.eqb_neq _ _) Hl), (proj2 (Z.eqb_neq _ _) Ht), E.
  cbn [outcome_bind]. destruct (Z.leb_spec (u64 (cycle * clockPeriod b)) (endAccess r)); [done|].
  intros _. by exists r.
Qed.

End BankedArray.

(** ** ALUFreeListArray *)

Module ALUFreeListArray.

Record AccessRecord : Type := mkRecord { lineAddr : Z; startTick : Z }.

Record t : Type := mk {
  numALUs : Z;
  accessLatency : Z;
  accessQueue : list AccessRecord     (* front first *)
}.
#[global] Instance eta : RecordEta t := fun x => mk (numALUs x) (accessLatency x) (accessQueue x).

Definition ALUFreeListArray (num_ALUs access_latency : Z) : t := mk num_ALUs access_latency [].

(** [while (back().startTick < oldest) pop_back();] *)
Definition pop_old (oldest : Z) (q : list AccessRecord) : list AccessRecord :=
  foldr (fun r kept => match kept with
                       | [] => if startTick r <? oldest then [] else [r]
                       | _ => r :: kept
                       end) [] q.

(** The scan of the queue; [n] accesses were found at this tick. *)
Fixpoint scan (curTick num line n : Z) (q : list AccessRecord) : bool :=
  match q with
  | [] => true
  | r :: q =>
      let n' := if startTick r =? curTick then u32 (n + 1) else n in
      if (startTick r =? curTick) && (num <? n') then false
      else if lineAddr r =? line then false
      else scan curTick num line n' q
  end.

(** ALUFreeListArray::tryAccess; [line] is [makeLineAddress(addr)]. *)
Definition tryAccess (curTick line : Z) (a : t) : bool * t :=
  let a := a <| accessQueue := pop_old (u64 (curTick - accessLatency a)) (accessQueue a) |> in
  (scan curTick (numALUs a) line 0 (accessQueue a), a).

(** ALUFreeListArray::reserve *)
Definition reserve (curTick line : Z) (a : t) : t :=
  a <| accessQueue := mkRecord line curTick :: accessQueue a |>.

(** *** Facts *)

(** The accesses of a queue that started at a tick. *)
Definition at_tick (curTick : Z) (q : list AccessRecord) : list AccessRecord :=
  filter (fun r => startTick r = curTick) q.

Lemma scan_exact curTick num line q : 0 <= num ->
  forall n, 0 <= n <= num -> n + Z.of_nat (length q) < 2 ^ 32 ->
  scan curTick num line n q =
  bool_decide (n + Z.of_nat (length (at_tick curTick q)) <= num) &&
  forallb (fun r => negb (lineAddr r =? line)) q.
Proof.
  intros Hnum. induction q as [|r q IH]; intros n Hn Hlen.
  { cbn. rewrite bool_decide_eq_true_2 by lia. done. }
  cbn [length] in Hlen. cbn [scan forallb]. unfold at_tick. rewrite filter_cons. fold (at_tick curTick q).
  destruct (Z.eqb_spec (startTick r) curTick) as [E|E].
  - rewrite decide_True by done. cbn [length andb]. rewrite u32_small by lia.
    destruct (Z.ltb_spec num (n + 1)) as [Hlt|Hge].
    + rewrite bool_decide_eq_false_2 by lia. done.
    + rewrite IH by lia. destruct (lineAddr r =? line); cbn [negb]; [by rewrite andb_false_r|].
      f_equal. apply bool_decide_ext. lia.
  - rewrite decide_False by done. cbn [andb]. rewrite IH by lia.
    destruct (lineAddr r =? line); cbn [negb]; [by rewrite andb_false_r|done].
Qed.

End ALUFreeListArray.
