(* ===== verification/Gem5Policies.v ===== *)
(** * The replacement policies of gem5

    src/mem/cache/replacement_policies: the interface of a policy (base.hh) as a
    class, what the cache memory needs of a policy as a second class, and the
    policies that keep one datum per entry: LRU, WeightedLRU, BIP, MRU, FIFO,
    SecondChance, LFU and Random.  The replacement data of all entries live in the
    state of the policy; what an entry holds is the index of its datum. *)
From S2P Require Import Prelude Gem5Arrays.
From stdpp Require Import base list strings.
From Stdlib Require Import ZArith Lia.
Open Scope Z_scope.

(** ** The interface *)

(** What a policy offers: [PS] is its state with all replacement data, [H] a
    pointer to the data of one entry.  The first argument of [touch] and [reset] is
    the current tick; [touch_occupancy] is the overload that only WeightedLRU has.
    [getVictim] names the chosen candidate by its index and may update data. *)
Class ReplacementPolicy (PS H : Type) : Type := {
  instantiateEntry : PS -> Outcome (PS * H);
  touch : Z -> H -> PS -> Outcome PS;
  touch_occupancy : Z -> H -> Z -> PS -> Outcome PS;
  reset : Z -> H -> PS -> Outcome PS;
  invalidate : H -> PS -> Outcome PS;
  getVictim : list H -> PS -> Outcome (nat * PS)
}.

(** The data of one set: [for (j = 0; j < assoc; j++) data[j] = instantiateEntry();] *)
Fixpoint instantiate {PS H : Type} {Policy : ReplacementPolicy PS H} (n : nat) (s : PS) : Outcome (PS * list H) :=
  match n with
  | O => Ret (s, [])
  | S n => let? (s, h) := instantiateEntry s in
           let? (s, hs) := instantiate n s in Ret (s, h :: hs)
  end.

(** What a cache of associativity [assoc] relies on.  [ready] states can
    instantiate the data of a set; [row s r] says that [r] are the data of a set in
    [s].  The data of a set can be touched, reset and invalidated, one of them is
    the victim, and no operation on one set damages another. *)
Class PolicyLaws (PS H : Type) (assoc : nat) {Policy : ReplacementPolicy PS H} : Type := {
  ready : PS -> Prop;
  row : PS -> list H -> Prop;
  instantiate_row : forall s, ready s -> exists s' r, instantiate assoc s = Ret (s', r) /\
    length r = assoc /\ ready s' /\ row s' r /\ forall r', row s r' -> row s' r';
  touch_row : forall tick s r h, row s r -> In h r -> exists s', touch tick h s = Ret s' /\
    forall r', row s r' -> row s' r';
  reset_row : forall tick s r h, row s r -> In h r -> exists s', reset tick h s = Ret s' /\
    forall r', row s r' -> row s' r';
  invalidate_row : forall s r h, row s r -> In h r -> exists s', invalidate h s = Ret s' /\
    forall r', row s r' -> row s' r';
  victim_row : forall s r, row s r -> r <> [] -> exists i s', getVictim r s = Ret (i, s') /\
    (i < length r)%nat /\ forall r', row s r' -> row s' r'
}.

(** ** Data of the entries *)

Module Data.
Section Data.
Context {A : Type}.

(** [std::static_pointer_cast<A>(h)] *)
Definition get (s : list A) (h : nat) : Outcome A :=
  match s !! h with Some d => Ret d | None => Exit gem5_undefined end.

Definition set (f : A -> A) (h : nat) (s : list A) : Outcome (list A) :=
  let? d := get s h in Ret (<[h := f d]> s).

Fixpoint gets (s : list A) (hs : list nat) : Outcome (list A) :=
  match hs with
  | [] => Ret []
  | h :: hs => let? d := get s h in let? ds := gets s hs in Ret (d :: ds)
  end.

(** [new A(d)] *)
Definition new (d : A) (s : list A) : Outcome (list A * nat) := Ret (s ++ [d], length s).

(** [for (candidate : candidates) if (better candidate victim) victim = candidate;] *)
Fixpoint pick (better : A -> A -> bool) (victim i : nat) (ds : list A) (v : A) : nat :=
  match ds with
  | [] => victim
  | d :: ds => if better d v then pick better i (S i) ds d else pick better victim (S i) ds v
  end.

Definition choose (better : A -> A -> bool) (ds : list A) : Outcome nat :=
  match ds with
  | [] => Exit assertion
  | v :: _ => Ret (pick better 0 0 ds v)
  end.

(** [for (candidate : candidates) if (found candidate) return candidate;] *)
Fixpoint find (found : A -> bool) (i : nat) (ds : list A) : option nat :=
  match ds with
  | [] => None
  | d :: ds => if found d then Some i else find found (S i) ds
  end.
End Data.
End Data.

(** [random_mt.random<unsigned>(min, max)]: the generator and the distribution of
    the C++ library, with the state of the generator.  The simulator has one
    generator for all its objects; here each policy draws from a stream of its own,
    and what is proved holds of any stream. *)
Class RandomMt (G : Type) : Type := { random : Z -> Z -> G -> Z * G }.

(** A number between the bounds. *)
Class RandomLaws (G : Type) {R : RandomMt G} : Prop := {
  random_range : forall lo hi g, lo <= hi -> lo <= fst (random lo hi g) <= hi
}.

(** ** LRU (lru_rp.cc) and WeightedLRU (weighted_lru_rp.cc)

    The data of an entry is the tick of its last touch and, for the latter, its
    last occupancy. *)
Module LRU.
Record ReplData : Type := mkData { lastTouchTick : Z; last_occ_ptr : Z }.
#[global] Instance eta : RecordEta ReplData := fun x => mkData (lastTouchTick x) (last_occ_ptr x).

Definition set_tick (tick : Z) : nat -> list ReplData -> Outcome (list ReplData) :=
  Data.set (fun d => d <| lastTouchTick := tick |>).

Definition older (c v : ReplData) : bool := lastTouchTick c <? lastTouchTick v.

Definition lighter (c v : ReplData) : bool :=
  if last_occ_ptr c <? last_occ_ptr v then true
  else if last_occ_ptr c =? last_occ_ptr v then lastTouchTick c <? lastTouchTick v
  else false.

(** [getVictim] by comparison of two candidates. *)
Definition least (better : ReplData -> ReplData -> bool) (candidates : list nat) (s : list ReplData)
  : Outcome (nat * list ReplData) :=
  let? ds := Data.gets s candidates in
  let? i := Data.choose better ds in Ret (i, s).

#[global] Instance policy : ReplacementPolicy (list ReplData) nat := {|
  instantiateEntry := Data.new (mkData 0 0);
  touch tick h s := set_tick tick h s;
  touch_occupancy _ _ _ _ := Exit gem5_undefined;
  reset tick h s := set_tick tick h s;
  invalidate h s := set_tick 0 h s;
  getVictim := least older
|}.

Definition weighted : ReplacementPolicy (list ReplData) nat := {|
  instantiateEntry := Data.new (mkData 0 0);
  touch tick h s := set_tick tick h s;
  touch_occupancy tick h occupancy s :=
    let? s := set_tick tick h s in Data.set (fun d => d <| last_occ_ptr := occupancy |>) h s;
  reset tick h s := set_tick tick h s;
  invalidate h s := set_tick 0 h s;
  getVictim := least lighter
|}.
End LRU.

(** ** BIP (bip_rp.cc): LRU whose insertions are mostly at the LRU end *)
Module BIP.
Section BIP.
Context {G : Type} {R : RandomMt G} (btp : Z).

Definition policy : ReplacementPolicy (list LRU.ReplData * G) nat := {|
  instantiateEntry s := let? (ds, h) := @instantiateEntry _ _ LRU.policy (fst s) in Ret ((ds, snd s), h);
  touch tick h s := let? ds := @touch _ _ LRU.policy tick h (fst s) in Ret (ds, snd s);
  touch_occupancy _ _ _ _ := Exit gem5_undefined;
  reset tick h s :=
    let '(n, g) := random 1 100 (snd s) in
    let? ds := LRU.set_tick (if n <=? btp then tick else 1) h (fst s) in Ret (ds, g);
  invalidate h s := let? ds := @invalidate _ _ LRU.policy h (fst s) in Ret (ds, snd s);
  getVictim candidates s := let? (i, ds) := @getVictim _ _ LRU.policy candidates (fst s) in Ret (i, (ds, snd s))
|}.
End BIP.
End BIP.

(** ** MRU (mru_rp.cc) *)
Module MRU.
(** The datum is [lastTouchTick].  The loop of [getVictim] stops at an entry that
    was never touched. *)
Fixpoint newest (victim i : nat) (ds : list Z) (v : Z) : nat :=
  match ds with
  | [] => victim
  | d :: ds => if d =? 0 then i
               else if v <? d then newest i (S i) ds d
               else newest victim (S i) ds v
  end.

Definition policy : ReplacementPolicy (list Z) nat := {|
  instantiateEntry := Data.new 0;
  touch tick := Data.set (fun _ => tick);
  touch_occupancy _ _ _ _ := Exit gem5_undefined;
  reset tick := Data.set (fun _ => tick);
  invalidate := Data.set (fun _ => 0);
  getVictim candidates s :=
    let? ds := Data.gets s candidates in
    match ds with
    | [] => Exit assertion
    | v :: _ => Ret (newest 0 0 ds v, s)
    end
|}.
End MRU.

(** ** FIFO (fifo_rp.cc) and SecondChance (second_chance_rp.cc) *)
Module FIFO.
(** The flag belongs to SecondChance. *)
Record ReplData : Type := mkData { tickInserted : Z; hasSecondChance : bool }.
#[global] Instance eta_data : RecordEta ReplData := fun x => mkData (tickInserted x) (hasSecondChance x).

(** The policy counts the insertions; its counter is not set by the constructor. *)
Record t : Type := mk { timeTicks : Z; data : list ReplData }.
#[global] Instance eta : RecordEta t := fun x => mk (timeTicks x) (data x).

(** A change of one datum. *)
Definition alter_data (f : ReplData -> ReplData) (h : nat) (s : t) : Outcome t :=
  let? ds := Data.set f h (data s) in Ret (s <| data := ds |>).

(** [tickInserted = ++timeTicks] *)
Definition insert_last (h : nat) (s : t) : Outcome t :=
  let tick := u64 (timeTicks s + 1) in
  alter_data (fun d => d <| tickInserted := tick |>) h (s <| timeTicks := tick |>).

Definition earlier (c v : ReplData) : bool := tickInserted c <? tickInserted v.

Definition getVictim_ (candidates : list nat) (s : t) : Outcome nat :=
  let? ds := Data.gets (data s) candidates in Data.choose earlier ds.

Definition new (s : t) : Outcome (t * nat) :=
  let? (ds, h) := Data.new (mkData 0 false) (data s) in Ret (s <| data := ds |>, h).

Definition policy : ReplacementPolicy t nat := {|
  instantiateEntry := new;
  touch _ _ s := Ret s;
  touch_occupancy _ _ _ _ := Exit gem5_undefined;
  reset _ h s := insert_last h s;
  invalidate h s := insert_last h s;
  getVictim candidates s := let? i := getVictim_ candidates s in Ret (i, s)
|}.
End FIFO.

Module SecondChance.
Import FIFO.

(** SecondChance::useSecondChance *)
Definition useSecondChance (h : nat) (s : t) : Outcome t :=
  let? s := insert_last h s in alter_data (fun d => d <| hasSecondChance := false |>) h s.

(** [while (search_victim)]; [fuel] bounds the iterations. *)
Fixpoint search (fuel : nat) (candidates : list nat) (s : t) : Outcome (nat * t) :=
  match fuel with
  | O => Exit "the search does not end"
  | S fuel =>
      let? i := getVictim_ candidates s in
      match candidates !! i with
      | None => Exit gem5_undefined
      | Some victim =>
          let? d := Data.get (data s) victim in
          if hasSecondChance d
          then let? s := useSecondChance victim s in search fuel candidates s
          else Ret (i, s)
      end
  end.

(** An entry that was never inserted, without a second chance. *)
Definition unused (d : ReplData) : bool := (tickInserted d =? 0) && negb (hasSecondChance d).

(** SecondChance::getVictim *)
Definition getVictim_ (candidates : list nat) (s : t) : Outcome (nat * t) :=
  let? _ := assert (0 <? Z.of_nat (length candidates)) in
  let? ds := Data.gets (data s) candidates in
  match Data.find unused 0 ds with
  | Some i => Ret (i, s)
  | None => search (S (length candidates)) candidates s
  end.

Definition policy : ReplacementPolicy t nat := {|
  instantiateEntry := new;
  touch _ h s := alter_data (fun d => d <| hasSecondChance := true |>) h s;
  touch_occupancy _ _ _ _ := Exit gem5_undefined;
  reset _ h s := let? s := insert_last h s in alter_data (fun d => d <| hasSecondChance := false |>) h s;
  invalidate h s := let? s := insert_last h s in alter_data (fun d => d <| hasSecondChance := false |>) h s;
  getVictim := getVictim_
|}.
End SecondChance.

(** ** LFU (lfu_rp.cc): the datum is [refCount], an [unsigned] *)
Module LFU.
Definition policy : ReplacementPolicy (list Z) nat := {|
  instantiateEntry := Data.new 0;
  touch _ := Data.set (fun n => u32 (n + 1));
  touch_occupancy _ _ _ _ := Exit gem5_undefined;
  reset _ := Data.set (fun _ => 1);
  invalidate := Data.set (fun _ => 0);
  getVictim candidates s :=
    let? ds := Data.gets s candidates in
    let? i := Data.choose Z.ltb ds in Ret (i, s)
|}.
End LFU.

(** ** Random (random_rp.cc): the datum is [valid] *)
Module RandomRP.
Section RandomRP.
Context {G : Type} {R : RandomMt G}.

Definition set_valid (b : bool) (h : nat) (s : list bool * G) : Outcome (list bool * G) :=
  let? ds := Data.set (fun _ => b) h (fst s) in Ret (ds, snd s).

Definition policy : ReplacementPolicy (list bool * G) nat := {|
  instantiateEntry s := let? (ds, h) := Data.new false (fst s) in Ret ((ds, snd s), h);
  touch _ _ s := Ret s;
  touch_occupancy _ _ _ _ := Exit gem5_undefined;
  reset _ h s := set_valid true h s;
  invalidate h s := set_valid false h s;
  getVictim candidates s :=
    let? _ := assert (0 <? Z.of_nat (length candidates)) in
    let '(n, g) := random 0 (u32 (Z.of_nat (length candidates) - 1)) (snd s) in
    let? ds := Data.gets (fst s) candidates in
    if (n <? 0) || (Z.of_nat (length candidates) <=? n) then Exit gem5_undefined
    else Ret (match Data.find negb 0 ds with Some i => i | None => Z.to_nat n end, (fst s, g))
|}.
End RandomRP.
End RandomRP.
