(* ===== verification/Gem5Rrip.v ===== *)
(** * Re-reference prediction in gem5

    src/base/sat_counter.hh, a saturating counter on an unsigned type; the policy
    BRRIP built on it (brrip_rp.cc), and SHiP (ship_rp.cc), which adds a table of
    counters indexed by a signature of the access. *)
From S2P Require Import Prelude Numeric Gem5Arrays Gem5Policies.
From stdpp Require Import base list strings.
From Stdlib Require Import ZArith Lia.
Open Scope Z_scope.

(** ** GenericSatCounter<T>, with [T] the unsigned type of [w] bits *)
Module SatCounter.
Record t : Type := mk { initialVal : Z; maxVal : Z; counter : Z }.
#[global] Instance eta : RecordEta t := fun x => mk (initialVal x) (maxVal x) (counter x).

Section Width.
Context (w : Z).

(** A value stored in [T]. *)
Definition wrap (z : Z) : Z := z mod 2 ^ w.

(** GenericSatCounter(bits, initial_val); the shift of [1ULL] comes before the tests. *)
Definition GenericSatCounter (bits initial_val : Z) : Outcome t :=
  if 64 <=? bits then Exit gem5_undefined
  else
    let c := mk initial_val (wrap (2 ^ bits - 1)) initial_val in
    if w <? bits then Exit "Number of bits exceeds counter size"
    else if maxVal c <? initial_val then Exit "Saturating counter's initial value exceeds max value."
    else Ret c.

Definition increment (c : t) : t := if counter c <? maxVal c then c <| counter := wrap (counter c + 1) |> else c.
Definition decrement (c : t) : t := if 0 <? counter c then c <| counter := wrap (counter c - 1) |> else c.

(** The width of [T] after integer promotion. *)
Definition promoted : Z := if w <? 64 then 32 else 64.

(** [operator>>=] *)
Definition shift_right (shift : Z) (c : t) : Outcome t :=
  let? _ := assert (0 <=? shift) in
  if promoted <=? shift then Exit gem5_undefined
  else Ret (c <| counter := Z.shiftr (counter c) shift |>).

(** [operator<<=]: the shift is stored in [T] before it is compared. *)
Definition shift_left (shift : Z) (c : t) : Outcome t :=
  let? _ := assert (0 <=? shift) in
  if promoted <=? shift then Exit gem5_undefined
  else if (w <? 32) && (2 ^ 32 <=? Z.shiftl (counter c) shift) then Exit gem5_undefined
  else
    let c := c <| counter := wrap (Z.shiftl (counter c) shift) |> in
    Ret (if maxVal c <? counter c then c <| counter := maxVal c |> else c).

(** [operator+=] and [operator-=] of a value that is not negative. *)
Definition increase (value : Z) (c : t) : t :=
  let missing := if w <? 32 then maxVal c - counter c else wrap (maxVal c - counter c) in
  if value <=? missing then c <| counter := wrap (counter c + value) |> else c <| counter := maxVal c |>.

Definition decrease (value : Z) (c : t) : t :=
  if value <? counter c then c <| counter := wrap (counter c - value) |> else c <| counter := 0 |>.

(** [-value] of a [long long] *)
Definition negate (value : Z) : Outcome Z := if value =? - 2 ^ 63 then Exit gem5_undefined else Ret (- value).

Definition add (value : Z) (c : t) : Outcome t :=
  if 0 <=? value then Ret (increase value c) else let? v := negate value in Ret (decrease v c).

Definition sub (value : Z) (c : t) : Outcome t :=
  if 0 <=? value then Ret (decrease value c) else let? v := negate value in Ret (increase v c).

Definition reset (c : t) : t := c <| counter := initialVal c |>.

Definition isSaturated (c : t) : bool := counter c =? maxVal c.

(** [saturate()] returns what it added. *)
Definition saturate (c : t) : Z * t := (wrap (maxVal c - counter c), c <| counter := maxVal c |>).
End Width.

Definition calcSaturation {F : Type} `{Num F} (c : t) : F := (#(counter c) / #(maxVal c))%num.
End SatCounter.

(** ** BRRIP *)
Module BRRIP.

(** BRRIPReplData, and the members SHiPReplData adds. *)
Record ReplData : Type := mkData { rrpv : SatCounter.t; valid : bool; signature : Z; outcome : bool }.
#[global] Instance eta_data : RecordEta ReplData := fun x => mkData (rrpv x) (valid x) (signature x) (outcome x).

Record Params : Type := mkParams { numRRPVBits : Z; hitPriority : bool; btp : Z }.

(** SatCounter8 *)
Abbreviation w8 := 8.

(** BRRIP::BRRIP *)
Definition BRRIP_ (num_bits : Z) (hit_priority : bool) (throttle : Z) : Outcome Params :=
  if u32 num_bits <=? 0 then Exit "There should be at least one bit per RRPV."
  else Ret (mkParams (u32 num_bits) hit_priority throttle).

Section Operations.
Context {G : Type} {R : RandomMt G} (p : Params).
Abbreviation state := (list ReplData * G)%type.

Definition change (f : ReplData -> ReplData) (h : nat) (s : state) : Outcome state :=
  let? ds := Data.set f h (fst s) in Ret (ds, snd s).

Definition on_rrpv (f : SatCounter.t -> SatCounter.t) (d : ReplData) : ReplData := d <| rrpv := f (rrpv d) |>.

Definition instantiateEntry_ (s : state) : Outcome (state * nat) :=
  let? c := SatCounter.GenericSatCounter w8 (numRRPVBits p) 0 in
  let? (ds, h) := Data.new (mkData c false 0 false) (fst s) in Ret ((ds, snd s), h).

Definition invalidate_ (h : nat) (s : state) : Outcome state := change (fun d => d <| valid := false |>) h s.

Definition touch_ (h : nat) (s : state) : Outcome state :=
  if hitPriority p then change (on_rrpv SatCounter.reset) h s
  else change (on_rrpv (SatCounter.decrement w8)) h s.

Definition reset_ (h : nat) (s : state) : Outcome state :=
  let? s := change (on_rrpv (fun c => snd (SatCounter.saturate w8 c))) h s in
  let '(n, g) := random 1 100 (snd s) in
  let s := (fst s, g) in
  let? s := if n <=? btp p then change (on_rrpv (SatCounter.decrement w8)) h s else Ret s in
  change (fun d => d <| valid := true |>) h s.

(** The loop over the candidates: an entry that is not valid is returned at once
    ([inl]), otherwise the victim is the first of the greatest RRPV ([inr]). *)
Fixpoint farthest (victim i : nat) (ds : list ReplData) (victim_RRPV : Z) : nat + nat :=
  match ds with
  | [] => inr victim
  | d :: ds =>
      if negb (valid d) then inl i
      else
        let candidate_RRPV := SatCounter.counter (rrpv d) in
        if victim_RRPV <? candidate_RRPV then farthest i (S i) ds candidate_RRPV
        else farthest victim (S i) ds victim_RRPV
  end.

(** BRRIP::getVictim *)
Definition getVictim_ (candidates : list nat) (s : state) : Outcome (nat * state) :=
  let? ds := Data.gets (fst s) candidates in
  match ds with
  | [] => Exit assertion
  | v :: _ =>
      match farthest 0 0 ds (SatCounter.counter (rrpv v)) with
      | inl i => Ret (i, s)
      | inr i =>
          match candidates !! i with
          | None => Exit gem5_undefined
          | Some victim =>
              let? d := Data.get (fst s) victim in
              let '(diff, c) := SatCounter.saturate w8 (rrpv d) in
              let? s := change (on_rrpv (fun _ => c)) victim s in
              let? s := if 0 <? diff
                        then outcome_fold (fun s h => change (on_rrpv (SatCounter.increase w8 diff)) h s) candidates s
                        else Ret s in
              Ret (i, s)
          end
      end
  end.

Definition policy : ReplacementPolicy state nat := {|
  instantiateEntry := instantiateEntry_;
  touch _ := touch_;
  touch_occupancy _ _ _ _ := Exit gem5_undefined;
  reset _ := reset_;
  invalidate := invalidate_;
  getVictim := getVictim_
|}.
End Operations.
End BRRIP.

(** ** SHiP *)
Module SHiP.
Import BRRIP.

(** What SHiP reads of a packet: its address, and the program counter of its
    request if it has one. *)
Record Packet : Type := mkPacket { getAddr : Z; getPC : option Z }.

Section Operations.
Context {F : Type} `{Num F} {G : Type} {R : RandomMt G}.

Record t : Type := mk {
  params : Params;
  insertionThreshold : F;
  SHCT : list SatCounter.t;
  entries : list ReplData * G
}.
#[global] Instance eta : RecordEta t := fun x => mk (params x) (insertionThreshold x) (SHCT x) (entries x).

(** SHiP::SHiP *)
Definition SHiP_ (p : Params) (insertion_threshold shct_size : Z) (g : G) : Outcome t :=
  let? c := SatCounter.GenericSatCounter w8 (numRRPVBits p) 0 in
  Ret (mk p (#insertion_threshold / #100)%num (replicate (Z.to_nat shct_size) c) ([], g)).

(** SHiPMem::getSignature and SHiPPC::getSignature *)
Definition modulo (signature : Z) (s : t) : Outcome Z :=
  if Z.of_nat (length (SHCT s)) =? 0 then Exit gem5_undefined
  else Ret (signature mod Z.of_nat (length (SHCT s))).

Definition signature_mem (pkt : Packet) (s : t) : Outcome Z := modulo (getAddr pkt) s.
Definition signature_pc (pkt : Packet) (s : t) : Outcome Z :=
  modulo (match getPC pkt with Some pc => pc | None => 0 end) s.

(** The subclass. *)
Context (getSignature : Packet -> t -> Outcome Z).

(** [SHCT[i]] and a change of it *)
Definition predictor (i : Z) (s : t) : Outcome SatCounter.t := Data.get (SHCT s) (Z.to_nat i).
Definition train (f : SatCounter.t -> SatCounter.t) (i : Z) (s : t) : Outcome t :=
  let? table := Data.set f (Z.to_nat i) (SHCT s) in Ret (s <| SHCT := table |>).

(** An operation of BRRIP on the entries. *)
Definition brrip (f : list ReplData * G -> Outcome (list ReplData * G)) (s : t) : Outcome t :=
  let? es := f (entries s) in Ret (s <| entries := es |>).

Definition invalidate_ (h : nat) (s : t) : Outcome t :=
  let? d := Data.get (fst (entries s)) h in
  let? s := if outcome d then train (SatCounter.decrement w8) (signature d) s else Ret s in
  brrip (BRRIP.invalidate_ h) s.

Definition touch_pkt (h : nat) (pkt : Packet) (s : t) : Outcome t :=
  let? i := getSignature pkt s in
  let? s := train (SatCounter.increment w8) i s in
  let? s := brrip (change (fun d => d <| outcome := true |>) h) s in
  brrip (BRRIP.touch_ (params s) h) s.

Definition reset_pkt (h : nat) (pkt : Packet) (s : t) : Outcome t :=
  let? i := getSignature pkt s in
  let? s := brrip (change (fun d => d <| signature := i |> <| outcome := false |>) h) s in
  let? s := brrip (BRRIP.reset_ (params s) h) s in
  let? c := predictor i s in
  if (SatCounter.calcSaturation c >=? insertionThreshold s)%num
  then brrip (change (on_rrpv (SatCounter.decrement w8)) h) s else Ret s.

Definition no_access_information : string := "Cant train SHiP's predictor without access information.".

Definition policy : ReplacementPolicy t nat := {|
  instantiateEntry s := let? (es, h) := instantiateEntry_ (params s) (entries s) in Ret (s <| entries := es |>, h);
  touch _ _ _ := Exit no_access_information;
  touch_occupancy _ _ _ _ := Exit gem5_undefined;
  reset _ _ _ := Exit no_access_information;
  invalidate := invalidate_;
  getVictim candidates s := let? (i, es) := BRRIP.getVictim_ candidates (entries s) in Ret (i, s <| entries := es |>)
|}.
End Operations.
End SHiP.
