(* ===== verification/Gem5Tree.v ===== *)
(** * Tree-PLRU in gem5 (tree_plru_rp.cc)

    The entries of a set are the leaves of a binary tree of bits; the tree is an
    array in breadth-first order without its leaves, shared by the entries. *)
From S2P Require Import Prelude Gem5Arrays Gem5Policies.
From stdpp Require Import base list strings.
From Stdlib Require Import ZArith Lia.
Open Scope Z_scope.

Module TreePLRU.

(** An unsigned 64-bit number as a [double], rounded to nearest, ties to even. *)
Definition as_double (z : Z) : Z :=
  let e := Z.log2 z - 52 in
  if e <=? 0 then z
  else
    let m := z / 2 ^ e in
    let r := z mod 2 ^ e in
    (if (2 ^ (e - 1) <? r) || ((r =? 2 ^ (e - 1)) && Z.odd m) then m + 1 else m) * 2 ^ e.

(** [std::floor((index - 1) / 2)], converted back. *)
Definition parentIndex (index : Z) : Z := as_double (u64 (index - 1) / 2).
Definition leftSubtreeIndex (index : Z) : Z := u64 (2 * index + 1).
Definition rightSubtreeIndex (index : Z) : Z := u64 (2 * index + 2).
Definition isRightSubtree (index : Z) : bool := index mod 2 =? 0.

(** TreePLRUReplData: the index of the leaf and the tree it shares. *)
Record ReplData : Type := mkData { index : Z; tree : nat }.

(** The policy; [trees] are the allocated trees, the last one is [treeInstance]. *)
Record t : Type := mk { numLeaves : Z; count : Z; trees : list (list bool) }.
#[global] Instance eta : RecordEta t := fun x => mk (numLeaves x) (count x) (trees x).

(** base/intmath.hh *)
Definition isPowerOf2 (n : Z) : bool := negb (n =? 0) && (Z.land n (n - 1) =? 0).

(** TreePLRU::TreePLRU *)
Definition TreePLRU_ (num_leaves : Z) : Outcome t :=
  if negb (isPowerOf2 (u64 num_leaves)) then Exit "Number of leaves must be non-zero and a power of 2"
  else Ret (mk (u64 num_leaves) 0 []).

(** [tree->at(i) = b] *)
Definition set_bit (i : Z) (b : bool) (bits : list bool) : Outcome (list bool) :=
  if i <? Z.of_nat (length bits) then Ret (<[Z.to_nat i := b]> bits) else Exit "std::out_of_range".

(** [do { right = isRightSubtree(i); i = parentIndex(i); tree->at(i) = f(right); } while (i != 0);]
    The index halves, so 64 iterations are enough. *)
Fixpoint climb (fuel : nat) (f : bool -> bool) (i : Z) (bits : list bool) : Outcome (list bool) :=
  match fuel with
  | O => Exit "the loop does not end"
  | S fuel =>
      let right := isRightSubtree i in
      let i := parentIndex i in
      let? bits := set_bit i (f right) bits in
      if i =? 0 then Ret bits else climb fuel f i bits
  end.

Definition update (f : bool -> bool) (d : ReplData) (s : t) : Outcome t :=
  let? bits := Data.get (trees s) (tree d) in
  let? bits := climb 64 f (index d) bits in
  Ret (s <| trees := <[tree d := bits]> (trees s) |>).

(** TreePLRU::invalidate, touch, reset *)
Definition invalidate_ : ReplData -> t -> Outcome t := update (fun right => right).
Definition touch_ : ReplData -> t -> Outcome t := update negb.

(** [while (i < tree->size()) i = tree->at(i) ? right(i) : left(i);] *)
Fixpoint descend (fuel : nat) (i : Z) (bits : list bool) : Outcome Z :=
  if i <? Z.of_nat (length bits) then
    match fuel with
    | O => Exit "the loop does not end"
    | S fuel => let? b := Data.get bits (Z.to_nat i) in
                descend fuel (if b then rightSubtreeIndex i else leftSubtreeIndex i) bits
    end
  else Ret i.

(** TreePLRU::getVictim *)
Definition getVictim_ (candidates : list ReplData) (s : t) : Outcome (nat * t) :=
  match candidates with
  | [] => Exit assertion
  | c :: _ =>
      let? bits := Data.get (trees s) (tree c) in
      let? i := descend 64 0 bits in
      let k := u64 (i - (numLeaves s - 1)) in
      if k <? Z.of_nat (length candidates) then Ret (Z.to_nat k, s) else Exit gem5_undefined
  end.

(** TreePLRU::instantiateEntry *)
Definition instantiateEntry_ (s : t) : Outcome (t * ReplData) :=
  if numLeaves s =? 0 then Exit gem5_undefined
  else
    let s := if count s mod numLeaves s =? 0
             then s <| trees := trees s ++ [replicate (Z.to_nat (numLeaves s - 1)) false] |> else s in
    let d := mkData (count s mod numLeaves s + numLeaves s - 1) (pred (length (trees s))) in
    Ret (s <| count := u64 (count s + 1) |>, d).

#[global] Instance policy : ReplacementPolicy t ReplData := {|
  instantiateEntry := instantiateEntry_;
  touch _ := touch_;
  touch_occupancy _ _ _ _ := Exit gem5_undefined;
  reset _ := touch_;
  invalidate := invalidate_;
  getVictim := getVictim_
|}.
End TreePLRU.
