(* ===== verification/Gem5Dueling.v ===== *)
(** * Set dueling in gem5

    src/mem/cache/tags/dueling.cc: entries that sample for one of two teams and the
    monitor that counts their misses; the policy Dueling (dueling_rp.cc), which runs
    two other policies side by side and asks the one that does better. *)
From S2P Require Import Prelude Numeric Gem5Arrays Gem5Policies Gem5Rrip.
From stdpp Require Import base list strings.
From Stdlib Require Import ZArith Lia.
Open Scope Z_scope.

(** base/bitfield.hh: the bits set in a 64-bit number. *)
Definition popCount (val : Z) : Z :=
  Z.of_nat (length (filter (fun i => Z.testbit val i = true) (seqZ 0 64))).

(** ** Dueler *)
Module Dueler.
Record t : Type := mk { _isSample : Z; _team : Z }.
#[global] Instance eta : RecordEta t := fun x => mk (_isSample x) (_team x).

Definition Dueler_ : t := mk 0 0.

Definition setSample (id : Z) (team : bool) (d : t) : Outcome t :=
  if negb (popCount id =? 1) then Exit "The id must have a single bit set."
  else if negb (Z.land (_isSample d) id =? 0) then Exit "This dueler is already a sample for id"
  else
    let d := d <| _isSample := Z.lor (_isSample d) id |> in
    Ret (if team then d <| _team := Z.lor (_team d) id |> else d).

(** Whether it is a sample, and its team. *)
Definition isSample (id : Z) (d : t) : bool * bool :=
  (negb (Z.land (_isSample d) id =? 0), negb (Z.land (_team d) id =? 0)).
End Dueler.

(** ** DuelingMonitor *)
Module DuelingMonitor.
Section Monitor.
Context {F : Type} `{Num F}.

Record t : Type := mk {
  id : Z;
  constituencySize : Z;
  teamSize : Z;
  lowThreshold : F;
  highThreshold : F;
  selector : SatCounter.t;
  regionCounter : Z;
  winner : bool
}.
#[global] Instance eta : RecordEta t := fun x =>
  mk (id x) (constituencySize x) (teamSize x) (lowThreshold x) (highThreshold x) (selector x) (regionCounter x) (winner x).

(** [1 << numInstances], an [int] converted to [uint64_t]. *)
Definition instance_id (numInstances : Z) : Outcome Z :=
  if 32 <=? numInstances then Exit gem5_undefined
  else if numInstances =? 31 then Ret (u64 (- 2 ^ 31))
  else Ret (2 ^ numInstances).

(** SatCounter32 *)
Abbreviation w32 := 32.

(** DuelingMonitor::DuelingMonitor; the static [numInstances] is passed through. *)
Definition DuelingMonitor_ (numInstances constituency_size team_size num_bits : Z) (low_threshold high_threshold : F)
  : Outcome (t * Z) :=
  let? i := instance_id numInstances in
  let? sel := SatCounter.GenericSatCounter w32 num_bits 0 in
  if constituency_size <? u64 (2 * team_size)
  then Exit "There must be at least team size entries per team in a constituency"
  else if 63 <? numInstances then Exit "Too many Dueling instances"
  else if (low_threshold <=? #0)%num || (high_threshold >=? #1)%num
  then Exit "The low threshold must be within the range ]0.0, 1.0["
  else if (high_threshold <=? #0)%num || (high_threshold >=? #1)%num
  then Exit "The high threshold must be within the range ]0.0, 1.0["
  else if (low_threshold >? high_threshold)%num then Exit "The low threshold must be below the high threshold"
  else
    let? sel := SatCounter.shift_right w32 1 (snd (SatCounter.saturate w32 sel)) in
    Ret (mk i constituency_size team_size low_threshold high_threshold sel 0
           (negb (SatCounter.calcSaturation sel <? low_threshold)%num), u32 (numInstances + 1)).

(** DuelingMonitor::sample *)
Definition sample (dueler : Dueler.t) (m : t) : t :=
  let '(is_sample, team) := Dueler.isSample (id m) dueler in
  if negb is_sample then m
  else if team then
    let m := m <| selector := SatCounter.increment w32 (selector m) |> in
    if (SatCounter.calcSaturation (selector m) >=? highThreshold m)%num then m <| winner := true |> else m
  else
    let m := m <| selector := SatCounter.decrement w32 (selector m) |> in
    if (SatCounter.calcSaturation (selector m) <? lowThreshold m)%num then m <| winner := false |> else m.

(** DuelingMonitor::initEntry; [regionCounter] is an [int] compared as [size_t]. *)
Definition initEntry (dueler : Dueler.t) (m : t) : Outcome (Dueler.t * t) :=
  let? d := if u64 (regionCounter m) <? teamSize m then Dueler.setSample (id m) false dueler
            else if u64 (constituencySize m - teamSize m) <=? u64 (regionCounter m)
            then Dueler.setSample (id m) true dueler
            else Ret dueler in
  if regionCounter m =? 2 ^ 31 - 1 then Exit gem5_undefined
  else
    let r := regionCounter m + 1 in
    Ret (d, m <| regionCounter := if constituencySize m <=? u64 r then 0 else r |>).
End Monitor.
Arguments t F : clear implicits.
End DuelingMonitor.

(** ** Dueling *)
Module Dueling.
Import DuelingMonitor.

Section Policies.
Context {F : Type} `{Num F} {PA HA PB HB : Type} {A : ReplacementPolicy PA HA} {B : ReplacementPolicy PB HB}.

(** DuelerReplData *)
Record ReplData : Type := mkData { dueler : Dueler.t; replDataA : HA; replDataB : HB }.

Record t : Type := mkDueling {
  replPolicyA : PA;
  replPolicyB : PB;
  duelingMonitor : DuelingMonitor.t F;
  selectedA : Z;
  selectedB : Z;
  data : list ReplData
}.
#[global] Instance eta : RecordEta t := fun x =>
  mkDueling (replPolicyA x) (replPolicyB x) (duelingMonitor x) (selectedA x) (selectedB x) (data x).

(** Dueling::Dueling with the two policies; the monitor has a selector of ten bits
    and both thresholds at one half. *)
Definition Dueling_ (numInstances constituency_size team_size : Z) (policy_a : PA) (policy_b : PB) : Outcome (t * Z) :=
  let? (m, numInstances) :=
    DuelingMonitor_ numInstances constituency_size team_size 10 (lit 5 (-1)) (lit 5 (-1)) in
  Ret (mkDueling policy_a policy_b m 0 0 [], numInstances).

(** An operation of both policies on the data of an entry. *)
Definition both (fA : HA -> PA -> Outcome PA) (fB : HB -> PB -> Outcome PB) (h : nat) (s : t) : Outcome t :=
  let? d := Data.get (data s) h in
  let? a := fA (replDataA d) (replPolicyA s) in
  let? b := fB (replDataB d) (replPolicyB s) in
  Ret (s <| replPolicyA := a |> <| replPolicyB := b |>).

Definition invalidate_ : nat -> t -> Outcome t := both invalidate invalidate.
Definition touch_ (tick : Z) : nat -> t -> Outcome t := both (touch tick) (touch tick).
Definition reset_ (tick : Z) (h : nat) (s : t) : Outcome t :=
  let? s := both (reset tick) (reset tick) h s in
  let? d := Data.get (data s) h in
  Ret (s <| duelingMonitor := sample (dueler d) (duelingMonitor s) |>).

(** [panic_if(isSample(candidate, candidate_team) && team != candidate_team)] *)
Definition same_team (m : DuelingMonitor.t F) (team : bool) (d : ReplData) : bool :=
  let '(is_sample, candidate_team) := Dueler.isSample (id m) (dueler d) in
  negb (is_sample && negb (eqb team candidate_team)).

(** Dueling::getVictim *)
Definition getVictim_ (candidates : list nat) (s : t) : Outcome (nat * t) :=
  let m := duelingMonitor s in
  if negb (Z.of_nat (length candidates) =? teamSize m)
  then Exit "We currently only support team sizes that match the number of replacement candidates"
  else
    let best := negb (winner m) in
    let? ds := Data.gets (data s) candidates in
    match ds with
    | [] => Exit gem5_undefined
    | d :: _ =>
        let '(is_sample, team) := Dueler.isSample (id m) (dueler d) in
        let team_a := (is_sample && negb team) || (negb is_sample && negb best) in
        let s := if team_a then s <| selectedA := selectedA s + 1 |> else s <| selectedB := selectedB s + 1 |> in
        if negb (forallb (same_team m team) ds)
        then Exit "Not all sampled candidates belong to the same team"
        else if team_a
        then let? (i, a) := getVictim (map replDataA ds) (replPolicyA s) in Ret (i, s <| replPolicyA := a |>)
        else let? (i, b) := getVictim (map replDataB ds) (replPolicyB s) in Ret (i, s <| replPolicyB := b |>)
    end.

(** Dueling::instantiateEntry *)
Definition instantiateEntry_ (s : t) : Outcome (t * nat) :=
  let? (a, ha) := instantiateEntry (replPolicyA s) in
  let? (b, hb) := instantiateEntry (replPolicyB s) in
  let? (d, m) := initEntry Dueler.Dueler_ (duelingMonitor s) in
  let? (ds, h) := Data.new (mkData d ha hb) (data s) in
  Ret (s <| replPolicyA := a |> <| replPolicyB := b |> <| duelingMonitor := m |> <| data := ds |>, h).

#[global] Instance policy : ReplacementPolicy t nat := {|
  instantiateEntry := instantiateEntry_;
  touch := touch_;
  touch_occupancy _ _ _ _ := Exit gem5_undefined;
  reset := reset_;
  invalidate := invalidate_;
  getVictim := getVictim_
|}.
End Policies.
End Dueling.
