(* ===== verification/Gem5Cache.v ===== *)
(** * The gem5 cache memory

    src/mem/ruby/structures/CacheMemory with the parts it is built on:
    AbstractCacheEntry and the address functions.  The replacement policy is any
    instance of the interface [ReplacementPolicy].  Entries are shared objects: the cache, the protocol and the
    replacement policy hold pointers to them, so they live in a store that maps
    pointers to entries.  Generated code (the overrides of [invalidateEntry] and
    the data block) is a parameter. *)
From S2P Require Import Prelude Gem5Arrays Gem5Policies.
From stdpp Require Import base list gmap strings.
From Stdlib Require Import ZArith Lia.
Open Scope Z_scope.

(** ** Enumerations (RubySlicc_Exports.sm) *)

Inductive AccessPermission : Type :=
| Read_Only | Read_Write | Maybe_Stale | Backing_Store | Backing_Store_Busy
| PermInvalid | NotPresent | Busy.
#[global] Instance AccessPermission_eq : EqDecision AccessPermission.
Proof. solve_decision. Defined.

Inductive RubyRequestType : Type :=
| LD | ST | ATOMIC | ATOMIC_RETURN | ATOMIC_NO_RETURN | IFETCH | IO | REPLACEMENT | Load_Linked
| Store_Conditional | RMW_Read | RMW_Write | Locked_RMW_Read | Locked_RMW_Write | COMMIT | NULL
| FLUSH | Release | Acquire | AcquireRelease | HTM_Start | HTM_Commit | HTM_Cancel | HTM_Abort
| TLBI | TLBI_SYNC | TLBI_EXT_SYNC | TLBI_EXT_SYNC_COMP.
#[global] Instance RubyRequestType_eq : EqDecision RubyRequestType.
Proof. solve_decision. Defined.

Inductive CacheRequestType : Type :=
| DataArrayRead | DataArrayWrite | TagArrayRead | TagArrayWrite | AtomicALUOperation.

Inductive CacheResourceType : Type := DataArray | TagArray | AtomicALUArray.

(** RubySystem: what the cache reads of it. *)
Record RubySystem : Type := mkRuby { blockSizeBytes : Z; blockSizeBits : Z; rubyClockPeriod : Z }.

(** ** Addresses (common/Address.cc, base/bitfield.hh) *)

Definition mask (n : Z) : Z := if 64 <=? n then 2 ^ 64 - 1 else 2 ^ n - 1.

(** [mbits<Addr>(addr, 63, blockSizeBits)] *)
Definition makeLineAddress (ruby : RubySystem) (addr : Z) : Z :=
  Z.land addr (Z.land (mask 64) (Z.lnot (mask (blockSizeBits ruby)))).

(** [bits<Addr>(addr, big, small)] *)
Definition bitSelect (addr small big : Z) : Outcome Z :=
  let? _ := assert (small <=? big) in
  if 64 <=? small then Exit gem5_undefined
  else Ret (Z.land (Z.shiftr addr small) (mask (big - small + 1))).

(** ** AbstractCacheEntry *)

Module Entry.
Record t (H D : Type) : Type := mk {
  m_last_touch_tick : Z;
  validBlocks : Z;
  m_Address : Z;
  m_locked : Z;
  m_Permission : AccessPermission;
  m_htmInReadSet : bool;
  m_htmInWriteSet : bool;
  _set : Z;
  _way : Z;
  replacementData : option H;
  block : D
}.
Arguments mk {_ _} _ _ _ _ _ _ _ _ _ _ _.
Arguments m_last_touch_tick {_ _} _.
Arguments validBlocks {_ _} _.
Arguments m_Address {_ _} _.
Arguments m_locked {_ _} _.
Arguments m_Permission {_ _} _.
Arguments m_htmInReadSet {_ _} _.
Arguments m_htmInWriteSet {_ _} _.
Arguments _set {_ _} _.
Arguments _way {_ _} _.
Arguments replacementData {_ _} _.
Arguments block {_ _} _.
#[global] Instance eta {H D : Type} : RecordEta (t H D) := fun x =>
  mk (m_last_touch_tick x) (validBlocks x) (m_Address x) (m_locked x) (m_Permission x)
    (m_htmInReadSet x) (m_htmInWriteSet x) (_set x) (_way x) (replacementData x) (block x).

Section Operations.
Context {H D : Type}.

(** AbstractCacheEntry::AbstractCacheEntry; [valid], [set], [way] and [b] are
    what the memory of the unset members held. *)
Definition AbstractCacheEntry (valid set way : Z) (b : D) : t H D :=
  mk 0 valid 0 (-1) NotPresent false false set way None b.

Definition changePermission (new_perm : AccessPermission) (e : t H D) : t H D :=
  let e := e <| m_Permission := new_perm |> in
  if bool_decide (new_perm = PermInvalid) || bool_decide (new_perm = NotPresent)
  then e <| m_locked := -1 |> else e.

Definition setLocked (context : Z) (e : t H D) : t H D := e <| m_locked := context |>.
Definition clearLocked (e : t H D) : t H D := e <| m_locked := -1 |>.
Definition isLocked (context : Z) (e : t H D) : bool := m_locked e =? context.
Definition setLastAccess (tick : Z) (e : t H D) : t H D := e <| m_last_touch_tick := tick |>.
Definition setPosition (set way : Z) (e : t H D) : t H D := e <| _set := u32 set |> <| _way := u32 way |>.
End Operations.
End Entry.

(** ** CacheMemory *)

Module CacheMemory.

(** CacheMemoryStats: scalars are counters, histograms the samples taken. *)
Record Stats : Type := mkStats {
  numDataArrayReads : Z; numDataArrayWrites : Z; numTagArrayReads : Z; numTagArrayWrites : Z;
  numTagArrayStalls : Z; numDataArrayStalls : Z; numAtomicALUOperations : Z; numAtomicALUArrayStalls : Z;
  htmTransCommitReadSet : list Z; htmTransCommitWriteSet : list Z;
  htmTransAbortReadSet : list Z; htmTransAbortWriteSet : list Z;
  m_demand_hits : Z; m_demand_misses : Z; m_prefetch_hits : Z; m_prefetch_misses : Z
}.
#[global] Instance eta_Stats : RecordEta Stats := fun x =>
  mkStats (numDataArrayReads x) (numDataArrayWrites x) (numTagArrayReads x) (numTagArrayWrites x)
    (numTagArrayStalls x) (numDataArrayStalls x) (numAtomicALUOperations x) (numAtomicALUArrayStalls x)
    (htmTransCommitReadSet x) (htmTransCommitWriteSet x) (htmTransAbortReadSet x) (htmTransAbortWriteSet x)
    (m_demand_hits x) (m_demand_misses x) (m_prefetch_hits x) (m_prefetch_misses x).

Definition no_stats : Stats := mkStats 0 0 0 0 0 0 0 0 [] [] [] [] 0 0 0 0.

(** The cache and the store its pointers refer to. *)
Record t (PS H D : Type) : Type := mk {
  m_is_instruction_only_cache : bool;
  m_tag_index : gmap Z Z;
  m_cache : list (list (option positive));
  policy_state : PS;
  dataArray : BankedArray.t;
  tagArray : BankedArray.t;
  atomicALUArray : ALUFreeListArray.t;
  m_cache_size : Z;
  m_cache_num_sets : Z;
  m_cache_num_set_bits : Z;
  m_cache_assoc : Z;
  m_start_index_bit : Z;
  m_resource_stalls : bool;
  m_block_size : Z;
  replacement_data : list (list H);
  m_use_occupancy : bool;
  cacheMemoryStats : Stats;
  store : gmap positive (Entry.t H D)
}.
Arguments mk {_ _ _} _ _ _ _ _ _ _ _ _ _ _ _ _ _ _ _ _ _.
Arguments m_is_instruction_only_cache {_ _ _} _.
Arguments m_tag_index {_ _ _} _.
Arguments m_cache {_ _ _} _.
Arguments policy_state {_ _ _} _.
Arguments dataArray {_ _ _} _.
Arguments tagArray {_ _ _} _.
Arguments atomicALUArray {_ _ _} _.
Arguments m_cache_size {_ _ _} _.
Arguments m_cache_num_sets {_ _ _} _.
Arguments m_cache_num_set_bits {_ _ _} _.
Arguments m_cache_assoc {_ _ _} _.
Arguments m_start_index_bit {_ _ _} _.
Arguments m_resource_stalls {_ _ _} _.
Arguments m_block_size {_ _ _} _.
Arguments replacement_data {_ _ _} _.
Arguments m_use_occupancy {_ _ _} _.
Arguments cacheMemoryStats {_ _ _} _.
Arguments store {_ _ _} _.
#[global] Instance eta {PS H D : Type} : RecordEta (t PS H D) := fun x =>
  mk (m_is_instruction_only_cache x) (m_tag_index x) (m_cache x) (policy_state x) (dataArray x)
    (tagArray x) (atomicALUArray x) (m_cache_size x) (m_cache_num_sets x) (m_cache_num_set_bits x)
    (m_cache_assoc x) (m_start_index_bit x) (m_resource_stalls x) (m_block_size x) (replacement_data x)
    (m_use_occupancy x) (cacheMemoryStats x) (store x).

(** RubyCacheParams *)
Record Params : Type := mkParams {
  p_size : Z; p_assoc : Z; p_start_index_bit : Z; p_is_icache : bool; p_resourceStalls : bool;
  p_block_size : Z; p_dataArrayBanks : Z; p_dataAccessLatency : Z; p_tagArrayBanks : Z;
  p_tagAccessLatency : Z; p_atomicALUs : Z; p_atomicLatency : Z; p_weighted : bool
}.

Section Operations.
Context {PS H D : Type} {Policy : ReplacementPolicy PS H}.
Context (ruby : RubySystem).
(** [curTick()] *)
Context (curTick : Z).

(** CacheMemory::CacheMemory; [raw] stands for the unset members. *)
Definition CacheMemory (p : Params) (policy : PS) (raw : Z) : Outcome (t PS H D) :=
  let? dataArr := BankedArray.BankedArray raw (p_dataArrayBanks p) (p_dataAccessLatency p)
                    (p_start_index_bit p) (rubyClockPeriod ruby) in
  let? tagArr := BankedArray.BankedArray raw (p_tagArrayBanks p) (p_tagAccessLatency p)
                   (p_start_index_bit p) (rubyClockPeriod ruby) in
  Ret (mk (p_is_icache p) ∅ [] policy dataArr tagArr
         (ALUFreeListArray.ALUFreeListArray (p_atomicALUs p) (u64 (p_atomicLatency p * rubyClockPeriod ruby)))
         (p_size p) raw raw (p_assoc p) (p_start_index_bit p) (p_resourceStalls p) (p_block_size p) []
         (p_weighted p) no_stats ∅).

(** [replacement_data[i][j] = instantiateEntry()] over all sets. *)
Fixpoint instantiate_sets (sets assoc : nat) (s : PS) : Outcome (PS * list (list H)) :=
  match sets with
  | O => Ret (s, [])
  | S sets => let? (s, hs) := instantiate assoc s in
              let? (s, rest) := instantiate_sets sets assoc s in Ret (s, hs :: rest)
  end.

(** CacheMemory::init *)
Definition init (c : t PS H D) : Outcome (t PS H D) :=
  let c := if m_block_size c =? 0 then c <| m_block_size := blockSizeBytes ruby |> else c in
  if (m_cache_assoc c =? 0) || (m_block_size c =? 0) then Exit gem5_undefined
  else
    let sets := Z.quot (Z.quot (m_cache_size c) (m_cache_assoc c)) (m_block_size c) in
    let? _ := assert (1 <? sets) in
    let? bits := floorLog2 sets in
    let? _ := assert (0 <? bits) in
    let? (s, datas) := instantiate_sets (Z.to_nat sets) (Z.to_nat (m_cache_assoc c)) (policy_state c) in
    Ret (c <| m_cache_num_sets := sets |> <| m_cache_num_set_bits := bits |>
           <| m_cache := replicate (Z.to_nat sets) (replicate (Z.to_nat (m_cache_assoc c)) None) |>
           <| replacement_data := datas |> <| policy_state := s |>).

Definition is_line (a : Z) : bool := a =? makeLineAddress ruby a.

(** CacheMemory::addressToCacheSet *)
Definition addressToCacheSet (c : t PS H D) (address : Z) : Outcome Z :=
  let? _ := assert (is_line address) in
  bitSelect address (u32 (m_start_index_bit c)) (u32 (m_start_index_bit c + m_cache_num_set_bits c - 1)).

(** [m_cache[set][way]] *)
Definition slot_at (c : t PS H D) (set way : Z) : option (option positive) :=
  if (set <? 0) || (way <? 0) then None
  else match m_cache c !! Z.to_nat set with
       | Some row => row !! Z.to_nat way
       | None => None
       end.

Definition slot (c : t PS H D) (set way : Z) : Outcome (option positive) :=
  match slot_at c set way with Some p => Ret p | None => Exit gem5_undefined end.

(** [m_cache[set][way] = p], within bounds. *)
Definition set_slot (c : t PS H D) (set way : Z) (p : option positive) : t PS H D :=
  c <| m_cache := alter (fun row => <[Z.to_nat way := p]> row) (Z.to_nat set) (m_cache c) |>.

(** [*p] *)
Definition deref (c : t PS H D) (p : option positive) : Outcome (positive * Entry.t H D) :=
  match p with
  | None => Exit gem5_undefined
  | Some p => match store c !! p with Some e => Ret (p, e) | None => Exit gem5_undefined end
  end.

(** An assignment to members of [*p]. *)
Definition update (p : positive) (f : Entry.t H D -> Entry.t H D) (c : t PS H D) : t PS H D :=
  c <| store := alter f p (store c) |>.

(** A call of the policy on the replacement data of an entry. *)
Definition with_data (e : Entry.t H D) (f : H -> PS -> Outcome PS) (c : t PS H D) : Outcome (t PS H D) :=
  match Entry.replacementData e with
  | Some h => let? s := f h (policy_state c) in Ret (c <| policy_state := s |>)
  | None => Exit gem5_undefined
  end.

(** CacheMemory::findTagInSet *)
Definition findTagInSet (c : t PS H D) (cacheSet tag : Z) : Outcome Z :=
  let? _ := assert (is_line tag) in
  match m_tag_index c !! tag with
  | Some i => let? p := slot c cacheSet i in
              let? (_, e) := deref c p in
              Ret (if bool_decide (Entry.m_Permission e = NotPresent) then -1 else i)
  | None => Ret (-1)
  end.

(** CacheMemory::findTagInSetIgnorePermissions *)
Definition findTagInSetIgnorePermissions (c : t PS H D) (cacheSet tag : Z) : Outcome Z :=
  let? _ := assert (is_line tag) in
  Ret (match m_tag_index c !! tag with Some i => i | None => -1 end).

(** CacheMemory::getAddressAtIdx *)
Definition getAddressAtIdx (c : t PS H D) (idx : Z) : Outcome Z :=
  if m_cache_assoc c =? 0 then Exit gem5_undefined
  else
    let set := Z.quot idx (m_cache_assoc c) in
    let? _ := assert (set <? m_cache_num_sets c) in
    let way := idx - set * m_cache_assoc c in
    let? _ := assert (way <? m_cache_assoc c) in
    let? p := slot c set way in
    match p with
    | None => Ret 0
    | Some _ =>
        let? (_, e) := deref c p in
        Ret (if bool_decide (Entry.m_Permission e = PermInvalid)
                || bool_decide (Entry.m_Permission e = NotPresent)
             then 0 else Entry.m_Address e)
    end.

(** CacheMemory::lookup *)
Definition lookup (c : t PS H D) (address : Z) : Outcome (option positive) :=
  let? _ := assert (is_line address) in
  let? cacheSet := addressToCacheSet c address in
  let? loc := findTagInSet c cacheSet address in
  if loc =? -1 then Ret None else slot c cacheSet loc.

(** [touch(entry->replacementData); entry->setLastAccess(curTick());] *)
Definition touch_entry (p : positive) (e : Entry.t H D) (c : t PS H D) : Outcome (t PS H D) :=
  let? c := with_data e (touch curTick) c in
  Ret (update p (Entry.setLastAccess curTick) c).

(** CacheMemory::tryCacheAccess; the result is whether the access hits, and the
    entry whose data block [data_ptr] points to. *)
Definition tryCacheAccess (c : t PS H D) (address : Z) (type : RubyRequestType)
  : Outcome (bool * option positive * t PS H D) :=
  let? entry := lookup c address in
  match entry with
  | None => Ret (false, None, c)
  | Some _ =>
      let? (p, e) := deref c entry in
      let? c := touch_entry p e c in
      if bool_decide (Entry.m_Permission e = Read_Write) then Ret (true, Some p, c)
      else if bool_decide (Entry.m_Permission e = Read_Only)
              && (bool_decide (type = LD) || bool_decide (type = IFETCH)) then Ret (true, Some p, c)
      else Ret (false, None, c)
  end.

(** CacheMemory::testCacheAccess *)
Definition testCacheAccess (c : t PS H D) (address : Z) (type : RubyRequestType)
  : Outcome (bool * option positive * t PS H D) :=
  let? entry := lookup c address in
  match entry with
  | None => Ret (false, None, c)
  | Some _ =>
      let? (p, e) := deref c entry in
      let? c := touch_entry p e c in
      Ret (negb (bool_decide (Entry.m_Permission e = NotPresent)), Some p, c)
  end.

(** CacheMemory::isTagPresent *)
Definition isTagPresent (c : t PS H D) (address : Z) : Outcome bool :=
  let? entry := lookup c address in
  Ret (match entry with None => false | Some _ => true end).

(** The loop of [cacheAvail] over the ways [ws]. *)
Fixpoint avail_in (c : t PS H D) (cacheSet address : Z) (ws : list Z) : Outcome bool :=
  match ws with
  | [] => Ret false
  | i :: ws =>
      let? p := slot c cacheSet i in
      match p with
      | None => Ret true
      | Some _ =>
          let? (_, e) := deref c p in
          if (Entry.m_Address e =? address) || bool_decide (Entry.m_Permission e = NotPresent)
          then Ret true else avail_in c cacheSet address ws
      end
  end.

Definition ways (c : t PS H D) : list Z := seqZ 0 (m_cache_assoc c).

(** CacheMemory::cacheAvail *)
Definition cacheAvail (c : t PS H D) (address : Z) : Outcome bool :=
  let? _ := assert (is_line address) in
  let? cacheSet := addressToCacheSet c address in
  avail_in c cacheSet address (ways c).

(** The first open way of [allocate]. *)
Fixpoint open_in (c : t PS H D) (cacheSet : Z) (ws : list Z) : Outcome Z :=
  match ws with
  | [] => Exit "Allocate didn't find an available entry"
  | i :: ws =>
      let? p := slot c cacheSet i in
      match p with
      | None => Ret i
      | Some _ =>
          let? (_, e) := deref c p in
          if bool_decide (Entry.m_Permission e = NotPresent) then Ret i else open_in c cacheSet ws
      end
  end.

(** The entry [allocate] leaves in the slot. *)
Definition placed (address cacheSet i : Z) (h : H) (e : Entry.t H D) : Entry.t H D :=
  Entry.setLastAccess curTick
    ((Entry.setPosition cacheSet i
       (e <| Entry.m_Address := address |> <| Entry.m_Permission := PermInvalid |> <| Entry.m_locked := -1 |>))
     <| Entry.replacementData := Some h |>).

(** [replacement_data[set][way]] *)
Definition data_at (c : t PS H D) (set way : Z) : Outcome H :=
  match replacement_data c !! Z.to_nat set with
  | Some row => match row !! Z.to_nat way with Some h => Ret h | None => Exit gem5_undefined end
  | None => Exit gem5_undefined
  end.

(** CacheMemory::allocate, which returns [entry]. *)
Definition allocate (c : t PS H D) (address : Z) (entry : option positive)
  : Outcome (t PS H D * option positive) :=
  let? _ := assert (is_line address) in
  let? present := isTagPresent c address in
  let? _ := assert (negb present) in
  let? avail := cacheAvail c address in
  let? _ := assert avail in
  let? cacheSet := addressToCacheSet c address in
  let? i := open_in c cacheSet (ways c) in
  let c := set_slot c cacheSet i entry in
  let? (p, _) := deref c entry in
  let? h := data_at c cacheSet i in
  let c := update p (placed address cacheSet i h) c in
  let c := c <| m_tag_index := <[address := i]> (m_tag_index c) |> in
  let? s := reset curTick h (policy_state c) in
  Ret (c <| policy_state := s |>, entry).

(** CacheMemory::deallocate *)
Definition deallocate (c : t PS H D) (address : Z) : Outcome (t PS H D) :=
  let? entry := lookup c address in
  match entry with
  | None => Exit assertion
  | Some _ =>
      let? (p, e) := deref c entry in
      let? c := with_data e invalidate c in
      let? _ := slot c (Entry._set e) (Entry._way e) in
      let c := c <| store := delete p (store c) |> in
      let c := set_slot c (Entry._set e) (Entry._way e) None in
      Ret (c <| m_tag_index := delete address (m_tag_index c) |>)
  end.

(** The entries of a set, as the candidates of [cacheProbe]. *)
Fixpoint entries_in (c : t PS H D) (cacheSet : Z) (ws : list Z) : Outcome (list (Entry.t H D)) :=
  match ws with
  | [] => Ret []
  | i :: ws =>
      let? p := slot c cacheSet i in
      let? (_, e) := deref c p in
      let? es := entries_in c cacheSet ws in
      Ret (e :: es)
  end.

Fixpoint handles (es : list (Entry.t H D)) : Outcome (list H) :=
  match es with
  | [] => Ret []
  | e :: es => match Entry.replacementData e with
               | None => Exit gem5_undefined
               | Some h => let? hs := handles es in Ret (h :: hs)
               end
  end.

(** CacheMemory::cacheProbe *)
Definition cacheProbe (c : t PS H D) (address : Z) : Outcome (Z * t PS H D) :=
  let? _ := assert (is_line address) in
  let? avail := cacheAvail c address in
  let? _ := assert (negb avail) in
  let? cacheSet := addressToCacheSet c address in
  let? es := entries_in c cacheSet (ways c) in
  let? hs := handles es in
  let? (i, s) := getVictim hs (policy_state c) in
  let c := c <| policy_state := s |> in
  match es !! i with
  | None => Exit gem5_undefined
  | Some victim =>
      let? p := slot c cacheSet (Entry._way victim) in
      let? (_, e) := deref c p in
      Ret (Entry.m_Address e, c)
  end.

(** CacheMemory::setMRU of an address, of an entry, and with an occupancy. *)
Definition setMRU (c : t PS H D) (address : Z) : Outcome (t PS H D) :=
  let? entry := lookup c (makeLineAddress ruby address) in
  match entry with
  | None => Ret c
  | Some _ => let? (p, e) := deref c entry in touch_entry p e c
  end.

Definition setMRU_entry (c : t PS H D) (entry : option positive) : Outcome (t PS H D) :=
  match entry with
  | None => Exit assertion
  | Some _ => let? (p, e) := deref c entry in touch_entry p e c
  end.

Definition setMRU_occupancy (c : t PS H D) (address occupancy : Z) : Outcome (t PS H D) :=
  let? entry := lookup c (makeLineAddress ruby address) in
  match entry with
  | None => Ret c
  | Some _ =>
      let? (p, e) := deref c entry in
      let? c := with_data e (fun h => if m_use_occupancy c then touch_occupancy curTick h occupancy
                                      else touch curTick h) c in
      Ret (update p (Entry.setLastAccess curTick) c)
  end.

(** CacheMemory::getReplacementWeight *)
Definition getReplacementWeight (c : t PS H D) (set loc : Z) : Outcome Z :=
  let? _ := assert (set <? m_cache_num_sets c) in
  let? _ := assert (loc <? m_cache_assoc c) in
  let? p := slot c set loc in
  match p with
  | None => Ret 0
  | Some _ => let? (_, e) := deref c p in
              let? _ := assert (0 <=? Entry.validBlocks e) in
              Ret (Entry.validBlocks e)
  end.

(** CacheMemory::setLocked, clearLocked, isLocked *)
Definition locked_entry (c : t PS H D) (address : Z) : Outcome (positive * Entry.t H D) :=
  let? entry := lookup c address in
  match entry with None => Exit assertion | Some _ => deref c entry end.

Definition setLocked (c : t PS H D) (address context : Z) : Outcome (t PS H D) :=
  let? (p, _) := locked_entry c address in Ret (update p (Entry.setLocked context) c).

Definition clearLocked (c : t PS H D) (address : Z) : Outcome (t PS H D) :=
  let? (p, _) := locked_entry c address in Ret (update p Entry.clearLocked c).

Definition isLocked (c : t PS H D) (address context : Z) : Outcome bool :=
  let? (_, e) := locked_entry c address in Ret (Entry.isLocked context e).

(** [for (set : m_cache) for (line : set) if (line) f(line);] *)
Definition for_lines {A : Type} (f : positive -> Entry.t H D -> A * t PS H D -> A * t PS H D)
  (c : t PS H D) (a : A) : Outcome (A * t PS H D) :=
  outcome_fold (fun '(a, c) (line : option positive) =>
                  match line with
                  | None => Ret (a, c)
                  | Some _ => let? (p, e) := deref c line in Ret (f p e (a, c))
                  end) (concat (m_cache c)) (a, c).

(** CacheMemory::clearLockedAll *)
Definition clearLockedAll (c : t PS H D) (context : Z) : Outcome (t PS H D) :=
  let? (_, c) := for_lines (fun p e '(a, c) =>
                   (a, if Entry.isLocked context e then update p Entry.clearLocked c else c)) c tt in
  Ret c.

(** The end of a transaction: the line leaves both sets and is unlocked. *)
Definition leave_htm (e : Entry.t H D) : Entry.t H D :=
  Entry.clearLocked (e <| Entry.m_htmInWriteSet := false |> <| Entry.m_htmInReadSet := false |>).

Definition count (b : bool) (n : Z) : Z := if b then u64 (n + 1) else n.

(** CacheMemory::htmAbortTransaction; [invalidateEntry] is the override of the protocol. *)
Definition htmAbortTransaction (invalidateEntry : Entry.t H D -> Entry.t H D) (c : t PS H D)
  : Outcome (t PS H D) :=
  let? (sizes, c) := for_lines (fun p e '((r, w), c) =>
      ((count (Entry.m_htmInReadSet e) r, count (Entry.m_htmInWriteSet e) w),
       update p (fun e => leave_htm (if Entry.m_htmInWriteSet e then invalidateEntry e else e)) c)) c (0, 0) in
  let s := cacheMemoryStats c in
  Ret (c <| cacheMemoryStats := s <| htmTransAbortReadSet := htmTransAbortReadSet s ++ [fst sizes] |>
                                  <| htmTransAbortWriteSet := htmTransAbortWriteSet s ++ [snd sizes] |> |>).

(** CacheMemory::htmCommitTransaction *)
Definition htmCommitTransaction (c : t PS H D) : Outcome (t PS H D) :=
  let? (sizes, c) := for_lines (fun p e '((r, w), c) =>
      ((count (Entry.m_htmInReadSet e) r, count (Entry.m_htmInWriteSet e) w), update p leave_htm c)) c (0, 0) in
  let s := cacheMemoryStats c in
  Ret (c <| cacheMemoryStats := s <| htmTransCommitReadSet := htmTransCommitReadSet s ++ [fst sizes] |>
                                  <| htmTransCommitWriteSet := htmTransCommitWriteSet s ++ [snd sizes] |> |>).

(** CacheMemory::recordCacheContents: the records given to the recorder, in order. *)
Definition request_of (c : t PS H D) (perm : AccessPermission) : RubyRequestType :=
  match perm with
  | Read_Only => if m_is_instruction_only_cache c then IFETCH else LD
  | Read_Write => ST
  | _ => NULL
  end.

Definition recordCacheContents (c : t PS H D) : Outcome (list (Z * RubyRequestType * Z * D)) :=
  let? (records, _) := for_lines (fun p e '(l, c) =>
      let request_type := request_of c (Entry.m_Permission e) in
      (if bool_decide (request_type = NULL) then l
       else l ++ [(Entry.m_Address e, request_type, Entry.m_last_touch_tick e, Entry.block e)], c)) c [] in
  Ret records.

(** *** Banks and statistics *)

Definition stat (f : Stats -> Stats) (c : t PS H D) : t PS H D :=
  c <| cacheMemoryStats := f (cacheMemoryStats c) |>.

Definition reserve_data (c : t PS H D) (addr : Z) : Outcome (t PS H D) :=
  if m_resource_stalls c then
    let? set := addressToCacheSet c addr in
    let? b := BankedArray.reserve curTick (dataArray c) set in Ret (c <| dataArray := b |>)
  else Ret c.

Definition reserve_tag (c : t PS H D) (addr : Z) : Outcome (t PS H D) :=
  if m_resource_stalls c then
    let? set := addressToCacheSet c addr in
    let? b := BankedArray.reserve curTick (tagArray c) set in Ret (c <| tagArray := b |>)
  else Ret c.

(** CacheMemory::recordRequestType *)
Definition recordRequestType (c : t PS H D) (requestType : CacheRequestType) (addr : Z)
  : Outcome (t PS H D) :=
  match requestType with
  | DataArrayRead =>
      let? c := reserve_data c addr in
      Ret (stat (fun s => s <| numDataArrayReads := numDataArrayReads s + 1 |>) c)
  | DataArrayWrite =>
      let? c := reserve_data c addr in
      Ret (stat (fun s => s <| numDataArrayWrites := numDataArrayWrites s + 1 |>) c)
  | TagArrayRead =>
      let? c := reserve_tag c addr in
      Ret (stat (fun s => s <| numTagArrayReads := numTagArrayReads s + 1 |>) c)
  | TagArrayWrite =>
      let? c := reserve_tag c addr in
      Ret (stat (fun s => s <| numTagArrayWrites := numTagArrayWrites s + 1 |>) c)
  | AtomicALUOperation =>
      let c := if m_resource_stalls c
               then c <| atomicALUArray := ALUFreeListArray.reserve curTick (makeLineAddress ruby addr)
                                             (atomicALUArray c) |>
               else c in
      Ret (stat (fun s => s <| numAtomicALUOperations := numAtomicALUOperations s + 1 |>) c)
  end.

Definition reserve_dataSpecf (c : t PS H D) (addr access_time init_cycle : Z) : Outcome (t PS H D) :=
  let? set := addressToCacheSet c addr in
  let? b := BankedArray.reserveSpecf (dataArray c) set access_time init_cycle in Ret (c <| dataArray := b |>).

Definition reserve_tagSpecf (c : t PS H D) (addr access_time init_cycle : Z) : Outcome (t PS H D) :=
  let? set := addressToCacheSet c addr in
  let? b := BankedArray.reserveSpecf (tagArray c) set access_time init_cycle in Ret (c <| tagArray := b |>).

(** CacheMemory::recordRequestTypeSpecf; it reserves whether or not stalls are modelled. *)
Definition recordRequestTypeSpecf (c : t PS H D) (requestType : CacheRequestType)
  (addr access_time init_cycle : Z) : Outcome (t PS H D) :=
  match requestType with
  | DataArrayRead =>
      let? c := reserve_dataSpecf c addr access_time init_cycle in
      Ret (stat (fun s => s <| numDataArrayReads := numDataArrayReads s + 1 |>) c)
  | DataArrayWrite =>
      let? c := reserve_dataSpecf c addr access_time init_cycle in
      Ret (stat (fun s => s <| numDataArrayWrites := numDataArrayWrites s + 1 |>) c)
  | TagArrayRead =>
      let? c := reserve_tagSpecf c addr access_time init_cycle in
      Ret (stat (fun s => s <| numTagArrayReads := numTagArrayReads s + 1 |>) c)
  | TagArrayWrite =>
      let? c := reserve_tagSpecf c addr access_time init_cycle in
      Ret (stat (fun s => s <| numTagArrayWrites := numTagArrayWrites s + 1 |>) c)
  | AtomicALUOperation => Ret c (* warn *)
  end.

(** Both checks: [data] and [tag] ask the arrays, the ALUs are asked alike. *)
Definition check_with (data tag : Z -> Outcome bool) (c : t PS H D) (res : CacheResourceType) (addr : Z)
  : Outcome (bool * t PS H D) :=
  if negb (m_resource_stalls c) then Ret (true, c)
  else
    match res with
    | TagArray =>
        let? set := addressToCacheSet c addr in
        let? ok := tag set in
        Ret (ok, if ok then c else stat (fun s => s <| numTagArrayStalls := numTagArrayStalls s + 1 |>) c)
    | DataArray =>
        let? set := addressToCacheSet c addr in
        let? ok := data set in
        Ret (ok, if ok then c else stat (fun s => s <| numDataArrayStalls := numDataArrayStalls s + 1 |>) c)
    | AtomicALUArray =>
        let '(ok, a) := ALUFreeListArray.tryAccess curTick (makeLineAddress ruby addr) (atomicALUArray c) in
        let c := c <| atomicALUArray := a |> in
        Ret (ok, if ok then c
                 else stat (fun s => s <| numAtomicALUArrayStalls := numAtomicALUArrayStalls s + 1 |>) c)
    end.

(** CacheMemory::checkResourceAvailable *)
Definition checkResourceAvailable (c : t PS H D) (res : CacheResourceType) (addr : Z)
  : Outcome (bool * t PS H D) :=
  check_with (BankedArray.tryAccess curTick (dataArray c)) (BankedArray.tryAccess curTick (tagArray c)) c res addr.

(** CacheMemory::checkResourceAvailableSpecf *)
Definition checkResourceAvailableSpecf (c : t PS H D) (res : CacheResourceType) (addr cycle : Z)
  : Outcome (bool * t PS H D) :=
  check_with (fun set => BankedArray.tryAccessSpecf (dataArray c) set cycle)
             (fun set => BankedArray.tryAccessSpecf (tagArray c) set cycle) c res addr.

(** CacheMemory::getRefreshStartPoint: the bank is computed, the result is always 0. *)
Definition getRefreshStartPoint (c : t PS H D) (res : CacheResourceType) (addr : Z) : Outcome Z :=
  match res with
  | TagArray => let? set := addressToCacheSet c addr in
                let? _ := BankedArray.mapIndexToBank (tagArray c) set in Ret 0
  | DataArray => let? set := addressToCacheSet c addr in
                 let? _ := BankedArray.mapIndexToBank (dataArray c) set in Ret 0
  | AtomicALUArray => Exit "Unrecognized cache resource type."
  end.

(** CacheMemory::isBlockInvalid, isBlockNotBusy *)
Definition isBlockInvalid (c : t PS H D) (cache_set loc : Z) : Outcome bool :=
  let? p := slot c cache_set loc in
  let? (_, e) := deref c p in Ret (bool_decide (Entry.m_Permission e = PermInvalid)).

Definition isBlockNotBusy (c : t PS H D) (cache_set loc : Z) : Outcome bool :=
  let? p := slot c cache_set loc in
  let? (_, e) := deref c p in Ret (negb (bool_decide (Entry.m_Permission e = Busy))).

(** The profile functions. *)
Definition profileDemandHit : t PS H D -> t PS H D := stat (fun s => s <| m_demand_hits := m_demand_hits s + 1 |>).
Definition profileDemandMiss : t PS H D -> t PS H D := stat (fun s => s <| m_demand_misses := m_demand_misses s + 1 |>).
Definition profileMemoryWrite : t PS H D -> t PS H D :=
  stat (fun s => s <| numDataArrayWrites := numDataArrayWrites s + 1 |>).
Definition profilePrefetchHit : t PS H D -> t PS H D := stat (fun s => s <| m_prefetch_hits := m_prefetch_hits s + 1 |>).
Definition profilePrefetchMiss : t PS H D -> t PS H D :=
  stat (fun s => s <| m_prefetch_misses := m_prefetch_misses s + 1 |>).

End Operations.
End CacheMemory.
