(* ===== verification/Gem5Facts.v ===== *)
(** * Correctness of the gem5 cache structures

    The banked arrays exclude overlapping accesses; the cache memory keeps its
    tag index and its table consistent and behaves as a partial map from line
    addresses to entries, with as many lines per set as it has ways. *)
From S2P Require Import Prelude Gem5Arrays Gem5Policies Gem5Cache.
From stdpp Require Import base list gmap strings.
From Stdlib Require Import ZArith Lia.
Open Scope Z_scope.

Module Gem5Facts.
Import CacheMemory.

Section Invariant.
Context {PS H D : Type} {assoc : nat} {Policy : ReplacementPolicy PS H} {Laws : PolicyLaws PS H assoc}.
Context (ruby : RubySystem).
Abbreviation cache := (t PS H D).
Implicit Types c : cache.

(** The set of an address, as a number. *)
Definition set_of c (a : Z) : Z :=
  Z.land (Z.shiftr a (m_start_index_bit c)) (2 ^ m_cache_num_set_bits c - 1).

(** The index bits lie in the address and number the sets of the table; the table
    and the replacement data have the same shape, and the data of each set are a
    row of the policy. *)
Definition shaped c : Prop :=
  0 <= m_start_index_bit c /\ 0 < m_cache_num_set_bits c /\
  m_start_index_bit c + m_cache_num_set_bits c <= 64 /\
  2 ^ m_cache_num_set_bits c <= m_cache_num_sets c < 2 ^ 31 /\
  0 < m_cache_assoc c < 2 ^ 31 /\
  length (m_cache c) = Z.to_nat (m_cache_num_sets c) /\
  Forall (fun row => length row = Z.to_nat (m_cache_assoc c)) (m_cache c) /\
  length (replacement_data c) = Z.to_nat (m_cache_num_sets c) /\
  Forall (fun row => length row = Z.to_nat (m_cache_assoc c)) (replacement_data c) /\
  Z.to_nat (m_cache_assoc c) = assoc /\ Forall (row (policy_state c)) (replacement_data c).

(** A state of the policy in which no row of [s] is damaged. *)
Definition kept (s s' : PS) : Prop := forall r, row s r -> row s' r.

(** The entry [e] in the slot of a set and way knows its place and is indexed. *)
Definition filed c (s w : Z) (e : Entry.t H D) : Prop :=
  Entry._set e = s /\ Entry._way e = w /\ Entry.m_Permission e <> NotPresent /\
  is_line ruby (Entry.m_Address e) = true /\ set_of c (Entry.m_Address e) = s /\
  m_tag_index c !! Entry.m_Address e = Some w /\
  exists h, Entry.replacementData e = Some h /\ data_at c s w = Ret h.

(** Table, store and tag index agree. *)
Definition wf c : Prop :=
  shaped c /\
  (forall s w p, slot_at c s w = Some (Some p) -> exists e, store c !! p = Some e /\ filed c s w e) /\
  (forall a i, m_tag_index c !! a = Some i -> is_line ruby a = true /\ 0 <= i /\
     exists p e, slot_at c (set_of c a) i = Some (Some p) /\ store c !! p = Some e /\ Entry.m_Address e = a).

(** The abstract cache: the entry that an address is mapped to. *)
Definition view c (a : Z) : option positive :=
  match m_tag_index c !! a with
  | Some i => match slot_at c (set_of c a) i with Some p => p | None => None end
  | None => None
  end.

(** *** Addresses *)

Lemma mask_ones n : 0 <= n <= 64 -> Gem5Cache.mask n = Z.ones n.
Proof.
  intros Hn. unfold Gem5Cache.mask. rewrite Z.ones_equiv. destruct (Z.leb_spec 64 n); [|lia].
  replace n with 64 by lia. done.
Qed.

Lemma line_range a : is_line ruby a = true -> 0 <= a < 2 ^ 64.
Proof.
  unfold is_line, makeLineAddress. intros E%Z.eqb_eq. rewrite (mask_ones 64) in E by lia.
  rewrite Z.land_assoc, <- Z.land_assoc, (Z.land_comm (Z.ones 64)), Z.land_assoc, Z.land_ones in E by lia.
  pose proof (Z.mod_pos_bound (Z.land a (Z.lnot (Gem5Cache.mask (blockSizeBits ruby)))) (2 ^ 64)). lia.
Qed.

Lemma set_of_range c a : shaped c -> 0 <= set_of c a < m_cache_num_sets c.
Proof.
  intros (Hs & Hb & _ & Hn & _). unfold set_of.
  replace (2 ^ m_cache_num_set_bits c - 1) with (Z.ones (m_cache_num_set_bits c)) by (rewrite Z.ones_equiv; lia).
  rewrite Z.land_ones by lia. pose proof (Z.mod_pos_bound (Z.shiftr a (m_start_index_bit c)) (2 ^ m_cache_num_set_bits c)).
  pose proof (pow2_pos (m_cache_num_set_bits c)). lia.
Qed.

Lemma addressToCacheSet_spec c a : shaped c -> is_line ruby a = true ->
  addressToCacheSet ruby c a = Ret (set_of c a).
Proof.
  intros (Hs & Hb & H64 & Hn & _) Hl. unfold addressToCacheSet, assert, bitSelect. rewrite Hl. cbn [outcome_bind].
  rewrite !u32_small by lia. unfold assert. rewrite (proj2 (Z.leb_le _ _)) by lia. cbn [outcome_bind].
  rewrite (proj2 (Z.leb_gt 64 _)) by lia. unfold set_of. do 2 f_equal.
  rewrite mask_ones by lia. rewrite Z.ones_equiv.
  replace (m_start_index_bit c + m_cache_num_set_bits c - 1 - m_start_index_bit c + 1)
    with (m_cache_num_set_bits c) by lia. lia.
Qed.

(** *** Slots *)

Lemma slot_at_range c s w p : shaped c -> slot_at c s w = Some p ->
  0 <= s < m_cache_num_sets c /\ 0 <= w < m_cache_assoc c.
Proof.
  intros (_ & _ & _ & _ & _ & Hl & Hr & _). unfold slot_at.
  destruct (Z.ltb_spec s 0), (Z.ltb_spec w 0); cbn [orb]; try done.
  destruct (m_cache c !! Z.to_nat s) as [row|] eqn:E; [|done]. intros Hp.
  rewrite Forall_forall in Hr. specialize (Hr row (list_elem_of_lookup_2 _ _ _ E)).
  apply lookup_lt_Some in E. apply lookup_lt_Some in Hp. lia.
Qed.

Lemma slot_at_some c s w : shaped c -> 0 <= s < m_cache_num_sets c -> 0 <= w < m_cache_assoc c ->
  exists p, slot_at c s w = Some p.
Proof.
  intros (_ & _ & _ & _ & _ & Hl & Hr & _) Hs Hw. unfold slot_at.
  rewrite (proj2 (Z.ltb_ge s 0)), (proj2 (Z.ltb_ge w 0)) by lia. cbn [orb].
  destruct (lookup_lt_is_Some_2 (m_cache c) (Z.to_nat s)) as [row E]; [lia|]. rewrite E.
  rewrite Forall_forall in Hr. specialize (Hr row (list_elem_of_lookup_2 _ _ _ E)).
  apply lookup_lt_is_Some_2. lia.
Qed.

Lemma data_at_some c s w : shaped c -> 0 <= s < m_cache_num_sets c -> 0 <= w < m_cache_assoc c ->
  exists h, data_at c s w = Ret h.
Proof.
  intros (_ & _ & _ & _ & _ & _ & _ & Hl & Hr & _) Hs Hw. unfold data_at.
  destruct (lookup_lt_is_Some_2 (replacement_data c) (Z.to_nat s)) as [row E]; [lia|]. rewrite E.
  rewrite Forall_forall in Hr. specialize (Hr row (list_elem_of_lookup_2 _ _ _ E)).
  destruct (lookup_lt_is_Some_2 row (Z.to_nat w)) as [h Eh]; [lia|]. rewrite Eh. by exists h.
Qed.

(** The data of a slot belong to a row of the policy. *)
Lemma data_row c s w h : shaped c -> data_at c s w = Ret h -> exists r, row (policy_state c) r /\ In h r.
Proof.
  intros (_ & _ & _ & _ & _ & _ & _ & _ & _ & _ & Hrows). unfold data_at.
  destruct (replacement_data c !! Z.to_nat s) as [r|] eqn:E; [|done].
  destruct (r !! Z.to_nat w) as [h'|] eqn:Eh; [|done]. intros [= <-]. exists r. split.
  - rewrite Forall_forall in Hrows. apply Hrows. by eapply list_elem_of_lookup_2.
  - apply list_elem_of_In. by eapply list_elem_of_lookup_2.
Qed.

Lemma set_slot_shaped c s w p : shaped c -> shaped (set_slot c s w p).
Proof.
  intros (H1 & H2 & H3 & H4 & H5 & Hl & Hr & H8 & H9 & H10 & H11). repeat split; try (cbn; lia || done).
  - cbn. by rewrite length_alter.
  - change (m_cache (set_slot c s w p)) with (alter (fun row => <[Z.to_nat w := p]> row) (Z.to_nat s) (m_cache c)).
    apply Forall_alter; [done|]. intros row _ Hrow. by rewrite length_insert.
Qed.

Lemma set_state_shaped c ps : shaped c -> kept (policy_state c) ps -> shaped (c <| policy_state := ps |>).
Proof.
  intros (H1 & H2 & H3 & H4 & H5 & Hl & Hr & H8 & H9 & H10 & H11) Hk. repeat split; try (cbn; lia || done).
  cbn. eapply Forall_impl; [exact H11|exact Hk].
Qed.

Lemma slot_at_set c s w p s' w' : shaped c -> 0 <= s < m_cache_num_sets c -> 0 <= w < m_cache_assoc c ->
  slot_at (set_slot c s w p) s' w' = if decide (s' = s /\ w' = w) then Some p else slot_at c s' w'.
Proof.
  intros Hsh Hs Hw. pose proof Hsh as (_ & _ & _ & _ & _ & Hl & Hr & _).
  unfold slot_at. cbn [m_cache set_slot field_update].
  destruct (Z.ltb_spec s' 0); cbn [orb]; [rewrite decide_False by lia; done|].
  destruct (Z.ltb_spec w' 0); cbn [orb]; [rewrite decide_False by lia; done|].
  destruct (decide (s' = s)) as [->|Hne].
  - rewrite list_lookup_alter_eq.
    destruct (lookup_lt_is_Some_2 (m_cache c) (Z.to_nat s)) as [row E]; [lia|]. rewrite E. cbn [fmap option_fmap option_map].
    rewrite Forall_forall in Hr. specialize (Hr row (list_elem_of_lookup_2 _ _ _ E)).
    destruct (decide (w' = w)) as [->|Hnw].
    + rewrite decide_True by done. apply list_lookup_insert_eq. lia.
    + rewrite decide_False by tauto. apply list_lookup_insert_ne. lia.
  - rewrite decide_False by tauto. rewrite list_lookup_alter_ne by lia. done.
Qed.

(** *** Lookup *)

(** A slot that holds a pointer can be read, and its entry is filed there. *)
Lemma deref_slot c s w p : wf c -> slot_at c s w = Some (Some p) ->
  exists e, deref c (Some p) = Ret (p, e) /\ store c !! p = Some e /\ filed c s w e.
Proof. intros (_ & Hs & _) E. destruct (Hs s w p E) as (e & Ee & Hf). exists e. cbn. by rewrite Ee. Qed.

Lemma slot_ret c s w p : slot_at c s w = Some p -> slot c s w = Ret p.
Proof. intros E. unfold slot. by rewrite E. Qed.

(** A view is a filed entry with that address. *)
Lemma view_some c a p : wf c -> view c a = Some p ->
  exists i e, m_tag_index c !! a = Some i /\ slot_at c (set_of c a) i = Some (Some p) /\
    store c !! p = Some e /\ Entry.m_Address e = a /\ filed c (set_of c a) i e.
Proof.
  intros Hw. pose proof Hw as (_ & Hs & Ht). unfold view. destruct (m_tag_index c !! a) as [i|] eqn:Ei; [|done].
  destruct (Ht a i Ei) as (_ & _ & q & e & Eq & Ee & Ea). rewrite Eq. intros [= <-].
  exists i, e. split; [done|]. split; [done|]. split; [done|]. split; [done|].
  destruct (Hs _ _ _ Eq) as (e' & Ee' & Hf). by replace e with e' by congruence.
Qed.

Lemma view_none c a : wf c -> view c a = None -> m_tag_index c !! a = None.
Proof.
  intros (_ & _ & Ht). unfold view. destruct (m_tag_index c !! a) as [i|] eqn:Ei; [|done].
  destruct (Ht a i Ei) as (_ & _ & q & e & Eq & _). by rewrite Eq.
Qed.

Lemma lookup_spec c a : wf c -> is_line ruby a = true -> lookup ruby c a = Ret (view c a).
Proof.
  intros Hw Hl. pose proof Hw as (Hsh & _). unfold lookup, assert. rewrite Hl. cbn [outcome_bind].
  rewrite addressToCacheSet_spec by done. cbn [outcome_bind]. unfold findTagInSet, assert. rewrite Hl. cbn [outcome_bind].
  destruct (view c a) as [p|] eqn:Ev.
  - destruct (view_some c a p Hw Ev) as (i & e & Ei & Es & Ee & Ea & Hf). rewrite Ei.
    rewrite (slot_ret _ _ _ _ Es). cbn [outcome_bind deref]. rewrite Ee. cbn [outcome_bind].
    destruct Hf as (_ & Hway & Hp & _). rewrite bool_decide_eq_false_2 by done.
    destruct (slot_at_range c _ _ _ Hsh Es) as [_ Hi].
    rewrite (proj2 (Z.eqb_neq i (-1))) by lia. by apply slot_ret.
  - by rewrite (view_none c a Hw Ev).
Qed.

(** The address of a filed entry is its view. *)
Lemma filed_view c s w p e : wf c -> slot_at c s w = Some (Some p) -> store c !! p = Some e ->
  filed c s w e -> view c (Entry.m_Address e) = Some p.
Proof.
  intros Hw Es Ee (_ & _ & _ & _ & Hset & Htag & _). unfold view. by rewrite Htag, Hset, Es.
Qed.

(** *** Availability *)

Lemma avail_in_spec c s a : wf c -> forall ws,
  (forall w, In w ws -> exists p, slot_at c s w = Some p) ->
  exists b, avail_in c s a ws = Ret b /\
    (b = true <-> exists w, In w ws /\ (slot_at c s w = Some None \/
       exists p e, slot_at c s w = Some (Some p) /\ store c !! p = Some e /\ Entry.m_Address e = a)).
Proof.
  intros Hw. induction ws as [|w ws IH]; intros Hin.
  { exists false. split; [done|]. split; [done|]. by intros (? & [] & _). }
  cbn [avail_in]. destruct (Hin w (or_introl eq_refl)) as [q Eq]. rewrite (slot_ret _ _ _ _ Eq). cbn [outcome_bind].
  destruct q as [p|].
  2: { exists true. split; [done|]. split; [|done]. intros _. exists w. split; [by left|by left]. }
  destruct (deref_slot c s w p Hw Eq) as (e & -> & Ee & Hf). cbn [outcome_bind].
  pose proof Hf as (_ & _ & Hp & _). rewrite (bool_decide_eq_false_2 _ Hp), orb_false_r.
  destruct (Z.eqb_spec (Entry.m_Address e) a) as [Ea|Ea].
  { exists true. split; [done|]. split; [|done]. intros _. exists w. split; [by left|]. right. by exists p, e. }
  destruct IH as (b & Eb & Hb); [intros; apply Hin; by right|]. exists b. split; [done|]. rewrite Hb. split.
  - intros (w' & Hw' & Hc). exists w'. split; [by right|done].
  - intros (w' & [<-|Hw'] & Hc); [|by exists w'].
    destruct Hc as [Hc|(p' & e' & Hp' & He' & Ha')]; [congruence|]. assert (p' = p) by congruence. subst. congruence.
Qed.

Lemma in_ways c w : In w (ways c) <-> 0 <= w < m_cache_assoc c.
Proof. unfold ways. rewrite <- list_elem_of_In, elem_of_seqZ. lia. Qed.

(** The line is present, or its set has an empty way. *)
Definition has_room c (a : Z) : Prop :=
  exists w, 0 <= w < m_cache_assoc c /\ slot_at c (set_of c a) w = Some None.

Lemma cacheAvail_spec c a : wf c -> is_line ruby a = true ->
  exists b, cacheAvail ruby c a = Ret b /\ (b = true <-> view c a <> None \/ has_room c a).
Proof.
  intros Hw Hl. pose proof Hw as (Hsh & _). unfold cacheAvail, assert. rewrite Hl. cbn [outcome_bind].
  rewrite addressToCacheSet_spec by done. cbn [outcome_bind].
  destruct (avail_in_spec c (set_of c a) a Hw (ways c)) as (b & Eb & Hb).
  { intros w Hin%in_ways. apply slot_at_some; [done| |done]. by apply set_of_range. }
  exists b. split; [done|]. rewrite Hb. split.
  - intros (w & Hin%in_ways & [Hn|(p & e & Ep & Ee & Ea)]); [right; by exists w|left].
    destruct (deref_slot c _ _ p Hw Ep) as (e' & _ & Ee' & Hf). assert (e' = e) by congruence. subst e'.
    pose proof (filed_view c _ _ p e Hw Ep Ee Hf) as Hv. rewrite Ea in Hv. by rewrite Hv.
  - intros [Hv|(w & Hr & Hn)].
    + destruct (view c a) as [p|] eqn:Ev; [|done]. destruct (view_some c a p Hw Ev) as (i & e & _ & Es & Ee & Ea & _).
      exists i. split; [apply in_ways; by apply (slot_at_range c _ _ _ Hsh Es)|]. right. by exists p, e.
    + exists w. split; [by apply in_ways|by left].
Qed.

(** *** Allocation *)

Lemma open_in_spec c s : wf c -> forall ws,
  (forall w, In w ws -> exists p, slot_at c s w = Some p) ->
  (exists w, In w ws /\ slot_at c s w = Some None) ->
  exists w, open_in c s ws = Ret w /\ In w ws /\ slot_at c s w = Some None.
Proof.
  intros Hw. induction ws as [|w ws IH]; intros Hin (w0 & Hw0 & E0); [done|]. cbn [open_in].
  destruct (Hin w (or_introl eq_refl)) as [q Eq]. rewrite (slot_ret _ _ _ _ Eq). cbn [outcome_bind].
  destruct q as [p|]; [|exists w; split; [done|]; split; [by left|done]].
  destruct (deref_slot c s w p Hw Eq) as (e & -> & Ee & Hf). cbn [outcome_bind].
  pose proof Hf as (_ & _ & Hp & _). rewrite (bool_decide_eq_false_2 _ Hp).
  destruct IH as (w' & Ew & Hi & Hn); [intros; apply Hin; by right| |exists w'; split; [done|]; split; [by right|done]].
  destruct Hw0 as [<-|Hw0]; [congruence|by exists w0].
Qed.

(** A pointer to a live entry that no slot holds. *)
Definition unplaced c (p : positive) : Prop :=
  is_Some (store c !! p) /\ forall s w, slot_at c s w <> Some (Some p).

(** The state [allocate] leaves. *)
Definition place (curTick a s i : Z) (h : H) (p : positive) (ps : PS) c : cache :=
  (update p (placed curTick a s i h) (set_slot c s i (Some p)))
    <| m_tag_index := <[a := i]> (m_tag_index c) |> <| policy_state := ps |>.

(** What [allocate] changed, field by field. *)
Lemma place_fields curTick a i h p ps e0 c : wf c -> kept (policy_state c) ps -> slot_at c (set_of c a) i = Some None -> store c !! p = Some e0 ->
  let c' := place curTick a (set_of c a) i h p ps c in
  shaped c' /\
  (forall s w, slot_at c' s w = if decide (s = set_of c a /\ w = i) then Some (Some p) else slot_at c s w) /\
  store c' !! p = Some (placed curTick a (set_of c a) i h e0) /\
  (forall q, q <> p -> store c' !! q = store c !! q) /\
  (forall b, m_tag_index c' !! b = if decide (b = a) then Some i else m_tag_index c !! b) /\
  (forall b, set_of c' b = set_of c b) /\ (forall s w, data_at c' s w = data_at c s w).
Proof.
  intros (Hsh & _) Hk Hi E0 c'. destruct (slot_at_range c _ _ _ Hsh Hi) as [Rs Ri].
  split; [exact (set_state_shaped _ ps (set_slot_shaped c (set_of c a) i (Some p) Hsh) Hk)|].
  split; [intros s w; exact (slot_at_set c (set_of c a) i (Some p) s w Hsh Rs Ri)|].
  change (store c') with (alter (placed curTick a (set_of c a) i h) p (store c)).
  change (m_tag_index c') with (<[a := i]> (m_tag_index c)).
  split; [by rewrite lookup_alter_eq, E0|]. split; [intros q Hq; by rewrite lookup_alter_ne|]. split; [|done].
  intros b. case_decide as E; [subst; apply lookup_insert_eq|by apply lookup_insert_ne].
Qed.

Lemma place_wf curTick a i h p ps c : wf c -> kept (policy_state c) ps -> data_at c (set_of c a) i = Ret h ->
  is_line ruby a = true -> view c a = None -> slot_at c (set_of c a) i = Some None -> unplaced c p ->
  wf (place curTick a (set_of c a) i h p ps c).
Proof.
  intros Hw Hk Hh Hl Hv Hi [[e0 E0] Hun]. pose proof Hw as (Hsh & Hslots & Htags).
  pose proof (view_none c a Hw Hv) as Hta. pose proof Hsh as (_ & _ & _ & Hn & Ha & _).
  destruct (slot_at_range c _ _ _ Hsh Hi) as [Rs Ri].
  destruct (place_fields curTick a i h p ps e0 c Hw Hk Hi E0) as (Hsh' & Hslot & Hst & Hne & Htag & Hset & Hdata).
  generalize dependent (place curTick a (set_of c a) i h p ps c). intros c' Hsh' Hslot Hst Hne Htag Hset Hdata.
  split; [done|split].
  - intros s w q. rewrite Hslot. case_decide as Hc.
    + intros [= <-]. destruct Hc as [-> ->]. eexists. split; [exact Hst|].
      unfold filed, placed. cbn. rewrite !u32_small, Htag, decide_True, Hset, Hdata by (done || lia).
      repeat split; try done. by exists h.
    + intros Eq. destruct (Hslots _ _ _ Eq) as (e & Ee & F1 & F2 & F3 & F4 & F5 & F6 & F7).
      exists e. rewrite Hne by (intros ->; by eapply Hun). split; [done|].
      unfold filed. rewrite Htag, Hset, Hdata, decide_False; [done|]. intros E. rewrite E in F6. congruence.
  - intros b j. rewrite Htag. case_decide as Hc.
    + intros [= <-]. subst b. rewrite Hset, Hslot, decide_True by done. split; [done|]. split; [lia|].
      eexists _, _. done.
    + intros Ej. destruct (Htags b j Ej) as (L & J & q & e & Eq & Ee & Eb). split; [done|]. split; [done|].
      exists q, e. rewrite Hset, Hslot, decide_False; [rewrite Hne by (intros ->; by eapply Hun); done|].
      intros [Es ->]. rewrite Es in Eq. congruence.
Qed.

Lemma place_view curTick a i h p ps c b : wf c -> kept (policy_state c) ps -> slot_at c (set_of c a) i = Some None -> unplaced c p ->
  view (place curTick a (set_of c a) i h p ps c) b = if decide (b = a) then Some p else view c b.
Proof.
  intros Hw Hk Hi [[e0 E0] _]. pose proof Hw as (_ & _ & Htags).
  destruct (place_fields curTick a i h p ps e0 c Hw Hk Hi E0) as (_ & Hslot & _ & _ & Htag & Hset & _).
  unfold view. rewrite Htag. case_decide as Hc.
  - subst b. by rewrite Hset, Hslot, decide_True.
  - destruct (m_tag_index c !! b) as [j|] eqn:Ej; [|done].
    destruct (Htags b j Ej) as (_ & _ & q & e & Eq & _). rewrite Hset, Hslot, decide_False; [done|].
    intros [Es ->]. rewrite Es in Eq. congruence.
Qed.

(** [allocate] of an absent line into a set with an empty way. *)
Lemma allocate_spec curTick a p c : wf c -> is_line ruby a = true -> view c a = None -> has_room c a ->
  unplaced c p ->
  exists i h ps, slot_at c (set_of c a) i = Some None /\ data_at c (set_of c a) i = Ret h /\
    kept (policy_state c) ps /\
    allocate ruby curTick c a (Some p) = Ret (place curTick a (set_of c a) i h p ps c, Some p).
Proof.
  intros Hw Hl Hv Hroom Hun. pose proof Hw as (Hsh & _). unfold allocate, isTagPresent.
  rewrite (lookup_spec c a Hw Hl), Hv. unfold assert. rewrite Hl. cbn [outcome_bind negb].
  destruct (cacheAvail_spec c a Hw Hl) as (b & -> & Hb). rewrite (proj2 Hb) by (by right). cbn [outcome_bind].
  rewrite addressToCacheSet_spec by done. cbn [outcome_bind].
  destruct (open_in_spec c (set_of c a) Hw (ways c)) as (i & -> & Hin%in_ways & Hi).
  { intros w Hin%in_ways. apply slot_at_some; [done| |done]. by apply set_of_range. }
  { destruct Hroom as (w & Rw & Ew). exists w. split; [by apply in_ways|done]. }
  cbn [outcome_bind]. destruct Hun as [[e0 E0] _]. cbn [deref].
  change (store (set_slot c (set_of c a) i (Some p))) with (store c). rewrite E0. cbn [outcome_bind].
  change (data_at (set_slot c (set_of c a) i (Some p)) (set_of c a) i) with (data_at c (set_of c a) i).
  destruct (data_at_some c (set_of c a) i Hsh) as [h Eh]; [by apply set_of_range|done|]. rewrite Eh. cbn [outcome_bind].
  destruct (data_row c _ _ h Hsh Eh) as (r & Hr & Hin').
  destruct (reset_row curTick (policy_state c) r h Hr Hin') as (ps & Eps & Hk).
  match goal with |- context [reset curTick h ?x] => change x with (policy_state c) end.
  rewrite Eps. cbn [outcome_bind]. by exists i, h, ps.
Qed.

(** *** Deallocation *)

(** The state [deallocate] leaves. *)
Definition drop_line (a s w : Z) (p : positive) (ps : PS) c : cache :=
  (set_slot ((c <| policy_state := ps |>) <| store := delete p (store c) |>) s w None)
    <| m_tag_index := delete a (m_tag_index c) |>.

Lemma deallocate_spec a p c : wf c -> is_line ruby a = true -> view c a = Some p ->
  exists i ps, slot_at c (set_of c a) i = Some (Some p) /\ m_tag_index c !! a = Some i /\
    kept (policy_state c) ps /\ deallocate ruby c a = Ret (drop_line a (set_of c a) i p ps c).
Proof.
  intros Hw Hl Hv. destruct (view_some c a p Hw Hv) as (i & e & Ei & Es & Ee & Ea & F1 & F2 & F3 & _ & _ & _ & F7).
  unfold deallocate. rewrite (lookup_spec c a Hw Hl), Hv. cbn [outcome_bind deref]. rewrite Ee. cbn [outcome_bind].
  destruct F7 as (h & Eh & Ed). destruct (data_row c _ _ h (proj1 Hw) Ed) as (r & Hr & Hin).
  destruct (invalidate_row (policy_state c) r h Hr Hin) as (ps & Eps & Hk).
  unfold with_data. rewrite Eh, Eps. cbn [outcome_bind]. rewrite F1, F2.
  assert (E1 : slot (c <| policy_state := ps |>) (set_of c a) i = Ret (Some p)) by (apply slot_ret; exact Es).
  rewrite E1. cbn [outcome_bind]. by exists i, ps.
Qed.

Lemma drop_fields a i p ps c : wf c -> kept (policy_state c) ps -> slot_at c (set_of c a) i = Some (Some p) ->
  let c' := drop_line a (set_of c a) i p ps c in
  shaped c' /\
  (forall s w, slot_at c' s w = if decide (s = set_of c a /\ w = i) then Some None else slot_at c s w) /\
  store c' = delete p (store c) /\
  (forall b, m_tag_index c' !! b = if decide (b = a) then None else m_tag_index c !! b) /\
  (forall b, set_of c' b = set_of c b) /\ (forall s w, data_at c' s w = data_at c s w).
Proof.
  intros (Hsh & _) Hk Hi c'. destruct (slot_at_range c _ _ _ Hsh Hi) as [Rs Ri].
  split; [exact (set_slot_shaped _ (set_of c a) i None (set_state_shaped c ps Hsh Hk))|].
  split; [intros s w; exact (slot_at_set c (set_of c a) i None s w Hsh Rs Ri)|]. split; [done|]. split; [|done].
  change (m_tag_index c') with (delete a (m_tag_index c)).
  intros b. case_decide as E; [subst; apply lookup_delete_eq|by apply lookup_delete_ne].
Qed.

(** Two slots never hold the same entry. *)
Lemma slot_unique c s w s' w' p : wf c -> slot_at c s w = Some (Some p) -> slot_at c s' w' = Some (Some p) ->
  s' = s /\ w' = w.
Proof.
  intros (_ & Hs & _) E E'. destruct (Hs _ _ _ E) as (e & Ee & F1 & F2 & _).
  destruct (Hs _ _ _ E') as (e' & Ee' & F1' & F2' & _). assert (e' = e) by congruence. subst e'. split; congruence.
Qed.

Lemma drop_wf a i p ps c : wf c -> kept (policy_state c) ps -> m_tag_index c !! a = Some i -> slot_at c (set_of c a) i = Some (Some p) ->
  wf (drop_line a (set_of c a) i p ps c).
Proof.
  intros Hw Hk Hti Hi. pose proof Hw as (_ & Hslots & Htags).
  destruct (drop_fields a i p ps c Hw Hk Hi) as (Hsh' & Hslot & Hst & Htag & Hset & Hdata).
  generalize dependent (drop_line a (set_of c a) i p ps c). intros c' Hsh' Hslot Hst Htag Hset Hdata.
  split; [done|split].
  - intros s w q. rewrite Hslot. case_decide as Hc; [done|]. intros Eq.
    destruct (Hslots _ _ _ Eq) as (e & Ee & F1 & F2 & F3 & F4 & F5 & F6 & F7).
    exists e. rewrite Hst, lookup_delete_ne by (intros ->; apply Hc; by eapply slot_unique).
    split; [done|]. unfold filed. rewrite Htag, Hset, Hdata, decide_False; [done|].
    intros E. apply Hc. rewrite E in F5, F6. split; congruence.
  - intros b j. rewrite Htag. case_decide as Hc; [done|]. intros Ej.
    destruct (Htags b j Ej) as (L & J & q & e & Eq & Ee & Eb). split; [done|]. split; [done|].
    assert (Hq : ~ (set_of c b = set_of c a /\ j = i)).
    { intros [Es ->]. rewrite Es, Hi in Eq. injection Eq as <-.
      destruct (Htags a i Hti) as (_ & _ & q & e' & Eq' & Ee' & Ea'). rewrite Hi in Eq'. injection Eq' as <-.
      congruence. }
    exists q, e. rewrite Hset, Hslot, decide_False by done. split; [done|]. split; [|done].
    rewrite Hst, lookup_delete_ne; [done|]. intros ->. apply Hq. by eapply slot_unique.
Qed.

Lemma drop_view a i p ps c b : wf c -> kept (policy_state c) ps -> m_tag_index c !! a = Some i -> slot_at c (set_of c a) i = Some (Some p) ->
  view (drop_line a (set_of c a) i p ps c) b = if decide (b = a) then None else view c b.
Proof.
  intros Hw Hk Hti Hi. pose proof Hw as (_ & _ & Htags).
  destruct (drop_fields a i p ps c Hw Hk Hi) as (_ & Hslot & _ & Htag & Hset & _).
  unfold view. rewrite Htag. case_decide as Hc; [done|].
  destruct (m_tag_index c !! b) as [j|] eqn:Ej; [|done]. rewrite Hset, Hslot, decide_False; [done|].
  intros [Es ->]. destruct (Htags b i Ej) as (_ & _ & q & e & Eq & Ee & Eb). rewrite Es, Hi in Eq. injection Eq as <-.
  destruct (Htags a i Hti) as (_ & _ & q & e' & Eq' & Ee' & Ea'). rewrite Hi in Eq'. injection Eq' as <-. congruence.
Qed.

(** *** Changes of an entry in place *)

(** [f] leaves the address, the place and the presence of an entry alone. *)
Definition keeps (f : Entry.t H D -> Entry.t H D) : Prop := forall e,
  Entry.m_Address (f e) = Entry.m_Address e /\ Entry._set (f e) = Entry._set e /\ Entry._way (f e) = Entry._way e /\
  Entry.replacementData (f e) = Entry.replacementData e /\
  (Entry.m_Permission e <> NotPresent -> Entry.m_Permission (f e) <> NotPresent).

Lemma store_update p f c q e : store (update p f c) !! q = Some e ->
  exists e0, store c !! q = Some e0 /\ (e = e0 \/ e = f e0).
Proof.
  change (store (update p f c)) with (alter f p (store c)). destruct (decide (p = q)) as [->|Hne].
  - rewrite lookup_alter_eq. destruct (store c !! q) as [e0|]; [|done]. intros [= <-]. exists e0. by split; [|right].
  - rewrite lookup_alter_ne by done. intros E. exists e. by split; [|left].
Qed.

Lemma store_update_fwd p f c q e : store c !! q = Some e ->
  exists e', store (update p f c) !! q = Some e' /\ (e' = e \/ e' = f e).
Proof.
  intros E. change (store (update p f c)) with (alter f p (store c)). destruct (decide (p = q)) as [->|Hne].
  - rewrite lookup_alter_eq, E. cbn. eexists. split; [done|by right].
  - rewrite lookup_alter_ne by done. exists e. by split; [|left].
Qed.

Lemma update_wf p f c : keeps f -> wf c -> wf (update p f c).
Proof.
  intros Hk (Hsh & Hs & Ht). split; [done|split].
  - intros s w q Eq. destruct (Hs s w q Eq) as (e & Ee & F1 & F2 & F3 & F4 & F5 & F6 & F7).
    destruct (store_update_fwd p f c q e Ee) as (e' & Ee' & [->| ->]); [by exists e|].
    destruct (Hk e) as (K1 & K2 & K3 & K4 & K5). exists (f e). split; [done|].
    unfold filed. rewrite K1, K2, K3. split; [done|]. split; [done|]. split; [by apply K5|]. split; [done|].
    split; [done|]. split; [done|]. by rewrite K4.
  - intros a i Ei. destruct (Ht a i Ei) as (L & J & q & e & Eq & Ee & Ea). split; [done|]. split; [done|].
    destruct (store_update_fwd p f c q e Ee) as (e' & Ee' & [->| ->]); [by exists q, e|].
    exists q, (f e). split; [done|]. split; [done|]. rewrite (proj1 (Hk e)). done.
Qed.

(** The rest of the state [c'] may differ from [c] in what no address depends on. *)
Definition same_lines c c' : Prop := wf c' /\ forall a, view c' a = view c a.

Lemma same_lines_refl c : wf c -> same_lines c c.
Proof. by split. Qed.

Lemma same_lines_update p f c : keeps f -> wf c -> same_lines c (update p f c).
Proof. intros Hk Hw. split; [by apply update_wf|done]. Qed.

Lemma same_lines_trans c1 c2 c3 : same_lines c1 c2 -> same_lines c2 c3 -> same_lines c1 c3.
Proof. intros [_ H1] [H2 H3]. split; [done|]. intros a. by rewrite H3, H1. Qed.

Lemma keeps_lastAccess tick : keeps (Entry.setLastAccess tick).
Proof. intros e. done. Qed.
Lemma keeps_setLocked context : keeps (Entry.setLocked context).
Proof. intros e. done. Qed.
Lemma keeps_clearLocked : keeps Entry.clearLocked.
Proof. intros e. done. Qed.
Lemma keeps_leave_htm : keeps leave_htm.
Proof. intros e. done. Qed.
Lemma keeps_changePermission perm : perm <> NotPresent -> keeps (Entry.changePermission perm).
Proof.
  intros Hp e. unfold Entry.changePermission. rewrite (bool_decide_eq_false_2 _ Hp), orb_false_r.
  by case_bool_decide.
Qed.
Lemma keeps_compose f g : keeps f -> keeps g -> keeps (fun e => g (f e)).
Proof.
  intros Hf Hg e. destruct (Hf e) as (A1 & A2 & A3 & A4 & A5). destruct (Hg (f e)) as (B1 & B2 & B3 & B4 & B5).
  repeat split; try congruence; auto.
Qed.
Lemma keeps_if (b : Entry.t H D -> bool) f : keeps f -> keeps (fun e => if b e then f e else e).
Proof. intros Hf e. destruct (b e); [apply Hf|done]. Qed.

(** Another state of the policy, in which no row is damaged. *)
Lemma set_state_wf c ps : wf c -> kept (policy_state c) ps -> wf (c <| policy_state := ps |>).
Proof. intros (Hsh & Hs & Ht) Hk. split; [by apply set_state_shaped|]. split; [exact Hs|exact Ht]. Qed.

Lemma touch_entry_spec curTick p e s w c : wf c -> filed c s w e ->
  exists c', touch_entry curTick p e c = Ret c' /\ same_lines c c'.
Proof.
  intros Hw (_ & _ & _ & _ & _ & _ & h & Eh & Ed). destruct (data_row c _ _ h (proj1 Hw) Ed) as (r & Hr & Hin).
  destruct (touch_row curTick (policy_state c) r h Hr Hin) as (ps & Eps & Hk).
  unfold touch_entry, with_data. rewrite Eh, Eps. cbn [outcome_bind]. eexists. split; [done|]. split; [|done].
  apply update_wf; [apply keeps_lastAccess|by apply set_state_wf].
Qed.

(** Every line of the cache can be visited, in any state reached on the way. *)
Lemma for_lines_spec {A} (f : positive -> Entry.t H D -> A * cache -> A * cache) c (x : A) :
  wf c -> (forall p e y c1, m_cache (snd (f p e (y, c1))) = m_cache c1) ->
  (forall p e y c1, wf c1 -> same_lines c1 (snd (f p e (y, c1)))) ->
  exists y c', for_lines f c x = Ret (y, c') /\ same_lines c c'.
Proof.
  intros Hw Hm Hf. unfold for_lines.
  assert (Hin : forall l, In l (concat (m_cache c)) -> match l with Some p => exists s w, slot_at c s w = Some (Some p) | None => True end).
  { intros [p|] Hl; [|done]. apply in_concat in Hl as (row & Hrow & Hp).
    apply list_elem_of_In, list_elem_of_lookup in Hrow as [s Es]. apply list_elem_of_In, list_elem_of_lookup in Hp as [w Ew].
    exists (Z.of_nat s), (Z.of_nat w). unfold slot_at. rewrite (proj2 (Z.ltb_ge _ 0)), (proj2 (Z.ltb_ge (Z.of_nat w) 0)) by lia.
    cbn [orb]. by rewrite !Nat2Z.id, Es. }
  assert (Hgen : forall ls c1 y, same_lines c c1 -> m_cache c1 = m_cache c ->
    (forall l, In l ls -> match l with Some p => exists s w, slot_at c s w = Some (Some p) | None => True end) ->
    exists y' c', outcome_fold (fun '(a, c) (line : option positive) =>
      match line with None => Ret (a, c) | Some _ => let? (p, e) := deref c line in Ret (f p e (a, c)) end) ls (y, c1)
      = Ret (y', c') /\ same_lines c c').
  { induction ls as [|l ls IH]; intros c1 y Hsl Hc1 Hls; [by exists y, c1|]. cbn [outcome_fold].
    destruct l as [p|]; [|cbn [outcome_bind]; apply IH; [done|done|intros; apply Hls; by right]].
    destruct (Hls (Some p) (or_introl eq_refl)) as (s & w & Es).
    assert (Es1 : slot_at c1 s w = Some (Some p)) by (unfold slot_at in *; by rewrite Hc1).
    destruct (deref_slot c1 s w p (proj1 Hsl) Es1) as (e & -> & _). cbn [outcome_bind].
    destruct (f p e (y, c1)) as [y2 c2] eqn:E2. apply IH; [|pose proof (Hm p e y c1) as Hm1; rewrite E2 in Hm1; cbn in Hm1; congruence|
      intros; apply Hls; by right].
    apply (same_lines_trans _ _ _ Hsl). pose proof (Hf p e y c1 (proj1 Hsl)) as Hf1. by rewrite E2 in Hf1. }
  apply Hgen; [by apply same_lines_refl|done|exact Hin].
Qed.

(** *** Replacement *)

Lemma entries_in_spec c s : wf c -> forall ws,
  (forall w, In w ws -> exists p, slot_at c s w = Some (Some p)) ->
  exists es, entries_in c s ws = Ret es /\
    Forall2 (fun w e => exists p, slot_at c s w = Some (Some p) /\ store c !! p = Some e /\ filed c s w e) ws es.
Proof.
  intros Hw. induction ws as [|w ws IH]; intros Hin; [by exists []|]. cbn [entries_in].
  destruct (Hin w (or_introl eq_refl)) as [p Ep]. rewrite (slot_ret _ _ _ _ Ep). cbn [outcome_bind].
  destruct (deref_slot c s w p Hw Ep) as (e & -> & Ee & Hf). cbn [outcome_bind].
  destruct IH as (es & -> & Hes); [intros; apply Hin; by right|]. cbn [outcome_bind].
  exists (e :: es). split; [done|]. constructor; [by exists p|done].
Qed.

Lemma handles_spec (es : list (Entry.t H D)) hs :
  Forall2 (fun e h => Entry.replacementData e = Some h) es hs -> handles es = Ret hs.
Proof. induction 1 as [|e h es hs He _ IH]; [done|]. cbn [handles]. by rewrite He, IH. Qed.

(** The candidates of a full set hold the data of the set, in order. *)
Lemma candidates_row c s es : shaped c -> 0 <= s < m_cache_num_sets c ->
  Forall2 (fun w e => exists p, slot_at c s w = Some (Some p) /\ store c !! p = Some e /\ filed c s w e) (ways c) es ->
  exists r, handles es = Ret r /\ row (policy_state c) r /\ length r = length es.
Proof.
  intros Hsh Hs Hes. pose proof Hsh as (_ & _ & _ & _ & Ha & _ & _ & Hl & Hr & _ & Hrows).
  destruct (lookup_lt_is_Some_2 (replacement_data c) (Z.to_nat s)) as [r Er]; [lia|].
  rewrite Forall_forall in Hr, Hrows. pose proof (list_elem_of_lookup_2 _ _ _ Er) as Hin.
  specialize (Hr r Hin). specialize (Hrows r Hin).
  pose proof (Forall2_length _ _ _ Hes) as Hlen. unfold ways in Hlen. rewrite length_seqZ in Hlen.
  exists r. split; [|split; [done|lia]]. apply handles_spec, Forall2_same_length_lookup_2; [lia|].
  intros k e h Ee Eh. destruct (Forall2_lookup_r _ _ _ _ _ Hes Ee) as (w & Ew & p & _ & _ & F).
  destruct F as (_ & _ & _ & _ & _ & _ & h' & Eh' & Ed). apply lookup_seqZ in Ew as [-> Hk].
  unfold data_at in Ed. rewrite Er in Ed. replace (Z.to_nat (0 + Z.of_nat k)) with k in Ed by lia. rewrite Eh in Ed. congruence.
Qed.

Lemma full_set c a : wf c -> ~ has_room c a ->
  forall w, In w (ways c) -> exists p, slot_at c (set_of c a) w = Some (Some p).
Proof.
  intros (Hsh & _) Hno w Hw%in_ways.
  destruct (slot_at_some c (set_of c a) w Hsh (set_of_range c a Hsh) Hw) as [[p|] Ep]; [by exists p|].
  exfalso. apply Hno. by exists w.
Qed.

(** The victim is a line of the same set, whatever the policy. *)
Lemma cacheProbe_spec c a : wf c -> is_line ruby a = true -> view c a = None -> ~ has_room c a ->
  exists v p s, cacheProbe ruby c a = Ret (v, c <| policy_state := s |>) /\ kept (policy_state c) s /\
    is_line ruby v = true /\ set_of c v = set_of c a /\ view c v = Some p.
Proof.
  intros Hw Hl Hv Hno. pose proof Hw as (Hsh & _). pose proof Hsh as (_ & _ & _ & _ & Hassoc & _).
  unfold cacheProbe, assert. rewrite Hl. cbn [outcome_bind].
  destruct (cacheAvail_spec c a Hw Hl) as (b & -> & Hb).
  destruct b; [destruct (proj1 Hb eq_refl); done|]. cbn [outcome_bind negb].
  rewrite addressToCacheSet_spec by done. cbn [outcome_bind].
  destruct (entries_in_spec c (set_of c a) Hw (ways c) (full_set c a Hw Hno)) as (es & -> & Hes). cbn [outcome_bind].
  destruct (candidates_row c (set_of c a) es Hsh (set_of_range c a Hsh) Hes) as (hs & -> & Hrow & Hlen).
  cbn [outcome_bind]. destruct (victim_row (policy_state c) hs Hrow) as (i & s & -> & Hi & Hk).
  { intros ->. cbn in Hlen. apply Forall2_length in Hes. unfold ways in Hes. rewrite length_seqZ in Hes. lia. }
  cbn [outcome_bind]. destruct (lookup_lt_is_Some_2 es i) as [e Ee]; [lia|]. rewrite Ee.
  destruct (Forall2_lookup_r _ _ _ _ _ Hes Ee) as (w & Ew & p & Ep & Est & Hf). pose proof Hf as (_ & F2 & _ & F4 & F5 & _).
  rewrite F2. set (c1 := c <| policy_state := s |>). assert (E1 : slot_at c1 (set_of c a) w = Some (Some p)) by exact Ep.
  rewrite (slot_ret _ _ _ _ E1). cbn [outcome_bind deref]. change (store c1) with (store c). rewrite Est. cbn [outcome_bind].
  exists (Entry.m_Address e), p, s. split; [done|]. split; [done|]. split; [done|]. split; [done|]. by eapply filed_view.
Qed.

(** *** Capacity of a set *)

Lemma way_injective c a b i : wf c -> m_tag_index c !! a = Some i -> m_tag_index c !! b = Some i ->
  set_of c a = set_of c b -> a = b.
Proof.
  intros (_ & _ & Ht) Ha Hb Es. destruct (Ht a i Ha) as (_ & _ & p & e & Ep & Ee & <-).
  destruct (Ht b i Hb) as (_ & _ & q & e' & Eq & Ee' & <-). rewrite Es, Eq in Ep. injection Ep as ->. congruence.
Qed.

Lemma set_bounded c s l : wf c -> NoDup l ->
  (forall a, In a l -> view c a <> None /\ set_of c a = s) -> Z.of_nat (length l) <= m_cache_assoc c.
Proof.
  intros Hw Hnd Hl. pose proof Hw as (Hsh & _ & Ht).
  set (way a := match m_tag_index c !! a with Some i => i | None => -1 end).
  assert (Hway : forall a, In a l -> exists i, m_tag_index c !! a = Some i /\ 0 <= i < m_cache_assoc c).
  { intros a Ha. destruct (Hl a Ha) as [Hv _]. unfold view in Hv. destruct (m_tag_index c !! a) as [i|] eqn:Ei; [|done].
    exists i. split; [done|]. destruct (Ht a i Ei) as (_ & _ & p & e & Ep & _). by apply (slot_at_range c _ _ _ Hsh Ep). }
  assert (Hlen : (length (map way l) <= length (ways c))%nat).
  { apply NoDup_incl_length.
    - apply NoDup_ListNoDup, NoDup_fmap_2_strong; [|done]. intros a b Ha%list_elem_of_In Hb%list_elem_of_In E.
      destruct (Hway a Ha) as (i & Ei & _), (Hway b Hb) as (j & Ej & _). unfold way in E. rewrite Ei, Ej in E. subst j.
      apply (way_injective c a b i Hw Ei Ej). destruct (Hl a Ha), (Hl b Hb). congruence.
    - intros w (a & <- & Ha)%in_map_iff. destruct (Hway a Ha) as (i & Ei & Hi). unfold way. rewrite Ei. by apply in_ways. }
  rewrite length_map in Hlen. unfold ways in Hlen. rewrite length_seqZ in Hlen.
  pose proof Hsh as (_ & _ & _ & _ & Ha & _). lia.
Qed.

End Invariant.
End Gem5Facts.
