(* ===== verification/Gem5PolicyFacts.v ===== *)
(** * The replacement policies keep what the cache relies on

    Every policy that has one datum per entry satisfies [PolicyLaws], for any
    associativity: a general construction, and its instances. *)
From S2P Require Import Prelude Gem5Arrays Gem5Policies Gem5Rrip.
From stdpp Require Import base list strings.
From Stdlib Require Import ZArith Lia.
Open Scope Z_scope.

Module Gem5PolicyFacts.

(** ** Data *)

Section Data.
Context {A : Type}.
Implicit Types s : list A.

(** The handles [r] point to data that satisfy [P]. *)
Definition live (P : A -> Prop) s (r : list nat) : Prop := Forall (fun h => exists d, s !! h = Some d /\ P d) r.

Lemma get_some s h d : s !! h = Some d -> Data.get s h = Ret d.
Proof. unfold Data.get. by intros ->. Qed.

Lemma set_some (f : A -> A) s h d : s !! h = Some d -> Data.set f h s = Ret (<[h := f d]> s).
Proof. intros E. unfold Data.set. by rewrite (get_some _ _ _ E). Qed.

Lemma live_in P s r h : live P s r -> In h r -> exists d, s !! h = Some d /\ P d.
Proof. unfold live. rewrite Forall_forall. intros Hl Hin%list_elem_of_In. by apply Hl. Qed.

Lemma live_insert P s r h d : live P s r -> P d -> live P (<[h := d]> s) r.
Proof.
  intros Hl Hd. eapply Forall_impl; [exact Hl|]. intros k (d' & E & Hp). cbn.
  destruct (decide (k = h)) as [->|Hne].
  - exists d. split; [|done]. apply list_lookup_insert_eq. by eapply lookup_lt_Some.
  - exists d'. by rewrite list_lookup_insert_ne.
Qed.

Lemma live_app P s s' r : live P s r -> live P (s ++ s') r.
Proof. intros Hl. eapply Forall_impl; [exact Hl|]. intros k (d & E & Hp). exists d. split; [by apply lookup_app_l_Some|done]. Qed.

(** Reading the data of live handles. *)
Lemma gets_spec P s r : live P s r -> exists ds, Data.gets s r = Ret ds /\
  Forall2 (fun h d => s !! h = Some d /\ P d) r ds.
Proof.
  induction 1 as [|h r (d & E & Hp) _ (ds & IH & Hds)]; [by exists []|]. cbn [Data.gets].
  rewrite (get_some _ _ _ E), IH. exists (d :: ds). split; [done|]. by constructor.
Qed.

Lemma gets_inv s : forall r ds, Data.gets s r = Ret ds -> Forall2 (fun h d => s !! h = Some d) r ds.
Proof.
  induction r as [|h r IH]; intros ds; cbn [Data.gets]; [by intros [= <-]|]. unfold Data.get at 1.
  destruct (s !! h) as [d|] eqn:E; [|done]. cbn [outcome_bind]. destruct (Data.gets s r) as [ds'|] eqn:Eg; [|done].
  intros [= <-]. constructor; [done|by apply IH].
Qed.

(** Searching for a candidate. *)
Lemma pick_range better ds : forall victim i v n, (victim < n)%nat -> (i + length ds <= n)%nat ->
  (Data.pick (A := A) better victim i ds v < n)%nat.
Proof.
  induction ds as [|d ds IH]; intros victim i v n Hv Hi; cbn in *; [done|]. destruct (better d v); apply IH; lia.
Qed.

Lemma choose_range better (ds : list A) : ds <> [] -> exists i, Data.choose better ds = Ret i /\ (i < length ds)%nat.
Proof.
  destruct ds as [|v ds]; [done|]. intros _. eexists. split; [done|].
  apply pick_range; cbn; lia.
Qed.

Lemma find_some (found : A -> bool) ds : forall i j, Data.find found i ds = Some j ->
  (i <= j < i + length ds)%nat /\ exists d, ds !! (j - i)%nat = Some d /\ found d = true.
Proof.
  induction ds as [|d ds IH]; intros i j; cbn; [done|]. destruct (found d) eqn:E.
  - intros [= <-]. split; [lia|]. exists d. by rewrite Nat.sub_diag.
  - intros Hf. destruct (IH _ _ Hf) as (Hr & d' & Ed & Hd). split; [lia|]. exists d'.
    split; [|done]. by replace (j - i)%nat with (S (j - S i)) by lia.
Qed.

Lemma find_none (found : A -> bool) ds : forall i, Data.find found i ds = None -> Forall (fun d => found d = false) ds.
Proof.
  induction ds as [|d ds IH]; intros i; cbn; [by constructor|]. destruct (found d) eqn:E; [done|].
  intros Hf. constructor; [done|by eapply IH].
Qed.

(** The first best datum: none is better, and it is better than all before it. *)
Definition first_best (better : A -> A -> bool) (ds : list A) (i : nat) (v : A) : Prop :=
  ds !! i = Some v /\ forall j d, ds !! j = Some d ->
    better d v = false /\ ((j < i)%nat -> better v d = true).

Lemma pick_first_best better :
  (forall a b, better a b = true -> better b a = false) ->
  (forall a b v, better a v = true -> better b v = false -> better a b = true) ->
  forall ds pre victim v, first_best better pre victim v ->
  exists v', first_best better (pre ++ ds) (Data.pick better victim (length pre) ds v) v'.
Proof.
  intros asym cotrans. induction ds as [|h ds IH]; intros pre victim v Hb; cbn [Data.pick].
  { exists v. by rewrite app_nil_r. }
  destruct Hb as [Ev Hb].
  assert (E : pre ++ h :: ds = (pre ++ [h]) ++ ds) by (by rewrite <- app_assoc).
  assert (El : S (length pre) = length (pre ++ [h])) by (rewrite length_app; cbn; lia).
  rewrite E, El. destruct (better h v) eqn:Eh; apply IH; split.
  - by rewrite list_lookup_middle.
  - intros j h' [Ej|(Hj & [_ <-]%list_lookup_singleton_Some)]%lookup_app_Some.
    + destruct (Hb j h' Ej) as [Hn _]. pose proof (cotrans _ _ _ Eh Hn) as Ht. split; [by apply asym|done].
    + split; [|lia]. destruct (better h h) eqn:Ehh; [|done]. by rewrite (asym _ _ Ehh) in Ehh.
  - by apply lookup_app_l_Some.
  - intros j h' [Ej|(Hj & [_ <-]%list_lookup_singleton_Some)]%lookup_app_Some; [by apply (Hb j)|].
    split; [done|]. apply lookup_lt_Some in Ev. lia.
Qed.

Lemma choose_first_best better :
  (forall a b, better a b = true -> better b a = false) ->
  (forall a b v, better a v = true -> better b v = false -> better a b = true) ->
  forall ds : list A, ds <> [] -> exists i v, Data.choose better ds = Ret i /\ first_best better ds i v.
Proof.
  intros asym cotrans [|v ds]; [done|]. intros _. cbn [Data.choose Data.pick].
  assert (Ev : better v v = false) by (destruct (better v v) eqn:E; [by rewrite (asym _ _ E) in E|done]).
  rewrite Ev. destruct (pick_first_best better asym cotrans ds [v] 0 v) as [v' Hv].
  - split; [done|]. intros [|j] h; [|done]. intros [= <-]. split; [done|lia].
  - by exists (Data.pick better 0 1 ds v), v'.
Qed.

(** A comparison by a number. *)
Lemma choose_least (key : A -> Z) (ds : list A) : ds <> [] ->
  exists i v, Data.choose (fun c v => key c <? key v) ds = Ret i /\ ds !! i = Some v /\
    forall j d, ds !! j = Some d -> key v <= key d /\ ((j < i)%nat -> key v < key d).
Proof.
  intros Hne. destruct (choose_first_best (fun c v => key c <? key v)) with (ds := ds) as (i & v & E & Hv & Hb); [| |done|].
  - intros a b. rewrite Z.ltb_lt, Z.ltb_ge. lia.
  - intros a b v. rewrite !Z.ltb_lt, Z.ltb_ge. lia.
  - exists i, v. split; [done|]. split; [done|]. intros j d Ej. destruct (Hb j d Ej) as [B1 B2].
    rewrite Z.ltb_ge in B1. rewrite Z.ltb_lt in B2. by split.
Qed.
End Data.

(** ** Policies with one datum per entry *)

Section Flat.
Context {PS A : Type} {Policy : ReplacementPolicy PS nat}.
(** The data in the state, and what each of them satisfies. *)
Context (datas : PS -> list A) (P : A -> Prop).

(** An operation that changes the datum of an entry and nothing else of the data. *)
Definition changes (f : nat -> PS -> Outcome PS) : Prop := forall s h d, datas s !! h = Some d -> P d ->
  exists s' d', f h s = Ret s' /\ datas s' = <[h := d']> (datas s) /\ P d'.

Hypothesis inst : forall s, exists s' d, instantiateEntry s = Ret (s', length (datas s)) /\
  datas s' = datas s ++ [d] /\ P d.
Hypothesis touch_changes : forall tick, changes (touch tick).
Hypothesis reset_changes : forall tick, changes (reset tick).
Hypothesis invalidate_changes : changes invalidate.
Hypothesis victim : forall s r, live P (datas s) r -> r <> [] -> exists i s', getVictim r s = Ret (i, s') /\
  (i < length r)%nat /\ forall r', live P (datas s) r' -> live P (datas s') r'.

Lemma changes_live f s r h : changes f -> live P (datas s) r -> In h r ->
  exists s', f h s = Ret s' /\ forall r', live P (datas s) r' -> live P (datas s') r'.
Proof.
  intros Hf Hl Hin. destruct (live_in _ _ _ _ Hl Hin) as (d & E & Hp). destruct (Hf s h d E Hp) as (s' & d' & Es & Ed & Hd).
  exists s'. split; [done|]. intros r' Hr'. rewrite Ed. by apply live_insert.
Qed.

Lemma instantiate_live n : forall s, exists s' r, instantiate n s = Ret (s', r) /\ length r = n /\
  live P (datas s') r /\ forall r', live P (datas s) r' -> live P (datas s') r'.
Proof.
  induction n as [|n IH]; intros s; [exists s, []; repeat split; [constructor|auto]|]. cbn [instantiate].
  destruct (inst s) as (s1 & d & -> & E1 & Hd). cbn [outcome_bind].
  destruct (IH s1) as (s2 & r & -> & Hr & Hl & Hk). cbn [outcome_bind]. exists s2, (length (datas s) :: r).
  split; [done|]. split; [cbn; by rewrite Hr|].
  assert (H1 : forall r', live P (datas s) r' -> live P (datas s1) r') by (intros r' Hr'; rewrite E1; by apply live_app).
  split; [|by auto]. constructor; [|done].
  assert (Hl1 : live P (datas s1) [length (datas s)]).
  { constructor; [|done]. exists d. split; [|done]. by rewrite E1, list_lookup_middle. }
  apply Hk in Hl1. by inversion Hl1.
Qed.

Definition flat_laws (assoc : nat) : PolicyLaws PS nat assoc.
Proof.
  refine {| ready := fun _ => True; row := fun s r => live P (datas s) r |}.
  - intros s _. destruct (instantiate_live assoc s) as (s' & r & E & Hl & Hr & Hk). exists s', r. auto.
  - intros tick s r h. by apply changes_live.
  - intros tick s r h. by apply changes_live.
  - intros s r h. by apply changes_live.
  - intros s r. apply victim.
Defined.
End Flat.

(** Operations that set the datum. *)
Lemma set_changes {A} (f : A -> A) : changes (fun s => s) (fun _ => True) (Data.set f).
Proof. intros s h d E _. exists (<[h := f d]> s), (f d). by rewrite (set_some _ _ _ _ E). Qed.

Lemma set_changes_fst {A G} (f : A -> A) :
  changes (fst (A := list A) (B := G)) (fun _ => True) (fun h s => let? ds := Data.set f h (fst s) in Ret (ds, snd s)).
Proof. intros s h d E _. exists (<[h := f d]> (fst s), snd s), (f d). by rewrite (set_some _ _ _ _ E). Qed.

(** The victim of a comparison. *)
Lemma choose_victim {A} better (s : list A) r : live (fun _ => True) s r -> r <> [] ->
  exists i, (let? ds := Data.gets s r in let? i := Data.choose better ds in Ret (i, s)) = Ret (i, s) /\ (i < length r)%nat.
Proof.
  intros Hl Hne. destruct (gets_spec _ _ _ Hl) as (ds & -> & Hds). cbn [outcome_bind].
  pose proof (Forall2_length _ _ _ Hds) as Hlen. destruct (choose_range better ds) as (i & -> & Hi).
  - intros ->. by destruct r.
  - exists i. split; [done|lia].
Qed.

(** ** Instances *)

#[global] Instance lru_laws assoc : PolicyLaws (list LRU.ReplData) nat assoc.
Proof.
  apply (flat_laws (fun s => s) (fun _ => True)).
  - intros s. by exists (s ++ [LRU.mkData 0 0]), (LRU.mkData 0 0).
  - intros tick. apply set_changes.
  - intros tick. apply set_changes.
  - apply set_changes.
  - intros s r Hl Hne. destruct (choose_victim LRU.older s r Hl Hne) as (i & E & Hi). by exists i, s.
Defined.

Definition weighted_laws assoc : @PolicyLaws (list LRU.ReplData) nat assoc LRU.weighted.
Proof.
  apply (@flat_laws _ _ LRU.weighted (fun s => s) (fun _ => True)).
  - intros s. by exists (s ++ [LRU.mkData 0 0]), (LRU.mkData 0 0).
  - intros tick. apply set_changes.
  - intros tick. apply set_changes.
  - apply set_changes.
  - intros s r Hl Hne. destruct (choose_victim LRU.lighter s r Hl Hne) as (i & E & Hi). by exists i, s.
Defined.

Lemma lighter_spec a b : LRU.lighter a b = true <-> LRU.last_occ_ptr a < LRU.last_occ_ptr b \/
  LRU.last_occ_ptr a = LRU.last_occ_ptr b /\ LRU.lastTouchTick a < LRU.lastTouchTick b.
Proof.
  unfold LRU.lighter. destruct (Z.ltb_spec (LRU.last_occ_ptr a) (LRU.last_occ_ptr b)); [split; [by left|done]|].
  destruct (Z.eqb_spec (LRU.last_occ_ptr a) (LRU.last_occ_ptr b)); [rewrite Z.ltb_lt|]; intuition (lia || congruence).
Qed.

Definition bip_laws {G} {R : RandomMt G} btp assoc : @PolicyLaws (list LRU.ReplData * G) nat assoc (BIP.policy btp).
Proof.
  apply (@flat_laws _ _ (BIP.policy btp) fst (fun _ => True)).
  - intros [s g]. by exists (s ++ [LRU.mkData 0 0], g), (LRU.mkData 0 0).
  - intros tick. apply set_changes_fst.
  - intros tick [s g] h d E _. cbn. destruct (random 1 100 g) as [n g']. unfold LRU.set_tick.
    rewrite (set_some _ _ _ _ E). by eexists (_, g'), _.
  - apply set_changes_fst.
  - intros [s g] r Hl Hne. cbn [getVictim BIP.policy LRU.policy fst snd]. unfold LRU.least.
    destruct (choose_victim LRU.older s r Hl Hne) as (i & -> & Hi). by exists i, (s, g).
Defined.

Lemma newest_range ds : forall victim i v n, (victim < n)%nat -> (i + length ds <= n)%nat ->
  (MRU.newest victim i ds v < n)%nat.
Proof.
  induction ds as [|d ds IH]; intros victim i v n Hv Hi; cbn in *; [done|].
  destruct (d =? 0); [lia|]. destruct (v <? d); apply IH; lia.
Qed.

Definition mru_laws assoc : @PolicyLaws (list Z) nat assoc MRU.policy.
Proof.
  apply (@flat_laws _ _ MRU.policy (fun s => s) (fun _ => True)).
  - intros s. by exists (s ++ [0]), 0.
  - intros tick. apply set_changes.
  - intros tick. apply set_changes.
  - apply set_changes.
  - intros s r Hl Hne. destruct (gets_spec _ _ _ Hl) as (ds & E & Hds). pose proof (Forall2_length _ _ _ Hds) as Hlen.
    cbn [getVictim MRU.policy]. rewrite E. cbn [outcome_bind]. destruct ds as [|v ds]; [by destruct r|].
    eexists _, s. split; [done|]. split; [|done]. apply newest_range; cbn [length] in *; lia.
Defined.

Definition lfu_laws assoc : @PolicyLaws (list Z) nat assoc LFU.policy.
Proof.
  apply (@flat_laws _ _ LFU.policy (fun s => s) (fun _ => True)).
  - intros s. by exists (s ++ [0]), 0.
  - intros tick. apply set_changes.
  - intros tick. apply set_changes.
  - apply set_changes.
  - intros s r Hl Hne. destruct (choose_victim Z.ltb s r Hl Hne) as (i & E & Hi). by exists i, s.
Defined.

Definition random_laws {G} {R : RandomMt G} {RL : RandomLaws G} assoc :
  @PolicyLaws (list bool * G) nat assoc RandomRP.policy.
Proof.
  apply (@flat_laws _ _ RandomRP.policy fst (fun _ => True)).
  - intros [s g]. by exists (s ++ [false], g), false.
  - intros tick [s g] h d E _. exists (s, g), d. cbn. by rewrite list_insert_id.
  - intros tick. apply set_changes_fst.
  - apply set_changes_fst.
  - intros [s g] r Hl Hne. destruct (gets_spec _ _ _ Hl) as (ds & E & Hds). pose proof (Forall2_length _ _ _ Hds) as Hlen.
    cbn [getVictim RandomRP.policy fst snd] in *. assert (0 < Z.of_nat (length r)) by (destruct r; [done|cbn; lia]).
    unfold assert. rewrite (proj2 (Z.ltb_lt 0 _)) by done. cbn [outcome_bind].
    assert (0 <= u32 (Z.of_nat (length r) - 1) <= Z.of_nat (length r) - 1)
      by (unfold u32; split; [apply Z.mod_pos_bound; lia|apply Z.mod_le; lia]).
    pose proof (random_range 0 (u32 (Z.of_nat (length r) - 1)) g) as Hr.
    destruct (random 0 (u32 (Z.of_nat (length r) - 1)) g) as [n g']. cbn [fst] in Hr. rewrite E. cbn [outcome_bind].
    rewrite (proj2 (Z.ltb_ge n 0)), (proj2 (Z.leb_gt _ n)) by lia. cbn [orb]. eexists _, (s, g'). split; [done|]. split; [|done].
    destruct (Data.find negb 0 ds) as [i|] eqn:Ef; [|lia]. apply find_some in Ef. lia.
Defined.

(** *** FIFO and SecondChance *)

Lemma alter_changes f : changes FIFO.data (fun _ => True) (FIFO.alter_data f).
Proof.
  intros s h d E _. eexists _, (f d). unfold FIFO.alter_data. rewrite (set_some _ _ _ _ E). by split.
Qed.

Lemma insert_last_changes : changes FIFO.data (fun _ => True) FIFO.insert_last.
Proof.
  intros s h d E _. unfold FIFO.insert_last, FIFO.alter_data. cbn [FIFO.data field_update].
  rewrite (set_some _ _ _ _ E). eexists _, _. by split.
Qed.

(** One operation after another on the same entry. *)
Lemma changes_then {PS A} (datas : PS -> list A) P f g : changes datas P f -> changes datas P g ->
  changes datas P (fun h s => let? s := f h s in g h s).
Proof.
  intros Hf Hg s h d E Hp. destruct (Hf s h d E Hp) as (s1 & d1 & -> & E1 & Hp1). cbn [outcome_bind].
  destruct (Hg s1 h d1) as (s2 & d2 & E2 & Ed & Hp2); [|done|].
  - rewrite E1. apply list_lookup_insert_eq. by eapply lookup_lt_Some.
  - exists s2, d2. split; [done|]. split; [|done]. by rewrite Ed, E1, list_insert_insert_eq.
Qed.

Lemma fifo_victim s r : live (fun _ => True) (FIFO.data s) r -> r <> [] ->
  exists i, FIFO.getVictim_ r s = Ret i /\ (i < length r)%nat.
Proof.
  intros Hl Hne. unfold FIFO.getVictim_. destruct (gets_spec _ _ _ Hl) as (ds & -> & Hds). cbn [outcome_bind].
  pose proof (Forall2_length _ _ _ Hds) as Hlen. rewrite Hlen. apply choose_range. intros ->. by destruct r.
Qed.

Definition fifo_laws assoc : @PolicyLaws FIFO.t nat assoc FIFO.policy.
Proof.
  apply (@flat_laws _ _ FIFO.policy FIFO.data (fun _ => True)).
  - intros s. eexists _, (FIFO.mkData 0 false). split; [reflexivity|]. by split.
  - intros tick s h d E _. exists s, d. by rewrite list_insert_id.
  - intros tick. apply insert_last_changes.
  - apply insert_last_changes.
  - intros s r Hl Hne. destruct (fifo_victim s r Hl Hne) as (i & E & Hi). exists i, s. cbn. by rewrite E.
Defined.

(** What a handle has in a state. *)
Definition tick (s : FIFO.t) (h : nat) : Z :=
  match FIFO.data s !! h with Some d => FIFO.tickInserted d | None => 0 end.
Definition chance (s : FIFO.t) (h : nat) : bool :=
  match FIFO.data s !! h with Some d => FIFO.hasSecondChance d | None => false end.

(** The candidates that have a second chance. *)
Definition chances (s : FIFO.t) (r : list nat) : nat := length (List.filter (chance s) r).

Lemma filter_shorter {A} (f g : A -> bool) l x : (forall y, f y = true -> g y = true) ->
  In x l -> g x = true -> f x = false -> (length (List.filter f l) < length (List.filter g l))%nat.
Proof.
  intros Hfg. assert (Hle : forall l, (length (List.filter f l) <= length (List.filter g l))%nat).
  { induction l0 as [|y l0 IH]; [done|]. cbn. pose proof (Hfg y). destruct (f y), (g y); cbn; intuition (congruence || lia). }
  induction l as [|y l IH]; [done|]. intros [<-|Hin] Hg Hf; cbn.
  - rewrite Hg, Hf. cbn. specialize (Hle l). lia.
  - specialize (IH Hin Hg Hf). pose proof (Hfg y). destruct (f y), (g y); cbn; intuition (congruence || lia).
Qed.

(** A second chance is used: the entry becomes the last of the queue. *)
Lemma useSecondChance_spec s h d : FIFO.data s !! h = Some d ->
  exists s1, SecondChance.useSecondChance h s = Ret s1 /\ FIFO.timeTicks s1 = u64 (FIFO.timeTicks s + 1) /\
    FIFO.data s1 = <[h := FIFO.mkData (u64 (FIFO.timeTicks s + 1)) false]> (FIFO.data s).
Proof.
  intros E. unfold SecondChance.useSecondChance, FIFO.insert_last, FIFO.alter_data. cbn [FIFO.data field_update].
  rewrite (set_some _ _ _ _ E). cbn [outcome_bind]. eexists. split.
  - rewrite (set_some _ _ h (d <| FIFO.tickInserted := u64 (FIFO.timeTicks s + 1) |>)); [reflexivity|].
    cbn. apply list_lookup_insert_eq. by eapply lookup_lt_Some.
  - split; [done|]. cbn. by rewrite list_insert_insert_eq.
Qed.

Lemma used_other s s1 h k d : FIFO.data s1 = <[h := d]> (FIFO.data s) -> k <> h -> FIFO.data s1 !! k = FIFO.data s !! k.
Proof. intros -> Hne. by apply list_lookup_insert_ne. Qed.

Lemma used_self s s1 h d0 d : FIFO.data s !! h = Some d0 -> FIFO.data s1 = <[h := d]> (FIFO.data s) ->
  FIFO.data s1 !! h = Some d.
Proof. intros E ->. apply list_lookup_insert_eq. by eapply lookup_lt_Some. Qed.

(** The search of FIFO finds the first of the least ticks. *)
Lemma fifo_least s r : live (fun _ => True) (FIFO.data s) r -> r <> [] ->
  exists i v d, FIFO.getVictim_ r s = Ret i /\ r !! i = Some v /\ FIFO.data s !! v = Some d /\
    forall j h, r !! j = Some h -> tick s v <= tick s h /\ ((j < i)%nat -> tick s v < tick s h).
Proof.
  intros Hl Hne. unfold FIFO.getVictim_. destruct (gets_spec _ _ _ Hl) as (ds & -> & Hds). cbn [outcome_bind].
  destruct (choose_least FIFO.tickInserted ds) as (i & d & E & Ed & Hleast).
  { intros ->. apply Forall2_length in Hds. by destruct r. }
  destruct (Forall2_lookup_r _ _ _ _ _ Hds Ed) as (v & Ev & Esv & _). exists i, v, d.
  split; [exact E|]. split; [done|]. split; [done|]. intros j h Ej.
  destruct (Forall2_lookup_l _ _ _ _ _ Hds Ej) as (d' & Ed' & Esh & _). unfold tick. rewrite Esv, Esh. by apply (Hleast j).
Qed.

(** The loop ends after at most one iteration per second chance and one more. *)
Lemma search_ends fuel : forall s r, live (fun _ => True) (FIFO.data s) r -> r <> [] -> (chances s r < fuel)%nat ->
  exists i s', SecondChance.search fuel r s = Ret (i, s') /\ (i < length r)%nat /\
    forall r', live (fun _ => True) (FIFO.data s) r' -> live (fun _ => True) (FIFO.data s') r'.
Proof.
  induction fuel as [|fuel IH]; intros s r Hl Hne Hf; [lia|]. cbn [SecondChance.search].
  destruct (fifo_least s r Hl Hne) as (i & v & d & -> & Ev & Ed & _). cbn [outcome_bind]. rewrite Ev, (get_some _ _ _ Ed).
  cbn [outcome_bind]. destruct (FIFO.hasSecondChance d) eqn:Ec; [|exists i, s; split; [done|]; split; [by eapply lookup_lt_Some|done]].
  destruct (useSecondChance_spec s v d Ed) as (s1 & -> & _ & E1). cbn [outcome_bind].
  assert (Hk : forall r', live (fun _ => True) (FIFO.data s) r' -> live (fun _ => True) (FIFO.data s1) r')
    by (intros r' Hr'; rewrite E1; by apply live_insert).
  destruct (IH s1 r) as (i' & s' & E' & Hi' & Hk'); [by apply Hk|done| |exists i', s'; auto].
  assert (Hlt : (chances s1 r < chances s r)%nat); [|lia]. apply (filter_shorter _ _ r v).
  - intros y. unfold chance. destruct (decide (y = v)) as [->|Hy]; [by rewrite (used_self _ _ _ _ _ Ed E1)|].
    by rewrite (used_other _ _ _ _ _ E1 Hy).
  - apply list_elem_of_In. by eapply list_elem_of_lookup_2.
  - unfold chance. by rewrite Ed.
  - unfold chance. by rewrite (used_self _ _ _ _ _ Ed E1).
Qed.

Lemma chances_length s r : (chances s r <= length r)%nat.
Proof. apply List.filter_length_le. Qed.

Definition second_chance_laws assoc : @PolicyLaws FIFO.t nat assoc SecondChance.policy.
Proof.
  apply (@flat_laws _ _ SecondChance.policy FIFO.data (fun _ => True)).
  - intros s. eexists _, (FIFO.mkData 0 false). split; [reflexivity|]. by split.
  - intros tk. apply alter_changes.
  - intros tk. apply changes_then; [apply insert_last_changes|apply alter_changes].
  - apply changes_then; [apply insert_last_changes|apply alter_changes].
  - intros s r Hl Hne. cbn [getVictim SecondChance.policy]. unfold SecondChance.getVictim_, assert.
    rewrite (proj2 (Z.ltb_lt 0 _)) by (destruct r; [done|cbn; lia]). cbn [outcome_bind].
    destruct (gets_spec _ _ _ Hl) as (ds & -> & Hds). cbn [outcome_bind].
    destruct (Data.find SecondChance.unused 0 ds) as [i|] eqn:Ef.
    + exists i, s. split; [done|]. split; [|done]. apply find_some in Ef. rewrite (Forall2_length _ _ _ Hds). lia.
    + apply search_ends; [done|done|]. pose proof (chances_length s r). lia.
Defined.

(** What using a second chance does to the candidates. *)
Lemma use_spec s r v d : FIFO.data s !! v = Some d -> In v r -> chance s v = true ->
  0 <= FIFO.timeTicks s -> FIFO.timeTicks s + 1 < 2 ^ 64 ->
  exists s1, SecondChance.useSecondChance v s = Ret s1 /\ FIFO.timeTicks s1 = FIFO.timeTicks s + 1 /\
    FIFO.data s1 = <[v := FIFO.mkData (FIFO.timeTicks s + 1) false]> (FIFO.data s) /\
    chance s1 v = false /\ tick s1 v = FIFO.timeTicks s + 1 /\
    (forall k, k <> v -> chance s1 k = chance s k /\ tick s1 k = tick s k) /\ (chances s1 r < chances s r)%nat.
Proof.
  intros Ed Hv Hc H0 H64. destruct (useSecondChance_spec s v d Ed) as (s1 & E & T1 & E1). rewrite u64_small in T1, E1 by lia.
  assert (D1 : FIFO.data s1 !! v = Some (FIFO.mkData (FIFO.timeTicks s + 1) false)) by (by eapply used_self).
  assert (Dk : forall k, k <> v -> chance s1 k = chance s k /\ tick s1 k = tick s k)
    by (intros k Hk; unfold chance, tick; by rewrite (used_other _ _ _ _ _ E1 Hk)).
  assert (Cv : chance s1 v = false) by (unfold chance; by rewrite D1).
  exists s1. split; [done|]. split; [done|]. split; [done|]. split; [done|]. split; [unfold tick; by rewrite D1|]. split; [done|].
  apply (filter_shorter _ _ r v); [|done|done|done]. intros y. destruct (decide (y = v)) as [->|Hy]; [congruence|].
  by rewrite (proj1 (Dk y Hy)).
Qed.

(** The search gives a chance to the oldest entries that have one.  [v] is the
    victim, [s'] the state after. *)
Definition spared (s : FIFO.t) (r : list nat) (v : nat) (s' : FIFO.t) : Prop :=
  (forall h, In h r -> chance s h = false -> chance s v = false /\ tick s v <= tick s h) /\
  ((forall h, In h r -> chance s h = true) -> forall h, In h r -> tick s v <= tick s h) /\
  (chance s v = false -> forall h, In h r ->
     (tick s h < tick s v -> chance s' h = false) /\
     (tick s v < tick s h -> FIFO.data s' !! h = FIFO.data s !! h)).

Lemma search_spares fuel : forall s r, live (fun _ => True) (FIFO.data s) r -> r <> [] -> (chances s r < fuel)%nat ->
  0 <= FIFO.timeTicks s -> FIFO.timeTicks s + Z.of_nat fuel < 2 ^ 64 ->
  (forall h, In h r -> tick s h <= FIFO.timeTicks s) ->
  exists i v s', SecondChance.search fuel r s = Ret (i, s') /\ r !! i = Some v /\
    (forall h, chance s h = false -> chance s' h = false) /\ spared s r v s'.
Proof.
  induction fuel as [|fuel IH]; intros s r Hl Hne Hf H0 H64 Ht; [lia|]. cbn [SecondChance.search].
  destruct (fifo_least s r Hl Hne) as (i & v & d & -> & Ev & Ed & Hleast). cbn [outcome_bind].
  rewrite Ev, (get_some _ _ _ Ed). cbn [outcome_bind].
  assert (Hmin : forall h, In h r -> tick s v <= tick s h).
  { intros h (j & Ej)%list_elem_of_In%list_elem_of_lookup. by apply (Hleast j). }
  assert (Hv : In v r) by (apply list_elem_of_In; by eapply list_elem_of_lookup_2).
  assert (Ec : chance s v = FIFO.hasSecondChance d) by (unfold chance; by rewrite Ed).
  destruct (FIFO.hasSecondChance d).
  2: { exists i, v, s. split; [done|]. split; [done|]. split; [done|]. split; [auto|]. split; [auto|].
       intros _ h Hh. split; [|done]. specialize (Hmin h Hh). lia. }
  destruct (use_spec s r v d Ed Hv Ec H0 ltac:(lia)) as (s1 & -> & T1 & E1 & Cv & Tv & Dk & Hlt). cbn [outcome_bind].
  destruct (IH s1 r) as (i' & v' & s' & E' & Ev' & Hmono & Sa & Sb & Sc); [|done|lia|lia|lia| |].
  { rewrite E1. by apply live_insert. }
  { intros h Hh. destruct (decide (h = v)) as [->|Hy]; [lia|]. rewrite (proj2 (Dk h Hy)). specialize (Ht h Hh). lia. }
  destruct (Sa v Hv Cv) as [Cv' Tv'].
  exists i', v', s'. split; [done|]. split; [done|]. split.
  { intros h Hc. apply Hmono. destruct (decide (h = v)) as [->|Hy]; [done|]. by rewrite (proj1 (Dk h Hy)). }
  assert (Hback : (exists h, In h r /\ chance s h = false) -> v' <> v).
  { intros (h & Hh & Hc) ->. destruct (decide (h = v)) as [->|Hy]; [congruence|]. destruct (Dk h Hy) as [K1 K2].
    destruct (Sa h Hh) as [_ Hle]; [congruence|]. specialize (Ht h Hh). lia. }
  split; [|split].
  - intros h Hh Hc. assert (Hy : h <> v) by (intros ->; congruence). destruct (Dk h Hy) as [K1 K2].
    destruct (Dk v' (Hback ltac:(by exists h))) as [K1' K2']. destruct (Sa h Hh) as [A1 A2]; [congruence|].
    split; [congruence|lia].
  - intros Hall. assert (v' = v) as ->; [|done]. destruct (decide (v' = v)) as [|Hy]; [done|].
    destruct (Dk v' Hy) as [K1 _]. rewrite K1 in Cv'. rewrite Hall in Cv'; [done|].
    apply list_elem_of_In. by eapply list_elem_of_lookup_2.
  - intros Hc h Hh. assert (Hy : v' <> v) by (intros ->; congruence). destruct (Dk v' Hy) as [K1' K2'].
    destruct (decide (h = v)) as [->|Hy'].
    + split; [intros _; by apply Hmono|]. pose proof (Hmin v'). assert (In v' r) by (apply list_elem_of_In; by eapply list_elem_of_lookup_2).
      intros. specialize (H H1). lia.
    + destruct (Dk h Hy') as [K1 K2]. destruct (Sc Cv' h Hh) as [S1 S2]. rewrite K2, K2' in *. split; [done|].
      intros Hgt. rewrite S2 by done. by eapply used_other.
Qed.

End Gem5PolicyFacts.
