(* ===== verification/Gem5RripFacts.v ===== *)
(** * Saturating counters and BRRIP

    The counters stay between zero and their greatest value and saturate there;
    BRRIP satisfies [PolicyLaws] for one to eight bits, and a search for a victim
    ages the candidates by the same amount. *)
From S2P Require Import Prelude Numeric Gem5Arrays Gem5Policies Gem5Rrip Gem5PolicyFacts.
From stdpp Require Import base list strings.
From Stdlib Require Import ZArith Lia.
Open Scope Z_scope.

Module Gem5RripFacts.
Import Gem5PolicyFacts.

(** ** Counters *)

Section Counter.
Context (w : Z).
Import SatCounter.

(** A counter of a type of [w] bits. *)
Definition bounded (c : t) : Prop := 0 <= initialVal c <= maxVal c /\ 0 <= counter c <= maxVal c /\ maxVal c < 2 ^ w.

(** The same counter at another value. *)
Definition at_value (v : Z) (c : t) : t := c <| counter := v |>.

Lemma wrap_small z : 0 <= z < 2 ^ w -> wrap w z = z.
Proof. intros. unfold wrap. by rewrite Z.mod_small. Qed.

Lemma at_value_same c : at_value (counter c) c = c.
Proof. by destruct c. Qed.

Lemma at_value_bounded v c : bounded c -> 0 <= v <= maxVal c -> bounded (at_value v c).
Proof. unfold bounded, at_value. cbn. tauto. Qed.

Lemma constructor_bounded bits init : 0 <= bits <= w -> bits < 64 -> 0 <= init < 2 ^ bits ->
  GenericSatCounter w bits init = Ret (mk init (2 ^ bits - 1) init) /\ bounded (mk init (2 ^ bits - 1) init).
Proof.
  intros Hb H64 Hi. unfold GenericSatCounter. rewrite (proj2 (Z.leb_gt 64 bits)) by lia. cbn [maxVal].
  pose proof (pow2_le bits w). rewrite wrap_small by lia. rewrite (proj2 (Z.ltb_ge w bits)), (proj2 (Z.ltb_ge _ init)) by lia.
  split; [done|]. unfold bounded. cbn. lia.
Qed.

Lemma increment_spec c : bounded c -> increment w c = at_value (Z.min (maxVal c) (counter c + 1)) c.
Proof.
  intros (Hi & Hc & Hm). unfold increment. destruct (Z.ltb_spec (counter c) (maxVal c)).
  - rewrite wrap_small, Z.min_r by lia. done.
  - rewrite Z.min_l by lia. replace (maxVal c) with (counter c) by lia. by rewrite at_value_same.
Qed.

Lemma decrement_spec c : bounded c -> decrement w c = at_value (Z.max 0 (counter c - 1)) c.
Proof.
  intros (Hi & Hc & Hm). unfold decrement. destruct (Z.ltb_spec 0 (counter c)).
  - rewrite wrap_small, Z.max_r by lia. done.
  - rewrite Z.max_l by lia. replace 0 with (counter c) by lia. by rewrite at_value_same.
Qed.

Lemma increase_spec v c : bounded c -> 0 <= v -> increase w v c = at_value (Z.min (maxVal c) (counter c + v)) c.
Proof.
  intros (Hi & Hc & Hm) Hv. unfold increase. rewrite wrap_small by lia.
  assert (E : (if w <? 32 then maxVal c - counter c else maxVal c - counter c) = maxVal c - counter c) by (by destruct (w <? 32)).
  rewrite E. destruct (Z.leb_spec v (maxVal c - counter c)).
  - rewrite wrap_small, Z.min_r by lia. done.
  - rewrite Z.min_l by lia. done.
Qed.

Lemma decrease_spec v c : bounded c -> 0 <= v -> decrease w v c = at_value (Z.max 0 (counter c - v)) c.
Proof.
  intros (Hi & Hc & Hm) Hv. unfold decrease. destruct (Z.ltb_spec v (counter c)).
  - rewrite wrap_small, Z.max_r by lia. done.
  - rewrite Z.max_l by lia. done.
Qed.

Lemma saturate_spec c : bounded c -> saturate w c = (maxVal c - counter c, at_value (maxVal c) c).
Proof. intros (Hi & Hc & Hm). unfold saturate. by rewrite wrap_small by lia. Qed.

Lemma add_spec v c : bounded c -> - 2 ^ 63 < v ->
  add w v c = Ret (at_value (Z.max 0 (Z.min (maxVal c) (counter c + v))) c).
Proof.
  intros Hb Hv. pose proof Hb as (Hi & Hc & Hm). unfold add, negate. destruct (Z.leb_spec 0 v).
  - rewrite increase_spec by done. by rewrite Z.max_r by lia.
  - rewrite (proj2 (Z.eqb_neq v _)) by lia. cbn [outcome_bind]. rewrite decrease_spec by (done || lia).
    replace (counter c - - v) with (counter c + v) by lia. by rewrite Z.min_r by lia.
Qed.

Lemma sub_spec v c : bounded c -> - 2 ^ 63 < v ->
  sub w v c = Ret (at_value (Z.max 0 (Z.min (maxVal c) (counter c - v))) c).
Proof.
  intros Hb Hv. pose proof Hb as (Hi & Hc & Hm). unfold sub, negate. destruct (Z.leb_spec 0 v).
  - rewrite decrease_spec by done. by rewrite Z.min_r by lia.
  - rewrite (proj2 (Z.eqb_neq v _)) by lia. cbn [outcome_bind]. rewrite increase_spec by (done || lia).
    replace (counter c + - v) with (counter c - v) by lia. by rewrite Z.max_r by lia.
Qed.

Lemma shift_right_spec v c : bounded c -> 0 <= v < 32 -> shift_right w v c = Ret (at_value (counter c / 2 ^ v) c).
Proof.
  intros _ Hv. unfold shift_right, assert, promoted. rewrite (proj2 (Z.leb_le 0 v)) by lia. cbn [outcome_bind].
  rewrite (proj2 (Z.leb_gt _ v)) by (destruct (w <? 64); lia). by rewrite Z.shiftr_div_pow2 by lia.
Qed.

(** A shift to the left saturates as long as its result fits the type. *)
Lemma shift_left_spec v c : bounded c -> 0 <= v < 32 -> counter c * 2 ^ v < 2 ^ w ->
  shift_left w v c = Ret (at_value (Z.min (maxVal c) (counter c * 2 ^ v)) c).
Proof.
  intros (Hi & Hc & Hm) Hv Hf. unfold shift_left, assert, promoted. rewrite (proj2 (Z.leb_le 0 v)) by lia. cbn [outcome_bind].
  rewrite (proj2 (Z.leb_gt _ v)) by (destruct (w <? 64); lia). rewrite Z.shiftl_mul_pow2 by lia.
  assert (0 <= counter c * 2 ^ v) by (apply Z.mul_nonneg_nonneg; [lia|apply Z.pow_nonneg; lia]).
  assert (E : (w <? 32) && (2 ^ 32 <=? counter c * 2 ^ v) = false).
  { destruct (Z.ltb_spec w 32); [|done]. apply Z.leb_gt. cbn [andb].
    destruct (Z.le_gt_cases 0 w); [pose proof (pow2_le w 32); lia|]. rewrite (Z.pow_neg_r 2 w) in Hf by lia. lia. }
  rewrite E, wrap_small by lia. cbn. f_equal. destruct (Z.ltb_spec (maxVal c) (counter c * 2 ^ v)).
  - by rewrite Z.min_l by lia.
  - by rewrite Z.min_r by lia.
Qed.
End Counter.

(** ** BRRIP *)

Import BRRIP.

(** An entry whose counter has [n] bits of eight. *)
Definition rrip_data (n : Z) (d : ReplData) : Prop :=
  bounded 8 (rrpv d) /\ SatCounter.maxVal (rrpv d) = 2 ^ n - 1.

Section Laws.
Context {G : Type} {R : RandomMt G} (p : Params).
Abbreviation n := (numRRPVBits p).
Abbreviation state := (list ReplData * G)%type.
Hypothesis bits : 1 <= n <= 8.

(** A change of the counter within its bounds keeps the invariant. *)
Lemma on_rrpv_data f d : rrip_data n d -> (exists v, 0 <= v <= SatCounter.maxVal (rrpv d) /\ f (rrpv d) = at_value v (rrpv d)) ->
  rrip_data n (on_rrpv f d).
Proof.
  intros [Hb Hm] (v & Hv & E). unfold rrip_data, on_rrpv. cbn. rewrite E. split; [by apply at_value_bounded|done].
Qed.

Lemma reset_data d : rrip_data n d -> rrip_data n (on_rrpv SatCounter.reset d).
Proof. intros Hd. pose proof Hd as [(? & ? & ?) _]. apply on_rrpv_data; [done|]. by exists (SatCounter.initialVal (rrpv d)). Qed.

Lemma decrement_data d : rrip_data n d -> rrip_data n (on_rrpv (SatCounter.decrement 8) d).
Proof.
  intros Hd. pose proof Hd as [Hb _]. pose proof Hb as (? & ? & ?). apply on_rrpv_data; [done|].
  exists (Z.max 0 (SatCounter.counter (rrpv d) - 1)). split; [lia|]. by apply decrement_spec.
Qed.

Lemma saturate_data d : rrip_data n d -> rrip_data n (on_rrpv (fun c => snd (SatCounter.saturate 8 c)) d).
Proof.
  intros Hd. pose proof Hd as [Hb _]. pose proof Hb as (? & ? & ?). apply on_rrpv_data; [done|].
  exists (SatCounter.maxVal (rrpv d)). split; [lia|]. by rewrite saturate_spec.
Qed.

Lemma increase_data v d : 0 <= v -> rrip_data n d -> rrip_data n (on_rrpv (SatCounter.increase 8 v) d).
Proof.
  intros Hv Hd. pose proof Hd as [Hb _]. pose proof Hb as (? & ? & ?). apply on_rrpv_data; [done|].
  exists (Z.min (SatCounter.maxVal (rrpv d)) (SatCounter.counter (rrpv d) + v)). split; [lia|]. by apply increase_spec.
Qed.

Lemma change_some f (s : state) h d : fst s !! h = Some d -> change f h s = Ret (<[h := f d]> (fst s), snd s).
Proof. intros E. unfold change. by rewrite (set_some _ _ _ _ E). Qed.

Lemma change_changes f : (forall d, rrip_data n d -> rrip_data n (f d)) -> changes (PS := state) fst (rrip_data n) (change f).
Proof. intros Hf s h d E Hd. exists (<[h := f d]> (fst s), snd s), (f d). rewrite (change_some _ _ _ _ E). auto. Qed.

Lemma reset_changes_data : changes (PS := state) fst (rrip_data n) (reset_ p).
Proof.
  intros s h d E Hd. unfold reset_. rewrite (change_some _ _ _ _ E). cbn [outcome_bind fst snd].
  destruct (random 1 100 (snd s)) as [k g].
  assert (Hlt := lookup_lt_Some _ _ _ E). pose proof (saturate_data d Hd) as H1.
  set (d1 := on_rrpv (fun c => snd (SatCounter.saturate 8 c)) d) in *.
  assert (E1 : <[h := d1]> (fst s) !! h = Some d1) by (by apply list_lookup_insert_eq).
  destruct (k <=? btp p).
  - rewrite (change_some _ (<[h := d1]> (fst s), g) h d1 E1). cbn [outcome_bind fst snd].
    rewrite (change_some _ _ h (on_rrpv (SatCounter.decrement 8) d1)); [|cbn; rewrite list_lookup_insert_eq; [done|by rewrite length_insert]].
    eexists _, _. split; [done|]. cbn [fst]. rewrite !list_insert_insert_eq. split; [done|]. exact (decrement_data d1 H1).
  - cbn [outcome_bind]. rewrite (change_some _ (<[h := d1]> (fst s), g) h d1 E1).
    eexists _, _. split; [done|]. cbn [fst]. rewrite list_insert_insert_eq. split; [done|]. exact H1.
Qed.

(** *** The victim *)

Lemma farthest_range ds : forall victim i v m, (victim < m)%nat -> (i + length ds <= m)%nat ->
  match farthest victim i ds v with inl j | inr j => (j < m)%nat end.
Proof.
  induction ds as [|d ds IH]; intros victim i v m Hv Hi; cbn in *; [done|].
  destruct (valid d); cbn; [|lia]. destruct (_ <? _); apply IH; lia.
Qed.

(** Ageing all candidates keeps every entry's invariant. *)
Lemma age_live diff cs : 0 <= diff -> forall s : state, live (rrip_data n) (fst s) cs ->
  exists s', outcome_fold (fun s h => change (on_rrpv (SatCounter.increase 8 diff)) h s) cs s = Ret s' /\
    forall r', live (rrip_data n) (fst s) r' -> live (rrip_data n) (fst s') r'.
Proof.
  intros Hd. induction cs as [|h cs IH]; intros s Hl; [by exists s|]. cbn [outcome_fold].
  destruct (live_in _ _ _ _ Hl (or_introl eq_refl)) as (d & E & Hdat). rewrite (change_some _ _ _ _ E). cbn [outcome_bind].
  pose proof (increase_data diff d Hd Hdat) as H1. set (d1 := on_rrpv _ d) in *.
  assert (Hk : forall r', live (rrip_data n) (fst s) r' -> live (rrip_data n) (<[h := d1]> (fst s)) r')
    by (intros r' Hr'; by apply live_insert).
  destruct (IH (<[h := d1]> (fst s), snd s)) as (s' & -> & Hk'); [apply Hk; by inversion Hl|].
  exists s'. split; [done|]. intros r' Hr'. by apply Hk', Hk.
Qed.

Lemma rrip_victim (s : state) r : live (rrip_data n) (fst s) r -> r <> [] ->
  exists i s', getVictim_ r s = Ret (i, s') /\ (i < length r)%nat /\
    forall r', live (rrip_data n) (fst s) r' -> live (rrip_data n) (fst s') r'.
Proof.
  intros Hl Hne. unfold getVictim_. destruct (gets_spec _ _ _ Hl) as (ds & -> & Hds). cbn [outcome_bind].
  pose proof (Forall2_length _ _ _ Hds) as Hlen. destruct ds as [|v ds]; [by destruct r|].
  pose proof (farthest_range (v :: ds) 0 0 (SatCounter.counter (rrpv v)) (length r)) as Hr.
  destruct (farthest 0 0 (v :: ds) (SatCounter.counter (rrpv v))) as [i|i];
    (assert (Hi : (i < length r)%nat) by (apply Hr; cbn [length] in *; lia)); [by exists i, s|].
  destruct (lookup_lt_is_Some_2 r i Hi) as [h Eh]. rewrite Eh.
  destruct (live_in _ _ _ h Hl) as (d & Ed & Hd); [apply list_elem_of_In; by eapply list_elem_of_lookup_2|].
  rewrite (get_some _ _ _ Ed). cbn [outcome_bind]. pose proof Hd as [Hb _]. pose proof Hb as (? & ? & ?).
  rewrite saturate_spec by done. rewrite (change_some _ _ _ _ Ed). cbn [outcome_bind].
  assert (Hk : forall r', live (rrip_data n) (fst s) r' ->
    live (rrip_data n) (<[h := on_rrpv (fun _ => at_value (SatCounter.maxVal (rrpv d)) (rrpv d)) d]> (fst s)) r').
  { intros r' Hr'. apply live_insert; [done|]. apply on_rrpv_data; [done|]. eexists. split; [|done]. lia. }
  destruct (Z.ltb_spec 0 (SatCounter.maxVal (rrpv d) - SatCounter.counter (rrpv d))) as [Hd0|Hd0].
  - destruct (age_live (SatCounter.maxVal (rrpv d) - SatCounter.counter (rrpv d)) r) with
      (s := (<[h := on_rrpv (fun _ => at_value (SatCounter.maxVal (rrpv d)) (rrpv d)) d]> (fst s), snd s)) as (s' & -> & Hk');
      [lia|by apply Hk|]. exists i, s'. split; [done|]. split; [done|]. intros r' Hr'. by apply Hk', Hk.
  - eexists i, _. split; [done|]. split; [done|]. exact Hk.
Qed.

Definition brrip_laws assoc : @PolicyLaws state nat assoc (BRRIP.policy p).
Proof.
  apply (@flat_laws _ _ (BRRIP.policy p) fst (rrip_data n)).
  - intros s. cbn [instantiateEntry BRRIP.policy]. unfold instantiateEntry_.
    assert (1 < 2 ^ n) by (apply Z.pow_gt_1; lia).
    destruct (constructor_bounded 8 n 0) as [-> Hb]; [lia|lia|lia|]. cbn [outcome_bind].
    eexists _, _. split; [reflexivity|]. cbn. split; [done|]. split; [exact Hb|done].
  - intros tick. cbn. unfold touch_. destruct (hitPriority p); apply change_changes; [apply reset_data|apply decrement_data].
  - intros tick. apply reset_changes_data.
  - apply change_changes. by intros d [Hb Hm].
  - apply rrip_victim.
Defined.

(** *** What the search does *)

Definition value (s : state) (h : nat) : Z :=
  match fst s !! h with Some d => SatCounter.counter (rrpv d) | None => 0 end.

Lemma pick_ext {A} (f g : A -> A -> bool) ds : (forall a b, f a b = g a b) ->
  forall victim i v, Data.pick f victim i ds v = Data.pick g victim i ds v.
Proof. intros E. induction ds as [|d ds IH]; intros; cbn; [done|]. rewrite E. by destruct (g d v). Qed.

(** The loop is a search for an entry that is not valid and for the first greatest. *)
Lemma farthest_spec ds : forall victim i v,
  farthest victim i ds (SatCounter.counter (rrpv v)) =
  match Data.find (fun d => negb (valid d)) i ds with
  | Some j => inl j
  | None => inr (Data.pick (fun c v => - SatCounter.counter (rrpv c) <? - SatCounter.counter (rrpv v)) victim i ds v)
  end.
Proof.
  induction ds as [|d ds IH]; intros victim i v; cbn [farthest Data.find Data.pick]; [done|].
  destruct (negb (valid d)); [done|].
  replace (- SatCounter.counter (rrpv d) <? - SatCounter.counter (rrpv v))
    with (SatCounter.counter (rrpv v) <? SatCounter.counter (rrpv d)).
  - destruct (_ <? _); apply IH.
  - apply eq_true_iff_eq. rewrite !Z.ltb_lt. lia.
Qed.

(** Ageing distinct candidates, exactly. *)
Lemma age_exact f cs : NoDup cs -> forall s : state, (forall h, In h cs -> is_Some (fst s !! h)) ->
  exists s', outcome_fold (fun s h => change f h s) cs s = Ret s' /\
    (forall h, In h cs -> fst s' !! h = f <$> fst s !! h) /\ (forall h, ~ In h cs -> fst s' !! h = fst s !! h).
Proof.
  induction 1 as [|h cs Hni Hnd IH]; intros s Hin; [by exists s|]. cbn [outcome_fold].
  destruct (Hin h (or_introl eq_refl)) as [d E]. rewrite (change_some _ _ _ _ E). cbn [outcome_bind].
  assert (Hne : forall k, k <> h -> <[h := f d]> (fst s) !! k = fst s !! k) by (intros; by apply list_lookup_insert_ne).
  rewrite list_elem_of_In in Hni.
  destruct (IH (<[h := f d]> (fst s), snd s)) as (s' & -> & Hi & Ho).
  { intros k Hk. cbn [fst]. rewrite Hne by (intros ->; done). apply Hin. by right. }
  cbn [fst] in *. exists s'. split; [done|]. split.
  - intros k [<-|Hk].
    + rewrite (Ho h Hni), E. apply list_lookup_insert_eq. by eapply lookup_lt_Some.
    + rewrite (Hi k Hk), Hne by (intros ->; done). done.
  - intros k Hk. rewrite Ho by (intros ?; apply Hk; by right). apply Hne. intros ->. apply Hk. by left.
Qed.

(** An entry that is not valid is evicted first, and nothing is aged. *)
Lemma rrip_invalid (s : state) r ds : Data.gets (fst s) r = Ret ds -> Exists (fun d => valid d = false) ds ->
  exists i d, getVictim_ r s = Ret (i, s) /\ ds !! i = Some d /\ valid d = false.
Proof.
  intros E Hex. unfold getVictim_. rewrite E. cbn [outcome_bind]. destruct ds as [|v ds]; [by inversion Hex|].
  rewrite farthest_spec. destruct (Data.find _ 0 (v :: ds)) as [i|] eqn:Ef.
  - destruct (find_some _ _ _ _ Ef) as (_ & d & Ed & Hd). rewrite Nat.sub_0_r in Ed. exists i, d.
    split; [done|]. split; [done|]. by apply negb_true_iff.
  - exfalso. apply find_none in Ef. rewrite Forall_forall in Ef. apply Exists_exists in Hex as (d & Hd & Hv).
    specialize (Ef d Hd). cbn in Ef. by rewrite Hv in Ef.
Qed.

(** With valid entries the victim is the first of the greatest prediction, and all
    candidates are aged by what the victim lacks to the greatest value. *)
Lemma rrip_aged (s : state) r : live (fun d => rrip_data n d /\ valid d = true) (fst s) r -> r <> [] -> NoDup r ->
  exists i v s', getVictim_ r s = Ret (i, s') /\ r !! i = Some v /\
    (forall j h, r !! j = Some h -> value s h <= value s v /\ ((j < i)%nat -> value s h < value s v)) /\
    (forall h, In h r -> value s' h = value s h + (2 ^ n - 1 - value s v)) /\
    (forall h, ~ In h r -> fst s' !! h = fst s !! h).
Proof.
  intros Hl Hne Hnd. unfold getVictim_. destruct (gets_spec _ _ _ Hl) as (ds & -> & Hds). cbn [outcome_bind].
  pose proof (Forall2_length _ _ _ Hds) as Hlen.
  destruct (choose_least (fun d => - SatCounter.counter (rrpv d)) ds) as (i & d & Ec & Ed & Hbest); [intros ->; by destruct r|].
  destruct ds as [|v0 ds0]; [by destruct r|]. rewrite farthest_spec.
  destruct (Data.find _ 0 (v0 :: ds0)) as [j|] eqn:Ef.
  { exfalso. destruct (find_some _ _ _ _ Ef) as (_ & d' & Ed' & Hv%negb_true_iff). rewrite Nat.sub_0_r in Ed'.
    destruct (Forall2_lookup_r _ _ _ _ _ Hds Ed') as (h & _ & _ & _ & Hv'). congruence. }
  cbn [Data.choose] in Ec.
  apply (f_equal (fun o => match o with Ret x => x | Exit _ => 0%nat end)) in Ec. cbv beta iota in Ec. rewrite Ec.
  destruct (Forall2_lookup_r _ _ _ _ _ Hds Ed) as (v & Ev & Esv & [Hb Hm] & _). rewrite Ev, (get_some _ _ _ Esv). cbn [outcome_bind].
  assert (Hval : forall j h, r !! j = Some h -> value s h <= value s v /\ ((j < i)%nat -> value s h < value s v)).
  { intros j h Ej. destruct (Forall2_lookup_l _ _ _ _ _ Hds Ej) as (d' & Ed' & Esh & _). unfold value. rewrite Esh, Esv.
    destruct (Hbest j d' Ed') as [B1 B2]. split; [lia|]. intros Hj. specialize (B2 Hj). lia. }
  rewrite saturate_spec by done. rewrite (change_some _ _ _ _ Esv). cbn [outcome_bind]. rewrite Hm.
  set (dv := on_rrpv _ d). set (s1 := (<[v := dv]> (fst s), snd s)).
  assert (Hin : In v r) by (apply list_elem_of_In; by eapply list_elem_of_lookup_2).
  assert (Vv : value s v = SatCounter.counter (rrpv d)) by (unfold value; by rewrite Esv). rewrite <- Vv.
  assert (S1v : fst s1 !! v = Some dv) by (apply list_lookup_insert_eq; by eapply lookup_lt_Some).
  assert (S1o : forall h, h <> v -> fst s1 !! h = fst s !! h) by (intros; by apply list_lookup_insert_ne).
  pose proof Hb as (_ & Hc & _). rewrite Hm, <- Vv in Hc.
  destruct (Z.ltb_spec 0 (2 ^ n - 1 - value s v)) as [Hd0|Hd0].
  - destruct (age_exact (on_rrpv (SatCounter.increase 8 (2 ^ n - 1 - value s v))) r Hnd s1) as (s' & -> & Hi & Ho).
    { intros h Hh. destruct (decide (h = v)) as [->|Hx]; [by rewrite S1v|]. rewrite S1o by done.
      destruct (live_in _ _ _ h Hl Hh) as (d' & -> & _). done. }
    exists i, v, s'. split; [done|]. split; [done|]. split; [done|]. split.
    + intros h Hh. unfold value at 1. rewrite (Hi h Hh). destruct (decide (h = v)) as [->|Hx].
      * rewrite S1v. cbn. rewrite increase_spec by (lia || (apply at_value_bounded; [done|lia])). cbn. rewrite Hm. lia.
      * rewrite S1o by done. destruct (live_in _ _ _ h Hl Hh) as (d' & Eh & [Hb' Hm'] & _).
        apply list_elem_of_In, list_elem_of_lookup in Hh as [j Ej]. destruct (Hval j h Ej) as [Hle _].
        assert (Vh : value s h = SatCounter.counter (rrpv d')) by (unfold value; by rewrite Eh).
        rewrite Eh. cbn. rewrite increase_spec by (done || lia). cbn. rewrite Hm', <- Vh. lia.
    + intros h Hh. rewrite (Ho h Hh). apply S1o. intros ->. done.
  - exists i, v, s1. split; [done|]. split; [done|]. split; [done|]. split.
    + intros h Hh. unfold value at 1. destruct (decide (h = v)) as [->|Hx]; [rewrite S1v; cbn; lia|].
      rewrite S1o by done. fold (value s h). lia.
    + intros h Hh. apply S1o. intros ->. done.
Qed.
End Laws.
End Gem5RripFacts.
