(* ===== verification/Gem5TreeFacts.v ===== *)
(** * What Tree-PLRU guarantees

    Nodes are numbered from one, as in a binary heap, so that the parent of [m] is
    [m / 2] and the direction to [m] its last bit.  A leaf is the victim exactly when
    every bit on its path points to it. *)
From S2P Require Import Prelude Gem5Arrays Gem5Policies Gem5PolicyFacts Gem5Tree.
From stdpp Require Import base list strings.
From Stdlib Require Import ZArith Lia.
Open Scope Z_scope.

Module Gem5TreeFacts.
Import TreePLRU Gem5PolicyFacts.

(** ** Nodes *)

(** The bit of node [m]. *)
Definition bit (bits : list bool) (m : Z) : bool := nth (Z.to_nat (m - 1)) bits false.

Lemma parent_node m : 2 <= m < 2 ^ 53 -> parentIndex (m - 1) = m / 2 - 1.
Proof.
  intros Hm. unfold parentIndex. rewrite u64_small by lia.
  replace ((m - 1 - 1) / 2) with (m / 2 - 1).
  2: { replace (m - 1 - 1) with (m + (-1) * 2) by lia. rewrite Z.div_add by lia. lia. }
  unfold as_double. destruct (Z.leb_spec (Z.log2 (m / 2 - 1) - 52) 0); [done|]. exfalso.
  assert (m / 2 - 1 < 2 ^ 53) by (pose proof (Z.div_lt m 2); lia).
  destruct (Z.le_gt_cases (m / 2 - 1) 0); [rewrite Z.log2_nonpos in H by lia; lia|].
  apply Z.log2_lt_pow2 in H0; lia.
Qed.

Lemma right_node m : isRightSubtree (m - 1) = Z.odd m.
Proof.
  unfold isRightSubtree. replace m with (m - 1 + 1) at 2 by lia. rewrite Z.odd_add. change (Z.odd 1) with true.
  rewrite Zmod_odd. by destruct (Z.odd (m - 1)).
Qed.

Lemma child_node m : 0 <= m < 2 ^ 62 -> leftSubtreeIndex (m - 1) = u64 (2 * m - 1) /\ rightSubtreeIndex (m - 1) = 2 * m + 1 - 1.
Proof.
  intros Hm. unfold leftSubtreeIndex, rightSubtreeIndex. split; [f_equal; lia|].
  replace (2 * (m - 1) + 2) with (2 * m) by lia. rewrite u64_small by lia. lia.
Qed.

(** One step down and one step up. *)
Lemma half_odd m : m = 2 * (m / 2) + Z.b2z (Z.odd m).
Proof. pose proof (Z.div_mod m 2). rewrite Zmod_odd in H. destruct (Z.odd m); cbn [Z.b2z]; lia. Qed.

Lemma half_bounds m : 2 * (m / 2) <= m <= 2 * (m / 2) + 1.
Proof. pose proof (Z.div_mod m 2). pose proof (Z.mod_pos_bound m 2). lia. Qed.

Lemma div_pow_succ m e : 0 <= e -> m / 2 ^ (e + 1) = (m / 2 ^ e) / 2.
Proof. intros. rewrite Z.pow_add_r, Z.pow_1_r by lia. by rewrite Z.div_div by (try apply Z.pow_pos_nonneg; lia). Qed.

(** ** Paths in a tree of [2 ^ k] leaves *)

Section Tree.
Context (k : Z).
Hypothesis height : 1 <= k <= 31.

Definition leaf (m : Z) : Prop := 2 ^ k <= m < 2 ^ (k + 1).
Definition sized (bits : list bool) : Prop := Z.of_nat (length bits) = 2 ^ k - 1.

(** The bit of the ancestor [e] levels above the leaf [m] points to [m]. *)
Definition toward (bits : list bool) (m e : Z) : bool :=
  eqb (bit bits (m / 2 ^ e)) (Z.odd (m / 2 ^ (e - 1))).

Lemma pow_k : 2 <= 2 ^ k <= 2 ^ 31 /\ 2 ^ (k + 1) = 2 * 2 ^ k.
Proof.
  rewrite Z.pow_add_r, Z.pow_1_r by lia. pose proof (pow2_le 1 k). pose proof (pow2_le k 31). change (2 ^ 1) with 2 in *. lia.
Qed.

(** The ancestors of a leaf are inner nodes. *)
Lemma ancestor_range m e : leaf m -> 1 <= e <= k -> 1 <= m / 2 ^ e < 2 ^ k.
Proof.
  intros [Hlo Hhi] He. pose proof (Z.pow_pos_nonneg 2 e). split.
  - apply Z.div_le_lower_bound; [lia|]. pose proof (pow2_le e k). lia.
  - apply Z.div_lt_upper_bound; [lia|]. rewrite <- Z.pow_add_r by lia. pose proof (pow2_le (k + 1) (e + k)). lia.
Qed.

(** Two ancestors of leaves are equal only at the same level. *)
Lemma ancestor_level m m' e e' : leaf m -> leaf m' -> 0 <= e <= k -> 0 <= e' <= k -> m / 2 ^ e = m' / 2 ^ e' -> e = e'.
Proof.
  assert (Hlog : forall x f, leaf x -> 0 <= f <= k -> Z.log2 (x / 2 ^ f) = k - f).
  { intros x f [Hlo Hhi] Hf. pose proof pow_k. rewrite <- Z.shiftr_div_pow2, Z.log2_shiftr by lia.
    rewrite (Z.log2_unique x k) by (rewrite ?Z.add_1_r in Hhi; lia). lia. }
  intros Hm Hm' He He' E. pose proof (Hlog m e Hm He). pose proof (Hlog m' e' Hm' He'). rewrite E in *. lia.
Qed.

Lemma set_bit_spec m b bits : sized bits -> 1 <= m < 2 ^ k ->
  exists bits', set_bit (m - 1) b bits = Ret bits' /\ sized bits' /\ bit bits' m = b /\
    forall m', 1 <= m' -> m' <> m -> bit bits' m' = bit bits m'.
Proof.
  unfold sized. intros Hs Hm. unfold set_bit. rewrite (proj2 (Z.ltb_lt _ _)) by lia. eexists. split; [done|].
  rewrite length_insert. split; [done|]. unfold bit. split.
  - rewrite nth_lookup, list_lookup_insert_eq; [done|lia].
  - intros m' H1 Hne. rewrite !nth_lookup, list_lookup_insert_ne; [done|lia].
Qed.

(** The loop of [touch] and [invalidate] from the ancestor [e] levels above [m]. *)
Lemma climb_spec f m (e : nat) : leaf m -> forall fuel bits, sized bits -> (Z.of_nat e < k) -> (Z.to_nat k - e <= fuel)%nat ->
  exists bits', climb fuel f (m / 2 ^ Z.of_nat e - 1) bits = Ret bits' /\ sized bits' /\
    (forall e', Z.of_nat e < e' <= k -> bit bits' (m / 2 ^ e') = f (Z.odd (m / 2 ^ (e' - 1)))) /\
    (forall x, 1 <= x -> (forall e', Z.of_nat e < e' <= k -> x <> m / 2 ^ e') -> bit bits' x = bit bits x).
Proof.
  intros Hm. pose proof pow_k as Hk. pose proof Hm as Hm'. destruct Hm' as [Hlo Hhi].
  induction (Z.to_nat k - S e)%nat as [|n IH] eqn:En in e |- *; intros fuel bits Hs He Hf;
    (destruct fuel as [|fuel]; [lia|]); cbn [climb].
  all: assert (Hx : 2 <= m / 2 ^ Z.of_nat e < 2 ^ 53)
    by (pose proof (ancestor_range m (Z.of_nat e + 1) Hm ltac:(lia)) as Ha; rewrite div_pow_succ in Ha by lia;
        pose proof (half_bounds (m / 2 ^ Z.of_nat e)); lia).
  all: rewrite (parent_node _ Hx), right_node, <- div_pow_succ by lia.
  all: pose proof (ancestor_range m (Z.of_nat e + 1) Hm ltac:(lia)) as Ha.
  all: destruct (set_bit_spec (m / 2 ^ (Z.of_nat e + 1)) (f (Z.odd (m / 2 ^ Z.of_nat e))) bits Hs Ha) as (b1 & -> & Hs1 & Hb1 & Ho1).
  all: cbn [outcome_bind].
  - assert (Ek : Z.of_nat e + 1 = k) by lia.
    assert (E1 : m / 2 ^ (Z.of_nat e + 1) = 1).
    { rewrite Ek. symmetry. apply Z.div_unique with (m - 2 ^ k); lia. }
    rewrite E1 in *. cbn [Z.sub Z.eqb Z.add Z.opp Z.pos_sub]. exists b1. split; [done|]. split; [done|]. split.
    + intros e' He'. replace e' with (Z.of_nat e + 1) by lia. rewrite E1. by replace (Z.of_nat e + 1 - 1) with (Z.of_nat e) by lia.
    + intros x H1 Hne. apply Ho1; [done|]. rewrite <- E1. apply Hne. lia.
  - assert (2 <= m / 2 ^ (Z.of_nat e + 1)).
    { pose proof (ancestor_range m (Z.of_nat e + 2) Hm ltac:(lia)) as Ha2. replace (Z.of_nat e + 2) with (Z.of_nat e + 1 + 1) in Ha2 by lia.
      rewrite div_pow_succ in Ha2 by lia. pose proof (half_bounds (m / 2 ^ (Z.of_nat e + 1))). lia. }
    rewrite (proj2 (Z.eqb_neq _ 0)) by lia. replace (Z.of_nat e + 1) with (Z.of_nat (S e)) in * by lia.
    destruct (IH (S e) ltac:(lia) fuel b1 Hs1 ltac:(lia) ltac:(lia)) as (b2 & -> & Hs2 & Hb2 & Ho2).
    exists b2. split; [done|]. split; [done|]. split.
    + intros e' He'. destruct (decide (e' = Z.of_nat (S e))) as [->|Hne]; [|apply Hb2; lia].
      rewrite Ho2; [rewrite Hb1; do 4 f_equal; lia|lia|]. intros e'' He'' E. apply ancestor_level in E; [lia|done|done|lia|lia].
    + intros x H1 Hne. rewrite Ho2; [|done|intros e' He'; apply Hne; lia]. apply Ho1; [done|]. apply Hne. lia.
Qed.

(** The loop of [getVictim] from the node [x], [j] levels above the leaves. *)
Lemma descend_spec bits (j : nat) : sized bits -> forall fuel x, (j <= fuel)%nat -> Z.of_nat j <= k ->
  2 ^ (k - Z.of_nat j) <= x < 2 ^ (k - Z.of_nat j + 1) ->
  exists m, descend fuel (x - 1) bits = Ret (m - 1) /\ leaf m /\ m / 2 ^ Z.of_nat j = x /\
    forall e, 1 <= e <= Z.of_nat j -> toward bits m e = true.
Proof.
  unfold sized. intros Hs. pose proof pow_k as Hk. induction j as [|j IH]; intros fuel x Hf Hj Hx.
  - replace (k - Z.of_nat 0) with k in Hx by lia. exists x. split; [|split; [exact Hx|split; [apply Z.div_1_r|lia]]].
    destruct fuel; cbn [descend]; rewrite (proj2 (Z.ltb_ge _ _)) by lia; done.
  - destruct fuel as [|fuel]; [lia|]. cbn [descend].
    pose proof (pow2_le 0 (k - Z.of_nat (S j))). change (2 ^ 0) with 1 in *. pose proof (pow2_le (k - Z.of_nat (S j) + 1) k).
    rewrite (proj2 (Z.ltb_lt _ _)) by lia. destruct (lookup_lt_is_Some_2 bits (Z.to_nat (x - 1))) as [b Eb]; [lia|].
    rewrite (get_some _ _ _ Eb). cbn [outcome_bind].
    assert (Hb : bit bits x = b) by (unfold bit; by rewrite nth_lookup, Eb).
    destruct (child_node x) as [El Er]; [lia|].
    assert (Ex : (if b then rightSubtreeIndex (x - 1) else leftSubtreeIndex (x - 1)) = 2 * x + Z.b2z b - 1)
      by (rewrite El, Er, u64_small by lia; destruct b; cbn [Z.b2z]; lia).
    rewrite Ex. destruct (IH fuel (2 * x + Z.b2z b)) as (m & -> & Hm & Em & Ht); [lia|lia| |].
    { replace (k - Z.of_nat j) with (k - Z.of_nat (S j) + 1) by lia. rewrite !Z.pow_add_r, !Z.pow_1_r in * by lia.
      destruct b; cbn [Z.b2z]; lia. }
    exists m. split; [done|]. split; [done|].
    assert (E2 : m / 2 ^ Z.of_nat (S j) = x).
    { replace (Z.of_nat (S j)) with (Z.of_nat j + 1) by lia. rewrite div_pow_succ, Em by lia.
      symmetry. apply Z.div_unique with (Z.b2z b); destruct b; cbn [Z.b2z]; lia. }
    split; [done|]. intros e He. destruct (decide (e = Z.of_nat (S j))) as [->|Hne]; [|apply Ht; lia].
    unfold toward. rewrite E2, Hb. replace (Z.of_nat (S j) - 1) with (Z.of_nat j) by lia. rewrite Em.
    apply eqb_true_iff. rewrite Z.odd_add, Z.odd_mul. by destruct b.
Qed.

(** At most one leaf has its whole path pointing to it. *)
Lemma toward_unique bits m m' : leaf m -> leaf m' -> (forall e, 1 <= e <= k -> toward bits m e = true) ->
  (forall e, 1 <= e <= k -> toward bits m' e = true) -> m = m'.
Proof.
  intros Hm Hm' Ht Ht'.
  assert (H : forall n : nat, Z.of_nat n <= k -> m / 2 ^ (k - Z.of_nat n) = m' / 2 ^ (k - Z.of_nat n)).
  { induction n as [|n IH]; intros Hn.
    - pose proof (ancestor_range m k Hm). pose proof pow_k. replace (k - Z.of_nat 0) with k by lia.
      destruct Hm, Hm'. transitivity 1; [symmetry; apply Z.div_unique with (m - 2 ^ k); lia|apply Z.div_unique with (m' - 2 ^ k); lia].
    - specialize (IH ltac:(lia)). specialize (Ht (k - Z.of_nat n) ltac:(lia)). specialize (Ht' (k - Z.of_nat n) ltac:(lia)).
      unfold toward in *. apply (proj1 (eqb_true_iff _ _)) in Ht, Ht'. rewrite IH, Ht' in Ht.
      replace (k - Z.of_nat n - 1) with (k - Z.of_nat (S n)) in Ht by lia.
      replace (k - Z.of_nat n) with (k - Z.of_nat (S n) + 1) in IH by lia. rewrite !div_pow_succ in IH by lia.
      rewrite (half_odd (m / 2 ^ _)), (half_odd (m' / 2 ^ _)). by rewrite IH, Ht. }
  specialize (H (Z.to_nat k) ltac:(lia)). replace (k - Z.of_nat (Z.to_nat k)) with 0 in H by lia.
  by rewrite !Z.div_1_r in H.
Qed.

(** *** Touching, invalidating and choosing a leaf *)

Lemma climbed f m bits : leaf m -> sized bits ->
  exists bits', climb 64 f (m - 1) bits = Ret bits' /\ sized bits' /\
    (forall e, 1 <= e <= k -> bit bits' (m / 2 ^ e) = f (Z.odd (m / 2 ^ (e - 1)))) /\
    (forall x, 1 <= x -> (forall e, 1 <= e <= k -> x <> m / 2 ^ e) -> bit bits' x = bit bits x).
Proof.
  intros Hm Hs. destruct (climb_spec f m 0 Hm 64 bits Hs ltac:(lia) ltac:(lia)) as (b & E & Hs' & Hb & Ho).
  change (2 ^ Z.of_nat 0) with 1 in E. rewrite Z.div_1_r in E. exists b. split; [done|]. split; [done|]. split.
  - intros e He. apply Hb. lia.
  - intros x H1 Hx. apply Ho; [done|]. intros e He. apply Hx. lia.
Qed.

Lemma descended bits : sized bits -> exists m, descend 64 0 bits = Ret (m - 1) /\ leaf m /\
  forall e, 1 <= e <= k -> toward bits m e = true.
Proof.
  intros Hs. destruct (descend_spec bits (Z.to_nat k) Hs 64 1 ltac:(lia) ltac:(lia)) as (m & E & Hm & _ & Ht).
  - replace (k - Z.of_nat (Z.to_nat k)) with 0 by lia. done.
  - exists m. split; [exact E|]. split; [done|]. intros e He. apply Ht. lia.
Qed.

(** How many bits on the path to [m] point to it. *)
Definition score (bits : list bool) (m : Z) : nat := length (List.filter (toward bits m) (seqZ 1 k)).

Lemma in_levels e : In e (seqZ 1 k) <-> 1 <= e <= k.
Proof. rewrite <- list_elem_of_In, elem_of_seqZ. lia. Qed.

Lemma score_full bits m : (forall e, 1 <= e <= k -> toward bits m e = true) -> score bits m = Z.to_nat k.
Proof.
  intros Ht. unfold score. rewrite <- (length_seqZ 1 k). f_equal. apply forallb_filter_id.
  apply forallb_forall. intros e He%in_levels. by apply Ht.
Qed.

Lemma score_empty bits m : (forall e, 1 <= e <= k -> toward bits m e = false) -> score bits m = 0%nat.
Proof.
  intros Ht. unfold score. destruct (List.filter _ _) as [|e l] eqn:E; [done|].
  assert (He : In e (List.filter (toward bits m) (seqZ 1 k))) by (rewrite E; by left).
  apply filter_In in He as [He%in_levels Hf]. by rewrite Ht in Hf.
Qed.

Lemma filter_one_more {A} (f g : A -> bool) l x : NoDup l -> (forall y, In y l -> f y = true -> g y = true \/ y = x) ->
  (length (List.filter f l) <= S (length (List.filter g l)))%nat.
Proof.
  induction 1 as [|y l Hy Hnd IH]; intros Hfg; [cbn; lia|]. cbn.
  destruct (f y) eqn:Ef; [|specialize (IH ltac:(intros; apply Hfg; [by right|done])); destruct (g y); cbn; lia].
  destruct (Hfg y (or_introl eq_refl) Ef) as [Eg| ->].
  - rewrite Eg. cbn. specialize (IH ltac:(intros; apply Hfg; [by right|done])). lia.
  - assert (Hle : (length (List.filter f l) <= length (List.filter g l))%nat); [|destruct (g x); cbn; lia].
    clear IH Hnd. assert (Hl : forall y, In y l -> f y = true -> g y = true).
    { intros z Hz Hf. destruct (Hfg z (or_intror Hz) Hf) as [|E]; [done|]. subst z. by rewrite <- list_elem_of_In in Hz. }
    clear -Hl. induction l as [|z l IH]; [done|]. cbn. specialize (IH ltac:(intros; apply Hl; [by right|done])).
    pose proof (Hl z (or_introl eq_refl)) as Hz. destruct (f z); [rewrite Hz by done; cbn; lia|]. destruct (g z); cbn; lia.
Qed.

Lemma touch_self bits' m : (forall e, 1 <= e <= k -> bit bits' (m / 2 ^ e) = negb (Z.odd (m / 2 ^ (e - 1)))) ->
  score bits' m = 0%nat.
Proof.
  intros Hb. apply score_empty. intros e He. unfold toward. rewrite (Hb e He). apply eqb_false_iff.
  by destruct (Z.odd _).
Qed.

(** A step down the same ancestor: below, the paths part at one level only. *)
Lemma parted m m' e e' : 1 <= e < e' -> m / 2 ^ e = m' / 2 ^ e -> m / 2 ^ (e' - 1) = m' / 2 ^ (e' - 1).
Proof.
  intros He E. replace (e' - 1) with (e + (e' - 1 - e)) by lia. rewrite Z.pow_add_r by lia.
  rewrite <- !Z.div_div by (try apply Z.pow_pos_nonneg; lia). by rewrite E.
Qed.

(** Touching another leaf turns at most one more bit towards [m]. *)
Lemma touch_other bits bits' m m' : leaf m -> leaf m' ->
  (forall e, 1 <= e <= k -> bit bits' (m' / 2 ^ e) = negb (Z.odd (m' / 2 ^ (e - 1)))) ->
  (forall x, 1 <= x -> (forall e, 1 <= e <= k -> x <> m' / 2 ^ e) -> bit bits' x = bit bits x) ->
  (score bits' m <= S (score bits m))%nat.
Proof.
  intros Hm Hm' Hb Ho.
  assert (Hnew : forall e, 1 <= e <= k -> toward bits' m e = true -> toward bits m e = true \/
    (m / 2 ^ e = m' / 2 ^ e /\ m / 2 ^ (e - 1) <> m' / 2 ^ (e - 1))).
  { intros e He Ht. destruct (decide (m / 2 ^ e = m' / 2 ^ e)) as [E|Hne].
    - right. split; [done|]. intros E'. unfold toward in Ht. rewrite E, E', (Hb e He) in Ht. by destruct (Z.odd _).
    - left. unfold toward in *. rewrite Ho in Ht; [done|by apply (ancestor_range m e Hm He)|].
      intros e' He' E. apply Hne. pose proof (ancestor_level m m' e e' Hm Hm' ltac:(lia) ltac:(lia) E). by subst e'. }
  destruct (decide (Exists (fun e => m / 2 ^ e = m' / 2 ^ e /\ m / 2 ^ (e - 1) <> m' / 2 ^ (e - 1)) (seqZ 1 k))) as [Hex|Hno].
  - apply Exists_exists in Hex as (e0 & He0%list_elem_of_In%in_levels & E0 & N0).
    apply (filter_one_more _ _ _ e0); [apply NoDup_seqZ|]. intros e He%in_levels Ht.
    destruct (Hnew e He Ht) as [|[E N]]; [by left|right]. destruct (Z.lt_trichotomy e e0) as [Hlt|[|Hlt]]; [|done|]; exfalso.
    + apply N0. apply (parted m m' e); [lia|done].
    + apply N. apply (parted m m' e0); [lia|done].
  - apply (filter_one_more _ _ _ 0); [apply NoDup_seqZ|]. intros e He Ht. left.
    destruct (Hnew e (proj1 (in_levels e) He) Ht) as [|Hc]; [done|]. exfalso. apply Hno, Exists_exists. exists e.
    by rewrite list_elem_of_In.
Qed.

(** ** The policy *)

(** The data of the leaves of a tree, and the rows of a state. *)
Definition leaves (tr : nat) : list ReplData := map (fun i => mkData (i + 2 ^ k - 1) tr) (seqZ 0 (2 ^ k)).

Definition tree_row (s : t) (r : list ReplData) : Prop :=
  numLeaves s = 2 ^ k /\ exists tr bits, trees s !! tr = Some bits /\ sized bits /\ r = leaves tr.

Lemma leaves_lookup tr i h : leaves tr !! i = Some h -> exists m, leaf m /\ h = mkData (m - 1) tr /\ Z.of_nat i = m - 2 ^ k.
Proof.
  unfold leaves. rewrite list_lookup_fmap_Some. intros (j & -> & Hj%lookup_seqZ). pose proof pow_k as [_ E2].
  exists (j + 2 ^ k). unfold leaf. split; [lia|]. split; [f_equal; lia|lia].
Qed.

Lemma leaves_in tr h : In h (leaves tr) -> exists m, leaf m /\ h = mkData (m - 1) tr.
Proof.
  intros (i & Ei)%list_elem_of_In%list_elem_of_lookup. destruct (leaves_lookup tr i h Ei) as (m & Hm & E & _). by exists m.
Qed.

Lemma length_leaves tr : length (leaves tr) = Z.to_nat (2 ^ k).
Proof. unfold leaves. by rewrite length_map, length_seqZ. Qed.

(** An update of a leaf changes its tree and nothing else. *)
Lemma update_spec f s m tr bits : leaf m -> trees s !! tr = Some bits -> sized bits ->
  exists bits', update f (mkData (m - 1) tr) s = Ret (s <| trees := <[tr := bits']> (trees s) |>) /\ sized bits' /\
    (forall e, 1 <= e <= k -> bit bits' (m / 2 ^ e) = f (Z.odd (m / 2 ^ (e - 1)))) /\
    (forall x, 1 <= x -> (forall e, 1 <= e <= k -> x <> m / 2 ^ e) -> bit bits' x = bit bits x).
Proof.
  intros Hm E Hs. destruct (climbed f m bits Hm Hs) as (bits' & Ec & Hrest). exists bits'. split; [|done].
  unfold update. cbn [tree index]. rewrite (get_some _ _ _ E). cbn [outcome_bind]. by rewrite Ec.
Qed.

Lemma update_row f s r h : tree_row s r -> In h r -> exists s', update f h s = Ret s' /\
  forall r', tree_row s r' -> tree_row s' r'.
Proof.
  intros (Hn & tr & bits & E & Hs & ->) (m & Hm & ->)%leaves_in.
  destruct (update_spec f s m tr bits Hm E Hs) as (bits' & -> & Hs' & _). eexists. split; [done|].
  intros r' (_ & tr' & b' & E' & Hb' & ->). split; [done|]. cbn. destruct (decide (tr' = tr)) as [->|Hne].
  - exists tr, bits'. split; [|done]. apply list_lookup_insert_eq. by eapply lookup_lt_Some.
  - exists tr', b'. by rewrite list_lookup_insert_ne.
Qed.

(** The victim is the leaf every bit points to. *)
Lemma victim_spec s tr bits : numLeaves s = 2 ^ k -> trees s !! tr = Some bits -> sized bits ->
  exists i m, getVictim_ (leaves tr) s = Ret (i, s) /\ (i < length (leaves tr))%nat /\ Z.of_nat i = m - 2 ^ k /\ leaf m /\
    forall e, 1 <= e <= k -> toward bits m e = true.
Proof.
  intros Hn E Hs. destruct (descended bits Hs) as (m & Ed & Hm & Ht). pose proof pow_k as [Hk E2]. pose proof Hm as [Hlo Hhi].
  assert (Hne : exists r', leaves tr = mkData (0 + 2 ^ k - 1) tr :: r').
  { unfold leaves. destruct (seqZ 0 (2 ^ k)) as [|z l] eqn:Es; [pose proof (length_seqZ 0 (2 ^ k)) as Hl; rewrite Es in Hl; cbn in Hl; lia|].
    assert (Hz : seqZ 0 (2 ^ k) !! 0%nat = Some z) by (by rewrite Es). apply lookup_seqZ in Hz as [-> _]. by eexists. }
  destruct Hne as [r' Er]. exists (Z.to_nat (m - 2 ^ k)), m. unfold getVictim_. rewrite Er, <- Er. cbn [tree].
  rewrite (get_some _ _ _ E). cbn [outcome_bind]. rewrite Ed. cbn [outcome_bind]. rewrite Hn. replace (m - 1 - (2 ^ k - 1)) with (m - 2 ^ k) by lia.
  rewrite u64_small by lia. rewrite length_leaves, (proj2 (Z.ltb_lt _ _)) by lia. repeat split; try lia; done.
Qed.

(** Instantiation: [2 ^ k] entries share one tree. *)

Lemma count_mod c i : u64 (c + i) mod 2 ^ k = (c + i) mod 2 ^ k.
Proof.
  unfold u64. apply Z.mod_mod_divide. exists (2 ^ (64 - k)). rewrite <- Z.pow_add_r by lia. f_equal. lia.
Qed.

Lemma instantiate_more n : forall j s, numLeaves s = 2 ^ k -> count s mod 2 ^ k = j mod 2 ^ k -> 0 < j -> j + Z.of_nat n <= 2 ^ k ->
  exists c, instantiate n s = Ret (s <| count := c |>, map (fun i => mkData (i + 2 ^ k - 1) (pred (length (trees s)))) (seqZ j (Z.of_nat n))) /\
    c mod 2 ^ k = (j + Z.of_nat n) mod 2 ^ k.
Proof.
  induction n as [|n IH]; intros j s Hn Hc Hj Hle.
  - exists (count s). split; [by destruct s|]. by rewrite Hc, Z.add_0_r.
  - cbn [instantiate instantiateEntry policy]. unfold instantiateEntry_. pose proof pow_k as [Hk _].
    rewrite Hn, (proj2 (Z.eqb_neq (2 ^ k) 0)), Hc by lia. rewrite Z.mod_small by lia.
    rewrite (proj2 (Z.eqb_neq j 0)) by lia. cbv iota zeta. rewrite ?Hn, ?Hc, ?Z.mod_small by lia. cbn [outcome_bind].
    destruct (IH (j + 1) (s <| count := u64 (count s + 1) |>)) as (c & E & Ec); [done| |lia|lia|].
    { cbn. rewrite count_mod, <- Zplus_mod_idemp_l, Hc, Zplus_mod_idemp_l. done. }
    rewrite E. cbn [outcome_bind]. exists c. split.
    + rewrite (seqZ_cons j (Z.of_nat (S n))) by lia. replace (Z.pred (Z.of_nat (S n))) with (Z.of_nat n) by lia.
      by replace (Z.succ j) with (j + 1) by lia.
    + rewrite Ec. f_equal. lia.
Qed.

Definition tree_ready (s : t) : Prop := numLeaves s = 2 ^ k /\ count s mod 2 ^ k = 0.

Lemma instantiate_tree s : tree_ready s ->
  exists s' r, instantiate (Z.to_nat (2 ^ k)) s = Ret (s', r) /\ length r = Z.to_nat (2 ^ k) /\ tree_ready s' /\
    tree_row s' r /\ forall r', tree_row s r' -> tree_row s' r'.
Proof.
  intros [Hn Hc]. pose proof pow_k as [Hk _]. set (n := Z.to_nat (2 ^ k - 1)).
  replace (Z.to_nat (2 ^ k)) with (S n) by lia. cbn [instantiate instantiateEntry policy]. unfold instantiateEntry_.
  rewrite Hn, (proj2 (Z.eqb_neq (2 ^ k) 0)), Hc by lia. change (0 =? 0) with true. cbv iota.
  set (bits := replicate (Z.to_nat (2 ^ k - 1)) false). set (s1 := s <| trees := trees s ++ [bits] |>).
  assert (Ec1 : count s1 = count s) by done. assert (Et1 : trees s1 = trees s ++ [bits]) by done. assert (En1 : numLeaves s1 = 2 ^ k) by done.
  clearbody s1. rewrite Ec1, En1, Hc. cbn [outcome_bind].
  destruct (instantiate_more n 1 (s1 <| count := u64 (count s + 1) |>)) as (c & E & Ec); [done| |lia|lia|].
  { cbn. by rewrite count_mod, <- Zplus_mod_idemp_l, Hc. }
  rewrite E. cbn [outcome_bind]. change (trees (s1 <| count := u64 (count s + 1) |>)) with (trees s1). rewrite Et1, length_app.
  cbn [length]. replace (pred (length (trees s) + 1)) with (length (trees s)) by lia. eexists _, _. split; [done|].
  assert (El : mkData (0 + 2 ^ k - 1) (length (trees s)) :: map (fun i => mkData (i + 2 ^ k - 1) (length (trees s))) (seqZ 1 (Z.of_nat n))
    = leaves (length (trees s))).
  { unfold leaves. rewrite (seqZ_cons 0 (2 ^ k)) by lia. replace (Z.pred (2 ^ k)) with (Z.of_nat n) by lia. done. }
  rewrite El. split; [rewrite length_leaves; lia|]. split; [split; [done|]; cbn; rewrite Ec; replace (1 + Z.of_nat n) with (2 ^ k) by lia; apply Z.mod_same; lia|].
  split.
  - split; [done|]. exists (length (trees s)), bits. cbn. rewrite Et1. split; [by rewrite list_lookup_middle|].
    split; [|done]. unfold sized, bits. rewrite length_replicate. lia.
  - intros r' (_ & tr & b & Eb & Hb & ->). split; [done|]. exists tr, b. cbn. rewrite Et1. split; [by apply lookup_app_l_Some|done].
Qed.

Definition plru_laws : PolicyLaws t ReplData (Z.to_nat (2 ^ k)).
Proof.
  refine {| ready := tree_ready; row := tree_row |}.
  - apply instantiate_tree.
  - intros tick s r h. exact (update_row negb s r h).
  - intros tick s r h. exact (update_row negb s r h).
  - intros s r h. exact (update_row (fun right => right) s r h).
  - intros s r (Hn & tr & bits & E & Hs & ->) _. destruct (victim_spec s tr bits Hn E Hs) as (i & m & Ev & Hi & _).
    by exists i, s.
Defined.
End Tree.
End Gem5TreeFacts.
