(* ===== verification/Gem5DuelingFacts.v ===== *)
(** * Dueling of two lawful policies is lawful

    When the team is as large as a set and a constituency is made of whole teams,
    the entries of a set all sample for the same team or are all followers; the
    policy then satisfies [PolicyLaws] whenever both its policies do. *)
From S2P Require Import Prelude Numeric Gem5Arrays Gem5Policies Gem5Rrip Gem5Dueling Gem5PolicyFacts.
From stdpp Require Import base list strings.
From Stdlib Require Import ZArith Lia.
Open Scope Z_scope.

Module Gem5DuelingFacts.
Import DuelingMonitor Dueling Gem5PolicyFacts.

(** ** Entries and the monitor *)

Section Monitor.
Context {F : Type} `{Num F}.
Implicit Types m : DuelingMonitor.t F.

(** What an entry is at a place of its constituency: whether a sample, and its team. *)
Definition place m (x : Z) : bool * bool :=
  if x <? teamSize m then (true, false)
  else if constituencySize m - teamSize m <=? x then (true, true) else (false, false).

(** A monitor whose identifier is one bit. *)
Definition proper_monitor m : Prop :=
  popCount (id m) = 1 /\ id m <> 0 /\ 0 < teamSize m /\ 2 * teamSize m <= constituencySize m < 2 ^ 31.

Lemma setSample_fresh i team : popCount i = 1 -> i <> 0 ->
  exists d, Dueler.setSample i team Dueler.Dueler_ = Ret d /\ Dueler.isSample i d = (true, team).
Proof.
  intros Hp Hi. unfold Dueler.setSample. rewrite Hp. cbn [Z.eqb Pos.eqb negb Dueler._isSample Dueler.Dueler_ Z.land].
  eexists. split; [done|]. destruct team; unfold Dueler.isSample; cbn; rewrite ?Z.land_diag;
    rewrite (proj2 (Z.eqb_neq i 0)) by done; done.
Qed.

Lemma initEntry_spec m : proper_monitor m -> 0 <= regionCounter m < constituencySize m ->
  exists d, initEntry Dueler.Dueler_ m = Ret (d, m <| regionCounter :=
      if regionCounter m + 1 =? constituencySize m then 0 else regionCounter m + 1 |>) /\
    Dueler.isSample (id m) d = place m (regionCounter m).
Proof.
  intros (Hp & Hi & Ht & Hc) Hr. unfold initEntry, place. rewrite !(u64_small) by lia.
  rewrite (proj2 (Z.eqb_neq (regionCounter m) (2 ^ 31 - 1))) by lia.
  assert (E : (constituencySize m <=? regionCounter m + 1) = (regionCounter m + 1 =? constituencySize m))
    by (apply eq_true_iff_eq; rewrite Z.leb_le, Z.eqb_eq; lia). rewrite E.
  destruct (regionCounter m <? teamSize m).
  - destruct (setSample_fresh (id m) false Hp Hi) as (d & -> & Ed). by exists d.
  - destruct (constituencySize m - teamSize m <=? regionCounter m).
    + destruct (setSample_fresh (id m) true Hp Hi) as (d & -> & Ed). by exists d.
    + exists Dueler.Dueler_. split; [done|]. reflexivity.
Qed.

(** Sampling changes the selector and the winner only. *)
Lemma sample_fields d m : id (sample d m) = id m /\ teamSize (sample d m) = teamSize m.
Proof. unfold sample. destruct (Dueler.isSample (id m) d) as [[] []]; cbn; try done; by destruct (_ : bool). Qed.
End Monitor.

(** ** The policy *)

Section Laws.
Context {F : Type} `{Num F} {PA HA PB HB : Type} {A : ReplacementPolicy PA HA} {B : ReplacementPolicy PB HB}.
Context {assoc : nat} {LA : PolicyLaws PA HA assoc} {LB : PolicyLaws PB HB assoc}.
Abbreviation state := (Dueling.t (F := F) (PA := PA) (HA := HA) (PB := PB) (HB := HB)).
Abbreviation datum := (ReplData (HA := HA) (HB := HB)).
Implicit Types s : state.

(** The data of a set: rows of both policies, all at the same place of the duel. *)
Definition duel_row s (r : list nat) : Prop :=
  teamSize (duelingMonitor s) = Z.of_nat assoc /\
  exists (ds : list datum) b, length r = assoc /\ Forall2 (fun h d => data s !! h = Some d) r ds /\
    row (replPolicyA s) (map replDataA ds) /\ row (replPolicyB s) (map replDataB ds) /\
    Forall (fun d => Dueler.isSample (id (duelingMonitor s)) (dueler d) = b) ds.

(** A state between two sets: whole teams make up a constituency. *)
Definition duel_ready s : Prop :=
  ready (replPolicyA s) /\ ready (replPolicyB s) /\ proper_monitor (duelingMonitor s) /\
  teamSize (duelingMonitor s) = Z.of_nat assoc /\
  0 <= regionCounter (duelingMonitor s) < constituencySize (duelingMonitor s) /\
  (Z.of_nat assoc | constituencySize (duelingMonitor s)) /\ (Z.of_nat assoc | regionCounter (duelingMonitor s)).

(** Another state with the same entries, in which no row of either policy is damaged. *)
Lemma duel_row_kept s s' : data s' = data s -> id (duelingMonitor s') = id (duelingMonitor s) ->
  teamSize (duelingMonitor s') = teamSize (duelingMonitor s) ->
  (forall r, row (replPolicyA s) r -> row (replPolicyA s') r) ->
  (forall r, row (replPolicyB s) r -> row (replPolicyB s') r) -> forall r, duel_row s r -> duel_row s' r.
Proof.
  intros Ed Ei Et HA' HB' r (Ht & ds & b & Hl & Hds & Ha & Hb & Hu). split; [congruence|]. exists ds, b.
  rewrite Ed, Ei. split; [done|]. split; [done|]. split; [by apply HA'|]. split; [by apply HB'|done].
Qed.

(** An operation of both policies on an entry of a row. *)
Lemma both_spec (fA : HA -> PA -> Outcome PA) (fB : HB -> PB -> Outcome PB) s r h :
  (forall a r h, row a r -> In h r -> exists a', fA h a = Ret a' /\ forall r', row a r' -> row a' r') ->
  (forall b r h, row b r -> In h r -> exists b', fB h b = Ret b' /\ forall r', row b r' -> row b' r') ->
  duel_row s r -> In h r ->
  exists a b d, both fA fB h s = Ret (s <| replPolicyA := a |> <| replPolicyB := b |>) /\ data s !! h = Some d /\
    (forall r', row (replPolicyA s) r' -> row a r') /\ (forall r', row (replPolicyB s) r' -> row b r').
Proof.
  intros HfA HfB (_ & ds & _ & _ & Hds & Ha & Hb & _) (k & Ek)%list_elem_of_In%list_elem_of_lookup.
  destruct (Forall2_lookup_l _ _ _ _ _ Hds Ek) as (d & Ed & Esh).
  assert (Hin : In d ds) by (apply list_elem_of_In; by eapply list_elem_of_lookup_2).
  destruct (HfA _ _ (replDataA d) Ha) as (a & Ea & HkA); [by apply in_map|].
  destruct (HfB _ _ (replDataB d) Hb) as (b & Eb & HkB); [by apply in_map|].
  exists a, b, d. split; [|done]. unfold both. rewrite (get_some _ _ _ Esh). cbn [outcome_bind]. rewrite Ea. cbn [outcome_bind].
  by rewrite Eb.
Qed.

Lemma both_row fA fB s r h :
  (forall a r h, row a r -> In h r -> exists a', fA h a = Ret a' /\ forall r', row a r' -> row a' r') ->
  (forall b r h, row b r -> In h r -> exists b', fB h b = Ret b' /\ forall r', row b r' -> row b' r') ->
  duel_row s r -> In h r -> exists s', both fA fB h s = Ret s' /\ forall r', duel_row s r' -> duel_row s' r'.
Proof.
  intros HfA HfB Hr Hin. destruct (both_spec fA fB s r h HfA HfB Hr Hin) as (a & b & d & -> & _ & Ka & Kb).
  eexists. split; [done|]. by apply duel_row_kept.
Qed.

Lemma reset_duel tick s r h : duel_row s r -> In h r ->
  exists s', reset_ tick h s = Ret s' /\ forall r', duel_row s r' -> duel_row s' r'.
Proof.
  intros Hr Hin. destruct (both_spec (reset tick) (reset tick) s r h) as (a & b & d & E & Ed & Ka & Kb); [| |done|done|].
  - intros. by eapply reset_row.
  - intros. by eapply reset_row.
  - unfold reset_. rewrite E. cbn [outcome_bind].
    change (data (s <| replPolicyA := a |> <| replPolicyB := b |>)) with (data s). rewrite (get_some _ _ _ Ed). cbn [outcome_bind].
    eexists. split; [done|]. destruct (sample_fields (dueler d) (duelingMonitor s)). by apply duel_row_kept.
Qed.

Lemma gets_some {T} (l : list T) r ds : Forall2 (fun h d => l !! h = Some d) r ds -> Data.gets l r = Ret ds.
Proof. induction 1 as [|h d r ds E _ IH]; [done|]. cbn [Data.gets]. by rewrite (get_some _ _ _ E), IH. Qed.

Lemma victim_duel s r : duel_row s r -> r <> [] -> exists i s', getVictim_ r s = Ret (i, s') /\
  (i < length r)%nat /\ forall r', duel_row s r' -> duel_row s' r'.
Proof.
  intros (Ht & ds & b & Hl & Hds & Ha & Hb & Hu) Hne. unfold getVictim_. rewrite Hl, Ht, Z.eqb_refl. cbn [negb].
  rewrite (gets_some _ _ _ Hds). cbn [outcome_bind]. pose proof (Forall2_length _ _ _ Hds) as Hlen.
  assert (Hn : ds <> []) by (intros ->; by destruct r). destruct ds as [|d0 ds0] eqn:Ed; [done|]. rewrite <- Ed in *.
  assert (Hb0 : Dueler.isSample (id (duelingMonitor s)) (dueler d0) = b).
  { rewrite Ed in Hu. by inversion Hu. }
  rewrite Hb0. destruct b as [is_sample team].
  assert (Hsame : forallb (same_team (duelingMonitor s) team) ds = true).
  { apply forallb_forall. intros d Hd. rewrite Forall_forall in Hu. unfold same_team.
    rewrite (Hu d) by (by apply list_elem_of_In). rewrite eqb_reflx. by rewrite andb_false_r. }
  rewrite Hsame. cbn [negb].
  destruct ((is_sample && negb team) || (negb is_sample && negb (negb (winner (duelingMonitor s))))).
  - destruct (victim_row (replPolicyA s) (map replDataA ds) Ha) as (i & a & E & Hi & Ka); [by destruct ds|].
    change (replPolicyA (s <| selectedA := selectedA s + 1 |>)) with (replPolicyA s). rewrite E. cbn [outcome_bind].
    eexists i, _. split; [done|]. rewrite length_map in Hi. split; [lia|]. by apply duel_row_kept.
  - destruct (victim_row (replPolicyB s) (map replDataB ds) Hb) as (i & c & E & Hi & Kb); [by destruct ds|].
    change (replPolicyB (s <| selectedB := selectedB s + 1 |>)) with (replPolicyB s). rewrite E. cbn [outcome_bind].
    eexists i, _. split; [done|]. rewrite length_map in Hi. split; [lia|]. by apply duel_row_kept.
Qed.

(** *** Instantiation *)

Lemma monitor_region (m : DuelingMonitor.t F) x : proper_monitor m -> proper_monitor (m <| regionCounter := x |>).
Proof. done. Qed.

Lemma region_twice (m : DuelingMonitor.t F) x y z : y = z ->
  (m <| regionCounter := x |>) <| regionCounter := y |> = m <| regionCounter := z |>.
Proof. by intros ->. Qed.

(** [n] entries from the place [c] on, all of the kind [k]. *)
Lemma instantiate_duel n : forall s a b ra rb c k,
  instantiate n (replPolicyA s) = Ret (a, ra) -> instantiate n (replPolicyB s) = Ret (b, rb) ->
  proper_monitor (duelingMonitor s) -> 0 <= c -> c + Z.of_nat n <= constituencySize (duelingMonitor s) ->
  (n <> 0%nat -> regionCounter (duelingMonitor s) = c) ->
  (forall x, c <= x < c + Z.of_nat n -> place (duelingMonitor s) x = k) ->
  exists ds s', instantiate n s = Ret (s', seq (length (data s)) n) /\
    replPolicyA s' = a /\ replPolicyB s' = b /\ data s' = data s ++ ds /\ length ds = n /\
    map replDataA ds = ra /\ map replDataB ds = rb /\
    Forall (fun d => Dueler.isSample (id (duelingMonitor s)) (dueler d) = k) ds /\
    duelingMonitor s' = (duelingMonitor s) <| regionCounter :=
      if (n =? 0)%nat then regionCounter (duelingMonitor s)
      else if c + Z.of_nat n =? constituencySize (duelingMonitor s) then 0 else c + Z.of_nat n |>.
Proof.
  induction n as [|n IH]; intros s a b ra rb c k Ea Eb Hm Hc Hle Hr Hk.
  { cbn in Ea, Eb. injection Ea as <- <-. injection Eb as <- <-. exists [], s. cbn. rewrite app_nil_r.
    repeat split; try done. by destruct (duelingMonitor s). }
  cbn [instantiate] in Ea, Eb |- *.
  destruct (instantiateEntry (replPolicyA s)) as [[a1 ha]|] eqn:E1; [|done]. cbn [outcome_bind] in Ea.
  destruct (instantiate n a1) as [[a2 ra2]|] eqn:E2; [|done]. cbn [outcome_bind] in Ea. injection Ea as <- <-.
  destruct (instantiateEntry (replPolicyB s)) as [[b1 hb]|] eqn:E3; [|done]. cbn [outcome_bind] in Eb.
  destruct (instantiate n b1) as [[b2 rb2]|] eqn:E4; [|done]. cbn [outcome_bind] in Eb. injection Eb as <- <-.
  specialize (Hr ltac:(done)). destruct (initEntry_spec (duelingMonitor s) Hm) as (d & Ei & Hd); [lia|].
  cbn [instantiateEntry policy]. unfold instantiateEntry_ at 1. rewrite E1. cbn [outcome_bind]. rewrite E3. cbn [outcome_bind].
  rewrite Ei. cbn [outcome_bind Data.new]. rewrite Hr in *.
  set (m1 := (duelingMonitor s) <| regionCounter := if c + 1 =? constituencySize (duelingMonitor s) then 0 else c + 1 |>).
  match goal with |- context [instantiate n ?x] => set (s1 := x) end.
  assert (Es1 : replPolicyA s1 = a1 /\ replPolicyB s1 = b1 /\ duelingMonitor s1 = m1 /\ data s1 = data s ++ [mkData d ha hb]) by done.
  clearbody s1. destruct Es1 as (EA & EB & EM & ED).
  destruct (IH s1 a2 b2 ra2 rb2 (c + 1) k) as (ds & s' & E & F1 & F2 & F3 & F4 & F5 & F6 & F7 & F8).
  - by rewrite EA.
  - by rewrite EB.
  - rewrite EM. by apply monitor_region.
  - lia.
  - rewrite EM. cbn. lia.
  - intros Hn. rewrite EM. cbn. rewrite (proj2 (Z.eqb_neq _ _)); [done|lia].
  - intros x Hx. rewrite EM. apply (Hk x). lia.
  - rewrite E. cbn [outcome_bind]. exists (mkData d ha hb :: ds), s'. split.
    { cbn [seq]. do 3 f_equal. rewrite ED, length_app. cbn. f_equal. lia. }
    split; [done|]. split; [done|]. split; [rewrite F3, ED, <- app_assoc; done|]. cbn [length map]. split; [by rewrite F4|].
    split; [by rewrite F5|]. split; [by rewrite F6|]. split.
    + constructor; [cbn [dueler]; rewrite Hd; apply Hk; lia|]. rewrite EM in F7. exact F7.
    + rewrite F8, EM. unfold m1. apply region_twice. cbn. destruct n as [|n]; [done|]. cbn [Nat.eqb].
      by replace (c + 1 + Z.of_nat (S n)) with (c + Z.of_nat (S (S n))) by lia.
Qed.

(** Between two sets all places of the next set are of one kind. *)
Lemma place_uniform (m : DuelingMonitor.t F) : proper_monitor m -> teamSize m = Z.of_nat assoc ->
  0 <= regionCounter m < constituencySize m -> (Z.of_nat assoc | constituencySize m) -> (Z.of_nat assoc | regionCounter m) ->
  regionCounter m + Z.of_nat assoc <= constituencySize m /\
  exists k, forall x, regionCounter m <= x < regionCounter m + Z.of_nat assoc -> place m x = k.
Proof.
  intros (_ & _ & Ht & Hc) Et Hr [q Eq] [j Ej].
  assert (Hj : 0 <= j < q) by nia. split; [nia|]. exists (place m (regionCounter m)). intros x Hx. unfold place. rewrite Et.
  destruct (Z.ltb_spec (regionCounter m) (Z.of_nat assoc)).
  - assert (j = 0) by nia. destruct (Z.ltb_spec x (Z.of_nat assoc)); [done|nia].
  - assert (1 <= j) by nia. destruct (Z.ltb_spec x (Z.of_nat assoc)); [nia|].
    destruct (Z.leb_spec (constituencySize m - Z.of_nat assoc) (regionCounter m)), (Z.leb_spec (constituencySize m - Z.of_nat assoc) x);
      try done; [lia|]. assert (j < q - 1) by nia. nia.
Qed.

Lemma instantiate_duel_row s : duel_ready s -> exists s' r, instantiate assoc s = Ret (s', r) /\
  length r = assoc /\ duel_ready s' /\ duel_row s' r /\ forall r', duel_row s r' -> duel_row s' r'.
Proof.
  intros (Ra & Rb & Hm & Ht & Hr & Hdc & Hdr). destruct (place_uniform _ Hm Ht Hr Hdc Hdr) as (Hle & k & Hk).
  destruct (instantiate_row (replPolicyA s) Ra) as (a & ra & Ea & La & Ra' & Rowa & Ka).
  destruct (instantiate_row (replPolicyB s) Rb) as (b & rb & Eb & Lb & Rb' & Rowb & Kb).
  destruct (instantiate_duel assoc s a b ra rb _ k Ea Eb Hm (proj1 Hr) Hle (fun _ => eq_refl) Hk)
    as (ds & s' & E & FA & FB & FD & Fl & Fa & Fb & Fk & FM).
  assert (Hpos : 0 < Z.of_nat assoc) by (destruct Hm as (_ & _ & ? & _); lia).
  rewrite (proj2 (Nat.eqb_neq assoc 0)) in FM by lia.
  exists s', (seq (length (data s)) assoc). split; [done|]. rewrite length_seq. split; [done|].
  split; [|split].
  - split; [by rewrite FA|]. split; [by rewrite FB|]. rewrite FM. split; [by apply monitor_region|]. split; [done|]. cbn.
    split; [|split; [done|]].
    + destruct (Z.eqb_spec (regionCounter (duelingMonitor s) + Z.of_nat assoc) (constituencySize (duelingMonitor s))); lia.
    + destruct (_ =? _); [apply Z.divide_0_r|]. apply Z.divide_add_r; [done|apply Z.divide_refl].
  - split; [by rewrite FM|]. exists ds, k. rewrite length_seq. split; [done|]. rewrite FA, FB, FD, FM, Fa, Fb. cbn.
    split; [|done]. apply Forall2_same_length_lookup_2; [by rewrite length_seq|].
    intros i h d [-> Hi]%lookup_seq Ed. rewrite lookup_app_r by lia. by replace (length (data s) + i - length (data s))%nat with i by lia.
  - intros r' (Ht' & ds' & k' & Hl' & Hds' & Ha' & Hb' & Hk'). split; [by rewrite FM|]. exists ds', k'. split; [done|].
    rewrite FA, FB, FD, FM. cbn. split; [|auto]. eapply Forall2_impl; [exact Hds'|]. intros h d Eh. by apply lookup_app_l_Some.
Qed.

#[global] Instance dueling_laws : PolicyLaws state nat assoc.
Proof.
  refine {| ready := duel_ready; row := duel_row |}.
  - apply instantiate_duel_row.
  - intros tick s r h. apply both_row; intros; by eapply touch_row.
  - intros tick s r h. apply reset_duel.
  - intros s r h. apply both_row; intros; by eapply invalidate_row.
  - apply victim_duel.
Defined.
End Laws.
End Gem5DuelingFacts.
