(* ===== verification/Gem5Correct.v ===== *)
(** * What the gem5 cache structures promise

    Sequences of operations on the cache memory refine a partial map from line
    addresses to entries; the replacement policies choose the oldest, or lightest,
    candidate; the banked arrays and the atomic ALUs admit accesses as their
    latencies say. *)
From S2P Require Import Prelude Gem5Arrays Gem5Policies Gem5Cache Gem5Facts Gem5PolicyFacts.
From stdpp Require Import base list gmap strings.
From Stdlib Require Import ZArith Lia Sorted.
Open Scope Z_scope.

Module Gem5Correct.
Import CacheMemory Gem5Facts Gem5PolicyFacts.

(** ** The cache memory as a map *)

(** What the protocol does with a cache: it creates entries, changes their
    permission and calls the operations of the cache. *)
Inductive op (H D : Type) : Type :=
| Create (p : positive) (e : Entry.t H D)
| Permit (p : positive) (perm : AccessPermission)
| Allocate (a : Z) (p : positive)
| Deallocate (a : Z)
| Access (a : Z) (type : RubyRequestType)
| TestAccess (a : Z) (type : RubyRequestType)
| MakeMRU (a : Z)
| Probe (a : Z)
| Lock (a context : Z)
| Unlock (a : Z)
| UnlockAll (context : Z)
| HtmCommit
| HtmAbort.
Arguments Create {_ _}. Arguments Permit {_ _}. Arguments Allocate {_ _}. Arguments Deallocate {_ _}.
Arguments Access {_ _}. Arguments TestAccess {_ _}. Arguments MakeMRU {_ _}. Arguments Probe {_ _}. Arguments Lock {_ _}.
Arguments Unlock {_ _}. Arguments UnlockAll {_ _}. Arguments HtmCommit {_ _}. Arguments HtmAbort {_ _}.

Section Trace.
Context {PS H D : Type} {assoc : nat} {Policy : ReplacementPolicy PS H} {Laws : PolicyLaws PS H assoc}.
Context (ruby : RubySystem).
Context (invalidateEntry : Entry.t H D -> Entry.t H D).
Abbreviation cache := (t PS H D).
Implicit Types c : cache.

(** One operation at a tick. *)
Definition exec (c : cache) (o : Z * op H D) : Outcome cache :=
  let curTick := fst o in
  match snd o with
  | Create p e => Ret (c <| store := <[p := e]> (store c) |>)
  | Permit p perm => Ret (update p (Entry.changePermission perm) c)
  | Allocate a p => let? (c, _) := allocate ruby curTick c a (Some p) in Ret c
  | Deallocate a => deallocate ruby c a
  | Access a type => let? (_, c) := tryCacheAccess ruby curTick c a type in Ret c
  | TestAccess a type => let? (_, c) := testCacheAccess ruby curTick c a type in Ret c
  | MakeMRU a => setMRU ruby curTick c a
  | Probe a => let? (_, c) := cacheProbe ruby c a in Ret c
  | Lock a context => setLocked ruby c a context
  | Unlock a => clearLocked ruby c a
  | UnlockAll context => clearLockedAll c context
  | HtmCommit => htmCommitTransaction c
  | HtmAbort => htmAbortTransaction invalidateEntry c
  end.

(** When the protocol may call an operation. *)
Definition enabled (c : cache) (o : op H D) : Prop :=
  match o with
  | Create p _ => store c !! p = None
  | Permit _ perm => perm <> NotPresent
  | Allocate a p => is_line ruby a = true /\ view c a = None /\ has_room c a /\ unplaced c p
  | Deallocate a | Lock a _ | Unlock a => is_line ruby a = true /\ view c a <> None
  | Access a _ | TestAccess a _ => is_line ruby a = true
  | MakeMRU a => is_line ruby (makeLineAddress ruby a) = true
  | Probe a => is_line ruby a = true /\ view c a = None /\ ~ has_room c a
  | UnlockAll _ | HtmCommit | HtmAbort => True
  end.

(** The abstract cache: only [Allocate] and [Deallocate] change the map. *)
Definition spec (m : gmap Z positive) (o : op H D) : gmap Z positive :=
  match o with
  | Allocate a p => <[a := p]> m
  | Deallocate a => delete a m
  | _ => m
  end.

Definition represents (m : gmap Z positive) (c : cache) : Prop := forall a, m !! a = view c a.

Lemma represents_same m c c' : represents m c -> same_lines ruby c c' -> wf ruby c' /\ represents m c'.
Proof. intros Hm [Hw Hv]. split; [done|]. intros a. by rewrite Hv. Qed.

Hypothesis invalidate_keeps : keeps invalidateEntry.

(** An operation on the entry of a line that changes nothing else. *)
Lemma on_line c a : wf ruby c -> is_line ruby a = true -> view c a <> None ->
  exists p e, lookup ruby c a = Ret (Some p) /\ deref c (Some p) = Ret (p, e) /\ exists s w, filed ruby c s w e.
Proof.
  intros Hw Hl Hv. destruct (view c a) as [p|] eqn:Ev; [|done].
  destruct (view_some ruby c a p Hw Ev) as (i & e & _ & _ & Ee & _ & F). exists p, e.
  rewrite (lookup_spec ruby c a Hw Hl), Ev. cbn. rewrite Ee. split; [done|]. split; [done|by eexists _, _].
Qed.

Lemma lookup_cases c a : wf ruby c -> is_line ruby a = true ->
  lookup ruby c a = Ret None \/
  exists p e, lookup ruby c a = Ret (Some p) /\ deref c (Some p) = Ret (p, e) /\ exists s w, filed ruby c s w e.
Proof.
  intros Hw Hl. destruct (view c a) as [p|] eqn:Ev; [right; apply on_line; [done|done|by rewrite Ev]|left].
  by rewrite (lookup_spec ruby c a Hw Hl), Ev.
Qed.

Lemma create_same c p e : wf ruby c -> store c !! p = None -> same_lines ruby c (c <| store := <[p := e]> (store c) |>).
Proof.
  intros (Hsh & Hs & Ht) Hp. split; [|done]. split; [done|split].
  - intros s w q Eq. destruct (Hs s w q Eq) as (e' & Ee & F). exists e'. split; [|done].
    change (<[p := e]> (store c) !! q = Some e'). rewrite lookup_insert_ne; [done|congruence].
  - intros a i Ei. destruct (Ht a i Ei) as (L & J & q & e' & Eq & Ee & Ea). split; [done|]. split; [done|].
    exists q, e'. split; [done|]. split; [|done].
    change (<[p := e]> (store c) !! q = Some e'). rewrite lookup_insert_ne; [done|congruence].
Qed.

(** The operations that never change which lines are present. *)
Lemma exec_same c o : wf ruby c -> enabled c (snd o) ->
  match snd o with Allocate _ _ | Deallocate _ => True | _ => exists c', exec c o = Ret c' /\ same_lines ruby c c' end.
Proof.
  intros Hw He. destruct o as [tick o]. cbn [snd] in *. destruct o; cbn [enabled exec fst snd] in *; try done.
  - eexists. split; [done|]. by apply create_same.
  - eexists. split; [done|]. apply same_lines_update; [by apply keeps_changePermission|done].
  - unfold tryCacheAccess. destruct (lookup_cases c a Hw He) as [-> |(p & e & -> & Ed & s & w & Hd)]; cbn [outcome_bind].
    { eexists. split; [done|by apply same_lines_refl]. }
    rewrite Ed. cbn [outcome_bind]. destruct (touch_entry_spec ruby tick p e s w c Hw Hd) as (c' & -> & Hc'). cbn [outcome_bind].
    exists c'. split; [|done]. by repeat case_match.
  - unfold testCacheAccess. destruct (lookup_cases c a Hw He) as [-> |(p & e & -> & Ed & s & w & Hd)]; cbn [outcome_bind].
    { eexists. split; [done|by apply same_lines_refl]. }
    rewrite Ed. cbn [outcome_bind]. destruct (touch_entry_spec ruby tick p e s w c Hw Hd) as (c' & -> & Hc'). by exists c'.
  - unfold setMRU. destruct (lookup_cases c _ Hw He) as [-> |(p & e & -> & Ed & s & w & Hd)]; cbn [outcome_bind].
    { eexists. split; [done|by apply same_lines_refl]. }
    rewrite Ed. cbn [outcome_bind]. by apply (touch_entry_spec ruby tick p e s w).
  - destruct He as (Hl & Hv & Hno). destruct (cacheProbe_spec ruby c a Hw Hl Hv Hno) as (v & p & s & -> & Hk & _).
    cbn [outcome_bind]. eexists. split; [done|]. split; [by apply set_state_wf|done].
  - destruct He as [Hl Hv]. unfold setLocked, locked_entry. destruct (on_line c a Hw Hl Hv) as (p & e & -> & Ed & _).
    cbn [outcome_bind]. rewrite Ed. cbn [outcome_bind]. eexists. split; [done|].
    apply same_lines_update; [apply keeps_setLocked|done].
  - destruct He as [Hl Hv]. unfold clearLocked, locked_entry. destruct (on_line c a Hw Hl Hv) as (p & e & -> & Ed & _).
    cbn [outcome_bind]. rewrite Ed. cbn [outcome_bind]. eexists. split; [done|].
    apply same_lines_update; [apply keeps_clearLocked|done].
  - unfold clearLockedAll.
    destruct (for_lines_spec ruby (fun p e '(a, c) =>
                   (a, if Entry.isLocked context e then update p Entry.clearLocked c else c)) c tt Hw) as (y & c' & -> & Hc').
    + intros p e y c1. cbn. by destruct (Entry.isLocked context e).
    + intros p e y c1 Hw1. cbn. destruct (Entry.isLocked context e); [|by apply same_lines_refl].
      apply same_lines_update; [apply keeps_clearLocked|done].
    + by exists c'.
  - unfold htmCommitTransaction.
    match goal with |- context [for_lines ?g c ?x] =>
      destruct (for_lines_spec ruby g c x Hw) as (y & c' & -> & Hc') end.
    + by intros p e [? ?] c1.
    + intros p e [? ?] c1 Hw1. cbn. apply same_lines_update; [apply keeps_leave_htm|done].
    + cbn [outcome_bind]. eexists. split; [done|]. exact Hc'.
  - unfold htmAbortTransaction.
    match goal with |- context [for_lines ?g c ?x] =>
      destruct (for_lines_spec ruby g c x Hw) as (y & c' & -> & Hc') end.
    + by intros p e [? ?] c1.
    + intros p e [? ?] c1 Hw1. cbn. apply same_lines_update; [|done].
      apply (keeps_compose (fun e => if Entry.m_htmInWriteSet e then invalidateEntry e else e) leave_htm).
      * by apply keeps_if.
      * apply keeps_leave_htm.
    + cbn [outcome_bind]. eexists. split; [done|]. exact Hc'.
Qed.

(** One enabled operation: it returns, keeps the invariant and does to the map
    what the specification says. *)
Lemma exec_refines c m o : wf ruby c -> represents m c -> enabled c (snd o) ->
  exists c', exec c o = Ret c' /\ wf ruby c' /\ represents (spec m (snd o)) c'.
Proof.
  intros Hw Hm He. pose proof (exec_same c o Hw He) as Hsame. destruct o as [tick o]. cbn [fst snd] in *.
  destruct o; try (destruct Hsame as (c' & E & Hc'); exists c'; split; [exact E|]; by eapply represents_same).
  - destruct He as (Hl & Hv & Hroom & Hun). cbn [exec fst snd].
    destruct (allocate_spec ruby tick a p c Hw Hl Hv Hroom Hun) as (i & h & ps & Hi & Hh & Hk & ->). cbn [outcome_bind].
    eexists. split; [done|]. split; [by apply place_wf|]. intros b. rewrite (place_view ruby) by done. cbn [spec].
    case_decide as Hc; [subst; apply lookup_insert_eq|]. rewrite lookup_insert_ne by done. apply Hm.
  - destruct He as (Hl & Hv). cbn [exec fst snd]. destruct (view c a) as [p|] eqn:Ev; [|done].
    destruct (deallocate_spec ruby a p c Hw Hl Ev) as (i & ps & Hi & Ht & Hk & ->).
    eexists. split; [done|]. split; [by apply drop_wf|]. intros b. rewrite (drop_view ruby) by done. cbn [spec].
    case_decide as Hc; [subst; apply lookup_delete_eq|]. rewrite lookup_delete_ne by done. apply Hm.
Qed.

(** Every operation of the sequence is enabled when its turn comes. *)
Fixpoint enabled_all (c : cache) (os : list (Z * op H D)) : Prop :=
  match os with
  | [] => True
  | o :: os => enabled c (snd o) /\ forall c', exec c o = Ret c' -> enabled_all c' os
  end.

Lemma trace_refines os : forall c m, wf ruby c -> represents m c -> enabled_all c os ->
  exists c', outcome_fold exec os c = Ret c' /\ wf ruby c' /\ represents (foldl spec m (map snd os)) c'.
Proof.
  induction os as [|o os IH]; intros c m Hw Hm; cbn [enabled_all]; [intros _; by exists c|]. intros [He Hos].
  destruct (exec_refines c m o Hw Hm He) as (c1 & E & Hw1 & Hm1). cbn [outcome_fold map foldl]. rewrite E.
  cbn [outcome_bind]. apply IH; auto.
Qed.

(** The parameters of a cache whose sets its index bits can address. *)
Definition proper (p : Params) : Prop :=
  0 < p_assoc p < 2 ^ 31 /\ 0 <= p_size p < 2 ^ 31 /\ 0 <= p_start_index_bit p /\
  0 < p_dataArrayBanks p < 2 ^ 32 /\ 0 < p_tagArrayBanks p < 2 ^ 32 /\
  0 < (if p_block_size p =? 0 then blockSizeBytes ruby else p_block_size p) /\
  let sets := Z.quot (Z.quot (p_size p) (p_assoc p))
                (if p_block_size p =? 0 then blockSizeBytes ruby else p_block_size p) in
  1 < sets /\ p_start_index_bit p + Z.log2 sets <= 64.

Lemma instantiate_sets_rows sets : forall s : PS, ready s ->
  exists s' rs, instantiate_sets (H := H) sets assoc s = Ret (s', rs) /\ length rs = sets /\
    Forall (fun r => length r = assoc) rs /\ Forall (row s') rs /\ forall r, row s r -> row s' r.
Proof.
  induction sets as [|n IH]; intros s Hs; [exists s, []; repeat split; constructor || auto|]. cbn [instantiate_sets].
  destruct (instantiate_row s Hs) as (s1 & r & -> & Hl & H1 & Hr & Hk). cbn [outcome_bind].
  destruct (IH s1 H1) as (s2 & rs & -> & Hls & Hf & Hrs & Hk2). cbn [outcome_bind].
  exists s2, (r :: rs). split; [done|]. split; [cbn; by rewrite Hls|]. split; [by constructor|]. split; [|by auto].
  constructor; [by apply Hk2|done].
Qed.

Lemma empty_table c n k s w p : m_cache c = replicate n (replicate k None) -> slot_at c s w <> Some (Some p).
Proof.
  intros E. unfold slot_at. rewrite E. destruct ((s <? 0) || (w <? 0)); [done|].
  destruct (replicate n (replicate k None) !! Z.to_nat s) as [row|] eqn:Er; [|done].
  apply lookup_replicate in Er as [-> _]. intros Ew. by apply lookup_replicate in Ew as [? _].
Qed.

(** A shaped cache with an empty table and tag index. *)
Lemma empty_wf c : shaped c -> m_tag_index c = ∅ ->
  m_cache c = replicate (Z.to_nat (m_cache_num_sets c)) (replicate (Z.to_nat (m_cache_assoc c)) None) ->
  wf ruby c /\ represents ∅ c.
Proof.
  intros Hs Ht Hc. split; [split; [done|split]|].
  - intros s w p E. by apply (empty_table c _ _ _ _ _ Hc) in E.
  - intros a i. by rewrite Ht, lookup_empty.
  - intros a. unfold view. by rewrite Ht, !lookup_empty.
Qed.

(** A constructed and initialised cache is well formed and empty. *)
Lemma init_wf p policy raw : proper p -> ready policy -> Z.to_nat (p_assoc p) = assoc ->
  exists c0 c, CacheMemory ruby p policy raw = Ret c0 /\ init ruby c0 = Ret c /\ wf ruby c /\ represents ∅ c.
Proof.
  intros (Ha & Hs & Hb & Hd & Ht & Hblk & Hsets & Hbits) Hready Hassoc. unfold CacheMemory.
  destruct (BankedArray.constructor_wf raw (p_dataArrayBanks p) (p_dataAccessLatency p) (p_start_index_bit p)
    (rubyClockPeriod ruby) Hd) as (bd & -> & _). cbn [outcome_bind].
  destruct (BankedArray.constructor_wf raw (p_tagArrayBanks p) (p_tagAccessLatency p) (p_start_index_bit p)
    (rubyClockPeriod ruby) Ht) as (bt & -> & _). cbn [outcome_bind].
  match goal with |- exists c0 c, Ret ?x = _ /\ _ => set (c1 := x); exists c1 end.
  set (blk := if p_block_size p =? 0 then blockSizeBytes ruby else p_block_size p) in *.
  set (sets := Z.quot (Z.quot (p_size p) (p_assoc p)) blk) in *.
  assert (Hsz : sets < 2 ^ 31).
  { subst sets. rewrite !quot_nonneg by (try apply Z.quot_pos; lia).
    apply Z.div_lt_upper_bound; [lia|]. apply Z.div_lt_upper_bound; nia. }
  destruct (instantiate_sets_rows (Z.to_nat sets) policy Hready) as (ps & datas & Ei & Hl & Hf & Hrows & _).
  assert (0 < Z.log2 sets) by (apply Z.log2_pos; lia).
  set (c2 := if m_block_size c1 =? 0 then c1 <| m_block_size := blockSizeBytes ruby |> else c1).
  assert (Ec : m_block_size c2 = blk /\ m_cache_assoc c2 = p_assoc p /\ m_cache_size c2 = p_size p /\
    policy_state c2 = policy /\ m_start_index_bit c2 = p_start_index_bit p /\ m_tag_index c2 = ∅)
    by (unfold c2, blk; cbn; by destruct (p_block_size p =? 0)).
  destruct Ec as (Eb & Ea & Es & Ep & Est & Etag).
  eexists. split; [done|]. split.
  { unfold init. fold c2. rewrite Ea, Es, Ep, Eb. fold sets.
    rewrite (proj2 (Z.eqb_neq (p_assoc p) 0)), (proj2 (Z.eqb_neq blk 0)) by lia. cbn [orb].
    unfold assert. rewrite (proj2 (Z.ltb_lt 1 sets)) by lia. cbn [outcome_bind].
    rewrite floorLog2_exact by lia. cbn [outcome_bind]. rewrite (proj2 (Z.ltb_lt 0 _)) by lia. cbn [outcome_bind].
    rewrite Hassoc, Ei. reflexivity. }
  clearbody c2. destruct (Z.log2_spec sets); [lia|].
  apply empty_wf; [|exact Etag|cbn; by rewrite Ea, Hassoc]. unfold shaped. cbn. rewrite Ea, Est, Hassoc, length_replicate.
  repeat split; try lia; try done. by apply Forall_replicate_eq || apply Forall_replicate; rewrite length_replicate.
Qed.

End Trace.
(** ** Replacement policies *)

(** C39: the victim of LRU is the candidate touched longest ago, and the victim of
    WeightedLRU one of least occupancy and, among those, touched longest ago; ties
    go to the candidate that comes first. *)
Theorem victim_is_least (s : list LRU.ReplData) candidates ds : candidates <> [] -> Data.gets s candidates = Ret ds ->
  (exists i v, getVictim candidates s = Ret (i, s) /\ ds !! i = Some v /\
     forall j d, ds !! j = Some d ->
       LRU.lastTouchTick v <= LRU.lastTouchTick d /\ ((j < i)%nat -> LRU.lastTouchTick v < LRU.lastTouchTick d)) /\
  (exists i v, @getVictim _ _ LRU.weighted candidates s = Ret (i, s) /\ ds !! i = Some v /\
     forall j d, ds !! j = Some d ->
       LRU.last_occ_ptr v <= LRU.last_occ_ptr d /\
       (LRU.last_occ_ptr v = LRU.last_occ_ptr d ->
        LRU.lastTouchTick v <= LRU.lastTouchTick d /\ ((j < i)%nat -> LRU.lastTouchTick v < LRU.lastTouchTick d))).
Proof.
  intros Hne Hds. assert (Hn : ds <> []) by (intros ->; apply gets_inv, Forall2_length in Hds; by destruct candidates).
  cbn [getVictim LRU.policy LRU.weighted]. unfold LRU.least. rewrite Hds. cbn [outcome_bind]. split.
  - destruct (choose_least LRU.lastTouchTick ds Hn) as (i & v & E & Hv & Hb). exists i, v.
    change (fun c v => _) with LRU.older in E. rewrite E. by split.
  - destruct (choose_first_best LRU.lighter) with (ds := ds) as (i & v & E & [Hv Hb]); [| |done|].
    + intros a b Hl%lighter_spec. apply not_true_iff_false. rewrite lighter_spec. lia.
    + intros a b v Hl%lighter_spec Hf%not_true_iff_false. rewrite lighter_spec in Hf. apply lighter_spec. lia.
    + exists i, v. rewrite E. split; [done|]. split; [done|]. intros j h Hj. destruct (Hb j h Hj) as [B1%not_true_iff_false B2].
      rewrite lighter_spec in B1, B2. lia.
Qed.

Lemma victim_is_least_witness :
  let s := [LRU.mkData 5 1; LRU.mkData 3 1; LRU.mkData 3 0] in
  (exists i v, getVictim [0; 1; 2]%nat s = Ret (i, s) /\ s !! i = Some v /\
     forall j d, s !! j = Some d ->
       LRU.lastTouchTick v <= LRU.lastTouchTick d /\ ((j < i)%nat -> LRU.lastTouchTick v < LRU.lastTouchTick d)) /\
  (exists i v, @getVictim _ _ LRU.weighted [0; 1; 2]%nat s = Ret (i, s) /\ s !! i = Some v /\
     forall j d, s !! j = Some d ->
       LRU.last_occ_ptr v <= LRU.last_occ_ptr d /\
       (LRU.last_occ_ptr v = LRU.last_occ_ptr d ->
        LRU.lastTouchTick v <= LRU.lastTouchTick d /\ ((j < i)%nat -> LRU.lastTouchTick v < LRU.lastTouchTick d))).
Proof. apply victim_is_least; [discriminate|reflexivity]. Defined.

(** ** Sequences of operations on the cache *)

(** A run from a constructed and initialised cache. *)
Lemma run_refines {PS H D assoc} {Policy : ReplacementPolicy PS H} {Laws : PolicyLaws PS H assoc} ruby
  (invalidateEntry : Entry.t H D -> Entry.t H D) p policy raw c0 c1 os :
  keeps invalidateEntry -> proper ruby p -> ready policy -> Z.to_nat (p_assoc p) = assoc ->
  CacheMemory ruby p policy raw = Ret c0 -> init ruby c0 = Ret c1 ->
  enabled_all ruby invalidateEntry c1 os ->
  let m := foldl spec ∅ (map snd os) in
  exists c, outcome_fold (exec ruby invalidateEntry) os c1 = Ret c /\
    (forall a, is_line ruby a = true -> lookup ruby c a = Ret (m !! a)) /\
    (forall s l, NoDup l -> (forall a, In a l -> m !! a <> None /\ set_of c a = s) ->
       Z.of_nat (length l) <= m_cache_assoc c).
Proof.
  intros Hk Hp Hr Has E0 E1 Hos m.
  destruct (init_wf (H := H) (D := D) ruby p policy raw Hp Hr Has) as (c0' & c1' & E0' & E1' & Hw & Hm).
  assert (c0' = c0) by congruence. subst c0'. assert (c1' = c1) by congruence. subst c1'.
  destruct (trace_refines ruby invalidateEntry Hk os c1 ∅ Hw Hm Hos) as (c & E & Hwc & Hmc).
  exists c. split; [done|]. split.
  - intros a Hl. rewrite (lookup_spec ruby c a Hwc Hl). f_equal. symmetry. apply Hmc.
  - intros s l Hnd Hl. apply (set_bounded ruby c s l Hwc Hnd). intros a Ha. destruct (Hl a Ha) as [Hv Hs].
    split; [|done]. rewrite <- (Hmc a). done.
Qed.

(** C6: from a constructed and initialised cache with a lawful replacement policy,
    every sequence of operations the protocol may call runs without a failed assertion, panic or undefined
    behaviour, and [lookup] then answers as the partial map that only [allocate]
    and [deallocate] change; no set ever holds more lines than it has ways. *)
Theorem cache_refines_map {PS H D assoc} {Policy : ReplacementPolicy PS H} {Laws : PolicyLaws PS H assoc} ruby
  (invalidateEntry : Entry.t H D -> Entry.t H D) p policy raw c0 c1 os :
  keeps invalidateEntry -> proper ruby p -> ready policy -> Z.to_nat (p_assoc p) = assoc ->
  CacheMemory ruby p policy raw = Ret c0 -> init ruby c0 = Ret c1 ->
  enabled_all ruby invalidateEntry c1 os ->
  let m := foldl spec ∅ (map snd os) in
  exists c, outcome_fold (exec ruby invalidateEntry) os c1 = Ret c /\
    (forall a, is_line ruby a = true -> lookup ruby c a = Ret (m !! a)) /\
    (forall s l, NoDup l -> (forall a, In a l -> m !! a <> None /\ set_of c a = s) ->
       Z.of_nat (length l) <= m_cache_assoc c).
Proof. apply run_refines. Qed.

(** Two sets of one way, lines of 64 bytes, LRU. *)
Definition demo_ruby : RubySystem := mkRuby 64 6 1000.
Definition demo_params : Params := mkParams 128 1 6 false false 0 2 1 2 1 1 1 false.
Definition demo_init : Outcome (t (list LRU.ReplData) nat unit) :=
  let? c := CacheMemory demo_ruby demo_params [] 0 in init demo_ruby c.
Definition demo_start : t (list LRU.ReplData) nat unit :=
  match demo_init with Ret c => c | Exit _ => mk false ∅ [] [] (BankedArray.mk 0 0 0 0 [] 0) (BankedArray.mk 0 0 0 0 [] 0)
    (ALUFreeListArray.mk 0 0 []) 0 0 0 0 0 false 0 [] false no_stats ∅ end.
Definition demo_entry : Entry.t nat unit := Entry.AbstractCacheEntry 0 0 0 tt.

Lemma demo_proper : proper demo_ruby demo_params.
Proof. unfold proper. vm_compute. repeat split; discriminate || reflexivity. Qed.

Lemma demo_slots s w p : slot_at demo_start s w <> Some (Some p).
Proof. by apply (empty_table demo_start 2 1). Qed.

Definition demo_ops : list (Z * op nat unit) := [(1, Create 1 demo_entry); (2, Allocate 0 1%positive)].

Lemma demo_enabled : enabled_all demo_ruby (fun e => e) demo_start demo_ops.
Proof.
  split; [reflexivity|]. intros c' [= <-]. split; [|done]. split; [reflexivity|]. split; [reflexivity|]. split.
  - exists 0. split; [split; [lia|reflexivity]|reflexivity].
  - split; [by eexists|]. intros s w. apply (demo_slots s w).
Qed.

Lemma cache_refines_map_witness :
  exists c, outcome_fold (exec demo_ruby (fun e => e)) demo_ops demo_start = Ret c /\
    (forall a, is_line demo_ruby a = true -> lookup demo_ruby c a = Ret (foldl spec ∅ (map snd demo_ops) !! a)) /\
    (forall s l, NoDup l -> (forall a, In a l -> foldl spec ∅ (map snd demo_ops) !! a <> None /\ set_of c a = s) ->
       Z.of_nat (length l) <= m_cache_assoc c).
Proof.
  eapply (cache_refines_map demo_ruby (fun e => e) demo_params [] 0).
  - intros e. repeat split; auto.
  - apply demo_proper.
  - exact I.
  - reflexivity.
  - reflexivity.
  - reflexivity.
  - apply demo_enabled.
Defined.

(** C21: when a set is full, the line [cacheProbe] names is another one of the same
    set; deallocating it succeeds and leaves room for the new line, under any
    replacement policy whose victim is one of the candidates. *)
Theorem eviction_makes_room {PS H D assoc} {Policy : ReplacementPolicy PS H} {Laws : PolicyLaws PS H assoc} ruby
  (c : t PS H D) a :
  wf ruby c -> is_line ruby a = true -> view c a = None -> ~ has_room c a ->
  exists v c1 c', cacheProbe ruby c a = Ret (v, c1) /\ v <> a /\ set_of c v = set_of c a /\
    deallocate ruby c1 v = Ret c' /\ wf ruby c' /\ view c' v = None /\ has_room c' a /\
    cacheAvail ruby c' a = Ret true /\ forall b, b <> v -> view c' b = view c b.
Proof.
  intros Hw Hl Hv Hno. destruct (cacheProbe_spec ruby c a Hw Hl Hv Hno) as (v & p & s & E & Hk1 & Hlv & Hs & Ev).
  set (c1 := c <| policy_state := s |>) in *. assert (Hw1 : wf ruby c1) by (by apply set_state_wf). clear Hw. rename Hw1 into Hw.
  assert (Eb : forall b, view c1 b = view c b) by done. assert (Es : forall b, set_of c1 b = set_of c b) by done.
  destruct (deallocate_spec ruby v p c1 Hw Hlv Ev) as (i & ps & Hi & Ht & Hk & Ed).
  pose proof (drop_wf ruby v i p ps c1 Hw Hk Ht Hi) as Hw'.
  destruct (drop_fields ruby v i p ps c1 Hw Hk Hi) as (_ & Hslot & _).
  assert (Hroom : has_room (drop_line v (set_of c1 v) i p ps c1) a).
  { exists i. destruct Hw as (Hsh & _). split; [exact (proj2 (slot_at_range c1 _ _ _ Hsh Hi))|].
    rewrite Hslot, decide_True; [done|]. split; [|done]. by rewrite Es, Hs. }
  exists v, c1, (drop_line v (set_of c1 v) i p ps c1). split; [done|]. split; [congruence|]. split; [done|]. split; [done|].
  split; [done|]. split; [by rewrite (drop_view ruby), decide_True|]. split; [done|]. split.
  - destruct (cacheAvail_spec ruby _ a Hw' Hl) as (b & -> & Hb). f_equal. apply Hb. by right.
  - intros b Hb. by rewrite (drop_view ruby), decide_False.
Qed.

(** The demonstration cache with line 0 in its first set. *)
Definition demo_full : t (list LRU.ReplData) nat unit :=
  match outcome_fold (exec demo_ruby (fun e => e)) demo_ops demo_start with Ret c => c | Exit _ => demo_start end.

Lemma lru_ready assoc (s : list LRU.ReplData) : ready (assoc := assoc) s.
Proof. exact I. Qed.

Lemma demo_full_wf : wf (assoc := 1) demo_ruby demo_full.
Proof.
  destruct (init_wf (H := nat) (D := unit) (assoc := 1) demo_ruby demo_params [] 0 demo_proper (lru_ready 1 []) eq_refl) as (c0 & c1 & E0 & E1 & Hw & Hm).
  assert (c0 = match CacheMemory demo_ruby demo_params [] 0 with Ret c => c | Exit _ => c0 end) by (by rewrite E0).
  assert (Es : demo_start = c1) by (unfold demo_start, demo_init; rewrite E0; cbn [outcome_bind]; by rewrite E1).
  rewrite <- Es in Hw, Hm.
  destruct (trace_refines demo_ruby (fun e => e) ltac:(intros e; repeat split; auto) demo_ops demo_start ∅ Hw Hm demo_enabled)
    as (c & E & Hwc & _). unfold demo_full. by rewrite E.
Qed.

Lemma eviction_makes_room_witness :
  exists v c1 c', cacheProbe demo_ruby demo_full 128 = Ret (v, c1) /\ v <> 128 /\ set_of demo_full v = set_of demo_full 128 /\
    deallocate demo_ruby c1 v = Ret c' /\ wf (assoc := 1) demo_ruby c' /\ view c' v = None /\ has_room c' 128 /\
    cacheAvail demo_ruby c' 128 = Ret true /\ forall b, b <> v -> view c' b = view demo_full b.
Proof.
  apply (eviction_makes_room demo_ruby demo_full 128).
  - apply demo_full_wf.
  - reflexivity.
  - reflexivity.
  - intros (w & Hr & Ew). change (m_cache_assoc demo_full) with 1 in Hr.
    assert (w = 0) as -> by lia. vm_compute in Ew. discriminate Ew.
Defined.

Definition stale_ops : list (Z * op nat unit) :=
  [(1, Create 1 demo_entry); (2, Allocate 0 1%positive); (3, Permit 1 NotPresent);
   (4, Create 2 demo_entry); (5, Allocate 128 2%positive)].

(** An entry left in the table with permission [NotPresent] is overwritten by
    the next allocation in its way, but its address stays in the tag index: looking
    up the old line then returns the entry of the new one. *)
Theorem not_present_entry_goes_stale : exists c e,
  outcome_fold (exec demo_ruby (fun e => e)) stale_ops demo_start = Ret c /\
  lookup demo_ruby c 0 = Ret (Some 2%positive) /\
  store c !! 2%positive = Some e /\ Entry.m_Address e = 128.
Proof.
  assert (Hrun : match outcome_fold (exec demo_ruby (fun e => e)) stale_ops demo_start with
                 | Ret c => (lookup demo_ruby c 0, Entry.m_Address <$> (store c !! 2%positive))
                 | Exit _ => (Ret None, None)
                 end = (Ret (Some 2%positive), Some 128)) by (vm_compute; reflexivity).
  destruct (outcome_fold _ _ _) as [c|]; [|done]. injection Hrun as Hl Ha.
  destruct (store c !! 2%positive) as [e|] eqn:Ee; [|done]. injection Ha as Ha. by exists c, e.
Qed.

(** ** Banks *)

(** A reservation now, with the latency of the array, or at a cycle, with its own. *)
Inductive request : Type :=
| Now (curTick i : Z)
| At (cycle access_time i : Z).

Definition try (b : BankedArray.t) (r : request) : Outcome bool :=
  match r with
  | Now curTick i => BankedArray.tryAccess curTick b i
  | At cycle _ i => BankedArray.tryAccessSpecf b i cycle
  end.

Definition take (b : BankedArray.t) (r : request) : Outcome BankedArray.t :=
  match r with
  | Now curTick i => BankedArray.reserve curTick b i
  | At cycle access_time i => BankedArray.reserveSpecf b i access_time cycle
  end.

(** First and last tick of a request, unbounded, and its bank. *)
Definition first_tick (b : BankedArray.t) (r : request) : Z :=
  match r with Now curTick _ => curTick | At cycle _ _ => cycle * BankedArray.clockPeriod b end.
Definition last_tick (b : BankedArray.t) (r : request) : Z :=
  match r with
  | Now curTick _ => curTick + (BankedArray.accessLatency b - 1) * BankedArray.clockPeriod b
  | At cycle access_time _ => cycle * BankedArray.clockPeriod b + (access_time - 1) * BankedArray.clockPeriod b
  end.
Definition bank_index (b : BankedArray.t) (r : request) : Z :=
  match r with Now _ i | At _ _ i => i mod BankedArray.banks b end.

(** A request with an index and a duration that ends before the ticks wrap around. *)
Definition fits (b : BankedArray.t) (r : request) : Prop :=
  match r with
  | Now curTick i => 0 <= curTick /\ 0 <= i /\ last_tick b r < 2 ^ 64
  | At cycle access_time i => 0 <= cycle /\ 0 <= i /\ 0 < access_time /\ last_tick b r < 2 ^ 64
  end.

(** The requests granted so far, the last one first. *)
Inductive granted (b0 : BankedArray.t) : list request -> BankedArray.t -> Prop :=
| granted_nil : granted b0 [] b0
| granted_step rs b r b' :
    granted b0 rs b -> fits b0 r -> try b r = Ret true -> take b r = Ret b' -> granted b0 (r :: rs) b'.

(** Parameters that no reservation changes. *)
Definition same_array (b b' : BankedArray.t) : Prop :=
  BankedArray.accessLatency b' = BankedArray.accessLatency b /\
  BankedArray.clockPeriod b' = BankedArray.clockPeriod b /\ BankedArray.banks b' = BankedArray.banks b.

(** A granted request finds its bank free and takes it for its ticks. *)
Lemma take_spec b r : BankedArray.wf b -> 0 < BankedArray.accessLatency b -> 0 < BankedArray.clockPeriod b ->
  fits b r -> try b r = Ret true ->
  exists i old, BankedArray.busyBanks b !! Z.to_nat (bank_index b r) = Some old /\
    BankedArray.endAccess old < first_tick b r <= last_tick b r /\
    take b r = Ret (b <| BankedArray.busyBanks := <[Z.to_nat (bank_index b r) :=
      BankedArray.mkRecord i (first_tick b r) (last_tick b r)]> (BankedArray.busyBanks b) |>).
Proof.
  intros Hw Hl Hp Hf Ht. destruct r as [tick i|cycle time i]; cbn [fits try take first_tick last_tick bank_index] in *.
  - destruct Hf as (H0 & Hi & H64). destruct (BankedArray.reserve_free tick b i Hw Hi ltac:(lia) Ht) as (old & Eo & Hlt & ->).
    exists i, old. split; [done|]. split; [nia|]. rewrite (u64_small (BankedArray.accessLatency b - 1)) by nia.
    rewrite (u64_small ((BankedArray.accessLatency b - 1) * BankedArray.clockPeriod b)) by nia. by rewrite u64_small by nia.
  - destruct Hf as (H0 & Hi & Hpos & H64).
    destruct (BankedArray.reserveSpecf_free b i time cycle Hw Hi ltac:(lia) ltac:(lia) Ht) as (old & Eo & Hlt & ->).
    assert (Ec : u64 (cycle * BankedArray.clockPeriod b) = cycle * BankedArray.clockPeriod b) by (apply u64_small; nia).
    rewrite Ec in *. exists i, old. split; [done|]. split; [nia|]. rewrite (u64_small (time - 1)) by nia.
    rewrite (u64_small ((time - 1) * BankedArray.clockPeriod b)) by nia. by rewrite u64_small by nia.
Qed.

(** What the granted requests leave: the parameters, and per bank a record that no
    granted request outlasts. *)
Lemma granted_inv b0 rs b : BankedArray.wf b0 -> 0 < BankedArray.accessLatency b0 -> 0 < BankedArray.clockPeriod b0 ->
  granted b0 rs b ->
  BankedArray.wf b /\ same_array b0 b /\
  forall r old, In r rs -> BankedArray.busyBanks b !! Z.to_nat (bank_index b0 r) = Some old ->
    last_tick b0 r <= BankedArray.endAccess old.
Proof.
  intros Hw Hl Hp. induction 1 as [|rs b r b' Hg (Hwb & (E1 & E2 & E3) & Hold) Hf Ht Hk]; [done|].
  assert (Hs : first_tick b r = first_tick b0 r /\ last_tick b r = last_tick b0 r /\ bank_index b r = bank_index b0 r)
    by (destruct r; cbn; by rewrite ?E1, ?E2, ?E3). destruct Hs as (S1 & S2 & S3).
  assert (Hf' : fits b r) by (destruct r; cbn in *; by rewrite ?E1, ?E2).
  destruct (take_spec b r Hwb) as (i & old & Eo & Hlt & Et); [by rewrite E1|by rewrite E2|done|done|].
  rewrite Et in Hk. injection Hk as <-. split; [by apply BankedArray.wf_insert|]. split; [done|].
  rewrite S1, S2, S3 in *. intros r' old' Hr'.
  change (BankedArray.busyBanks (b <| BankedArray.busyBanks := ?x |>)) with x.
  destruct (decide (Z.to_nat (bank_index b0 r') = Z.to_nat (bank_index b0 r))) as [Eb|Hne].
  - rewrite Eb, list_lookup_insert_eq by (by eapply lookup_lt_Some). intros [= <-]. cbn.
    destruct Hr' as [<-|Hr']; [lia|]. rewrite <- Eb in Eo. pose proof (Hold r' old Hr' Eo). lia.
  - rewrite list_lookup_insert_ne by done. destruct Hr' as [<-|Hr']; [done|]. by apply Hold.
Qed.

(** C33: a request that the array lets through is never refused by the reservation
    that follows, and all requests granted to one bank, now or at a cycle, with the
    latency of the array or their own, occupy disjoint intervals of ticks, each
    after the one before. *)
Theorem bank_accesses_disjoint b0 rs b :
  BankedArray.wf b0 -> 0 < BankedArray.accessLatency b0 -> 0 < BankedArray.clockPeriod b0 ->
  granted b0 rs b ->
  (forall r, fits b0 r -> try b r = Ret true -> exists b', take b r = Ret b') /\
  ForallOrdPairs (fun later earlier => bank_index b0 later = bank_index b0 earlier ->
    last_tick b0 earlier < first_tick b0 later) rs.
Proof.
  intros Hw Hl Hp Hg. split.
  - destruct (granted_inv b0 rs b Hw Hl Hp Hg) as (Hwb & (E1 & E2 & E3) & _). intros r Hf Ht.
    assert (Hf' : fits b r) by (destruct r; cbn in *; by rewrite ?E1, ?E2).
    destruct (take_spec b r Hwb) as (i & old & _ & _ & Et); [by rewrite E1|by rewrite E2|done|done|by eexists].
  - induction Hg as [|rs b r b' Hg IH Hf Ht Hk]; [constructor|]. constructor; [|done].
    destruct (granted_inv b0 rs b Hw Hl Hp Hg) as (Hwb & (E1 & E2 & E3) & Hold).
    assert (Hs : first_tick b r = first_tick b0 r /\ bank_index b r = bank_index b0 r)
      by (destruct r; cbn; by rewrite ?E1, ?E2, ?E3). destruct Hs as (S1 & S3).
    assert (Hf' : fits b r) by (destruct r; cbn in *; by rewrite ?E1, ?E2).
    destruct (take_spec b r Hwb) as (i & old & Eo & Hlt & _); [by rewrite E1|by rewrite E2|done|done|].
    rewrite S1, S3 in *. apply Forall_forall. intros r' Hr'%list_elem_of_In Eb. rewrite Eb in Eo.
    pose proof (Hold r' old Hr' Eo). lia.
Qed.

Definition demo_array : BankedArray.t :=
  BankedArray.mk 3 1 6 10 [BankedArray.mkRecord 0 0 0; BankedArray.mkRecord 0 0 0] 2.

Lemma bank_accesses_disjoint_witness : exists b,
  (forall r, fits demo_array r -> try b r = Ret true -> exists b', take b r = Ret b') /\
  ForallOrdPairs (fun later earlier => bank_index demo_array later = bank_index demo_array earlier ->
    last_tick demo_array earlier < first_tick demo_array later) [At 10 5 4; Now 10 2].
Proof.
  eexists. eapply (bank_accesses_disjoint demo_array).
  - split; cbn; lia.
  - reflexivity.
  - reflexivity.
  - eapply granted_step; [eapply granted_step; [apply granted_nil| | |]| | |]; try reflexivity;
      cbn; lia.
Defined.

(** Without resource stalls the check of a cycle always answers yes, but the
    reservation is still made: the second of two requests for one bank that
    overlap ends the simulation. *)
Theorem specf_without_stalls_panics : exists c,
  m_resource_stalls demo_start = false /\
  checkResourceAvailableSpecf demo_ruby 0 demo_start DataArray 0 5 = Ret (true, demo_start) /\
  recordRequestTypeSpecf demo_ruby demo_start DataArrayRead 0 4 5 = Ret c /\
  checkResourceAvailableSpecf demo_ruby 0 c DataArray 128 6 = Ret (true, c) /\
  recordRequestTypeSpecf demo_ruby c DataArrayRead 128 4 6 = Exit "BankedArray reservation error".
Proof.
  assert (Hrun : match recordRequestTypeSpecf demo_ruby demo_start DataArrayRead 0 4 5 with
                 | Ret c => recordRequestTypeSpecf demo_ruby c DataArrayRead 128 4 6
                 | Exit _ => Ret demo_start
                 end = Exit "BankedArray reservation error") by (vm_compute; reflexivity).
  destruct (recordRequestTypeSpecf demo_ruby demo_start DataArrayRead 0 4 5) as [c|] eqn:E; [|done].
  assert (Hs : m_resource_stalls c = false).
  { unfold recordRequestTypeSpecf, reserve_dataSpecf in E. destruct (addressToCacheSet _ _ _); [|done]. cbn [outcome_bind] in E.
    destruct (BankedArray.reserveSpecf _ _ _ _); [|done]. injection E as <-. reflexivity. }
  exists c. split; [reflexivity|]. split; [reflexivity|]. split; [done|]. split; [|done].
  unfold checkResourceAvailableSpecf, check_with. by rewrite Hs.
Qed.

(** ** Atomic ALUs *)

(** An atomic access is admitted exactly when its line is not in flight and at
    most [numALUs] accesses started at this tick, one more than there are units. *)
Theorem alu_admits_exact curTick line a :
  let q := ALUFreeListArray.pop_old (u64 (curTick - ALUFreeListArray.accessLatency a))
             (ALUFreeListArray.accessQueue a) in
  0 <= ALUFreeListArray.numALUs a -> Z.of_nat (length q) < 2 ^ 32 ->
  fst (ALUFreeListArray.tryAccess curTick line a) = true <->
  Z.of_nat (length (ALUFreeListArray.at_tick curTick q)) <= ALUFreeListArray.numALUs a /\
  forall r, In r q -> ALUFreeListArray.lineAddr r <> line.
Proof.
  intros q Hn Hlen. unfold ALUFreeListArray.tryAccess. cbv zeta. cbn [fst].
  change (ALUFreeListArray.accessQueue (a <| ALUFreeListArray.accessQueue := ?x |>)) with x.
  change (ALUFreeListArray.numALUs (a <| ALUFreeListArray.accessQueue := ?x |>)) with (ALUFreeListArray.numALUs a).
  rewrite ALUFreeListArray.scan_exact by (try exact Hn; fold q; lia). fold q.
  rewrite andb_true_iff, bool_decide_eq_true, forallb_forall, Z.add_0_l.
  split; intros [H1 H2]; (split; [done|]); intros r Hr; specialize (H2 r Hr).
  - by apply negb_true_iff, Z.eqb_neq in H2.
  - by apply negb_true_iff, Z.eqb_neq.
Qed.

Lemma alu_admits_exact_witness :
  let a := ALUFreeListArray.reserve 100 0 (ALUFreeListArray.ALUFreeListArray 1 50) in
  let q := ALUFreeListArray.pop_old (u64 (100 - 50)) (ALUFreeListArray.accessQueue a) in
  fst (ALUFreeListArray.tryAccess 100 64 a) = true <->
  Z.of_nat (length (ALUFreeListArray.at_tick 100 q)) <= 1 /\
  forall r, In r q -> ALUFreeListArray.lineAddr r <> 64.
Proof.
  apply (alu_admits_exact 100 64 (ALUFreeListArray.reserve 100 0 (ALUFreeListArray.ALUFreeListArray 1 50))).
  - lazy; discriminate.
  - reflexivity.
Defined.

End Gem5Correct.
