(* ===== verification/Gem5PolicyCorrect.v ===== *)
(** * What the replacement policies promise

    Tree-PLRU, SecondChance, BRRIP and the saturating counters do what their
    comments say of a victim; the places where the code differs from its comments
    are theorems too.  Any two lawful policies can duel in a cache. *)
From S2P Require Import Prelude Numeric Gem5Arrays Gem5Policies Gem5Rrip Gem5Tree Gem5Dueling Gem5Cache Gem5Facts Gem5PolicyFacts Gem5RripFacts Gem5TreeFacts Gem5DuelingFacts Gem5Correct FloatNum.
From stdpp Require Import base list gmap strings.
From Stdlib Require Import ZArith Lia.
Open Scope Z_scope.

Module Gem5PolicyCorrect.
Import Gem5PolicyFacts Gem5RripFacts Gem5TreeFacts Gem5DuelingFacts.

(** ** Tree-PLRU *)

(** A touch or a reset of an entry. *)
Definition access (s : TreePLRU.t) (a : bool * TreePLRU.ReplData) : Outcome TreePLRU.t :=
  if fst a then reset 0 (snd a) s else touch 0 (snd a) s.

Section Protection.
Context (k : Z).
Hypothesis height : 1 <= k <= 31.

Lemma access_negb s a : access s a = TreePLRU.update negb (snd a) s.
Proof. unfold access. by destruct (fst a). Qed.

(** After accesses to leaves of a tree, the score of a leaf has grown by at most one each. *)
Lemma accesses_score tr m hs : leaf k m -> forall s bits,
  TreePLRU.numLeaves s = 2 ^ k -> TreePLRU.trees s !! tr = Some bits -> sized k bits -> (forall a, In a hs -> In (snd a) (leaves k tr)) ->
  exists s' bits', outcome_fold access hs s = Ret s' /\ TreePLRU.numLeaves s' = 2 ^ k /\
    TreePLRU.trees s' !! tr = Some bits' /\ sized k bits' /\ (score k bits' m <= score k bits m + length hs)%nat.
Proof.
  intros Hm. induction hs as [|a hs IH]; intros s bits Hn E Hs Hin.
  { exists s, bits. repeat split; try done. cbn. lia. }
  cbn [outcome_fold]. rewrite access_negb.
  destruct (leaves_in k height tr (snd a)) as (m' & Hm' & ->); [apply Hin; by left|].
  destruct (update_spec k height negb s m' tr bits Hm' E Hs) as (b1 & -> & Hs1 & Hb1 & Ho1). cbn [outcome_bind].
  pose proof (touch_other k height bits b1 m m' Hm Hm' Hb1 Ho1) as Hle.
  destruct (IH (s <| TreePLRU.trees := <[tr := b1]> (TreePLRU.trees s) |>) b1) as (s' & b' & -> & Hn' & E' & Hs' & Hle');
    [done| |done|intros; apply Hin; by right|].
  - cbn. apply list_lookup_insert_eq. by eapply lookup_lt_Some.
  - exists s', b'. repeat split; try done. cbn [length]. lia.
Qed.

Lemma victim_score s tr bits i m : TreePLRU.numLeaves s = 2 ^ k -> TreePLRU.trees s !! tr = Some bits -> sized k bits ->
  leaf k m -> Z.of_nat i = m - 2 ^ k ->
  exists j, getVictim (leaves k tr) s = Ret (j, s) /\ (j < length (leaves k tr))%nat /\
    (score k bits m = Z.to_nat k -> j = i) /\ ((score k bits m < Z.to_nat k)%nat -> j <> i).
Proof.
  intros Hn E Hs Hm Hi. destruct (victim_spec k height s tr bits Hn E Hs) as (j & m' & Ev & Hj & Ej & Hm' & Ht').
  exists j. split; [exact Ev|]. split; [done|]. split.
  - intros Hsc. assert (m = m'); [|lia]. apply (toward_unique k height bits m m' Hm Hm'); [|done].
    intros e He. destruct (toward bits m e) eqn:Et; [done|]. exfalso.
    pose proof (filter_shorter (toward bits m) (fun _ => true) (seqZ 1 k) e (fun _ _ => eq_refl) (proj2 (in_levels k e) He) eq_refl Et) as Hlt.
    unfold score in Hsc. rewrite (forallb_filter_id (fun _ => true) (seqZ 1 k)) in Hlt by (apply forallb_forall; auto).
    rewrite length_seqZ in Hlt. lia.
  - intros Hsc ->. assert (m = m') as <- by lia. rewrite (score_full k bits m Ht') in Hsc. lia.
Qed.
End Protection.

(** C22: a tree of two or more leaves always names one of its leaves; an entry that was
    just invalidated is the next victim; and an entry that was just touched or
    reset is not the victim until at least as many other touches and resets have
    happened as the tree has levels. *)
Theorem plru_protects k s r i h : 1 <= k <= 31 -> tree_row k s r -> r !! i = Some h ->
  (exists s', invalidate h s = Ret s' /\ getVictim r s' = Ret (i, s')) /\
  (forall b hs, (forall a, In a hs -> In (snd a) r) -> Z.of_nat (length hs) < k ->
   exists s' j, outcome_fold access ((b, h) :: hs) s = Ret s' /\ getVictim r s' = Ret (j, s') /\
     (j < length r)%nat /\ j <> i).
Proof.
  intros Hk (Hn & tr & bits & E & Hs & ->) Eh. destruct (leaves_lookup k Hk tr i h Eh) as (m & Hm & -> & Hi).
  assert (Hlt := lookup_lt_Some _ _ _ E). split.
  - destruct (update_spec k Hk (fun right => right) s m tr bits Hm E Hs) as (b' & Eu & Hs' & Hb & _).
    eexists. split; [exact Eu|]. edestruct (victim_score k Hk) as (j & -> & _ & Hj & _); [| | |exact Hm|exact Hi|].
    4: rewrite Hj; [done|].
    + done.
    + cbn. by apply list_lookup_insert_eq.
    + done.
    + apply score_full. intros e He. unfold toward. rewrite (Hb e He). apply eqb_reflx.
  - intros b hs Hin Hlen. cbn [outcome_fold]. rewrite access_negb. cbn [snd].
    destruct (update_spec k Hk negb s m tr bits Hm E Hs) as (b1 & -> & Hs1 & Hb1 & _). cbn [outcome_bind].
    destruct (accesses_score k Hk tr m hs Hm (s <| TreePLRU.trees := <[tr := b1]> (TreePLRU.trees s) |>) b1)
      as (s' & b' & -> & Hn' & E' & Hs' & Hle); [done|cbn; by apply list_lookup_insert_eq|done|done|].
    rewrite (touch_self k b1 m Hb1) in Hle. destruct (victim_score k Hk s' tr b' i m Hn' E' Hs' Hm Hi) as (j & Ev & Hj & _ & Hne).
    exists s', j. split; [done|]. split; [done|]. split; [done|]. apply Hne. lia.
Qed.

(** Four leaves, all bits clear. *)
Definition demo_tree : TreePLRU.t := TreePLRU.mk 4 4 [[false; false; false]].

Lemma plru_protects_witness :
  (exists s', invalidate (TreePLRU.mkData 5 0) demo_tree = Ret s' /\ getVictim (leaves 2 0) s' = Ret (2%nat, s')) /\
  (forall b hs, (forall a, In a hs -> In (snd a) (leaves 2 0)) -> Z.of_nat (length hs) < 2 ->
   exists s' j, outcome_fold access ((b, TreePLRU.mkData 5 0) :: hs) demo_tree = Ret s' /\ getVictim (leaves 2 0) s' = Ret (j, s') /\
     (j < length (leaves 2 0))%nat /\ j <> 2%nat).
Proof.
  apply (plru_protects 2 demo_tree (leaves 2 0) 2 (TreePLRU.mkData 5 0)).
  - lia.
  - split; [reflexivity|]. exists 0%nat, [false; false; false]. repeat split; reflexivity.
  - reflexivity.
Defined.

(** A tree of one leaf is accepted, but it has no bits: the first access throws. *)
Theorem plru_single_leaf_throws :
  (let? s := TreePLRU.TreePLRU_ 1 in let? (s, h) := instantiateEntry s in touch 0 h s) = Exit "std::out_of_range".
Proof. vm_compute. reflexivity. Qed.

(** ** SecondChance *)

(** C23: when all candidates were inserted, the search of SecondChance ends.  The
    victim is the oldest candidate without a second chance; the older ones lose
    theirs and the younger ones are left alone.  If all have a second chance, the
    oldest is the victim. *)
Theorem second_chance_spares s r : r <> [] ->
  Forall (fun h => is_Some (FIFO.data s !! h) /\ 0 < tick s h <= FIFO.timeTicks s) r ->
  FIFO.timeTicks s + Z.of_nat (length r) + 1 < 2 ^ 64 ->
  exists i v s', @getVictim _ _ SecondChance.policy r s = Ret (i, s') /\ r !! i = Some v /\ spared s r v s'.
Proof.
  intros Hne Hall H64. rewrite Forall_forall in Hall.
  assert (Hl : live (fun _ => True) (FIFO.data s) r).
  { apply Forall_forall. intros h Hh. destruct (Hall h Hh) as [[d E] _]. by exists d. }
  cbn [getVictim SecondChance.policy]. unfold SecondChance.getVictim_, assert.
  rewrite (proj2 (Z.ltb_lt 0 _)) by (destruct r; [done|cbn; lia]). cbn [outcome_bind].
  destruct (gets_spec _ _ _ Hl) as (ds & -> & Hds). cbn [outcome_bind].
  destruct (Data.find SecondChance.unused 0 ds) as [j|] eqn:Ef.
  { exfalso. destruct (find_some _ _ _ _ Ef) as (_ & d & Ed & [Hz%Z.eqb_eq _]%andb_true_iff). rewrite Nat.sub_0_r in Ed.
    destruct (Forall2_lookup_r _ _ _ _ _ Hds Ed) as (h & Eh & Es & _).
    destruct (Hall h (list_elem_of_lookup_2 _ _ _ Eh)) as [_ Ht]. unfold tick in Ht. rewrite Es in Ht. lia. }
  assert (H0 : 0 <= FIFO.timeTicks s).
  { destruct r as [|h r]; [done|]. destruct (Hall h (list_elem_of_here h r)) as [_ ?]. lia. }
  destruct (search_spares (S (length r)) s r Hl Hne) as (i & v & s' & E & Ev & _ & Hsp); [|done|lia| |by exists i, v, s'].
  - pose proof (chances_length s r). lia.
  - intros h Hh%list_elem_of_In. destruct (Hall h Hh) as [_ ?]. lia.
Qed.

Definition demo_queue : FIFO.t := FIFO.mk 7 [FIFO.mkData 3 true; FIFO.mkData 5 false; FIFO.mkData 7 true].

Lemma second_chance_spares_witness :
  exists i v s', @getVictim _ _ SecondChance.policy [0; 1; 2]%nat demo_queue = Ret (i, s') /\
    [0; 1; 2]%nat !! i = Some v /\ spared demo_queue [0; 1; 2]%nat v s'.
Proof.
  apply second_chance_spares.
  - discriminate.
  - repeat constructor; eauto; cbn; lia.
  - cbn. lia.
Defined.

(** An entry that FIFO invalidates becomes the last of the queue, not the next victim. *)
Theorem fifo_invalidate_last s h h' d d' : FIFO.data s !! h = Some d -> FIFO.data s !! h' = Some d' -> h' <> h ->
  0 <= FIFO.timeTicks s < 2 ^ 64 - 1 -> FIFO.tickInserted d' <= FIFO.timeTicks s ->
  exists s', @invalidate _ _ FIFO.policy h s = Ret s' /\ @getVictim _ _ FIFO.policy [h; h'] s' = Ret (1%nat, s').
Proof.
  intros E E' Hne Ht Hd. cbn [invalidate FIFO.policy]. unfold FIFO.insert_last, FIFO.alter_data.
  change (FIFO.data (s <| FIFO.timeTicks := u64 (FIFO.timeTicks s + 1) |>)) with (FIFO.data s). rewrite (set_some _ _ _ _ E).
  eexists. split; [reflexivity|]. cbn [getVictim FIFO.policy]. unfold FIFO.getVictim_. cbn.
  rewrite (get_some _ h (d <| FIFO.tickInserted := u64 (FIFO.timeTicks s + 1) |>))
    by (apply list_lookup_insert_eq; by eapply lookup_lt_Some). cbn [outcome_bind].
  rewrite (get_some _ h' d') by (by rewrite list_lookup_insert_ne). unfold FIFO.earlier. cbn.
  rewrite u64_small, Z.ltb_irrefl by lia. by rewrite (proj2 (Z.ltb_lt _ _)) by lia.
Qed.

(** An entry is inserted without a second chance. *)
Theorem second_chance_not_given s h d : FIFO.data s !! h = Some d ->
  exists s', @reset _ _ SecondChance.policy 0 h s = Ret s' /\ chance s' h = false.
Proof.
  intros E. destruct (useSecondChance_spec s h d E) as (s1 & Es & _ & Ed). exists s1. split; [exact Es|].
  unfold chance. by rewrite (used_self _ _ _ _ _ E Ed).
Qed.

(** ** Saturating counters *)

(** C38: a counter whose type holds its greatest value stays between zero and that
    value: the operators add, subtract and shift to the right as on integers, cut
    off at the two ends; a shift to the left does so as long as its result fits the
    type; [saturate] returns what it added. *)
Theorem sat_counter_saturates w c v : bounded w c -> - 2 ^ 63 < v ->
  let at_most x := at_value (Z.max 0 (Z.min (SatCounter.maxVal c) x)) c in
  let n := SatCounter.counter c in
  (forall x, bounded w (at_most x)) /\
  SatCounter.increment w c = at_most (n + 1) /\ SatCounter.decrement w c = at_most (n - 1) /\
  SatCounter.add w v c = Ret (at_most (n + v)) /\ SatCounter.sub w v c = Ret (at_most (n - v)) /\
  SatCounter.saturate w c = (SatCounter.maxVal c - n, at_most (SatCounter.maxVal c)) /\
  (0 <= v < 32 -> SatCounter.shift_right w v c = Ret (at_most (n / 2 ^ v))) /\
  (0 <= v < 32 -> n * 2 ^ v < 2 ^ w -> SatCounter.shift_left w v c = Ret (at_most (n * 2 ^ v))).
Proof.
  intros Hb Hv at_most n. pose proof Hb as (Hi & Hc & Hm). subst at_most. cbv beta.
  split; [intros x; apply at_value_bounded; [done|lia]|].
  split; [rewrite increment_spec by done; f_equal; lia|]. split; [rewrite decrement_spec by done; f_equal; lia|].
  split; [by apply add_spec|]. split; [by apply sub_spec|]. split; [rewrite saturate_spec by done; do 2 f_equal; lia|].
  assert (Hdiv : 0 <= v -> 0 <= n / 2 ^ v <= n /\ 0 <= n * 2 ^ v).
  { intros H0. pose proof (Z.pow_pos_nonneg 2 v ltac:(lia) H0). subst n.
    split; [split; [apply Z.div_pos; lia|apply Z.div_le_upper_bound; nia]|nia]. }
  split; intros Hs; specialize (Hdiv (proj1 Hs)).
  - rewrite shift_right_spec by done. do 2 f_equal. subst n. lia.
  - intros Hf. rewrite shift_left_spec by done. do 2 f_equal. subst n. lia.
Qed.

Lemma sat_counter_saturates_witness :
  let c := SatCounter.mk 0 7 5 in
  let at_most x := at_value (Z.max 0 (Z.min 7 x)) c in
  (forall x, bounded 8 (at_most x)) /\
  SatCounter.increment 8 c = at_most (5 + 1) /\ SatCounter.decrement 8 c = at_most (5 - 1) /\
  SatCounter.add 8 3 c = Ret (at_most (5 + 3)) /\ SatCounter.sub 8 3 c = Ret (at_most (5 - 3)) /\
  SatCounter.saturate 8 c = (7 - 5, at_most 7) /\
  (0 <= 3 < 32 -> SatCounter.shift_right 8 3 c = Ret (at_most (5 / 2 ^ 3))) /\
  (0 <= 3 < 32 -> 5 * 2 ^ 3 < 2 ^ 8 -> SatCounter.shift_left 8 3 c = Ret (at_most (5 * 2 ^ 3))).
Proof.
  apply (sat_counter_saturates 8 (SatCounter.mk 0 7 5) 3).
  - unfold bounded. cbn. lia.
  - lia.
Defined.

(** A shift to the left that leaves the type wraps around instead of saturating. *)
Theorem shift_left_wraps :
  (let? c := SatCounter.GenericSatCounter 8 8 129 in SatCounter.shift_left 8 1 c) = Ret (SatCounter.mk 129 255 2).
Proof. vm_compute. reflexivity. Qed.

(** A counter of all 64 bits passes the test but shifts by the width of its type. *)
Theorem full_width_counter_undefined : SatCounter.GenericSatCounter 64 64 0 = Exit gem5_undefined.
Proof. reflexivity. Qed.

(** ** BRRIP *)

(** C24: among distinct candidates BRRIP evicts one that is not valid, and then changes
    nothing; if all are valid it evicts the first of the greatest prediction, and
    every candidate ages by exactly what the victim lacked to the greatest value, so
    that no counter saturates on the way and their order is kept. *)
Theorem brrip_ages_together {G} {R : RandomMt G} p (s : list BRRIP.ReplData * G) r :
  1 <= BRRIP.numRRPVBits p <= 8 -> NoDup r -> r <> [] -> live (rrip_data (BRRIP.numRRPVBits p)) (fst s) r ->
  let full := 2 ^ BRRIP.numRRPVBits p - 1 in
  exists i v d s', @getVictim _ _ (BRRIP.policy p) r s = Ret (i, s') /\ r !! i = Some v /\ fst s !! v = Some d /\
    (BRRIP.valid d = false -> s' = s) /\
    (BRRIP.valid d = true ->
       (forall h d', In h r -> fst s !! h = Some d' -> BRRIP.valid d' = true) /\
       (forall j h, r !! j = Some h -> value s h <= value s v /\ ((j < i)%nat -> value s h < value s v)) /\
       (forall h, In h r -> value s' h = value s h + (full - value s v)) /\
       (forall h, ~ In h r -> fst s' !! h = fst s !! h)).
Proof.
  intros Hbits Hnd Hne Hl full. destruct (gets_spec _ _ _ Hl) as (ds & Eg & Hds). cbn [getVictim BRRIP.policy].
  destruct (decide (Exists (fun d => BRRIP.valid d = false) ds)) as [Hex|Hno].
  - destruct (rrip_invalid s r ds Eg Hex) as (i & d & Ev & Ed & Hv).
    destruct (Forall2_lookup_r _ _ _ _ _ Hds Ed) as (v & Er & Es & _). exists i, v, d, s.
    split; [done|]. split; [done|]. split; [done|]. split; [done|congruence].
  - assert (Hval : forall d, In d ds -> BRRIP.valid d = true).
    { intros d Hd. destruct (BRRIP.valid d) eqn:E; [done|]. exfalso. apply Hno, Exists_exists. exists d. by rewrite list_elem_of_In. }
    assert (Hvalid : forall h d, In h r -> fst s !! h = Some d -> BRRIP.valid d = true).
    { intros h d (j & Ej)%list_elem_of_In%list_elem_of_lookup Ed. destruct (Forall2_lookup_l _ _ _ _ _ Hds Ej) as (d' & Ed' & Es & _).
      assert (d' = d) as -> by congruence. apply Hval, list_elem_of_In. by eapply list_elem_of_lookup_2. }
    destruct (rrip_aged p Hbits s r) as (i & v & s' & Ev & Er & Hrest); [|done|done|].
    { apply Forall_forall. intros h Hh. rewrite list_elem_of_In in Hh. destruct (live_in _ _ _ _ Hl Hh) as (d & E & Hd).
      exists d. eauto. }
    destruct (live_in _ _ _ v Hl) as (d & Ed & _); [apply list_elem_of_In; by eapply list_elem_of_lookup_2|].
    exists i, v, d, s'. split; [done|]. split; [done|]. split; [done|].
    split; [|by split]. intros Hf. rewrite (Hvalid v d) in Hf; [done| |done].
    apply list_elem_of_In. by eapply list_elem_of_lookup_2.
Qed.

(** A generator that always draws its lower bound. *)
Definition lowest : RandomMt unit := {| random lo _ g := (lo, g) |}.

Definition demo_rrip : list BRRIP.ReplData * unit :=
  ([BRRIP.mkData (SatCounter.mk 0 3 0) true 0 false; BRRIP.mkData (SatCounter.mk 0 3 2) true 0 false], tt).

Lemma brrip_ages_together_witness :
  exists i v d s', @getVictim _ _ (@BRRIP.policy unit lowest (BRRIP.mkParams 2 false 3)) [0; 1]%nat demo_rrip = Ret (i, s') /\
    [0; 1]%nat !! i = Some v /\ fst demo_rrip !! v = Some d /\
    (BRRIP.valid d = false -> s' = demo_rrip) /\
    (BRRIP.valid d = true ->
       (forall h d', In h [0; 1]%nat -> fst demo_rrip !! h = Some d' -> BRRIP.valid d' = true) /\
       (forall j h, [0; 1]%nat !! j = Some h -> value demo_rrip h <= value demo_rrip v /\
          ((j < i)%nat -> value demo_rrip h < value demo_rrip v)) /\
       (forall h, In h [0; 1]%nat -> value s' h = value demo_rrip h + (2 ^ 2 - 1 - value demo_rrip v)) /\
       (forall h, ~ In h [0; 1]%nat -> fst s' !! h = fst demo_rrip !! h)).
Proof.
  apply (@brrip_ages_together unit lowest (BRRIP.mkParams 2 false 3) demo_rrip [0; 1]%nat).
  - cbn. lia.
  - apply (bool_decide_unpack _). vm_compute. exact I.
  - discriminate.
  - repeat constructor; eexists; (split; [reflexivity|]); unfold rrip_data, bounded; cbn; lia.
Defined.

(** Invalidating an entry leaves its prediction alone. *)
Theorem brrip_invalidate_keeps_rrpv {G} {R : RandomMt G} p (s : list BRRIP.ReplData * G) h d : fst s !! h = Some d ->
  exists s', @invalidate _ _ (BRRIP.policy p) h s = Ret s' /\ value s' h = value s h.
Proof.
  intros E. eexists. split; [apply (change_some _ _ _ _ E)|]. unfold value. cbn [fst].
  rewrite list_lookup_insert_eq by (by eapply lookup_lt_Some). by rewrite E.
Qed.

(** ** SHiP *)

Section SHiP.
Context {F : Type} `{Num F} {G : Type} {R : RandomMt G}.
Abbreviation ship := (SHiP.t (F := F) (G := G)).
Implicit Types s : ship.

(** Counters of [n] bits everywhere, and signatures that index the table. *)
Definition ship_entry (n size : Z) (d : BRRIP.ReplData) : Prop := rrip_data n d /\ 0 <= BRRIP.signature d < size.

Definition ship_ok s : Prop :=
  let n := BRRIP.numRRPVBits (SHiP.params s) in
  let size := Z.of_nat (length (SHiP.SHCT s)) in
  1 <= n <= 8 /\ 0 < size /\ Forall (bounded 8) (SHiP.SHCT s) /\ Forall (ship_entry n size) (fst (SHiP.entries s)).

(** A signature of the table. *)
Definition signs (getSignature : SHiP.Packet -> ship -> Outcome Z) : Prop := forall pkt s, 0 < Z.of_nat (length (SHiP.SHCT s)) ->
  exists i, getSignature pkt s = Ret i /\ 0 <= i < Z.of_nat (length (SHiP.SHCT s)).

Lemma modulo_range sig s : 0 < Z.of_nat (length (SHiP.SHCT s)) ->
  exists i, SHiP.modulo sig s = Ret i /\ 0 <= i < Z.of_nat (length (SHiP.SHCT s)).
Proof.
  intros Hs. unfold SHiP.modulo. rewrite (proj2 (Z.eqb_neq _ 0)) by lia. eexists. split; [done|]. by apply Z.mod_pos_bound.
Qed.

Lemma signs_mem : signs SHiP.signature_mem.
Proof. intros pkt s. apply modulo_range. Qed.
Lemma signs_pc : signs SHiP.signature_pc.
Proof. intros pkt s. apply modulo_range. Qed.

Lemma change_forall (P : BRRIP.ReplData -> Prop) f (es : list BRRIP.ReplData * G) h :
  Forall P (fst es) -> (h < length (fst es))%nat -> (forall d, P d -> P (f d)) ->
  exists es', BRRIP.change f h es = Ret es' /\ Forall P (fst es') /\ length (fst es') = length (fst es).
Proof.
  intros Hf Hh Hp. destruct (lookup_lt_is_Some_2 _ _ Hh) as [d E]. rewrite (change_some _ _ _ _ E). eexists. split; [done|].
  cbn [fst]. rewrite length_insert. split; [|done]. apply Forall_insert; [done|]. apply Hp.
  rewrite Forall_forall in Hf. apply Hf. by eapply list_elem_of_lookup_2.
Qed.

(** A step of BRRIP on the entries that keeps what every entry satisfies. *)
Definition entry_step (n size : Z) (h : nat) (f : list BRRIP.ReplData * G -> Outcome (list BRRIP.ReplData * G)) : Prop :=
  forall es, Forall (ship_entry n size) (fst es) -> (h < length (fst es))%nat ->
  exists es', f es = Ret es' /\ Forall (ship_entry n size) (fst es') /\ length (fst es') = length (fst es).

Lemma brrip_ok s h f : ship_ok s -> (h < length (fst (SHiP.entries s)))%nat ->
  entry_step (BRRIP.numRRPVBits (SHiP.params s)) (Z.of_nat (length (SHiP.SHCT s))) h f ->
  exists s', SHiP.brrip f s = Ret s' /\ ship_ok s' /\ SHiP.params s' = SHiP.params s /\ SHiP.SHCT s' = SHiP.SHCT s /\
    (h < length (fst (SHiP.entries s')))%nat.
Proof.
  intros (Hn & Hs & Hb & He) Hh Hf. destruct (Hf _ He Hh) as (es & E & Hes & Hlen). unfold SHiP.brrip. rewrite E.
  eexists. split; [done|]. split; [done|]. split; [done|]. split; [done|]. cbn. lia.
Qed.

Lemma train_ok s i f : ship_ok s -> 0 <= i < Z.of_nat (length (SHiP.SHCT s)) -> (forall c, bounded 8 c -> bounded 8 (f c)) ->
  exists s', SHiP.train f i s = Ret s' /\ ship_ok s' /\ SHiP.params s' = SHiP.params s /\
    length (SHiP.SHCT s') = length (SHiP.SHCT s) /\ SHiP.entries s' = SHiP.entries s.
Proof.
  intros (Hn & Hs & Hb & He) Hi Hf. destruct (lookup_lt_is_Some_2 (SHiP.SHCT s) (Z.to_nat i)) as [c E]; [lia|].
  unfold SHiP.train. rewrite (set_some _ _ _ _ E). eexists. split; [done|]. unfold ship_ok. cbn. rewrite length_insert.
  split; [|done]. split; [done|]. split; [done|]. split; [|done]. apply Forall_insert; [done|]. apply Hf.
  rewrite Forall_forall in Hb. apply Hb. by eapply list_elem_of_lookup_2.
Qed.

Lemma increment_bounded c : bounded 8 c -> bounded 8 (SatCounter.increment 8 c).
Proof. intros Hb. pose proof Hb as (? & ? & ?). rewrite increment_spec by done. apply at_value_bounded; [done|lia]. Qed.
Lemma decrement_bounded c : bounded 8 c -> bounded 8 (SatCounter.decrement 8 c).
Proof. intros Hb. pose proof Hb as (? & ? & ?). rewrite decrement_spec by done. apply at_value_bounded; [done|lia]. Qed.

Section Entry.
Context (p : BRRIP.Params) (size : Z) (h : nat).
Abbreviation step := (entry_step (BRRIP.numRRPVBits p) size h).

Lemma change_step f : (forall d, ship_entry (BRRIP.numRRPVBits p) size d -> ship_entry (BRRIP.numRRPVBits p) size (f d)) ->
  step (BRRIP.change f h).
Proof. intros Hf es He Hh. by apply change_forall. Qed.

Lemma decrement_step : step (BRRIP.change (BRRIP.on_rrpv (SatCounter.decrement 8)) h).
Proof. apply change_step. intros d [Hd Hs]. split; [by apply decrement_data|done]. Qed.

Lemma touch_step : step (BRRIP.touch_ p h).
Proof.
  unfold BRRIP.touch_. destruct (BRRIP.hitPriority p); [|apply decrement_step].
  apply change_step. intros d [Hd Hs]. split; [by apply reset_data|done].
Qed.

Lemma reset_step : step (BRRIP.reset_ p h).
Proof.
  intros es He Hh. unfold BRRIP.reset_.
  assert (S1 : step (BRRIP.change (BRRIP.on_rrpv (fun c => snd (SatCounter.saturate 8 c))) h))
    by (apply change_step; intros d [Hd Hs]; split; [by apply saturate_data|done]).
  assert (S3 : step (BRRIP.change (fun d => d <| BRRIP.valid := true |>) h)) by (apply change_step; by intros d Hd).
  destruct (S1 es He Hh) as (e1 & -> & H1 & L1). cbn [outcome_bind]. destruct (random 1 100 (snd e1)) as [k g].
  assert (H1' : Forall (ship_entry (BRRIP.numRRPVBits p) size) (fst (fst e1, g))) by done.
  assert (L1' : (h < length (fst (fst e1, g)))%nat) by (cbn [fst]; lia).
  destruct (k <=? BRRIP.btp p).
  - destruct (decrement_step (fst e1, g) H1' L1') as (e2 & -> & H2 & L2). cbn [outcome_bind]. cbn [fst] in L2.
    destruct (S3 e2 H2) as (e3 & -> & H3 & L3); [lia|]. exists e3. split; [done|]. split; [done|lia].
  - cbn [outcome_bind]. destruct (S3 _ H1' L1') as (e3 & -> & H3 & L3). cbn [fst] in L3. exists e3. split; [done|]. split; [done|lia].
Qed.
End Entry.

Lemma ship_change s f h : ship_ok s -> (h < length (fst (SHiP.entries s)))%nat ->
  (forall d, ship_entry (BRRIP.numRRPVBits (SHiP.params s)) (Z.of_nat (length (SHiP.SHCT s))) d ->
     ship_entry (BRRIP.numRRPVBits (SHiP.params s)) (Z.of_nat (length (SHiP.SHCT s))) (f d)) ->
  exists s', SHiP.brrip (BRRIP.change f h) s = Ret s' /\ ship_ok s' /\ SHiP.params s' = SHiP.params s /\
    SHiP.SHCT s' = SHiP.SHCT s /\ (h < length (fst (SHiP.entries s')))%nat.
Proof. intros Hok Hh Hf. apply brrip_ok; [done|done|by apply change_step]. Qed.

(** The next change of an entry. *)
Tactic Notation "step_change" constr(s) constr(O) constr(Hh) "as" simple_intropattern(p) :=
  match goal with |- context [SHiP.brrip (BRRIP.change ?f ?h) s] => destruct (ship_change s f h O Hh) as p end.

(** With a table and entries in range, every operation of SHiP on an entry returns
    and keeps them so. *)
Theorem ship_keeps_tables getSignature pkt s h : signs getSignature -> ship_ok s -> (h < length (fst (SHiP.entries s)))%nat ->
  (exists s', SHiP.touch_pkt getSignature h pkt s = Ret s' /\ ship_ok s') /\
  (exists s', SHiP.reset_pkt getSignature h pkt s = Ret s' /\ ship_ok s') /\
  (exists s', SHiP.invalidate_ h s = Ret s' /\ ship_ok s').
Proof.
  intros Hsig Hok Hh. pose proof Hok as (_ & Hsize & _ & He). destruct (Hsig pkt s Hsize) as (i & Ei & Hi). repeat split.
  - unfold SHiP.touch_pkt. rewrite Ei. cbn [outcome_bind].
    destruct (train_ok s i _ Hok Hi increment_bounded) as (s1 & -> & O1 & P1 & L1 & E1). cbn [outcome_bind]. rewrite <- E1 in Hh.
    step_change s1 O1 Hh as (s2 & -> & O2 & P2 & L2 & Hh2); [by intros d Hd|]. cbn [outcome_bind].
    destruct (brrip_ok s2 h _ O2 Hh2 (touch_step _ _ h)) as (s3 & -> & O3 & _). by exists s3.
  - unfold SHiP.reset_pkt. rewrite Ei. cbn [outcome_bind].
    step_change s Hok Hh as (s1 & -> & O1 & P1 & L1 & Hh1); [by intros d [Hd _]|]. cbn [outcome_bind].
    destruct (brrip_ok s1 h _ O1 Hh1 (reset_step _ _ h)) as (s2 & -> & O2 & P2 & L2 & Hh2). cbn [outcome_bind].
    unfold SHiP.predictor. destruct (lookup_lt_is_Some_2 (SHiP.SHCT s2) (Z.to_nat i)) as [c Ec]; [rewrite L2, L1; lia|].
    rewrite (get_some _ _ _ Ec). cbn [outcome_bind]. destruct (nleb _ _); [|by exists s2].
    destruct (brrip_ok s2 h _ O2 Hh2 (decrement_step _ _ h)) as (s3 & -> & O3 & _). by exists s3.
  - unfold SHiP.invalidate_. destruct (lookup_lt_is_Some_2 _ _ Hh) as [d Ed]. rewrite (get_some _ _ _ Ed). cbn [outcome_bind].
    assert (Hd : 0 <= BRRIP.signature d < Z.of_nat (length (SHiP.SHCT s))).
    { rewrite Forall_forall in He. apply (He d). by eapply list_elem_of_lookup_2. }
    assert (Hs1 : exists s1, (if BRRIP.outcome d then SHiP.train (SatCounter.decrement 8) (BRRIP.signature d) s else Ret s) = Ret s1 /\
      ship_ok s1 /\ SHiP.entries s1 = SHiP.entries s).
    { destruct (BRRIP.outcome d); [|by exists s]. destruct (train_ok s _ _ Hok Hd decrement_bounded) as (s1 & -> & O1 & _ & _ & E1).
      by exists s1. }
    destruct Hs1 as (s1 & -> & O1 & E1). cbn [outcome_bind]. rewrite <- E1 in Hh.
    destruct (brrip_ok s1 h (BRRIP.invalidate_ h) O1 Hh) as (s2 & E2 & O2 & _); [by apply change_step|by exists s2].
Qed.

(** The predictor is detrained when an entry that WAS re-referenced is invalidated,
    and left alone for one that was not. *)
Theorem ship_detrains_rereferenced s h d c : fst (SHiP.entries s) !! h = Some d ->
  SHiP.SHCT s !! Z.to_nat (BRRIP.signature d) = Some c ->
  exists s', SHiP.invalidate_ h s = Ret s' /\
    SHiP.SHCT s' = if BRRIP.outcome d then <[Z.to_nat (BRRIP.signature d) := SatCounter.decrement 8 c]> (SHiP.SHCT s) else SHiP.SHCT s.
Proof.
  intros Ed Ec. unfold SHiP.invalidate_. rewrite (get_some _ _ _ Ed). cbn [outcome_bind].
  destruct (BRRIP.outcome d); [unfold SHiP.train; rewrite (set_some _ _ _ _ Ec)|]; cbn [outcome_bind];
    unfold SHiP.brrip, BRRIP.invalidate_; cbn [SHiP.entries field_update]; rewrite (change_some _ _ _ _ Ed); by eexists.
Qed.
End SHiP.

(** At the default threshold of one per cent a counter above zero changes the
    insertion with counters of up to six bits, but not with seven. *)
Theorem ship_threshold_needs_few_bits :
  (nleb (#1 / #100) (SatCounter.calcSaturation (SatCounter.mk 0 (2 ^ 6 - 1) 1)) = true)%num /\
  (nleb (#1 / #100) (SatCounter.calcSaturation (SatCounter.mk 0 (2 ^ 7 - 1) 1)) = false)%num.
Proof. vm_compute. split; reflexivity. Qed.

(** ** Dueling *)

(** The identifier of a monitor is one bit for the first 31 instances; the next one
    has 33 bits set, so that no entry can sample for it, and the later ones are
    undefined, although the constructor admits 64 of them. *)
Theorem dueling_instances_limited n : 0 <= n ->
  (n < 31 -> DuelingMonitor.instance_id n = Ret (2 ^ n) /\ popCount (2 ^ n) = 1) /\
  (n = 31 -> exists i, DuelingMonitor.instance_id n = Ret i /\
     Dueler.setSample i false Dueler.Dueler_ = Exit "The id must have a single bit set.") /\
  (32 <= n -> DuelingMonitor.instance_id n = Exit gem5_undefined).
Proof.
  intros Hn. unfold DuelingMonitor.instance_id. split; [|split]; intros Hc.
  - rewrite (proj2 (Z.leb_gt 32 n)), (proj2 (Z.eqb_neq n 31)) by lia. split; [done|].
    assert (Hall : forallb (fun i => popCount (2 ^ i) =? 1) (seqZ 0 31) = true) by (vm_compute; reflexivity).
    rewrite forallb_forall in Hall. apply Z.eqb_eq, Hall, list_elem_of_In, elem_of_seqZ. lia.
  - subst n. eexists. split; [reflexivity|]. vm_compute. reflexivity.
  - by rewrite (proj2 (Z.leb_le 32 n)) by lia.
Qed.

(** On binary64 one of the first 31 dueling policies, with teams as large as a set
    and constituencies of two or more whole teams, is constructed and ready. *)
Theorem dueling_starts_ready {PA HA PB HB : Type} {A : ReplacementPolicy PA HA} {B : ReplacementPolicy PB HB} {assoc : nat}
  {LA : PolicyLaws PA HA assoc} {LB : PolicyLaws PB HB assoc} n q a b :
  ready a -> ready b -> 0 <= n < 31 -> (0 < assoc)%nat -> 2 <= q -> q * Z.of_nat assoc < 2 ^ 31 ->
  exists s : Dueling.t (F := PrimFloat.float), Dueling.Dueling_ n (q * Z.of_nat assoc) (Z.of_nat assoc) a b = Ret (s, n + 1) /\ ready s.
Proof.
  intros Ha Hb Hn Hpos Hq H31. destruct (dueling_instances_limited n) as (Hid & _); [lia|]. destruct Hid as [Ei Hp]; [lia|].
  unfold Dueling.Dueling_, DuelingMonitor.DuelingMonitor_. rewrite Ei. cbn [outcome_bind].
  assert (Es : SatCounter.GenericSatCounter 32 10 0 = Ret (SatCounter.mk 0 1023 0)) by reflexivity. rewrite Es. cbn [outcome_bind].
  rewrite u64_small, (proj2 (Z.ltb_ge (q * _) _)), (proj2 (Z.ltb_ge 63 n)) by nia.
  repeat match goal with |- context [if ?x then Exit _ else _] =>
    let E := fresh in assert (E : x = false) by (vm_compute; reflexivity); rewrite E; clear E end.
  assert (Er : SatCounter.shift_right 32 1 (snd (SatCounter.saturate 32 (SatCounter.mk 0 1023 0))) = Ret (SatCounter.mk 0 1023 511))
    by reflexivity. rewrite Er. cbn [outcome_bind]. rewrite u32_small by lia. eexists. split; [done|].
  split; [exact Ha|]. split; [exact Hb|]. unfold proper_monitor. cbn.
  pose proof (Z.pow_pos_nonneg 2 n). repeat split; try done; try nia; [by exists q|apply Z.divide_0_r].
Qed.

Section Straddle.
Context {F : Type} `{Num F} (lo hi : F).

(** Two LRU policies that duel with teams of two in constituencies of five. *)
Definition straddling : Dueling.t (F := F) (PA := list LRU.ReplData) (HA := nat) (PB := list LRU.ReplData) (HB := nat) :=
  Dueling.mkDueling [] [] (DuelingMonitor.mk 1 5 2 lo hi (SatCounter.mk 0 1023 511) 0 true) 0 0 [].

(** When a constituency is not made of whole sets, a set can hold a follower and a
    sample; choosing its victim ends the simulation. *)
Theorem straddling_set_panics : exists s r,
  (let? (s, _) := instantiate 2 straddling in instantiate 2 s) = Ret (s, r) /\
  getVictim r s = Exit "Not all sampled candidates belong to the same team".
Proof. eexists _, _. split; reflexivity. Qed.
End Straddle.

(** ** A cache with DRRIP *)

Section Drrip.
Context {F : Type} `{Num F} {G : Type} {R : RandomMt G} {D : Type} (assoc : nat) (pa pb : BRRIP.Params).
Hypothesis bits_a : 1 <= BRRIP.numRRPVBits pa <= 8.
Hypothesis bits_b : 1 <= BRRIP.numRRPVBits pb <= 8.
Abbreviation state := (Dueling.t (F := F) (PA := list BRRIP.ReplData * G) (HA := nat) (PB := list BRRIP.ReplData * G) (HB := nat)).

(** Two BRRIPs that duel. *)
#[local] Instance drrip : ReplacementPolicy state nat := Dueling.policy (A := BRRIP.policy pa) (B := BRRIP.policy pb).
#[local] Instance drrip_laws : PolicyLaws state nat assoc :=
  dueling_laws (A := BRRIP.policy pa) (B := BRRIP.policy pb) (LA := brrip_laws pa bits_a assoc) (LB := brrip_laws pb bits_b assoc).

(** A cache with DRRIP behaves as a map under every sequence of enabled operations. *)
Theorem drrip_cache_refines ruby (invalidateEntry : Entry.t nat D -> Entry.t nat D) (p : CacheMemory.Params) policy raw c0 c1 os :
  Gem5Facts.keeps invalidateEntry -> Gem5Correct.proper ruby p -> ready policy -> Z.to_nat (CacheMemory.p_assoc p) = assoc ->
  CacheMemory.CacheMemory ruby p policy raw = Ret c0 -> CacheMemory.init ruby c0 = Ret c1 ->
  Gem5Correct.enabled_all ruby invalidateEntry c1 os ->
  exists c, outcome_fold (Gem5Correct.exec ruby invalidateEntry) os c1 = Ret c /\
    forall a, CacheMemory.is_line ruby a = true ->
      CacheMemory.lookup ruby c a = Ret (foldl Gem5Correct.spec ∅ (map snd os) !! a).
Proof.
  intros Hk Hp Hr Ha E0 E1 Hos.
  destruct (Gem5Correct.run_refines ruby invalidateEntry p policy raw c0 c1 os Hk Hp Hr Ha E0 E1 Hos) as (c & E & Hl & _).
  by exists c.
Qed.
End Drrip.
End Gem5PolicyCorrect.
